(* ===== verification/_CoqProject ===== *)
-Q . S2P
Prelude.v
Data.v
FileStats.v
Protocol.v
Prefetch.v
BindingsInterface.v
Dispatcher.v
WorkerBindings.v
Client.v
Regex.v
ExtensionLoads.v
Text.v
WasmModule.v
Stringify.v
BindingsBase.v
SampleModule.v
BindingsMemory.v
BindingsThreads.v
BindingsFiles.v
JsMap.v
S3.v
BrowserRuntime.v
BrowserFiles.v
ClientApi.v
Streams.v
AsyncConnection.v
Rpc.v
Vgi.v
VgiRequests.v
VgiRegions.v
VgiScripts.v
VgiEnsure.v
VgiServed.v
VgiLink.v
SabRing.v
SabChannel.v
SabOrder.v
SabFacts.v
SabErrors.v
HttpFetch.v
HttpFacts.v
HttpMailbox.v
HttpHeaders.v
UdfRuntime.v
UdfFacts.v
UdfSample.v
NodeRuntime.v
NodeFiles.v
NodeSample.v
EngineStubs.v
OAuth.v
OAuthFacts.v
Platform.v
Instantiate.v
InstantiateFacts.v
PthreadWorker.v
MutableGlobals.v
MutableGlobalsFacts.v
DylinkGlue.v
DylinkFacts.v
DylinkOverlay.v
Shell.v
ShellFacts.v
ShellEmbed.v
EngineCalls.v
React.v
AppWorker.v
