(* ===== verification/Prelude.v ===== *)
(** * Haybarn-Wasm: a verification library of the TypeScript runtime

    The repository compiles an SQL engine to WebAssembly and wraps it in a
    TypeScript package, [packages/duckdb-wasm/src].  This library models that
    package, the JavaScript of [src/lib] that moves bytes between the engine
    and a worker, the code a build script puts into the dynamic linker
    ([scripts/]), what the terminal shell keeps ([packages/duckdb-wasm-shell]), the
    providers for React ([packages/react-duckdb]) and the worker that serves the site
    ([packages/duckdb-wasm-app/_worker.js]).
    Paths below are relative to the package unless they start with [lib/],
    [scripts/] or [packages/].

    ** The program

    A page holds an [AsyncDuckDB] (the client).  It posts requests to a web
    worker and keeps a promise for each.  In the worker an
    [AsyncDuckDBDispatcher] handles the requests, several of them suspended at
    awaits at the same time, and calls the bindings.  The bindings
    ([DuckDBBindingsBase]) put arguments on the heap of the wasm module, call
    the engine, and read its results back.  The engine calls the runtime
    ([runtime_browser.ts]) to open, read and write files: over HTTP, from S3
    with signed requests, from a [File], or through the browser's private file
    system.  Extensions can be downloaded ahead of the [LOAD] that needs them.

    An attached VGI catalog is served by a worker of its own.  The engine asks the
    page for it and blocks; the page's bridge ([vgi/webworker-bridge.ts]) boots the
    worker, or registers a region of shared memory with an adapter that is up, and
    signals the engine.  Then engine and worker exchange bytes through the slots and
    rings of a channel in shared memory ([lib/vgi-sab-ring.js], [lib/js-stubs.js]).

    ** How the code is written here

    - Synchronous code is a computation of the monad [JS S]: a state [S], and an
      [Outcome] that is a value or a thrown error; [try_catch] and [try_finally]
      are the statements.
    - An async method is cut at its awaits.  The parts are separate definitions,
      the suspended call is data ([Await], [PrefetchTask]), and step relations
      ([worker_step], [prefetch_step], [system_step]) let anything else happen
      in between.  Client methods are [Async] programs, whose only await is the
      posting of a task.
    - A JavaScript number that holds an integer is a [Z]; 32-bit operations are
      written out ([int32], [shr32]), and a number that may be [NaN] or a
      fraction on the heap is a [HeapNumber].  A string is a sequence of code
      units below 256.
    - A [Map] is a [gmap] where its order does not matter, an association list
      in insertion order where the code iterates over it ([JsMap]).
    - Third-party and generated code is a class or a parameter: the wasm module
      ([DuckDBModule], with the laws [DuckDBModuleLaws]), the browser
      ([Browser]), Node's [fs] ([NodeFS]), apache-arrow, SHA-256, URL parsing, clocks.

    ** The files

    - [Prelude]: outcomes, the monad, Hoare triples over it, rule induction on
      [reachable], tactics and hints.
    - [Data]: [status.ts], [bindings/config.ts], [bindings/insert_options.ts],
      [bindings/tokens.ts], [bindings/web_file.ts], [log.ts], [json_typedef.ts]
      and the enums and records of [bindings/runtime.ts].
    - [FileStats]: [bindings/file_stats.ts].
    - [Protocol]: [parallel/worker_request.ts].
    - [Prefetch]: [parallel/extension_prefetch.ts]; the module's variables are
      [PrefetchState].
    - [BindingsInterface]: [bindings/bindings_interface.ts] as a class, the
      promise the bindings make to the dispatcher.
    - [Dispatcher]: [parallel/worker_dispatcher.ts] and
      [parallel/worker_globals.ts]; [onMessage] up to its first await, [resume]
      after it, [watch_tick] for the timer of the cancel watch.
    - [WorkerBindings]: an invariant kept by every operation of the interface is
      kept by every run of the worker.
    - [Client]: the channel part of [parallel/async_bindings.ts]: [attach],
      [detach], [postTask], [onMessage], [onError], [onClose].
    - [ClientApi]: the methods of [AsyncDuckDB] over that channel.
    - [Regex]: ECMAScript matching, and the patterns of [utils/opfs_util.ts] and
      of [bindings/bindings_base.ts].  [ExtensionLoads] compares the latter with a
      reader of scripts.
    - [Text], [Stringify]: UTF-8 and [JSON.stringify].
    - [WasmModule]: [bindings/duckdb_module.ts] and the helpers of
      [bindings/runtime.ts]; the trace of a [Module] records what is allocated,
      freed, called and written.
    - [BindingsBase]: [bindings/bindings_base.ts], and its instance of
      [BindingsInterface].  [BindingsMemory], [BindingsThreads] and
      [BindingsFiles] prove what it promises; [SampleModule] is a small engine
      on which the witnesses run.
    - [S3]: [utils/s3_helper.ts].
    - [BrowserRuntime]: [bindings/runtime_browser.ts]; [BrowserFiles] proves
      what it promises.
    - [NodeRuntime]: [bindings/runtime_node.ts]; [NodeFiles] has the laws of a disk, the
      files by id as a specification, and the refinement; [NodeSample] is a small disk.
    - [Streams], [AsyncConnection]: [bindings/connection.ts] and
      [parallel/async_connection.ts].
    - [Rpc]: client, channels and worker composed.
    - [Vgi]: [vgi/webworker-bridge.ts] as a step relation over the state its closure
      keeps.  [VgiRequests] proves that requests are answered, [VgiRegions] what an
      adapter is told of, [VgiScripts] which scripts run.
    - [VgiEnsure]: the engine's side of a request, [vgi_wasm_ensure_worker].  [VgiLink]
      runs any number of such calls next to the bridge, [call_step] by [call_step];
      [VgiServed] has the invariants of the bridge for what its success means.
    - [SabRing]: the channel, its slots and rings; every access to the shared memory
      by any thread is a step.  [SabChannel] has the invariant of a slot and what an
      access does to it, [SabOrder] shows that every step keeps it, [SabFacts] states
      what follows and the layout.  [SabErrors] adds the calls that read the terminal
      error of a slot, load by load.
    - [HttpFetch]: the mailbox through which an engine thread ([lib/src/http_fetch.cc])
      has the helper worker ([bindings/http_fetch_helper.ts]) fetch a URL; the protocol of
      a slot as a step relation, and the wire format.  [HttpFacts] has its invariant.
      [HttpMailbox] puts the slots together, with the callers' search and the helper's
      loop; [HttpHeaders] has the texts of requests and responses.  The engine's
      [HTTPUtil::ToStatusCode] and its header map are parameters.
    - [UdfRuntime]: [bindings/udf_runtime.ts], the call of a scalar function, over a heap
      of typed arrays; the function works on a state of its own and may throw any value.
      [UdfFacts] has the laws of such a heap and what the engine gets;
      [UdfSample] is a small heap on which the witnesses run.

    - [OAuth]: [vgi/oauth-bridge.ts] and the call of [lib/js-stubs.js] that blocks on it;
      [OAuthFacts] has the invariant of the two.  [EngineStubs] has the texts that go
      with it, random bytes, and sleeping.
    - [Instantiate]: [instantiate] of [bindings/bindings_base.ts] as a step relation, the
      platform's bindings ([bindings/bindings_browser_*.ts], [bindings/bindings_node_*.ts])
      and the start of the HTTP helper.  [InstantiateFacts] states what they promise.
    - [Platform]: [platform.ts] and [createDuckDB] of [targets/].
    - [PthreadWorker]: the message handler of [targets/duckdb-browser-coi.pthread.worker.ts].
    - [MutableGlobals], [DylinkGlue]: the code of [scripts/patch_dylink_glue.cjs] in the
      dynamic linker, next to the code it replaces.  [MutableGlobalsFacts] has the grammar
      of wasm binaries and what the scan of a binary finds; [DylinkFacts] the simulation
      between the linker as it was and as it is patched; [DylinkOverlay] compares the
      overlay of the signature conversions with the copy it stands for.
    - [Shell]: [packages/duckdb-wasm-shell/src/utils/history_store.ts], [utils/files.ts], and
      the queries in the address of [shell.ts].  [ShellFacts] states what a visit finds;
      [ShellEmbed] has the start of the shell, [embed], on every outcome.
    - [EngineCalls]: the stubs of [lib/js-stubs.js] that forward, the runtimes they reach,
      and the worker entry points of [targets/].
    - [React]: the providers of [packages/react-duckdb], and what they promise.
    - [AppWorker]: the worker of [packages/duckdb-wasm-app/_worker.js] that serves the site.

    ** What is proved

    - Calls and responses. [Rpc] is the refinement: a call is answered by the response
      to its own request, and none is lost. It rests on the dispatcher's invariant
      (each request is answered once or suspended, an INSTANTIATE of an initialised
      worker twice, with the right payload, under fresh ids) and on the client's (a
      message settles the promise of the task it names, and nothing else).
    - Cancellation. Only a START arms the watch on the shared flag, and the message
      that ends its query stops it; so does any other connection's result, and one
      that is armed while an OPEN awaits stays. A raised flag reaches the engine and
      is lowered only if it did.
    - Bindings. No buffer is freed twice or after it was handed over, and none leaks
      unless a call of the engine or a heap write throws; query texts arrive
      unchanged; an extension load starts with one thread, and the user's thread count
      is put back before other statements, if no statement sets it meanwhile; the
      pattern that tells loads apart accepts every load, and what else it accepts is
      characterised; ids of functions are fresh; the registries follow the engine.
    - Streams. Both iterators deliver the chunks of a result in order, and both [send]
      methods poll until the header is there; for the asynchronous one also when
      requests throw, are never answered, or the client is detached meanwhile.
    - Files. Opening over HTTP gives the content of the file, null or a throw, and
      what a server must do for the first is stated; a ranged read writes what the
      server answered for the range, or throws and writes nothing; OPFS handles are
      prepared once; a client query registers and drops the OPFS files its text names,
      found by a pattern whose language is characterised.
    - Files under Node. The runtime refines files by id over the disk, call by call: a
      call fails only where the id is not open, the name is missing or the disk
      refuses ([may_refuse]), but for opens that answer null by a flag alone;
      descriptors are given back; what was written is read.
    - S3. URLs split and join; the signature covers the request that is sent.
    - Prefetching. The bytes held are counted exactly and bounded; a reset voids
      downloads in flight; a prefetch serves one load; the hash is the digest of chunk
      digests.
    - VGI requests. A request the bridge received is signalled once, or waits where it
      will be; boots are shared; adapters keep distinct regions, at most the bound,
      and lose none with a slot that is taken; only scripts of admitted origins run;
      the engine waits at most thirty seconds. With the engine's calls and the page
      together, a request that was posted is under way, signalled or waiting, once,
      and a call that returns success has a worker that runs its script and has said
      it is ready; [regions_given_up_stay_ready] shows what is not so for adapters.
    - VGI streams. Whatever the interleaving, each ring delivers the bytes sent, in
      order, within its capacity; a worker of a claim that is over moves nothing; the
      slots of a channel do not overlap. An error that is read is the one reported for
      its claim, and one that was announced can be read, if a worker stores an error
      only while its claim is open; [terminal_errors_may_mix] shows the other case.
    - HTTP helper. A slot serves one caller; a request is read only while its caller
      waits; the response goes into a block of its length and to the caller that
      asked. A call holds one slot at most, the helper does not sleep on a request,
      and a response is parsed into the engine's code for the status, the headers and
      the body it was made of. A slot is safe when no caller claims it between the
      last three compare-exchanges of one that gives up;
      [late_exchange_frees_anothers_slot] shows what happens otherwise.
    - Scalar functions. If allocations succeed and no memory is detached, a function
      is called once for each row, in order, on the values the heap held before the
      call; its results (of a VARCHAR function the lengths and offsets) are in the
      buffers that are answered, and the text of whatever it throws reaches the
      engine.
    - Authorizations. With one bridge, a call returns the code the page wrote for it,
      or that error, and does return, as long as no call gives up before the page's
      timer; codes are cut after 8184 bytes, and null if there is no memory.
    - Loading. The engine is loaded once, and a call returns when it is up, if calls
      do not overlap and the load succeeds; the bundle that is selected is the best
      the platform can run.
    - Extensions that are linked. Resolving the main module's symbols on first use
      gives every look-up what copying them at startup gives; the scan of a side
      module finds its mutable globals, so that relocation with it is relocation by
      probing.
    - The shell. Queries kept in the address come back unchanged; a visit restores the
      inputs of earlier ones, in order up to 1024, then attaches the database and
      passes the saved queries. Every response of the site isolates its page but one.
    - Calls of the engine arrive at a function of the runtime, with the module and all
      arguments. The React provider makes one worker, and every caller gets its
      database.
    - Errors. Several theorems state how the code behaves where it departs from its
      intent: a second INSTANTIATE, requests after a worker failure, the page counters
      of a file, endpoints with a trailing slash, ends of streams that come early,
      errors of a claim that is over, a slot freed by a caller that left it, channels
      beyond 2^31, a memory that grows while a scalar function is called, files that
      Node opens twice or renames, codes that come after a call gave up, loads that
      overlap or fail, functions on worker threads, clients detached while a poll is
      under way.

    ** Bounds

    Loops over data are structural, or have a measure that is proved enough
    ([chunk_fuel_enough], [scan_fuel]); the matcher of [Regex] gives an iteration
    the length of the text.  Loops that wait for the engine ([send_loop],
    [poll_loop], [fetch_loop]) take a bound and return [None] when it is used
    up; the theorems about them assume that the engine answers after some number
    of polls, and show that any larger bound gives the answer.  The wait of
    [VgiEnsure] has a time limit, so a fuel of 31 is enough, which is proved.

    The theorems about the rings hold while fewer than 2^31 bytes go through a ring
    under one claim ([bounded]), which is what a lane can count; [positions_wrap]
    shows what happens beyond.  Time does not occur in [SabRing]: a bounded wait is a
    step that may be taken at any moment.

    ** What is not modelled

    - The factory that emscripten generates.
    - Console output, and code that only types values.
    - Of the linker's patch, the rewriting of the linker's text; [UTF8ArrayToString],
      [addFunction], [isImmutableGlobal] are parameters.
    - Of the shell, the terminal, which is in Rust, the clipboard and number formatting.
    - The engine ([lib/]), the app and the benchmarks. *)
From stdpp Require Import base tactics list gmap strings pretty.
From Stdlib Require Import ZArith Lia.

Declare Scope js_scope.
Delimit Scope js_scope with js.

(** ** Errors and completions

    A JavaScript computation ends normally or by throwing.  An error carries
    what the dispatcher forwards of it: its name, message and stack. *)

Record JsError := MkError {
  err_name : string;
  err_message : string;
  err_stack : option string
}.

#[export] Instance JsError_eq_dec : EqDecision JsError.
Proof. solve_decision. Defined.

(** [new Error(message)]; the stack is engine-defined and left out. *)
Definition Error (message : string) : JsError := MkError "Error" message None.

(** [Error.prototype.toString]: an empty name or message goes without the colon. *)
Definition error_string (e : JsError) : string :=
  if String.eqb (err_name e) "" then err_message e
  else if String.eqb (err_message e) "" then err_name e
  else err_name e +:+ ": " +:+ err_message e.

Inductive Outcome (A : Type) : Type :=
| Normal (a : A)
| Thrown (e : JsError).
Arguments Normal {A} a.
Arguments Thrown {A} e.

#[export] Instance Outcome_eq_dec {A} `{EqDecision A} : EqDecision (Outcome A).
Proof. solve_decision. Defined.

Definition outcome_map {A B} (f : A -> B) (o : Outcome A) : Outcome B :=
  match o with Normal a => Normal (f a) | Thrown e => Thrown e end.

Definition is_normal {A} (o : Outcome A) : bool :=
  match o with Normal _ => true | Thrown _ => false end.

(** ** Stateful computations that may throw

    A throw keeps the state reached so far, as it does in JavaScript. *)

Definition JS (S A : Type) : Type := S -> Outcome A * S.

Section Monad.
Context {S : Type}.

Definition ret {A} (a : A) : JS S A := fun s => (Normal a, s).
Definition throw {A} (e : JsError) : JS S A := fun s => (Thrown e, s).
Definition bind {A B} (m : JS S A) (k : A -> JS S B) : JS S B := fun s =>
  match m s with
  | (Normal a, s') => k a s'
  | (Thrown e, s') => (Thrown e, s')
  end.

Definition gets {A} (f : S -> A) : JS S A := fun s => (Normal (f s), s).
Definition modify (f : S -> S) : JS S unit := fun s => (Normal tt, f s).

(** [try { m } catch (e) { h(e) }] *)
Definition try_catch {A} (m : JS S A) (h : JsError -> JS S A) : JS S A := fun s =>
  match m s with
  | (Normal a, s') => (Normal a, s')
  | (Thrown e, s') => h e s'
  end.

(** [try { m } finally { f }]: [f] runs on both completions, and a throw of
    its own replaces the completion of [m]. *)
Definition try_finally {A} (m : JS S A) (f : JS S unit) : JS S A := fun s =>
  match m s with
  | (o, s') =>
      match f s' with
      | (Normal _, s'') => (o, s'')
      | (Thrown e, s'') => (Thrown e, s'')
      end
  end.

(** [for (const x of l) body(x)] *)
Fixpoint for_of {A} (l : list A) (body : A -> JS S unit) : JS S unit :=
  match l with
  | [] => ret tt
  | x :: l' => bind (body x) (fun _ => for_of l' body)
  end.

(** A loop that builds an array: [for (const x of l) out.push(body(x))]. *)
Fixpoint map_of {A B} (l : list A) (body : A -> JS S B) : JS S (list B) :=
  match l with
  | [] => ret []
  | x :: l' => bind (body x) (fun y => bind (map_of l' body) (fun ys => ret (y :: ys)))
  end.
End Monad.

(** Run a computation of a component on the part of the state it owns. *)
Definition zoom {S T A} (get : S -> T) (put : T -> S -> S) (m : JS T A) : JS S A :=
  fun s => let '(o, t) := m (get s) in (o, put t s).

Notation "'let!' x ':=' m 'in' k" := (bind m (fun x => k))
  (at level 10, x name, m at level 100, k at level 200) : js_scope.
Notation "'let!' ' p ':=' m 'in' k" := (bind m (fun x => match x with p => k end))
  (at level 10, p pattern, m at level 100, k at level 200) : js_scope.
Notation "m ';;;' k" := (bind m (fun _ => k))
  (at level 199, right associativity) : js_scope.
Notation "'when' b 'then' m" := (if b then m else ret tt)
  (at level 198, m at level 198) : js_scope.
Open Scope js_scope.

(** ** Equations of the combinators, used as rewrite rules *)

Section MonadLaws.
Context {S : Type}.

Lemma bind_ret_l {A B} (a : A) (k : A -> JS S B) s : bind (ret a) k s = k a s.
Proof. reflexivity. Qed.

Lemma bind_throw {A B} e (k : A -> JS S B) s : bind (throw e) k s = (Thrown e, s).
Proof. reflexivity. Qed.

Lemma bind_assoc {A B C} (m : JS S A) (f : A -> JS S B) (g : B -> JS S C) s :
  bind (bind m f) g s = bind m (fun a => bind (f a) g) s.
Proof. unfold bind. by destruct (m s) as [[a|e] s']. Qed.

Lemma bind_normal {A B} (m : JS S A) (k : A -> JS S B) s a s' :
  m s = (Normal a, s') -> bind m k s = k a s'.
Proof. intros H. unfold bind. by rewrite H. Qed.

Lemma bind_thrown {A B} (m : JS S A) (k : A -> JS S B) s e s' :
  m s = (Thrown e, s') -> bind m k s = (Thrown e, s').
Proof. intros H. unfold bind. by rewrite H. Qed.

Lemma bind_inv_normal {A B} (m : JS S A) (k : A -> JS S B) s b s' :
  bind m k s = (Normal b, s') ->
  exists a s1, m s = (Normal a, s1) /\ k a s1 = (Normal b, s').
Proof. unfold bind. destruct (m s) as [[a|e] s1]; [eauto|congruence]. Qed.

Lemma for_of_app {A} (l1 l2 : list A) (body : A -> JS S unit) s :
  for_of (l1 ++ l2) body s = bind (for_of l1 body) (fun _ => for_of l2 body) s.
Proof.
  revert s. induction l1 as [|x l1 IH]; intros s; [done|].
  cbn. unfold bind. destruct (body x s) as [[[]|e] s']; [|done].
  by rewrite IH.
Qed.
End MonadLaws.

(** ** Triples

    [triple P m Q E]: from a state in [P], a normal completion of [m] with
    value [a] ends in [Q a], and a throw of [e] in [E e].  Every [m] here is a
    total function, so the triple is a total-correctness statement. *)

Definition post_of {S A} (Q : A -> S -> Prop) (E : JsError -> S -> Prop)
    (r : Outcome A * S) : Prop :=
  match r with
  | (Normal a, s) => Q a s
  | (Thrown e, s) => E e s
  end.

Definition triple {S A} (P : S -> Prop) (m : JS S A)
    (Q : A -> S -> Prop) (E : JsError -> S -> Prop) : Prop :=
  forall s, P s -> post_of Q E (m s).

(** The common case: [m] preserves [I] however it completes. *)
Definition preserves {S A} (I : S -> Prop) (m : JS S A) : Prop :=
  forall s, I s -> I (m s).2.

Section Triples.
Context {S : Type}.
Implicit Types (P I : S -> Prop).

Lemma triple_bind {A B} P (m : JS S A) (k : A -> JS S B) R Q E :
  triple P m R E -> (forall a, triple (R a) (k a) Q E) ->
  triple P (bind m k) Q E.
Proof.
  intros Hm Hk s Hs. specialize (Hm s Hs). unfold bind.
  destruct (m s) as [[a|e] s']; [by apply Hk|done].
Qed.

Lemma triple_conseq {A} P P' (m : JS S A) Q Q' E E' :
  triple P' m Q' E' -> (forall s, P s -> P' s) ->
  (forall a s, Q' a s -> Q a s) -> (forall e s, E' e s -> E e s) ->
  triple P m Q E.
Proof.
  intros Hm HP HQ HE s Hs. specialize (Hm s (HP s Hs)).
  destruct (m s) as [[a|e] s']; cbn in *; auto.
Qed.

Lemma triple_try_catch {A} P (m : JS S A) h Q E E' :
  triple P m Q E' -> (forall e, triple (E' e) (h e) Q E) -> triple P (try_catch m h) Q E.
Proof.
  intros Hm Hh s Hs. specialize (Hm s Hs). unfold try_catch.
  destruct (m s) as [[a|e] s']; [done|by apply Hh].
Qed.

Lemma triple_ret {A} P (a : A) Q E : (forall s, P s -> Q a s) -> triple P (ret a) Q E.
Proof. intros HQ s. apply HQ. Qed.

Lemma triple_throw {A} P e (Q : A -> S -> Prop) E : (forall s, P s -> E e s) -> triple P (throw e) Q E.
Proof. intros HE s. apply HE. Qed.

(** A pure fact of the precondition may be taken out. *)
Lemma triple_pure {A} P (phi : Prop) (m : JS S A) Q E :
  (phi -> triple P m Q E) -> triple (fun s => P s /\ phi) m Q E.
Proof. intros H s [Hs Hphi]. by apply H. Qed.

Lemma preserves_triple {A} I (m : JS S A) :
  preserves I m <-> triple I m (fun _ => I) (fun _ => I).
Proof.
  unfold preserves, triple. split; intros H s Hs; specialize (H s Hs);
    destruct (m s) as [[a|e] s']; done.
Qed.

Lemma preserves_ret {A} I (a : A) : preserves I (ret a).
Proof. by intros s. Qed.

Lemma preserves_throw {A} I e : preserves I (@throw S A e).
Proof. by intros s. Qed.

Lemma preserves_gets {A} I (f : S -> A) : preserves I (gets f).
Proof. by intros s. Qed.

Lemma preserves_modify I f : (forall s, I s -> I (f s)) -> preserves I (modify f).
Proof. intros H s. apply H. Qed.

Lemma preserves_bind {A B} I (m : JS S A) (k : A -> JS S B) :
  preserves I m -> (forall a, preserves I (k a)) -> preserves I (bind m k).
Proof.
  intros Hm Hk s Hs. specialize (Hm s Hs). unfold bind.
  destruct (m s) as [[a|e] s']; [by apply Hk|done].
Qed.

Lemma preserves_try_catch {A} I (m : JS S A) h :
  preserves I m -> (forall e, preserves I (h e)) -> preserves I (try_catch m h).
Proof.
  intros Hm Hh s Hs. specialize (Hm s Hs). unfold try_catch.
  destruct (m s) as [[a|e] s']; [done|by apply Hh].
Qed.

Lemma preserves_try_finally {A} I (m : JS S A) f :
  preserves I m -> preserves I f -> preserves I (try_finally m f).
Proof.
  intros Hm Hf s Hs. specialize (Hm s Hs). unfold try_finally.
  destruct (m s) as [o s']. specialize (Hf s' Hm).
  by destruct (f s') as [[[]|e] s''].
Qed.

Lemma preserves_for_of {A} I (l : list A) (body : A -> JS S unit) :
  (forall a, preserves I (body a)) -> preserves I (for_of l body).
Proof.
  intros Hb. induction l as [|x l IH]; cbn; [apply preserves_ret|].
  by apply preserves_bind.
Qed.

Lemma preserves_map_of {A B} I (l : list A) (body : A -> JS S B) :
  (forall a, preserves I (body a)) -> preserves I (map_of l body).
Proof.
  intros Hb. induction l as [|x l IH]; cbn; [apply preserves_ret|].
  apply preserves_bind; [done|]. intros y.
  apply preserves_bind; [done|]. intros ys. apply preserves_ret.
Qed.

Lemma preserves_if {A} I (b : bool) (m1 m2 : JS S A) :
  preserves I m1 -> preserves I m2 -> preserves I (if b then m1 else m2).
Proof. by destruct b. Qed.

(** A computation that never throws. *)
Definition no_throw {A} (m : JS S A) : Prop := forall s, is_normal (m s).1 = true.

Lemma try_finally_always {A} (m : JS S A) f s :
  no_throw f -> (try_finally m f s).1 = (m s).1 /\
                (try_finally m f s).2 = (f (m s).2).2.
Proof.
  intros Hf. unfold try_finally. destruct (m s) as [o s']. specialize (Hf s'). cbn.
  destruct (f s') as [[[]|e] s'']; cbn in *; [by split|discriminate Hf].
Qed.
End Triples.

(** Running a component inside a larger state preserves what the component preserves. *)
Lemma preserves_zoom {S T A} (get : S -> T) (put : T -> S -> S) (I : S -> Prop) (J : T -> Prop)
    (m : JS T A) :
  preserves J m -> (forall s, I s -> J (get s)) ->
  (forall s t, I s -> J t -> I (put t s)) -> preserves I (zoom get put m).
Proof.
  intros Hm Hg Hp s Hs. unfold zoom. specialize (Hm (get s) (Hg s Hs)).
  destruct (m (get s)) as [o t]. cbn in *. by apply Hp.
Qed.

Create HintDb js.
#[export] Hint Resolve preserves_ret preserves_throw preserves_gets preserves_if : js.
#[export] Hint Resolve preserves_bind preserves_try_catch preserves_try_finally : js.
#[export] Hint Resolve preserves_for_of preserves_map_of : js.
#[export] Hint Unfold ret throw bind gets modify try_catch try_finally zoom : js.

(** Cases on every condition of the goal. *)
Ltac ifs := repeat match goal with |- context [if ?b then _ else _] => destruct b eqn:? end.
(** Unfold the monad and split every match of the goal and the context that the
    computation is stuck on. *)
Ltac js_simpl := autounfold with js in *; cbn in *.
Ltac js_step :=
  match goal with
  | |- context [match ?x with _ => _ end] => destruct x eqn:?
  | H : context [match ?x with _ => _ end] |- _ => destruct x eqn:?
  end.
Ltac js_crush := js_simpl; repeat (js_step; js_simpl; simplify_eq/=); try done.

(** ** Reachability of step relations *)

Section Steps.
Context {S : Type} (step : S -> S -> Prop).

Inductive reachable (init : S -> Prop) : S -> Prop :=
| reach_init s : init s -> reachable init s
| reach_step s s' : reachable init s -> step s s' -> reachable init s'.

Lemma reachable_invariant (init I : S -> Prop) :
  (forall s, init s -> I s) -> (forall s s', I s -> step s s' -> I s') ->
  forall s, reachable init s -> I s.
Proof. induction 3; eauto. Qed.
End Steps.

(** ** Lists, options and integers *)

Definition opt_or {A} (o : option A) (d : A) : A :=
  match o with Some a => a | None => d end.

Fixpoint sum_list_Z (l : list Z) : Z :=
  match l with [] => 0%Z | x :: l' => (x + sum_list_Z l')%Z end.

Lemma sum_list_Z_app l1 l2 : sum_list_Z (l1 ++ l2) = (sum_list_Z l1 + sum_list_Z l2)%Z.
Proof. induction l1 as [|x l1 IH]; cbn; [lia|]. rewrite IH. lia. Qed.

(** The number of bytes of an array, as JavaScript's [length]. *)
Definition lenZ {A} (l : list A) : Z := Z.of_nat (length l).

Lemma lenZ_app {A} (l1 l2 : list A) : lenZ (l1 ++ l2) = (lenZ l1 + lenZ l2)%Z.
Proof. unfold lenZ. rewrite length_app. lia. Qed.

Lemma lenZ_nonneg {A} (l : list A) : (0 <= lenZ l)%Z.
Proof. unfold lenZ. lia. Qed.

(** [subarray(a, b)] of an array, with its indices clamped to the array. *)
Definition subarray {A} (l : list A) (a b : Z) : list A :=
  take (Z.to_nat (b - a)) (drop (Z.to_nat a) l).

Lemma subarray_length {A} (l : list A) a b :
  (0 <= a)%Z -> (a <= b)%Z -> (b <= lenZ l)%Z -> lenZ (subarray l a b) = (b - a)%Z.
Proof.
  intros Ha Hab Hb. unfold subarray, lenZ in *.
  rewrite length_take, length_drop. lia.
Qed.

Lemma subarray_app {A} (l : list A) a b c :
  (0 <= a)%Z -> (a <= b)%Z -> (b <= c)%Z ->
  subarray l a b ++ subarray l b c = subarray l a c.
Proof.
  intros Ha Hab Hbc. unfold subarray.
  replace (drop (Z.to_nat b) l) with (drop (Z.to_nat (b - a)) (drop (Z.to_nat a) l))
    by (rewrite drop_drop; f_equal; lia).
  replace (Z.to_nat (c - a)) with (Z.to_nat (b - a) + Z.to_nat (c - b)) by lia.
  by rewrite take_take_drop.
Qed.

Lemma subarray_full {A} (l : list A) : subarray l 0 (lenZ l) = l.
Proof. unfold subarray, lenZ. rewrite drop_0. apply take_ge. lia. Qed.

(** Elements that [f] tells apart in a list are equal when [f] agrees on them. *)
Lemma NoDup_map_inj {A B} (f : A -> B) l x y :
  NoDup (map f l) -> x ∈ l -> y ∈ l -> f x = f y -> x = y.
Proof.
  induction l as [|z l IH]; cbn; [by intros _ ?%not_elem_of_nil|].
  intros [Hz Hl]%NoDup_cons [->|Hx]%elem_of_cons [->|Hy]%elem_of_cons E; auto.
  - destruct Hz. rewrite E. apply list_elem_of_fmap. eauto.
  - destruct Hz. rewrite <- E. apply list_elem_of_fmap. eauto.
Qed.
