(* ===== verification/Data.v ===== *)
(** * Data: the plain data types and pure functions the components exchange

    [status.ts], [config.ts], [insert_options.ts], [tokens.ts], [web_file.ts],
    [interrupt.ts], [log.ts], [json_typedef.ts] and the enums of [runtime.ts].
    An optional property [p?: T] is an [option]; a property typed [T | null]
    that the code also leaves undefined is an [option] too. *)
From S2P Require Import Prelude.
From stdpp Require Import base tactics list strings pretty.
From Stdlib Require Import ZArith Lia.
Open Scope Z_scope.

(** ** JSON-like values ([any] in the source: statement parameters) *)

Inductive Json : Type :=
| JNull
| JBool (b : bool)
| JNumber (n : Z)
| JString (s : string)
| JArray (l : list Json)
| JObject (l : list (string * Json)).

(** ** status.ts *)

Definition SUCCESS_CODE : Z := 0.
Definition MAX_ARROW_ERROR : Z := 255.
Definition DUCKDB_WASM_RETRY : Z := 256.

Definition IsArrowBuffer (status : Z) : bool := status <=? MAX_ARROW_ERROR.
Definition IsDuckDBWasmRetry (status : Z) : bool := status =? DUCKDB_WASM_RETRY.

(** ** runtime.ts: data protocols, open flags, file infos *)

Inductive DuckDBDataProtocol :=
| BUFFER | NODE_FS | BROWSER_FILEREADER | BROWSER_FSACCESS | HTTP | S3.

#[export] Instance DuckDBDataProtocol_eq_dec : EqDecision DuckDBDataProtocol.
Proof. solve_decision. Defined.

Definition protocol_number (p : DuckDBDataProtocol) : Z :=
  match p with
  | BUFFER => 0 | NODE_FS => 1 | BROWSER_FILEREADER => 2
  | BROWSER_FSACCESS => 3 | HTTP => 4 | S3 => 5
  end.

Definition FILE_FLAGS_READ : Z := Z.shiftl 1 0.
Definition FILE_FLAGS_WRITE : Z := Z.shiftl 1 1.
Definition FILE_FLAGS_DIRECT_IO : Z := Z.shiftl 1 2.
Definition FILE_FLAGS_FILE_CREATE : Z := Z.shiftl 1 3.
Definition FILE_FLAGS_FILE_CREATE_NEW : Z := Z.shiftl 1 4.
Definition FILE_FLAGS_APPEND : Z := Z.shiftl 1 5.
Definition FILE_FLAGS_PRIVATE : Z := Z.shiftl 1 6.
Definition FILE_FLAGS_NULL_IF_NOT_EXISTS : Z := Z.shiftl 1 7.

(** [flags & mask] used as a condition. *)
Definition has_flag (flags mask : Z) : bool := negb (Z.land flags mask =? 0).

Record S3Config := {
  s3_region : option string;
  s3_endpoint : option string;
  s3_accessKeyId : option string;
  s3_secretAccessKey : option string;
  s3_sessionToken : option string
}.

Record DuckDBFileInfo := {
  cacheEpoch : Z;
  fileId : Z;
  fileName : string;
  dataProtocol : DuckDBDataProtocol;
  dataUrl : option string;
  reliableHeadRequests : option bool;
  allowFullHttpReads : option bool;
  forceFullHttpReads : option bool;
  s3Config : option S3Config
}.

Record DuckDBGlobalFileInfo := {
  g_cacheEpoch : Z;
  g_reliableHeadRequests : option bool;
  g_allowFullHttpReads : option bool;
  g_forceFullHttpReads : option bool;
  g_s3Config : option S3Config
}.

(** ** config.ts *)

Record DuckDBQueryConfig := {
  queryPollingInterval : option Z;
  castBigIntToDouble : option bool;
  castTimestampToDate : option bool;
  castDurationToTime64 : option bool;
  castDecimalToDouble : option bool
}.

Record DuckDBFilesystemConfig := {
  cfg_reliableHeadRequests : option bool;
  cfg_allowFullHTTPReads : option bool;
  cfg_forceFullHTTPReads : option bool
}.

Inductive OPFSFileHandling := opfs_auto | opfs_manual.

#[export] Instance OPFSFileHandling_eq_dec : EqDecision OPFSFileHandling.
Proof. solve_decision. Defined.

Record DuckDBOPFSConfig := { fileHandling : option OPFSFileHandling }.

Inductive DuckDBAccessMode :=
| UNDEFINED_MODE | AUTOMATIC | READ_ONLY | READ_WRITE.

Record DuckDBConfig := {
  path : option string;
  accessMode : option DuckDBAccessMode;
  maximumThreads : option Z;
  useDirectIO : option bool;
  query_config : option DuckDBQueryConfig;
  filesystem : option DuckDBFilesystemConfig;
  allowUnsignedExtensions : option bool;
  arrowLosslessConversion : option bool;
  customUserAgent : option string;
  opfs : option DuckDBOPFSConfig;
  singleThreadedExtensionLoad : option bool
}.

(** [{}] *)
Definition empty_config : DuckDBConfig :=
  {| path := None; accessMode := None; maximumThreads := None; useDirectIO := None;
     query_config := None; filesystem := None; allowUnsignedExtensions := None;
     arrowLosslessConversion := None; customUserAgent := None; opfs := None;
     singleThreadedExtensionLoad := None |}.

Definition set_useDirectIO (b : bool) (c : DuckDBConfig) : DuckDBConfig :=
  {| path := path c; accessMode := accessMode c; maximumThreads := maximumThreads c;
     useDirectIO := Some b; query_config := query_config c; filesystem := filesystem c;
     allowUnsignedExtensions := allowUnsignedExtensions c;
     arrowLosslessConversion := arrowLosslessConversion c;
     customUserAgent := customUserAgent c; opfs := opfs c;
     singleThreadedExtensionLoad := singleThreadedExtensionLoad c |}.

(** ** json_typedef.ts

    apache-arrow's [DataType] is third-party: a type is its [typeId] and the
    attributes [arrowToSQLType] reads of it.  [T_other] is any type whose id the
    switch does not list. *)

Inductive TypeId :=
| T_Binary | T_Bool | T_Date | T_DateDay | T_DateMillisecond
| T_Float | T_Float16 | T_Float32 | T_Float64
| T_Int | T_Int16 | T_Int32 | T_Int64 | T_Uint16 | T_Uint32 | T_Uint64 | T_Uint8
| T_IntervalDayTime | T_IntervalYearMonth | T_Null | T_Utf8
| T_Time | T_TimeMicrosecond | T_TimeMillisecond | T_TimeNanosecond | T_TimeSecond.

Inductive TimestampId :=
| T_Timestamp | T_TimestampSecond | T_TimestampMicrosecond
| T_TimestampNanosecond | T_TimestampMillisecond.

Inductive DataType :=
| DT_simple (id : TypeId)
| DT_Decimal (precision scale : Z)
| DT_List (valueType : DataType)
| DT_FixedSizeBinary (byteWidth : Z)
| DT_Struct (children : list (string * DataType))
| DT_Map (keyType valueType : DataType)
| DT_timestamp (id : TimestampId) (timezone : option string)
| DT_other (repr : string).

Inductive SQLType := MkSQLType {
  sqlType : string;
  nullable : option bool;
  precision : option Z;
  scale : option Z;
  sql_timezone : option string;
  byteWidth : option Z;
  keyType : option SQLType;
  valueType : option SQLType;
  fields : option (list (string * SQLType))
}.

(** [SQLField = SQLType & { name }] *)
Definition SQLField : Type := string * SQLType.

Definition sql_plain (s : string) : SQLType :=
  MkSQLType s None None None None None None None None.

(** [ts.timezone || undefined]: an empty string counts as absent. *)
Definition or_undefined (s : option string) : option string :=
  match s with Some EmptyString => None | _ => s end.

Definition simple_sql_name (id : TypeId) : string :=
  match id with
  | T_Binary => "binary" | T_Bool => "bool" | T_Date => "date"
  | T_DateDay => "date32[d]" | T_DateMillisecond => "date64[ms]"
  | T_Float => "float" | T_Float16 => "float16" | T_Float32 => "float32" | T_Float64 => "float64"
  | T_Int => "int32" | T_Int16 => "int16" | T_Int32 => "int32" | T_Int64 => "int64"
  | T_Uint16 => "uint16" | T_Uint32 => "uint32" | T_Uint64 => "uint64" | T_Uint8 => "uint8"
  | T_IntervalDayTime => "interval[dt]" | T_IntervalYearMonth => "interval[m]"
  | T_Null => "null" | T_Utf8 => "utf8"
  | T_Time => "time[s]" | T_TimeMicrosecond => "time[us]" | T_TimeMillisecond => "time[ms]"
  | T_TimeNanosecond => "time[ns]" | T_TimeSecond => "time[s]"
  end.

Definition timestamp_sql_name (id : TimestampId) : string :=
  match id with
  | T_Timestamp => "timestamp" | T_TimestampSecond => "timestamp[s]"
  | T_TimestampMicrosecond => "timestamp[us]" | T_TimestampNanosecond => "timestamp[ns]"
  | T_TimestampMillisecond => "timestamp[ms]"
  end.

Fixpoint arrowToSQLType (type : DataType) : Outcome SQLType :=
  match type with
  | DT_simple id => Normal (sql_plain (simple_sql_name id))
  | DT_Decimal p sc =>
      Normal (MkSQLType "decimal" None (Some p) (Some sc) None None None None None)
  | DT_List v =>
      match arrowToSQLType v with
      | Normal t => Normal (MkSQLType "list" None None None None None None (Some t) None)
      | Thrown e => Thrown e
      end
  | DT_FixedSizeBinary w =>
      Normal (MkSQLType "fixedsizebinary" None None None None (Some w) None None None)
  | DT_Struct children =>
      let fix go (l : list (string * DataType)) : Outcome (list SQLField) :=
        match l with
        | [] => Normal []
        | (name, t) :: l' =>
            match arrowToSQLType t with
            | Thrown e => Thrown e
            | Normal t' =>
                match go l' with
                | Thrown e => Thrown e
                | Normal fs => Normal ((name, t') :: fs)
                end
            end
        end in
      match go children with
      | Normal fs => Normal (MkSQLType "struct" None None None None None None None (Some fs))
      | Thrown e => Thrown e
      end
  | DT_Map k v =>
      match arrowToSQLType k with
      | Thrown e => Thrown e
      | Normal kt =>
          match arrowToSQLType v with
          | Thrown e => Thrown e
          | Normal vt =>
              Normal (MkSQLType "map" None None None None None (Some kt) (Some vt) None)
          end
      end
  | DT_timestamp id tz =>
      Normal (MkSQLType (timestamp_sql_name id) None None None (or_undefined tz)
                None None None None)
  | DT_other repr => Thrown (Error ("unsupported arrow type: " +:+ repr))
  end.

Definition arrowToSQLField (name : string) (type : DataType) : Outcome SQLField :=
  outcome_map (fun t => (name, t)) (arrowToSQLType type).

(** ** insert_options.ts

    The [columns] object is an association list in property order. *)

Inductive JSONTableShape := ROW_ARRAY | COLUMN_OBJECT.

Record JSONInsertOptions := {
  ji_name : string;
  ji_schema : option string;
  ji_create : option bool;
  ji_shape : option JSONTableShape;
  ji_columns : option (list (string * DataType));
  ji_columnsFlat : option (list SQLField)
}.

Record CSVInsertOptions := {
  ci_name : string;
  ci_schema : option string;
  ci_create : option bool;
  ci_header : option bool;
  ci_delimiter : option string;
  ci_quote : option string;
  ci_escape : option string;
  ci_skip : option Z;
  ci_detect : option bool;
  ci_dateFormat : option string;
  ci_timestampFormat : option string;
  ci_columns : option (list (string * DataType));
  ci_columnsFlat : option (list SQLField)
}.

Record ArrowInsertOptions := {
  ai_name : string;
  ai_schema : option string;
  ai_create : option bool
}.

(** ** tokens.ts, web_file.ts, interrupt.ts *)

Inductive TokenType :=
| IDENTIFIER | NUMERIC_CONSTANT | STRING_CONSTANT | OPERATOR | KEYWORD | COMMENT.

Record ScriptTokens := { offsets : list Z; types : list TokenType }.

Record WebFile := {
  wf_fileName : string;
  wf_dataProtocol : DuckDBDataProtocol;
  wf_fileId : option Z;
  wf_fileSize : option Z;
  wf_dataUrl : option string;
  wf_dataNativeFd : option Z;
  wf_collectStatistics : option bool;
  wf_reliableHeadRequests : option bool;
  wf_allowFullHttpReads : option bool
}.

(** The shared wasm memory is named by an identity of its own. *)
Record InterruptHandle := { memory : Z; offset : Z }.

(** [interruptConnection]: one store, to the byte of the connection; a memory is known by a
    number, and [load] is what its bytes hold. *)
Definition interruptConnection (handle : InterruptHandle) (load : Z -> Z -> Z) : Z -> Z -> Z :=
  fun mem a => if ((mem =? memory handle) && (a =? offset handle))%Z then 1%Z else load mem a.

(** ** log.ts *)

Inductive LogLevel := LV_NONE | LV_DEBUG | LV_INFO | LV_WARNING | LV_ERROR.
Inductive LogTopic :=
| LT_NONE | LT_CONNECT | LT_DISCONNECT | LT_OPEN | LT_QUERY | LT_INSTANTIATE.
Inductive LogEvent := LE_NONE | LE_OK | LE_ERROR | LE_START | LE_RUN | LE_CAPTURE.
Inductive LogOrigin := LO_NONE | LO_WEB_WORKER | LO_NODE_WORKER | LO_BINDINGS | LO_ASYNC_DUCKDB.

Definition level_number (l : LogLevel) : Z :=
  match l with LV_NONE => 0 | LV_DEBUG => 1 | LV_INFO => 2 | LV_WARNING => 3 | LV_ERROR => 4 end.

(** The timestamp is a clock reading; [value] is [None] for a [void] entry. *)
Record LogEntry := {
  timestamp : Z;
  level : LogLevel;
  origin : LogOrigin;
  topic : LogTopic;
  event : LogEvent;
  value : option string
}.

Record ProgressEntry := { status : string; percentage : Z; repetitions : Z }.

Record InstantiationProgress := {
  startedAt : Z; updatedAt : Z; bytesTotal : Z; bytesLoaded : Z
}.

(** What [ConsoleLogger.log] prints: the entry, if its level is high enough. *)
Definition console_log (min : LogLevel) (e : LogEntry) : list LogEntry :=
  if level_number min <=? level_number (level e) then [e] else [].

(** What [VoidLogger.log] prints: nothing. *)
Definition void_log (_ : LogEntry) : list LogEntry := [].

Definition getLogLevelLabel (l : LogLevel) : string :=
  match l with
  | LV_NONE => "NONE" | LV_DEBUG => "DEBUG" | LV_INFO => "INFO"
  | LV_WARNING => "WARNING" | LV_ERROR => "ERROR"
  end.

Definition getLogEventLabel (e : LogEvent) : string :=
  match e with
  | LE_NONE => "NONE" | LE_OK => "OK" | LE_ERROR => "ERROR"
  | LE_START => "START" | LE_RUN => "RUN" | LE_CAPTURE => "CAPTURE"
  end.

(** The switch has no case for [LogTopic.NONE], which takes the default. *)
Definition getLogTopicLabel (t : LogTopic) : string :=
  match t with
  | LT_CONNECT => "CONNECT" | LT_DISCONNECT => "DISCONNECT"
  | LT_INSTANTIATE => "INSTANTIATE" | LT_OPEN => "OPEN" | LT_QUERY => "QUERY"
  | LT_NONE => "?"
  end.

Definition getLogOriginLabel (o : LogOrigin) : string :=
  match o with
  | LO_NONE => "NONE" | LO_WEB_WORKER => "WEB WORKER" | LO_NODE_WORKER => "NODE WORKER"
  | LO_BINDINGS => "DUCKDB BINDINGS" | LO_ASYNC_DUCKDB => "DUCKDB"
  end.

(** ** Lemmas on the type translation *)

(** A type all of whose parts the switch lists. *)
Fixpoint supported (t : DataType) : bool :=
  match t with
  | DT_List v => supported v
  | DT_Struct cs => forallb (fun '(_, c) => supported c) cs
  | DT_Map k v => supported k && supported v
  | DT_other _ => false
  | _ => true
  end.

(** Induction on a type with the hypothesis for every field of a struct. *)
Lemma DataType_ind' (P : DataType -> Prop) :
  (forall id, P (DT_simple id)) -> (forall p s, P (DT_Decimal p s)) ->
  (forall v, P v -> P (DT_List v)) -> (forall w, P (DT_FixedSizeBinary w)) ->
  (forall cs, Forall (fun c => P c.2) cs -> P (DT_Struct cs)) ->
  (forall k v, P k -> P v -> P (DT_Map k v)) ->
  (forall id tz, P (DT_timestamp id tz)) -> (forall r, P (DT_other r)) ->
  forall t, P t.
Proof.
  intros H1 H2 H3 H4 H5 H6 H7 H8. fix IH 1.
  intros [id|p s|v|w|cs|k v|id tz|r];
    [apply H1|apply H2|apply H3, IH|apply H4| |apply H6; apply IH|apply H7|apply H8].
  apply H5. induction cs as [|[n c] cs IHcs]; constructor; [apply IH|exact IHcs].
Qed.

(** The fields of a struct, translated in order. *)
Fixpoint fieldsToSQL (l : list (string * DataType)) : Outcome (list SQLField) :=
  match l with
  | [] => Normal []
  | (name, t) :: l' =>
      match arrowToSQLType t with
      | Thrown e => Thrown e
      | Normal t' => outcome_map (cons (name, t')) (fieldsToSQL l')
      end
  end.

Lemma arrowToSQLType_struct cs :
  arrowToSQLType (DT_Struct cs) =
  outcome_map (fun fs => MkSQLType "struct" None None None None None None None (Some fs))
    (fieldsToSQL cs).
Proof.
  cbn. match goal with |- match ?g cs with _ => _ end = _ =>
    assert (g cs = fieldsToSQL cs) as -> end; [|by destruct (fieldsToSQL cs)].
  induction cs as [|[n t] cs IH]; cbn; [done|].
  rewrite IH. by destruct (arrowToSQLType t), (fieldsToSQL cs).
Qed.

Lemma fieldsToSQL_normal cs :
  Forall (fun c => is_normal (arrowToSQLType c.2) = supported c.2) cs ->
  is_normal (fieldsToSQL cs) = forallb (fun '(_, c) => supported c) cs.
Proof.
  induction 1 as [|[n t] cs Ht _ IH]; cbn in *; [done|].
  rewrite <- Ht, <- IH. by destruct (arrowToSQLType t), (fieldsToSQL cs).
Qed.

Lemma fieldsToSQL_names cs fs : fieldsToSQL cs = Normal fs -> fs.*1 = cs.*1.
Proof.
  revert fs. induction cs as [|[n t] cs IH]; intros fs; cbn; [by intros [= <-]|].
  destruct (arrowToSQLType t); [|done]. destruct (fieldsToSQL cs) as [gs|]; cbn; [|done].
  intros [= <-]. cbn. f_equal. by apply IH.
Qed.

Lemma arrowToSQLType_normal t : is_normal (arrowToSQLType t) = supported t.
Proof.
  induction t using DataType_ind'; try done.
  - cbn. rewrite <- IHt. by destruct (arrowToSQLType t).
  - rewrite arrowToSQLType_struct. cbn [supported]. rewrite <- fieldsToSQL_normal by done.
    by destruct (fieldsToSQL cs).
  - cbn. rewrite <- IHt1, <- IHt2. by destruct (arrowToSQLType t1), (arrowToSQLType t2).
Qed.

Lemma fieldsToSQL_types cs fs :
  fieldsToSQL cs = Normal fs -> Forall2 (fun c f => arrowToSQLType c.2 = Normal f.2) cs fs.
Proof.
  revert fs. induction cs as [|[n t] cs IH]; intros fs; cbn; [by intros [= <-]|].
  destruct (arrowToSQLType t) eqn:Et; [|done]. destruct (fieldsToSQL cs) as [gs|]; cbn; [|done].
  intros [= <-]. constructor; [done|by apply IH].
Qed.

Lemma fieldsToSQL_error cs e :
  Forall (fun c => forall e, arrowToSQLType c.2 = Thrown e ->
    exists r, e = Error ("unsupported arrow type: " +:+ r)) cs ->
  fieldsToSQL cs = Thrown e -> exists r, e = Error ("unsupported arrow type: " +:+ r).
Proof.
  induction 1 as [|[n t] cs Ht _ IH]; cbn in *; [done|].
  destruct (arrowToSQLType t); [|by intros [= <-]; apply Ht].
  destruct (fieldsToSQL cs); cbn; [done|]. intros [= ->]. by apply IH.
Qed.

Lemma arrowToSQLType_error t e :
  arrowToSQLType t = Thrown e -> exists r, e = Error ("unsupported arrow type: " +:+ r).
Proof.
  revert e. induction t using DataType_ind'; intros e; try done.
  - cbn. destruct (arrowToSQLType t); [done|]. intros [= <-]. by apply IHt.
  - rewrite arrowToSQLType_struct. destruct (fieldsToSQL cs) eqn:E; cbn; [done|]. intros [= <-].
    by eapply fieldsToSQL_error.
  - cbn. destruct (arrowToSQLType t1); [|intros [= <-]; by apply IHt1].
    destruct (arrowToSQLType t2); [done|]. intros [= <-]. by apply IHt2.
  - cbn. intros [= <-]. eauto.
Qed.

(** The translation of an arrow type succeeds exactly on the types all of
    whose parts the switch lists, and names the first part it does not know
    otherwise; a struct keeps its fields, by name and in order, each translated. *)
Theorem arrow_types_translate (t : DataType) :
  is_normal (arrowToSQLType t) = supported t /\
  (forall e, arrowToSQLType t = Thrown e -> exists r, e = Error ("unsupported arrow type: " +:+ r)) /\
  (forall cs s, t = DT_Struct cs -> arrowToSQLType t = Normal s ->
     exists fs, fields s = Some fs /\ fs.*1 = cs.*1 /\
       Forall2 (fun c f => arrowToSQLType c.2 = Normal f.2) cs fs).
Proof.
  split; [apply arrowToSQLType_normal|]. split; [apply arrowToSQLType_error|].
  intros cs s ->. rewrite arrowToSQLType_struct.
  destruct (fieldsToSQL cs) as [fs|] eqn:E; cbn; [|done]. intros [= <-]. exists fs. split; [done|].
  split; [by apply fieldsToSQL_names|by apply fieldsToSQL_types].
Qed.

Lemma arrow_types_translate_witness :
  exists fs, fields (MkSQLType "struct" None None None None None None None
                       (Some [("a"%string, sql_plain "int32"); ("b"%string, sql_plain "utf8")])) = Some fs /\
    fs.*1 = ["a"; "b"]%string /\
    Forall2 (fun c f => arrowToSQLType c.2 = Normal f.2)
      [("a"%string, DT_simple T_Int32); ("b"%string, DT_simple T_Utf8)] fs.
Proof.
  exact (proj2 (proj2 (arrow_types_translate
    (DT_Struct [("a"%string, DT_simple T_Int32); ("b"%string, DT_simple T_Utf8)]))) _ _ eq_refl eq_refl).
Defined.
