(* ===== verification/FileStats.v ===== *)
(** * FileStats: decoding the block statistics of a file ([file_stats.ts])

    [exportFileStatistics] hands the engine's export buffer to the
    [FileStatistics] constructor, and [getBlockStats] decodes the three bytes
    the engine wrote for a block ([lib/src/io/file_stats.cc]). *)
From S2P Require Import Prelude.
From stdpp Require Import base tactics list strings.
From Stdlib Require Import ZArith Lia Floats.SpecFloat.
Open Scope Z_scope.

(** ** The doubles of a [Float64Array] *)

(** The little-endian integer of a byte list. *)
Fixpoint le_combine (bs : list Z) : Z :=
  match bs with
  | [] => 0
  | b :: bs' => Z.lor b (Z.shiftl (le_combine bs') 8)
  end.

(** An IEEE-754 binary64 from its 64 bits. *)
Definition f64_of_bits (n : Z) : spec_float :=
  let s := Z.testbit n 63 in
  let e := Z.land (Z.shiftr n 52) 2047 in
  let m := Z.land n (2 ^ 52 - 1) in
  if e =? 0 then
    if m =? 0 then S754_zero s else S754_finite s (Z.to_pos m) (-1074)
  else if e =? 2047 then
    if m =? 0 then S754_infinity s else S754_nan
  else S754_finite s (Z.to_pos (2 ^ 52 + m)) (e - 1075).

(** [f64[i]] of a view over [bs]; [None] is the [undefined] of an index past it. *)
Definition f64_at (bs : list Z) (i : Z) : option spec_float :=
  if (i + 1) * 8 <=? lenZ bs then Some (f64_of_bits (le_combine (subarray bs (i * 8) (i * 8 + 8))))
  else None.

(** ** file_stats.ts *)

Record FileBlockStatistics := {
  file_reads_cold : Z;
  file_reads_ahead : Z;
  file_reads_cached : Z;
  file_writes : Z;
  page_accesses : Z;
  page_loads : Z
}.

Record FileStatistics := {
  totalFileReadsCold : option spec_float;
  totalFileReadsAhead : option spec_float;
  totalFileReadsCached : option spec_float;
  totalFileWrites : option spec_float;
  totalPageAccesses : option spec_float;
  totalPageLoads : option spec_float;
  blockSize : option spec_float;
  blockStats : list Z
}.

Definition RangeError (m : string) : JsError := MkError "RangeError" m None.

(** The constructor, on the bytes of a view that starts at [byteOffset] of its
    buffer: a [Float64Array] over a misaligned offset is a [RangeError], and the
    block bytes are copied to the front of a zeroed array as long as the whole
    view. *)
Definition new_FileStatistics (byteOffset : Z) (u8array : list Z) : Outcome FileStatistics :=
  if byteOffset mod 8 =? 0 then
    let f64 := f64_at (take (Z.to_nat (lenZ u8array / 8 * 8)) u8array) in
    let tail := drop 56 u8array in
    Normal {|
      totalFileReadsCold := f64 0;
      totalFileReadsAhead := f64 1;
      totalFileReadsCached := f64 2;
      totalFileWrites := f64 3;
      totalPageAccesses := f64 4;
      totalPageLoads := f64 5;
      blockSize := f64 6;
      blockStats := tail ++ replicate (length u8array - length tail) 0
    |}
  else Thrown (RangeError "start offset of Float64Array should be a multiple of 8").

(** [a[i]] of a byte array as an operand of [&] and [>>]: an index out of range
    reads [undefined], which both operators take as 0. *)
Definition byte_operand (a : list Z) (i : Z) : Z :=
  if i <? 0 then 0 else default 0 (a !! Z.to_nat i).

Definition getBlockStats (st : FileStatistics) (index : Z) : FileBlockStatistics :=
  let b k := byte_operand (blockStats st) (index * 3 + k) in
  {| file_writes := Z.land (b 0) 15;
     file_reads_cold := Z.shiftr (b 0) 4;
     file_reads_ahead := Z.land (b 1) 15;
     file_reads_cached := Z.shiftr (b 1) 4;
     page_accesses := Z.land (b 1) 15;
     page_loads := Z.shiftr (b 1) 4 |}.

(** The three bytes the engine exports for a block whose counters are already
    reduced to nibbles ([FileStatisticsCollector::ExportStatistics]). *)
Definition export_block (s : FileBlockStatistics) : list Z :=
  [ Z.lor (file_writes s) (Z.shiftl (file_reads_cold s) 4);
    Z.lor (file_reads_ahead s) (Z.shiftl (file_reads_cached s) 4);
    Z.lor (page_accesses s) (Z.shiftl (page_loads s) 4) ].

Definition export_blocks (ss : list FileBlockStatistics) : list Z := concat (export_block <$> ss).

(** Every counter of a block is a nibble. *)
Definition nibble (n : Z) : Prop := 0 <= n < 16.
Definition nibbles (s : FileBlockStatistics) : Prop :=
  nibble (file_writes s) /\ nibble (file_reads_cold s) /\ nibble (file_reads_ahead s) /\
  nibble (file_reads_cached s) /\ nibble (page_accesses s) /\ nibble (page_loads s).

(** ** Lemmas *)

Lemma nibble_pack lo hi :
  nibble lo -> nibble hi ->
  Z.land (Z.lor lo (Z.shiftl hi 4)) 15 = lo /\ Z.shiftr (Z.lor lo (Z.shiftl hi 4)) 4 = hi.
Proof.
  unfold nibble. intros Hlo Hhi.
  assert (lo ∈ seqZ 0 16) as Hl by (apply elem_of_seqZ; lia).
  assert (hi ∈ seqZ 0 16) as Hh by (apply elem_of_seqZ; lia).
  assert (Forall (fun l => Forall (fun h =>
    Z.land (Z.lor l (Z.shiftl h 4)) 15 = l /\ Z.shiftr (Z.lor l (Z.shiftl h 4)) 4 = h)
    (seqZ 0 16)) (seqZ 0 16)) as H.
  { vm_compute. repeat constructor. }
  rewrite Forall_forall in H. specialize (H lo Hl). rewrite Forall_forall in H. auto.
Qed.

Lemma export_blocks_lookup ss i s k rest :
  ss !! i = Some s -> (k < 3)%nat ->
  (export_blocks ss ++ rest) !! (i * 3 + k)%nat = export_block s !! k.
Proof.
  revert i. induction ss as [|s0 ss IH]; intros [|i] Hi Hk; try done; cbn in Hi.
  - injection Hi as <-. unfold export_blocks. cbn [fmap list_fmap concat].
    rewrite <- app_assoc. apply lookup_app_l. cbn. lia.
  - unfold export_blocks in *. cbn [fmap list_fmap concat]. rewrite <- app_assoc.
    rewrite lookup_app_r by (cbn; lia). rewrite <- (IH i) by done.
    f_equal. cbn. lia.
Qed.

(** The block bytes of a constructed object are those behind the seven doubles. *)
Lemma new_FileStatistics_blocks ofs head tail st :
  length head = 56%nat -> new_FileStatistics ofs (head ++ tail) = Normal st ->
  exists rest, blockStats st = tail ++ rest.
Proof.
  unfold new_FileStatistics. intros Hh. case_match; [|done]. intros [= <-]. cbn.
  rewrite drop_app_length' by done. eauto.
Qed.

Lemma byte_operand_block st ss i s k rest :
  blockStats st = export_blocks ss ++ rest -> ss !! i = Some s -> (k < 3)%nat ->
  byte_operand (blockStats st) (Z.of_nat i * 3 + Z.of_nat k) = default 0 (export_block s !! k).
Proof.
  intros Hb Hi Hk. unfold byte_operand.
  replace (Z.of_nat i * 3 + Z.of_nat k <? 0) with false by (symmetry; apply Z.ltb_ge; lia).
  replace (Z.to_nat (Z.of_nat i * 3 + Z.of_nat k)) with (i * 3 + k)%nat by lia.
  by rewrite Hb, (export_blocks_lookup _ _ s).
Qed.

(** The counters the engine exports for a block come back from
    [getBlockStats] for its file reads and writes, at any index and however many
    blocks follow; its two page counters do not: the reader takes them from the
    byte of the reads ahead, so they come back as the counters of the reads. *)
Theorem block_counters_roundtrip ofs head ss i s st :
  length head = 56%nat -> Forall nibbles ss -> ss !! i = Some s ->
  new_FileStatistics ofs (head ++ export_blocks ss) = Normal st ->
  getBlockStats st (Z.of_nat i) =
    {| file_reads_cold := file_reads_cold s; file_reads_ahead := file_reads_ahead s;
       file_reads_cached := file_reads_cached s; file_writes := file_writes s;
       page_accesses := file_reads_ahead s; page_loads := file_reads_cached s |}.
Proof.
  intros Hh Hn Hi Hst. destruct (new_FileStatistics_blocks _ _ _ _ Hh Hst) as (rest & Hb).
  pose proof (proj1 (Forall_lookup _ _) Hn i s Hi) as (H1 & H2 & H3 & H4 & H5 & H6).
  pose proof (byte_operand_block _ ss i s 0 rest Hb Hi ltac:(lia)) as B0.
  pose proof (byte_operand_block _ ss i s 1 rest Hb Hi ltac:(lia)) as B1.
  change (Z.of_nat 0) with 0 in B0. change (Z.of_nat 1) with 1 in B1.
  unfold getBlockStats. rewrite B0, B1. cbn.
  destruct (nibble_pack _ _ H1 H2) as [-> ->], (nibble_pack _ _ H3 H4) as [-> ->]. done.
Qed.

Definition sample_block : FileBlockStatistics :=
  {| file_reads_cold := 1; file_reads_ahead := 2; file_reads_cached := 3; file_writes := 4;
     page_accesses := 5; page_loads := 6 |}.

Lemma block_counters_roundtrip_witness :
  exists st, new_FileStatistics 0 (replicate 56 0 ++ export_blocks [sample_block]) = Normal st /\
    page_accesses (getBlockStats st 0) = 2 /\ page_accesses sample_block = 5.
Proof.
  eexists. split; [reflexivity|]. split; [|reflexivity].
  refine (eq_trans (f_equal page_accesses
    (block_counters_roundtrip 0 (replicate 56 0) [sample_block] 0 sample_block _ eq_refl _ eq_refl eq_refl)) eq_refl).
  repeat constructor; discriminate.
Defined.
