(* ===== verification/Protocol.v ===== *)
(** * Protocol: the messages between AsyncDuckDB and its worker ([worker_request.ts])

    A request or response keeps its [type] and its [data] together, as the
    discriminated unions [WorkerRequestVariant] and [WorkerTaskVariant] do; a
    message that arrives at the main thread is untyped, because engine glue and
    extensions post messages of their own on the same channel. *)
From S2P Require Import Prelude Data FileStats.
From stdpp Require Import base tactics list strings.
From Stdlib Require Import ZArith.
Open Scope Z_scope.

Abbreviation ConnectionID := Z (only parsing).
Abbreviation StatementID := Z (only parsing).

Inductive WorkerRequestType :=
| CANCEL_PENDING_QUERY | CLOSE_PREPARED | COLLECT_FILE_STATISTICS | REGISTER_OPFS_FILE_NAME
| CONNECT | COPY_FILE_TO_BUFFER | COPY_FILE_TO_PATH | CREATE_PREPARED | DISCONNECT
| DROP_FILE | DROP_FILES | EXPORT_FILE_STATISTICS | FETCH_QUERY_RESULTS | FLUSH_FILES
| GET_FEATURE_FLAGS | GET_INTERRUPT_HANDLE | GET_TABLE_NAMES | GET_VERSION | GLOB_FILE_INFOS
| INSERT_ARROW_FROM_IPC_STREAM | INSERT_CSV_FROM_PATH | INSERT_JSON_FROM_PATH | INSTANTIATE
| OPEN | PING | POLL_PENDING_QUERY | PREFETCH_EXTENSIONS | REGISTER_FILE_BUFFER
| REGISTER_FILE_HANDLE | REGISTER_FILE_URL | RESET | RUN_PREPARED | RUN_QUERY | SEND_PREPARED
| START_PENDING_QUERY | TOKENIZE.

Inductive WorkerResponseType :=
| CONNECTION_INFO | ERROR | FEATURE_FLAGS | FILE_BUFFER | FILE_INFOS | FILE_SIZE
| FILE_STATISTICS | INSTANTIATE_PROGRESS | INTERRUPT_HANDLE | LOG | PROGRESS_UPDATE | OK
| PREPARED_STATEMENT_ID | QUERY_PLAN | QUERY_RESULT | QUERY_RESULT_CHUNK
| QUERY_RESULT_HEADER | QUERY_RESULT_HEADER_OR_NULL | REGISTERED_FILE | SCRIPT_TOKENS
| SUCCESS | TABLE_NAMES | VERSION_STRING.

#[export] Instance WorkerRequestType_eq_dec : EqDecision WorkerRequestType.
Proof. solve_decision. Defined.
#[export] Instance WorkerResponseType_eq_dec : EqDecision WorkerResponseType.
Proof. solve_decision. Defined.

(** The string value of each member of the enums. *)
Definition request_type_string (t : WorkerRequestType) : string :=
  match t with
  | CANCEL_PENDING_QUERY => "CANCEL_PENDING_QUERY"
  | CLOSE_PREPARED => "CLOSE_PREPARED"
  | COLLECT_FILE_STATISTICS => "COLLECT_FILE_STATISTICS"
  | REGISTER_OPFS_FILE_NAME => "REGISTER_OPFS_FILE_NAME"
  | CONNECT => "CONNECT"
  | COPY_FILE_TO_BUFFER => "COPY_FILE_TO_BUFFER"
  | COPY_FILE_TO_PATH => "COPY_FILE_TO_PATH"
  | CREATE_PREPARED => "CREATE_PREPARED"
  | DISCONNECT => "DISCONNECT"
  | DROP_FILE => "DROP_FILE"
  | DROP_FILES => "DROP_FILES"
  | EXPORT_FILE_STATISTICS => "EXPORT_FILE_STATISTICS"
  | FETCH_QUERY_RESULTS => "FETCH_QUERY_RESULTS"
  | FLUSH_FILES => "FLUSH_FILES"
  | GET_FEATURE_FLAGS => "GET_FEATURE_FLAGS"
  | GET_INTERRUPT_HANDLE => "GET_INTERRUPT_HANDLE"
  | GET_TABLE_NAMES => "GET_TABLE_NAMES"
  | GET_VERSION => "GET_VERSION"
  | GLOB_FILE_INFOS => "GLOB_FILE_INFOS"
  | INSERT_ARROW_FROM_IPC_STREAM => "INSERT_ARROW_FROM_IPC_STREAM"
  | INSERT_CSV_FROM_PATH => "IMPORT_CSV_FROM_PATH"
  | INSERT_JSON_FROM_PATH => "IMPORT_JSON_FROM_PATH"
  | INSTANTIATE => "INSTANTIATE"
  | OPEN => "OPEN"
  | PING => "PING"
  | POLL_PENDING_QUERY => "POLL_PENDING_QUERY"
  | PREFETCH_EXTENSIONS => "PREFETCH_EXTENSIONS"
  | REGISTER_FILE_BUFFER => "REGISTER_FILE_BUFFER"
  | REGISTER_FILE_HANDLE => "REGISTER_FILE_HANDLE"
  | REGISTER_FILE_URL => "REGISTER_FILE_URL"
  | RESET => "RESET"
  | RUN_PREPARED => "RUN_PREPARED"
  | RUN_QUERY => "RUN_QUERY"
  | SEND_PREPARED => "SEND_PREPARED"
  | START_PENDING_QUERY => "START_PENDING_QUERY"
  | TOKENIZE => "TOKENIZE"
  end.

Definition response_type_string (t : WorkerResponseType) : string :=
  match t with
  | CONNECTION_INFO => "CONNECTION_INFO"
  | ERROR => "ERROR"
  | FEATURE_FLAGS => "FEATURE_FLAGS"
  | FILE_BUFFER => "FILE_BUFFER"
  | FILE_INFOS => "FILE_INFOS"
  | FILE_SIZE => "FILE_SIZE"
  | FILE_STATISTICS => "FILE_STATISTICS"
  | INSTANTIATE_PROGRESS => "INSTANTIATE_PROGRESS"
  | INTERRUPT_HANDLE => "INTERRUPT_HANDLE"
  | LOG => "LOG"
  | PROGRESS_UPDATE => "PROGRESS_UPDATE"
  | OK => "OK"
  | PREPARED_STATEMENT_ID => "PREPARED_STATEMENT_ID"
  | QUERY_PLAN => "QUERY_PLAN"
  | QUERY_RESULT => "QUERY_RESULT"
  | QUERY_RESULT_CHUNK => "QUERY_RESULT_CHUNK"
  | QUERY_RESULT_HEADER => "QUERY_RESULT_HEADER"
  | QUERY_RESULT_HEADER_OR_NULL => "QUERY_RESULT_HEADER_OR_NULL"
  | REGISTERED_FILE => "REGISTERED_FILE"
  | SCRIPT_TOKENS => "SCRIPT_TOKENS"
  | SUCCESS => "SUCCESS"
  | TABLE_NAMES => "TABLE_NAMES"
  | VERSION_STRING => "VERSION_STRING"
  end.

(** A file handle passed to [registerFileHandle], by the classes the code tells
    apart with [instanceof]; the number is the identity of the object. *)
Inductive FileHandle :=
| FH_sync (id : Z)     (** FileSystemSyncAccessHandle *)
| FH_async (id : Z)    (** FileSystemFileHandle *)
| FH_blob (id : Z)     (** Blob, File *)
| FH_other (id : Z).

#[export] Instance FileHandle_eq_dec : EqDecision FileHandle.
Proof. solve_decision. Defined.

(** ** Requests: [WorkerRequestVariant] without its message id *)

Inductive RequestData :=
| Rq_CLOSE_PREPARED (conn : ConnectionID) (stmt : StatementID)
| Rq_CANCEL_PENDING_QUERY (conn : ConnectionID)
| Rq_GET_INTERRUPT_HANDLE (conn : ConnectionID)
| Rq_COLLECT_FILE_STATISTICS (name : string) (enable : bool)
| Rq_REGISTER_OPFS_FILE_NAME (name : string)
| Rq_CONNECT
| Rq_COPY_FILE_TO_BUFFER (name : string)
| Rq_COPY_FILE_TO_PATH (name path : string)
| Rq_CREATE_PREPARED (conn : ConnectionID) (text : string)
| Rq_DISCONNECT (conn : ConnectionID)
| Rq_DROP_FILE (name : string)
| Rq_DROP_FILES (names : option (list string))
| Rq_EXPORT_FILE_STATISTICS (name : string)
| Rq_FETCH_QUERY_RESULTS (conn : ConnectionID)
| Rq_FLUSH_FILES
| Rq_GET_FEATURE_FLAGS
| Rq_GET_TABLE_NAMES (conn : ConnectionID) (text : string)
| Rq_GET_VERSION
| Rq_GLOB_FILE_INFOS (path : string)
| Rq_INSERT_ARROW_FROM_IPC_STREAM (conn : ConnectionID) (buffer : list Z)
    (options : option ArrowInsertOptions)
| Rq_INSERT_CSV_FROM_PATH (conn : ConnectionID) (path : string) (options : CSVInsertOptions)
| Rq_INSERT_JSON_FROM_PATH (conn : ConnectionID) (path : string) (options : JSONInsertOptions)
| Rq_INSTANTIATE (mainModule : string) (pthreadWorker : option string) (progress : option bool)
| Rq_OPEN (config : DuckDBConfig)
| Rq_PING
| Rq_PREFETCH_EXTENSIONS (names : list string)
| Rq_POLL_PENDING_QUERY (conn : ConnectionID)
| Rq_REGISTER_FILE_BUFFER (name : string) (buffer : list Z)
| Rq_REGISTER_FILE_HANDLE (name : string) (handle : FileHandle) (protocol : DuckDBDataProtocol)
    (directIO : bool)
| Rq_REGISTER_FILE_URL (name url : string) (protocol : DuckDBDataProtocol) (directIO : bool)
| Rq_RESET
| Rq_RUN_PREPARED (conn : ConnectionID) (stmt : StatementID) (params : list Json)
| Rq_RUN_QUERY (conn : ConnectionID) (text : string)
| Rq_SEND_PREPARED (conn : ConnectionID) (stmt : StatementID) (params : list Json)
| Rq_START_PENDING_QUERY (conn : ConnectionID) (text : string) (allowStreamResult : bool)
| Rq_TOKENIZE (text : string).

Definition request_type (r : RequestData) : WorkerRequestType :=
  match r with
  | Rq_CLOSE_PREPARED _ _ => CLOSE_PREPARED
  | Rq_CANCEL_PENDING_QUERY _ => CANCEL_PENDING_QUERY
  | Rq_GET_INTERRUPT_HANDLE _ => GET_INTERRUPT_HANDLE
  | Rq_COLLECT_FILE_STATISTICS _ _ => COLLECT_FILE_STATISTICS
  | Rq_REGISTER_OPFS_FILE_NAME _ => REGISTER_OPFS_FILE_NAME
  | Rq_CONNECT => CONNECT
  | Rq_COPY_FILE_TO_BUFFER _ => COPY_FILE_TO_BUFFER
  | Rq_COPY_FILE_TO_PATH _ _ => COPY_FILE_TO_PATH
  | Rq_CREATE_PREPARED _ _ => CREATE_PREPARED
  | Rq_DISCONNECT _ => DISCONNECT
  | Rq_DROP_FILE _ => DROP_FILE
  | Rq_DROP_FILES _ => DROP_FILES
  | Rq_EXPORT_FILE_STATISTICS _ => EXPORT_FILE_STATISTICS
  | Rq_FETCH_QUERY_RESULTS _ => FETCH_QUERY_RESULTS
  | Rq_FLUSH_FILES => FLUSH_FILES
  | Rq_GET_FEATURE_FLAGS => GET_FEATURE_FLAGS
  | Rq_GET_TABLE_NAMES _ _ => GET_TABLE_NAMES
  | Rq_GET_VERSION => GET_VERSION
  | Rq_GLOB_FILE_INFOS _ => GLOB_FILE_INFOS
  | Rq_INSERT_ARROW_FROM_IPC_STREAM _ _ _ => INSERT_ARROW_FROM_IPC_STREAM
  | Rq_INSERT_CSV_FROM_PATH _ _ _ => INSERT_CSV_FROM_PATH
  | Rq_INSERT_JSON_FROM_PATH _ _ _ => INSERT_JSON_FROM_PATH
  | Rq_INSTANTIATE _ _ _ => INSTANTIATE
  | Rq_OPEN _ => OPEN
  | Rq_PING => PING
  | Rq_PREFETCH_EXTENSIONS _ => PREFETCH_EXTENSIONS
  | Rq_POLL_PENDING_QUERY _ => POLL_PENDING_QUERY
  | Rq_REGISTER_FILE_BUFFER _ _ => REGISTER_FILE_BUFFER
  | Rq_REGISTER_FILE_HANDLE _ _ _ _ => REGISTER_FILE_HANDLE
  | Rq_REGISTER_FILE_URL _ _ _ _ => REGISTER_FILE_URL
  | Rq_RESET => RESET
  | Rq_RUN_PREPARED _ _ _ => RUN_PREPARED
  | Rq_RUN_QUERY _ _ => RUN_QUERY
  | Rq_SEND_PREPARED _ _ _ => SEND_PREPARED
  | Rq_START_PENDING_QUERY _ _ _ => START_PENDING_QUERY
  | Rq_TOKENIZE _ => TOKENIZE
  end.

Record WorkerRequest := { messageId : Z; request : RequestData }.

(** ** Response payloads *)

Inductive ResponseData :=
| D_undefined
| D_null
| D_number (n : Z)
| D_bool (b : bool)
| D_string (s : string)
| D_bytes (bs : list Z)
| D_strings (l : list string)
| D_tokens (t : ScriptTokens)
| D_statistics (s : FileStatistics)
| D_files (l : list WebFile)
| D_interrupt (h : InterruptHandle)
| D_instantiation (p : InstantiationProgress)
| D_progress (p : ProgressEntry)
| D_log (e : LogEntry)
| D_error (e : JsError).

Definition D_opt_bytes (o : option (list Z)) : ResponseData :=
  match o with Some b => D_bytes b | None => D_null end.
Definition D_opt_interrupt (o : option InterruptHandle) : ResponseData :=
  match o with Some h => D_interrupt h | None => D_null end.

Record WorkerResponse := MkResponse {
  resp_messageId : Z;
  resp_requestId : Z;
  resp_type : WorkerResponseType;
  resp_data : ResponseData
}.

(** The payload type [WorkerResponseVariant] gives each response type. *)
Definition response_well_typed (t : WorkerResponseType) (d : ResponseData) : bool :=
  match t, d with
  | CONNECTION_INFO, D_number _ | FEATURE_FLAGS, D_number _ | FILE_SIZE, D_number _
  | PREPARED_STATEMENT_ID, D_number _
  | ERROR, D_error _
  | FILE_BUFFER, D_bytes _ | QUERY_PLAN, D_bytes _ | QUERY_RESULT, D_bytes _
  | QUERY_RESULT_HEADER, D_bytes _
  | QUERY_RESULT_CHUNK, (D_bytes _ | D_null)
  | QUERY_RESULT_HEADER_OR_NULL, (D_bytes _ | D_null)
  | FILE_INFOS, D_files _ | FILE_STATISTICS, D_statistics _
  | INSTANTIATE_PROGRESS, D_instantiation _ | INTERRUPT_HANDLE, (D_interrupt _ | D_null)
  | LOG, D_log _ | PROGRESS_UPDATE, D_progress _ | OK, D_null
  | SCRIPT_TOKENS, D_tokens _ | SUCCESS, D_bool _ | TABLE_NAMES, D_strings _
  | VERSION_STRING, D_string _ => true
  | _, _ => false
  end.

(** ** Messages as the main thread sees them

    The [type] of a message that reaches [AsyncDuckDB.onMessage] is a response
    type, some other string (engine glue), or not a string at all; [requestId]
    may be missing. *)

Inductive MessageType :=
| MT_response (t : WorkerResponseType)
| MT_string (s : string)
| MT_undefined.

#[export] Instance MessageType_eq_dec : EqDecision MessageType.
Proof. solve_decision. Defined.

Record Message := MkMessage {
  msg_type : MessageType;
  msg_requestId : option Z;
  msg_data : ResponseData
}.

Definition message_of (r : WorkerResponse) : Message :=
  MkMessage (MT_response (resp_type r)) (Some (resp_requestId r)) (resp_data r).

(** ** Tasks ([WorkerTask]) and their promises *)

(** A promise is settled at most once; [promiseResolver] and [promiseRejecter]
    of a settled promise do nothing. *)
Inductive PromiseState :=
| Pending
| Fulfilled (d : ResponseData)
| Rejected (e : JsError).

Definition resolve_promise (d : ResponseData) (p : PromiseState) : PromiseState :=
  match p with Pending => Fulfilled d | _ => p end.
Definition reject_promise (e : JsError) (p : PromiseState) : PromiseState :=
  match p with Pending => Rejected e | _ => p end.

(** A task: its request, and the identity of its promise. *)
Record WorkerTask := { task_request : RequestData; task_promise : Z }.

(** ** Lemmas *)

Lemma resolve_settled d p : p <> Pending -> resolve_promise d p = p.
Proof. by destruct p. Qed.
Lemma reject_settled e p : p <> Pending -> reject_promise e p = p.
Proof. by destruct p. Qed.
