(* ===== verification/Prefetch.v ===== *)
(** * Prefetch: extensions downloaded ahead of LOAD ([extension_prefetch.ts])

    The module's variables are [PrefetchState].  [prefetchOne] is an async
    function: the code between two of its awaits runs without interruption, so
    it is split at its awaits ([prefetchOne_start], [prefetchOne_response],
    [prefetchOne_body], [prefetchOne_finish]) and every other operation of the
    module may run between two parts.  The progress of a call of [prefetchOne]
    is a [PrefetchTask] of the table [tasks]; the promise the map [running]
    holds for a URL is the identity of that call.

    WebCrypto's SHA-256 digest is a parameter. *)
From S2P Require Import Prelude.
From stdpp Require Import base tactics list gmap strings.
From Stdlib Require Import ZArith Lia.
Open Scope Z_scope.

Definition SIGNATURE_SIZE : Z := 256.
Definition HASH_CHUNK_SIZE : Z := 1024 * 1024.
Definition MAX_HELD_BYTES : Z := 256 * 1024 * 1024.
Definition PREFETCH_TIMEOUT_MS : Z := 30000.

(** The compiled module is an object; its identity stands for it. *)
Record PrefetchedExtension := {
  bytes : list Z;
  hash : option (list Z);
  module : option Z
}.

(** ** The two-level signature hash *)

Section Hash.
Context (digest : list Z -> list Z) (subtle : bool).

(** The loop of [computeExtensionHash] over the chunks of [bs], from [offset]
    to [fin]. *)
Fixpoint hash_chunks (fuel : nat) (bs : list Z) (offset fin : Z) : list (list Z) :=
  match fuel with
  | O => []
  | S fuel' =>
      if offset <? fin then
        subarray bs offset (Z.min fin (offset + HASH_CHUNK_SIZE))
          :: hash_chunks fuel' bs (offset + HASH_CHUNK_SIZE) fin
      else []
  end.

(** One iteration per started chunk, and one for the final test. *)
Definition chunk_fuel (fin : Z) : nat := Z.to_nat (fin / HASH_CHUNK_SIZE) + 2.

(** [hashes.forEach((h, i) => concatenated.set(h, i * 32))] on a zeroed array. *)
Fixpoint set_hashes (i : nat) (hashes : list (list Z)) (concatenated : list Z) : list Z :=
  match hashes with
  | [] => concatenated
  | h :: hashes' => set_hashes (S i) hashes' (list_inserts (i * 32) h concatenated)
  end.

Definition concat_hashes (hashes : list (list Z)) : list Z :=
  set_hashes 0 hashes (replicate (length hashes * 32) 0).

Definition computeExtensionHash (bs : list Z) : option (list Z) :=
  if (lenZ bs <? SIGNATURE_SIZE) || negb subtle then None
  else
    let fin := lenZ bs - SIGNATURE_SIZE in
    let hashes := digest <$> hash_chunks (chunk_fuel fin) bs 0 fin in
    Some (digest (concat_hashes hashes)).
End Hash.

(** ** The module state *)

Inductive Phase :=
| Fetching                  (** awaiting [fetch(url)] *)
| Reading                   (** awaiting [body.arrayBuffer()] *)
| Hashing (bs : list Z).    (** awaiting the hash and the compilation *)

Record PrefetchTask := { task_url : string; startedIn : Z; phase : Phase }.

Record PrefetchState := {
  prefetched : gmap string PrefetchedExtension;
  running : gmap string nat;
  heldBytes : Z;
  generation : Z;
  tasks : gmap nat PrefetchTask;
  next_task : nat;
  hook_installed : bool
}.

Definition initial_prefetch : PrefetchState :=
  {| prefetched := ∅; running := ∅; heldBytes := 0; generation := 0;
     tasks := ∅; next_task := 0; hook_installed := false |}.

Definition with_maps (s : PrefetchState) (p : gmap string PrefetchedExtension)
    (r : gmap string nat) (h : Z) (t : gmap nat PrefetchTask) : PrefetchState :=
  {| prefetched := p; running := r; heldBytes := h; generation := generation s;
     tasks := t; next_task := next_task s; hook_installed := hook_installed s |}.

(** [finally { running.delete(url) }], at the end of the call [id]. *)
Definition prefetchOne_end (id : nat) (t : PrefetchTask) (s : PrefetchState) : PrefetchState :=
  with_maps s (prefetched s) (delete (task_url t) (running s)) (heldBytes s)
    (delete id (tasks s)).

(** Up to the first await: the call reads [generation] and starts the download.
    [fetch] reports every failure through its promise. *)
Definition prefetchOne_start (url : string) (s : PrefetchState) : nat * PrefetchState :=
  (next_task s,
   {| prefetched := prefetched s; running := running s; heldBytes := heldBytes s;
      generation := generation s;
      tasks := <[next_task s := {| task_url := url; startedIn := generation s; phase := Fetching |}]>
                 (tasks s);
      next_task := S (next_task s); hook_installed := hook_installed s |}).

(** The download answered with an HTTP status, or failed ([None]: network error
    or timeout). *)
Definition prefetchOne_response (id : nat) (r : option Z) (s : PrefetchState) : PrefetchState :=
  match tasks s !! id with
  | Some t =>
      match phase t, r with
      | Fetching, Some 200 =>
          with_maps s (prefetched s) (running s) (heldBytes s)
            (<[id := {| task_url := task_url t; startedIn := startedIn t; phase := Reading |}]>
               (tasks s))
      | Fetching, _ => prefetchOne_end id t s
      | _, _ => s
      end
  | None => s
  end.

(** The body arrived, or reading it failed. *)
Definition prefetchOne_body (id : nat) (r : option (list Z)) (s : PrefetchState) : PrefetchState :=
  match tasks s !! id with
  | Some t =>
      match phase t, r with
      | Reading, Some bs =>
          with_maps s (prefetched s) (running s) (heldBytes s)
            (<[id := {| task_url := task_url t; startedIn := startedIn t; phase := Hashing bs |}]>
               (tasks s))
      | Reading, None => prefetchOne_end id t s
      | _, _ => s
      end
  | None => s
  end.

(** Hash and compilation are done; both promises turn a failure into [null]. *)
Definition prefetchOne_finish (id : nat) (h : option (list Z)) (m : option Z)
    (s : PrefetchState) : PrefetchState :=
  match tasks s !! id with
  | Some t =>
      match phase t with
      | Hashing bs =>
          let s' :=
            if negb (generation s =? startedIn t) || (MAX_HELD_BYTES <? heldBytes s + lenZ bs)
            then s
            else with_maps s
                   (<[task_url t := {| bytes := bs; hash := h; module := m |}]> (prefetched s))
                   (running s) (heldBytes s + lenZ bs) (tasks s) in
          prefetchOne_end id t s'
      | _ => s
      end
  | None => s
  end.

(** ** The exported operations *)

Definition installPrefetchHook (s : PrefetchState) : PrefetchState :=
  {| prefetched := prefetched s; running := running s; heldBytes := heldBytes s;
     generation := generation s; tasks := tasks s; next_task := next_task s;
     hook_installed := true |}.

(** The loop of [prefetchExtensions]: the calls whose completion it awaits. *)
Fixpoint prefetch_loop (urls : list string) (work : list nat) (s : PrefetchState)
    : list nat * PrefetchState :=
  match urls with
  | [] => (work, s)
  | url :: urls' =>
      match prefetched s !! url with
      | Some _ => prefetch_loop urls' work s
      | None =>
          match running s !! url with
          | Some p => prefetch_loop urls' (work ++ [p]) s
          | None =>
              let '(p, s1) := prefetchOne_start url s in
              let s2 := with_maps s1 (prefetched s1) (<[url := p]> (running s1)) (heldBytes s1)
                          (tasks s1) in
              prefetch_loop urls' (work ++ [p]) s2
          end
      end
  end.

(** Up to [await Promise.all(work)]; the result is [work]. *)
Definition prefetchExtensions (urls : list string) (s : PrefetchState) : list nat * PrefetchState :=
  prefetch_loop urls [] (installPrefetchHook s).

Definition prefetchesRunning (s : PrefetchState) : bool := bool_decide (running s <> ∅).

Definition takePrefetchedExtension (url : string) (s : PrefetchState)
    : option PrefetchedExtension * PrefetchState :=
  match prefetched s !! url with
  | None => (None, s)
  | Some entry =>
      (Some entry,
       with_maps s (delete url (prefetched s)) (running s) (heldBytes s - lenZ (bytes entry))
         (tasks s))
  end.

Definition clearPrefetchedExtensions (s : PrefetchState) : PrefetchState :=
  {| prefetched := ∅; running := running s; heldBytes := 0; generation := generation s + 1;
     tasks := tasks s; next_task := next_task s; hook_installed := hook_installed s |}.

(** Every way the module state changes. *)
Inductive prefetch_step : PrefetchState -> PrefetchState -> Prop :=
| step_prefetch urls s : prefetch_step s (prefetchExtensions urls s).2
| step_response id r s : prefetch_step s (prefetchOne_response id r s)
| step_body id r s : prefetch_step s (prefetchOne_body id r s)
| step_finish id h m s : prefetch_step s (prefetchOne_finish id h m s)
| step_take url s : prefetch_step s (takePrefetchedExtension url s).2
| step_clear s : prefetch_step s (clearPrefetchedExtensions s).

(** ** Invariant *)

(** The bytes of the entries no LOAD has taken. *)
Definition held (m : gmap string PrefetchedExtension) : Z :=
  map_fold (fun _ e acc => lenZ (bytes e) + acc) 0 m.

Record prefetch_inv (s : PrefetchState) : Prop := {
  inv_held : heldBytes s = held (prefetched s);
  inv_bound : heldBytes s <= MAX_HELD_BYTES;
  inv_running : forall url id, running s !! url = Some id <->
                  exists t, tasks s !! id = Some t /\ task_url t = url;
  inv_disjoint : forall url id, running s !! url = Some id -> prefetched s !! url = None;
  inv_generation : forall id t, tasks s !! id = Some t -> startedIn t <= generation s;
  inv_fresh : forall id t, tasks s !! id = Some t -> (id < next_task s)%nat
}.

(** *** The chunk loop *)

Lemma HASH_CHUNK_SIZE_pos : 0 < HASH_CHUNK_SIZE.
Proof. done. Qed.
#[local] Opaque HASH_CHUNK_SIZE.

(** With enough fuel the chunks are the bytes from [offset] to [fin], in order. *)
Lemma hash_chunks_concat fuel bs offset fin :
  0 <= offset -> fin <= lenZ bs ->
  fin < offset + Z.of_nat fuel * HASH_CHUNK_SIZE ->
  concat (hash_chunks fuel bs offset fin) = subarray bs offset fin.
Proof.
  pose proof HASH_CHUNK_SIZE_pos as HC.
  revert offset. induction fuel as [|fuel IH]; intros offset Ho Hf Hfuel; cbn [hash_chunks].
  - cbn [concat]. unfold subarray. replace (Z.to_nat (fin - offset)) with 0%nat by lia. done.
  - destruct (Z.ltb_spec offset fin) as [Hlt|Hge].
    + cbn [concat]. destruct (Z.le_gt_cases fin (offset + HASH_CHUNK_SIZE)) as [Hle|Hgt].
      * rewrite Z.min_l by lia. destruct fuel as [|fuel]; cbn.
        { by rewrite app_nil_r. }
        replace (offset + HASH_CHUNK_SIZE <? fin) with false by (symmetry; apply Z.ltb_ge; lia).
        cbn. by rewrite app_nil_r.
      * rewrite Z.min_r, IH by lia. apply subarray_app; lia.
    + cbn. unfold subarray. replace (Z.to_nat (fin - offset)) with 0%nat by lia. done.
Qed.

(** No chunk is empty or larger than the chunk size. *)
Lemma hash_chunks_size fuel bs offset fin :
  0 <= offset -> fin <= lenZ bs ->
  Forall (fun c => 0 < lenZ c <= HASH_CHUNK_SIZE) (hash_chunks fuel bs offset fin).
Proof.
  pose proof HASH_CHUNK_SIZE_pos as HC.
  revert offset. induction fuel as [|fuel IH]; intros offset Ho Hf; cbn; [constructor|].
  destruct (Z.ltb_spec offset fin); [|constructor].
  constructor; [rewrite subarray_length; lia|apply IH; lia].
Qed.

(** Every chunk but the last is full. *)
Lemma hash_chunks_full fuel bs offset fin i :
  0 <= offset -> fin <= lenZ bs ->
  (S i < length (hash_chunks fuel bs offset fin))%nat ->
  exists c, hash_chunks fuel bs offset fin !! i = Some c /\ lenZ c = HASH_CHUNK_SIZE.
Proof.
  pose proof HASH_CHUNK_SIZE_pos as HC.
  revert offset i. induction fuel as [|fuel IH]; intros offset i Ho Hf Hi; cbn in *; [lia|].
  destruct (Z.ltb_spec offset fin); [|cbn in Hi; lia].
  destruct i as [|i]; cbn in *.
  - eexists. split; [done|]. destruct fuel; cbn in Hi; [lia|].
    destruct (Z.ltb_spec (offset + HASH_CHUNK_SIZE) fin); [|cbn in Hi; lia].
    rewrite subarray_length; lia.
  - apply IH; lia.
Qed.

Lemma chunk_fuel_enough fin : 0 <= fin -> fin < 0 + Z.of_nat (chunk_fuel fin) * HASH_CHUNK_SIZE.
Proof.
  intros Hf. unfold chunk_fuel. pose proof HASH_CHUNK_SIZE_pos.
  pose proof (Z.mod_pos_bound fin HASH_CHUNK_SIZE). pose proof (Z.div_mod fin HASH_CHUNK_SIZE).
  assert (0 <= fin / HASH_CHUNK_SIZE) by (apply Z.div_pos; lia). nia.
Qed.

(** Writing hashes of 32 bytes one after the other concatenates them. *)
Lemma set_hashes_concat hs pre k :
  Forall (fun h => length h = 32%nat) hs -> length pre = (k * 32)%nat ->
  set_hashes k hs (pre ++ replicate (length hs * 32) 0) = pre ++ concat hs.
Proof.
  intros Hh. revert pre k. induction Hh as [|h hs Hlen Hh IH]; intros pre k Hk; cbn [set_hashes concat].
  { cbn. done. }
  replace (length (h :: hs) * 32)%nat with (length h + length hs * 32)%nat by (cbn; lia).
  rewrite replicate_add. replace (k * 32)%nat with (length pre + 0)%nat by lia.
  rewrite list_inserts_app_r, list_inserts_0_r by (by rewrite length_replicate).
  rewrite app_assoc, IH; [by rewrite <- app_assoc|]. rewrite length_app. lia.
Qed.

Lemma concat_hashes_concat hs :
  Forall (fun h => length h = 32%nat) hs -> concat_hashes hs = concat hs.
Proof. intros Hh. by apply (set_hashes_concat hs [] 0). Qed.

(** *** The bytes held *)

Lemma held_insert m url e : m !! url = None -> held (<[url := e]> m) = lenZ (bytes e) + held m.
Proof. intros H. unfold held. rewrite map_fold_insert_L; [done| |done]. intros; lia. Qed.

Lemma held_delete m url e : m !! url = Some e -> held (delete url m) = held m - lenZ (bytes e).
Proof.
  intros H. unfold held.
  rewrite (map_fold_delete_L _ _ url e m); [lia| |done]. intros; lia.
Qed.

Lemma held_nonneg m : 0 <= held m.
Proof.
  unfold held. induction m as [|k e m Hm Hf IH] using map_first_key_ind; [done|].
  rewrite map_fold_insert_first_key by done. pose proof (lenZ_nonneg (bytes e)). lia.
Qed.

(** *** Each operation preserves the invariant *)

Lemma prefetch_inv_initial : prefetch_inv initial_prefetch.
Proof.
  split; cbn; try done.
  - intros url id. rewrite lookup_empty. split; [done|]. intros (t & Ht & _).
    by rewrite lookup_empty in Ht.
Qed.

(** Two calls in flight never have the same URL. *)
Lemma tasks_url_inj s id1 id2 t1 t2 :
  prefetch_inv s -> tasks s !! id1 = Some t1 -> tasks s !! id2 = Some t2 ->
  task_url t1 = task_url t2 -> id1 = id2.
Proof.
  intros Hi H1 H2 Hu.
  assert (running s !! task_url t1 = Some id1) as R1 by (apply (inv_running s Hi); eauto).
  assert (running s !! task_url t1 = Some id2) as R2 by (apply (inv_running s Hi); eauto).
  congruence.
Qed.

Lemma prefetchOne_end_inv s id t :
  prefetch_inv s -> tasks s !! id = Some t -> prefetch_inv (prefetchOne_end id t s).
Proof.
  intros Hi Ht. pose proof (tasks_url_inj s) as Hinj.
  pose proof Hi as [Hh Hb Hr Hd Hg Hf]. split; cbn; try done.
  - intros url id'. rewrite lookup_delete_Some, Hr. setoid_rewrite lookup_delete_Some.
    split; [intros (Hne & t' & Ht' & Hu)|intros (t' & (Hne & Ht') & Hu)].
    + exists t'. repeat split; try done. intros ->. congruence.
    + split; [|eauto]. intros <-. apply Hne. by apply (Hinj id id' t t').
  - intros url id' (_ & H)%lookup_delete_Some. eauto.
  - intros id' t' (_ & H)%lookup_delete_Some. eauto.
  - intros id' t' (_ & H)%lookup_delete_Some. eauto.
Qed.

(** Moving a call to another phase changes nothing the invariant mentions. *)
Lemma set_phase_inv s id t ph :
  prefetch_inv s -> tasks s !! id = Some t ->
  prefetch_inv (with_maps s (prefetched s) (running s) (heldBytes s)
    (<[id := {| task_url := task_url t; startedIn := startedIn t; phase := ph |}]> (tasks s))).
Proof.
  intros [Hh Hb Hr Hd Hg Hf] Ht. split; cbn; try done.
  - intros url id'. rewrite Hr. setoid_rewrite lookup_insert_Some.
    split; intros (t' & Ht' & Hu).
    + destruct (decide (id = id')) as [<-|Hne]; [|eauto 6].
      eexists. split; [left; done|]. cbn. congruence.
    + destruct Ht' as [[<- <-]|[_ Ht']]; cbn in *; eauto.
  - intros id' t' [[<- <-]|[_ H]]%lookup_insert_Some; cbn; eauto.
  - intros id' t' [[<- <-]|[_ H]]%lookup_insert_Some; cbn; eauto.
Qed.

Lemma prefetchOne_response_inv s id r :
  prefetch_inv s -> prefetch_inv (prefetchOne_response id r s).
Proof.
  intros Hi. unfold prefetchOne_response.
  repeat case_match; eauto using prefetchOne_end_inv, set_phase_inv.
Qed.

Lemma prefetchOne_body_inv s id r : prefetch_inv s -> prefetch_inv (prefetchOne_body id r s).
Proof.
  intros Hi. unfold prefetchOne_body.
  repeat case_match; eauto using prefetchOne_end_inv, set_phase_inv.
Qed.

(** The one step that adds an entry: it keeps the byte count exact and the bound. *)
Lemma prefetchOne_finish_inv s id h m :
  prefetch_inv s -> prefetch_inv (prefetchOne_finish id h m s).
Proof.
  intros Hi. unfold prefetchOne_finish.
  destruct (tasks s !! id) as [t|] eqn:Ht; [|done].
  destruct (phase t) as [| |bs] eqn:Hp; [done..|].
  destruct (negb (generation s =? startedIn t) || (MAX_HELD_BYTES <? heldBytes s + lenZ bs)) eqn:Hc;
    [by apply prefetchOne_end_inv|].
  apply orb_false_iff in Hc as [_ Hc%Z.ltb_ge].
  pose proof Hi as [Hh Hb Hr Hd Hg Hf].
  assert (running s !! task_url t = Some id) as Hrun by (apply Hr; eauto).
  pose proof (prefetchOne_end_inv s id t Hi Ht) as He.
  destruct He as [_ _ Hr' _ Hg' Hf']. split; cbn in *; try done.
  - rewrite held_insert by eauto. cbn. lia.
  - intros url id' Hdel. rewrite lookup_insert_ne; [|intros <-; by rewrite lookup_delete_eq in Hdel].
    apply lookup_delete_Some in Hdel as [_ Hdel]. eauto.
Qed.

Lemma take_inv s url : prefetch_inv s -> prefetch_inv (takePrefetchedExtension url s).2.
Proof.
  intros Hi. pose proof Hi as [Hh Hb Hr Hd Hg Hf]. unfold takePrefetchedExtension.
  destruct (prefetched s !! url) as [e|] eqn:He; [|done]. split; cbn; try done.
  - rewrite held_delete with (e := e) by done. lia.
  - pose proof (lenZ_nonneg (bytes e)). lia.
  - intros url' id H. rewrite lookup_delete_None. eauto.
Qed.

Lemma clear_inv s : prefetch_inv s -> prefetch_inv (clearPrefetchedExtensions s).
Proof.
  intros [Hh Hb Hr Hd Hg Hf]. split; cbn; try done.
  intros id t Ht. specialize (Hg id t Ht). lia.
Qed.

Lemma install_inv s : prefetch_inv s -> prefetch_inv (installPrefetchHook s).
Proof. by intros [Hh Hb Hr Hd Hg Hf]. Qed.

(** Starting a call for a URL that is neither held nor in flight. *)
Lemma start_inv s url :
  prefetch_inv s -> prefetched s !! url = None -> running s !! url = None ->
  let '(p, s1) := prefetchOne_start url s in
  prefetch_inv (with_maps s1 (prefetched s1) (<[url := p]> (running s1)) (heldBytes s1) (tasks s1)).
Proof.
  intros [Hh Hb Hr Hd Hg Hf] Hp Hrun. split; cbn; try done.
  - intros url' id. rewrite lookup_insert_Some. setoid_rewrite lookup_insert_Some.
    rewrite Hr. split.
    + intros [[<- <-]|(Hne & t & Ht & Hu)]; [eauto|]. exists t. split; [|done]. right.
      split; [|done]. apply Hf in Ht. lia.
    + intros (t & [[<- <-]|[Hne Ht]] & Hu); [by left|]. right. split; [|eauto].
      intros ->. assert (running s !! url' = Some id) by (apply Hr; eauto). congruence.
  - intros url' id [[<- <-]|[_ H]]%lookup_insert_Some; eauto.
  - intros id t [[<- <-]|[_ H]]%lookup_insert_Some; cbn; [lia|eauto].
  - intros id t [[<- <-]|[_ H]]%lookup_insert_Some; cbn; [lia|]. apply Hf in H. lia.
Qed.

Lemma prefetch_loop_inv urls work s :
  prefetch_inv s -> prefetch_inv (prefetch_loop urls work s).2.
Proof.
  revert work s. induction urls as [|url urls IH]; intros work s Hi; cbn [prefetch_loop]; [done|].
  destruct (prefetched s !! url) eqn:Hp; [by apply IH|].
  destruct (running s !! url) eqn:Hr; [by apply IH|].
  pose proof (start_inv s url Hi Hp Hr) as Hs.
  destruct (prefetchOne_start url s) as [p s1]. by apply IH.
Qed.

Lemma prefetchExtensions_inv urls s :
  prefetch_inv s -> prefetch_inv (prefetchExtensions urls s).2.
Proof. intros Hi. apply prefetch_loop_inv. by apply install_inv. Qed.

#[export] Hint Resolve prefetchExtensions_inv prefetchOne_response_inv prefetchOne_body_inv
  prefetchOne_finish_inv take_inv clear_inv prefetch_inv_initial : js.

Lemma prefetch_step_inv s s' : prefetch_inv s -> prefetch_step s s' -> prefetch_inv s'.
Proof. intros Hi Hs. destruct Hs; eauto using prefetchExtensions_inv, prefetchOne_response_inv, prefetchOne_body_inv, prefetchOne_finish_inv, take_inv, clear_inv. Qed.

Abbreviation prefetch_reachable := (reachable prefetch_step (eq initial_prefetch)).

Lemma prefetch_reachable_inv s : prefetch_reachable s -> prefetch_inv s.
Proof.
  apply reachable_invariant; [intros ? <-; auto with js|].
  intros s1 s2 Hi Hs. by eapply prefetch_step_inv.
Qed.

(** *** Generations *)

(** What never changes back: generations only grow, identities are not reused
    and a call keeps the generation it started in. *)
Definition prefetch_le (s s' : PrefetchState) : Prop :=
  generation s <= generation s' /\ (next_task s <= next_task s')%nat /\
  forall id t', tasks s' !! id = Some t' -> (id < next_task s)%nat ->
    exists t, tasks s !! id = Some t /\ startedIn t = startedIn t'.

Lemma prefetch_le_refl s : prefetch_le s s.
Proof. split; [lia|split; [lia|eauto]]. Qed.

Lemma prefetch_le_trans s1 s2 s3 : prefetch_le s1 s2 -> prefetch_le s2 s3 -> prefetch_le s1 s3.
Proof.
  intros (G1 & N1 & T1) (G2 & N2 & T2). split; [lia|split; [lia|]].
  intros id t3 H3 Hid. destruct (T2 id t3 H3) as (t2 & H2 & E2); [lia|].
  destruct (T1 id t2 H2 Hid) as (t1 & H1 & E1). exists t1. split; [done|congruence].
Qed.

(** Changing the phase of a call, or ending it, is an increase. *)
Lemma prefetch_le_phase s id t ph p r h :
  tasks s !! id = Some t ->
  prefetch_le s (with_maps s p r h
    (<[id := {| task_url := task_url t; startedIn := startedIn t; phase := ph |}]> (tasks s))).
Proof.
  intros Ht. split; [cbn; lia|split; [cbn; lia|]]; cbn.
  intros id' t' [[<- <-]|[_ H]]%lookup_insert_Some _; eauto.
Qed.

Lemma prefetch_le_delete s s' id :
  generation s' = generation s -> next_task s' = next_task s ->
  tasks s' = delete id (tasks s) -> prefetch_le s s'.
Proof.
  intros Hg Hn Ht. split; [lia|split; [lia|]]. rewrite Ht.
  intros id' t' [_ H]%lookup_delete_Some _. eauto.
Qed.

Lemma prefetch_le_loop urls work s : prefetch_le s (prefetch_loop urls work s).2.
Proof.
  revert work s. induction urls as [|url urls IH]; intros work s; cbn [prefetch_loop].
  { apply prefetch_le_refl. }
  repeat case_match; try apply IH. eapply prefetch_le_trans; [|apply IH].
  unfold prefetchOne_start in *. simplify_eq. split; [cbn; lia|split; [cbn; lia|]]; cbn.
  intros id t' [[<- <-]|[_ Ht]]%lookup_insert_Some Hid; [lia|eauto].
Qed.

Lemma prefetch_step_le s s' : prefetch_step s s' -> prefetch_le s s'.
Proof.
  intros [urls s0|id r s0|id r s0|id h m s0|url s0|s0].
  - unfold prefetchExtensions. eapply prefetch_le_trans; [|apply prefetch_le_loop]. exact (prefetch_le_refl s0).
  - unfold prefetchOne_response. repeat case_match;
      first [apply prefetch_le_refl | by apply prefetch_le_phase | by eapply prefetch_le_delete].
  - unfold prefetchOne_body. repeat case_match;
      first [apply prefetch_le_refl | by apply prefetch_le_phase | by eapply prefetch_le_delete].
  - unfold prefetchOne_finish. destruct (tasks s0 !! id) as [t|]; [|apply prefetch_le_refl].
    destruct (phase t); try apply prefetch_le_refl. case_match; by eapply prefetch_le_delete.
  - unfold takePrefetchedExtension. case_match; [|apply prefetch_le_refl].
    split; [cbn; lia|split; [cbn; lia|cbn; eauto]].
  - split; [cbn; lia|split; [cbn; lia|cbn; eauto]].
Qed.

Lemma prefetch_steps_le s s' : reachable prefetch_step (eq s) s' -> prefetch_le s s'.
Proof.
  induction 1 as [s' <-|s1 s2 _ IH Hs]; [apply prefetch_le_refl|].
  eapply prefetch_le_trans; [exact IH|by apply prefetch_step_le].
Qed.

(** A call that started in another generation adds nothing. *)
Lemma finish_stale s id t h m :
  tasks s !! id = Some t -> startedIn t <> generation s ->
  prefetched (prefetchOne_finish id h m s) = prefetched s.
Proof.
  intros Ht Hne. unfold prefetchOne_finish. rewrite Ht. destruct (phase t); [done..|].
  by rewrite (proj2 (Z.eqb_neq _ _)).
Qed.

(** *** Calls end *)

(** Settle every promise the call [id] may await. *)
Definition settle (id : nat) (r : option Z) (b : option (list Z)) (h : option (list Z))
    (m : option Z) (s : PrefetchState) : PrefetchState :=
  prefetchOne_finish id h m (prefetchOne_body id b (prefetchOne_response id r s)).

(** The call is gone, or its phase is one of [P]. *)
Definition in_phase (P : Phase -> Prop) (id : nat) (s : PrefetchState) : Prop :=
  forall t, tasks s !! id = Some t -> P (phase t).

Lemma end_in_phase P id t s : in_phase P id (prefetchOne_end id t s).
Proof. intros t'. cbn. by rewrite lookup_delete_eq. Qed.

Lemma response_in_phase id r s :
  in_phase (fun p => p <> Fetching) id (prefetchOne_response id r s).
Proof.
  unfold prefetchOne_response.
  destruct (tasks s !! id) as [t|] eqn:Ht; [|by intros t'; rewrite Ht].
  destruct (phase t) eqn:Hp; try (intros t'; rewrite Ht; intros [= <-]; by rewrite Hp).
  repeat case_match; try apply end_in_phase. intros t'. cbn. rewrite lookup_insert_eq. by intros [= <-].
Qed.

Lemma body_in_phase id b s :
  in_phase (fun p => p <> Fetching) id s ->
  in_phase (fun p => p <> Fetching /\ p <> Reading) id (prefetchOne_body id b s).
Proof.
  intros Hs. unfold prefetchOne_body.
  destruct (tasks s !! id) as [t|] eqn:Ht; [|by intros t'; rewrite Ht].
  specialize (Hs t Ht). destruct (phase t) eqn:Hp; [done| |intros t'; rewrite Ht; intros [= <-]; by rewrite Hp].
  case_match; [|apply end_in_phase]. intros t'. cbn. rewrite lookup_insert_eq. by intros [= <-].
Qed.

Lemma finish_gone id h m s :
  in_phase (fun p => p <> Fetching /\ p <> Reading) id s ->
  tasks (prefetchOne_finish id h m s) !! id = None.
Proof.
  intros Hs. unfold prefetchOne_finish. destruct (tasks s !! id) as [t|] eqn:Ht; [|done].
  destruct (Hs t Ht) as [H1 H2]. destruct (phase t); [done..|].
  case_match; apply lookup_delete_eq.
Qed.

(** Settling a call from any phase removes it, and it alone. *)
Lemma settle_gone id r b h m s : tasks (settle id r b h m s) !! id = None.
Proof. apply finish_gone, body_in_phase, response_in_phase. Qed.

Lemma settle_other id id' r b h m s :
  id' <> id -> tasks (settle id r b h m s) !! id' = tasks s !! id'.
Proof.
  intros Hne. unfold settle.
  assert (forall h m s, tasks (prefetchOne_finish id h m s) !! id' = tasks s !! id') as ->.
  { intros. unfold prefetchOne_finish. repeat case_match; cbn; by rewrite ?lookup_delete_ne. }
  assert (forall b s, tasks (prefetchOne_body id b s) !! id' = tasks s !! id') as ->.
  { intros. unfold prefetchOne_body.
    repeat case_match; cbn; by rewrite ?lookup_delete_ne, ?lookup_insert_ne. }
  unfold prefetchOne_response.
  repeat case_match; cbn; by rewrite ?lookup_delete_ne, ?lookup_insert_ne.
Qed.

Lemma settle_inv id r b h m s : prefetch_inv s -> prefetch_inv (settle id r b h m s).
Proof. intros Hi. unfold settle. auto with js. Qed.

(** With no call in flight nothing is running. *)
Lemma no_tasks_not_running s : prefetch_inv s -> tasks s = ∅ -> prefetchesRunning s = false.
Proof.
  intros Hi Ht. apply bool_decide_eq_false. intros Hne. apply Hne.
  apply map_eq. intros url. rewrite lookup_empty. destruct (running s !! url) as [id|] eqn:E; [|done].
  apply (inv_running s Hi) in E as (t & H & _). by rewrite Ht, lookup_empty in H.
Qed.

(** Settling every call of a list, one after the other. *)
Fixpoint settle_all (l : list (nat * (option Z * option (list Z) * option (list Z) * option Z)))
    (s : PrefetchState) : PrefetchState :=
  match l with
  | [] => s
  | (id, (r, b, h, m)) :: l' => settle_all l' (settle id r b h m s)
  end.

Lemma settle_all_inv l s : prefetch_inv s -> prefetch_inv (settle_all l s).
Proof.
  revert s. induction l as [|[id [[[r b] h] m]] l IH]; intros s Hi; cbn; [done|].
  by apply IH, settle_inv.
Qed.

Lemma settle_all_gone l s id :
  tasks s !! id = None \/ id ∈ l.*1 -> tasks (settle_all l s) !! id = None.
Proof.
  revert s. induction l as [|[id' [[[r b] h] m]] l IH]; intros s H; cbn in *.
  { destruct H as [H|H]; [done|]. by apply elem_of_nil in H. }
  apply IH. destruct (decide (id = id')) as [->|Hne]; [left; apply settle_gone|].
  destruct H as [H|[->|H]%elem_of_cons]; [|done|by right]. left. by rewrite settle_other.
Qed.

(** ** Properties *)

(** C35: however the downloads, LOADs, new prefetches and resets interleave,
    [heldBytes] is exactly the size of the entries that wait for a LOAD, it never
    exceeds the 256 MiB bound, and no URL is at once waiting and downloading, so
    a prefetch never replaces an entry that is already counted. *)
Theorem held_bytes_exact_and_bounded s :
  prefetch_reachable s ->
  heldBytes s = held (prefetched s) /\ 0 <= heldBytes s <= MAX_HELD_BYTES /\
  (forall url, is_Some (running s !! url) -> prefetched s !! url = None).
Proof.
  intros Hr. pose proof (prefetch_reachable_inv s Hr) as Hi. destruct Hi as [Hh Hb _ Hd _ _].
  split; [done|]. split; [|by intros url [id Hid]; eauto].
  split; [rewrite Hh; apply held_nonneg|done].
Qed.

Definition demo_prefetch : PrefetchState :=
  prefetchOne_finish 0 None (Some 7)
    (prefetchOne_body 0 (Some [1; 2; 3])
      (prefetchOne_response 0 (Some 200) (prefetchExtensions ["u"; "v"] initial_prefetch).2)).

Lemma demo_prefetch_reachable : prefetch_reachable demo_prefetch.
Proof. repeat (eapply reach_step; [|constructor]). by constructor. Qed.

Lemma held_bytes_exact_and_bounded_witness :
  prefetch_reachable demo_prefetch /\ heldBytes demo_prefetch = 3 /\
  prefetched demo_prefetch !! "v" = None.
Proof.
  split; [apply demo_prefetch_reachable|]. split; [reflexivity|].
  destruct (held_bytes_exact_and_bounded demo_prefetch demo_prefetch_reachable) as (_ & _ & H).
  apply H. by exists 1%nat.
Defined.

(** A reset ([clearPrefetchedExtensions]) also voids the downloads in
    flight: whatever happens afterwards, a call of [prefetchOne] that was running
    at the reset never adds its entry. *)
Theorem clear_voids_running_downloads s s' id t h m :
  prefetch_reachable s -> tasks s !! id = Some t ->
  reachable prefetch_step (eq (clearPrefetchedExtensions s)) s' ->
  prefetched (prefetchOne_finish id h m s') = prefetched s'.
Proof.
  intros Hr Ht Hs. pose proof (prefetch_reachable_inv s Hr) as Hi.
  destruct (tasks s' !! id) as [t'|] eqn:Ht';
    [|unfold prefetchOne_finish; by rewrite Ht'].
  apply finish_stale with t'; [done|].
  destruct (prefetch_steps_le _ _ Hs) as (Hg & _ & Hk). cbn in Hg.
  destruct (Hk id t' Ht') as (t0 & Ht0 & <-).
  { cbn. by apply (inv_fresh s Hi) in Ht. }
  cbn in Ht0. apply (inv_generation s Hi) in Ht0. lia.
Qed.

Lemma clear_voids_running_downloads_witness :
  prefetched (prefetchOne_finish 1 None None
    (prefetchOne_body 1 (Some [9]) (prefetchOne_response 1 (Some 200)
      (clearPrefetchedExtensions demo_prefetch)))) = ∅.
Proof.
  rewrite (clear_voids_running_downloads demo_prefetch _ 1
             {| task_url := "v"; startedIn := 0; phase := Fetching |}).
  - reflexivity.
  - apply demo_prefetch_reachable.
  - reflexivity.
  - do 2 (eapply reach_step; [|constructor]). by constructor.
Defined.

(** The hash handed to the engine is the engine's two-level hash: the file
    without its 256-byte signature is cut, in order and without gaps, into
    chunks of exactly 1 MiB except the last, which is not empty, and the result
    is the digest of the concatenated digests of the chunks. *)
Theorem extension_hash_is_two_level digest bs :
  (forall c, length (digest c) = 32%nat) -> SIGNATURE_SIZE <= lenZ bs ->
  exists chunks,
    concat chunks = subarray bs 0 (lenZ bs - SIGNATURE_SIZE) /\
    Forall (fun c => 0 < lenZ c <= HASH_CHUNK_SIZE) chunks /\
    (forall i, (S i < length chunks)%nat -> lenZ <$> chunks !! i = Some HASH_CHUNK_SIZE) /\
    computeExtensionHash digest true bs = Some (digest (concat (digest <$> chunks))).
Proof.
  intros Hd Hlen. set (fin := lenZ bs - SIGNATURE_SIZE). change SIGNATURE_SIZE with 256 in *.
  exists (hash_chunks (chunk_fuel fin) bs 0 fin). split; [|split; [|split]].
  - apply hash_chunks_concat; [lia|unfold fin; lia|]. apply chunk_fuel_enough. unfold fin. lia.
  - apply hash_chunks_size; unfold fin; lia.
  - intros i Hi. destruct (hash_chunks_full (chunk_fuel fin) bs 0 fin i) as (c & -> & Hc);
      [lia|unfold fin; lia|done|]. cbn. by rewrite Hc.
  - unfold computeExtensionHash. change SIGNATURE_SIZE with 256.
    replace (lenZ bs <? 256) with false by (symmetry; apply Z.ltb_ge; lia). cbn [orb negb].
    f_equal. f_equal. apply concat_hashes_concat. apply Forall_fmap, Forall_true. intros c. apply Hd.
Qed.

Definition demo_digest (c : list Z) : list Z := replicate 32 (lenZ c mod 256).

Lemma extension_hash_is_two_level_witness :
  SIGNATURE_SIZE <= lenZ (replicate 300 1) /\
  exists chunks, concat chunks = subarray (replicate 300 1) 0 44 /\
    computeExtensionHash demo_digest true (replicate 300 1)
      = Some (demo_digest (concat (demo_digest <$> chunks))).
Proof.
  split; [by vm_compute|].
  destruct (extension_hash_is_two_level demo_digest (replicate 300 1)) as (cs & Hc & _ & _ & Hh).
  - intros c. unfold demo_digest. by rewrite length_replicate.
  - by vm_compute.
  - exists cs. split; [exact Hc|exact Hh].
Defined.

(** the success path, end to end: when a new URL is prefetched, its download
    answers 200 and the bytes fit the bound, the next LOAD of that URL gets
    exactly the downloaded bytes with their hash and module, and a second LOAD
    gets nothing. *)
Theorem prefetch_serves_one_load s url bs h m :
  prefetch_reachable s -> prefetched s !! url = None -> running s !! url = None ->
  heldBytes s + lenZ bs <= MAX_HELD_BYTES ->
  let s1 := settle (next_task s) (Some 200) (Some bs) h m (prefetchExtensions [url] s).2 in
  let r := takePrefetchedExtension url s1 in
  r.1 = Some {| bytes := bs; hash := h; module := m |} /\
  heldBytes r.2 = heldBytes s /\ (takePrefetchedExtension url r.2).1 = None.
Proof.
  intros Hr Hp Hrun Hfit s1 r.
  assert (prefetched s1 = <[url := {| bytes := bs; hash := h; module := m |}]> (prefetched s) /\
          heldBytes s1 = heldBytes s + lenZ bs) as [E1 E2].
  { unfold s1, settle, prefetchExtensions. cbn [prefetch_loop]. cbn. rewrite Hp. cbn. rewrite Hrun. cbn.
    unfold prefetchOne_response. cbn. rewrite lookup_insert_eq. cbn.
    unfold prefetchOne_body. cbn. rewrite lookup_insert_eq. cbn.
    unfold prefetchOne_finish. cbn. rewrite lookup_insert_eq. cbn.
    rewrite Z.eqb_refl. rewrite (proj2 (Z.ltb_ge _ _)) by lia. by cbn. }
  unfold r, takePrefetchedExtension. rewrite E1, lookup_insert_eq. cbn. split; [done|].
  rewrite delete_insert_eq by done. rewrite lookup_delete_eq. cbn. split; [lia|done].
Qed.

Lemma prefetch_serves_one_load_witness :
  (takePrefetchedExtension "w"
     (settle (next_task demo_prefetch) (Some 200) (Some [4; 5]) None None
       (prefetchExtensions ["w"] demo_prefetch).2)).1
  = Some {| bytes := [4; 5]; hash := None; module := None |}.
Proof.
  apply (prefetch_serves_one_load demo_prefetch "w" [4; 5] None None).
  - apply demo_prefetch_reachable.
  - reflexivity.
  - reflexivity.
  - by vm_compute.
Defined.

(** Requests that wait for prefetches cannot wait for ever: once the promises
    of every call in flight settle, with any outcome (an answer, a failure or the
    timeout), nothing is running. *)
Theorem prefetches_drain s l :
  prefetch_reachable s -> (forall id, is_Some (tasks s !! id) -> id ∈ l.*1) ->
  prefetchesRunning (settle_all l s) = false.
Proof.
  intros Hr Hl. apply no_tasks_not_running.
  - by apply settle_all_inv, prefetch_reachable_inv.
  - apply map_eq. intros id. rewrite lookup_empty. apply settle_all_gone.
    destruct (tasks s !! id) eqn:E; [right; apply Hl; by rewrite E|by left].
Qed.

Lemma prefetches_drain_witness :
  prefetchesRunning demo_prefetch = true /\
  prefetchesRunning (settle_all [(1%nat, (None, None, None, None))] demo_prefetch) = false.
Proof.
  split; [reflexivity|]. apply (prefetches_drain demo_prefetch).
  - apply demo_prefetch_reachable.
  - intros id [t Ht]. replace (tasks demo_prefetch) with
      ({[1%nat := {| task_url := "v"; startedIn := 0; phase := Fetching |}]} : gmap nat PrefetchTask)
      in Ht by reflexivity.
    apply lookup_singleton_Some in Ht as [<- _]. cbn. set_solver.
Defined.
