(* ===== verification/BindingsInterface.v ===== *)
(** * BindingsInterface: what the worker asks of the bindings ([bindings_interface.ts])

    The dispatcher is written against the [DuckDBBindings] interface; this class
    is that interface over a type [B] of bindings states.  An operation may
    throw, and an async operation is the effect it has when its promise settles.
    [connect] returns the connection id that [useUnsafe] reads off the
    connection object. *)
From S2P Require Import Prelude Data FileStats Protocol.
From stdpp Require Import base tactics list gmap strings.
From Stdlib Require Import ZArith.
Open Scope Z_scope.

Class DuckDBBindings (B : Type) := {
  b_open : DuckDBConfig -> JS B unit;
  b_reset : JS B unit;
  b_getVersion : JS B string;
  b_getExtensionUrl : string -> JS B string;
  b_getFeatureFlags : JS B Z;
  b_tokenize : string -> JS B ScriptTokens;
  b_connect : JS B Z;
  b_disconnect : Z -> JS B unit;
  b_runQuery : Z -> string -> JS B (list Z);
  b_startPendingQuery : Z -> string -> bool -> JS B (option (list Z));
  b_pollPendingQuery : Z -> JS B (option (list Z));
  b_cancelPendingQuery : Z -> JS B bool;
  b_getInterruptHandle : Z -> JS B (option InterruptHandle);
  b_fetchQueryResults : Z -> JS B (option (list Z));
  b_getTableNames : Z -> string -> JS B (list string);
  b_createPrepared : Z -> string -> JS B Z;
  b_closePrepared : Z -> Z -> JS B unit;
  b_runPrepared : Z -> Z -> list Json -> JS B (list Z);
  b_sendPrepared : Z -> Z -> list Json -> JS B (list Z);
  b_insertArrowFromIPCStream : Z -> list Z -> option ArrowInsertOptions -> JS B unit;
  b_insertCSVFromPath : Z -> string -> CSVInsertOptions -> JS B unit;
  b_insertJSONFromPath : Z -> string -> JSONInsertOptions -> JS B unit;
  b_registerFileURL : string -> string -> DuckDBDataProtocol -> bool -> JS B unit;
  b_registerFileBuffer : string -> list Z -> JS B unit;
  b_registerFileHandleAsync : string -> FileHandle -> DuckDBDataProtocol -> bool -> JS B unit;
  b_prepareDBFileHandle : string -> DuckDBDataProtocol -> JS B unit;
  b_globFiles : string -> JS B (list WebFile);
  b_dropFile : string -> JS B unit;
  b_dropFiles : option (list string) -> JS B unit;
  b_flushFiles : JS B unit;
  b_copyFileToPath : string -> string -> JS B unit;
  b_copyFileToBuffer : string -> JS B (list Z);
  b_registerOPFSFileName : string -> JS B unit;
  b_collectFileStatistics : string -> bool -> JS B unit;
  b_exportFileStatistics : string -> JS B FileStatistics
}.

(** ** A small instance

    Bindings that record the calls made to them and know a single connection;
    the witnesses of the theorems about clients of the interface run on it.
    [busy] is what a poll still answers [null] for. *)
Module Recording.
Record State := { calls : list string; busy : nat; cancellable : bool }.

Definition note (name : string) : JS State unit :=
  modify (fun s => {| calls := calls s ++ [name]; busy := busy s; cancellable := cancellable s |}).
Definition noting {A} (name : string) (a : A) : JS State A := note name ;;; ret a.

Definition poll (conn : Z) : JS State (option (list Z)) :=
  note "poll" ;;;
  let! n := gets busy in
  match n with
  | O => if conn =? 1 then ret (Some [1; 2; 3]) else throw (Error "no such connection")
  | S n' =>
      modify (fun s => {| calls := calls s; busy := n'; cancellable := cancellable s |}) ;;;
      ret None
  end.

Definition cancel (conn : Z) : JS State bool :=
  note "cancel" ;;;
  let! c := gets cancellable in
  if c then ret (conn =? 1) else throw (Error "cannot cancel").

Definition bindings : DuckDBBindings State := {|
  b_open _ := note "open"; b_reset := note "reset"; b_getVersion := noting "version" "v1"%string;
  b_getExtensionUrl n := noting "url" n; b_getFeatureFlags := noting "flags" 0;
  b_tokenize _ := noting "tokenize" {| offsets := []; types := [] |};
  b_connect := noting "connect" 1; b_disconnect _ := note "disconnect";
  b_runQuery _ _ := noting "run" [1; 2; 3];
  b_startPendingQuery conn _ _ := poll conn; b_pollPendingQuery := poll;
  b_cancelPendingQuery := cancel; b_getInterruptHandle _ := noting "interrupt" None;
  b_fetchQueryResults _ := noting "fetch" None;
  b_getTableNames _ _ := noting "tables" []; b_createPrepared _ _ := noting "create" 1;
  b_closePrepared _ _ := note "close"; b_runPrepared _ _ _ := noting "run" [1; 2; 3];
  b_sendPrepared _ _ _ := noting "send" [1; 2; 3];
  b_insertArrowFromIPCStream _ _ _ := note "arrow"; b_insertCSVFromPath _ _ _ := note "csv";
  b_insertJSONFromPath _ _ _ := note "json"; b_registerFileURL _ _ _ _ := note "url";
  b_registerFileBuffer _ _ := note "buffer"; b_registerFileHandleAsync _ _ _ _ := note "handle";
  b_prepareDBFileHandle _ _ := note "prepare"; b_globFiles _ := noting "glob" [];
  b_dropFile _ := note "drop"; b_dropFiles _ := note "drops"; b_flushFiles := note "flush";
  b_copyFileToPath _ _ := note "copy"; b_copyFileToBuffer _ := noting "copy" [];
  b_registerOPFSFileName _ := note "opfs"; b_collectFileStatistics _ _ := note "collect";
  b_exportFileStatistics _ := throw (Error "no statistics")
|}.

Definition idle : State := {| calls := []; busy := 0; cancellable := true |}.
End Recording.
