(* ===== verification/Dispatcher.v ===== *)
(** * Dispatcher: the worker's request handler ([worker_dispatcher.ts], [worker_globals.ts])

    [Dispatcher] is the state of [AsyncDuckDBDispatcher] with the worker globals
    it reads.  [onMessage] is an async method: between two of its awaits it runs
    without interruption.  [onMessage] is the code up to the first await, whose
    suspension is a value of [Await], and [resume] is the code after it; between
    the two the worker may handle other requests and timer ticks.  [try_catch]
    is put around both parts, as the source's [try] block spans its awaits.

    A shared buffer is named by an identity; [sabs] holds the [Int32] lane 0 of
    each.  [typeof XMLHttpRequest !== 'undefined'] is the parameter [hasXHR].
    Console output is not modelled. *)
From S2P Require Import Prelude Data FileStats Protocol Prefetch BindingsInterface.
From stdpp Require Import base tactics list gmap strings.
From Stdlib Require Import ZArith Lia Sorted.
Open Scope Z_scope.

(** The cadence of the cancel watcher, in milliseconds. *)
Definition CANCEL_SAB_POLL_MS : Z := 250.

(** A response as it was handed to [postMessage]: the buffers it transfers. *)
Record Post := { post_response : WorkerResponse; post_transfer : list (list Z) }.

Record Dispatcher (B : Type) := MkDispatcher {
  bindings : option B;
  nextMessageId : Z;
  cancelWatcher : option Z;    (** the SAB the interval callback captured *)
  cancelConn : option Z;
  cancelInt32 : option Z;
  prefetch : PrefetchState;
  global_cancelInt32 : option Z;
  global_oauth : option Z;
  sabs : gmap Z Z;
  posted : list Post
}.
Arguments MkDispatcher {B}.
Arguments bindings {B}. Arguments nextMessageId {B}. Arguments cancelWatcher {B}.
Arguments cancelConn {B}. Arguments cancelInt32 {B}. Arguments prefetch {B}.
Arguments global_cancelInt32 {B}. Arguments global_oauth {B}. Arguments sabs {B}.
Arguments posted {B}.

(** A handler suspended at an await. *)
Inductive Await :=
| AW_instantiate (req : WorkerRequest)
| AW_waitForPrefetches (req : WorkerRequest)
| AW_prefetchExtensions (req : WorkerRequest) (work : list nat)
| AW_prepareDBFileHandle (req : WorkerRequest) (path : string) (config : DuckDBConfig)
| AW_registerFileHandle (req : WorkerRequest)
| AW_registerOPFSFileName (req : WorkerRequest).

Section Dispatcher.
Context {B : Type} `{DuckDBBindings B} (hasXHR : bool).
Abbreviation D := (Dispatcher B).

(** *** Field updates *)

Definition set_bindings (b : option B) (s : D) : D :=
  MkDispatcher b (nextMessageId s) (cancelWatcher s) (cancelConn s) (cancelInt32 s)
    (prefetch s) (global_cancelInt32 s) (global_oauth s) (sabs s) (posted s).
Definition set_watch (w c i : option Z) (s : D) : D :=
  MkDispatcher (bindings s) (nextMessageId s) w c i
    (prefetch s) (global_cancelInt32 s) (global_oauth s) (sabs s) (posted s).
Definition set_prefetch (p : PrefetchState) (s : D) : D :=
  MkDispatcher (bindings s) (nextMessageId s) (cancelWatcher s) (cancelConn s) (cancelInt32 s)
    p (global_cancelInt32 s) (global_oauth s) (sabs s) (posted s).
Definition set_globals (c o : option Z) (s : D) : D :=
  MkDispatcher (bindings s) (nextMessageId s) (cancelWatcher s) (cancelConn s) (cancelInt32 s)
    (prefetch s) c o (sabs s) (posted s).
Definition store_sab (sab v : Z) (s : D) : D :=
  MkDispatcher (bindings s) (nextMessageId s) (cancelWatcher s) (cancelConn s) (cancelInt32 s)
    (prefetch s) (global_cancelInt32 s) (global_oauth s) (<[sab := v]> (sabs s)) (posted s).
Definition add_post (n : Z) (p : Post) (s : D) : D :=
  MkDispatcher (bindings s) n (cancelWatcher s) (cancelConn s) (cancelInt32 s)
    (prefetch s) (global_cancelInt32 s) (global_oauth s) (sabs s) (posted s ++ [p]).
Definition set_nextMessageId (n : Z) (s : D) : D :=
  MkDispatcher (bindings s) n (cancelWatcher s) (cancelConn s) (cancelInt32 s)
    (prefetch s) (global_cancelInt32 s) (global_oauth s) (sabs s) (posted s).

(** [Atomics.load(int32, 0)] *)
Definition load_sab (sab : Z) (s : D) : Z := default 0 (sabs s !! sab).

(** A method of [this._bindings]; on [null] the access is a [TypeError]. *)
Definition TypeError (m : string) : JsError := MkError "TypeError" m None.
Definition call {A} (op : JS B A) : JS D A := fun s =>
  match bindings s with
  | None => (Thrown (TypeError "Cannot read properties of null"), s)
  | Some b => let '(o, b') := op b in (o, set_bindings (Some b') s)
  end.

(** How a method of the bindings settles in this state, if there are bindings. *)
Definition bindings_result {A} (op : JS B A) (s : D) : option (Outcome A) :=
  match bindings s with Some b => Some (op b).1 | None => None end.

(** *** Posting *)

Definition post (requestId : Z) (t : WorkerResponseType) (d : ResponseData)
    (transfer : list (list Z)) : JS D unit :=
  modify (fun s => add_post (nextMessageId s + 1)
    {| post_response := MkResponse (nextMessageId s) requestId t d; post_transfer := transfer |} s).

(** A response whose data is computed inside the message literal: the message
    id is taken before the data is evaluated, and lost if that throws. *)
Definition post_eval (requestId : Z) (t : WorkerResponseType) (m : JS D ResponseData) : JS D unit :=
  let! mid := gets nextMessageId in
  modify (fun s => set_nextMessageId (nextMessageId s + 1) s) ;;;
  let! d := m in
  modify (fun s => add_post (nextMessageId s)
    {| post_response := MkResponse mid requestId t d; post_transfer := [] |} s).

Definition log (entry : LogEntry) : JS D unit := post 0 LOG (D_log entry) [].

Definition sendOK (req : WorkerRequest) : JS D unit := post (messageId req) OK D_null [].

(** [stack: e.stack || undefined] *)
Definition failWith (req : WorkerRequest) (e : JsError) : JS D unit :=
  post (messageId req) ERROR
    (D_error (MkError (err_name e) (err_message e) (or_undefined (err_stack e)))) [].

(** *** The cancel watcher *)

Definition startCancelWatch (connId : Z) : JS D unit :=
  let! int32 := gets global_cancelInt32 in
  match int32 with
  | None => ret tt
  | Some i => modify (set_watch (Some i) (Some connId) (Some i))
  end.

Definition attemptCancel (int32 : Z) (conn : option Z) : JS D unit :=
  let! b := gets bindings in
  match conn, b with
  | Some c, Some _ =>
      try_catch (call (b_cancelPendingQuery c) ;;; modify (store_sab int32 0)) (fun _ => ret tt)
  | _, _ => ret tt
  end.

Definition stopCancelWatch : JS D unit := modify (set_watch None None None).

(** One tick of the interval started by [startCancelWatch]. *)
Definition watch_tick : JS D unit :=
  let! w := gets cancelWatcher in
  match w with
  | None => ret tt
  | Some int32 =>
      let! v := gets (load_sab int32) in
      if v =? 1 then let! c := gets cancelConn in attemptCancel int32 c else ret tt
  end.

(** *** The request handlers inside the [try] block

    The result is the await the handler is suspended at, if any. *)

Definition done_ (m : JS D unit) : JS D (option Await) := m ;;; ret None.

(** [getExtensionUrl] for each name; names that throw or resolve to [''] are skipped. *)
Definition extension_urls (names : list string) : JS D (list string) :=
  let! us := map_of names (fun name =>
    try_catch (let! url := call (b_getExtensionUrl name) in
               ret (if String.eqb url "" then [] else [url]))
              (fun _ => ret [])) in
  ret (concat us).

Definition handle_prefetch (req : WorkerRequest) (names : list string) : JS D (option Await) :=
  if hasXHR then
    let! urls := extension_urls names in
    let! work := zoom prefetch set_prefetch (fun p =>
                   let '(w, p') := prefetchExtensions urls p in (Normal w, p')) in
    ret (Some (AW_prefetchExtensions req work))
  else done_ (sendOK req).

Definition handle_reset (req : WorkerRequest) : JS D (option Await) :=
  done_ (stopCancelWatch ;;;
         modify (fun s => set_prefetch (clearPrefetchedExtensions (prefetch s)) s) ;;;
         call b_reset ;;;
         sendOK req).

Definition open_tail (req : WorkerRequest) (config : DuckDBConfig) : JS D (option Await) :=
  done_ (call (b_open config) ;;; sendOK req).

Definition handle_open (req : WorkerRequest) (config : DuckDBConfig) : JS D (option Await) :=
  stopCancelWatch ;;;
  match path config with
  | Some p =>
      if String.prefix "opfs://" p then ret (Some (AW_prepareDBFileHandle req p config))
      else open_tail req config
  | None => open_tail req config
  end.

Definition handle_disconnect (req : WorkerRequest) (conn : Z) : JS D (option Await) :=
  let! c := gets cancelConn in
  (if bool_decide (c = Some conn) then stopCancelWatch else ret tt) ;;;
  done_ (call (b_disconnect conn) ;;; sendOK req).

Definition opt_transfer (r : option (list Z)) : list (list Z) :=
  match r with Some b => [b] | None => [] end.

(** What START and POLL share: drive the query and answer with its header. *)
Definition pending_tail (req : WorkerRequest) (op : JS B (option (list Z))) : JS D (option Await) :=
  let! result := call op in
  (if result is Some _ then stopCancelWatch else ret tt) ;;;
  done_ (post (messageId req) QUERY_RESULT_HEADER_OR_NULL (D_opt_bytes result)
           (opt_transfer result)).

Definition handle_start (req : WorkerRequest) (connId : Z) (text : string) (allow : bool)
    : JS D (option Await) :=
  startCancelWatch connId ;;; pending_tail req (b_startPendingQuery connId text allow).

(** The synchronous check of the SAB at the top of POLL_PENDING_QUERY. *)
Definition poll_check (conn : Z) : JS D unit :=
  let! i := gets cancelInt32 in
  let! c := gets cancelConn in
  match i with
  | Some int32 =>
      let! v := gets (load_sab int32) in
      if bool_decide (c = Some conn) && (v =? 1) then attemptCancel int32 c else ret tt
  | None => ret tt
  end.

Definition handle_poll (req : WorkerRequest) (conn : Z) : JS D (option Await) :=
  poll_check conn ;;; pending_tail req (b_pollPendingQuery conn).

Definition handle_cancel (req : WorkerRequest) (conn : Z) : JS D (option Await) :=
  stopCancelWatch ;;;
  let! result := call (b_cancelPendingQuery conn) in
  done_ (post (messageId req) SUCCESS (D_bool result) []).

(** Handlers that call the bindings and answer with the result. *)
Definition answer {A} (req : WorkerRequest) (t : WorkerResponseType) (data : A -> ResponseData)
    (transfer : A -> list (list Z)) (op : JS B A) : JS D (option Await) :=
  let! r := call op in done_ (post (messageId req) t (data r) (transfer r)).
Definition no_transfer {A} (_ : A) : list (list Z) := [].
Definition answer_eval {A} (req : WorkerRequest) (t : WorkerResponseType)
    (data : A -> ResponseData) (op : JS B A) : JS D (option Await) :=
  done_ (post_eval (messageId req) t (let! r := call op in ret (data r))).
Definition answer_ok (req : WorkerRequest) (op : JS B unit) : JS D (option Await) :=
  done_ (call op ;;; sendOK req).

Definition handle (req : WorkerRequest) : JS D (option Await) :=
  match request req with
  | Rq_PREFETCH_EXTENSIONS names => handle_prefetch req names
  | Rq_GET_VERSION => answer_eval req VERSION_STRING D_string b_getVersion
  | Rq_GET_FEATURE_FLAGS => answer_eval req FEATURE_FLAGS D_number b_getFeatureFlags
  | Rq_RESET => handle_reset req
  | Rq_OPEN config => handle_open req config
  | Rq_DROP_FILE name => answer_ok req (b_dropFile name)
  | Rq_DROP_FILES names => answer_ok req (b_dropFiles names)
  | Rq_FLUSH_FILES => answer_ok req b_flushFiles
  | Rq_CONNECT => answer req CONNECTION_INFO D_number no_transfer b_connect
  | Rq_DISCONNECT conn => handle_disconnect req conn
  | Rq_CREATE_PREPARED conn text =>
      answer req PREPARED_STATEMENT_ID D_number no_transfer (b_createPrepared conn text)
  | Rq_CLOSE_PREPARED conn stmt => answer_ok req (b_closePrepared conn stmt)
  | Rq_RUN_PREPARED conn stmt params =>
      answer req QUERY_RESULT D_bytes (fun r => [r]) (b_runPrepared conn stmt params)
  | Rq_RUN_QUERY conn text => answer req QUERY_RESULT D_bytes (fun r => [r]) (b_runQuery conn text)
  | Rq_SEND_PREPARED conn stmt params =>
      answer req QUERY_RESULT_HEADER D_bytes (fun r => [r]) (b_sendPrepared conn stmt params)
  | Rq_START_PENDING_QUERY conn text allow => handle_start req conn text allow
  | Rq_POLL_PENDING_QUERY conn => handle_poll req conn
  | Rq_GET_INTERRUPT_HANDLE conn =>
      answer_eval req INTERRUPT_HANDLE D_opt_interrupt (b_getInterruptHandle conn)
  | Rq_CANCEL_PENDING_QUERY conn => handle_cancel req conn
  | Rq_FETCH_QUERY_RESULTS conn =>
      answer req QUERY_RESULT_CHUNK D_opt_bytes opt_transfer (b_fetchQueryResults conn)
  | Rq_GET_TABLE_NAMES conn text =>
      answer req TABLE_NAMES D_strings no_transfer (b_getTableNames conn text)
  | Rq_GLOB_FILE_INFOS p => answer req FILE_INFOS D_files no_transfer (b_globFiles p)
  | Rq_REGISTER_FILE_URL name url proto directIO =>
      answer_ok req (b_registerFileURL name url proto directIO)
  | Rq_REGISTER_FILE_BUFFER name buffer => answer_ok req (b_registerFileBuffer name buffer)
  | Rq_REGISTER_FILE_HANDLE _ _ _ _ => ret (Some (AW_registerFileHandle req))
  | Rq_COPY_FILE_TO_PATH name p => answer_ok req (b_copyFileToPath name p)
  | Rq_COPY_FILE_TO_BUFFER name =>
      answer req FILE_BUFFER D_bytes no_transfer (b_copyFileToBuffer name)
  | Rq_COLLECT_FILE_STATISTICS name enable =>
      answer_ok req (b_collectFileStatistics name enable)
  | Rq_REGISTER_OPFS_FILE_NAME _ => ret (Some (AW_registerOPFSFileName req))
  | Rq_EXPORT_FILE_STATISTICS name =>
      answer_eval req FILE_STATISTICS D_statistics (b_exportFileStatistics name)
  | Rq_INSERT_ARROW_FROM_IPC_STREAM conn buffer options =>
      answer_ok req (b_insertArrowFromIPCStream conn buffer options)
  | Rq_INSERT_CSV_FROM_PATH conn p options => answer_ok req (b_insertCSVFromPath conn p options)
  | Rq_INSERT_JSON_FROM_PATH conn p options => answer_ok req (b_insertJSONFromPath conn p options)
  | Rq_TOKENIZE text => answer req SCRIPT_TOKENS D_tokens no_transfer (b_tokenize text)
  | Rq_PING | Rq_INSTANTIATE _ _ _ => ret None
  end.

(** The [catch] block: disarm the watcher if the failing request armed it, and
    report the error. *)
Definition on_error (req : WorkerRequest) (e : JsError) : JS D (option Await) :=
  let! c := gets cancelConn in
  (match c, request req with
   | Some conn, Rq_START_PENDING_QUERY conn' _ _
   | Some conn, Rq_POLL_PENDING_QUERY conn' =>
       if conn' =? conn then stopCancelWatch else ret tt
   | _, _ => ret tt
   end) ;;;
  done_ (failWith req e).

Definition handle_caught (req : WorkerRequest) : JS D (option Await) :=
  try_catch (handle req) (on_error req).

(** *** [onMessage] up to its first await *)

Definition onMessage (req : WorkerRequest) : JS D (option Await) :=
  match request req with
  | Rq_PING => done_ (sendOK req)
  | Rq_INSTANTIATE _ _ _ =>
      let! b := gets bindings in
      (match b with
       | Some _ => failWith req (Error "duckdb already initialized")
       | None => ret tt
       end) ;;;
      ret (Some (AW_instantiate req))
  | _ =>
      let! b := gets bindings in
      match b with
      | None => done_ (failWith req (Error "duckdb is not initialized"))
      | Some _ =>
          let! running := gets (fun s => prefetchesRunning (prefetch s)) in
          match request req, running with
          | Rq_PREFETCH_EXTENSIONS _, _ | _, false => handle_caught req
          | _, true => ret (Some (AW_waitForPrefetches req))
          end
      end
  end.

(** A progress report of a running instantiation; older clients do not say
    whether they want them, and get them. *)
Definition forward_progress (req : WorkerRequest) (p : InstantiationProgress) : JS D unit :=
  match request req with
  | Rq_INSTANTIATE _ _ (Some false) => ret tt
  | Rq_INSTANTIATE _ _ _ => post (messageId req) INSTANTIATE_PROGRESS (D_instantiation p) []
  | _ => ret tt
  end.

(** *** The code after an await

    [outcome] is how the promise of [instantiate] settled; the other awaited
    promises are those of the bindings' async methods, whose effect is theirs. *)
Definition resume (a : Await) (outcome : Outcome B) : JS D (option Await) :=
  match a with
  | AW_instantiate req =>
      match outcome with
      | Normal b => done_ (modify (set_bindings (Some b)) ;;; sendOK req)
      | Thrown e => done_ (modify (set_bindings None) ;;; failWith req e)
      end
  | AW_waitForPrefetches req => handle_caught req
  | AW_prefetchExtensions req _ => try_catch (done_ (sendOK req)) (on_error req)
  | AW_prepareDBFileHandle req p config =>
      try_catch (call (b_prepareDBFileHandle p BROWSER_FSACCESS) ;;;
                 open_tail req (set_useDirectIO true config)) (on_error req)
  | AW_registerFileHandle req =>
      try_catch
        (match request req with
         | Rq_REGISTER_FILE_HANDLE name handle proto directIO =>
             done_ (call (b_registerFileHandleAsync name handle proto directIO) ;;; sendOK req)
         | _ => ret None
         end) (on_error req)
  | AW_registerOPFSFileName req =>
      try_catch
        (match request req with
         | Rq_REGISTER_OPFS_FILE_NAME name =>
             done_ (call (b_registerOPFSFileName name) ;;; sendOK req)
         | _ => ret None
         end) (on_error req)
  end.

(** When the promise awaited at [a] may settle: the prefetches awaited are over. *)
Definition may_resume (a : Await) (s : D) : Prop :=
  match a with
  | AW_waitForPrefetches _ => prefetchesRunning (prefetch s) = false
  | AW_prefetchExtensions _ work => Forall (fun id => tasks (prefetch s) !! id = None) work
  | _ => True
  end.

(** *** Messages that configure the worker before the protocol ([worker_globals.ts]) *)

Inductive PreInit := init_oauth_sab (sab : Z) | init_cancel_sab (sab : Z) | other_message.

(** The result is whether the message was consumed. *)
Definition handlePreInitMessage (m : PreInit) : JS D bool :=
  match m with
  | init_oauth_sab sab =>
      modify (fun s => set_globals (global_cancelInt32 s) (Some sab) s) ;;; ret true
  | init_cancel_sab sab =>
      modify (fun s => set_globals (Some sab) (global_oauth s) s) ;;; ret true
  | other_message => ret false
  end.
End Dispatcher.

(** ** The worker as a step relation

    The state is the dispatcher with the handlers that are suspended. *)

Record Worker (B : Type) := MkWorker { disp : Dispatcher B; suspended : list Await }.
Arguments MkWorker {B}. Arguments disp {B}. Arguments suspended {B}.

Definition opt_list {A} (o : option A) : list A := match o with Some a => [a] | None => [] end.

Definition outcome_await (o : Outcome (option Await)) : list Await :=
  match o with Normal a => opt_list a | Thrown _ => [] end.

(** A step is labelled with the request the worker receives at it, if any. *)
Inductive worker_step {B} `{DuckDBBindings B} (hasXHR : bool)
    : option WorkerRequest -> Worker B -> Worker B -> Prop :=
| ws_message req s l o s' :
    onMessage hasXHR req s = (o, s') ->
    worker_step hasXHR (Some req) (MkWorker s l) (MkWorker s' (l ++ outcome_await o))
| ws_resume a outcome s l1 l2 o s' :
    may_resume a s -> resume hasXHR a outcome s = (o, s') ->
    worker_step hasXHR None (MkWorker s (l1 ++ a :: l2)) (MkWorker s' (l1 ++ l2 ++ outcome_await o))
| ws_progress req p s l :
    AW_instantiate req ∈ l ->
    worker_step hasXHR None (MkWorker s l) (MkWorker (forward_progress req p s).2 l)
| ws_tick s l : worker_step hasXHR None (MkWorker s l) (MkWorker (watch_tick s).2 l)
| ws_preinit m s l : worker_step hasXHR None (MkWorker s l) (MkWorker (handlePreInitMessage m s).2 l)
| ws_log e s l : worker_step hasXHR None (MkWorker s l) (MkWorker (log e s).2 l)
| ws_main_thread_store sab v s l :
    worker_step hasXHR None (MkWorker s l) (MkWorker (store_sab sab v s) l)
| ws_prefetch p s l :
    prefetch_step (prefetch s) p ->
    worker_step hasXHR None (MkWorker s l) (MkWorker (set_prefetch p s) l).

Definition initial_dispatcher {B} : Dispatcher B :=
  MkDispatcher None 0 None None None initial_prefetch None None ∅ [].
Definition initial_worker {B} : Worker B := MkWorker initial_dispatcher [].

(** The ids a received request is answered under: once each, except that an
    INSTANTIATE that reaches an initialised worker is refused and carried out. *)
Definition owed {B} (req : WorkerRequest) (s : Dispatcher B) : list Z :=
  match request req, bindings s with
  | Rq_INSTANTIATE _ _ _, Some _ => [messageId req; messageId req]
  | _, _ => [messageId req]
  end.

Definition owed_at {B} (lbl : option WorkerRequest) (w : Worker B) : list Z :=
  match lbl with Some req => owed req (disp w) | None => [] end.

(** [worker_run ids w]: [w] is reached after receiving requests that are owed
    the answers [ids]. *)
Inductive worker_run {B} `{DuckDBBindings B} (hasXHR : bool) : list Z -> Worker B -> Prop :=
| run_initial : worker_run hasXHR [] initial_worker
| run_step ids lbl w w' :
    worker_run hasXHR ids w -> worker_step hasXHR lbl w w' ->
    worker_run hasXHR (ids ++ owed_at lbl w) w'.

(** ** The response a request is answered with *)

Definition answer_type (r : RequestData) : WorkerResponseType :=
  match r with
  | Rq_GET_VERSION => VERSION_STRING
  | Rq_GET_FEATURE_FLAGS => FEATURE_FLAGS
  | Rq_CONNECT => CONNECTION_INFO
  | Rq_CREATE_PREPARED _ _ => PREPARED_STATEMENT_ID
  | Rq_RUN_PREPARED _ _ _ | Rq_RUN_QUERY _ _ => QUERY_RESULT
  | Rq_SEND_PREPARED _ _ _ => QUERY_RESULT_HEADER
  | Rq_START_PENDING_QUERY _ _ _ | Rq_POLL_PENDING_QUERY _ => QUERY_RESULT_HEADER_OR_NULL
  | Rq_GET_INTERRUPT_HANDLE _ => INTERRUPT_HANDLE
  | Rq_CANCEL_PENDING_QUERY _ => SUCCESS
  | Rq_FETCH_QUERY_RESULTS _ => QUERY_RESULT_CHUNK
  | Rq_GET_TABLE_NAMES _ _ => TABLE_NAMES
  | Rq_GLOB_FILE_INFOS _ => FILE_INFOS
  | Rq_COPY_FILE_TO_BUFFER _ => FILE_BUFFER
  | Rq_EXPORT_FILE_STATISTICS _ => FILE_STATISTICS
  | Rq_TOKENIZE _ => SCRIPT_TOKENS
  | _ => OK
  end.

Definition await_request (a : Await) : WorkerRequest :=
  match a with
  | AW_instantiate r | AW_waitForPrefetches r | AW_prefetchExtensions r _
  | AW_prepareDBFileHandle r _ _ | AW_registerFileHandle r | AW_registerOPFSFileName r => r
  end.

(** The requests handled before the [try] block. *)
Definition preliminary (r : RequestData) : bool :=
  match r with Rq_PING | Rq_INSTANTIATE _ _ _ => true | _ => false end.

(** A suspended handler belongs to a request that suspends there. *)
Definition await_wf (a : Await) : Prop :=
  match a, request (await_request a) with
  | AW_instantiate _, Rq_INSTANTIATE _ _ _ => True
  | AW_waitForPrefetches _, r => preliminary r = false
  | AW_prefetchExtensions _ _, Rq_PREFETCH_EXTENSIONS _ => True
  | AW_prepareDBFileHandle _ _ _, Rq_OPEN _ => True
  | AW_registerFileHandle _, Rq_REGISTER_FILE_HANDLE _ _ _ _ => True
  | AW_registerOPFSFileName _, Rq_REGISTER_OPFS_FILE_NAME _ => True
  | _, _ => False
  end.

(** The one response that ends a request. *)
Definition terminal (req : WorkerRequest) (p : Post) : Prop :=
  let r := post_response p in
  resp_requestId r = messageId req /\
  (resp_type r = answer_type (request req) \/ resp_type r = ERROR) /\
  response_well_typed (resp_type r) (resp_data r) = true.

(** [s'] has posted the messages [ps] since [s], under fresh ids. *)
Definition posts {B} (ps : list Post) (s s' : Dispatcher B) : Prop :=
  posted s' = posted s ++ ps /\ nextMessageId s <= nextMessageId s' /\
  Forall (fun p => nextMessageId s <= resp_messageId (post_response p) < nextMessageId s') ps.

(** A part of the handler of [req]: it either suspends without posting, or ends
    after posting exactly one terminal response. *)
Definition answered {B} (req : WorkerRequest) (s : Dispatcher B)
    (r : Outcome (option Await) * Dispatcher B) : Prop :=
  match r.1 with
  | Normal (Some a) => posts [] s r.2 /\ await_request a = req /\ await_wf a
  | Normal None => exists p, posts [p] s r.2 /\ terminal req p
  | Thrown _ => False
  end.

Section Lemmas.
Context {B : Type} `{DuckDBBindings B} (hasXHR : bool).
Abbreviation D := (Dispatcher B).

(** *** Computations that post nothing *)

Definition quiet {A} (m : JS D A) : Prop :=
  forall s, posted (m s).2 = posted s /\ nextMessageId (m s).2 = nextMessageId s.

Lemma quiet_ret {A} (a : A) : quiet (ret a).
Proof. by split. Qed.
Lemma quiet_gets {A} (f : D -> A) : quiet (gets f).
Proof. by split. Qed.
Lemma quiet_watch w c i : quiet (modify (set_watch w c i)).
Proof. by split. Qed.
Lemma quiet_store a v : quiet (modify (store_sab a v)).
Proof. by split. Qed.
Lemma quiet_prefetch f : quiet (modify (fun s => set_prefetch (f (prefetch s)) s)).
Proof. by split. Qed.
Lemma quiet_call {A} (op : JS B A) : quiet (call op).
Proof. intros s. unfold call. destruct (bindings s) as [b|]; [|done]. by destruct (op b). Qed.
Lemma quiet_zoom {A} (m : JS PrefetchState A) : quiet (zoom prefetch set_prefetch m).
Proof. intros s. unfold zoom. by destruct (m (prefetch s)). Qed.
Lemma quiet_bind {A C} (m : JS D A) (k : A -> JS D C) :
  quiet m -> (forall a, quiet (k a)) -> quiet (bind m k).
Proof.
  intros Hm Hk s. specialize (Hm s). unfold bind. destruct (m s) as [[a|e] s']; [|done].
  specialize (Hk a s'). cbn in *. intuition congruence.
Qed.
Lemma quiet_try_catch {A} (m : JS D A) h :
  quiet m -> (forall e, quiet (h e)) -> quiet (try_catch m h).
Proof.
  intros Hm Hh s. specialize (Hm s). unfold try_catch. destruct (m s) as [[a|e] s']; [done|].
  specialize (Hh e s'). cbn in *. intuition congruence.
Qed.
Lemma quiet_if {A} (b : bool) (m1 m2 : JS D A) : quiet m1 -> quiet m2 -> quiet (if b then m1 else m2).
Proof. by destruct b. Qed.
Lemma quiet_opt {A C} (o : option C) (m1 m2 : JS D A) :
  quiet m1 -> quiet m2 -> quiet (if o is Some _ then m1 else m2).
Proof. by destruct o. Qed.
Lemma quiet_map_of {A C} (l : list A) (f : A -> JS D C) :
  (forall a, quiet (f a)) -> quiet (map_of l f).
Proof.
  intros Hf. induction l as [|x l IH]; cbn; [apply quiet_ret|].
  apply quiet_bind; [done|]. intros y. apply quiet_bind; [done|]. intros; apply quiet_ret.
Qed.

Create HintDb quiet.
Hint Resolve quiet_ret quiet_gets quiet_watch quiet_store quiet_prefetch quiet_call quiet_zoom
  quiet_bind quiet_try_catch quiet_if quiet_opt quiet_map_of : quiet.

Lemma quiet_stop : quiet stopCancelWatch.
Proof. apply quiet_watch. Qed.
Lemma quiet_start c : quiet (startCancelWatch c).
Proof. apply quiet_bind; [auto with quiet|]. intros [i|]; auto with quiet. Qed.
Lemma quiet_attempt i c : quiet (attemptCancel i c).
Proof.
  apply quiet_bind; [auto with quiet|]. intros [b|]; destruct c; auto with quiet.
Qed.
Lemma quiet_poll_check c : quiet (poll_check c).
Proof.
  apply quiet_bind; [auto with quiet|]. intros [i|]; auto with quiet.
  apply quiet_bind; [auto with quiet|]. intros c'. apply quiet_bind; [auto with quiet|].
  intros v. apply quiet_if; [apply quiet_attempt|auto with quiet].
Qed.
Lemma quiet_urls names : quiet (extension_urls names).
Proof. unfold extension_urls. auto 10 with quiet. Qed.

Hint Resolve quiet_stop quiet_start quiet_attempt quiet_poll_check quiet_urls : quiet.

Lemma quiet_posts {A} (m : JS D A) s : quiet m -> posts [] s (m s).2.
Proof. intros Hq. destruct (Hq s) as [H1 H2]. split; [by rewrite H1, app_nil_r|]. split; [lia|done]. Qed.

Lemma posts_trans (ps qs : list Post) (s1 s2 s3 : D) :
  posts ps s1 s2 -> posts qs s2 s3 -> posts (ps ++ qs) s1 s3.
Proof.
  intros (H1 & H2 & H3) (G1 & G2 & G3). split; [by rewrite G1, H1, app_assoc|].
  split; [lia|]. apply Forall_app. split; eapply Forall_impl; try eassumption; cbn; lia.
Qed.

Lemma posts_post m t d tr (s : D) :
  posts [{| post_response := MkResponse (nextMessageId s) m t d; post_transfer := tr |}] s
    (post (B := B) m t d tr s).2.
Proof. split; [done|]. cbn. split; [lia|]. repeat constructor; cbn; lia. Qed.

(** *** Parts of a handler

    [responds req m]: [m] is a part of the handler of [req] inside the [try]
    block; a throw of it has posted nothing. *)

Definition responds (req : WorkerRequest) (m : JS D (option Await)) : Prop :=
  forall s, match (m s).1 with
            | Thrown _ => posts [] s (m s).2
            | Normal _ => answered req s (m s)
            end.

Lemma answered_after req (s s' : D) r :
  posts [] s s' -> answered req s' r -> answered req s r.
Proof.
  intros Hp. unfold answered. destruct r as [[[a|]|e] s'']; cbn; [| |done].
  - intros (H1 & H2 & H3). split; [|done]. by eapply (posts_trans [] []).
  - intros (p & H1 & H2). exists p. split; [|done]. by eapply (posts_trans []).
Qed.

Lemma responds_quiet {A} req (m : JS D A) k :
  quiet m -> (forall a, responds req (k a)) -> responds req (bind m k).
Proof.
  intros Hm Hk s. pose proof (quiet_posts m s Hm) as Hp. unfold bind.
  destruct (m s) as [[a|e] s']; [|done]. specialize (Hk a s').
  destruct (k a s') as [[w|e] s''] eqn:E; cbn in *.
  - by apply (answered_after req s s' (Normal w, s'')).
  - by eapply (posts_trans [] []).
Qed.

Lemma answered_post req t d tr (s : D) :
  (t = answer_type (request req) \/ t = ERROR) -> response_well_typed t d = true ->
  answered req s (done_ (post (messageId req) t d tr) s).
Proof. intros Ht Hd. eexists. split; [apply posts_post|]. done. Qed.

Lemma responds_post req t d tr :
  (t = answer_type (request req) \/ t = ERROR) -> response_well_typed t d = true ->
  responds req (done_ (post (messageId req) t d tr)).
Proof. intros Ht Hd s. by apply answered_post. Qed.

Lemma responds_ok req : answer_type (request req) = OK -> responds req (done_ (sendOK req)).
Proof. intros Ht. apply responds_post; [by left|done]. Qed.

Lemma responds_post_eval {A} req t (data : A -> ResponseData) op :
  t = answer_type (request req) -> (forall a, response_well_typed t (data a) = true) ->
  responds req (answer_eval req t data op).
Proof.
  intros Ht Hd s. unfold answer_eval, done_, post_eval, call, bind, gets, modify, ret. cbn.
  destruct (bindings s) as [b|]; cbn; [|split; [by rewrite app_nil_r|split; [cbn; lia|done]]].
  destruct (op b) as [[a|e] b']; cbn; [|split; [by rewrite app_nil_r|split; [cbn; lia|done]]].
  eexists. split; [split; [done|]; cbn; split; [lia|]; repeat constructor; cbn; lia|].
  repeat split; [by left|]. apply Hd.
Qed.

Lemma responds_await req a :
  await_request a = req -> await_wf a -> responds req (ret (Some a)).
Proof. intros Ha Hw s. cbn. split; [|done]. apply (quiet_posts (ret tt)). apply quiet_ret. Qed.

Lemma responds_answer {A} req t (data : A -> ResponseData) tr op :
  t = answer_type (request req) -> (forall a, response_well_typed t (data a) = true) ->
  responds req (answer req t data tr op).
Proof.
  intros Ht Hd. apply responds_quiet; [apply quiet_call|]. intros a.
  apply responds_post; [by left|apply Hd].
Qed.

(** A quiet computation followed by an OK. *)
Lemma responds_seq_ok {A} req (m : JS D A) :
  quiet m -> answer_type (request req) = OK ->
  responds req (done_ (m ;;; sendOK req)).
Proof.
  intros Hm Ht s. unfold done_. rewrite bind_assoc.
  by apply (responds_quiet req m (fun _ => done_ (sendOK req)) Hm (fun _ => responds_ok req Ht)).
Qed.

Lemma responds_answer_ok req op :
  answer_type (request req) = OK -> responds req (answer_ok req op).
Proof. intros Ht. apply responds_seq_ok; [apply quiet_call|done]. Qed.

Lemma opt_bytes_typed o :
  response_well_typed QUERY_RESULT_HEADER_OR_NULL (D_opt_bytes o) = true.
Proof. by destruct o. Qed.

Lemma open_tail_responds req config :
  answer_type (request req) = OK -> responds req (open_tail req config).
Proof. intros Ht. apply responds_seq_ok; [apply quiet_call|done]. Qed.

Lemma pending_tail_responds req op :
  answer_type (request req) = QUERY_RESULT_HEADER_OR_NULL -> responds req (pending_tail req op).
Proof.
  intros Ht. apply responds_quiet; [auto with quiet|]. intros r.
  apply responds_quiet; [auto with quiet|]. intros [].
  apply responds_post; [by left|apply opt_bytes_typed].
Qed.

Lemma handle_open_responds req config :
  request req = Rq_OPEN config -> responds req (handle_open req config).
Proof.
  intros Hr. assert (answer_type (request req) = OK) as Ht by by rewrite Hr.
  apply responds_quiet; [auto with quiet|]. intros [].
  destruct (path config) as [p|]; [|by apply open_tail_responds].
  destruct (String.prefix "opfs://" p); [|by apply open_tail_responds].
  apply responds_await; [done|]. unfold await_wf. cbn. by rewrite Hr.
Qed.

Lemma handle_prefetch_responds req names :
  request req = Rq_PREFETCH_EXTENSIONS names -> responds req (handle_prefetch hasXHR req names).
Proof.
  intros Hr. unfold handle_prefetch. destruct hasXHR.
  - apply responds_quiet; [auto with quiet|]. intros urls.
    apply responds_quiet; [apply quiet_zoom|]. intros work.
    apply responds_await; [done|]. unfold await_wf. cbn. by rewrite Hr.
  - apply responds_ok. by rewrite Hr.
Qed.

Lemma handle_reset_responds req : request req = Rq_RESET -> responds req (handle_reset req).
Proof.
  intros Hr s. assert (answer_type (request req) = OK) as Ht by by rewrite Hr.
  pose proof (responds_seq_ok req
    (stopCancelWatch ;;; modify (fun s => set_prefetch (clearPrefetchedExtensions (prefetch s)) s) ;;;
     call b_reset) ltac:(auto with quiet) Ht s) as H1.
  unfold handle_reset, done_ in *. unfold bind, stopCancelWatch, modify in *. cbn in *.
  by destruct (call b_reset _) as [[[]|e] s'].
Qed.

Lemma handle_responds req : preliminary (request req) = false -> responds req (handle hasXHR req).
Proof.
  intros Hpre. unfold handle. destruct (request req) eqn:Hr; try discriminate Hpre;
    try (first [ apply responds_answer_ok; by rewrite Hr
               | apply responds_answer; [by rewrite Hr|done]
               | apply responds_post_eval; [by rewrite Hr|done] ]).
  - apply responds_quiet; [auto with quiet|]. intros []. apply responds_quiet; [auto with quiet|].
    intros b. apply responds_post; [left; by rewrite Hr|done].
  - apply responds_post_eval; [by rewrite Hr|]. by intros [].
  - apply responds_await; [done|]. unfold await_wf. cbn. by rewrite Hr.
  - apply responds_quiet; [auto with quiet|]. intros c.
    apply responds_quiet; [auto with quiet|]. intros []. apply responds_seq_ok; [auto with quiet|].
    by rewrite Hr.
  - apply responds_answer; [by rewrite Hr|]. by intros [].
  - by apply handle_open_responds.
  - by apply handle_prefetch_responds.
  - apply responds_quiet; [auto with quiet|]. intros []. apply pending_tail_responds. by rewrite Hr.
  - apply responds_await; [done|]. unfold await_wf. cbn. by rewrite Hr.
  - by apply handle_reset_responds.
  - apply responds_quiet; [auto with quiet|]. intros []. apply pending_tail_responds. by rewrite Hr.
Qed.

(** *** The whole of [onMessage] *)

Lemma on_error_answered req e (s : D) : answered req s (on_error req e s).
Proof.
  unfold on_error. set (m := fun c : option Z => _).
  assert (responds req (bind (gets cancelConn) m)) as Hr.
  { apply responds_quiet; [apply quiet_gets|]. intros c. subst m. cbn. apply responds_quiet.
    - destruct c as [c|]; [|apply quiet_ret].
      destruct (request req); try apply quiet_ret; apply quiet_if; auto with quiet.
    - intros []. apply responds_post; [by right|done]. }
  specialize (Hr s). unfold m in *. destruct (bind _ _ s) as [[a|e'] s'] eqn:E; [done|].
  exfalso. clear Hr. revert E. unfold bind, gets, done_, failWith, post, modify, ret, stopCancelWatch. cbn.
  destruct (cancelConn s) as [c|]; [|done].
  destruct (request req); try done; by destruct (_ =? c).
Qed.

Lemma caught_answered req m (s : D) :
  responds req m -> answered req s (try_catch m (on_error req) s).
Proof.
  intros Hm. specialize (Hm s). unfold try_catch.
  destruct (m s) as [[a|e] s']; cbn in Hm; [done|].
  eapply answered_after; [done|]. apply on_error_answered.
Qed.

Lemma onMessage_answered req (s : D) :
  preliminary (request req) = false -> answered req s (onMessage hasXHR req s).
Proof.
  intros Hpre. unfold onMessage, bind, gets.
  assert (answered req s (handle_caught hasXHR req s)) as Hh
    by (apply caught_answered; by apply handle_responds).
  assert (answered req s (ret (Some (AW_waitForPrefetches req)) s)) as Hw.
  { split; [apply (quiet_posts (ret tt)), quiet_ret|]. split; [done|].
    unfold await_wf. cbn. by destruct (request req). }
  assert (answered req s (done_ (failWith req (Error "duckdb is not initialized")) s)) as Hn
    by (apply answered_post; [by right|done]).
  destruct (request req); try discriminate Hpre;
    (destruct (bindings s); [|exact Hn]);
    destruct (prefetchesRunning (prefetch s)); (exact Hh || exact Hw).
Qed.

Lemma resume_responds_tail req (m : JS D unit) (s : D) :
  quiet m -> answer_type (request req) = OK ->
  answered req s (try_catch (done_ (m ;;; sendOK req)) (on_error req) s).
Proof. intros Hm Ht. apply caught_answered. by apply responds_seq_ok. Qed.

Lemma resume_answered a outcome (s : D) :
  await_wf a -> answered (await_request a) s (resume hasXHR a outcome s).
Proof.
  intros Hwf. destruct a as [req|req|req work|req p config|req|req];
    unfold await_wf in Hwf; cbn [await_request resume] in *.
  - assert (answer_type (request req) = OK) as Ht by by destruct (request req).
    destruct outcome as [b|e]; eexists; (split; [split; [cbn; reflexivity|]|]).
    + split; [cbn; lia|]. repeat constructor; cbn; lia.
    + repeat split. by left.
    + split; [cbn; lia|]. repeat constructor; cbn; lia.
    + repeat split. by right.
  - apply caught_answered. apply handle_responds. by destruct (request req).
  - apply caught_answered. apply responds_ok. by destruct (request req).
  - apply caught_answered. apply responds_quiet; [apply quiet_call|]. intros [].
    apply open_tail_responds. by destruct (request req).
  - apply caught_answered. destruct (request req) eqn:Hr; try done.
    apply responds_seq_ok; [apply quiet_call|by rewrite Hr].
  - apply caught_answered. destruct (request req) eqn:Hr; try done.
    apply responds_seq_ok; [apply quiet_call|by rewrite Hr].
Qed.
End Lemmas.

(** ** Runs of the worker *)

(** The response types that end a request. *)
Definition ends_request (t : WorkerResponseType) : bool :=
  match t with LOG | PROGRESS_UPDATE | INSTANTIATE_PROGRESS => false | _ => true end.

Definition post_ends (p : Post) : bool := ends_request (resp_type (post_response p)).

(** The request ids of the terminal responses among [ps]. *)
Definition answered_ids (ps : list Post) : list Z :=
  map (fun p => resp_requestId (post_response p)) (List.filter post_ends ps).

Definition suspended_ids (l : list Await) : list Z :=
  map (fun a => messageId (await_request a)) l.

Definition post_well_typed (p : Post) : bool :=
  response_well_typed (resp_type (post_response p)) (resp_data (post_response p)).

Section Runs.
Context {B : Type} `{DuckDBBindings B} (hasXHR : bool).
Abbreviation D := (Dispatcher B).

Lemma answer_type_ends r : ends_request (answer_type r) = true.
Proof. by destruct r. Qed.

Lemma answered_ids_app ps qs : answered_ids (ps ++ qs) = answered_ids ps ++ answered_ids qs.
Proof. unfold answered_ids. by rewrite List.filter_app, map_app. Qed.

Lemma terminal_ids req p : terminal req p -> answered_ids [p] = [messageId req].
Proof.
  intros (H1 & H2 & _). unfold answered_ids, post_ends. cbn.
  assert (ends_request (resp_type (post_response p)) = true) as ->
    by (destruct H2 as [-> | ->]; [apply answer_type_ends|done]).
  cbn. by rewrite H1.
Qed.

(** What one uninterrupted part of a handler does to the pool of owed answers. *)
Record part_ok (ids : list Z) (s s' : D) (o : Outcome (option Await)) : Prop := {
  part_posts : exists ps, posts ps s s' /\ (length ps <= 1)%nat /\ forallb post_well_typed ps = true /\
    answered_ids ps ++ suspended_ids (outcome_await o) = ids;
  part_wf : Forall await_wf (outcome_await o)
}.

Lemma answered_part req (s : D) r :
  answered req s r -> part_ok [messageId req] s r.2 r.1.
Proof.
  unfold answered. destruct r as [[[a|]|e] s']; cbn; [| |done].
  - intros (Hp & Ha & Hw). split; cbn; [|by constructor]. exists []. rewrite Ha. auto.
  - intros (p & Hp & Ht). split; cbn; [|constructor]. exists [p]. rewrite app_nil_r.
    split; [done|]. split; [cbn; lia|]. split; [|by apply terminal_ids].
    destruct Ht as (_ & _ & Hd). cbn. unfold post_well_typed. by rewrite Hd.
Qed.

Lemma onMessage_part req (s : D) :
  part_ok (owed req s) s (onMessage hasXHR req s).2 (onMessage hasXHR req s).1.
Proof.
  destruct (preliminary (request req)) eqn:Hpre.
  - unfold onMessage, owed, bind, gets. destruct (request req) eqn:Hr; try discriminate Hpre.
    + destruct (bindings s) as [b|]; cbn.
      * split; cbn; [|constructor; [by cbn; rewrite Hr|constructor]].
        eexists. split; [split; [reflexivity|]; cbn; split; [lia|]; repeat constructor; cbn; lia|].
        split; [cbn; lia|done].
      * split; cbn; [|constructor; [by cbn; rewrite Hr|constructor]].
        exists []. split; [apply (quiet_posts (ret tt)), quiet_ret|]. split; [cbn; lia|done].
    + split; cbn; [|constructor]. eexists. split; [apply (posts_post (messageId req) OK D_null [])|].
      split; [cbn; lia|done].
  - assert (owed req s = [messageId req]) as -> by (unfold owed; by destruct (request req)).
    apply answered_part. by apply onMessage_answered.
Qed.

(** *** What the handlers do to the watch *)

Section Watch.
(** [I] depends on the watch only, holds when it is off, and when it is armed for a
    connection of [may_arm]. *)
Context (I : D -> Prop) (may_arm : Z -> Prop).
Context (I_same : forall s s', cancelWatcher s' = cancelWatcher s -> cancelConn s' = cancelConn s ->
  cancelInt32 s' = cancelInt32 s -> I s -> I s').
Context (I_off : forall s, I (set_watch None None None s)).
Context (I_on : forall s i c, may_arm c -> I (set_watch (Some i) (Some c) (Some i) s)).

Lemma watch_call {A} (op : JS B A) : preserves I (call op).
Proof. intros s Hs. unfold call. destruct (bindings s) as [b|]; [|done]. destruct (op b); by eapply I_same, Hs. Qed.
Lemma watch_stop : preserves I (@stopCancelWatch B).
Proof. intros s _. apply I_off. Qed.
Lemma watch_post m t d tr : preserves I (@post B m t d tr).
Proof. intros s Hs. by eapply I_same, Hs. Qed.
Lemma watch_modify f :
  (forall s, cancelWatcher (f s) = cancelWatcher s /\ cancelConn (f s) = cancelConn s /\
             cancelInt32 (f s) = cancelInt32 s) -> preserves I (modify f).
Proof. intros Hf s Hs. destruct (Hf s) as (E1 & E2 & E3). by eapply I_same, Hs. Qed.
Lemma watch_zoom {A} (m : JS PrefetchState A) : preserves I (zoom prefetch set_prefetch m).
Proof. intros s Hs. unfold zoom. destruct (m (prefetch s)). by eapply I_same, Hs. Qed.
Lemma watch_opt {A C} (o : option C) (k : C -> JS D A) m :
  (forall c, preserves I (k c)) -> preserves I m ->
  preserves I (match o with Some c => k c | None => m end).
Proof. by destruct o. Qed.
Lemma watch_start c : may_arm c -> preserves I (@startCancelWatch B c).
Proof.
  intros Hc. apply preserves_bind; [apply preserves_gets|]. intros [i|]; [|apply preserves_ret]. intros s _. by apply I_on.
Qed.

Create HintDb watch.
Hint Resolve preserves_ret preserves_throw preserves_gets preserves_if preserves_bind
  preserves_try_catch preserves_map_of watch_call watch_stop watch_start watch_post
  watch_zoom watch_opt : watch.
Hint Extern 3 (preserves I (modify _)) => (apply watch_modify; by intros []) : watch.
Hint Extern 2 (preserves I (match ?x with _ => _ end)) => (destruct x) : watch.
Hint Unfold done_ sendOK failWith log post_eval open_tail answer answer_eval answer_ok : watch.

Lemma watch_attempt i c : preserves I (@attemptCancel B _ i c).
Proof. unfold attemptCancel. auto 10 with watch. Qed.
Hint Resolve watch_attempt : watch.
Lemma watch_poll_check c : preserves I (@poll_check B _ c).
Proof. unfold poll_check. auto 12 with watch. Qed.
Hint Resolve watch_poll_check : watch.

(** The connection a request arms the watch for. *)
Definition arms (req : WorkerRequest) (c : Z) : Prop := exists text allow, request req = Rq_START_PENDING_QUERY c text allow.

Lemma watch_handle req : (forall c, arms req c -> may_arm c) -> preserves I (@handle B _ hasXHR req).
Proof.
  unfold arms. intros Ha. unfold handle. destruct (request req); autounfold with watch;
    unfold handle_prefetch, extension_urls, handle_reset, handle_open, handle_disconnect,
      handle_start, handle_poll, handle_cancel, pending_tail; autounfold with watch; eauto 20 with watch.
Qed.

Lemma watch_on_error req e : preserves I (@on_error B req e).
Proof.
  unfold on_error. autounfold with watch. apply preserves_bind; [apply preserves_gets|].
  intros c. apply preserves_bind; [|auto 10 with watch].
  destruct c; [|auto with watch]. destruct (request req); auto with watch.
Qed.
Hint Resolve watch_handle watch_on_error : watch.

Lemma watch_onMessage req : (forall c, arms req c -> may_arm c) -> preserves I (@onMessage B _ hasXHR req).
Proof.
  intros Ha. unfold onMessage, handle_caught.
  assert (preserves I (try_catch (handle hasXHR req) (on_error req))) by auto with watch.
  destruct (request req); autounfold with watch; auto 20 with watch.
Qed.

Lemma watch_resume a outcome : (forall req c, a = AW_waitForPrefetches req -> arms req c -> may_arm c) ->
  preserves I (@resume B _ hasXHR a outcome).
Proof.
  intros Ha. unfold resume, handle_caught. destruct a; autounfold with watch; eauto 20 with watch.
Qed.

Lemma watch_tick_keeps : preserves I (@watch_tick B _).
Proof. unfold watch_tick. auto 10 with watch. Qed.
End Watch.

(** A step changes the watch as its message or the code after its await does. *)
Lemma watch_step (I : D -> Prop) (may_arm : Z -> Prop) lbl (w w' : Worker B) :
  (forall s s', cancelWatcher s' = cancelWatcher s -> cancelConn s' = cancelConn s -> cancelInt32 s' = cancelInt32 s -> I s -> I s') ->
  (forall s, I (set_watch None None None s)) ->
  (forall s i c, may_arm c -> I (set_watch (Some i) (Some c) (Some i) s)) ->
  (forall req c, lbl = Some req \/ AW_waitForPrefetches req ∈ suspended w -> arms req c -> may_arm c) ->
  worker_step hasXHR lbl w w' -> I (disp w) -> I (disp w').
Proof.
  intros Hsame Hoff Hon Harm Hs Hw.
  destruct Hs as [req s l o s' E|a out s l1 l2 o s' _ E|req p s l _|s l|m s l|e s l|sab v s l|p s l _]; cbn in *.
  - generalize (watch_onMessage I may_arm Hsame Hoff Hon req ltac:(eauto) s Hw). by rewrite E.
  - generalize (watch_resume I may_arm Hsame Hoff Hon a out ltac:(intros req c ->; apply Harm; right; set_solver) s Hw). by rewrite E.
  - eapply Hsame, Hw; unfold forward_progress; destruct (request req); try done; by destruct progress as [[|]|].
  - by apply (watch_tick_keeps I Hsame).
  - by eapply Hsame, Hw; destruct m.
  - by eapply Hsame, Hw.
  - by eapply Hsame, Hw.
  - by eapply Hsame, Hw.
Qed.

(** *** The watch state stays coherent *)

Definition watch_ok (s : D) : Prop :=
  cancelWatcher s = cancelInt32 s /\ (is_Some (cancelConn s) <-> is_Some (cancelInt32 s)).

Lemma watch_ok_step lbl w w' : worker_step hasXHR lbl w w' -> watch_ok (disp w) -> watch_ok (disp w').
Proof.
  apply (watch_step watch_ok (fun _ => True)); [|by split; [|split; intros [? ?]]|done|done].
  intros s s' E1 E2 E3 [H1 H2]. unfold watch_ok. by rewrite E1, E2, E3.
Qed.

(** *** The invariant of a run *)

Record run_ok (ids : list Z) (w : Worker B) : Prop := {
  run_answers : answered_ids (posted (disp w)) ++ suspended_ids (suspended w) ≡ₚ ids;
  run_awaits : Forall await_wf (suspended w);
  run_typed : forallb post_well_typed (posted (disp w)) = true;
  run_fresh : Forall (fun p => resp_messageId (post_response p) < nextMessageId (disp w))
                (posted (disp w));
  run_sorted : StronglySorted Z.lt (map (fun p => resp_messageId (post_response p))
                (posted (disp w)));
  run_watch : watch_ok (disp w)
}.

Lemma sorted_app (l1 l2 : list Z) b :
  StronglySorted Z.lt l1 -> StronglySorted Z.lt l2 ->
  Forall (fun x => x < b) l1 -> Forall (fun x => b <= x) l2 -> StronglySorted Z.lt (l1 ++ l2).
Proof.
  intros H1 H2 F1 F2. induction H1 as [|x l1 H1 IH Hx]; cbn; [done|].
  apply Forall_cons in F1 as [Fx F1]. constructor; [by apply IH|].
  apply Forall_app. split; [done|]. eapply Forall_impl; [exact F2|]. cbn. lia.
Qed.

(** Posting at most one fresh message keeps the ids increasing. *)
Lemma posts_run ids w s' l' ps :
  run_ok ids w -> posts ps (disp w) s' -> (length ps <= 1)%nat ->
  forallb post_well_typed ps = true -> watch_ok s' -> Forall await_wf l' ->
  forall ids', answered_ids (posted (disp w)) ++ answered_ids ps ++ suspended_ids l' ≡ₚ ids' ->
  run_ok ids' (MkWorker s' l').
Proof.
  intros [R1 R2 R3 R4 R5 R6] (P1 & P2 & P3) Hlen Ht Hw Hl ids' Hids. split; cbn; [| done | | | | done].
  - by rewrite P1, answered_ids_app, <- app_assoc.
  - by rewrite P1, forallb_app, R3, Ht.
  - rewrite P1. apply Forall_app. split; (eapply Forall_impl; [eassumption|]); cbn; lia.
  - rewrite P1, map_app. apply (sorted_app _ _ (nextMessageId (disp w))); [done| | |].
    + destruct ps as [|p [|q ps]]; cbn in *; [constructor|repeat constructor|lia].
    + by apply Forall_map.
    + apply Forall_map. eapply Forall_impl; [exact P3|]. cbn. lia.
Qed.

Lemma watch_tick_quiet : quiet (@watch_tick B _).
Proof.
  unfold watch_tick. apply quiet_bind; [apply quiet_gets|]. intros [i|]; [|apply quiet_ret].
  apply quiet_bind; [apply quiet_gets|]. intros v. apply quiet_if; [|apply quiet_ret].
  apply quiet_bind; [apply quiet_gets|]. intros c. apply quiet_attempt.
Qed.

Lemma forward_progress_posts req p (s : D) :
  exists ps, posts ps s (forward_progress req p s).2 /\ (length ps <= 1)%nat /\
    forallb post_well_typed ps = true /\ answered_ids ps = [].
Proof.
  assert (posts [] s s) as Hn by apply (quiet_posts (ret tt)), quiet_ret.
  unfold forward_progress. destruct (request req); try (exists []; cbn; auto 10; fail).
  destruct progress as [[|]|]; try (exists []; cbn; auto 10; fail);
    (eexists; split; [apply posts_post|]; cbn; auto).
Qed.

Lemma run_ok_step ids lbl w w' :
  run_ok ids w -> worker_step hasXHR lbl w w' -> run_ok (ids ++ owed_at lbl w) w'.
Proof.
  intros R Hs. pose proof (watch_ok_step _ _ _ Hs (run_watch _ _ R)) as Hw.
  pose proof (run_answers _ _ R) as Ha. pose proof (run_awaits _ _ R) as Hf.
  assert (forall s, posts [] (disp w) s -> w' = MkWorker s (suspended w) -> lbl = None ->
          run_ok (ids ++ owed_at lbl w) w') as Hquiet.
  { intros s Hp -> ->. rewrite app_nil_r. eapply posts_run; eauto; try (cbn; lia). }
  destruct Hs as [req s l o s' E|a out s l1 l2 o s' Hm E|req p s l Hin|s l|m s l|e s l|sab v s l|p s l Hp];
    cbn [disp suspended owed_at] in *.
  - pose proof (onMessage_part req s) as [(ps & P1 & P2 & P3 & P4) P5]. rewrite E in *. cbn in *.
    eapply posts_run; eauto; [by apply Forall_app|]. cbn. unfold suspended_ids in *.
    rewrite map_app, <- P4, <- Ha. rewrite <- !app_assoc.
    solve_Permutation.
  - apply Forall_app in Hf as [Hf1 Hf2]. apply Forall_cons in Hf2 as [Hfa Hf2].
    pose proof (answered_part _ _ _ (resume_answered hasXHR a out s Hfa)) as [(ps & P1 & P2 & P3 & P4) P5].
    rewrite E in *. cbn in *. rewrite app_nil_r.
    eapply posts_run; eauto; [by repeat apply Forall_app_2|]. cbn. unfold suspended_ids in *.
    rewrite !map_app in *. cbn in *. rewrite <- Ha.
    transitivity (answered_ids (posted s) ++ map (fun a => messageId (await_request a)) l1 ++
      map (fun a => messageId (await_request a)) l2 ++ [messageId (await_request a)]);
      [rewrite <- P4|]; solve_Permutation.
  - destruct (forward_progress_posts req p s) as (ps & P1 & P2 & P3 & P4). rewrite app_nil_r.
    eapply posts_run; eauto. cbn. by rewrite P4.
  - eapply Hquiet; eauto. apply (quiet_posts watch_tick), watch_tick_quiet.
  - eapply Hquiet; eauto. apply (quiet_posts (handlePreInitMessage m)). by destruct m.
  - rewrite app_nil_r. by eapply posts_run; eauto; [apply posts_post|..]; cbn; rewrite ?Ha.
  - eapply Hquiet; eauto. by apply (quiet_posts (modify (store_sab sab v))).
  - eapply Hquiet; eauto. by apply (quiet_posts (modify (set_prefetch p))).
Qed.

Lemma run_invariant ids w : worker_run hasXHR ids w -> run_ok ids w.
Proof.
  induction 1 as [|ids lbl w w' _ IH Hs]; [|by apply run_ok_step].
  split; cbn; repeat constructor; by intros [? ?].
Qed.
End Runs.

(** ** Properties *)

Section Properties.
Context {B : Type} `{DuckDBBindings B} (hasXHR : bool).

Lemma attemptCancel_spec i conn (s : Dispatcher B) b :
  bindings s = Some b ->
  attemptCancel i (Some conn) s =
    (Normal tt,
     match b_cancelPendingQuery conn b with
     | (Normal _, b') => store_sab i 0 (set_bindings (Some b') s)
     | (Thrown _, b') => set_bindings (Some b') s
     end).
Proof.
  intros Hb. unfold attemptCancel, bind, gets, try_catch, call, modify, ret. rewrite Hb. cbn. rewrite Hb.
  destruct (b_cancelPendingQuery conn b) as [[r|e] b']; reflexivity.
Qed.

(** After the [catch] block the watch is not on the connection of a failed
    START or POLL request. *)
Lemma on_error_disarms req conn e (s : Dispatcher B) :
  (exists t a, request req = Rq_START_PENDING_QUERY conn t a) \/
    request req = Rq_POLL_PENDING_QUERY conn ->
  cancelConn (on_error req e s).2 <> Some conn.
Proof.
  intros Hr. unfold on_error, bind, gets, done_, failWith, post, modify, ret, stopCancelWatch. cbn.
  destruct (cancelConn s) as [c|] eqn:Hc; cbn.
  - destruct Hr as [(t & a & ->) | ->]; destruct (Z.eqb_spec conn c); cbn; congruence.
  - rewrite Hc. done.
Qed.

Lemma pending_tail_disarms req conn op (s : Dispatcher B) :
  (exists t a, request req = Rq_START_PENDING_QUERY conn t a) \/
    request req = Rq_POLL_PENDING_QUERY conn ->
  bindings_result op s <> Some (Normal None) ->
  cancelConn (try_catch (pending_tail req op) (on_error req) s).2 <> Some conn.
Proof.
  intros Hr Hb. unfold pending_tail, call, bindings_result, try_catch, bind in *.
  destruct (bindings s) as [b|]; [|by apply on_error_disarms].
  destruct (op b) as [[[r|]|e] b']; cbn [fst] in *; [done|done|].
  exact (on_error_disarms req conn e (set_bindings (Some b') s) Hr).
Qed.

Lemma pending_tail_keeps req op (s : Dispatcher B) :
  bindings_result op s = Some (Normal None) ->
  cancelConn (try_catch (pending_tail req op) (on_error req) s).2 = cancelConn s /\
  cancelInt32 (try_catch (pending_tail req op) (on_error req) s).2 = cancelInt32 s.
Proof.
  intros Hb. unfold pending_tail, call, bindings_result, try_catch, bind in *.
  destruct (bindings s) as [b|]; [|done]. by destruct (op b) as [[[r|]|e] b']; cbn in *.
Qed.

(** A prefix that cannot throw stays outside of the [catch]. *)
Lemma try_catch_then {A} (m : JS (Dispatcher B) unit) (k : JS (Dispatcher B) A) h s :
  no_throw m -> try_catch (m ;;; k) h s = try_catch k h (m s).2.
Proof.
  intros Hm. specialize (Hm s). unfold try_catch, bind. by destruct (m s) as [[[]|e] s'].
Qed.

Lemma startCancelWatch_total c : no_throw (@startCancelWatch B c).
Proof. intros s. unfold startCancelWatch, bind, gets. by destruct (global_cancelInt32 s). Qed.

Lemma poll_check_total c : no_throw (poll_check (B := B) c).
Proof.
  intros s. unfold poll_check, attemptCancel, bind, gets, try_catch, ret. cbn.
  destruct (cancelInt32 s) as [i|]; [|done]. destruct (_ && _); [|done].
  destruct (cancelConn s); [|done]. destruct (bindings s) eqn:Hb; [|done].
  unfold call, modify. rewrite Hb. by destruct (b_cancelPendingQuery z b) as [[r|e] b'].
Qed.

Lemma poll_check_watch c (s : Dispatcher B) :
  cancelConn (poll_check c s).2 = cancelConn s /\ cancelInt32 (poll_check c s).2 = cancelInt32 s.
Proof.
  unfold poll_check, attemptCancel, bind, gets, try_catch, ret. cbn.
  destruct (cancelInt32 s) as [i|] eqn:Hi; [|done]. destruct (_ && _); [|done].
  destruct (cancelConn s) eqn:Hc; [|done]. destruct (bindings s) eqn:Hb; [|done].
  unfold call, modify. rewrite Hb. by destruct (b_cancelPendingQuery z b) as [[r|e] b'].
Qed.

Lemma startCancelWatch_bindings c (s : Dispatcher B) :
  bindings (startCancelWatch c s).2 = bindings s.
Proof. unfold startCancelWatch, bind, gets. by destruct (global_cancelInt32 s). Qed.

(** What runs after [stopCancelWatch] and does not arm the watch keeps it off. *)
Definition unwatched {A} (m : JS (Dispatcher B) A) : Prop :=
  preserves (fun s => cancelConn s = None) m.

Lemma unwatched_call {A} (op : JS B A) : unwatched (call op).
Proof. intros s Hs. unfold call. destruct (bindings s); [|done]. by destruct (op b). Qed.

Lemma unwatched_on_error req e : unwatched (on_error (B := B) req e).
Proof. intros s Hs. unfold on_error, bind, gets. by rewrite Hs. Qed.

Lemma unwatched_seq_ok req (op : JS B unit) : unwatched (done_ (bind (call op) (fun _ => sendOK req))).
Proof. repeat apply preserves_bind; intros; try apply unwatched_call; by intros s. Qed.

Lemma try_catch_assoc {A C E} (m : JS (Dispatcher B) A) (k1 : A -> JS (Dispatcher B) C)
    (k2 : C -> JS (Dispatcher B) E) h s :
  try_catch (bind (bind m k1) k2) h s = try_catch (bind m (fun a => bind (k1 a) k2)) h s.
Proof. unfold try_catch. by rewrite bind_assoc. Qed.

Lemma disconnect_disarms req conn (s : Dispatcher B) :
  cancelConn (try_catch (handle_disconnect req conn) (on_error req) s).2 <> Some conn.
Proof.
  set (off := fun s : Dispatcher B => cancelConn s <> Some conn).
  assert (preserves off (try_catch (done_ (call (b_disconnect conn) ;;; sendOK req)) (on_error req))) as Hk.
  { assert (forall C (op : JS B C), preserves off (call op)) as Hcall.
    { intros C op s' Hs. unfold call. destruct (bindings s'); [|done]. by destruct (op b). }
    apply preserves_try_catch.
    - repeat apply preserves_bind; intros; try apply Hcall; by intros s'.
    - intros e s' Hs. unfold on_error, bind, gets, off in *. cbn.
      destruct (cancelConn s') as [c|] eqn:Hc; [|cbn; by rewrite Hc].
      destruct (request req); cbn; try (rewrite Hc; done); destruct (_ =? c); cbn; by rewrite ?Hc. }
  unfold handle_disconnect, try_catch, bind, gets in *.
  case_bool_decide as Hc; [apply (Hk (set_watch None None None s))|apply (Hk s)]; done.
Qed.

Lemma stop_unwatches {A} (k : JS (Dispatcher B) A) h (s : Dispatcher B) :
  unwatched k -> (forall e, unwatched (h e)) ->
  cancelConn (try_catch (stopCancelWatch ;;; k) h s).2 = None.
Proof.
  intros Hk Hh. rewrite try_catch_then by done.
  by apply preserves_try_catch.
Qed.
End Properties.

Definition is_instantiate (r : RequestData) : bool := match r with Rq_INSTANTIATE _ _ _ => true | _ => false end.

(** [worker_serves reqs w]: [w] is reached after receiving the requests [reqs], in order,
    each with whether the worker was initialised then. *)
Inductive worker_serves {B} `{DuckDBBindings B} (hasXHR : bool) : list (WorkerRequest * bool) -> Worker B -> Prop :=
| serves_initial : worker_serves hasXHR [] initial_worker
| serves_step reqs lbl w w' :
    worker_serves hasXHR reqs w -> worker_step hasXHR lbl w w' ->
    worker_serves hasXHR (reqs ++ opt_list ((fun req => (req, bool_decide (is_Some (bindings (disp w))))) <$> lbl)) w'.

(** An INSTANTIATE that reaches an initialised worker. *)
Definition instantiates_again (p : WorkerRequest * bool) : bool := is_instantiate (request p.1) && p.2.
Definition ids_of (reqs : list (WorkerRequest * bool)) : list Z := (fun p => messageId p.1) <$> reqs.
Definition again (reqs : list (WorkerRequest * bool)) : list (WorkerRequest * bool) := filter (fun p => instantiates_again p = true) reqs.

Lemma again_nil reqs : Forall (fun p => instantiates_again p = false) reqs -> again reqs = [].
Proof. unfold again. induction 1 as [|p l Hp _ IH]; [done|]. by rewrite filter_cons, decide_False by congruence. Qed.

Lemma serves_run {B} `{DuckDBBindings B} hasXHR reqs (w : Worker B) :
  worker_serves hasXHR reqs w -> exists ids, worker_run hasXHR ids w /\ ids ≡ₚ ids_of reqs ++ ids_of (again reqs).
Proof.
  unfold ids_of, again. induction 1 as [|reqs lbl w w' _ (ids & Hr & Hp) Hs]; [by exists []; split; [constructor|]|].
  exists (ids ++ owed_at lbl w). split; [by econstructor|]. rewrite Hp, filter_app, !fmap_app.
  destruct lbl as [req|]; cbn; [|by rewrite !app_nil_r].
  assert (owed req (disp w) = messageId req :: ((fun p => messageId p.1) <$>
    filter (fun p => instantiates_again p = true) [(req, bool_decide (is_Some (bindings (disp w))))])) as ->; [|solve_Permutation].
  unfold owed, instantiates_again. rewrite filter_cons, filter_nil. cbn.
  destruct (request req); try done. by destruct (bindings (disp w)).
Qed.

(** C3: In every run of the worker, through any interleaving of suspended handlers, timer
    ticks and progress reports, every request it received is answered by one terminal
    response or suspended, except that an INSTANTIATE which reaches an initialised worker
    is answered twice, and every response posted carries the payload type its response
    type promises.  So a request of another kind whose id no other request has is never
    answered twice nor forgotten. *)
Theorem every_request_is_answered {B} `{DuckDBBindings B} hasXHR reqs (w : Worker B) :
  worker_serves hasXHR reqs w ->
  answered_ids (posted (disp w)) ++ suspended_ids (suspended w) ≡ₚ ids_of reqs ++ ids_of (again reqs) /\
  (Forall (fun p => instantiates_again p = false) reqs ->
   answered_ids (posted (disp w)) ++ suspended_ids (suspended w) ≡ₚ ids_of reqs) /\
  forallb post_well_typed (posted (disp w)) = true.
Proof.
  intros (ids & Hr & Hp)%serves_run. destruct (run_invariant hasXHR ids w Hr) as [Ha _ Ht _ _ _]. rewrite Hp in Ha.
  split; [done|]. split; [|done]. intros Hno. by rewrite Ha, again_nil, app_nil_r.
Qed.

(** No two messages of a worker carry the same message id: the ids of the
    messages posted increase strictly, also when a handler takes an id and then
    throws before posting. *)
Theorem response_ids_never_repeat {B} `{DuckDBBindings B} hasXHR ids (w : Worker B) :
  worker_run hasXHR ids w ->
  StronglySorted Z.lt (map (fun p => resp_messageId (post_response p)) (posted (disp w))) /\
  Forall (fun p => resp_messageId (post_response p) < nextMessageId (disp w)) (posted (disp w)).
Proof. intros Hr%run_invariant. split; apply Hr. Qed.

(** The cancel flag of the shared buffer reaches the engine: a POLL of the
    watched connection that finds the flag at 1 calls [cancelPendingQuery] for
    it, lowers the flag when the call succeeds and keeps it for the next poll
    when the call throws, which the requester never sees; a POLL of another
    connection leaves the flag and the engine alone. *)
Theorem cancel_flag_reaches_the_watched_query {B} `{DuckDBBindings B} (s : Dispatcher B) b conn i :
  bindings s = Some b -> cancelConn s = Some conn -> cancelInt32 s = Some i ->
  load_sab i s = 1 ->
  (poll_check conn s).1 = Normal tt /\
  bindings (poll_check conn s).2 = Some (b_cancelPendingQuery conn b).2 /\
  load_sab i (poll_check conn s).2 =
    (if is_normal (b_cancelPendingQuery conn b).1 then 0 else 1) /\
  (forall other, other <> conn -> poll_check other s = (Normal tt, s)).
Proof.
  intros Hb Hc Hi Hv. assert (forall c, poll_check c s =
    if bool_decide (conn = c) then attemptCancel i (Some conn) s else (Normal tt, s)) as E.
  { intros c. unfold poll_check, bind, gets, ret. rewrite Hi, Hc, Hv.
    case_bool_decide as H1; case_bool_decide as H2; cbn; done || congruence. }
  assert (forall other, other <> conn -> poll_check other s = (Normal tt, s)) as Ho.
  { intros c Hne. rewrite E. case_bool_decide; congruence. }
  rewrite E, bool_decide_eq_true_2, (attemptCancel_spec _ _ _ b) by done. cbn.
  destruct (b_cancelPendingQuery conn b) as [[r|e] b']; cbn; (split; [done|]); split; try done.
  split; [|done]. unfold load_sab. cbn. by rewrite lookup_insert_eq.
Qed.

Definition watching (b : Recording.State) : Dispatcher Recording.State :=
  set_watch (Some 7) (Some 1) (Some 7) (store_sab 7 1 (set_bindings (Some b) initial_dispatcher)).

Lemma cancel_flag_reaches_the_watched_query_witness :
  (poll_check (H := Recording.bindings) 1 (watching Recording.idle)).1 = Normal tt /\
  bindings (poll_check (H := Recording.bindings) 1 (watching Recording.idle)).2 =
    Some (Recording.cancel 1 Recording.idle).2 /\
  load_sab 7 (poll_check (H := Recording.bindings) 1 (watching Recording.idle)).2 = 0 /\
  (forall other, other <> 1 ->
     poll_check (H := Recording.bindings) other (watching Recording.idle) =
       (Normal tt, watching Recording.idle)).
Proof.
  apply (cancel_flag_reaches_the_watched_query (H := Recording.bindings)
           (watching Recording.idle) Recording.idle 1 7); vm_compute; reflexivity.
Defined.

(** What the handlers do to the watch of connection [conn]: a START or POLL that ends its
    query, with a result or with an error, leaves the watch off it; so do a CANCEL, a
    DISCONNECT, a RESET and an OPEN, also when the bindings throw; a POLL whose query is
    still running changes neither the watched connection nor the buffer watched. *)
Lemma handlers_end_the_watch {B} `{DuckDBBindings B} hasXHR (s : Dispatcher B) id conn :
  (forall text allow,
     bindings_result (b_startPendingQuery conn text allow) s <> Some (Normal None) ->
     cancelConn (handle_caught hasXHR (Build_WorkerRequest id (Rq_START_PENDING_QUERY conn text allow)) s).2
       <> Some conn) /\
  (bindings_result (b_pollPendingQuery conn) (poll_check conn s).2 <> Some (Normal None) ->
     cancelConn (handle_caught hasXHR (Build_WorkerRequest id (Rq_POLL_PENDING_QUERY conn)) s).2 <> Some conn) /\
  (bindings_result (b_pollPendingQuery conn) (poll_check conn s).2 = Some (Normal None) ->
     let s' := (handle_caught hasXHR (Build_WorkerRequest id (Rq_POLL_PENDING_QUERY conn)) s).2 in
     cancelConn s' = cancelConn s /\ cancelInt32 s' = cancelInt32 s) /\
  cancelConn (handle_caught hasXHR (Build_WorkerRequest id (Rq_DISCONNECT conn)) s).2 <> Some conn /\
  (forall r, (r = Rq_CANCEL_PENDING_QUERY conn \/ r = Rq_RESET \/ exists c, r = Rq_OPEN c) ->
     cancelConn (handle_caught hasXHR (Build_WorkerRequest id r) s).2 = None).
Proof.
  unfold handle_caught, handle. cbn [request].
  split; [|split; [|split; [|split]]].
  - intros text allow Hr. unfold handle_start. rewrite try_catch_then by apply startCancelWatch_total.
    apply pending_tail_disarms; [left; cbn; eauto|].
    unfold bindings_result. by rewrite startCancelWatch_bindings.
  - intros Hr. unfold handle_poll. rewrite try_catch_then by apply poll_check_total. apply pending_tail_disarms; [by right|done].
  - intros Hr. unfold handle_poll. rewrite try_catch_then by apply poll_check_total.
    destruct (pending_tail_keeps (Build_WorkerRequest id (Rq_POLL_PENDING_QUERY conn)) _ _ Hr) as [-> ->].
    apply poll_check_watch.
  - apply disconnect_disarms.
  - intros r Hr. destruct Hr as [-> | [-> | [c ->]]].
    + apply stop_unwatches; [|intros; apply unwatched_on_error].
      apply preserves_bind; [apply unwatched_call|]. by intros a s'.
    + unfold handle_reset, done_. rewrite try_catch_assoc. apply stop_unwatches; [|intros; apply unwatched_on_error].
      repeat (apply preserves_bind; intros); try apply unwatched_call; intros s' Hs; exact Hs.
    + apply stop_unwatches; [|intros; apply unwatched_on_error].
      destruct (path c) as [p|]; [destruct (String.prefix "opfs://" p)|];
        (apply preserves_ret || apply unwatched_seq_ok).
Qed.

(** A result of any connection stops the watch. *)
Lemma results_stop_the_watch {B} `{DuckDBBindings B} hasXHR (s : Dispatcher B) id conn r :
  bindings_result (b_pollPendingQuery conn) (poll_check conn s).2 = Some (Normal (Some r)) ->
  cancelConn (handle_caught hasXHR (Build_WorkerRequest id (Rq_POLL_PENDING_QUERY conn)) s).2 = None.
Proof.
  intros Hr. unfold handle_caught, handle, handle_poll. cbn [request]. rewrite try_catch_then by apply poll_check_total.
  unfold pending_tail, call, bindings_result, try_catch, bind in *. destruct (bindings _) as [b|]; [|done].
  by destruct (b_pollPendingQuery conn b) as [[[r'|]|e] b'].
Qed.


(** A watch that is armed while an OPEN awaits the file's handle stays on when the database
    is opened. *)
Lemma opening_leaves_a_rearmed_watch :
  cancelConn (resume (H := Recording.bindings) true
    (AW_prepareDBFileHandle (Build_WorkerRequest 5 (Rq_OPEN empty_config)) "opfs://a" empty_config)
    (Normal Recording.idle) (watching Recording.idle)).2 = Some 1.
Proof. vm_compute. reflexivity. Qed.


(** C40: Errors before the [try] block: a request other than PING and INSTANTIATE
    that reaches a worker without bindings is answered with exactly one ERROR and
    touches nothing else; and an INSTANTIATE that reaches an initialised worker is
    refused with an ERROR and carried out all the same, its promise replacing the
    live bindings and answering the request a second time. *)
Theorem initialisation_errors {B} `{DuckDBBindings B} hasXHR (s : Dispatcher B) req :
  (bindings s = None -> preliminary (request req) = false ->
   onMessage hasXHR req s = (Normal None,
     add_post (nextMessageId s + 1)
       {| post_response := MkResponse (nextMessageId s) (messageId req) ERROR
            (D_error (MkError "Error" "duckdb is not initialized" None));
          post_transfer := [] |} s)) /\
  (forall mainModule pthreadWorker progress b b',
   bindings s = Some b -> request req = Rq_INSTANTIATE mainModule pthreadWorker progress ->
   exists s',
     onMessage hasXHR req s = (Normal (Some (AW_instantiate req)), s') /\
     bindings (resume hasXHR (AW_instantiate req) (Normal b') s').2 = Some b' /\
     map (fun p => (resp_requestId (post_response p), resp_type (post_response p)))
       (posted (resume hasXHR (AW_instantiate req) (Normal b') s').2) =
     map (fun p => (resp_requestId (post_response p), resp_type (post_response p))) (posted s) ++
       [(messageId req, ERROR); (messageId req, OK)]).
Proof.
  split.
  - intros Hb Hpre. unfold onMessage, bind, gets.
    destruct (request req); try discriminate Hpre; by rewrite Hb.
  - intros mm pw pr b b' Hb Hr. unfold onMessage, bind, gets. rewrite Hr. cbn. rewrite Hb. cbn.
    eexists. split; [reflexivity|]. cbn. split; [done|].
    by rewrite !map_app, <- app_assoc.
Qed.

Lemma initialisation_errors_witness :
  exists s',
    onMessage (H := Recording.bindings) true (Build_WorkerRequest 9 (Rq_INSTANTIATE "m" None None))
      (watching Recording.idle) =
      (Normal (Some (AW_instantiate (Build_WorkerRequest 9 (Rq_INSTANTIATE "m" None None)))), s') /\
    bindings (resume (H := Recording.bindings) true
      (AW_instantiate (Build_WorkerRequest 9 (Rq_INSTANTIATE "m" None None)))
      (Normal Recording.idle) s').2 = Some Recording.idle /\
    map (fun p => (resp_requestId (post_response p), resp_type (post_response p)))
      (posted (resume (H := Recording.bindings) true
        (AW_instantiate (Build_WorkerRequest 9 (Rq_INSTANTIATE "m" None None)))
        (Normal Recording.idle) s').2) = [(9, ERROR); (9, OK)].
Proof.
  exact (proj2 (initialisation_errors (H := Recording.bindings) true (watching Recording.idle)
    (Build_WorkerRequest 9 (Rq_INSTANTIATE "m" None None))) "m" None None Recording.idle
    Recording.idle eq_refl eq_refl).
Defined.

(** A run in which two requests overlap: the second waits for the prefetch. *)
Definition sample_requests : list WorkerRequest :=
  [Build_WorkerRequest 0 (Rq_INSTANTIATE "m" None None); Build_WorkerRequest 1 Rq_PING].

Lemma sample_run :
  worker_run (H := Recording.bindings) true [0; 1]
    (MkWorker (onMessage (H := Recording.bindings) true (Build_WorkerRequest 1 Rq_PING)
                 (initial_dispatcher (B := Recording.State))).2
       [AW_instantiate (Build_WorkerRequest 0 (Rq_INSTANTIATE "m" None None))]).
Proof.
  change [0; 1] with (([] ++ [0]) ++ [1]).
  apply (run_step (H := Recording.bindings) true [0]
    (Some (Build_WorkerRequest 1 Rq_PING))
    (MkWorker initial_dispatcher [AW_instantiate (Build_WorkerRequest 0 (Rq_INSTANTIATE "m" None None))])).
  - apply (run_step (H := Recording.bindings) true []
      (Some (Build_WorkerRequest 0 (Rq_INSTANTIATE "m" None None))) initial_worker); [constructor|].
    by apply (ws_message (H := Recording.bindings) true (Build_WorkerRequest 0 (Rq_INSTANTIATE "m" None None))
      initial_dispatcher [] (Normal (Some (AW_instantiate (Build_WorkerRequest 0 (Rq_INSTANTIATE "m" None None)))))).
  - by apply (ws_message (H := Recording.bindings) true (Build_WorkerRequest 1 Rq_PING) initial_dispatcher
      [AW_instantiate (Build_WorkerRequest 0 (Rq_INSTANTIATE "m" None None))] (Normal None)).
Qed.

Lemma sample_serves :
  worker_serves (H := Recording.bindings) true
    [(Build_WorkerRequest 0 (Rq_INSTANTIATE "m" None None), false); (Build_WorkerRequest 1 Rq_PING, false)]
    (MkWorker (onMessage (H := Recording.bindings) true (Build_WorkerRequest 1 Rq_PING)
                 (initial_dispatcher (B := Recording.State))).2
       [AW_instantiate (Build_WorkerRequest 0 (Rq_INSTANTIATE "m" None None))]).
Proof.
  apply (serves_step (H := Recording.bindings) true [(Build_WorkerRequest 0 (Rq_INSTANTIATE "m" None None), false)]
    (Some (Build_WorkerRequest 1 Rq_PING))
    (MkWorker initial_dispatcher [AW_instantiate (Build_WorkerRequest 0 (Rq_INSTANTIATE "m" None None))])).
  - apply (serves_step (H := Recording.bindings) true []
      (Some (Build_WorkerRequest 0 (Rq_INSTANTIATE "m" None None))) initial_worker); [constructor|].
    by apply (ws_message (H := Recording.bindings) true (Build_WorkerRequest 0 (Rq_INSTANTIATE "m" None None))
      initial_dispatcher [] (Normal (Some (AW_instantiate (Build_WorkerRequest 0 (Rq_INSTANTIATE "m" None None)))))).
  - by apply (ws_message (H := Recording.bindings) true (Build_WorkerRequest 1 Rq_PING) initial_dispatcher
      [AW_instantiate (Build_WorkerRequest 0 (Rq_INSTANTIATE "m" None None))] (Normal None)).
Qed.

Lemma every_request_is_answered_witness : [1] ++ [0] ≡ₚ [0; 1] /\ true = true.
Proof. destruct (every_request_is_answered _ _ _ sample_serves) as [H1 [_ H3]]. split; [exact H1|exact H3]. Defined.

Lemma response_ids_never_repeat_witness : StronglySorted Z.lt [0] /\ Forall (fun p => resp_messageId (post_response p) < 1)
  [{| post_response := MkResponse 0 1 OK D_null; post_transfer := [] |}].
Proof. exact (response_ids_never_repeat _ _ _ sample_run). Defined.
