(* ===== verification/WorkerBindings.v ===== *)
(** * WorkerBindings: what the bindings preserve, the worker preserves

    The dispatcher reaches the bindings only through their interface, so an
    invariant of the interface's operations is an invariant of every run of the
    worker: of the handlers, of their awaits, and of the cancel watch. *)
From S2P Require Import Prelude Data Protocol Prefetch BindingsInterface Dispatcher.
From stdpp Require Import base tactics list gmap strings.
From Stdlib Require Import ZArith.

(** Every operation of the interface keeps [I], whether it throws or not. *)
Record respects {B} `{DuckDBBindings B} (I : B -> Prop) : Prop := {
  r_open c : preserves I (b_open c);
  r_reset : preserves I b_reset;
  r_version : preserves I b_getVersion;
  r_url n : preserves I (b_getExtensionUrl n);
  r_flags : preserves I b_getFeatureFlags;
  r_tokenize t : preserves I (b_tokenize t);
  r_connect : preserves I b_connect;
  r_disconnect c : preserves I (b_disconnect c);
  r_run c t : preserves I (b_runQuery c t);
  r_start c t a : preserves I (b_startPendingQuery c t a);
  r_poll c : preserves I (b_pollPendingQuery c);
  r_cancel c : preserves I (b_cancelPendingQuery c);
  r_interrupt c : preserves I (b_getInterruptHandle c);
  r_fetch c : preserves I (b_fetchQueryResults c);
  r_tables c t : preserves I (b_getTableNames c t);
  r_create c t : preserves I (b_createPrepared c t);
  r_close c s : preserves I (b_closePrepared c s);
  r_runPrepared c s p : preserves I (b_runPrepared c s p);
  r_sendPrepared c s p : preserves I (b_sendPrepared c s p);
  r_arrow c b o : preserves I (b_insertArrowFromIPCStream c b o);
  r_csv c p o : preserves I (b_insertCSVFromPath c p o);
  r_json c p o : preserves I (b_insertJSONFromPath c p o);
  r_fileURL n u p d : preserves I (b_registerFileURL n u p d);
  r_fileBuffer n b : preserves I (b_registerFileBuffer n b);
  r_fileHandle n h p d : preserves I (b_registerFileHandleAsync n h p d);
  r_prepare n p : preserves I (b_prepareDBFileHandle n p);
  r_glob p : preserves I (b_globFiles p);
  r_drop n : preserves I (b_dropFile n);
  r_drops n : preserves I (b_dropFiles n);
  r_flush : preserves I b_flushFiles;
  r_copyPath n p : preserves I (b_copyFileToPath n p);
  r_copyBuffer n : preserves I (b_copyFileToBuffer n);
  r_opfs n : preserves I (b_registerOPFSFileName n);
  r_collect n e : preserves I (b_collectFileStatistics n e);
  r_export n : preserves I (b_exportFileStatistics n)
}.

Section WorkerBindings.
Context {B : Type} `{DuckDBBindings B} (hasXHR : bool) (I : B -> Prop) (HI : respects I).

(** The worker's bindings, if there are any, satisfy [I]. *)
Definition bindings_ok (s : Dispatcher B) : Prop := forall b, bindings s = Some b -> I b.

Lemma ok_call {A} (op : JS B A) : preserves I op -> preserves bindings_ok (call op).
Proof.
  intros Hop s Hs. unfold call. destruct (bindings s) as [b|] eqn:E; [|done].
  specialize (Hop b (Hs b E)). destruct (op b) as [o b']. by intros c [= <-].
Qed.
Lemma ok_modify f : (forall s : Dispatcher B, bindings (f s) = bindings s) -> preserves bindings_ok (modify f).
Proof. intros Hf s Hs b. cbn. rewrite Hf. apply Hs. Qed.
Lemma ok_post m t d tr : preserves bindings_ok (@post B m t d tr).
Proof. by apply ok_modify. Qed.
Lemma ok_zoom {A} (m : JS PrefetchState A) : preserves bindings_ok (zoom prefetch set_prefetch m).
Proof. intros s Hs. unfold zoom. by destruct (m (prefetch s)). Qed.
Lemma ok_opt {A C} (o : option C) (k : C -> JS (Dispatcher B) A) m :
  (forall c, preserves bindings_ok (k c)) -> preserves bindings_ok m ->
  preserves bindings_ok (match o with Some c => k c | None => m end).
Proof. by destruct o. Qed.
Lemma ok_start c : preserves bindings_ok (@startCancelWatch B c).
Proof. apply preserves_bind; [apply preserves_gets|]. intros [i|]; [by apply ok_modify|apply preserves_ret]. Qed.
Lemma ok_stop : preserves bindings_ok (@stopCancelWatch B).
Proof. by apply ok_modify. Qed.

Create HintDb ok.
Hint Resolve preserves_ret preserves_throw preserves_gets preserves_if preserves_bind
  preserves_try_catch preserves_map_of ok_call ok_start ok_stop ok_post ok_zoom ok_opt : ok.
Hint Resolve r_open r_reset r_version r_url r_flags r_tokenize r_connect r_disconnect r_run r_start
  r_poll r_cancel r_interrupt r_fetch r_tables r_create r_close r_runPrepared r_sendPrepared
  r_arrow r_csv r_json r_fileURL r_fileBuffer r_fileHandle r_prepare r_glob r_drop r_drops r_flush
  r_copyPath r_copyBuffer r_opfs r_collect r_export : ok.
Hint Extern 3 (preserves bindings_ok (modify _)) => (apply ok_modify; by intros []) : ok.
Hint Extern 2 (preserves bindings_ok (match ?x with _ => _ end)) => (destruct x) : ok.
Hint Unfold done_ sendOK failWith log post_eval open_tail answer answer_eval answer_ok : ok.

Lemma ok_attempt i c : preserves bindings_ok (@attemptCancel B _ i c).
Proof using HI. unfold attemptCancel. auto 10 with ok. Qed.
Hint Resolve ok_attempt : ok.
Lemma ok_poll_check c : preserves bindings_ok (@poll_check B _ c).
Proof using HI. unfold poll_check. auto 12 with ok. Qed.
Hint Resolve ok_poll_check : ok.

Lemma ok_handle req : preserves bindings_ok (@handle B _ hasXHR req).
Proof using HI.
  unfold handle. destruct (request req); autounfold with ok;
    unfold handle_prefetch, extension_urls, handle_reset, handle_open, handle_disconnect,
      handle_start, handle_poll, handle_cancel, pending_tail; autounfold with ok; auto 20 with ok.
Qed.

Lemma ok_on_error req e : preserves bindings_ok (@on_error B req e).
Proof.
  unfold on_error. autounfold with ok. apply preserves_bind; [apply preserves_gets|].
  intros c. apply preserves_bind; [|auto 10 with ok].
  destruct c; [|auto with ok]. destruct (request req); auto with ok.
Qed.
Hint Resolve ok_handle ok_on_error : ok.

Lemma ok_onMessage req : preserves bindings_ok (@onMessage B _ hasXHR req).
Proof using HI.
  unfold onMessage, handle_caught. destruct (request req); autounfold with ok; auto 20 with ok.
Qed.

(** The bindings an instantiation delivers satisfy [I] too. *)
Definition outcome_ok (o : Outcome B) : Prop := match o with Normal b => I b | Thrown _ => True end.

Lemma ok_resume a outcome : outcome_ok outcome -> preserves bindings_ok (@resume B _ hasXHR a outcome).
Proof using HI.
  intros Ho. unfold resume, handle_caught. destruct a; autounfold with ok; try by auto 20 with ok.
  destruct outcome as [b|e]; apply preserves_bind; auto with ok; apply preserves_bind; auto with ok.
  - intros s _ c. cbn. by intros [= <-].
  - by intros s _ c.
Qed.
End WorkerBindings.

(** A run of the worker in which every instantiation delivers bindings that satisfy [I]. *)
Inductive run_from {B} `{DuckDBBindings B} (hasXHR : bool) (I : B -> Prop) (w0 : Worker B) : Worker B -> Prop :=
| rf_start : run_from hasXHR I w0 w0
| rf_message req s l o s' :
    run_from hasXHR I w0 (MkWorker s l) -> onMessage hasXHR req s = (o, s') ->
    run_from hasXHR I w0 (MkWorker s' (l ++ outcome_await o))
| rf_resume a outcome s l1 l2 o s' :
    run_from hasXHR I w0 (MkWorker s (l1 ++ a :: l2)) -> outcome_ok I outcome ->
    may_resume a s -> resume hasXHR a outcome s = (o, s') ->
    run_from hasXHR I w0 (MkWorker s' (l1 ++ l2 ++ outcome_await o))
| rf_tick s l : run_from hasXHR I w0 (MkWorker s l) -> run_from hasXHR I w0 (MkWorker (watch_tick s).2 l).

Lemma run_from_ok {B} `{DuckDBBindings B} hasXHR (I : B -> Prop) w0 w :
  respects I -> bindings_ok I (disp w0) -> run_from hasXHR I w0 w -> bindings_ok I (disp w).
Proof.
  intros HI H0 Hr. induction Hr as [|req s l o s' _ IH E|a outcome s l1 l2 o s' _ IH Ho _ E|s l _ IH]; cbn in *.
  - done.
  - pose proof (ok_onMessage hasXHR I HI req s IH) as Hk. by rewrite E in Hk.
  - pose proof (ok_resume hasXHR I HI a outcome Ho s IH) as Hk. by rewrite E in Hk.
  - unfold watch_tick, bind, gets. destruct (cancelWatcher s) as [i|]; [|done].
    destruct (load_sab i s =? 1)%Z; [|done]. by apply ok_attempt.
Qed.
