(* ===== verification/Client.v ===== *)
(** * Client: AsyncDuckDB on the main thread ([async_bindings.ts], the worker channel)

    [Client] is the state of an [AsyncDuckDB]: the attached worker and its
    shutdown promise, the table of pending requests and the progress callbacks.
    Promises live in a table of their own, so that a task held by two parties is
    one promise; [console] keeps what is shown to the user (callbacks called,
    log entries, warnings), and [outbox] what was handed to [postMessage].

    The browser's part is given by parameters: [clone_error] is the exception
    structured cloning raises for a request, and [stack_writable] whether an
    error's [stack] can be assigned.  Callbacks do not throw. *)
From S2P Require Import Prelude Data FileStats Protocol.
From stdpp Require Import base tactics list gmap strings pretty.
From Stdlib Require Import ZArith Lia.
Open Scope Z_scope.

Abbreviation CallbackId := nat (only parsing).

(** What a worker is sent. *)
Inductive Sent :=
| Sent_request (worker : Z) (req : WorkerRequest) (transfer : list (list Z))
| Sent_cancel_sab (worker : Z) (sab : Z)
| Sent_terminate (worker : Z).

Inductive ConsoleEvent :=
| CE_progress (cb : CallbackId) (d : ResponseData)
| CE_instantiation (cb : CallbackId) (d : ResponseData)
| CE_log (d : ResponseData)
| CE_warn (s : string)
| CE_error (s : string).

Record Client := MkClient {
  _worker : option Z;
  listeners : gset Z;                      (** workers that carry our handlers *)
  shutdownPromise : option Z;
  shutdownResolver : option Z;             (** [None] is the initial [() => {}] *)
  shutdowns : gmap Z bool;                 (** shutdown promises; true once resolved *)
  client_nextMessageId : Z;
  pendingRequests : gmap Z WorkerTask;
  onInstantiationProgress : list CallbackId;
  onExecutionProgress : list CallbackId;
  _config : DuckDBConfig;
  promises : gmap Z PromiseState;
  outbox : list Sent;
  console : list ConsoleEvent
}.

(** *** Field updates *)

Definition set_worker w l sp sr sh (s : Client) : Client :=
  MkClient w l sp sr sh (client_nextMessageId s) (pendingRequests s) (onInstantiationProgress s)
    (onExecutionProgress s) (_config s) (promises s) (outbox s) (console s).
Definition set_pending n p (s : Client) : Client :=
  MkClient (_worker s) (listeners s) (shutdownPromise s) (shutdownResolver s) (shutdowns s) n p
    (onInstantiationProgress s) (onExecutionProgress s) (_config s) (promises s) (outbox s) (console s).
Definition set_callbacks i e (s : Client) : Client :=
  MkClient (_worker s) (listeners s) (shutdownPromise s) (shutdownResolver s) (shutdowns s)
    (client_nextMessageId s) (pendingRequests s) i e (_config s) (promises s) (outbox s) (console s).
Definition set_config c (s : Client) : Client :=
  MkClient (_worker s) (listeners s) (shutdownPromise s) (shutdownResolver s) (shutdowns s)
    (client_nextMessageId s) (pendingRequests s) (onInstantiationProgress s) (onExecutionProgress s)
    c (promises s) (outbox s) (console s).
Definition set_promises p (s : Client) : Client :=
  MkClient (_worker s) (listeners s) (shutdownPromise s) (shutdownResolver s) (shutdowns s)
    (client_nextMessageId s) (pendingRequests s) (onInstantiationProgress s) (onExecutionProgress s)
    (_config s) p (outbox s) (console s).
Definition add_sent m (s : Client) : Client :=
  MkClient (_worker s) (listeners s) (shutdownPromise s) (shutdownResolver s) (shutdowns s)
    (client_nextMessageId s) (pendingRequests s) (onInstantiationProgress s) (onExecutionProgress s)
    (_config s) (promises s) (outbox s ++ [m]) (console s).
Definition add_console es (s : Client) : Client :=
  MkClient (_worker s) (listeners s) (shutdownPromise s) (shutdownResolver s) (shutdowns s)
    (client_nextMessageId s) (pendingRequests s) (onInstantiationProgress s) (onExecutionProgress s)
    (_config s) (promises s) (outbox s) (console s ++ es).

Definition new_client : Client :=
  MkClient None ∅ None None ∅ 0 ∅ [] [] empty_config ∅ [] [].

Section Client.
Context (clone_error : RequestData -> option JsError) (stack_writable : bool).

Definition console_warn (m : string) : JS Client unit := modify (add_console [CE_warn m]).
Definition console_error (m : string) : JS Client unit := modify (add_console [CE_error m]).

(** *** Attaching and detaching a worker *)

Definition attach (worker : Z) : JS Client unit :=
  modify (fun s =>
    let p := fresh (dom (shutdowns s)) in
    set_worker (Some worker) ({[worker]} ∪ listeners s) (Some p) (Some p)
      (<[p := false]> (shutdowns s)) s).

(** [this._workerShutdownResolver(null)] *)
Definition resolve_shutdown (s : Client) : gmap Z bool :=
  match shutdownResolver s with
  | Some p => <[p := true]> (shutdowns s)
  | None => shutdowns s
  end.

Definition detach : JS Client unit :=
  let! w := gets _worker in
  match w with
  | None => ret tt
  | Some w => modify (fun s =>
      set_worker None (listeners s ∖ {[w]}) None None (resolve_shutdown s) s)
  end.

(** [terminate] leaves the handlers on the worker and its promise unsettled. *)
Definition terminate : JS Client unit :=
  let! w := gets _worker in
  match w with
  | None => ret tt
  | Some w =>
      modify (add_sent (Sent_terminate w)) ;;;
      modify (fun s => set_worker None (listeners s) None None (shutdowns s) s)
  end.

Definition isDetached (s : Client) : bool := bool_decide (_worker s = None).

(** What [registerCancelSAB] can be called with: the second class is any value
    that is no [SharedArrayBuffer]. *)
Inductive BufferArg := SharedBuffer (sab byteLength : Z) | NotShared.

Definition registerCancelSAB (hasSharedArrayBuffer : bool) (b : BufferArg) : JS Client unit :=
  if negb hasSharedArrayBuffer then
    throw (MkError "TypeError"
      "registerCancelSAB requires SharedArrayBuffer support (cross-origin isolation must be enabled)" None)
  else
    match b with
    | NotShared => throw (MkError "TypeError"
        "registerCancelSAB requires a SharedArrayBuffer (got a non-shared buffer)" None)
    | SharedBuffer sab byteLength =>
        if byteLength <? 4 then
          throw (MkError "RangeError"
            ("registerCancelSAB requires at least 4 bytes for the Int32 flag (got " +:+
             pretty byteLength +:+ ")") None)
        else
          let! w := gets _worker in
          match w with
          | None => console_warn
              "registerCancelSAB: worker not attached; cancel SAB will not take effect until a worker is attached"
          | Some w => modify (add_sent (Sent_cancel_sab w sab))
          end
    end.

(** *** Tasks *)

(** [new WorkerTask(type, data)] *)
Definition newTask (r : RequestData) : JS Client WorkerTask :=
  let! p := gets (fun s => fresh (dom (promises s))) in
  modify (fun s => set_promises (<[p := Pending]> (promises s)) s) ;;;
  ret {| task_request := r; task_promise := p |}.

(** [postTask]: the promise its caller waits for, or [None] when it returns
    [undefined] because no worker is attached; a throw of [postMessage]
    rejects the call and leaves the request pending. *)
Definition postTask (task : WorkerTask) (transfer : list (list Z)) : JS Client (option Z) :=
  let! w := gets _worker in
  match w with
  | None => console_error "cannot send a message since the worker is not set!" ;;; ret None
  | Some w =>
      let! mid := gets client_nextMessageId in
      modify (fun s => set_pending (mid + 1) (<[mid := task]> (pendingRequests s)) s) ;;;
      match clone_error (task_request task) with
      | Some e => throw e
      | None =>
          modify (add_sent (Sent_request w {| messageId := mid; request := task_request task |} transfer)) ;;;
          ret (Some (task_promise task))
      end
  end.

Definition settle (f : PromiseState -> PromiseState) (p : Z) : JS Client unit :=
  modify (fun s => set_promises (alter f p (promises s)) s).

(** *** The message handler *)

(** [response.type.toString()] *)
Definition type_toString (t : MessageType) : Outcome string :=
  match t with
  | MT_response t => Normal (response_type_string t)
  | MT_string s => Normal s
  | MT_undefined => Thrown (MkError "TypeError" "Cannot read properties of undefined" None)
  end.

Definition lift {A} (o : Outcome A) : JS Client A :=
  match o with Normal a => ret a | Thrown e => throw e end.

(** The error a task is rejected with: a new [Error] with the message, name
    and, where it can be set, stack of the response.  Data without these
    properties leaves them undefined (written as empty here). *)
Definition error_of_data (d : ResponseData) : Outcome JsError :=
  match d with
  | D_error e => Normal (MkError (err_name e) (err_message e)
                           (if stack_writable then err_stack e else None))
  | D_undefined | D_null =>
      Thrown (MkError "TypeError" "Cannot read properties of null" None)
  | _ => Normal (MkError "" "" None)
  end.

(** The response type the switch over the task's type resolves it on. *)
Definition expected_response (t : WorkerRequestType) : WorkerResponseType :=
  match t with
  | CLOSE_PREPARED | COLLECT_FILE_STATISTICS | REGISTER_OPFS_FILE_NAME | COPY_FILE_TO_PATH
  | DISCONNECT | DROP_FILE | DROP_FILES | FLUSH_FILES | INSERT_ARROW_FROM_IPC_STREAM
  | INSERT_CSV_FROM_PATH | INSERT_JSON_FROM_PATH | OPEN | PING | PREFETCH_EXTENSIONS
  | REGISTER_FILE_BUFFER | REGISTER_FILE_HANDLE | REGISTER_FILE_URL | RESET => OK
  | INSTANTIATE => OK
  | GLOB_FILE_INFOS => FILE_INFOS
  | GET_VERSION => VERSION_STRING
  | GET_FEATURE_FLAGS => FEATURE_FLAGS
  | GET_TABLE_NAMES => TABLE_NAMES
  | TOKENIZE => SCRIPT_TOKENS
  | COPY_FILE_TO_BUFFER => FILE_BUFFER
  | EXPORT_FILE_STATISTICS => FILE_STATISTICS
  | CONNECT => CONNECTION_INFO
  | RUN_PREPARED | RUN_QUERY => QUERY_RESULT
  | SEND_PREPARED => QUERY_RESULT_HEADER
  | START_PENDING_QUERY | POLL_PENDING_QUERY => QUERY_RESULT_HEADER_OR_NULL
  | GET_INTERRUPT_HANDLE => INTERRUPT_HANDLE
  | CANCEL_PENDING_QUERY => SUCCESS
  | FETCH_QUERY_RESULTS => QUERY_RESULT_CHUNK
  | CREATE_PREPARED => PREPARED_STATEMENT_ID
  end.

(** The cases that drop the instantiation callbacks. *)
Definition clears_instantiation (t : WorkerRequestType) : bool :=
  match t with INSTANTIATE | CANCEL_PENDING_QUERY => true | _ => false end.

Definition reject_unexpected (task : WorkerTask) (t : MessageType) : JS Client unit :=
  let! s := lift (type_toString t) in
  settle (reject_promise (Error ("unexpected response type: " +:+ s))) (task_promise task).

(** The part after the task was taken out of the table. *)
Definition finish_task (task : WorkerTask) (m : Message) : JS Client unit :=
  if bool_decide (msg_type m = MT_response ERROR) then
    let! e := lift (error_of_data (msg_data m)) in
    settle (reject_promise e) (task_promise task)
  else
    let ty := request_type (task_request task) in
    (if clears_instantiation ty then modify (fun s => set_callbacks [] (onExecutionProgress s) s)
     else ret tt) ;;;
    if bool_decide (msg_type m = MT_response (expected_response ty))
    then settle (resolve_promise (msg_data m)) (task_promise task)
    else reject_unexpected task (msg_type m).

Definition is_string_type (t : MessageType) : bool :=
  match t with MT_undefined => false | _ => true end.

Definition opt_id_string (o : option Z) : string :=
  match o with Some i => pretty i | None => "undefined" end.

Definition onMessage (m : Message) : JS Client unit :=
  match msg_type m with
  | MT_response PROGRESS_UPDATE =>
      modify (fun s => add_console (map (fun cb => CE_progress cb (msg_data m)) (onExecutionProgress s)) s)
  | MT_response LOG => modify (add_console [CE_log (msg_data m)])
  | MT_response INSTANTIATE_PROGRESS =>
      modify (fun s => add_console (map (fun cb => CE_instantiation cb (msg_data m))
                                      (onInstantiationProgress s)) s)
  | t =>
      if is_string_type t && bool_decide (msg_requestId m = None) then ret tt
      else
        let! task := gets (fun s => msg_requestId m ≫= fun id => pendingRequests s !! id) in
        match msg_requestId m, task with
        | Some id, Some task =>
            modify (fun s => set_pending (client_nextMessageId s) (delete id (pendingRequests s)) s) ;;;
            finish_task task m
        | _, _ =>
            let! s := lift (type_toString t) in
            console_warn ("unassociated response: [" +:+ opt_id_string (msg_requestId m) +:+ ", " +:+ s +:+ "]")
        end
  end.

(** *** Worker failure *)

Definition onError (message : string) : JS Client unit :=
  console_error ("error in duckdb worker: " +:+ message) ;;;
  modify (fun s => set_pending (client_nextMessageId s) ∅ s).

Definition onClose : JS Client unit :=
  modify (fun s => set_worker (_worker s) (listeners s) (shutdownPromise s) (shutdownResolver s)
                     (resolve_shutdown s) s) ;;;
  let! n := gets (fun s => size (pendingRequests s)) in
  if bool_decide (n <> O) then
    console_warn ("worker terminated with " +:+ pretty (Z.of_nat n) +:+ " pending requests")
  else modify (fun s => set_pending (client_nextMessageId s) ∅ s).
End Client.

(** The response types that are not handled before the table is consulted. *)
Definition ends_task (t : WorkerResponseType) : bool :=
  match t with PROGRESS_UPDATE | LOG | INSTANTIATE_PROGRESS => false | _ => true end.

(** ** The client as a step relation *)

Section Steps.
Context (clone_error : RequestData -> option JsError) (stack_writable : bool).

(** A method call that posts a request. *)
Definition issue (r : RequestData) (transfer : list (list Z)) : JS Client (option Z) :=
  let! t := newTask r in postTask clone_error t transfer.

Inductive client_step : Client -> Client -> Prop :=
| cs_issue r transfer s : client_step s (issue r transfer s).2
| cs_message m s : client_step s (onMessage stack_writable m s).2
| cs_error msg s : client_step s (onError msg s).2
| cs_close s : client_step s (onClose s).2
| cs_attach w s : client_step s (attach w s).2
| cs_detach s : client_step s (detach s).2
| cs_terminate s : client_step s (terminate s).2
| cs_cancel_sab b sab s : client_step s (registerCancelSAB b sab s).2
| cs_config c s : client_step s (set_config c s)
| cs_callbacks i e s : client_step s (set_callbacks i e s).

(** A pending request has an id that was handed out, and a promise of its own
    that is not settled. *)
Record client_ok (s : Client) : Prop := {
  ok_ids : forall i t, pendingRequests s !! i = Some t -> 0 <= i < client_nextMessageId s;
  ok_promises : forall i t, pendingRequests s !! i = Some t ->
    promises s !! task_promise t = Some Pending;
  ok_distinct : forall i j t u, pendingRequests s !! i = Some t -> pendingRequests s !! j = Some u ->
    task_promise t = task_promise u -> i = j;
  ok_next : 0 <= client_nextMessageId s
}.

(** The parts [client_ok] speaks of. *)
Definition same_tables (s s' : Client) : Prop :=
  client_nextMessageId s' = client_nextMessageId s /\ pendingRequests s' = pendingRequests s /\
  promises s' = promises s.

Lemma client_ok_tables s s' : same_tables s s' -> client_ok s -> client_ok s'.
Proof. intros (E1 & E2 & E3) [H1 H2 H3 H4]. split; rewrite ?E1, ?E2, ?E3; done. Qed.

Lemma client_ok_new : client_ok new_client.
Proof. split; cbn; intros; try done; lia. Qed.

Lemma fresh_promise_none s : promises s !! fresh (dom (promises s)) = None.
Proof. apply not_elem_of_dom, is_fresh. Qed.

Lemma client_ok_cleared s : client_ok s -> client_ok (set_pending (client_nextMessageId s) ∅ s).
Proof. intros [H1 H2 H3 H4]. split; cbn; intros; try done. Qed.

(** Taking a task out of the table lets its promise be settled in any way. *)
Lemma client_ok_taken s id task f :
  client_ok s -> pendingRequests s !! id = Some task ->
  client_ok (set_promises (alter f (task_promise task) (promises s))
    (set_pending (client_nextMessageId s) (delete id (pendingRequests s)) s)).
Proof.
  intros [H1 H2 H3 H4] Hid. split; cbn; [| | |done].
  - intros i t [_ Hi]%lookup_delete_Some. by eapply H1.
  - intros i t [Hne Hi]%lookup_delete_Some. rewrite lookup_alter_ne; [by eapply H2|].
    intros E. by destruct Hne; eapply H3.
  - intros i j t u [_ Hi]%lookup_delete_Some [_ Hj]%lookup_delete_Some. by eapply H3.
Qed.

Lemma client_ok_untaken s id : client_ok s ->
  client_ok (set_pending (client_nextMessageId s) (delete id (pendingRequests s)) s).
Proof.
  intros [H1 H2 H3 H4]. split; cbn; [| | |done].
  - intros i t [_ Hi]%lookup_delete_Some. by eapply H1.
  - intros i t [_ Hi]%lookup_delete_Some. by eapply H2.
  - intros i j t u [_ Hi]%lookup_delete_Some [_ Hj]%lookup_delete_Some. by eapply H3.
Qed.

(** What [finish_task] does to the tables: it settles the task's promise, or
    throws a [TypeError] and settles nothing. *)
Lemma finish_task_tables task m s :
  client_nextMessageId (finish_task stack_writable task m s).2 = client_nextMessageId s /\
  pendingRequests (finish_task stack_writable task m s).2 = pendingRequests s /\
  (promises (finish_task stack_writable task m s).2 = promises s \/
   exists f, promises (finish_task stack_writable task m s).2 =
     alter f (task_promise task) (promises s) /\ (forall p, p <> Pending -> f p = p)).
Proof.
  unfold finish_task, reject_unexpected, settle, lift.
  case_bool_decide; [destruct (error_of_data _ _) as [e|e]|destruct (clears_instantiation _);
    (case_bool_decide; [|destruct (type_toString _) as [ts|e]])];
    unfold bind, modify, ret, throw; cbn; (split; [done|]); (split; [done|]);
    try (by left); right; eexists; (split; [reflexivity|]); intros p Hp;
    (by apply reject_settled || by apply resolve_settled).
Qed.

Lemma onMessage_tables m s :
  same_tables s (onMessage stack_writable m s).2 \/
  exists id task, msg_requestId m = Some id /\ pendingRequests s !! id = Some task /\
    (onMessage stack_writable m s) = finish_task stack_writable task m
      (set_pending (client_nextMessageId s) (delete id (pendingRequests s)) s).
Proof.
  unfold onMessage. destruct (msg_type m) as [t| |] eqn:Ht; [destruct t|..];
    try (left; done);
    (destruct (msg_requestId m) as [id|] eqn:Hid; [|left; cbn; done]);
    unfold bind, gets, modify; cbn;
    (destruct (pendingRequests s !! id) as [task|] eqn:Hp; [right; exists id, task; done|left; done]).
Qed.

Lemma client_ok_message m s : client_ok s -> client_ok (onMessage stack_writable m s).2.
Proof.
  intros Hok. destruct (onMessage_tables m s) as [Ht|(id & task & _ & Hp & ->)];
    [by eapply client_ok_tables|].
  destruct (finish_task_tables task m
    (set_pending (client_nextMessageId s) (delete id (pendingRequests s)) s))
    as (E1 & E2 & [E3|(f & E3 & _)]).
  - eapply client_ok_tables; [|by apply (client_ok_untaken s id)]. done.
  - eapply client_ok_tables; [|by apply (client_ok_taken s id task f)]. done.
Qed.

Lemma client_ok_issue r transfer s : client_ok s -> client_ok (issue r transfer s).2.
Proof.
  intros [H1 H2 H3 H4]. pose proof (fresh_promise_none s) as Hf.
  set (p := fresh (dom (promises s))) in *.
  assert (forall i t, pendingRequests s !! i = Some t -> task_promise t <> p) as Hne.
  { intros i t Hi E. specialize (H2 i t Hi). rewrite E in H2. congruence. }
  assert (client_ok (set_promises (<[p := Pending]> (promises s)) s)) as Hn.
  { split; cbn; [done| |done|done]. intros i t Hi. rewrite lookup_insert_ne; [by eapply H2|].
    intros E. by apply (Hne i t Hi). }
  assert (client_ok (set_pending (client_nextMessageId s + 1)
    (<[client_nextMessageId s := {| task_request := r; task_promise := p |}]> (pendingRequests s))
    (set_promises (<[p := Pending]> (promises s)) s))) as Hp.
  { destruct Hn as [N1 N2 N3 N4]. cbn in *. split; cbn; [| | |lia].
    - intros i t [[<- <-]|[_ Hi]]%lookup_insert_Some; [lia|]. specialize (H1 i t Hi). lia.
    - intros i t [[<- <-]|[_ Hi]]%lookup_insert_Some; cbn; [by rewrite lookup_insert_eq|].
      by eapply N2.
    - intros i j t u [[<- <-]|[Hi' Hi]]%lookup_insert_Some [[<- <-]|[Hj' Hj]]%lookup_insert_Some; cbn;
        [done| | |by eapply H3].
      + intros E. by destruct (Hne j u Hj).
      + intros E. by destruct (Hne i t Hi). }
  unfold issue, newTask, postTask, bind, gets, modify, ret, throw. cbn.
  destruct (_worker s); cbn; [|by eapply client_ok_tables; [|exact Hn]].
  destruct (clone_error r); cbn; (eapply client_ok_tables; [|exact Hp]); done.
Qed.

Lemma client_ok_step s s' : client_ok s -> client_step s s' -> client_ok s'.
Proof.
  intros Hok Hs.
  assert (forall t, same_tables s t -> client_ok t) as Hsame by (intros; by eapply client_ok_tables).
  destruct Hs.
  - by apply client_ok_issue.
  - by apply client_ok_message.
  - apply (client_ok_cleared (add_console _ s)). by apply Hsame.
  - unfold onClose, bind, gets, modify. cbn. case_bool_decide; [by apply Hsame|].
    apply (client_ok_cleared (set_worker _ _ _ _ _ s)). by apply Hsame.
  - by apply Hsame.
  - unfold detach, bind, gets, modify. destruct (_worker s); by apply Hsame.
  - unfold terminate, bind, gets, modify. destruct (_worker s); by apply Hsame.
  - unfold registerCancelSAB. destruct (negb b); [by apply Hsame|]. destruct sab as [x n|]; [|by apply Hsame].
    destruct (n <? 4); [by apply Hsame|]. unfold bind, gets.
    destruct (_worker s); by apply Hsame.
  - by apply Hsame.
  - by apply Hsame.
Qed.

Lemma client_reachable_ok s : reachable client_step (eq new_client) s -> client_ok s.
Proof.
  apply reachable_invariant; [intros ? <-; apply client_ok_new|].
  intros; by eapply client_ok_step.
Qed.
End Steps.

(** ** Properties *)

(** A message settles at most the promise of the request it names: whatever
    arrives, in every reachable state of the client, a promise other than that of
    the pending task with the message's request id keeps its state, a settled
    promise never changes, and every other pending request stays pending. *)
Theorem message_settles_only_its_task ce sw (s : Client) m p st :
  reachable (client_step ce sw) (eq new_client) s ->
  promises s !! p = Some st ->
  (promises (onMessage sw m s).2 !! p = Some st \/
   st = Pending /\ exists id task, msg_requestId m = Some id /\
     pendingRequests s !! id = Some task /\ task_promise task = p /\
     pendingRequests (onMessage sw m s).2 = delete id (pendingRequests s)) /\
  (forall id task, msg_requestId m <> Some id -> pendingRequests s !! id = Some task ->
     pendingRequests (onMessage sw m s).2 !! id = Some task).
Proof.
  intros Hr%client_reachable_ok Hp.
  destruct (onMessage_tables sw m s) as [(_ & E2 & E3)|(id & task & Hm & Hid & ->)].
  { rewrite E2, E3. by split; [left|]. }
  destruct (finish_task_tables sw task m
    (set_pending (client_nextMessageId s) (delete id (pendingRequests s)) s)) as (_ & E2 & E3).
  rewrite E2. cbn in E3 |- *. split.
  - destruct E3 as [->|(f & -> & Hf)]; [by left|].
    destruct (decide (task_promise task = p)) as [<-|Hne]; [|left; by rewrite lookup_alter_ne].
    right. rewrite (ok_promises _ Hr _ _ Hid) in Hp. simplify_eq. eauto 10.
  - intros i t Hne Hi. rewrite lookup_delete_ne; [done|]. congruence.
Qed.

(** The client after one request was posted to worker 5. *)
Definition one_pending : Client :=
  (issue (fun _ => None) (Rq_RUN_QUERY 1 "SELECT 1") [] (attach 5 new_client).2).2.

Lemma one_pending_reachable sw : reachable (client_step (fun _ => None) sw) (eq new_client) one_pending.
Proof.
  eapply reach_step; [|apply cs_issue]. eapply reach_step; [|apply cs_attach]. by apply reach_init.
Qed.

Lemma message_settles_only_its_task_witness :
  let m := MkMessage (MT_response QUERY_RESULT) (Some 0) (D_bytes [1]) in
  let p := fresh (dom (promises (attach 5 new_client).2)) in
  promises (onMessage true m one_pending).2 !! p = Some Pending \/
  Pending = Pending /\ exists id task, msg_requestId m = Some id /\
    pendingRequests one_pending !! id = Some task /\ task_promise task = p /\
    pendingRequests (onMessage true m one_pending).2 = delete id (pendingRequests one_pending).
Proof.
  intros m p.
  exact (proj1 (message_settles_only_its_task (fun _ => None) true one_pending m p Pending
    (one_pending_reachable true) eq_refl)).
Defined.

(** C4: What a response does to the pending request it names, case by case: the
    response type the task's switch expects fulfils the promise with the payload;
    ERROR rejects it with an error of the same name and message; any other type
    that is a string rejects it with an [unexpected response type] error; and a
    message without a type raises a [TypeError] in the handler, after which the
    request is forgotten and its promise can never settle. *)
Theorem response_outcome ce sw (s : Client) id task ty d :
  reachable (client_step ce sw) (eq new_client) s ->
  pendingRequests s !! id = Some task ->
  (forall t, ty = MT_response t -> ends_task t = true) ->
  let r := onMessage sw (MkMessage ty (Some id) d) s in
  let final := promises r.2 !! task_promise task in
  let expected := expected_response (request_type (task_request task)) in
  (ty = MT_response expected -> r.1 = Normal tt /\ final = Some (Fulfilled d)) /\
  (forall e, ty = MT_response ERROR -> d = D_error e ->
     r.1 = Normal tt /\ exists e', final = Some (Rejected e') /\
       err_name e' = err_name e /\ err_message e' = err_message e) /\
  (forall ts, type_toString ty = Normal ts -> ty <> MT_response ERROR -> ty <> MT_response expected ->
     r.1 = Normal tt /\
     final = Some (Rejected (Error ("unexpected response type: " +:+ ts)))) /\
  (ty = MT_undefined -> is_normal r.1 = false /\ final = Some Pending /\
     pendingRequests r.2 !! id = None).
Proof.
  intros Hr%client_reachable_ok Hid Hty. cbv zeta.
  pose proof (ok_promises _ Hr _ _ Hid) as Hp.
  assert (onMessage sw (MkMessage ty (Some id) d) s =
    finish_task sw task (MkMessage ty (Some id) d)
      (set_pending (client_nextMessageId s) (delete id (pendingRequests s)) s)) as ->.
  { unfold onMessage, bind, gets, modify. cbn.
    destruct ty as [t|t|]; [|by rewrite Hid..]. specialize (Hty t eq_refl).
    destruct t; try discriminate Hty; by rewrite Hid. }
  set (s' := set_pending _ _ s).
  assert (promises s' !! task_promise task = Some Pending) as Hp' by done.
  assert (pendingRequests s' !! id = None) as Hd by apply lookup_delete_eq.
  clearbody s'. unfold finish_task, reject_unexpected, settle, lift, bind, modify, ret, throw. cbn.
  split; [|split; [|split]].
  - intros ->. rewrite bool_decide_eq_false_2 by (by destruct (request_type _)).
    rewrite bool_decide_eq_true_2 by done.
    destruct (clears_instantiation _); cbn; rewrite lookup_alter_eq, Hp'; done.
  - intros e -> ->. rewrite bool_decide_eq_true_2 by done. cbn. rewrite lookup_alter_eq, Hp'.
    split; [done|]. eexists. by split.
  - intros ts Hts He Hx. rewrite !bool_decide_eq_false_2 by done. rewrite Hts.
    destruct (clears_instantiation _); cbn; rewrite lookup_alter_eq, Hp'; done.
  - intros ->. rewrite !bool_decide_eq_false_2 by done.
    destruct (clears_instantiation _); done.
Qed.

Lemma response_outcome_witness :
  let task := {| task_request := Rq_RUN_QUERY 1 "SELECT 1";
                 task_promise := fresh (dom (promises (attach 5 new_client).2)) |} in
  let r := onMessage true (MkMessage (MT_response QUERY_RESULT) (Some 0) (D_bytes [1])) one_pending in
  r.1 = Normal tt /\ promises r.2 !! task_promise task = Some (Fulfilled (D_bytes [1])).
Proof.
  intros task r.
  refine (proj1 (response_outcome (fun _ => None) true one_pending 0 task (MT_response QUERY_RESULT)
    (D_bytes [1]) (one_pending_reachable true) eq_refl _) eq_refl).
  intros t E. injection E as <-. reflexivity.
Defined.

(** After an error event of the worker no request is pending and every
    promise keeps its state, so the calls that were waiting are neither fulfilled
    nor rejected, and no later message of any kind settles one of them. *)
Theorem worker_error_strands_requests ce sw (s : Client) msg id task m :
  reachable (client_step ce sw) (eq new_client) s ->
  pendingRequests s !! id = Some task ->
  let s' := (onError msg s).2 in
  pendingRequests s' = ∅ /\ promises s' !! task_promise task = Some Pending /\
  promises (onMessage sw m s').2 !! task_promise task = Some Pending.
Proof.
  intros Hr%client_reachable_ok Hid. cbv zeta. pose proof (ok_promises _ Hr _ _ Hid) as Hp.
  split; [done|]. split; [done|].
  destruct (onMessage_tables sw m (onError msg s).2) as [(_ & _ & ->)|(i & t & _ & Hi & _)]; [done|].
  by cbn in Hi.
Qed.

Lemma worker_error_strands_requests_witness :
  let s' := (onError "boom" one_pending).2 in
  let p := fresh (dom (promises (attach 5 new_client).2)) in
  pendingRequests s' = ∅ /\ promises s' !! p = Some Pending /\
  promises (onMessage true (MkMessage (MT_response QUERY_RESULT) (Some 0) (D_bytes [1])) s').2 !! p =
    Some Pending.
Proof.
  intros s' p.
  exact (worker_error_strands_requests (fun _ => None) true one_pending "boom" 0
    {| task_request := Rq_RUN_QUERY 1 "SELECT 1"; task_promise := p |}
    (MkMessage (MT_response QUERY_RESULT) (Some 0) (D_bytes [1])) (one_pending_reachable true) eq_refl).
Defined.
