(* ===== verification/Regex.v ===== *)
(** * Regex: the JavaScript regular expressions of the source

    A pattern is matched the way ECMAScript specifies it: a matcher takes a
    continuation, alternatives and iterations are tried in order, and an
    iteration that consumes nothing is refused.  [Matches] is the declarative
    semantics; [match_re] finds a match whose continuation succeeds iff there is
    one.  A character is a code unit below 256, and the case-insensitive patterns
    list both cases of their letters.

    The patterns: [REGEX_OPFS_FILE] and [REGEX_OPFS_PROTOCOL] of
    [utils/opfs_util.ts], and [EXTENSION_LOAD_RE] of [bindings_base.ts]. *)
From S2P Require Import Prelude.
From stdpp Require Import base tactics list sets strings.
From Stdlib Require Import Ascii Lia.
Open Scope list_scope.

Abbreviation text := (list ascii).

Inductive regex :=
| REmpty
| RChar (p : ascii -> bool)
| RSeq (r1 r2 : regex)
| RAlt (r1 r2 : regex)
| RStar (greedy : bool) (r : regex)
| RGroup (r : regex)
| RBegin          (** [^] without the multiline flag *)
| RWordB.         (** [\b] *)

(** The state of a match: the character before the position, the input from the
    position on, and the last capture of the group. *)
Record St := MkSt { prev : option ascii; rest : text; capture : option text }.

Definition advance (c : ascii) (l : text) (s : St) : St := MkSt (Some c) l (capture s).
Definition set_capture (o : option text) (s : St) : St := MkSt (prev s) (rest s) o.

Definition is_word_char (c : ascii) : bool :=
  let n := nat_of_ascii c in
  ((48 <=? n) && (n <=? 57)) || ((65 <=? n) && (n <=? 90)) || ((97 <=? n) && (n <=? 122)) || (n =? 95).

(** [\s] *)
Definition is_space (c : ascii) : bool :=
  let n := nat_of_ascii c in ((9 <=? n) && (n <=? 13)) || (n =? 32) || (n =? 160).

Definition opt_word (o : option ascii) : bool :=
  match o with Some c => is_word_char c | None => false end.

Definition at_word_boundary (s : St) : bool :=
  xorb (opt_word (prev s)) (opt_word (head (rest s))).

Definition lower (c : ascii) : ascii :=
  let n := nat_of_ascii c in if (65 <=? n) && (n <=? 90) then ascii_of_nat (n + 32) else c.

(** The input consumed from [s] to [s']. *)
Definition consumed (s s' : St) : text := take (length (rest s) - length (rest s')) (rest s).

Section Matcher.
Context {R : Type}.

(** The iterations of a body [m]: tried before the continuation if greedy. *)
Fixpoint star_loop (greedy : bool) (m : (St -> option R) -> St -> option R) (k : St -> option R)
    (n : nat) (s : St) : option R :=
  match n with
  | O => None
  | S n' =>
      let again := m (fun s' =>
        if length (rest s') =? length (rest s) then None else star_loop greedy m k n' s') s in
      if greedy then match again with Some x => Some x | None => k s end
      else match k s with Some x => Some x | None => again end
  end.

Fixpoint match_re (r : regex) (k : St -> option R) (s : St) : option R :=
  match r with
  | REmpty => k s
  | RChar p =>
      match rest s with
      | c :: l => if p c then k (advance c l s) else None
      | [] => None
      end
  | RSeq r1 r2 => match_re r1 (match_re r2 k) s
  | RAlt r1 r2 =>
      match match_re r1 k s with Some x => Some x | None => match_re r2 k s end
  | RStar greedy r1 =>
      star_loop greedy (match_re r1) k (S (length (rest s))) s
  | RGroup r1 => match_re r1 (fun s' => k (set_capture (Some (consumed s s')) s')) s
  | RBegin => match prev s with None => k s | Some _ => None end
  | RWordB => if at_word_boundary s then k s else None
  end.
End Matcher.

(** ** Declarative semantics *)

Inductive Matches : regex -> St -> St -> Prop :=
| M_empty s : Matches REmpty s s
| M_char p c l s : rest s = c :: l -> p c = true -> Matches (RChar p) s (advance c l s)
| M_seq r1 r2 s s1 s2 : Matches r1 s s1 -> Matches r2 s1 s2 -> Matches (RSeq r1 r2) s s2
| M_left r1 r2 s s' : Matches r1 s s' -> Matches (RAlt r1 r2) s s'
| M_right r1 r2 s s' : Matches r2 s s' -> Matches (RAlt r1 r2) s s'
| M_stop g r s : Matches (RStar g r) s s
| M_again g r s s1 s2 :
    Matches r s s1 -> length (rest s1) <> length (rest s) -> Matches (RStar g r) s1 s2 ->
    Matches (RStar g r) s s2
| M_group r s s' : Matches r s s' -> Matches (RGroup r) s (set_capture (Some (consumed s s')) s')
| M_begin s : prev s = None -> Matches RBegin s s
| M_wordb s : at_word_boundary s = true -> Matches RWordB s s.

(** A match never gives input back. *)
Lemma Matches_length r s s' : Matches r s s' -> length (rest s') <= length (rest s).
Proof.
  induction 1; cbn in *; try lia. rewrite H. cbn. lia.
Qed.

Section Correctness.
Context {R : Type}.
Implicit Types (k : St -> option R).

(** [m] finds a success of its continuation iff there is one after a match. *)
Definition finds (r : regex) : Prop :=
  forall k s, match match_re r k s with
              | Some x => exists s', Matches r s s' /\ k s' = Some x
              | None => forall s', Matches r s s' -> k s' = None
              end.

Lemma star_finds greedy r : finds r -> finds (RStar greedy r).
Proof.
  intros Hr k s. cbn [match_re].
  assert (forall n s, length (rest s) < n ->
    match star_loop greedy (match_re r) k n s with
    | Some x => exists s', Matches (RStar greedy r) s s' /\ k s' = Some x
    | None => forall s', Matches (RStar greedy r) s s' -> k s' = None
    end) as Hloop; [|apply Hloop; lia]. clear s.
  induction n as [|n IH]; intros s Hn; [lia|]. cbn.
  set (k' := fun s' => if length (rest s') =? length (rest s) then None
                       else star_loop greedy (match_re r) k n s').
  assert (forall x, match_re r k' s = Some x ->
    exists s', Matches (RStar greedy r) s s' /\ k s' = Some x) as Hsound.
  { intros x E. specialize (Hr k' s). rewrite E in Hr. destruct Hr as (s1 & H1 & H2).
    unfold k' in H2. destruct (Nat.eqb_spec (length (rest s1)) (length (rest s))) as [|Hne]; [done|].
    pose proof (Matches_length _ _ _ H1). specialize (IH s1 ltac:(lia)). rewrite H2 in IH.
    destruct IH as (s' & H3 & H4). exists s'. split; [by eapply M_again|done]. }
  assert (match_re r k' s = None -> k s = None ->
    forall s', Matches (RStar greedy r) s s' -> k s' = None) as Hcomplete.
  { intros E Ek s' Hm. specialize (Hr k' s). rewrite E in Hr.
    inversion Hm as [| | | | |? ? ?|? ? ? s1 ? H1 H2 H3| | |]; subst; [done|].
    specialize (Hr s1 H1). unfold k' in Hr.
    destruct (Nat.eqb_spec (length (rest s1)) (length (rest s))); [done|].
    pose proof (Matches_length _ _ _ H1). specialize (IH s1 ltac:(lia)). rewrite Hr in IH. by apply IH. }
  destruct greedy.
  - destruct (match_re r k' s) as [x|] eqn:E; [by apply Hsound|].
    destruct (k s) as [x|] eqn:Ek; [exists s; split; [constructor|done]|by apply Hcomplete].
  - destruct (k s) as [x|] eqn:Ek; [exists s; split; [constructor|done]|].
    destruct (match_re r k' s) as [x|] eqn:E; [by apply Hsound|by apply Hcomplete].
Qed.

Lemma match_re_finds r : finds r.
Proof.
  induction r as [|p|r1 IH1 r2 IH2|r1 IH1 r2 IH2|g r IH|r IH| |]; [..|by apply star_finds| | |]; intros k s; cbn.
  - destruct (k s) eqn:E; [exists s; by split; [constructor|]|]. intros s' Hm. by inversion Hm; subst.
  - destruct (rest s) as [|c l] eqn:E; [intros s' Hm; inversion Hm; congruence|].
    destruct (p c) eqn:Hp; [|intros s' Hm; inversion Hm; congruence].
    destruct (k _) eqn:Ek; [eexists; split; [by econstructor|done]|].
    intros s' Hm. inversion Hm as [|? c' l' ? Hc| | | | | | | |]; subst. rewrite E in Hc. by injection Hc as <- <-.
  - specialize (IH1 (match_re r2 k) s). destruct (match_re r1 _ s) as [x|].
    + destruct IH1 as (s1 & H1 & H2). specialize (IH2 k s1). rewrite H2 in IH2.
      destruct IH2 as (s2 & H3 & H4). exists s2. split; [by econstructor|done].
    + intros s' Hm. inversion Hm as [| |? ? ? s1 ? H1 H2| | | | | | |]; subst.
      specialize (IH1 s1 H1). specialize (IH2 k s1). rewrite IH1 in IH2. by apply IH2.
  - specialize (IH1 k s). destruct (match_re r1 k s) as [x|].
    + destruct IH1 as (s1 & H1 & H2). exists s1. split; [by constructor|done].
    + specialize (IH2 k s). destruct (match_re r2 k s) as [x|].
      * destruct IH2 as (s1 & H1 & H2). exists s1. split; [by apply M_right|done].
      * intros s' Hm. inversion Hm; subst; auto.
  - specialize (IH (fun s' => k (set_capture (Some (consumed s s')) s')) s).
    destruct (match_re r _ s) as [x|].
    + destruct IH as (s1 & H1 & H2). eexists. split; [by constructor|done].
    + intros s' Hm. inversion Hm; subst. by apply IH.
  - destruct (prev s) eqn:E; [intros s' Hm; inversion Hm; congruence|].
    destruct (k s) eqn:Ek; [exists s; by split; [constructor|]|]. intros s' Hm. by inversion Hm; subst.
  - destruct (at_word_boundary s) eqn:E; [|intros s' Hm; inversion Hm; congruence].
    destruct (k s) eqn:Ek; [exists s; by split; [constructor|]|]. intros s' Hm. by inversion Hm; subst.
Qed.
End Correctness.

(** ** Searching *)

(** The leftmost match from a position on: its start and its end. *)
Fixpoint search (r : regex) (p : option ascii) (l : text) : option (St * St) :=
  match match_re r Some (MkSt p l None) with
  | Some e => Some (MkSt p l None, e)
  | None => match l with [] => None | c :: l' => search r (Some c) l' end
  end.

(** [matchAll] of a global pattern; an empty match moves on by one. *)
Fixpoint match_all (n : nat) (r : regex) (p : option ascii) (l : text) : list (St * St) :=
  match n with
  | O => []
  | S n' =>
      match search r p l with
      | None => []
      | Some (s, e) =>
          (s, e) ::
          if length (rest e) <? length (rest s) then match_all n' r (prev e) (rest e)
          else match rest e with [] => [] | c :: l' => match_all n' r (Some c) l' end
      end
  end.

Definition regex_test (r : regex) (l : text) : bool := bool_decide (is_Some (search r None l)).

(** *** Notation of patterns *)

Definition chr (c : ascii) : regex := RChar (fun d => bool_decide (c = d)).
Fixpoint lit (l : text) : regex :=
  match l with [] => REmpty | c :: l' => RSeq (chr c) (lit l') end.
(** A lower-case letter under the [i] flag. *)
Definition chr_i (c : ascii) : regex :=
  RChar (fun d => bool_decide (c = d) || bool_decide (nat_of_ascii d + 32 = nat_of_ascii c)).
Fixpoint lit_i (l : text) : regex :=
  match l with [] => REmpty | c :: l' => RSeq (chr_i c) (lit_i l') end.
Definition ropt (r : regex) : regex := RAlt r REmpty.
Definition rplus (r : regex) : regex := RSeq r (RStar true r).
Definition space : regex := RChar is_space.
Definition not_space : regex := RChar (fun c => negb (is_space c)).
Definition any_char : regex := RChar (fun _ => true).
Definition newline : ascii := "010"%char.
Definition not_newline : regex := RChar (fun c => negb (bool_decide (newline = c))).
Definition quote : ascii := "'"%char.
Definition chars (s : string) : text := String.list_ascii_of_string s.

(** [/'(opfs:\/\/\S*?)'/g] *)
Definition REGEX_OPFS_FILE : regex :=
  RSeq (chr quote) (RSeq (RGroup (RSeq (lit (chars "opfs://")) (RStar false not_space))) (chr quote)).

(** [/(opfs:\/\/\S*?)/g] *)
Definition REGEX_OPFS_PROTOCOL : regex :=
  RGroup (RSeq (lit (chars "opfs://")) (RStar false not_space)).

Definition isOPFSProtocol (path : text) : bool :=
  bool_decide (is_Some (search REGEX_OPFS_PROTOCOL None path)).

Definition searchOPFSFiles (t : text) : list text :=
  map (fun '(_, e) => default [] (capture e)) (match_all (S (length t)) REGEX_OPFS_FILE None t).

Definition line_comment : regex :=
  RSeq (lit (chars "--")) (RSeq (RStar true not_newline) (RSeq (chr newline) (RStar true space))).
Definition block_comment : regex :=
  RSeq (lit (chars "/*")) (RSeq (RStar false any_char) (RSeq (lit (chars "*/")) (RStar true space))).
Definition comments : regex := RStar true (RAlt line_comment block_comment).
Definition force : regex := ropt (RSeq (lit_i (chars "force")) (rplus space)).
Definition load_keyword : regex := RAlt (lit_i (chars "install")) (lit_i (chars "load")).

(** Leading white space and comments, an optional [force], [install] or [load],
    and a word boundary. *)
Definition EXTENSION_LOAD_RE : regex :=
  RSeq RBegin (RSeq (RStar true space) (RSeq comments (RSeq force (RSeq load_keyword RWordB)))).

Definition is_extension_load (t : text) : bool := regex_test EXTENSION_LOAD_RE t.

Example opfs_two :
  map String.string_of_list_ascii
    (searchOPFSFiles (chars "COPY 'opfs://a.csv' TO 'opfs://b''opfs://c d' 'x'"))
  = ["opfs://a.csv"; "opfs://b"]%string.
Proof. vm_compute. reflexivity. Qed.

Example load_examples :
  map (fun s => is_extension_load (chars s))
    ["LOAD x"; String.append " -- c" (String.String newline "/* */ force  Install x"); "loader"; "SELECT load"; "force"]%string
  = [true; true; false; false; false].
Proof. vm_compute. reflexivity. Qed.

(** ** Words: the patterns without anchors and groups *)

Inductive lang : regex -> text -> Prop :=
| L_empty : lang REmpty []
| L_char p c : p c = true -> lang (RChar p) [c]
| L_seq r1 r2 w1 w2 : lang r1 w1 -> lang r2 w2 -> lang (RSeq r1 r2) (w1 ++ w2)
| L_left r1 r2 w : lang r1 w -> lang (RAlt r1 r2) w
| L_right r1 r2 w : lang r2 w -> lang (RAlt r1 r2) w
| L_stop g r : lang (RStar g r) []
| L_again g r w1 w2 : lang r w1 -> w1 <> [] -> lang (RStar g r) w2 -> lang (RStar g r) (w1 ++ w2).

Fixpoint plain (r : regex) : bool :=
  match r with
  | REmpty | RChar _ => true
  | RSeq r1 r2 | RAlt r1 r2 => plain r1 && plain r2
  | RStar _ r => plain r
  | RGroup _ | RBegin | RWordB => false
  end.

(** The state after reading [w]. *)
Definition after (w : text) (s : St) (l : text) : St :=
  MkSt (match last w with Some c => Some c | None => prev s end) l (capture s).

Lemma after_nil s l : rest s = l -> after [] s l = s.
Proof. intros <-. by destruct s. Qed.

Lemma after_app w1 w2 s l1 l2 : after w2 (after w1 s l1) l2 = after (w1 ++ w2) s l2.
Proof. unfold after. cbn. rewrite last_app. by destruct (last w2). Qed.

Lemma Matches_plain r s s' :
  plain r = true -> Matches r s s' ->
  exists w, lang r w /\ rest s = w ++ rest s' /\ s' = after w s (rest s').
Proof.
  intros Hp Hm. induction Hm as [s|p c l s H1 H2|r1 r2 s s1 s2 _ IH1 _ IH2|r1 r2 s s' _ IH
    |r1 r2 s s' _ IH|g r s|g r s s1 s2 _ IH1 Hl _ IH2| | |]; cbn in Hp; try done.
  - exists []. split; [constructor|]. by rewrite after_nil.
  - exists [c]. by split; [constructor|].
  - apply andb_true_iff in Hp as [Hp1 Hp2].
    destruct (IH1 Hp1) as (w1 & L1 & E1 & F1), (IH2 Hp2) as (w2 & L2 & E2 & F2).
    exists (w1 ++ w2). split; [by constructor|]. split; [by rewrite E1, E2, app_assoc|].
    rewrite F2 at 1. rewrite F1. apply after_app.
  - apply andb_true_iff in Hp as [Hp1 Hp2]. destruct (IH Hp1) as (w & L & E). exists w. by split; [apply L_left|].
  - apply andb_true_iff in Hp as [Hp1 Hp2]. destruct (IH Hp2) as (w & L & E). exists w. by split; [apply L_right|].
  - exists []. split; [constructor|]. by rewrite after_nil.
  - destruct (IH1 Hp) as (w1 & L1 & E1 & F1), (IH2 Hp) as (w2 & L2 & E2 & F2).
    exists (w1 ++ w2). split; [constructor; try done; intros ->; by rewrite E1 in Hl|].
    split; [by rewrite E1, E2, app_assoc|]. rewrite F2 at 1. rewrite F1. apply after_app.
Qed.

Lemma plain_Matches r w s l : lang r w -> rest s = w ++ l -> Matches r s (after w s l).
Proof.
  intros Hl. revert s l. induction Hl as [|p c H|r1 r2 w1 w2 _ IH1 _ IH2|r1 r2 w _ IH|r1 r2 w _ IH
    |g r|g r w1 w2 _ IH1 Hne _ IH2]; intros s l E.
  - rewrite after_nil by done. constructor.
  - by apply (M_char p c l s).
  - rewrite <- app_assoc in E. rewrite <- (after_app w1 w2 s (w2 ++ l)). econstructor; [by apply IH1|by apply IH2].
  - by apply M_left, IH.
  - by apply M_right, IH.
  - rewrite after_nil by done. constructor.
  - rewrite <- app_assoc in E. rewrite <- (after_app w1 w2 s (w2 ++ l)). eapply M_again; [by apply IH1| |by apply IH2].
    rewrite E. cbn. rewrite !length_app. destruct w1; cbn; [done|lia].
Qed.

(** *** The words of the building blocks *)

Lemma lang_chr c w : lang (chr c) w <-> w = [c].
Proof.
  split; [|intros ->; constructor; by apply bool_decide_eq_true].
  intros H. inversion H as [|? d Hd| | | | |]; subst. apply bool_decide_eq_true in Hd. by subst.
Qed.

Lemma lang_seq r1 r2 w : lang (RSeq r1 r2) w <-> exists w1 w2, w = w1 ++ w2 /\ lang r1 w1 /\ lang r2 w2.
Proof.
  split; [|intros (w1 & w2 & -> & H1 & H2); by constructor].
  intros H. inversion H; subst. eauto.
Qed.

Lemma lang_lit l w : lang (lit l) w <-> w = l.
Proof.
  revert w. induction l as [|c l IH]; intros w; cbn.
  - split; [|intros ->; constructor]. intros H. by inversion H.
  - rewrite lang_seq. setoid_rewrite lang_chr. setoid_rewrite IH.
    split; [by intros (? & ? & -> & -> & ->)|intros ->]. by exists [c], l.
Qed.

Lemma lang_star_char g p w : lang (RStar g (RChar p)) w <-> forallb p w = true.
Proof.
  split.
  - intros H. remember (RStar g (RChar p)) as r eqn:E.
    induction H as [| | | | | |g' r' w1 w2 H1 _ _ _ IH]; simplify_eq/=; [done|].
    inversion H1; subst. cbn. rewrite H0. by apply IH.
  - induction w as [|c w IH]; cbn; intros H; [constructor|].
    apply andb_true_iff in H as [Hc Hw]. apply (L_again g (RChar p) [c] w); [by constructor|done|by apply IH].
Qed.

Lemma lang_plus_char p w :
  lang (rplus (RChar p)) w <-> w <> [] /\ forallb p w = true.
Proof.
  unfold rplus. rewrite lang_seq. setoid_rewrite lang_star_char. split.
  - intros (w1 & w2 & -> & H1 & H2). inversion H1 as [|? c Hc| | | | |]; subst. cbn. by rewrite Hc.
  - destruct w as [|c w]; cbn; [by intros []|]. intros [_ [Hc Hw]%andb_true_iff].
    exists [c], w. by split; [|split; [constructor|]].
Qed.

Lemma lang_alt r1 r2 w : lang (RAlt r1 r2) w <-> lang r1 w \/ lang r2 w.
Proof. split; [intros H; inversion H; auto|intros [|]; [by apply L_left|by apply L_right]]. Qed.

(** *** What a test decides *)

Lemma search_anchored r p l :
  (forall s s', Matches r s s' -> prev s = None) ->
  is_Some (search r p l) <-> p = None /\ exists s', Matches r (MkSt None l None) s'.
Proof.
  intros Ha.
  assert (forall c l, search r (Some c) l = None) as Hnone.
  { intros c l'. revert c. induction l' as [|d l' IH]; intros c; cbn.
    - pose proof (match_re_finds r Some (MkSt (Some c) [] None)) as H.
      destruct (match_re r Some _) as [e|]; [|done]. destruct H as (s' & H & _). by apply Ha in H.
    - pose proof (match_re_finds r Some (MkSt (Some c) (d :: l') None)) as H.
      destruct (match_re r Some _) as [e|]; [|apply IH]. destruct H as (s' & H & _). by apply Ha in H. }
  pose proof (match_re_finds r Some (MkSt p l None)) as H.
  assert (is_Some (search r p l) <-> is_Some (match_re r Some (MkSt p l None))) as ->.
  { destruct l as [|c l]; cbn; destruct (match_re r Some _); try done; by rewrite Hnone. }
  destruct (match_re r Some _) as [e|].
  - destruct H as (s' & H & _). pose proof (Ha _ _ H) as Hp. cbn in Hp. subst p. split; [eauto|done].
  - split; [by intros [? ?]|]. intros (-> & s' & Hm). by specialize (H s' Hm).
Qed.

(** A script starts with [LOAD] or [INSTALL] in the sense of the pattern: white
    space, comments each followed by white space, an optional [FORCE] with white
    space after it, the keyword, and then no further word character. *)
Definition load_script (t : text) : Prop :=
  exists ws cs f kw tl,
    t = ws ++ cs ++ f ++ kw ++ tl /\ forallb is_space ws = true /\ lang comments cs /\
    lang force f /\ lang load_keyword kw /\ opt_word (head tl) = false.

Lemma force_words f :
  lang force f <-> f = [] \/
    exists w ws, f = w ++ ws /\ lang (lit_i (chars "force")) w /\ ws <> [] /\ forallb is_space ws = true.
Proof.
  unfold force, ropt. rewrite lang_alt, lang_seq. unfold space. setoid_rewrite lang_plus_char. split.
  - intros [(w1 & w2 & -> & H1 & H2 & H3)|H]; [right; eauto 10|left; by inversion H].
  - intros [->|(w & ws & -> & H1 & H2 & H3)]; [right; constructor|left; eauto 10].
Qed.

#[local] Opaque lit.
(** One comment with the white space after it. *)
Lemma comment_words w :
  lang (RAlt line_comment block_comment) w <->
  (exists body ws, w = chars "--" ++ body ++ newline :: ws /\
     forallb (fun c => negb (bool_decide (newline = c))) body = true /\ forallb is_space ws = true) \/
  (exists body ws, w = chars "/*" ++ body ++ chars "*/" ++ ws /\ forallb is_space ws = true).
Proof.
  unfold line_comment, block_comment, not_newline, space, any_char.
  rewrite lang_alt, !lang_seq.
  repeat setoid_rewrite lang_seq. repeat setoid_rewrite lang_lit. repeat setoid_rewrite lang_chr.
  repeat setoid_rewrite lang_star_char. split.
  - intros [(w1 & w2 & -> & -> & b & w3 & -> & Hb & w4 & ws & -> & -> & Hs)|
            (w1 & w2 & -> & -> & b & w3 & -> & Hb & w4 & ws & -> & -> & Hs)].
    + left. exists b, ws. by split.
    + right. exists b, ws. by split.
  - intros [(b & ws & -> & Hb & Hs)|(b & ws & -> & Hs)].
    + left. eexists _, _. split; [done|]. split; [done|]. eexists b, _. split; [done|]. split; [done|].
      by exists [newline], ws.
    + right. eexists _, _. split; [done|]. split; [done|]. eexists b, _. split; [done|].
      split; [by induction b|]. by eexists _, ws.
Qed.

#[local] Transparent lit.

Lemma keyword_last_word kw : lang load_keyword kw -> exists c, last kw = Some c /\ is_word_char c = true.
Proof.
  unfold load_keyword. rewrite lang_alt. cbn [lit_i chars String.list_ascii_of_string].
  intros H0.
  assert (forall r w, lang (RSeq r REmpty) w -> lang r w) as Hnil.
  { intros r w (w1 & w2 & -> & H1 & H2)%lang_seq. inversion H2; subst. by rewrite app_nil_r. }
  assert (forall r1 r2 w, lang (RSeq r1 r2) w -> (forall v, lang r2 v -> exists c, last v = Some c /\ is_word_char c = true) ->
    exists c, last w = Some c /\ is_word_char c = true) as Hlast.
  { intros r1 r2 w (w1 & w2 & -> & H1 & H2)%lang_seq Hv. destruct (Hv _ H2) as (c & Hc & Hw).
    exists c. by rewrite last_app, Hc. }
  assert (forall d w, (d = "l"%char \/ d = "d"%char) -> lang (RSeq (chr_i d) REmpty) w ->
    exists c, last w = Some c /\ is_word_char c = true) as Hend.
  { intros d w Hd Hw%Hnil. inversion Hw as [|? c Hc| | | | |]; subst. exists c. split; [done|].
    apply orb_true_iff in Hc as [Hc|Hc]; apply bool_decide_eq_true in Hc; [destruct Hd as [-> | ->]; by subst|].
    unfold is_word_char. destruct Hd as [-> | ->].
    - change (nat_of_ascii "l") with 108 in Hc. by replace (nat_of_ascii c) with 76 by lia.
    - change (nat_of_ascii "d") with 100 in Hc. by replace (nat_of_ascii c) with 68 by lia. }
  destruct H0 as [Hw|Hw]; [do 6 (eapply Hlast; [exact Hw|clear Hw; intros ? Hw])
                          |do 3 (eapply Hlast; [exact Hw|clear Hw; intros ? Hw])].
  - apply (Hend "l"%char); auto.
  - apply (Hend "d"%char); auto.
Qed.

Lemma Matches_load l s' :
  Matches EXTENSION_LOAD_RE (MkSt None l None) s' ->
  load_script l.
Proof.
  unfold EXTENSION_LOAD_RE. intros Hm.
  inversion Hm as [| |? ? ? s1 ? Hb H1| | | | | | |]; subst. inversion Hb; subst. clear Hm Hb.
  inversion H1 as [| |? ? ? s2 ? Hs H2| | | | | | |]; subst. clear H1.
  inversion H2 as [| |? ? ? s3 ? Hc H3| | | | | | |]; subst. clear H2.
  inversion H3 as [| |? ? ? s4 ? Hf H4| | | | | | |]; subst. clear H3.
  inversion H4 as [| |? ? ? s5 ? Hk H5| | | | | | |]; subst. clear H4.
  inversion H5 as [| | | | | | | | |? Hw]; subst.
  apply Matches_plain in Hs as (ws & Ls & Es & Fs); [|done].
  apply Matches_plain in Hc as (cs & Lc & Ec & Fc); [|done].
  apply Matches_plain in Hf as (f & Lf & Ef & Ff); [|done].
  apply Matches_plain in Hk as (kw & Lk & Ek & Fk); [|done].
  exists ws, cs, f, kw, (rest s'). cbn in Es.
  split; [by rewrite Es, Ec, Ef, Ek|]. unfold space in Ls. rewrite lang_star_char in Ls.
  repeat split; try done.
  apply keyword_last_word in Lk as (c & Hl & Hc). unfold at_word_boundary in Hw.
  rewrite Fk in Hw. cbn in Hw. rewrite Hl in Hw. cbn in Hw. rewrite Hc in Hw.
  by destruct (opt_word _).
Qed.

Lemma load_Matches l : load_script l -> exists s', Matches EXTENSION_LOAD_RE (MkSt None l None) s'.
Proof.
  intros (ws & cs & f & kw & tl & -> & Hs & Hc & Hf & Hk & Ht).
  unfold EXTENSION_LOAD_RE. eexists. eapply M_seq; [by apply M_begin|].
  eapply M_seq; [apply (plain_Matches _ ws); [by apply lang_star_char|reflexivity]|].
  eapply M_seq; [apply (plain_Matches _ cs); [done|reflexivity]|].
  eapply M_seq; [apply (plain_Matches _ f); [done|reflexivity]|].
  eapply M_seq; [apply (plain_Matches _ kw); [done|reflexivity]|].
  apply M_wordb. apply keyword_last_word in Hk as (c & Hl & Hw).
  unfold at_word_boundary. cbn. rewrite Hl. cbn. by rewrite Hw, Ht.
Qed.

Lemma is_extension_load_iff t : is_extension_load t = true <-> load_script t.
Proof.
  unfold is_extension_load, regex_test. rewrite bool_decide_eq_true, search_anchored.
  - split; [intros (_ & s' & Hm); by eapply Matches_load|].
    intros H. split; [done|]. by apply load_Matches.
  - intros s s' Hm. inversion Hm as [| |? ? ? s1 ? Hb _| | | | | | |]; subst. by inversion Hb.
Qed.

(** ** The file names of a script *)

(** The name before the next quote, if no white space comes first, and what
    follows the quote. *)
Fixpoint until_quote (l : text) : option (text * text) :=
  match l with
  | [] => None
  | c :: l' =>
      if bool_decide (quote = c) then Some ([], l')
      else if is_space c then None
      else match until_quote l' with Some (w, t) => Some (c :: w, t) | None => None end
  end.

(** A file name at the start of the text: quoted, with the [opfs://] scheme. *)
Definition opfs_at (l : text) : option (text * text) :=
  match l with
  | c :: l' =>
      if bool_decide (quote = c) && bool_decide (take 7 l' = chars "opfs://")
      then match until_quote (drop 7 l') with Some (w, t) => Some (chars "opfs://" ++ w, t) | None => None end
      else None
  | [] => None
  end.

(** The reference definition of [searchOPFSFiles]: one scan from left to right. *)
Fixpoint scan (n : nat) (l : text) : list text :=
  match n with
  | O => []
  | S n' =>
      match opfs_at l with
      | Some (f, t) => f :: scan n' t
      | None => match l with [] => [] | _ :: l' => scan n' l' end
      end
  end.

Lemma until_quote_shape l w t : until_quote l = Some (w, t) ->
  l = w ++ quote :: t /\ forallb (fun c => negb (is_space c) && negb (bool_decide (quote = c))) w = true.
Proof.
  revert w t. induction l as [|c l IH]; intros w t; cbn; [done|].
  case_bool_decide as Hq; [by intros [= <- <-]; subst|].
  destruct (is_space c) eqn:Hs; [done|]. destruct (until_quote l) as [[w' t']|]; [|done].
  intros [= <- <-]. destruct (IH _ _ eq_refl) as [-> Hw]. split; [done|].
  cbn [forallb]. by rewrite Hs, bool_decide_eq_false_2, Hw by done.
Qed.

Lemma until_quote_complete w t :
  forallb (fun c => negb (is_space c) && negb (bool_decide (quote = c))) w = true ->
  until_quote (w ++ quote :: t) = Some (w, t).
Proof.
  induction w as [|c w IH]; cbn [forallb app until_quote]; [done|].
  intros [[Hs Hq]%andb_true_iff Hw]%andb_true_iff. apply negb_true_iff in Hs, Hq.
  by rewrite Hq, Hs, IH.
Qed.

(** The continuation of the lazy iteration of [REGEX_OPFS_FILE]: close the group
    opened at [s0] and match the closing quote. *)
Definition close_quote (s0 s' : St) : option St :=
  match_re (chr quote) Some (set_capture (Some (consumed s0 s')) s').

Lemma lazy_until s0 n p l cap :
  length l < n ->
  star_loop false (match_re not_space) (close_quote s0) n (MkSt p l cap) =
  match until_quote l with
  | Some (w, t) => Some (MkSt (Some quote) t
                           (Some (take (length (rest s0) - S (length t)) (rest s0))))
  | None => None
  end.
Proof.
  revert p l cap. induction n as [|n IH]; intros p l cap Hn; [lia|].
  cbn [star_loop]. unfold close_quote at 1. destruct l as [|c l]; [done|].
  cbn [until_quote chr match_re set_capture rest].
  case_bool_decide as Hq; [by subst|]. cbn [match_re not_space rest].
  destruct (is_space c); [done|]. cbn [negb advance rest].
  destruct (Nat.eqb_spec (length l) (length (c :: l))) as [E|_]; [cbn in E; lia|].
  cbn in Hn. unfold advance. rewrite IH by lia. by destruct (until_quote l) as [[w t]|].
Qed.

Lemma lit_match {R} w (k : St -> option R) p l cap :
  match_re (lit w) k (MkSt p l cap) =
  if bool_decide (take (length w) l = w) then k (MkSt (match last w with Some c => Some c | None => p end)
                                                  (drop (length w) l) cap) else None.
Proof.
  revert p l. induction w as [|c w IH]; intros p l; cbn [lit match_re length].
  - rewrite take_0, drop_0. done.
  - destruct l as [|d l]; [done|]. cbn [chr match_re rest]. cbn [take drop].
    case_bool_decide as Hc.
    + subst. unfold advance. rewrite IH. cbn [capture].
      assert (bool_decide (d :: take (length w) l = d :: w) = bool_decide (take (length w) l = w)) as ->.
      { apply bool_decide_ext. split; [by intros [= ?]|by intros ->]. }
      case_bool_decide; [|done]. rewrite last_cons. by destruct (last w).
    + rewrite bool_decide_eq_false_2; [done|]. intros [= ?]. congruence.
Qed.

(** One attempt of the pattern at a position. *)
Lemma opfs_attempt p l :
  match match_re REGEX_OPFS_FILE Some (MkSt p l None) with
  | Some e => exists f, opfs_at l = Some (f, rest e) /\ capture e = Some f
  | None => opfs_at l = None
  end.
Proof.
  unfold opfs_at. destruct l as [|c l]; [done|].
  assert (match_re REGEX_OPFS_FILE Some (MkSt p (c :: l) None) =
    if bool_decide (quote = c) then
      match_re (lit (chars "opfs://"))
        (fun s => star_loop false (match_re not_space) (close_quote (MkSt (Some c) l None))
                    (S (length (rest s))) s) (MkSt (Some c) l None)
    else None) as -> by reflexivity.
  case_bool_decide as Hc; [|done]. subst c. rewrite lit_match.
  change (length (chars "opfs://")) with 7.
  cbn [andb]. case_bool_decide as Hl; [|done].
  change (match last (chars "opfs://") with Some c => Some c | None => Some quote end) with (Some "/"%char).
  rewrite lazy_until by (cbn [rest]; lia).
  destruct (until_quote (drop 7 l)) as [[w t]|] eqn:E; [|done].
  exists (chars "opfs://" ++ w). split; [done|]. cbn [rest capture]. f_equal.
  apply until_quote_shape in E as [E _].
  assert (l = (chars "opfs://" ++ w) ++ quote :: t) as ->.
  { rewrite <- (take_drop 7 l), Hl, E. by rewrite app_assoc. }
  rewrite take_app_le by (rewrite !length_app; cbn; lia).
  apply take_ge. rewrite !length_app. cbn. lia.
Qed.

Lemma opfs_at_shorter l f t : opfs_at l = Some (f, t) -> length t < length l.
Proof.
  unfold opfs_at. destruct l as [|c l]; [done|]. destruct (_ && _); [|done].
  destruct (until_quote (drop 7 l)) as [[w u]|] eqn:E; [|done]. intros [= _ <-].
  apply until_quote_shape in E as [E _]. apply (f_equal length) in E.
  rewrite length_drop, length_app in E. cbn in *. lia.
Qed.

(** [search] skips the positions where no name starts. *)
Lemma search_scan n p l :
  length l < n ->
  match search REGEX_OPFS_FILE p l with
  | Some (s, e) => exists f, capture e = Some f /\ scan n l = f :: scan (n - (length l - length (rest s)) - 1) (rest e) /\
      length (rest e) < length (rest s) <= length l
  | None => scan n l = []
  end.
Proof.
  revert n p. induction l as [|c l IH]; intros n p Hn; (destruct n as [|n]; [lia|]); cbn [search scan];
    [|pose proof (opfs_attempt p (c :: l)) as Ha].
  - pose proof (opfs_attempt p []) as Ha. destruct (match_re _ _ _) as [e|]; [|done].
    by destruct Ha as (f & Hf & _).
  - destruct (match_re _ _ _) as [e|].
    + destruct Ha as (f & Hf & Hc). exists f. split; [done|]. cbn [rest].
      split; [rewrite Hf; do 2 f_equal; lia|]. apply opfs_at_shorter in Hf. lia.
    + rewrite Ha. cbn in Hn. specialize (IH n (Some c) ltac:(lia)).
      destruct (search REGEX_OPFS_FILE (Some c) l) as [[s e]|]; [|done].
      destruct IH as (f & H1 & H2 & H3). exists f. split; [done|]. cbn [length]. split; [|lia].
      rewrite H2. do 2 f_equal. lia.
Qed.

Lemma scan_fuel n m l : length l < n -> length l < m -> scan n l = scan m l.
Proof.
  revert m l. induction n as [|n IH]; intros m l Hn Hm; [lia|]. destruct m as [|m]; [lia|]. cbn.
  destruct (opfs_at l) as [[f t]|] eqn:E.
  - apply opfs_at_shorter in E. f_equal. apply IH; lia.
  - destruct l as [|c l]; [done|]. cbn in *. apply IH; lia.
Qed.

Lemma searchOPFSFiles_scan t : searchOPFSFiles t = scan (S (length t)) t.
Proof.
  unfold searchOPFSFiles.
  assert (forall n p l, length l < n ->
    map (fun '(_, e) => default [] (capture e)) (match_all n REGEX_OPFS_FILE p l) = scan (S (length l)) l)
    as H; [|apply H; lia].
  induction n as [|n IH]; intros p l Hn; [lia|]. cbn [match_all].
  pose proof (search_scan (S (length l)) p l ltac:(lia)) as Hs.
  destruct (search REGEX_OPFS_FILE p l) as [[s e]|]; [|done].
  destruct Hs as (f & Hc & -> & Hl). cbn [map]. rewrite Hc. cbn [default].
  destruct (Nat.ltb_spec (length (rest e)) (length (rest s))); [|lia].
  rewrite IH by lia. f_equal. apply scan_fuel; lia.
Qed.

Definition no_quote (l : text) : bool := forallb (fun c => negb (bool_decide (quote = c))) l.
Definition name_chars (w : text) : bool :=
  forallb (fun c => negb (is_space c) && negb (bool_decide (quote = c))) w.

Lemma opfs_at_sound l f t : opfs_at l = Some (f, t) ->
  exists w, f = chars "opfs://" ++ w /\ name_chars w = true /\ l = quote :: f ++ quote :: t.
Proof.
  unfold opfs_at. destruct l as [|c l]; [done|].
  destruct (bool_decide (quote = c)) eqn:Hc; [|done]. apply bool_decide_eq_true in Hc as <-. cbn [andb].
  case_bool_decide as Hl; [|done]. destruct (until_quote (drop 7 l)) as [[w u]|] eqn:E; [|done].
  intros [= <- <-]. apply until_quote_shape in E as [E Hw]. exists w. split; [done|]. split; [done|].
  f_equal. by rewrite <- (take_drop 7 l) at 1; rewrite Hl, E, app_assoc.
Qed.

Lemma opfs_at_complete w t :
  name_chars w = true -> opfs_at (quote :: (chars "opfs://" ++ w) ++ quote :: t) = Some (chars "opfs://" ++ w, t).
Proof.
  intros Hw. unfold opfs_at. rewrite bool_decide_eq_true_2 by done. cbn [andb].
  rewrite <- app_assoc. rewrite take_app_le by (cbn; lia). rewrite take_ge by (cbn; lia).
  rewrite bool_decide_eq_true_2 by done. rewrite drop_app_le by (cbn; lia).
  rewrite drop_ge by (cbn; lia). cbn [app]. by rewrite until_quote_complete.
Qed.

Lemma scan_sound n l f : f ∈ scan n l ->
  exists a w b, f = chars "opfs://" ++ w /\ name_chars w = true /\ l = a ++ quote :: f ++ quote :: b.
Proof.
  revert l. induction n as [|n IH]; intros l; cbn; [by intros ?%not_elem_of_nil|].
  destruct (opfs_at l) as [[g t]|] eqn:E.
  - apply opfs_at_sound in E as (w & -> & Hw & ->). intros [->|Hin]%elem_of_cons.
    + by exists [], w, t.
    + destruct (IH t Hin) as (a & v & b & Hf & Hv & ->).
      exists (quote :: (chars "opfs://" ++ w) ++ quote :: a), v, b. split; [done|]. split; [done|].
      cbn. by rewrite <- !app_assoc.
  - destruct l as [|c l]; [by intros ?%not_elem_of_nil|]. intros Hin.
    destruct (IH l Hin) as (a & v & b & Hf & Hv & ->). by exists (c :: a), v, b.
Qed.

Lemma scan_skip sep l n :
  no_quote sep = true -> length (sep ++ l) < n -> scan n (sep ++ l) = scan (n - length sep) l.
Proof.
  revert n. induction sep as [|c sep IH]; intros n Hs Hn; [by rewrite Nat.sub_0_r|].
  unfold no_quote in Hs. cbn [forallb app] in *. apply andb_true_iff in Hs as [Hc Hs].
  apply negb_true_iff in Hc. destruct n as [|n]; [cbn in Hn; lia|]. cbn [scan app].
  unfold opfs_at. rewrite Hc. cbn in Hn. cbn [andb]. rewrite IH by (done || lia). done.
Qed.

(** A script: text before each quoted name, and text after the last one. *)
Fixpoint quoted_script (ps : list (text * text)) (tail : text) : text :=
  match ps with
  | [] => tail
  | (sep, w) :: ps' => sep ++ quote :: (chars "opfs://" ++ w) ++ quote :: quoted_script ps' tail
  end.

Lemma scan_quoted ps tail n :
  Forall (fun q => no_quote q.1 = true /\ name_chars q.2 = true) ps -> no_quote tail = true ->
  length (quoted_script ps tail) < n ->
  scan n (quoted_script ps tail) = map (fun q => chars "opfs://" ++ q.2) ps.
Proof.
  intros Hps Ht. revert n. induction Hps as [|[sep w] ps [Hs Hw] _ IH]; intros n Hn.
  - rewrite <- (app_nil_r (quoted_script [] tail)). rewrite scan_skip; [|done|by rewrite app_nil_r].
    destruct (n - _); done.
  - cbn [quoted_script map] in *. rewrite scan_skip by done.
    rewrite length_app in Hn. destruct (n - length sep) as [|m] eqn:Em; [lia|]. cbn [scan].
    cbn [snd] in Hw. rewrite (opfs_at_complete w _ Hw). cbn [snd]. f_equal. apply IH.
    cbn [length] in Hn. rewrite length_app in Hn. cbn in Hn. lia.
Qed.

(** C16: [searchOPFSFiles] computes what one scan from left to right does, for any
    text: the pattern's lazy iteration never has to give input back.  So every
    name it returns stands in the text between quotes, starts with [opfs://] and
    has no white space or quote in it; and from a script that quotes such names,
    with no quote elsewhere, it returns exactly those names in their order. *)
Theorem searchOPFSFiles_finds_the_quoted_names t :
  searchOPFSFiles t = scan (S (length t)) t /\
  (forall f, f ∈ searchOPFSFiles t -> exists a w b,
     f = chars "opfs://" ++ w /\ name_chars w = true /\ t = a ++ quote :: f ++ quote :: b) /\
  (forall ps tail,
     t = quoted_script ps tail -> no_quote tail = true ->
     Forall (fun q => no_quote q.1 = true /\ name_chars q.2 = true) ps ->
     searchOPFSFiles t = map (fun q => chars "opfs://" ++ q.2) ps).
Proof.
  rewrite searchOPFSFiles_scan. split; [done|]. split; [intros f; apply scan_sound|].
  intros ps tail -> Ht Hps. apply scan_quoted; try done. lia.
Qed.

Lemma searchOPFSFiles_finds_the_quoted_names_witness :
  searchOPFSFiles (chars "COPY t TO 'opfs://a.csv' ;") = [chars "opfs://a.csv"].
Proof.
  refine (proj2 (proj2 (searchOPFSFiles_finds_the_quoted_names (chars "COPY t TO 'opfs://a.csv' ;")))
    [(chars "COPY t TO ", chars "a.csv")] (chars " ;") _ _ _);
    [reflexivity|reflexivity|repeat constructor].
Defined.
