(* ===== verification/ExtensionLoads.v ===== *)
(** * ExtensionLoads: the scripts that are run as extension loads

    [EXTENSION_LOAD_RE] ([bindings_base.ts]) against a reader of scripts that knows
    nothing of the pattern: it skips white space and comments, each up to its own
    end, and looks at the first words. *)
From S2P Require Import Prelude Regex.
From stdpp Require Import base tactics list sets strings.
From Stdlib Require Import Ascii Lia.
Open Scope list_scope.

(** ** The reader *)

(** The longest prefix of characters of a kind, and what follows it. *)
Fixpoint span (p : ascii -> bool) (l : text) : text * text :=
  match l with
  | [] => ([], [])
  | c :: l' => if p c then let '(w, t) := span p l' in (c :: w, t) else ([], l)
  end.

(** What follows the end of the line, and what follows the first [*/]. *)
Fixpoint after_newline (l : text) : text :=
  match l with [] => [] | c :: l' => if bool_decide (newline = c) then l' else after_newline l' end.
Fixpoint after_close (l : text) : text :=
  match l with
  | [] => []
  | c :: l' => if bool_decide (take 2 l = chars "*/") then drop 1 l' else after_close l'
  end.

(** What is left of a script after white space and comments; a comment without an
    end takes the rest of it. *)
Fixpoint skip (n : nat) (l : text) : text :=
  match n, l with
  | S n', c :: l' =>
      if is_space c then skip n' l'
      else if bool_decide (take 2 l = chars "--") then skip n' (after_newline (drop 2 l))
      else if bool_decide (take 2 l = chars "/*") then skip n' (after_close (drop 2 l))
      else l
  | _, _ => l
  end.

Inductive LoadKind := K_load | K_install | K_force_install | K_force_load.

Definition word_kind (w : text) : option LoadKind :=
  if bool_decide (map lower w = chars "load") then Some K_load
  else if bool_decide (map lower w = chars "install") then Some K_install
  else None.
Definition forced (k : LoadKind) : LoadKind :=
  match k with K_load => K_force_load | K_install => K_force_install | _ => k end.

(** The first word, or the second one after [FORCE]. *)
Definition first_words (l : text) : option LoadKind :=
  let '(w, t) := span is_word_char l in
  if bool_decide (map lower w = chars "force")
  then let '(_, t') := span is_space t in forced <$> word_kind (span is_word_char t').1
  else word_kind w.

(** The statement that a script starts with, where it is one of an extension. *)
Definition statement (t : text) : option LoadKind := first_words (skip (length t) t).

(** White space and line comments. *)
Inductive blank : text -> Prop :=
| B_nil : blank []
| B_space c l : is_space c = true -> blank l -> blank (c :: l)
| B_line body l : forallb (fun c => negb (bool_decide (newline = c))) body = true -> blank l ->
    blank (chars "--" ++ body ++ newline :: l).

(** ** Letters and words *)

Definition is_lower (c : ascii) : bool :=
  let n := nat_of_ascii c in (97 <=? n) && (n <=? 122).

Lemma chr_i_lower c d : is_lower c = true ->
  (bool_decide (c = d) || bool_decide (nat_of_ascii d + 32 = nat_of_ascii c)) = bool_decide (lower d = c).
Proof.
  unfold is_lower, lower. intros [H1%Nat.leb_le H2%Nat.leb_le]%andb_true_iff.
  apply eq_true_iff_eq. rewrite orb_true_iff, !bool_decide_eq_true.
  destruct ((65 <=? nat_of_ascii d) && (nat_of_ascii d <=? 90)) eqn:E.
  - apply andb_true_iff in E as [E1%Nat.leb_le E2%Nat.leb_le]. split.
    + intros [->|E]; [lia|]. by rewrite E, ascii_nat_embedding.
    + intros <-. right. rewrite nat_ascii_embedding; lia.
  - split; [intros [->|He]; [done|]|by left].
    apply andb_false_iff in E as [E%Nat.leb_gt|E%Nat.leb_gt]; lia.
Qed.

Lemma lang_lit_i l w : forallb is_lower l = true -> lang (lit_i l) w <-> map lower w = l.
Proof.
  revert w. induction l as [|c l IH]; intros w Hl; cbn.
  - split; [intros H; by inversion H|]. destruct w; [constructor|done].
  - cbn in Hl. apply andb_true_iff in Hl as [Hc Hl]. rewrite lang_seq. split.
    + intros (w1 & w2 & -> & H1 & H2). inversion H1 as [|? d Hd| | | | |]; subst. cbn in Hd.
      rewrite (chr_i_lower c d Hc), bool_decide_eq_true in Hd. cbn. by rewrite Hd, (proj1 (IH w2 Hl) H2).
    + destruct w as [|d w]; cbn; [done|]. intros [= Hd Hw]. exists [d], w. split; [done|].
      split; [|by apply IH]. constructor. by rewrite (chr_i_lower c d Hc), bool_decide_eq_true.
Qed.

Lemma lower_word_char c : is_lower (lower c) = true -> is_word_char c = true.
Proof.
  unfold is_lower, lower, is_word_char. cbv zeta.
  destruct ((65 <=? nat_of_ascii c) && (nat_of_ascii c <=? 90)) eqn:E.
  - intros _. by rewrite !orb_true_r.
  - intros ->. by rewrite !orb_true_r.
Qed.

Lemma lower_word l w : forallb is_lower l = true -> map lower w = l -> forallb is_word_char w = true.
Proof.
  revert w. induction l as [|c l IH]; intros [|d w] Hl Hw; try done.
  cbn in *. apply andb_true_iff in Hl as [Hc Hl]. injection Hw as <- Hw.
  rewrite (lower_word_char d Hc). by apply IH.
Qed.

Lemma word_not_space c : is_word_char c = true -> is_space c = false.
Proof. destruct c as [[] [] [] [] [] [] [] []]; vm_compute; congruence. Qed.

Definition starts_as (p : ascii -> bool) (l : text) : bool := match l with c :: _ => p c | [] => false end.

Lemma span_app p w l : forallb p w = true -> starts_as p l = false -> span p (w ++ l) = (w, l).
Proof.
  intros Hw Hl. induction w as [|c w IH]; cbn.
  - destruct l as [|c l]; [done|]. cbn in *. by rewrite Hl.
  - cbn in Hw. apply andb_true_iff in Hw as [-> Hw]. by rewrite IH.
Qed.

Lemma span_shape p l w t : span p l = (w, t) -> l = w ++ t /\ forallb p w = true /\ starts_as p t = false.
Proof.
  revert w t. induction l as [|c l IH]; intros w t; cbn; [by intros [= <- <-]|].
  destruct (p c) eqn:Hc; [|intros [= <- <-]; by cbn]. destruct (span p l) as [v u]. intros [= <- <-].
  destruct (IH _ _ eq_refl) as (-> & Hv & Hu). cbn. by rewrite Hc.
Qed.

Lemma starts_with_app p w l : w <> [] -> starts_as p (w ++ l) = starts_as p w.
Proof. by destruct w. Qed.

Lemma opt_word_head l : opt_word (head l) = starts_as is_word_char l.
Proof. by destruct l. Qed.

Lemma load_keyword_word kw : lang load_keyword kw <-> is_Some (word_kind kw).
Proof.
  unfold load_keyword, word_kind. rewrite lang_alt, !lang_lit_i by done. repeat case_bool_decide; split; eauto.
  - intros [|]; done.
  - intros [? [=]].
Qed.

Lemma load_keyword_chars kw : lang load_keyword kw -> kw <> [] /\ forallb is_word_char kw = true /\
  map lower kw <> chars "force".
Proof.
  unfold load_keyword. rewrite lang_alt, !lang_lit_i by done.
  intros [H|H]; (split; [by intros ->|split; [by eapply lower_word; [|exact H]|by rewrite H]]).
Qed.

Lemma word_starts w : w <> [] -> forallb is_word_char w = true ->
  starts_as is_word_char w = true /\ starts_as is_space w = false.
Proof.
  destruct w as [|c w]; [done|]. cbn. intros _ [Hc _]%andb_true_iff. split; [done|by apply word_not_space].
Qed.

Lemma spaces_no_word sp l : sp <> [] -> forallb is_space sp = true -> starts_as is_word_char (sp ++ l) = false.
Proof.
  destruct sp as [|c sp]; [done|]. cbn. intros _ [Hc _]%andb_true_iff.
  destruct (is_word_char c) eqn:Hw; [|done]. by rewrite (word_not_space _ Hw) in Hc.
Qed.

(** The first words are those that the pattern looks for after the comments. *)
Lemma first_words_iff l : is_Some (first_words l) <->
  exists f kw tl, l = f ++ kw ++ tl /\ lang force f /\ lang load_keyword kw /\ opt_word (head tl) = false.
Proof.
  setoid_rewrite force_words. setoid_rewrite opt_word_head. split.
  - unfold first_words. destruct (span is_word_char l) as [w t] eqn:E. apply span_shape in E as (-> & Hw & Ht).
    case_bool_decide as Hf; [|intros Hk; exists [], w, t; split; [done|]; split; [by left|]; by rewrite load_keyword_word].
    destruct (span is_space t) as [sp t'] eqn:E. apply span_shape in E as (-> & Hsp & Ht').
    destruct (span is_word_char t') as [kw tl] eqn:E. apply span_shape in E as (-> & Hkw & Htl). cbn.
    rewrite fmap_is_Some. intros Hk%load_keyword_word. destruct (load_keyword_chars _ Hk) as (Hne & _ & _).
    exists (w ++ sp), kw, tl. split; [by rewrite <- !app_assoc|]. split; [|done]. right. exists w, sp.
    split; [done|]. split; [by apply (lang_lit_i (chars "force") w)|]. split; [|done]. intros ->. cbn in Ht.
    rewrite starts_with_app, (proj1 (word_starts kw Hne Hkw)) in Ht by done. done.
  - intros (f & kw & tl & -> & Hf & Hk & Htl). destruct (load_keyword_chars _ Hk) as (Hne & Hkw & Hnf).
    apply load_keyword_word in Hk. unfold first_words. destruct Hf as [->|(w & sp & -> & Hw & Hsp & Hsps)].
    + cbn. rewrite span_app by done. by rewrite bool_decide_eq_false_2.
    + apply (lang_lit_i (chars "force") w) in Hw; [|done]. assert (forallb is_word_char w = true) as Hww by (by eapply lower_word; [|exact Hw]).
      rewrite <- app_assoc, (span_app _ w) by (done || by apply spaces_no_word).
      rewrite bool_decide_eq_true_2 by done.
      rewrite span_app by (done || rewrite starts_with_app by done; by apply word_starts).
      rewrite span_app by done. cbn. by rewrite fmap_is_Some.
Qed.

(** ** Skipping *)

Lemma after_newline_length l : length (after_newline l) <= length l.
Proof. induction l as [|c l IH]; cbn; [lia|]. case_bool_decide; lia. Qed.
Lemma after_close_length l : length (after_close l) <= length l.
Proof. induction l as [|c l IH]; [done|]. cbn [after_close]. case_bool_decide; rewrite ?length_drop; cbn; lia. Qed.

Lemma skip_fuel n m l : length l <= n -> length l <= m -> skip n l = skip m l.
Proof.
  revert m l. induction n as [|n IH]; intros m [|c l] Hn Hm; cbn in Hn; [by destruct m|lia|by destruct m|].
  destruct m as [|m]; cbn in Hm; [lia|]. cbn [skip].
  assert (forall u : text, length u <= length l -> skip n u = skip m u) as H by (intros u ?; apply IH; lia).
  pose proof (after_newline_length (drop 2 (c :: l))) as H1. pose proof (after_close_length (drop 2 (c :: l))) as H2.
  rewrite length_drop in H1, H2. cbn [length] in H1, H2. repeat case_match; try done; apply H; lia.
Qed.

Definition skipped (l : text) : text := skip (length l) l.

Lemma skip_skipped n l : length l <= n -> skip n l = skipped l.
Proof. intros ?. by apply skip_fuel. Qed.

Lemma skipped_space c l : is_space c = true -> skipped (c :: l) = skipped l.
Proof. intros Hc. unfold skipped. cbn [length skip]. by rewrite Hc. Qed.

Lemma skipped_line l : skipped (chars "--" ++ l) = skipped (after_newline l).
Proof.
  change (skip (S (length l)) (after_newline l) = skipped (after_newline l)).
  apply skip_skipped. pose proof (after_newline_length l). lia.
Qed.
Lemma skipped_block l : skipped (chars "/*" ++ l) = skipped (after_close l).
Proof.
  change (skip (S (length l)) (after_close l) = skipped (after_close l)).
  apply skip_skipped. pose proof (after_close_length l). lia.
Qed.

Lemma skipped_word l : starts_as is_word_char l = true -> skipped l = l.
Proof.
  destruct l as [|c l]; [done|]. cbn. intros Hc. unfold skipped. cbn [length skip]. rewrite (word_not_space _ Hc).
  rewrite !bool_decide_eq_false_2; [done|by intros [= -> _]..].
Qed.

Lemma after_newline_body body l : forallb (fun c => negb (bool_decide (newline = c))) body = true ->
  after_newline (body ++ newline :: l) = l.
Proof.
  induction body as [|c body IH]; cbn; [done|]. intros [Hc%negb_true_iff Hb]%andb_true_iff. by rewrite Hc, IH.
Qed.

Lemma after_newline_shape l : after_newline l = [] \/
  exists body, l = body ++ newline :: after_newline l /\ forallb (fun c => negb (bool_decide (newline = c))) body = true.
Proof.
  induction l as [|c l IH]; [by left|]. cbn. destruct (bool_decide (newline = c)) eqn:Hc.
  - apply bool_decide_eq_true in Hc as <-. right. by exists [].
  - destruct IH as [|(body & E & Hb)]; [by left|]. right. exists (c :: body). cbn. by rewrite <- E, Hc.
Qed.

Lemma after_close_shape l : after_close l = [] \/ exists body, l = body ++ chars "*/" ++ after_close l.
Proof.
  induction l as [|c l IH]; [by left|]. cbn [after_close]. case_bool_decide as Hc.
  - right. exists []. cbn [app]. by rewrite <- (take_drop 2 (c :: l)) at 1; rewrite Hc.
  - destruct IH as [|(body & E)]; [by left|]. right. exists (c :: body). cbn [app]. f_equal. exact E.
Qed.

(** A comment's end is the one of its [*/] that comes first. *)
Lemma after_close_body body l :
  after_close (body ++ chars "*/" ++ l) = l \/ exists b1 b2, body = b1 ++ chars "*/" ++ b2.
Proof.
  induction body as [|c body IH]; [by left|]. cbn [app after_close]. case_bool_decide as Hc.
  - destruct body as [|d body]; [by injection Hc|]. cbn in Hc. injection Hc as -> ->. right. by exists [], body.
  - destruct IH as [|(b1 & b2 & ->)]; [by left|]. right. by exists (c :: b1), b2.
Qed.

Lemma skipped_blank a l : blank a -> skipped (a ++ l) = skipped l.
Proof.
  intros Ha. induction Ha as [|c a Hc _ IH|body a Hb _ IH]; [done|cbn [app]; by rewrite skipped_space|].
  rewrite <- !app_assoc, skipped_line. cbn [app]. by rewrite after_newline_body.
Qed.

Lemma blank_spaces ws a : forallb is_space ws = true -> blank a -> blank (ws ++ a).
Proof.
  intros Hws Ha. induction ws as [|c ws IH]; [done|]. cbn in *. apply andb_true_iff in Hws as [Hc Hws].
  constructor; auto.
Qed.

(** ** The pattern's comments *)

(** Two texts that are the same pieces. *)
Ltac same_text := repeat (progress (cbn; rewrite <- ?app_assoc)); reflexivity.

Lemma comments_app a b : lang comments a -> lang comments b -> lang comments (a ++ b).
Proof.
  unfold comments. intros Ha Hb. remember (RStar _ _) as r eqn:E.
  induction Ha as [| | | | | |g' r' w1 w2 H1 Hne H2 _ IH]; simplify_eq/=; [done|].
  rewrite <- app_assoc. apply L_again; [done..|]. by apply IH.
Qed.

Lemma comment_comments c : c <> [] -> lang (RAlt line_comment block_comment) c -> lang comments c.
Proof. intros Hne Hc. rewrite <- (app_nil_r c). by apply L_again; [| |constructor]. Qed.

Lemma line_comments body ws : forallb (fun c => negb (bool_decide (newline = c))) body = true ->
  forallb is_space ws = true -> lang comments (chars "--" ++ body ++ newline :: ws).
Proof. intros Hb Hws. apply comment_comments; [done|]. apply comment_words. left. eauto. Qed.

Lemma block_comments body ws : forallb is_space ws = true -> lang comments (chars "/*" ++ body ++ chars "*/" ++ ws).
Proof. intros Hws. apply comment_comments; [done|]. apply comment_words. right. eauto. Qed.

(** Comments of the pattern are blank, or reach from the first [/*] to some [*/]. *)
Lemma comments_split cs : lang comments cs ->
  blank cs \/ exists a b c, cs = a ++ chars "/*" ++ b ++ chars "*/" ++ c /\ blank a /\ blank c.
Proof.
  unfold comments. intros H. remember (RStar _ _) as r eqn:E.
  induction H as [| | | | | |g' r' w1 w2 H1 Hne H2 _ IH]; simplify_eq/=; [by left; constructor|].
  apply comment_words in H1 as [(body & ws & -> & Hb & Hws)|(body & ws & -> & Hws)];
    destruct (IH eq_refl) as [Hbl|(a & b & c & -> & Ha & Hc)].
  - left. change (blank (chars "--" ++ (body ++ newline :: ws) ++ w2)). rewrite <- app_assoc.
    constructor; [done|]. by apply blank_spaces.
  - right. exists (chars "--" ++ body ++ newline :: (ws ++ a)), b, c. split; [same_text|].
    split; [|done]. constructor; [done|]. by apply blank_spaces.
  - right. exists [], body, (ws ++ w2). split; [same_text|].
    split; [constructor|]. by apply blank_spaces.
  - right. exists [], (body ++ chars "*/" ++ ws ++ a ++ chars "/*" ++ b), c.
    split; [same_text|]. split; [constructor|done].
Qed.

(** Leading text that the pattern passes over. *)
Definition passed (a : text) : Prop := exists ws cs, a = ws ++ cs /\ forallb is_space ws = true /\ lang comments cs.

Lemma passed_blank a : blank a -> passed a.
Proof.
  intros Ha. induction Ha as [|c a Hc _ (ws & cs & -> & Hws & Hcs)|body a Hb _ (ws & cs & -> & Hws & Hcs)].
  - exists [], []. repeat split. constructor.
  - exists (c :: ws), cs. cbn. by rewrite Hc.
  - exists [], ((chars "--" ++ body ++ newline :: ws) ++ cs). split; [same_text|]. split; [done|].
    apply comments_app; [by apply line_comments|done].
Qed.

Lemma passed_block a b c : passed a -> passed c -> passed (a ++ chars "/*" ++ b ++ chars "*/" ++ c).
Proof.
  intros (ws & cs & -> & Hws & Hcs) (ws' & cs' & -> & Hws' & Hcs').
  exists ws, (cs ++ (chars "/*" ++ b ++ chars "*/" ++ ws') ++ cs'). split; [same_text|].
  split; [done|]. apply comments_app; [done|]. apply comments_app; [by apply block_comments|done].
Qed.

Lemma passed_space c a : is_space c = true -> passed a -> passed (c :: a).
Proof. intros Hc (ws & cs & -> & Hws & Hcs). exists (c :: ws), cs. cbn. by rewrite Hc. Qed.

Lemma passed_line body a : forallb (fun c => negb (bool_decide (newline = c))) body = true -> passed a ->
  passed (chars "--" ++ body ++ newline :: a).
Proof.
  intros Hb (ws & cs & -> & Hws & Hcs). exists [], ((chars "--" ++ body ++ newline :: ws) ++ cs).
  split; [same_text|]. split; [done|]. apply comments_app; [by apply line_comments|done].
Qed.

Lemma skip_passed n l : skip n l = [] \/ exists a, l = a ++ skip n l /\ passed a.
Proof.
  assert (forall l, exists a, l = a ++ l /\ passed a) as Hnone by (intros l'; exists []; split; [done|apply passed_blank, B_nil]).
  revert l. induction n as [|n IH]; intros [|c l]; [right; apply Hnone..|]. cbn [skip].
  destruct (is_space c) eqn:Hc.
  { destruct (IH l) as [|(a & E & Ha)]; [by left|]. right. exists (c :: a). rewrite E at 1. split; [done|by apply passed_space]. }
  case_bool_decide as Hl.
  { destruct (IH (after_newline (drop 2 (c :: l)))) as [|(a & E & Ha)]; [by left|].
    destruct (after_newline_shape (drop 2 (c :: l))) as [E0|(body & E0 & Hb)]; [rewrite E0; left; by destruct n|].
    right. exists (chars "--" ++ body ++ newline :: a). split; [|by apply passed_line].
    rewrite <- (take_drop 2 (c :: l)) at 1. rewrite Hl, E0 at 1. rewrite E at 1. same_text. }
  case_bool_decide as Hb; [|right; apply Hnone].
  destruct (IH (after_close (drop 2 (c :: l)))) as [|(a & E & Ha)]; [by left|].
  destruct (after_close_shape (drop 2 (c :: l))) as [E0|(body & E0)]; [rewrite E0; left; by destruct n|].
  right. exists ([] ++ chars "/*" ++ body ++ chars "*/" ++ a). split; [|by apply passed_block; [apply passed_blank, B_nil|]].
  rewrite <- (take_drop 2 (c :: l)) at 1. rewrite Hb, E0 at 1. rewrite E at 1. same_text.
Qed.

(** ** What is accepted *)

Lemma load_script_statement t : load_script t ->
  is_Some (statement t) \/
  exists a b c, t = a ++ chars "/*" ++ b ++ chars "*/" ++ c /\ blank a /\ is_Some (statement c).
Proof.
  intros (ws & cs & f & kw & tl & -> & Hws & Hcs & Hf & Hk & Htl).
  assert (is_Some (first_words (f ++ kw ++ tl))) as Hfw by (apply first_words_iff; eauto 10).
  assert (forall a, blank a -> is_Some (statement (a ++ f ++ kw ++ tl))) as Hst.
  { intros a Ha. unfold statement. fold (skipped (a ++ f ++ kw ++ tl)). rewrite skipped_blank by done.
    rewrite skipped_word; [done|]. destruct (load_keyword_chars _ Hk) as (Hne & Hkw & _).
    apply force_words in Hf as [->|(w & sp & -> & Hw & _)].
    - cbn. rewrite starts_with_app by done. by apply word_starts.
    - apply (lang_lit_i (chars "force") w) in Hw; [|done]. assert (w <> []) by (by intros ->).
      rewrite <- app_assoc, starts_with_app by done. apply word_starts; [done|]. by eapply lower_word; [|exact Hw]. }
  destruct (comments_split _ Hcs) as [Hb|(a & b & c & -> & Ha & Hc)].
  - left. rewrite app_assoc. apply Hst. by apply blank_spaces.
  - right. exists (ws ++ a), b, (c ++ f ++ kw ++ tl). split; [same_text|]. split; [by apply blank_spaces|by apply Hst].
Qed.

Lemma statement_passed t : is_Some (statement t) ->
  exists a u, t = a ++ u /\ passed a /\ is_Some (first_words u).
Proof.
  unfold statement. intros Hs. destruct (skip_passed (length t) t) as [E|(a & E & Ha)].
  - rewrite E in Hs. by destruct Hs.
  - by exists a, (skip (length t) t).
Qed.

Lemma passed_load a u : passed a -> is_Some (first_words u) -> load_script (a ++ u).
Proof.
  intros (ws & cs & -> & Hws & Hcs) (f & kw & tl & -> & Hf & Hk & Htl)%first_words_iff.
  exists ws, cs, f, kw, tl. by rewrite <- app_assoc.
Qed.

(** How often [*/] occurs. *)
Fixpoint closes (t : text) : nat :=
  match t with [] => 0 | _ :: t' => (if bool_decide (take 2 t = chars "*/") then 1 else 0) + closes t' end.

Lemma closes_app a b : closes b <= closes (a ++ b).
Proof. induction a as [|c a IH]; [done|]. cbn [app closes]. lia. Qed.

Lemma closes_more a b : S (closes b) <= closes (a ++ chars "*/" ++ b).
Proof.
  etransitivity; [|apply closes_app]. change (chars "*/" ++ b) with ("*" :: "/" :: b)%char. cbn [closes take].
  rewrite bool_decide_eq_true_2 by done. lia.
Qed.

(** C15: [EXTENSION_LOAD_RE], run as ECMAScript runs it, against a reader of scripts
    that skips white space and comments, each up to its own end, and then looks for
    [LOAD], [INSTALL] or [FORCE INSTALL] as whole words in any case ([FORCE LOAD]
    counts too, though the engine has no such statement).  The pattern accepts every
    script in which the reader finds one, and what it accepts beyond these is exactly
    this: the script starts with a block comment, after white space and line
    comments, and after some later [*/], whatever that one closes, the reader finds an
    extension load.  So on a script without two [*/] the pattern and the reader
    agree. *)
Theorem extension_loads_are_recognised t :
  (is_extension_load t = true <->
     is_Some (statement t) \/
     exists a b c, t = a ++ chars "/*" ++ b ++ chars "*/" ++ c /\ blank a /\ is_Some (statement c)) /\
  (closes t <= 1 -> is_extension_load t = true <-> is_Some (statement t)).
Proof.
  assert (is_extension_load t = true <->
     is_Some (statement t) \/
     exists a b c, t = a ++ chars "/*" ++ b ++ chars "*/" ++ c /\ blank a /\ is_Some (statement c)) as Hiff.
  { rewrite is_extension_load_iff. split; [apply load_script_statement|].
    intros [(a & u & -> & Ha & Hu)%statement_passed|(a & b & c & -> & Ha & (a' & u & -> & Ha' & Hu)%statement_passed)].
    - by apply passed_load.
    - replace (a ++ _) with ((a ++ chars "/*" ++ b ++ chars "*/" ++ a') ++ u) by same_text.
      apply passed_load; [|done]. apply passed_block; [by apply passed_blank|done]. }
  split; [exact Hiff|]. intros Hone. rewrite Hiff. split; [|by left].
  intros [|(a & b & c & -> & Ha & Hc)]; [done|]. unfold statement. fold (skipped (a ++ chars "/*" ++ b ++ chars "*/" ++ c)).
  rewrite skipped_blank, skipped_block by done.
  destruct (after_close_body b c) as [->|(b1 & b2 & ->)]; [done|].
  exfalso. replace (a ++ _) with ((a ++ chars "/*" ++ b1) ++ chars "*/" ++ b2 ++ chars "*/" ++ c) in Hone by same_text.
  pose proof (closes_more (a ++ chars "/*" ++ b1) (b2 ++ chars "*/" ++ c)). pose proof (closes_more b2 c). lia.
Qed.


Lemma extension_loads_are_recognised_witness :
  is_extension_load (chars "/* x */ SELECT load") = false /\ is_extension_load (chars "/* x */ -- y
    Force INSTALL a") = true.
Proof.
  split.
  - apply not_true_is_false. rewrite (proj2 (extension_loads_are_recognised (chars "/* x */ SELECT load"))).
    + assert (statement (chars "/* x */ SELECT load") = None) as -> by (vm_compute; reflexivity). by intros [? [=]].
    + vm_compute. lia.
  - apply extension_loads_are_recognised. left.
    exists K_force_install. vm_compute. reflexivity.
Defined.

(** The pattern's comment can reach over a later comment: a query with two
    comments and [load] after the second one is taken for an extension load. *)
Lemma load_after_two_comments :
  is_extension_load (chars "/* a */ SELECT * FROM t /* b */ load") = true /\
  statement (chars "/* a */ SELECT * FROM t /* b */ load") = None.
Proof. vm_compute. split; reflexivity. Qed.

(** A [FORCE LOAD] is accepted, though only [FORCE INSTALL] is meant. *)
Lemma force_load_is_accepted : is_extension_load (chars "FORCE LOAD a") = true.
Proof. vm_compute. reflexivity. Qed.
