(* ===== verification/Text.v ===== *)
(** * Text: strings as code units, and their UTF-8 encoding

    A string of the model is a sequence of code units below 256.  [TextEncoder]
    is exact on these; [TextDecoder] reads the one and two byte sequences that
    encode them, and puts a question mark for any byte it cannot read. *)
From S2P Require Import Prelude.
From stdpp Require Import base tactics list strings.
From Stdlib Require Import ZArith Ascii Lia.
Open Scope Z_scope.

Abbreviation bytes := (list Z).

Definition code (c : ascii) : Z := Z.of_nat (nat_of_ascii c).
Definition char_of (n : Z) : ascii := ascii_of_nat (Z.to_nat n).

Definition encode_unit (n : Z) : bytes :=
  if n <? 128 then [n] else [Z.lor 192 (Z.shiftr n 6); Z.lor 128 (Z.land n 63)].

(** [new TextEncoder().encode(s)] *)
Definition utf8_encode (s : string) : bytes :=
  concat (map (fun c => encode_unit (code c)) (String.list_ascii_of_string s)).

Definition is_trail (n : Z) : bool := (128 <=? n) && (n <? 192).

Fixpoint decode_units (l : bytes) : list ascii :=
  match l with
  | [] => []
  | b :: l' =>
      if b <? 128 then char_of b :: decode_units l'
      else
        match l' with
        | t :: l'' =>
            if ((b =? 194) || (b =? 195)) && is_trail t
            then char_of (Z.lor (Z.shiftl (Z.land b 31) 6) (Z.land t 63)) :: decode_units l''
            else "?"%char :: decode_units l'
        | [] => ["?"%char]
        end
  end.

(** [new TextDecoder('utf-8').decode(l)] *)
Definition utf8_decode (l : bytes) : string := String.string_of_list_ascii (decode_units l).

Lemma decode_encode_unit c l : decode_units (encode_unit (code c) ++ l) = c :: decode_units l.
Proof. by destruct c as [[] [] [] [] [] [] [] []]. Qed.

Lemma utf8_roundtrip s : utf8_decode (utf8_encode s) = s.
Proof.
  unfold utf8_decode, utf8_encode.
  rewrite <- (String.string_of_list_ascii_of_string s) at 2. f_equal.
  induction (String.list_ascii_of_string s) as [|c l IH]; cbn [map concat]; [done|].
  by rewrite decode_encode_unit, IH.
Qed.

Lemma utf8_encode_bytes s : Forall (fun b => 0 <= b < 256) (utf8_encode s).
Proof.
  unfold utf8_encode. apply Forall_concat, Forall_map, Forall_true. intros c. cbn.
  destruct c as [[] [] [] [] [] [] [] []]; vm_compute; repeat constructor; congruence.
Qed.

Lemma utf8_encode_length s : Z.of_nat (String.length s) <= lenZ (utf8_encode s).
Proof.
  unfold utf8_encode, lenZ.
  induction s as [|c s IH]; cbn; [lia|]. rewrite length_app.
  assert (1 <= length (encode_unit (code c)))%nat by (unfold encode_unit; destruct (_ <? _); cbn; lia). lia.
Qed.
