(* ===== verification/WasmModule.v ===== *)
(** * WasmModule: the engine's module as the bindings use it
    ([duckdb_module.ts], the helpers of [runtime.ts])

    The wasm module is generated code, so it is a type [M] of module states with
    the operations the bindings call on it: the allocator, the heap views, the
    stack and [ccall].  [DuckDBModuleLaws] states what the code relies on: bytes
    written are read back, and a call leaves the stack pointer where it was.
    [JSON.stringify] of an argument is kept as the value it prints. *)
From S2P Require Import Prelude Text Data.
From stdpp Require Import base tactics list strings pretty.
From Stdlib Require Import ZArith Lia.
Open Scope Z_scope.

(** [x >> n]: the operand is taken as a signed 32-bit integer. *)
Definition int32 (x : Z) : Z := (x + 2 ^ 31) mod 2 ^ 32 - 2 ^ 31.
Definition shr32 (x n : Z) : Z := Z.shiftr (int32 x) n.

(** What [ccall] passes on. *)
Inductive WasmArg :=
| Arg_number (n : Z)
| Arg_string (s : string)
| Arg_boolean (b : bool)
| Arg_json (j : Json).

(** A number written to the heap: an integer, a time in seconds given by its
    milliseconds, or the [NaN] of a text that is no number. *)
Inductive HeapNumber := HN_int (n : Z) | HN_seconds (ms : Z) | HN_nan.

Class DuckDBModule (M : Type) := {
  m_malloc : Z -> M -> Z * M;
  m_free : Z -> M -> M;
  m_read : Z -> Z -> M -> bytes;                 (** HEAPU8.subarray(p, p + n) *)
  m_write : Z -> bytes -> M -> Outcome unit * M; (** HEAPU8.subarray(p, p + n).set(bytes) *)
  m_write32 : Z -> Z -> M -> M;                  (** HEAP32[i] = v *)
  m_lengthBytesUTF8 : string -> Z;
  m_stringToUTF8 : string -> Z -> Z -> M -> M;   (** text, pointer, size *)
  m_f64 : Z -> M -> Z;                           (** HEAPF64[i] *)
  m_set_f64 : Z -> HeapNumber -> M -> M;         (** HEAPF64[i] = v *)
  m_stackSave : M -> Z;
  m_stackAlloc : Z -> M -> Z * M;
  m_stackRestore : Z -> M -> M;
  m_ccall : string -> list WasmArg -> M -> Outcome Z * M
}.

Class DuckDBModuleLaws (M : Type) `{DuckDBModule M} := {
  read_write p bs m : (m_write p bs m).1 = Normal tt -> m_read p (lenZ bs) (m_write p bs m).2 = bs;
  read_length p n m : lenZ (m_read p n m) <= Z.max 0 n;
  stackSave_write p bs m : m_stackSave (m_write p bs m).2 = m_stackSave m;
  read_stackAlloc p n k m : m_read p n (m_stackAlloc k m).2 = m_read p n m;
  stackSave_restore p m : m_stackSave (m_stackRestore p m) = p
}.

(** ** What the JavaScript side did with the module, in order *)

Inductive Event :=
| Ev_malloc (p : Z)
| Ev_free (p : Z)
| Ev_call (name : string) (args : list WasmArg)
| Ev_write (p : Z) (bs : bytes)
| Ev_f64 (i : Z) (v : HeapNumber)
| Ev_throw.                    (** the call or the write before it threw *)

Record Module (M : Type) := MkModule { state : M; trace : list Event }.
Arguments MkModule {M}. Arguments state {M}. Arguments trace {M}.

Section Helpers.
Context {M : Type} `{DuckDBModule M}.

Definition note (e : Event) (s : Module M) (m : M) : Module M := MkModule m (trace s ++ [e]).

(** What may throw: a call into the engine that traps, a write beyond the heap. *)
Definition note_outcome {A} (o : Outcome A) (e : Event) (s : Module M) (m : M) : Module M :=
  match o with Normal _ => note e s m | Thrown _ => note Ev_throw (note e s m) m end.

Definition _malloc (n : Z) : JS (Module M) Z := fun s =>
  let '(p, m) := m_malloc n (state s) in (Normal p, note (Ev_malloc p) s m).
Definition _free (p : Z) : JS (Module M) unit := fun s =>
  (Normal tt, note (Ev_free p) s (m_free p (state s))).
Definition ccall (name : string) (args : list WasmArg) : JS (Module M) Z := fun s =>
  let '(o, m) := m_ccall name args (state s) in (o, note_outcome o (Ev_call name args) s m).
Definition heap_set (p : Z) (bs : bytes) : JS (Module M) unit := fun s =>
  let '(o, m) := m_write p bs (state s) in (o, note_outcome o (Ev_write p bs) s m).
Definition heap_subarray (p n : Z) : JS (Module M) bytes := gets (fun s => m_read p n (state s)).
Definition stringToUTF8 (text : string) (p size : Z) : JS (Module M) unit :=
  modify (fun s => MkModule (m_stringToUTF8 text p size (state s)) (trace s)).
(** An assignment to a negative index of a typed array does nothing. *)
Definition set_HEAP32 (i v : Z) : JS (Module M) unit :=
  modify (fun s => MkModule (if i <? 0 then state s else m_write32 i v (state s)) (trace s)).
Definition set_HEAPF64 (i : Z) (v : HeapNumber) : JS (Module M) unit := fun s =>
  (Normal tt, note (Ev_f64 i v) s (m_set_f64 i v (state s))).
Definition on_state (f : M -> M) : JS (Module M) unit := modify (fun s => MkModule (f (state s)) (trace s)).

(** [copyBuffer]: the bytes of the heap, copied. *)
Definition copyBuffer (begin length : Z) : JS (Module M) bytes := heap_subarray begin length.

Definition readString (begin length : Z) : JS (Module M) string :=
  let! b := heap_subarray begin length in ret (utf8_decode b).

Definition failWith_mod (msg : string) : JS (Module M) unit :=
  ccall "duckdb_web_fail_with" [Arg_string msg] ;;; ret tt.

(** [callSRet]: the status, the data and its size, read from the packed response
    that was allocated on the stack. *)
Definition callSRet (funcName : string) (args : list WasmArg) : JS (Module M) (Z * Z * Z) :=
  let! stackPointer := gets (fun s => m_stackSave (state s)) in
  let! response := (fun s => let '(p, m) := m_stackAlloc 24 (state s) in
                             (Normal p, MkModule m (trace s))) in
  ccall funcName (Arg_number response :: args) ;;;
  let! status := gets (fun s => m_f64 (shr32 response 3 + 0) (state s)) in
  let! data := gets (fun s => m_f64 (shr32 response 3 + 1) (state s)) in
  let! dataSize := gets (fun s => m_f64 (shr32 response 3 + 2) (state s)) in
  on_state (m_stackRestore stackPointer) ;;;
  ret (status, data, dataSize).

Definition dropResponseBuffers : JS (Module M) unit :=
  ccall "duckdb_web_clear_response" [] ;;; ret tt.

(** [throw new Error(readString(mod, d, n))] *)
Definition throw_response {A} (d n : Z) : JS (Module M) A :=
  let! msg := readString d n in throw (Error msg).

(** The check that follows every [callSRet]. *)
Definition check_status (r : Z * Z * Z) : JS (Module M) unit :=
  if r.1.1 =? SUCCESS_CODE then ret tt else throw_response r.1.2 r.2.

(** The pattern of the calls that pass a text: the buffer is allocated, filled,
    handed to the engine and freed once the call returned. *)
Definition call_with_buffer (buf : bytes) (funcName : string) (args : Z -> list WasmArg)
    : JS (Module M) (Z * Z * Z) :=
  let! bufferPtr := _malloc (lenZ buf) in
  heap_set bufferPtr buf ;;;
  let! r := callSRet funcName (args bufferPtr) in
  _free bufferPtr ;;;
  ret r.
End Helpers.

(** ** The heap views of a memory that other threads can grow

    [keepHeapViewsCurrent] replaces the module's views by accessors.  A view is
    over a buffer, named by its identity; growing the shared memory gives it a
    new, longer buffer. *)

Record Memory := { buffer_id : Z; buffer_shared : bool; byteLength : Z }.
Record View := { view_buffer : Z; view_length : Z }.

(** [new View(memory.buffer)] *)
Definition fresh_view (mem : Memory) : View :=
  {| view_buffer := buffer_id mem; view_length := byteLength mem |}.

(** The property [mod.HEAPU8]: a plain field, or the accessor with the view it
    closes over. *)
Inductive HeapView := Plain (v : View) | Accessor (v : option View).

Definition keepHeapViewsCurrent (hasSAB : bool) (memory : option Memory) (v : View) : HeapView :=
  match memory with
  | Some mem => if hasSAB && buffer_shared mem then Accessor (Some v) else Plain v
  | None => Plain v
  end.

(** Reading the property, with the memory as it is now. *)
Definition get_view (mem : Memory) (h : HeapView) : View * HeapView :=
  match h with
  | Plain v => (v, h)
  | Accessor o =>
      match o with
      | Some v => if view_buffer v =? buffer_id mem then (v, h)
                  else (fresh_view mem, Accessor (Some (fresh_view mem)))
      | None => (fresh_view mem, Accessor (Some (fresh_view mem)))
      end
  end.

(** Assigning a fresh view, as the module's own glue does. *)
Definition set_view (v : View) (h : HeapView) : HeapView :=
  match h with Plain _ => Plain v | Accessor _ => Accessor (Some v) end.

(** The uses of the views on one thread while the memory grows on any. *)
Inductive ViewEvent := Grow (length : Z) | Use | Assign.

(** The memory, the property, and the lengths of the views that were used. *)
Definition view_step (s : Memory * HeapView * list (Z * Z)) (e : ViewEvent) : Memory * HeapView * list (Z * Z) :=
  let '(mem, h, uses) := s in
  match e with
  | Grow n => ({| buffer_id := buffer_id mem + 1; buffer_shared := buffer_shared mem; byteLength := n |}, h, uses)
  | Use => let '(v, h') := get_view mem h in (mem, h', uses ++ [(view_length v, byteLength mem)])
  | Assign => (mem, set_view (fresh_view mem) h, uses)
  end.

Definition view_of (h : HeapView) : option View := match h with Plain v => Some v | Accessor o => o end.

(** A view's buffer is not newer than the memory's, and of its length if it is the same. *)
Definition view_ok (mem : Memory) (h : HeapView) : Prop :=
  (exists o, h = Accessor o) /\
  forall v, view_of h = Some v -> view_buffer v <= buffer_id mem /\
    (view_buffer v = buffer_id mem -> view_length v = byteLength mem).

Lemma get_view_current mem h : view_ok mem h ->
  view_length (get_view mem h).1 = byteLength mem /\ view_ok mem (get_view mem h).2.
Proof.
  intros [[o ->] Hv]. assert (view_ok mem (Accessor (Some (fresh_view mem)))) as Hf.
  { split; [eauto|]. cbn. intros v [= <-]. cbn. split; [lia|done]. }
  destruct o as [v|]; cbn; [|done]. destruct (Z.eqb_spec (view_buffer v) (buffer_id mem)); cbn; [|done].
  split; [by apply Hv|]. split; [eauto|done].
Qed.

Lemma view_steps_ok es s :
  view_ok s.1.1 s.1.2 -> Forall (fun u => u.1 = u.2) s.2 ->
  Forall (fun u => u.1 = u.2) (foldl view_step s es).2.
Proof.
  revert s. induction es as [|e es IH]; intros [[mem h] uses] Hv Hu; [done|]. cbn [foldl]. apply IH.
  - destruct e as [n| |]; cbn.
    + destruct Hv as [Ha Hv]. split; [done|]. intros v Hh. cbn in *. destruct (Hv v Hh). split; lia.
    + destruct (get_view_current mem h Hv) as [_ H2]. by destruct (get_view mem h).
    + cbn in Hv. destruct Hv as [[o ->] _]. split; [cbn; eauto|]. cbn. intros v [= <-]. cbn. split; [lia|done].
  - destruct e as [n| |]; cbn; [done| |done].
    destruct (get_view_current mem h Hv) as [H1 _]. destruct (get_view mem h) as [v h']. cbn in *.
    apply Forall_app. split; [done|]. by repeat constructor.
Qed.

(** With a shared memory every use of a heap view, at any time and however
    often any thread grew the memory before, sees a view as long as the memory is
    at that moment: no use reads past an old end. *)
Theorem heap_views_stay_current mem v es :
  buffer_shared mem = true -> view_buffer v = buffer_id mem -> view_length v = byteLength mem ->
  Forall (fun u => u.1 = u.2)
    (foldl view_step (mem, keepHeapViewsCurrent true (Some mem) v, []) es).2.
Proof.
  intros Hs Hb Hl. apply view_steps_ok; [|constructor]. unfold keepHeapViewsCurrent. rewrite Hs. cbn.
  split; [eauto|]. cbn. intros w [= <-]. split; [lia|done].
Qed.

Lemma heap_views_stay_current_witness :
  let mem := {| buffer_id := 0; buffer_shared := true; byteLength := 10 |} in
  (foldl view_step (mem, keepHeapViewsCurrent true (Some mem) (fresh_view mem), []) [Use; Grow 20; Use]).2 =
    [(10, 10); (20, 20)] /\
  Forall (fun u => u.1 = u.2) [(10, 10); (20, 20)].
Proof.
  intros mem. split; [reflexivity|].
  exact (heap_views_stay_current mem (fresh_view mem) [Use; Grow 20; Use] eq_refl eq_refl eq_refl).
Defined.
