(* ===== verification/Stringify.v ===== *)
(** * Stringify: the objects the bindings pass to the engine as JSON

    [JSON.stringify] leaves out the properties that are [undefined]; the result
    is the value it prints, with the properties in the order of the object. *)
From S2P Require Import Prelude Data Protocol.
From stdpp Require Import base tactics list strings.
From Stdlib Require Import ZArith.
Open Scope Z_scope.

(** An object literal whose undefined properties are dropped. *)
Definition obj (fields : list (string * option Json)) : Json :=
  JObject (omap (fun '(k, v) => match v with Some j => Some (k, j) | None => None end) fields).

Definition jstr (o : option string) : option Json := JString <$> o.
Definition jbool (o : option bool) : option Json := JBool <$> o.
Definition jnum (o : option Z) : option Json := JNumber <$> o.

Definition access_mode_number (m : DuckDBAccessMode) : Z :=
  match m with UNDEFINED_MODE => 0 | AUTOMATIC => 1 | READ_ONLY => 2 | READ_WRITE => 3 end.

Definition query_config_json (q : DuckDBQueryConfig) : Json :=
  obj [("queryPollingInterval", jnum (queryPollingInterval q));
       ("castBigIntToDouble", jbool (castBigIntToDouble q));
       ("castTimestampToDate", jbool (castTimestampToDate q));
       ("castDurationToTime64", jbool (castDurationToTime64 q));
       ("castDecimalToDouble", jbool (castDecimalToDouble q))]%string.

Definition filesystem_json (f : DuckDBFilesystemConfig) : Json :=
  obj [("reliableHeadRequests", jbool (cfg_reliableHeadRequests f));
       ("allowFullHTTPReads", jbool (cfg_allowFullHTTPReads f));
       ("forceFullHTTPReads", jbool (cfg_forceFullHTTPReads f))]%string.

Definition opfs_json (o : DuckDBOPFSConfig) : Json :=
  obj [("fileHandling", jstr ((fun h => match h with opfs_auto => "auto" | opfs_manual => "manual" end)
                                <$> fileHandling o))]%string.

Definition config_json (c : DuckDBConfig) : Json :=
  obj [("path", jstr (path c));
       ("accessMode", jnum (access_mode_number <$> accessMode c));
       ("maximumThreads", jnum (maximumThreads c));
       ("useDirectIO", jbool (useDirectIO c));
       ("query", query_config_json <$> query_config c);
       ("filesystem", filesystem_json <$> filesystem c);
       ("allowUnsignedExtensions", jbool (allowUnsignedExtensions c));
       ("arrowLosslessConversion", jbool (arrowLosslessConversion c));
       ("customUserAgent", jstr (customUserAgent c));
       ("opfs", opfs_json <$> opfs c);
       ("singleThreadedExtensionLoad", jbool (singleThreadedExtensionLoad c))]%string.

(** A [SQLType], and a [SQLField], whose name is assigned last. *)
Fixpoint sqltype_fields (t : SQLType) : list (string * option Json) :=
  match t with
  | MkSQLType ty nl p s tz bw k v fs =>
      [("sqlType", Some (JString ty));
       ("nullable", jbool nl);
       ("precision", jnum p);
       ("scale", jnum s);
       ("timezone", jstr tz);
       ("byteWidth", jnum bw);
       ("keyType", match k with Some k => Some (obj (sqltype_fields k)) | None => None end);
       ("valueType", match v with Some v => Some (obj (sqltype_fields v)) | None => None end);
       ("fields", match fs with
                  | Some fs => Some (JArray ((fix go (l : list (string * SQLType)) : list Json :=
                      match l with
                      | [] => []
                      | (n, f) :: l' => obj (sqltype_fields f ++ [("name", Some (JString n))]) :: go l'
                      end) fs))
                  | None => None
                  end)]%string
  end.
Definition sqltype_json (t : SQLType) : Json := obj (sqltype_fields t).
Definition sqlfield_json (f : SQLField) : Json := obj (sqltype_fields f.2 ++ [("name"%string, Some (JString f.1))]).
Definition flat_json (o : option (list SQLField)) : option Json := (fun l => JArray (sqlfield_json <$> l)) <$> o.

Definition arrow_options_json (o : ArrowInsertOptions) : Json :=
  obj [("name", Some (JString (ai_name o))); ("schema", jstr (ai_schema o)); ("create", jbool (ai_create o))]%string.

(** The options of an insert with the flattened columns as [columns], which keeps
    the position it had.  An engine reads the properties by name. *)
Definition csv_options_json (o : CSVInsertOptions) (flat : option (list SQLField)) : Json :=
  obj [("name", Some (JString (ci_name o))); ("schema", jstr (ci_schema o)); ("create", jbool (ci_create o));
       ("header", jbool (ci_header o)); ("delimiter", jstr (ci_delimiter o)); ("quote", jstr (ci_quote o));
       ("escape", jstr (ci_escape o)); ("skip", jnum (ci_skip o)); ("detect", jbool (ci_detect o));
       ("dateFormat", jstr (ci_dateFormat o)); ("timestampFormat", jstr (ci_timestampFormat o));
       ("columns", flat_json flat)]%string.

Definition shape_string (s : JSONTableShape) : string :=
  match s with ROW_ARRAY => "row-array" | COLUMN_OBJECT => "column-object" end.

Definition json_options_json (o : JSONInsertOptions) (flat : option (list SQLField)) : Json :=
  obj [("name", Some (JString (ji_name o))); ("schema", jstr (ji_schema o)); ("create", jbool (ji_create o));
       ("shape", jstr (shape_string <$> ji_shape o)); ("columns", flat_json flat)]%string.
