(* ===== verification/BindingsBase.v ===== *)
(** * BindingsBase: the bindings over the engine's module ([bindings_base.ts])

    [Bindings] is the state of a [DuckDBBindingsBase] with the globals of
    [DUCKDB_RUNTIME] it writes and the messages it posts to the pthread workers.
    Third-party code is a parameter: the module ([WasmModule]), apache-arrow's
    table reader, and the browser's file handles.  [JSON.parse] with the cast to
    the expected type is [parse_tokens], [parse_strings] and [parse_files]. *)
From S2P Require Import Prelude Text Regex Data FileStats Protocol BindingsInterface WasmModule Stringify.
From stdpp Require Import base tactics list gmap strings pretty.
From Stdlib Require Import ZArith Lia.
Open Scope Z_scope.

Record UDFFunction := {
  functionId : Z;
  udf_connectionId : Z;
  udf_name : string;
  udf_returnType : DataType;
  udf_func : Z    (** the identity of the callback *)
}.

Inductive WorkerMessage :=
| dropUDFFunctions (connectionId : Z)
| registerUDFFunction (udf : UDFFunction)
| registerFileHandle_msg (fileName : string) (fileHandle : FileHandle)
| dropFileHandle (fileName : string).

Record PThread := { pthreads : list Z; unusedWorkers : list Z }.

Record Bindings (M : Type) := MkBindings {
  module : Module M;
  _nextUDFId : Z;
  _config : option DuckDBConfig;
  _deferredThreads : option Z;
  _files : gmap string FileHandle;
  _udfFunctions : gmap Z UDFFunction;
  _preparedHandles : gmap string FileHandle;
  pthread : option PThread;
  worker_posts : list (Z * WorkerMessage);
  warnings : list string
}.
Arguments MkBindings {M}. Arguments module {M}. Arguments _nextUDFId {M}. Arguments _config {M}.
Arguments _deferredThreads {M}. Arguments _files {M}. Arguments _udfFunctions {M}.
Arguments _preparedHandles {M}. Arguments pthread {M}. Arguments worker_posts {M}. Arguments warnings {M}.

(** A table read from IPC bytes: its number of rows and its first value. *)
Record ArrowTable := { numRows : Z; first_value : option Z }.

Record PreparedDBFileHandle := { prep_path : string; prep_handle : FileHandle; prep_fromCached : bool }.

(** The locals of [dropFiles], [pointers] and [pointerOfArray], beside the module. *)
Definition DropState (M : Type) : Type := Module M * (list Z * Z).

Section BindingsBase.
Context {M : Type} `{DuckDBModule M}.
Context (tableFromIPC : bytes -> Outcome ArrowTable).
Context (parse_tokens : string -> Outcome ScriptTokens) (parse_strings : string -> Outcome (list string))
  (parse_files : string -> Outcome (option (list WebFile))).
(** The optional methods of the runtime, and the browser's file handles. *)
Context (runtime_prepareFileHandles :
    option (list string -> DuckDBDataProtocol -> Outcome (list PreparedDBFileHandle)))
  (runtime_prepareDBFileHandle :
    option (string -> DuckDBDataProtocol -> Outcome (list PreparedDBFileHandle)))
  (getSize : FileHandle -> Outcome Z)
  (createSyncAccessHandle : Z -> Outcome FileHandle)
  (opfs_getFileHandle : string -> Outcome Z).
Abbreviation B := (Bindings M).

(** *** Field updates *)

Definition set_module (m : Module M) (s : B) : B :=
  MkBindings m (_nextUDFId s) (_config s) (_deferredThreads s) (_files s) (_udfFunctions s)
    (_preparedHandles s) (pthread s) (worker_posts s) (warnings s).
Definition set_nextUDFId (n : Z) (s : B) : B :=
  MkBindings (module s) n (_config s) (_deferredThreads s) (_files s) (_udfFunctions s)
    (_preparedHandles s) (pthread s) (worker_posts s) (warnings s).
Definition set_config (c : option DuckDBConfig) (s : B) : B :=
  MkBindings (module s) (_nextUDFId s) c (_deferredThreads s) (_files s) (_udfFunctions s)
    (_preparedHandles s) (pthread s) (worker_posts s) (warnings s).
Definition set_deferredThreads (t : option Z) (s : B) : B :=
  MkBindings (module s) (_nextUDFId s) (_config s) t (_files s) (_udfFunctions s)
    (_preparedHandles s) (pthread s) (worker_posts s) (warnings s).
Definition set_files f p (s : B) : B :=
  MkBindings (module s) (_nextUDFId s) (_config s) (_deferredThreads s) f (_udfFunctions s)
    p (pthread s) (worker_posts s) (warnings s).
Definition set_udfFunctions u (s : B) : B :=
  MkBindings (module s) (_nextUDFId s) (_config s) (_deferredThreads s) (_files s) u
    (_preparedHandles s) (pthread s) (worker_posts s) (warnings s).
Definition add_worker_posts l (s : B) : B :=
  MkBindings (module s) (_nextUDFId s) (_config s) (_deferredThreads s) (_files s) (_udfFunctions s)
    (_preparedHandles s) (pthread s) (worker_posts s ++ l) (warnings s).
Definition add_warning w (s : B) : B :=
  MkBindings (module s) (_nextUDFId s) (_config s) (_deferredThreads s) (_files s) (_udfFunctions s)
    (_preparedHandles s) (pthread s) (worker_posts s) (warnings s ++ [w]).

(** A computation on the module. *)
Definition on_mod {A} (m : JS (Module M) A) : JS B A := zoom module set_module m.
Definition lift_o {A} (o : Outcome A) : JS B A :=
  match o with Normal a => ret a | Thrown e => throw e end.

Definition all_workers (p : PThread) : list Z := pthreads p ++ unusedWorkers p.
Definition post_workers (f : PThread -> list (Z * WorkerMessage)) : JS B unit :=
  modify (fun s => match pthread s with Some p => add_worker_posts (f p) s | None => s end).

(** The structured clone of [postMessage] refuses an object that holds a function;
    the text of the exception is the browser's. *)
Definition DataCloneError : JsError := MkError "DataCloneError" "function could not be cloned" None.
(** The first message that holds a function throws. *)
Definition post_function (_ : UDFFunction) : JS B unit :=
  let! p := gets pthread in
  match p with
  | Some p => match all_workers p with [] => ret tt | _ => throw DataCloneError end
  | None => ret tt
  end.

(** *** Opening *)

Definition open (config : DuckDBConfig) : JS B unit :=
  on_mod (let! r := callSRet "duckdb_web_open" [Arg_json (config_json config)] in
          check_status r ;;; dropResponseBuffers) ;;;
  modify (set_config (Some config)) ;;;
  modify (set_deferredThreads None).

Definition reset : JS B unit :=
  modify (set_deferredThreads None) ;;;
  on_mod (let! r := callSRet "duckdb_web_reset" [] in check_status r ;;; dropResponseBuffers).

(** A call whose response is a string. *)
Definition string_call (funcName : string) (args : list WasmArg) : JS (Module M) string :=
  let! r := callSRet funcName args in
  check_status r ;;;
  let! s := readString r.1.2 r.2 in
  dropResponseBuffers ;;; ret s.

Definition getVersion : JS B string := on_mod (string_call "duckdb_web_get_version" []).
Definition getExtensionUrl (name : string) : JS B string :=
  on_mod (string_call "duckdb_web_extension_url" [Arg_string name]).
Definition getFeatureFlags : JS B Z := on_mod (ccall "duckdb_web_get_feature_flags" []).

Definition tokenize (text : string) : JS B ScriptTokens :=
  let! res := on_mod (
    let buf := utf8_encode text in
    let! r := call_with_buffer buf "duckdb_web_tokenize_buffer"
                (fun p => [Arg_number p; Arg_number (lenZ buf)]) in
    check_status r ;;;
    let! s := readString r.1.2 r.2 in
    dropResponseBuffers ;;; ret s) in
  lift_o (parse_tokens res).

Definition connect : JS B Z := on_mod (ccall "duckdb_web_connect" []).
Definition disconnect (conn : Z) : JS B unit :=
  on_mod (ccall "duckdb_web_disconnect" [Arg_number conn]) ;;;
  post_workers (fun p => (fun w => (w, dropUDFFunctions conn)) <$> all_workers p).

(** *** Queries *)

Definition runQueryImpl (conn : Z) (text : string) : JS B bytes :=
  on_mod (
    let buf := utf8_encode text in
    let! r := call_with_buffer buf "duckdb_web_query_run_buffer"
                (fun p => [Arg_number conn; Arg_number p; Arg_number (lenZ buf)]) in
    check_status r ;;;
    let! res := copyBuffer r.1.2 r.2 in
    dropResponseBuffers ;;; ret res).

(** The response of a pending query: [null] while it runs. *)
Definition pending_response (r : Z * Z * Z) : JS (Module M) (option bytes) :=
  check_status r ;;;
  if r.1.2 =? 0 then ret None
  else let! res := copyBuffer r.1.2 r.2 in dropResponseBuffers ;;; ret (Some res).

Definition startPendingQueryImpl (conn : Z) (text : string) (allow : bool) : JS B (option bytes) :=
  on_mod (
    let buf := utf8_encode text in
    let! r := call_with_buffer buf "duckdb_web_pending_query_start_buffer"
                (fun p => [Arg_number conn; Arg_number p; Arg_number (lenZ buf); Arg_boolean allow]) in
    pending_response r).

Definition pollPendingQuery (conn : Z) : JS B (option bytes) :=
  on_mod (let! r := callSRet "duckdb_web_pending_query_poll" [Arg_number conn] in pending_response r).

Definition cancelPendingQuery (conn : Z) : JS B bool :=
  let! r := on_mod (ccall "duckdb_web_pending_query_cancel" [Arg_number conn]) in ret (negb (r =? 0)).

(** [shared] is the identity of the module's memory when it is shared; the
    address comes back as a signed 32-bit integer. *)
Definition getInterruptHandle (shared : option Z) (conn : Z) : JS B (option InterruptHandle) :=
  match shared with
  | None => ret None
  | Some mem =>
      let! r := on_mod (ccall "duckdb_web_connection_interrupt_flag" [Arg_number conn]) in
      ret (Some {| memory := mem; offset := r mod 2 ^ 32 |})
  end.

Definition fetchQueryResults (conn : Z) : JS B (option bytes) :=
  on_mod (
    let! r := callSRet "duckdb_web_query_fetch_results" [Arg_number conn] in
    if IsDuckDBWasmRetry r.1.1 then dropResponseBuffers ;;; ret None
    else if negb (IsArrowBuffer r.1.1) then
      let! msg := readString r.1.2 r.2 in
      throw (Error ("Unexpected StatusCode from duckdb_web_query_fetch_results (" +:+ pretty r.1.1 +:+
                    ") and with self reported error as" +:+ msg))
    else
      check_status r ;;;
      let! res := copyBuffer r.1.2 r.2 in
      dropResponseBuffers ;;; ret (Some res)).

Definition getTableNames (conn : Z) (text : string) : JS B (list string) :=
  let! res := on_mod (
    let buf := utf8_encode text in
    let! r := call_with_buffer buf "duckdb_web_get_tablenames_buffer"
                (fun p => [Arg_number conn; Arg_number p; Arg_number (lenZ buf)]) in
    check_status r ;;;
    let! s := readString r.1.2 r.2 in
    dropResponseBuffers ;;; ret s) in
  lift_o (parse_strings res).

(** *** Single-threaded extension loads *)

(** [finally] disconnects on both completions of [work]. *)
Definition withPrivateConnection {A} (work : Z -> JS B A) : JS B A :=
  let! conn := on_mod (ccall "duckdb_web_connect" []) in
  try_finally (work conn) (on_mod (ccall "duckdb_web_disconnect" [Arg_number conn]) ;;; ret tt).

Definition readThreadsSetting : JS B (option Z) :=
  try_catch
    (let! ipc := withPrivateConnection (fun conn => runQueryImpl conn "SELECT current_setting('threads')") in
     let! table := lift_o (tableFromIPC ipc) in
     ret (if numRows table <? 1 then None else first_value table))
    (fun e => modify (add_warning ("singleThreadedExtensionLoad: failed to read 'threads' setting: " +:+ error_string e)) ;;;
              ret None).

Definition restoreDeferredThreads : JS B unit :=
  let! d := gets _deferredThreads in
  match d with
  | None => ret tt
  | Some threads =>
      try_catch
        (withPrivateConnection (fun conn => runQueryImpl conn ("SET threads=" +:+ pretty threads)) ;;;
         modify (set_deferredThreads None))
        (fun e => modify (add_warning ("singleThreadedExtensionLoad: failed to restore threads=" +:+
                                       pretty threads +:+ ": " +:+ error_string e)))
  end.

(** [this._config?.singleThreadedExtensionLoad === false] *)
Definition feature_disabled (c : option DuckDBConfig) : bool :=
  bool_decide ((c ≫= singleThreadedExtensionLoad) = Some false).

Definition withSingleThreadedExtensionLoad {A} (text : string) (work : JS B A) : JS B A :=
  let! c := gets _config in
  if feature_disabled c then work
  else if negb (is_extension_load (chars text)) then restoreDeferredThreads ;;; work
  else
    let! d := gets _deferredThreads in
    match d with
    | Some _ => work
    | None =>
        let! previousThreads := readThreadsSetting in
        match previousThreads with
        | None => work
        | Some t =>
            if t <=? 1 then work
            else
              withPrivateConnection (fun conn => runQueryImpl conn "SET threads=1") ;;;
              modify (set_deferredThreads (Some t)) ;;;
              work
        end
    end.

Definition runQuery (conn : Z) (text : string) : JS B bytes :=
  withSingleThreadedExtensionLoad text (runQueryImpl conn text).
Definition startPendingQuery (conn : Z) (text : string) (allow : bool) : JS B (option bytes) :=
  withSingleThreadedExtensionLoad text (startPendingQueryImpl conn text allow).

(** *** Scalar functions *)

Definition udf_declaration_json (functionId : Z) (name : string) (returnType : SQLType) : Json :=
  obj [("functionId", Some (JNumber functionId)); ("name", Some (JString name));
       ("returnType", Some (sqltype_json returnType))]%string.

Definition createScalarFunction (conn : Z) (name : string) (returns : DataType) (func : Z) : JS B unit :=
  let! functionId := gets _nextUDFId in
  let! returnType := lift_o (arrowToSQLType returns) in
  let def := {| functionId := functionId; udf_connectionId := conn; udf_name := name;
                udf_returnType := returns; udf_func := func |} in
  modify (fun s => set_nextUDFId (_nextUDFId s + 1) s) ;;;
  on_mod (
    let! r := callSRet "duckdb_web_udf_scalar_create"
                [Arg_number conn; Arg_json (udf_declaration_json functionId name returnType)] in
    check_status r ;;; dropResponseBuffers) ;;;
  modify (fun s => set_udfFunctions (<[functionId := def]> (_udfFunctions s)) s) ;;;
  post_function def.

(** *** Prepared statements *)

Definition createPrepared (conn : Z) (text : string) : JS B Z :=
  restoreDeferredThreads ;;;
  on_mod (
    let buf := utf8_encode text in
    let! r := call_with_buffer buf "duckdb_web_prepared_create_buffer"
                (fun p => [Arg_number conn; Arg_number p; Arg_number (lenZ buf)]) in
    check_status r ;;; dropResponseBuffers ;;; ret r.1.2).

(** A call without a result. *)
Definition void_call (funcName : string) (args : list WasmArg) : JS (Module M) unit :=
  let! r := callSRet funcName args in check_status r ;;; dropResponseBuffers.
(** A call whose response is a buffer. *)
Definition buffer_call (funcName : string) (args : list WasmArg) : JS (Module M) bytes :=
  let! r := callSRet funcName args in
  check_status r ;;;
  let! res := copyBuffer r.1.2 r.2 in dropResponseBuffers ;;; ret res.

Definition closePrepared (conn statement : Z) : JS B unit :=
  on_mod (void_call "duckdb_web_prepared_close" [Arg_number conn; Arg_number statement]).
Definition runPrepared (conn statement : Z) (params : list Json) : JS B bytes :=
  restoreDeferredThreads ;;;
  on_mod (buffer_call "duckdb_web_prepared_run"
            [Arg_number conn; Arg_number statement; Arg_json (JArray params)]).
Definition sendPrepared (conn statement : Z) (params : list Json) : JS B bytes :=
  restoreDeferredThreads ;;;
  on_mod (buffer_call "duckdb_web_prepared_send"
            [Arg_number conn; Arg_number statement; Arg_json (JArray params)]).

(** *** Inserts *)

Definition insertArrowFromIPCStream (conn : Z) (buffer : bytes) (options : option ArrowInsertOptions)
    : JS B unit :=
  restoreDeferredThreads ;;;
  match buffer with
  | [] => ret tt
  | _ =>
      let optJSON := match options with Some o => Arg_json (arrow_options_json o) | None => Arg_string "" end in
      on_mod (
        let! r := call_with_buffer buffer "duckdb_web_insert_arrow_from_ipc_stream"
                    (fun p => [Arg_number conn; Arg_number p; Arg_number (lenZ buffer); optJSON]) in
        check_status r)
  end.

(** [options.columnsFlat] after the loop over [options.columns], if there are any. *)
Definition columns_flat (columns : option (list (string * DataType))) (flat : option (list SQLField))
    : Outcome (option (list SQLField)) :=
  match columns with
  | None => Normal flat
  | Some cols => outcome_map Some (fieldsToSQL cols)
  end.

Definition insertCSVFromPath (conn : Z) (path : string) (options : CSVInsertOptions) : JS B unit :=
  restoreDeferredThreads ;;;
  let! flat := lift_o (columns_flat (ci_columns options) (ci_columnsFlat options)) in
  on_mod (
    let! r := callSRet "duckdb_web_insert_csv_from_path"
                [Arg_number conn; Arg_string path; Arg_json (csv_options_json options flat)] in
    check_status r).

Definition insertJSONFromPath (conn : Z) (path : string) (options : JSONInsertOptions) : JS B unit :=
  restoreDeferredThreads ;;;
  let! flat := lift_o (columns_flat (ji_columns options) (ji_columnsFlat options)) in
  on_mod (
    let! r := callSRet "duckdb_web_insert_json_from_path"
                [Arg_number conn; Arg_string path; Arg_json (json_options_json options flat)] in
    check_status r).

(** *** Files *)

Definition globFiles (path : string) : JS B (list WebFile) :=
  let! infoStr := on_mod (string_call "duckdb_web_fs_glob_file_infos" [Arg_string path]) in
  let! info := lift_o (parse_files infoStr) in
  ret (default [] info).

Definition registerFileURL (name : string) (url : option string) (proto : DuckDBDataProtocol) (directIO : bool)
    : JS B unit :=
  on_mod (void_call "duckdb_web_fs_register_file_url"
            [Arg_string name; Arg_string (default name url); Arg_number (protocol_number proto);
             Arg_boolean directIO]).

(** The engine keeps the buffer. *)
Definition registerFileBuffer (name : string) (buffer : bytes) : JS B unit :=
  on_mod (
    let! ptr := _malloc (lenZ buffer) in
    heap_set ptr buffer ;;;
    void_call "duckdb_web_fs_register_file_buffer" [Arg_string name; Arg_number ptr; Arg_number (lenZ buffer)]).
Definition registerFileText (name text : string) : JS B unit := registerFileBuffer name (utf8_encode text).

Definition prepareFileHandleAsync (name : string) (handle : FileHandle) (protocol : DuckDBDataProtocol)
    : JS B FileHandle :=
  let rethrow (o : Outcome FileHandle) : JS B FileHandle :=
    match o with
    | Normal h => ret h
    | Thrown e => throw (Error (err_message e +:+ ":" +:+ name))
    end in
  match protocol with
  | BROWSER_FSACCESS =>
      match handle with
      | FH_sync _ => ret handle
      | FH_async id => rethrow (createSyncAccessHandle id)
      | _ => rethrow (match opfs_getFileHandle name with
                      | Normal id => createSyncAccessHandle id
                      | Thrown e => Thrown e
                      end)
      end
  | _ => ret handle
  end.

Definition registerFileHandle (name : string) (handle : FileHandle) (protocol : DuckDBDataProtocol)
    (directIO : bool) : JS B unit :=
  on_mod (void_call "duckdb_web_fs_register_file_url"
            [Arg_string name; Arg_string name; Arg_number (protocol_number protocol); Arg_boolean directIO]) ;;;
  modify (fun s => set_files (<[name := handle]> (_files s)) (delete name (_preparedHandles s)) s) ;;;
  post_workers (fun p => ((fun w => (w, registerFileHandle_msg name handle)) <$> pthreads p) ++
                         ((fun w => (w, dropFileHandle name)) <$> unusedWorkers p)).

Definition registerFileHandleAsync (name : string) (handle : FileHandle) (protocol : DuckDBDataProtocol)
    (directIO : bool) : JS B unit :=
  let! handle_inner := prepareFileHandleAsync name handle protocol in
  registerFileHandle name handle_inner protocol directIO.

(** The loop over the handles the runtime prepared. *)
Definition register_prepared (items : list PreparedDBFileHandle) : JS B unit :=
  for_of items (fun item =>
    if prep_fromCached item then ret tt
    else
      let! size := lift_o (getSize (prep_handle item)) in
      when negb (size =? 0) then
        registerFileHandleAsync (prep_path item) (prep_handle item) BROWSER_FSACCESS true).

Definition prepareFileHandle (fileName : string) (protocol : DuckDBDataProtocol) : JS B unit :=
  match protocol, runtime_prepareFileHandles with
  | BROWSER_FSACCESS, Some f =>
      let! items := lift_o (f [fileName] BROWSER_FSACCESS) in register_prepared items
  | _, _ => throw (Error ("prepareFileHandle: unsupported protocol " +:+ pretty (protocol_number protocol)))
  end.

Definition prepareDBFileHandle (path : string) (protocol : DuckDBDataProtocol) : JS B unit :=
  match protocol, runtime_prepareDBFileHandle with
  | BROWSER_FSACCESS, Some f =>
      let! items := lift_o (f path BROWSER_FSACCESS) in register_prepared items
  | _, _ => throw (Error ("prepareDBFileHandle: unsupported protocol " +:+ pretty (protocol_number protocol)))
  end.

Definition dropFile (name : string) : JS B unit := on_mod (void_call "duckdb_web_fs_drop_file" [Arg_string name]).

Definition drop_mod {A} (m : JS (Module M) A) : JS (DropState M) A := zoom fst (fun m s => (m, s.2)) m.

Definition dropFiles_names (names : list string) : JS (DropState M) unit :=
  for_of names (fun str =>
    when 0 <? Z.of_nat (String.length str) then
      let size := m_lengthBytesUTF8 str + 1 in
      let! p := drop_mod (_malloc size) in
      when p =? 0 then throw (Error ("Failed to allocate memory for string: " +:+ str)) ;;;
      drop_mod (stringToUTF8 str p size) ;;;
      modify (fun s => (s.1, (s.2.1 ++ [p], s.2.2)))).

Definition dropFiles_call : JS (DropState M) unit :=
  let! pointers := gets (fun s => s.2.1) in
  let! a := drop_mod (_malloc (lenZ pointers * 4)) in
  modify (fun s => (s.1, (s.2.1, a))) ;;;
  when a =? 0 then throw (Error "Failed to allocate memory for pointers array") ;;;
  for_of (imap (fun i p => (Z.of_nat i, p)) pointers) (fun ip =>
    drop_mod (set_HEAP32 (shr32 a 2 + ip.1) ip.2)) ;;;
  drop_mod (void_call "duckdb_web_fs_drop_files" [Arg_number a; Arg_number (lenZ pointers)]).

Definition dropFiles_finally : JS (DropState M) unit :=
  let! pointers := gets (fun s => s.2.1) in
  for_of pointers (fun p => drop_mod (_free p)) ;;;
  let! a := gets (fun s => s.2.2) in
  when 0 <? a then drop_mod (_free a).

Definition dropFiles (names : option (list string)) : JS B unit :=
  on_mod (fun m =>
    let '(o, s) := try_finally (dropFiles_names (default [] names) ;;; dropFiles_call)
                     dropFiles_finally (m, ([], -1)) in
    (o, s.1)).

Definition flushFiles : JS B unit := on_mod (ccall "duckdb_web_flush_files" []) ;;; ret tt.
Definition copyFileToPath (name path : string) : JS B unit :=
  on_mod (void_call "duckdb_web_copy_file_to_path" [Arg_string name; Arg_string path]).
Definition copyFileToBuffer (name : string) : JS B bytes :=
  on_mod (buffer_call "duckdb_web_copy_file_to_buffer" [Arg_string name]).

Definition registerOPFSFileName (file : string) : JS B unit :=
  if String.prefix "opfs://" file then prepareFileHandle file BROWSER_FSACCESS
  else throw (Error ("Not an OPFS file name: " +:+ file)).
Definition collectFileStatistics (file : string) (enable : bool) : JS B unit :=
  on_mod (let! r := callSRet "duckdb_web_collect_file_stats" [Arg_string file; Arg_boolean enable] in
          check_status r).
(** The statistics are a view of the heap at the response's address. *)
Definition exportFileStatistics (file : string) : JS B FileStatistics :=
  let! bs := on_mod (
    let! r := callSRet "duckdb_web_export_file_stats" [Arg_string file] in
    check_status r ;;;
    let! bs := heap_subarray r.1.2 r.2 in ret (r.1.2, bs)) in
  lift_o (new_FileStatistics bs.1 bs.2).

(** ** The bindings implement the interface *)

(** [shared] is the module's memory, when it is shared. *)
Definition base_bindings (shared : option Z) : DuckDBBindings B := {|
  b_open := open; b_reset := reset; b_getVersion := getVersion; b_getExtensionUrl := getExtensionUrl;
  b_getFeatureFlags := getFeatureFlags; b_tokenize := tokenize; b_connect := connect;
  b_disconnect := disconnect; b_runQuery := runQuery; b_startPendingQuery := startPendingQuery;
  b_pollPendingQuery := pollPendingQuery; b_cancelPendingQuery := cancelPendingQuery;
  b_getInterruptHandle := getInterruptHandle shared; b_fetchQueryResults := fetchQueryResults;
  b_getTableNames := getTableNames; b_createPrepared := createPrepared; b_closePrepared := closePrepared;
  b_runPrepared := runPrepared; b_sendPrepared := sendPrepared;
  b_insertArrowFromIPCStream := insertArrowFromIPCStream; b_insertCSVFromPath := insertCSVFromPath;
  b_insertJSONFromPath := insertJSONFromPath;
  b_registerFileURL name url := registerFileURL name (Some url);
  b_registerFileBuffer := registerFileBuffer; b_registerFileHandleAsync := registerFileHandleAsync;
  b_prepareDBFileHandle := prepareDBFileHandle; b_globFiles := globFiles; b_dropFile := dropFile;
  b_dropFiles := dropFiles; b_flushFiles := flushFiles; b_copyFileToPath := copyFileToPath;
  b_copyFileToBuffer := copyFileToBuffer; b_registerOPFSFileName := registerOPFSFileName;
  b_collectFileStatistics := collectFileStatistics; b_exportFileStatistics := exportFileStatistics
|}.
End BindingsBase.
