(* ===== verification/SampleModule.v ===== *)
(** * SampleModule: a small engine module

    An instance of [DuckDBModule] with its laws, on which the witnesses run: a
    heap of bytes, a bump allocator, and an engine that knows a thread count,
    logs the statements it runs and answers [fail] with an error. *)
From S2P Require Import Prelude Text Data WasmModule BindingsBase.
From stdpp Require Import base tactics list gmap strings pretty.
From Stdlib Require Import ZArith Lia.
Open Scope Z_scope.

Record Sample := MkSample {
  heap : gmap Z Z;
  doubles : gmap Z Z;
  top : Z;
  stack : Z;
  threads : Z;
  ran : list (Z * string)    (** thread count, statement *)
}.

Definition sample_read (p n : Z) (m : Sample) : bytes :=
  (fun i => default 0 (heap m !! i)) <$> seqZ p n.
Definition with_heap (h : gmap Z Z) (m : Sample) : Sample :=
  MkSample h (doubles m) (top m) (stack m) (threads m) (ran m).
Fixpoint heap_store (p : Z) (bs : bytes) (h : gmap Z Z) : gmap Z Z :=
  match bs with [] => h | b :: bs' => <[p := b]> (heap_store (p + 1) bs' h) end.

(** Answer [status], with a copy of [bs] at address 8000. *)
Definition respond (r status : Z) (bs : bytes) (m : Sample) : Sample :=
  MkSample (heap_store 8000 bs (heap m))
    (<[shr32 r 3 := status]> (<[shr32 r 3 + 1 := 8000]> (<[shr32 r 3 + 2 := lenZ bs]> (doubles m))))
    (top m) (stack m) (threads m) (ran m).
Definition log_statement (text : string) (m : Sample) : Sample :=
  MkSample (heap m) (doubles m) (top m) (stack m) (threads m) (ran m ++ [(threads m, text)]).
Definition set_threads (n : Z) (m : Sample) : Sample :=
  MkSample (heap m) (doubles m) (top m) (stack m) n (ran m).

Definition threads_query : string := "SELECT current_setting('threads')".

(** The thread count a [SET threads=n] asks for, among those the sample knows;
    it fails on the others. *)
Definition threads_of_text (text : string) : option Z :=
  snd <$> list_find (fun n : Z => text = "SET threads=" +:+ pretty n) [1; 4; 8].

Definition run_text (r : Z) (text : string) (m : Sample) : Sample :=
  if bool_decide (text = "fail"%string) then respond r 1 (utf8_encode "failed") (log_statement text m)
  else if bool_decide (text = threads_query) then respond r 0 [threads m] (log_statement text m)
  else match threads_of_text text with
       | Some n => respond r 0 [] (set_threads n (log_statement text m))
       | None => if String.prefix "SET threads=" text then respond r 1 (utf8_encode "failed") (log_statement text m)
                 else respond r 0 [1; 2; 3] (log_statement text m)
       end.

Definition sample_ccall (name : string) (args : list WasmArg) (m : Sample) : Outcome Z * Sample :=
  match args with
  | [Arg_number r; Arg_number conn; Arg_number p; Arg_number n] =>
      if bool_decide (name = "duckdb_web_query_run_buffer"%string)
      then (Normal 0, run_text r (utf8_decode (sample_read p n m)) m)
      else (Normal 0, respond r 0 [] m)
  | [Arg_number r; Arg_number conn; Arg_number p; Arg_number n; _] => (Normal 0, respond r 0 [] m)
  | Arg_number r :: _ =>
      if bool_decide (name = "duckdb_web_disconnect"%string) then (Normal 0, m)
      else (Normal 0, respond r 0 [] m)
  | _ => (Normal 1, m)
  end.

#[export] Instance sample_module : DuckDBModule Sample := {|
  m_malloc n m := (top m, MkSample (heap m) (doubles m) (top m + Z.max 8 n) (stack m) (threads m) (ran m));
  m_free _ m := m;
  m_read := sample_read;
  m_write p bs m := (Normal tt, with_heap (heap_store p bs (heap m)) m);
  m_write32 _ _ m := m;
  m_lengthBytesUTF8 s := lenZ (utf8_encode s);
  m_stringToUTF8 s p _ m := with_heap (heap_store p (utf8_encode s ++ [0]) (heap m)) m;
  m_f64 i m := default 0 (doubles m !! i);
  m_set_f64 i v m := match v with
                     | HN_int n => MkSample (heap m) (<[i := n]> (doubles m)) (top m) (stack m) (threads m) (ran m)
                     | _ => m
                     end;
  m_stackSave m := stack m;
  m_stackAlloc n m := (stack m - n, MkSample (heap m) (doubles m) (top m) (stack m - n) (threads m) (ran m));
  m_stackRestore p m := MkSample (heap m) (doubles m) (top m) p (threads m) (ran m);
  m_ccall := sample_ccall
|}.

Lemma heap_store_lookup bs p h i :
  heap_store p bs h !! i = if decide (p <= i < p + lenZ bs) then bs !! Z.to_nat (i - p) else h !! i.
Proof.
  revert p. induction bs as [|b bs IH]; intros p; cbn [heap_store].
  - destruct (decide _) as [H|]; [unfold lenZ in H; cbn in H; lia|done].
  - assert (lenZ (b :: bs) = 1 + lenZ bs) as -> by (unfold lenZ; cbn; lia).
    pose proof (lenZ_nonneg bs).
    destruct (decide (i = p)) as [->|Hn].
    + rewrite lookup_insert_eq, decide_True by lia. by replace (p - p) with 0 by lia.
    + rewrite lookup_insert_ne, IH by done. destruct (decide (p + 1 <= i < p + 1 + lenZ bs)).
      * rewrite decide_True by lia. by replace (Z.to_nat (i - p)) with (S (Z.to_nat (i - (p + 1)))) by lia.
      * by rewrite decide_False by lia.
Qed.

Lemma sample_read_store p bs h m : sample_read p (lenZ bs) (with_heap (heap_store p bs h) m) = bs.
Proof.
  unfold sample_read. cbn. apply list_eq. intros i. rewrite list_lookup_fmap.
  destruct (decide (i < length bs)%nat) as [Hi|Hi].
  - rewrite lookup_seqZ_lt by (unfold lenZ; lia). cbn. rewrite heap_store_lookup, decide_True by (unfold lenZ; lia).
    replace (Z.to_nat (p + Z.of_nat i - p)) with i by lia.
    by destruct (lookup_lt_is_Some_2 bs i Hi) as [x ->].
  - rewrite lookup_seqZ_ge by (unfold lenZ; lia). cbn. symmetry. apply lookup_ge_None. lia.
Qed.

#[export] Instance sample_laws : DuckDBModuleLaws Sample.
Proof.
  split; cbn.
  - intros. apply sample_read_store.
  - intros. unfold sample_read, lenZ. rewrite length_fmap, length_seqZ. lia.
  - done.
  - done.
  - done.
Qed.

Definition sample_engine : Sample := MkSample ∅ ∅ 16 4096 4 [].

(** A table of one row that holds the first byte. *)
Definition sample_table (ipc : bytes) : Outcome ArrowTable :=
  Normal {| numRows := lenZ ipc; first_value := head ipc |}.
Definition sample_bindings : Bindings Sample :=
  MkBindings (MkModule sample_engine []) 1 None None ∅ ∅ ∅
    (Some {| pthreads := [1; 2]; unusedWorkers := [3] |}) [] [].
