(* ===== verification/BindingsMemory.v ===== *)
(** * BindingsMemory: the buffers the bindings pass to the engine

    Every buffer the JavaScript side allocates is freed, or is handed to the
    engine by [registerFileBuffer]; the text of a query reaches the engine
    unchanged; a call leaves the engine's stack as it was. *)
From S2P Require Import Prelude Text Regex Data FileStats Protocol BindingsInterface Dispatcher.
From S2P Require Import WorkerBindings WasmModule Stringify BindingsBase SampleModule.
From stdpp Require Import base tactics list gmap strings pretty.
From Stdlib Require Import ZArith Lia.
Open Scope Z_scope.

(** The allocations of [p] that were not freed. *)
Definition live_event (p : Z) (e : Event) : Z :=
  match e with
  | Ev_malloc q => if q =? p then 1 else 0
  | Ev_free q => if q =? p then -1 else 0
  | _ => 0
  end.
Definition live (p : Z) (tr : list Event) : Z := sum_list_Z (live_event p <$> tr).

(** The times [p] was handed to the engine. *)
Definition handed_event (p : Z) (e : Event) : Z :=
  match e with
  | Ev_call f [_; _; Arg_number q; _] =>
      if bool_decide (f = "duckdb_web_fs_register_file_buffer"%string) && (q =? p) then 1 else 0
  | _ => 0
  end.
Definition handed (p : Z) (tr : list Event) : Z := sum_list_Z (handed_event p <$> tr).

(** The calls and writes that threw. *)
Definition thrown (tr : list Event) : Z := sum_list_Z ((fun e => match e with Ev_throw => 1 | _ => 0 end) <$> tr).

Arguments live : simpl never. Arguments handed : simpl never. Arguments thrown : simpl never.
#[local] Arguments callSRet : simpl never.

Section Accounting.
Context {M : Type} `{DuckDBModule M}.

(** At every address the outstanding allocations are those handed over, up to [k], and
    one at most for each call or write that threw.  Address 0 is a failed allocation. *)
Definition accounted (k : Z -> Z) (s : Module M) : Prop :=
  forall p, 0 < p -> handed p (trace s) + k p <= live p (trace s) <= handed p (trace s) + k p + thrown (trace s).
Lemma live_one p e : live p [e] = live_event p e.
Proof. unfold live. cbn. lia. Qed.
Lemma handed_one p e : handed p [e] = handed_event p e.
Proof. unfold handed. cbn. lia. Qed.

Definition neutral (e : Event) : Prop := forall p, live_event p e = 0 /\ handed_event p e = 0.

Lemma live_app p l1 l2 : live p (l1 ++ l2) = live p l1 + live p l2.
Proof. unfold live. by rewrite fmap_app, sum_list_Z_app. Qed.
Lemma handed_app p l1 l2 : handed p (l1 ++ l2) = handed p l1 + handed p l2.
Proof. unfold handed. by rewrite fmap_app, sum_list_Z_app. Qed.
Lemma thrown_app l1 l2 : thrown (l1 ++ l2) = thrown l1 + thrown l2.
Proof. unfold thrown. by rewrite fmap_app, sum_list_Z_app. Qed.
Lemma thrown_one e : 0 <= thrown [e].
Proof. unfold thrown. cbn. destruct e; lia. Qed.

Lemma accounted_trace k (s s' : Module M) : trace s' = trace s -> accounted k s -> accounted k s'.
Proof. unfold accounted. by intros ->. Qed.
Lemma accounted_note k e (s : Module M) m : neutral e -> accounted k s -> accounted k (note e s m).
Proof.
  intros He Hs p Hp. cbn. rewrite live_app, handed_app, thrown_app. destruct (He p) as [E1 E2].
  rewrite live_one, handed_one, E1, E2. specialize (Hs p Hp). pose proof (thrown_one e). lia.
Qed.
Lemma neutral_throw : neutral Ev_throw.
Proof. done. Qed.
Lemma accounted_outcome {A} k (o : Outcome A) e (s : Module M) m : neutral e -> accounted k s -> accounted k (note_outcome o e s m).
Proof. intros He Hs. destruct o; cbn; [|apply accounted_note; [apply neutral_throw|]]; by apply accounted_note. Qed.

Lemma accounted_ext k k' (s : Module M) : (forall p, 0 < p -> k p = k' p) -> accounted k s -> accounted k' s.
Proof. intros E Hs p Hp. rewrite <- E by done. by apply Hs. Qed.
Definition one (q p : Z) : Z := if q =? p then 1 else 0.
Lemma accounted_malloc k q (s : Module M) m : accounted k s -> accounted (fun p => k p + one q p) (note (Ev_malloc q) s m).
Proof.
  intros Hs p Hp. specialize (Hs p Hp). cbn. rewrite live_app, handed_app, thrown_app, live_one, handed_one.
  change (thrown [Ev_malloc q]) with 0. unfold one. cbn. lia.
Qed.
Lemma accounted_free k q (s : Module M) m : accounted (fun p => k p + one q p) s -> accounted k (note (Ev_free q) s m).
Proof.
  intros Hs p Hp. specialize (Hs p Hp). cbn beta in Hs. cbn. rewrite live_app, handed_app, thrown_app, live_one, handed_one.
  change (thrown [Ev_free q]) with 0. unfold one in Hs. cbn. destruct (q =? p); lia.
Qed.

(** What throws may leave one allocation behind. *)
Lemma accounted_throw k q (s : Module M) m : accounted (fun p => k p + one q p) s -> accounted k (note Ev_throw s m).
Proof.
  intros Hs p Hp. specialize (Hs p Hp). cbn beta in Hs. cbn. rewrite live_app, handed_app, thrown_app, live_one, handed_one.
  change (thrown [Ev_throw]) with 1. unfold one in Hs. cbn in *. destruct (q =? p); lia.
Qed.

Lemma acc_ccall k name args : neutral (Ev_call name args) -> preserves (accounted k) (ccall name args).
Proof. intros Hn s Hs. unfold ccall. destruct (m_ccall _ _ _). by apply accounted_outcome. Qed.
Lemma acc_quiet {A} k (m : JS (Module M) A) : (forall s, trace (m s).2 = trace s) -> preserves (accounted k) m.
Proof. intros Hm s. by apply accounted_trace. Qed.

(** A call is neutral unless it registers a buffer. *)
Lemma neutral_other name args :
  name <> "duckdb_web_fs_register_file_buffer"%string -> neutral (Ev_call name args).
Proof.
  intros Hn p. split; [done|]. cbn. rewrite bool_decide_false by done.
  by destruct args as [|? [|? [|[] [|? []]]]].
Qed.

Lemma acc_callSRet k name args :
  name <> "duckdb_web_fs_register_file_buffer"%string -> preserves (accounted k) (callSRet name args).
Proof.
  intros Hn. unfold callSRet.
  repeat (first [apply preserves_bind; [|intros ?] | apply preserves_gets | apply preserves_ret]).
  - apply acc_quiet. intros s. by destruct (m_stackAlloc _ _).
  - by apply acc_ccall, neutral_other.
  - by apply acc_quiet.
Qed.

Lemma acc_drop k : preserves (accounted k) dropResponseBuffers.
Proof. apply preserves_bind; [by apply acc_ccall, neutral_other|intros; apply preserves_ret]. Qed.
Lemma acc_readString k d n : preserves (accounted k) (readString d n).
Proof. apply preserves_bind; [apply preserves_gets|intros; apply preserves_ret]. Qed.
Lemma acc_check k r : preserves (accounted k) (check_status r).
Proof.
  unfold check_status. apply preserves_if; [apply preserves_ret|].
  apply preserves_bind; [apply acc_readString|intros; apply preserves_throw].
Qed.

(** A buffer is allocated and written. *)
Lemma acc_filled k buf (s : Module M) : accounted k s ->
  let p := (m_malloc (lenZ buf) (state s)).1 in
  exists m, match (let! p := _malloc (lenZ buf) in heap_set p buf) s with
  | (Normal _, s') => s' = MkModule m ((trace s ++ [Ev_malloc p]) ++ [Ev_write p buf]) /\ accounted (fun q => k q + one p q) s'
  | (Thrown _, s') => accounted k s'
  end.
Proof.
  intros Hs. unfold _malloc, heap_set, bind. destruct (m_malloc _ _) as [p m] eqn:Em. cbn.
  destruct (m_write p buf m) as [o m'] eqn:Ew. exists m'.
  assert (accounted (fun q => k q + one p q) (note (Ev_write p buf) (note (Ev_malloc p) s m) m')) as H1.
  { by apply accounted_note, accounted_malloc. }
  destruct o as [[]|e]; cbn; [by split|]. by apply (accounted_throw k p).
Qed.

(** A call of the engine fails where a later step would have freed [p]. *)
Lemma acc_stranded k p name args (s : Module M) : name <> "duckdb_web_fs_register_file_buffer"%string ->
  accounted (fun q => k q + one p q) s ->
  match callSRet name args s with
  | (Normal _, s') => accounted (fun q => k q + one p q) s'
  | (Thrown _, s') => accounted k s'
  end.
Proof.
  intros Hn Hs. unfold callSRet, bind, gets, ccall, on_state, modify, ret. cbn.
  destruct (m_stackAlloc _ _) as [r m]. cbn. pose proof (neutral_other name (Arg_number r :: args) Hn) as Hne.
  destruct (m_ccall name (Arg_number r :: args) m) as [[v|e] m']; cbn.
  - eapply accounted_trace; [|apply (accounted_note _ _ (MkModule m (trace s)) m' Hne)]; done.
  - apply (accounted_throw k p), accounted_note; done.
Qed.

Lemma acc_call_with_buffer k buf name args :
  name <> "duckdb_web_fs_register_file_buffer"%string ->
  preserves (accounted k) (call_with_buffer buf name args).
Proof.
  intros Hn s Hs. destruct (acc_filled k buf s Hs) as [m Hf]. revert Hf.
  unfold call_with_buffer, bind at 1 2. unfold bind at 1. destruct (_malloc (lenZ buf) s) as [[p|e] s1] eqn:Em; [|by intros Hf].
  assert (p = (m_malloc (lenZ buf) (state s)).1) as <-.
  { unfold _malloc in Em. destruct (m_malloc _ _). by simplify_eq. }
  cbn. unfold bind at 1. destruct (heap_set p buf s1) as [[[]|e] s2]; [|done]. intros [_ H2]. unfold bind at 1.
  pose proof (acc_stranded k p name (args p) s2 Hn H2) as H3. destruct (callSRet name (args p) s2) as [[r|e] s3]; [|done].
  by apply accounted_free.
Qed.

(** The buffer of [registerFileBuffer] is the engine's from the call on. *)
Lemma acc_register_buffer k name buffer :
  preserves (accounted k)
    (let! ptr := _malloc (lenZ buffer) in
     heap_set ptr buffer ;;;
     void_call "duckdb_web_fs_register_file_buffer" [Arg_string name; Arg_number ptr; Arg_number (lenZ buffer)]).
Proof.
  intros s Hs. destruct (acc_filled k buffer s Hs) as [m Hf]. revert Hf.
  unfold bind at 1. unfold bind at 1. destruct (_malloc (lenZ buffer) s) as [[p|e] s1] eqn:Em; [|by intros Hf].
  assert (p = (m_malloc (lenZ buffer) (state s)).1) as <-.
  { unfold _malloc in Em. destruct (m_malloc _ _). by simplify_eq. }
  unfold bind at 1. destruct (heap_set p buffer s1) as [[[]|e] s2]; [|done]. intros [_ H2].
  assert (forall ar m', accounted k (note (Ev_call "duckdb_web_fs_register_file_buffer" [ar; Arg_string name; Arg_number p; Arg_number (lenZ buffer)])
    (MkModule m' (trace s2)) m')) as Hcall.
  { intros ar m' q Hq. specialize (H2 q Hq). cbn beta in H2. cbn. rewrite live_app, handed_app, thrown_app, live_one, handed_one.
    unfold one in H2. cbn in *. rewrite bool_decide_true by done.
    change (thrown [Ev_call "duckdb_web_fs_register_file_buffer" [ar; Arg_string name; Arg_number p; Arg_number (lenZ buffer)]]) with 0.
    cbn. destruct (p =? q); lia. }
  unfold void_call, callSRet, bind, gets, ccall, on_state, modify, ret. cbn.
  destruct (m_stackAlloc _ _) as [r m2]. cbn.
  destruct (m_ccall _ _ m2) as [[v|e] m3]; cbn; [|by apply (accounted_note k Ev_throw), (Hcall (Arg_number r) m3)].
  assert (preserves (accounted k) (check_status (m_f64 (shr32 r 3 + 0) m3, m_f64 (shr32 r 3 + 1) m3,
            m_f64 (shr32 r 3 + 2) m3) ;;; dropResponseBuffers)) as Hk.
  { apply preserves_bind; [apply acc_check|intros; apply acc_drop]. }
  apply Hk. eapply accounted_trace; [|exact (Hcall (Arg_number r) m3)]. done.
Qed.
End Accounting.

(** ** [dropFiles] *)

Section DropFiles.
Context {M : Type} `{DuckDBModule M}.

Definition count_Z (p : Z) (l : list Z) : Z := sum_list_Z ((fun q => if q =? p then 1 else 0) <$> l).
#[local] Arguments count_Z : simpl never.
Lemma count_Z_snoc p l q : count_Z p (l ++ [q]) = count_Z p l + if q =? p then 1 else 0.
Proof. unfold count_Z. rewrite fmap_app, sum_list_Z_app. cbn. lia. Qed.

(** The locals hold what the call allocated so far. *)
Definition drop_acc (k : Z -> Z) (s : DropState M) : Prop :=
  accounted (fun p => k p + count_Z p s.2.1 + one s.2.2 p) s.1.

Lemma drop_mod_acc {A} k (m : JS (Module M) A) :
  (forall k', preserves (accounted k') m) -> preserves (drop_acc k) (drop_mod m).
Proof. intros Hm [s l] Hs. unfold drop_mod, zoom. specialize (Hm _ _ Hs). cbn in *. by destruct (m s). Qed.

Lemma drop_malloc size (s : DropState M) :
  drop_mod (_malloc size) s =
    (Normal (m_malloc size (state s.1)).1, (note (Ev_malloc (m_malloc size (state s.1)).1) s.1 (m_malloc size (state s.1)).2, s.2)).
Proof. unfold drop_mod, zoom, _malloc. by destruct (m_malloc _ _). Qed.

Lemma dropFiles_names_acc k names : preserves (drop_acc k) (dropFiles_names (M := M) names).
Proof.
  apply preserves_for_of. intros str. apply preserves_if; [|apply preserves_ret].
  intros s Hs. cbn zeta. unfold bind at 1. rewrite drop_malloc. set (p := (m_malloc _ (state s.1)).1).
  pose proof (accounted_malloc _ p s.1 (m_malloc (m_lengthBytesUTF8 str + 1) (state s.1)).2 Hs) as Hk.
  destruct (Z.eqb_spec p 0) as [E|E].
  - cbn. eapply accounted_ext; [|exact Hk]. intros q Hq. cbn. unfold one. destruct (Z.eqb_spec p q); lia.
  - cbn. eapply accounted_ext; [|exact Hk]. intros q Hq. cbn. rewrite count_Z_snoc. unfold one. lia.
Qed.

Lemma dropFiles_call_acc k (s : DropState M) :
  s.2.2 = -1 -> drop_acc k s -> drop_acc k (dropFiles_call (M := M) s).2.
Proof.
  intros Ha Hs. unfold dropFiles_call, bind at 1, gets at 1. cbn beta iota. unfold bind at 1.
  rewrite drop_malloc. set (a := (m_malloc _ (state s.1)).1). cbv beta iota.
  unfold bind at 1, modify at 1. cbn beta iota.
  assert (drop_acc k (note (Ev_malloc a) s.1 (m_malloc (lenZ s.2.1 * 4) (state s.1)).2, (s.2.1, a))) as H2.
  { eapply accounted_ext; [|exact (accounted_malloc _ a _ _ Hs)]. intros q Hq. cbn. rewrite Ha. unfold one.
    destruct (Z.eqb_spec (-1) q); lia. }
  assert (preserves (drop_acc k) (when a =? 0 then throw (Error "Failed to allocate memory for pointers array") ;;;
    for_of (imap (fun i p => (Z.of_nat i, p)) s.2.1) (fun ip => drop_mod (set_HEAP32 (shr32 a 2 + ip.1) ip.2)) ;;;
    drop_mod (void_call "duckdb_web_fs_drop_files" [Arg_number a; Arg_number (lenZ s.2.1)]))) as Hp;
    [|exact (Hp _ H2)].
  apply preserves_bind; [apply preserves_if; [apply preserves_throw|apply preserves_ret]|intros _].
  apply preserves_bind.
  - apply preserves_for_of. intros ip. apply drop_mod_acc. intros k'. by apply acc_quiet.
  - intros _. apply drop_mod_acc. intros k'. unfold void_call.
    apply preserves_bind; [by apply acc_callSRet|intros r].
    apply preserves_bind; [apply acc_check|intros _; apply acc_drop].
Qed.

Lemma free_all k ps : forall (s : DropState M), accounted (fun q => k q + count_Z q ps) s.1 ->
  exists m, for_of ps (fun p => drop_mod (_free p)) s = (Normal tt, (m, s.2)) /\ accounted k m.
Proof.
  induction ps as [|p ps IH]; intros [m l] Hs.
  { exists m. split; [done|]. eapply accounted_ext; [|exact Hs]. intros q _. cbn beta. change (count_Z q []) with 0. lia. }
  cbn [for_of]. unfold bind, drop_mod at 1, zoom, _free at 1. cbn [fst snd].
  destruct (IH (note (Ev_free p) m (m_free p (state m)), l)) as (m' & -> & H'); [|by exists m'].
  apply accounted_free. eapply accounted_ext; [|exact Hs]. intros q _. unfold count_Z, one. cbn. lia.
Qed.

Lemma dropFiles_finally_acc k (s : DropState M) :
  drop_acc k s -> (dropFiles_finally (M := M) s).1 = Normal tt /\ accounted k (dropFiles_finally (M := M) s).2.1.
Proof.
  intros Hs. unfold dropFiles_finally, bind, gets.
  destruct (free_all (fun q => k q + one s.2.2 q) s.2.1 s) as (m & -> & Hm).
  { eapply accounted_ext; [|exact Hs]. intros q _. cbn. lia. }
  cbn [fst snd]. destruct (Z.ltb_spec 0 s.2.2) as [Hp|Hp]; (split; [done|]); [by apply accounted_free|].
  eapply accounted_ext; [|exact Hm]. intros q Hq. cbn. unfold one. destruct (Z.eqb_spec s.2.2 q); lia.
Qed.
Lemma drop_mod_array {A} a (m : JS (Module M) A) : preserves (fun s : DropState M => s.2.2 = a) (drop_mod m).
Proof. intros [s l] Hs. unfold drop_mod, zoom. cbn in *. by destruct (m s). Qed.
Lemma dropFiles_names_array names : preserves (fun s : DropState M => s.2.2 = -1) (dropFiles_names (M := M) names).
Proof.
  apply preserves_for_of. intros str. apply preserves_if; [|apply preserves_ret]. cbn zeta.
  repeat (first [apply preserves_bind; [|intros ?] | apply drop_mod_array | apply preserves_if
    | apply preserves_throw | apply preserves_ret | by apply preserves_modify]).
Qed.

Lemma acc_dropFiles k names :
  preserves (accounted k) (fun m : Module M =>
    let '(o, s) := try_finally (dropFiles_names (default [] names) ;;; dropFiles_call)
                     dropFiles_finally (m, ([], -1)) in (o, s.1)).
Proof.
  intros m Hm. set (s0 := (m, ([], -1)) : DropState M).
  assert (drop_acc k s0) as H0.
  { eapply accounted_ext; [|exact Hm]. intros q Hq. cbn [fst snd s0]. unfold one.
    change (count_Z q []) with 0. destruct (Z.eqb_spec (-1) q); lia. }
  assert (drop_acc k ((dropFiles_names (default [] names) ;;; dropFiles_call) s0).2) as H1.
  { unfold bind. pose proof (dropFiles_names_acc k (default [] names) s0 H0).
    pose proof (dropFiles_names_array (default [] names) s0 eq_refl).
    destruct (dropFiles_names (default [] names) s0) as [[[]|e] s1]; [|done]. by apply dropFiles_call_acc. }
  unfold try_finally. destruct ((_ ;;; _) s0) as [o s1]. destruct (dropFiles_finally_acc k s1 H1) as [E1 E2].
  destruct (dropFiles_finally s1) as [[[]|e] s2]; [done|discriminate E1].
Qed.
End DropFiles.

Section Operations.
Context {M : Type} `{DuckDBModule M}.
Context (tableFromIPC : bytes -> Outcome ArrowTable)
  (parse_tokens : string -> Outcome ScriptTokens) (parse_strings : string -> Outcome (list string))
  (parse_files : string -> Outcome (option (list WebFile)))
  (runtime_prepareFileHandles : option (list string -> DuckDBDataProtocol -> Outcome (list PreparedDBFileHandle)))
  (runtime_prepareDBFileHandle : option (string -> DuckDBDataProtocol -> Outcome (list PreparedDBFileHandle)))
  (getSize : FileHandle -> Outcome Z) (createSyncAccessHandle : Z -> Outcome FileHandle)
  (opfs_getFileHandle : string -> Outcome Z).

Definition bindings_accounted (k : Z -> Z) (s : Bindings M) : Prop := accounted k (module s).

Lemma acc_on_mod {A} k (m : JS (Module M) A) :
  preserves (accounted k) m -> preserves (bindings_accounted k) (on_mod m).
Proof. intros Hm. by apply (preserves_zoom module set_module _ (accounted k)). Qed.
Lemma acc_lift {A} k (o : Outcome A) : preserves (bindings_accounted k) (lift_o o).
Proof. destruct o; [apply preserves_ret|apply preserves_throw]. Qed.
Lemma acc_modify k f : (forall s : Bindings M, module (f s) = module s) -> preserves (bindings_accounted k) (modify f).
Proof. intros Hf s Hs. unfold bindings_accounted. cbn. by rewrite Hf. Qed.
Lemma acc_post k f : preserves (bindings_accounted k) (@post_workers M f).
Proof. apply acc_modify. intros s. by destruct (pthread s). Qed.

Create HintDb acc.
Hint Resolve preserves_ret preserves_throw preserves_gets preserves_if preserves_bind preserves_for_of
  preserves_try_catch preserves_try_finally acc_on_mod acc_lift acc_post acc_callSRet acc_call_with_buffer
  acc_register_buffer acc_drop acc_readString acc_check : acc.
Hint Extern 1 (preserves _ (ccall _ _)) => (apply acc_ccall, neutral_other) : acc.
Hint Extern 1 (preserves _ (modify _)) => (apply acc_modify; done) : acc.
Hint Extern 2 (preserves _ (match ?x with _ => _ end)) => (destruct x) : acc.
Hint Extern 1 (_ <> _) => discriminate : acc.
Hint Unfold copyBuffer heap_subarray string_call buffer_call pending_response void_call throw_response : acc.
Ltac acc := autounfold with acc; cbn zeta; auto 20 with acc.

Lemma acc_runQueryImpl k c t : preserves (bindings_accounted k) (runQueryImpl c t).
Proof. unfold runQueryImpl. acc. Qed.
Hint Resolve acc_runQueryImpl : acc.
Lemma acc_private {A} k (work : Z -> JS (Bindings M) A) :
  (forall c, preserves (bindings_accounted k) (work c)) -> preserves (bindings_accounted k) (withPrivateConnection work).
Proof. intros Hw. unfold withPrivateConnection. acc. Qed.
Hint Resolve acc_private : acc.
Lemma acc_restore k : preserves (bindings_accounted k) restoreDeferredThreads.
Proof. unfold restoreDeferredThreads. acc. Qed.
Lemma acc_readThreads k : preserves (bindings_accounted k) (readThreadsSetting tableFromIPC).
Proof. unfold readThreadsSetting. acc. Qed.
Hint Resolve acc_restore acc_readThreads : acc.
Lemma acc_single {A} k t (work : JS (Bindings M) A) :
  preserves (bindings_accounted k) work ->
  preserves (bindings_accounted k) (withSingleThreadedExtensionLoad tableFromIPC t work).
Proof. intros Hw. unfold withSingleThreadedExtensionLoad. acc. Qed.
Hint Resolve acc_single acc_dropFiles : acc.
Lemma acc_prepareAsync k n h p :
  preserves (bindings_accounted k) (prepareFileHandleAsync createSyncAccessHandle opfs_getFileHandle n h p).
Proof. unfold prepareFileHandleAsync. acc. Qed.
Lemma acc_registerHandle k n h p d : preserves (bindings_accounted k) (registerFileHandle n h p d).
Proof. unfold registerFileHandle. acc. Qed.
Hint Resolve acc_prepareAsync acc_registerHandle : acc.
Lemma acc_registerAsync k n h p d :
  preserves (bindings_accounted k) (registerFileHandleAsync createSyncAccessHandle opfs_getFileHandle n h p d).
Proof. unfold registerFileHandleAsync. acc. Qed.
Hint Resolve acc_registerAsync : acc.
Lemma acc_register_prepared k l :
  preserves (bindings_accounted k) (register_prepared getSize createSyncAccessHandle opfs_getFileHandle l).
Proof. unfold register_prepared. acc. Qed.
Hint Resolve acc_register_prepared : acc.
Lemma acc_udf k c n r f : preserves (bindings_accounted k) (createScalarFunction c n r f).
Proof. unfold createScalarFunction, post_function. acc. Qed.

Lemma acc_registerFileBuffer k n b : preserves (bindings_accounted k) (registerFileBuffer n b).
Proof. apply acc_on_mod, acc_register_buffer. Qed.

Lemma base_bindings_accounted k shared :
  respects (B := Bindings M) (H := base_bindings tableFromIPC parse_tokens parse_strings parse_files
    runtime_prepareFileHandles runtime_prepareDBFileHandle getSize createSyncAccessHandle opfs_getFileHandle shared)
    (bindings_accounted k).
Proof.
  split; cbn [b_open b_reset b_getVersion b_getExtensionUrl b_getFeatureFlags b_tokenize b_connect b_disconnect
    b_runQuery b_startPendingQuery b_pollPendingQuery b_cancelPendingQuery b_getInterruptHandle
    b_fetchQueryResults b_getTableNames b_createPrepared b_closePrepared b_runPrepared b_sendPrepared
    b_insertArrowFromIPCStream b_insertCSVFromPath b_insertJSONFromPath b_registerFileURL b_registerFileBuffer
    b_registerFileHandleAsync b_prepareDBFileHandle b_globFiles b_dropFile b_dropFiles b_flushFiles
    b_copyFileToPath b_copyFileToBuffer b_registerOPFSFileName b_collectFileStatistics b_exportFileStatistics
    base_bindings]; intros.
  all: try simple apply acc_registerFileBuffer.
  all: try (unfold open, reset, getVersion, getExtensionUrl, getFeatureFlags, tokenize, connect, disconnect,
    runQuery, startPendingQuery, startPendingQueryImpl, pollPendingQuery, cancelPendingQuery, getInterruptHandle,
    fetchQueryResults, getTableNames, createPrepared, closePrepared, runPrepared, sendPrepared,
    insertArrowFromIPCStream, insertCSVFromPath, insertJSONFromPath, registerFileURL, registerFileBuffer,
    prepareDBFileHandle, globFiles, dropFile, dropFiles, flushFiles, copyFileToPath, copyFileToBuffer,
    registerOPFSFileName, prepareFileHandle, collectFileStatistics, exportFileStatistics; by acc).
Qed.
End Operations.

(** ** What a text call does *)

Section TextCalls.
Context {M : Type} `{DuckDBModuleLaws M}.

(** The engine's answer to a call that took the buffer at [p]: the status, data and
    size it wrote to its response at [r], and the module once [p] is free. *)
Definition engine_response (p r : Z) (m : M) (sp : Z) : (Z * Z * Z) * M :=
  ((m_f64 (shr32 r 3 + 0) m, m_f64 (shr32 r 3 + 1) m, m_f64 (shr32 r 3 + 2) m),
   m_free p (m_stackRestore sp m)).

(** The engine is called with the address of a buffer that holds [buf]; then [after]. *)
Definition called_with (buf : bytes) (name : string) (args : Z -> list WasmArg) (s : Module M)
    {A} (result : Outcome A) (after : (Z * Z * Z) -> M -> Outcome A) : Prop :=
  exists p r m3, m_read p (lenZ buf) m3 = buf /\ p = (m_malloc (lenZ buf) (state s)).1 /\
    result = match m_ccall name (Arg_number r :: args p) m3 with
             | (Normal _, m4) =>
                 let resp := engine_response p r m4 (m_stackSave (m_write p buf (m_malloc (lenZ buf) (state s)).2).2) in
                 after resp.1 resp.2
             | (Thrown e, _) => Thrown e
             end.

Lemma call_with_buffer_calls {A} buf name args (s : Module M) (k : Z * Z * Z -> JS (Module M) A) after :
  is_normal (m_write (m_malloc (lenZ buf) (state s)).1 buf (m_malloc (lenZ buf) (state s)).2).1 = true ->
  (forall r s', (k r s').1 = after r (state s')) ->
  called_with buf name args s ((let! r := call_with_buffer buf name args in k r) s).1 after.
Proof.
  intros Hw Hk. unfold call_with_buffer, _malloc, heap_set, callSRet, bind, gets, ccall, on_state, modify, ret, _free.
  destruct (m_malloc (lenZ buf) (state s)) as [p m1] eqn:E1. cbn [fst snd state] in *.
  destruct (m_write p buf m1) as [[[]|e] m2] eqn:E2; [cbn [fst snd state] in *|discriminate Hw].
  destruct (m_stackAlloc 24 m2) as [r m3] eqn:E3. cbn [state].
  exists p, r, m3. split; [|split; [by rewrite E1|]].
  - pose proof (read_stackAlloc p (lenZ buf) 24 m2) as Hr. rewrite E3 in Hr. cbn in Hr. rewrite Hr.
    pose proof (read_write p buf m1) as Hrw. rewrite E2 in Hrw. by apply Hrw.
  - rewrite E1. cbn [fst snd note state trace]. rewrite !E2. cbn [fst snd note note_outcome state trace]. rewrite E3.
    cbn [fst snd state trace]. destruct (m_ccall name _ m3) as [[v|e] m4]; [|done]. cbn [state note note_outcome]. by rewrite Hk.
Qed.
End TextCalls.

(** ** Properties *)


Definition sample_interface : DuckDBBindings (Bindings Sample) :=
  base_bindings sample_table (fun _ => Thrown (Error "parse")) (fun _ => Normal []) (fun _ => Normal None)
    None None (fun _ => Normal 0) (fun _ => Thrown (Error "sync")) (fun _ => Thrown (Error "opfs")) None.
Definition sample_dispatcher : Dispatcher (Bindings Sample) :=
  set_bindings (Some sample_bindings) initial_dispatcher.

(** One query that fails, one buffer registered, and two files dropped. *)
Definition sample_messages : list WorkerRequest :=
  [ {| messageId := 0; request := Rq_RUN_QUERY 7 "fail" |};
    {| messageId := 1; request := Rq_REGISTER_FILE_BUFFER "f" [1; 2] |};
    {| messageId := 2; request := Rq_DROP_FILES (Some ["f"; "g"]%string) |} ].
Definition serve_all (l : list WorkerRequest) (s : Dispatcher (Bindings Sample)) : Dispatcher (Bindings Sample) :=
  foldl (fun s req => (onMessage (H := sample_interface) true req s).2) s l.


(** C14: A query's text reaches the engine as it is: the buffer whose address and
    length the engine gets reads back as the text.  The query returns a copy of the
    response on [SUCCESS], throws the engine's message on any other status, and
    throws what the call throws; a pending query answers [null] exactly when the
    engine's data pointer is 0. *)
Theorem query_text_reaches_the_engine {M} `{DuckDBModuleLaws M} conn text allow (s : Bindings M) :
  let buf := utf8_encode text in
  is_normal (m_write (m_malloc (lenZ buf) (state (module s))).1 buf (m_malloc (lenZ buf) (state (module s))).2).1 = true ->
  (forall m, is_normal (m_ccall "duckdb_web_clear_response" [] m).1 = true) ->
  utf8_decode buf = text /\
  called_with buf "duckdb_web_query_run_buffer"
    (fun p => [Arg_number conn; Arg_number p; Arg_number (lenZ buf)]) (module s)
    (runQueryImpl conn text s).1
    (fun r m => if r.1.1 =? SUCCESS_CODE then Normal (m_read r.1.2 r.2 m)
                else Thrown (Error (utf8_decode (m_read r.1.2 r.2 m)))) /\
  called_with buf "duckdb_web_pending_query_start_buffer"
    (fun p => [Arg_number conn; Arg_number p; Arg_number (lenZ buf); Arg_boolean allow]) (module s)
    (startPendingQueryImpl conn text allow s).1
    (fun r m => if r.1.1 =? SUCCESS_CODE
                then Normal (if r.1.2 =? 0 then None else Some (m_read r.1.2 r.2 m))
                else Thrown (Error (utf8_decode (m_read r.1.2 r.2 m)))).
Proof.
  intros buf Hw Hc. split; [apply utf8_roundtrip|].
  assert (forall A (m : JS (Module M) A), (on_mod m s).1 = (m (module s)).1) as Hz.
  { intros A m. unfold on_mod, zoom. by destruct (m (module s)). }
  unfold runQueryImpl, startPendingQueryImpl. cbn zeta.
  split; rewrite Hz; apply call_with_buffer_calls; try done; intros [[st d] n] s'; cbn [fst snd];
    unfold pending_response, check_status, bind; cbn [fst snd];
    destruct (st =? SUCCESS_CODE); try done; cbn;
    try (destruct (d =? 0); [done|]; cbn);
    specialize (Hc (state s')); unfold dropResponseBuffers, ccall, bind, ret; destruct (m_ccall _ _ (state s')) as [[v|e] m']; done.
Qed.

Lemma query_text_reaches_the_engine_witness :
  (runQueryImpl 7 "fail" sample_bindings).1 = Thrown (Error "failed") /\
  utf8_decode (utf8_encode "fail") = "fail"%string.
Proof.
  split; [by vm_compute|].
  exact (proj1 (query_text_reaches_the_engine 7 "fail" true sample_bindings eq_refl (fun _ => eq_refl))).
Defined.
