(* ===== verification/BindingsThreads.v ===== *)
(** * BindingsThreads: extension loads on a single thread

    [withSingleThreadedExtensionLoad] pins the engine to one thread for a [LOAD]
    and puts the count back before the next other statement.  What the engine
    does with the [threads] setting is the interface [EngineSettings]; the
    theorems say in which state a statement's own work starts. *)
From S2P Require Import Prelude Text Regex Data FileStats Protocol WasmModule BindingsBase SampleModule.
From stdpp Require Import base tactics list gmap strings pretty.
From Stdlib Require Import ZArith Lia.
Open Scope Z_scope.

Definition run_call : string := "duckdb_web_query_run_buffer".
Definition connection_call (name : string) : Prop :=
  name = "duckdb_web_connect"%string \/ name = "duckdb_web_disconnect"%string \/
  name = "duckdb_web_clear_response"%string.
Definition set_text (n : Z) : string := "SET threads=" +:+ pretty n.
Definition read_text : string := "SELECT current_setting('threads')".

(** What the code relies on: [SET threads] takes effect when it succeeds and not
    otherwise, the setting can be read, nothing else the bindings call changes it,
    and the response of a call survives the release of its text. *)
Class EngineSettings (M : Type) `{DuckDBModule M} (tableFromIPC : bytes -> Outcome ArrowTable) := {
  thread_count : M -> Z;
  responds : M -> Z -> Z -> bytes -> Prop;
  tc_malloc n m : thread_count (m_malloc n m).2 = thread_count m;
  tc_free p m : thread_count (m_free p m) = thread_count m;
  tc_write p bs m : thread_count (m_write p bs m).2 = thread_count m;
  tc_alloc n m : thread_count (m_stackAlloc n m).2 = thread_count m;
  tc_restore p m : thread_count (m_stackRestore p m) = thread_count m;
  tc_connection name args m : connection_call name ->
    is_normal (m_ccall name args m).1 = true /\ thread_count (m_ccall name args m).2 = thread_count m;
  tc_set r conn p n k m :
    m_read p n m = utf8_encode (set_text k) ->
    let om := m_ccall run_call [Arg_number r; Arg_number conn; Arg_number p; Arg_number n] m in
    thread_count om.2 =
      if is_normal om.1 && (m_f64 (shr32 r 3 + 0) om.2 =? SUCCESS_CODE) then k else thread_count m;
  tc_read r conn p n m :
    m_read p n m = utf8_encode read_text ->
    let om := m_ccall run_call [Arg_number r; Arg_number conn; Arg_number p; Arg_number n] m in
    thread_count om.2 = thread_count m /\
    (m_f64 (shr32 r 3 + 0) om.2 = SUCCESS_CODE -> exists bs,
       responds om.2 (m_f64 (shr32 r 3 + 1) om.2) (m_f64 (shr32 r 3 + 2) om.2) bs /\
       tableFromIPC bs = Normal {| numRows := 1; first_value := Some (thread_count m) |});
  responds_read m d n bs : responds m d n bs -> m_read d n m = bs;
  responds_free p m d n bs : responds m d n bs -> responds (m_free p m) d n bs;
  responds_restore p m d n bs : responds m d n bs -> responds (m_stackRestore p m) d n bs
}.

Section Threads.
Context {M : Type} `{DuckDBModuleLaws M} (tableFromIPC : bytes -> Outcome ArrowTable)
  `{!EngineSettings M tableFromIPC}.

Definition tc (s : Bindings M) : Z := thread_count (state (module s)).

(** [s'] differs from [s] in its module only. *)
Definition same_fields (s s' : Bindings M) : Prop := s' = set_module (module s') s.
Lemma same_refl s : same_fields s s.
Proof. by destruct s. Qed.
Lemma same_trans s1 s2 s3 : same_fields s1 s2 -> same_fields s2 s3 -> same_fields s1 s3.
Proof. unfold same_fields. intros E1 E2. rewrite E2, E1. done. Qed.
Lemma same_deferred s s' : same_fields s s' ->
  _deferredThreads s' = _deferredThreads s /\ _config s' = _config s /\ warnings s' = warnings s.
Proof. by intros ->. Qed.

(** A connection call returns and leaves the setting. *)
Lemma connection_spec name args (s : Bindings M) : connection_call name ->
  exists v s', on_mod (ccall name args) s = (Normal v, s') /\ same_fields s s' /\ tc s' = tc s.
Proof.
  intros Hn. unfold on_mod, zoom, ccall. destruct (tc_connection name args (state (module s)) Hn) as [H1 H2].
  destruct (m_ccall name args (state (module s))) as [[v|e] m]; [|discriminate H1].
  eexists _, _. split; [done|]. by split.
Qed.

Lemma clear_response_spec (s : Module M) :
  exists s', dropResponseBuffers s = (Normal tt, s') /\ thread_count (state s') = thread_count (state s).
Proof.
  unfold dropResponseBuffers, bind, ccall, ret.
  destruct (tc_connection "duckdb_web_clear_response" [] (state s)) as [H1 H2]; [right; by right|].
  destruct (m_ccall _ _ (state s)) as [[v|e] m]; [|discriminate H1]. eauto.
Qed.

(** The run of a statement: either the engine is not reached, or it is called with
    the text in its buffer and the outcome is read off its response. *)
Inductive run_result (conn : Z) (text : string) (s : Bindings M) : Outcome bytes -> Bindings M -> Prop :=
| run_unreached e s' : same_fields s s' -> tc s' = tc s -> run_result conn text s (Thrown e) s'
| run_called p r m3 v m4 s' d n sp o :
    m_read p (lenZ (utf8_encode text)) m3 = utf8_encode text -> thread_count m3 = tc s ->
    m_ccall run_call [Arg_number r; Arg_number conn; Arg_number p; Arg_number (lenZ (utf8_encode text))] m3 = (v, m4) ->
    same_fields s s' -> tc s' = thread_count m4 ->
    d = m_f64 (shr32 r 3 + 1) m4 -> n = m_f64 (shr32 r 3 + 2) m4 ->
    is_normal o = is_normal v && (m_f64 (shr32 r 3 + 0) m4 =? SUCCESS_CODE) ->
    (forall bs, o = Normal bs -> bs = m_read d n (m_free p (m_stackRestore sp m4))) ->
    run_result conn text s o s'.

Lemma runQueryImpl_result conn text (s : Bindings M) :
  run_result conn text s (runQueryImpl conn text s).1 (runQueryImpl conn text s).2.
Proof.
  unfold runQueryImpl, on_mod, zoom, call_with_buffer, _malloc, heap_set, callSRet, bind, gets, ccall,
    on_state, modify, ret, _free. cbn zeta.
  set (buf := utf8_encode text).
  pose proof (tc_malloc (lenZ buf) (state (module s))) as T1.
  destruct (m_malloc (lenZ buf) (state (module s))) as [p m1] eqn:E1. cbn [fst snd state trace note note_outcome] in *.
  pose proof (tc_write p buf m1) as T2. pose proof (read_write p buf m1) as R.
  destruct (m_write p buf m1) as [[[]|e] m2] eqn:E2; cbn [fst snd state trace note note_outcome] in *;
    [|apply run_unreached; [done|unfold tc; cbn; congruence]].
  pose proof (tc_alloc 24 m2) as T3. pose proof (read_stackAlloc p (lenZ buf) 24 m2) as R2.
  destruct (m_stackAlloc 24 m2) as [r m3] eqn:E3. cbn [fst snd state trace note note_outcome] in *.
  destruct (m_ccall _ _ m3) as [v m4] eqn:E4. cbn [fst snd state trace note note_outcome].
  pose proof (tc_restore (m_stackSave m2) m4) as T4. pose proof (tc_free p (m_stackRestore (m_stackSave m2) m4)) as T5.
  assert (m_read p (lenZ buf) m3 = buf) as HR by (rewrite R2; by apply R).
  assert (thread_count m3 = tc s) as HT by (unfold tc; congruence).
  destruct v as [v|e]; cbn [fst snd state trace note note_outcome].
  2: { eapply run_called with (sp := 0); [exact HR|exact HT|exact E4|done|done|done|done|done|by intros ? [=]]. }
  unfold check_status. cbn [fst snd].
  destruct (Z.eqb_spec (m_f64 (shr32 r 3 + 0) m4) SUCCESS_CODE) as [Es|Es].
  - cbn [fst snd ret]. unfold ret, copyBuffer, heap_subarray, gets. cbn [fst snd state].
    match goal with |- context [dropResponseBuffers ?x] =>
      destruct (clear_response_spec x) as (s' & -> & T6) end. cbn [fst snd].
    eapply run_called with (sp := m_stackSave m2); [exact HR|exact HT|exact E4|done| |reflexivity|reflexivity| |].
    + unfold tc. cbn in T6 |- *. congruence.
    + cbn. by rewrite Es.
    + by intros bs [= <-].
  - unfold throw_response, readString, heap_subarray, gets, bind, ret, throw. cbn [fst snd state].
    eapply run_called with (sp := 0); [exact HR|exact HT|exact E4|done| |reflexivity|reflexivity| |by intros ? [=]].
    + unfold tc. cbn. congruence.
    + cbn. by destruct (Z.eqb_spec (m_f64 (shr32 r 3 + 0) m4) SUCCESS_CODE).
Qed.

Lemma set_spec conn k (s : Bindings M) :
  same_fields s (runQueryImpl conn (set_text k) s).2 /\
  tc (runQueryImpl conn (set_text k) s).2 =
    if is_normal (runQueryImpl conn (set_text k) s).1 then k else tc s.
Proof.
  destruct (runQueryImpl_result conn (set_text k) s) as [e s' Hs Ht|p r m3 v m4 s' d n sp o HR HT E Hs Ht _ _ Ho _]; [done|].
  split; [done|]. pose proof (tc_set r conn p _ k m3 HR) as Hk. cbn zeta in Hk. rewrite E in Hk. cbn [fst snd] in Hk.
  by rewrite Ht, Ho, <- HT.
Qed.

Lemma read_spec conn (s : Bindings M) :
  same_fields s (runQueryImpl conn read_text s).2 /\ tc (runQueryImpl conn read_text s).2 = tc s /\
  forall bs, (runQueryImpl conn read_text s).1 = Normal bs ->
    tableFromIPC bs = Normal {| numRows := 1; first_value := Some (tc s) |}.
Proof.
  destruct (runQueryImpl_result conn read_text s) as [e s' Hs Ht|p r m3 v m4 s' d n sp o HR HT E Hs Ht Hd Hn Ho Hb]; [done|].
  split; [done|]. pose proof (tc_read r conn p _ m3 HR) as [Hk Hv]. cbn zeta in *. rewrite E in Hk, Hv.
  cbn [fst snd] in *. split; [congruence|]. intros bs ->. cbn in Ho. symmetry in Ho.
  apply andb_true_iff in Ho as [_ Ho%Z.eqb_eq]. destruct (Hv Ho) as (bs' & Hr & Ht').
  rewrite (Hb bs eq_refl), Hd, Hn. rewrite (responds_read _ _ _ bs'); [by rewrite Ht', HT|].
  by apply responds_free, responds_restore.
Qed.

(** Work on a private connection is the work from a state with the same settings. *)
Lemma private_spec (text : string) (s : Bindings M) :
  exists conn s1 s2, same_fields s s1 /\ tc s1 = tc s /\
    withPrivateConnection (fun conn => runQueryImpl conn text) s = ((runQueryImpl conn text s1).1, s2) /\
    same_fields (runQueryImpl conn text s1).2 s2 /\ tc s2 = tc (runQueryImpl conn text s1).2.
Proof.
  unfold withPrivateConnection, bind at 1.
  destruct (connection_spec "duckdb_web_connect" [] s) as (conn & s1 & -> & Hs1 & T1); [by left|].
  unfold try_finally. destruct (runQueryImpl conn text s1) as [o s1'] eqn:E. unfold bind.
  destruct (connection_spec "duckdb_web_disconnect" [Arg_number conn] s1') as (v & s2 & -> & Hs2 & T2); [by right; left|].
  exists conn, s1, s2. rewrite E. cbn. done.
Qed.

Lemma private_set k (s : Bindings M) :
  exists o s', withPrivateConnection (fun conn => runQueryImpl conn (set_text k)) s = (o, s') /\
    same_fields s s' /\ tc s' = if is_normal o then k else tc s.
Proof.
  destruct (private_spec (set_text k) s) as (conn & s1 & s2 & H1 & T1 & -> & H2 & T2).
  destruct (set_spec conn k s1) as [H3 T3]. eexists _, _. split; [done|]. split.
  - eapply same_trans; [exact H1|]. by eapply same_trans.
  - by rewrite T2, T3, T1.
Qed.

(** [readThreadsSetting] reads the setting, or logs why it could not. *)
Lemma readThreads_spec (s : Bindings M) :
  exists s', tc s' = tc s /\ _deferredThreads s' = _deferredThreads s /\ _config s' = _config s /\
    (readThreadsSetting tableFromIPC s = (Normal (Some (tc s)), s') /\ warnings s' = warnings s \/
     readThreadsSetting tableFromIPC s = (Normal None, s') /\ exists w, warnings s' = warnings s ++ [w]).
Proof.
  unfold readThreadsSetting, try_catch, bind. fold read_text.
  destruct (private_spec read_text s) as (conn & s1 & s2 & H1 & T1 & -> & H2 & T2).
  destruct (read_spec conn s1) as (H3 & T3 & Hb).
  assert (same_fields s s2) as Hs by (eapply same_trans; [exact H1|]; by eapply same_trans).
  assert (tc s2 = tc s) as Ht by congruence. destruct (same_deferred s s2 Hs) as (D1 & D2 & D3).
  destruct (runQueryImpl conn read_text s1).1 as [bs|e]; cbn [fst snd].
  - exists s2. repeat (split; [done|]). left. rewrite (Hb bs eq_refl). unfold lift_o, ret. cbn. by rewrite T1.
  - eexists. split; [|split; [|split; [|right; split; [reflexivity|]]]]; cbn; [exact Ht|done|done|]. rewrite D3. eauto.
Qed.

(** [restoreDeferredThreads] puts a deferred count back, or logs why it could not. *)
Lemma restore_spec (s : Bindings M) :
  exists s', restoreDeferredThreads s = (Normal tt, s') /\ _config s' = _config s /\
    (_deferredThreads s = None /\ s' = s \/
     exists t, _deferredThreads s = Some t /\
       (_deferredThreads s' = None /\ tc s' = t /\ warnings s' = warnings s \/
        _deferredThreads s' = Some t /\ tc s' = tc s /\ exists w, warnings s' = warnings s ++ [w])).
Proof.
  unfold restoreDeferredThreads, bind at 1, gets. destruct (_deferredThreads s) as [t|] eqn:E.
  2: { exists s. split; [done|]. split; [done|]. by left. }
  unfold try_catch, bind. change ("SET threads=" +:+ pretty t) with (set_text t). destruct (private_set t s) as (o & s2 & -> & Hs & Ht).
  destruct (same_deferred s s2 Hs) as (D1 & D2 & D3). destruct o as [bs|e].
  - eexists. split; [reflexivity|]. cbn. split; [done|]. right. exists t. split; [done|]. by left.
  - eexists. split; [reflexivity|]. cbn. split; [done|]. right. exists t. split; [done|]. right.
    split; [congruence|]. split; [done|]. rewrite D3. eauto.
Qed.

(** The thread count the user has set: the deferred one while a load holds it at 1. *)
Definition user_threads (s : Bindings M) : Z := default (tc s) (_deferredThreads s).
(** While a count is deferred it is above one, and the engine runs one thread. *)
Definition pinned (s : Bindings M) : Prop := forall t, _deferredThreads s = Some t -> 1 < t /\ tc s = 1.
Definition logged (s s1 : Bindings M) : Prop := exists w, warnings s1 = warnings s ++ [w].

(** How [withSingleThreadedExtensionLoad] gets to the statement's own work. *)
Definition enters {A} (work m : JS (Bindings M) A) (s s1 : Bindings M) (o : Outcome unit) : Prop :=
  m s = match o with Normal _ => work s1 | Thrown e => (Thrown e, s1) end.

Lemma enter_load {A} text (work : JS (Bindings M) A) (s : Bindings M) :
  feature_disabled (_config s) = false -> is_extension_load (chars text) = true ->
  _deferredThreads s = None ->
  exists o s1, enters work (withSingleThreadedExtensionLoad tableFromIPC text work) s s1 o /\
    user_threads s1 = tc s /\ pinned s1 /\ (o = Normal tt -> tc s1 <= 1 \/ logged s s1).
Proof.
  intros Hf Hl Hd. unfold enters, pinned, withSingleThreadedExtensionLoad, bind, gets. cbv beta iota.
  rewrite Hf, Hl. cbn [negb]. cbv beta iota. rewrite Hd.
  destruct (readThreads_spec s) as (s1 & T1 & D1 & C1 & [[-> W]|[-> W]]).
  2: { exists (Normal tt), s1. unfold user_threads, logged. rewrite D1, Hd. repeat split; auto; congruence. }
  destruct (Z.leb_spec (tc s) 1).
  { exists (Normal tt), s1. unfold user_threads. rewrite D1, Hd. repeat split; auto; try congruence. left. lia. }
  change "SET threads=1"%string with (set_text 1). destruct (private_set 1 s1) as (o & s2 & -> & Hs & T2).
  destruct (same_deferred s1 s2 Hs) as (D2 & _ & W2). destruct o as [bs|e]; cbn in T2.
  - exists (Normal tt), (set_deferredThreads (Some (tc s)) s2). split; [done|]. split; [done|].
    split; [by intros t [= <-]|]. intros _. left. unfold tc in *. cbn. lia.
  - exists (Thrown e), s2. unfold user_threads. rewrite D2, D1, Hd. split; [done|].
    split; [cbn; congruence|]. split; [congruence|by intros [=]].
Qed.

Lemma enter_other {A} text (work : JS (Bindings M) A) (s : Bindings M) :
  feature_disabled (_config s) = false -> is_extension_load (chars text) = false -> pinned s ->
  exists s1, enters work (withSingleThreadedExtensionLoad tableFromIPC text work) s s1 (Normal tt) /\
    user_threads s1 = user_threads s /\ pinned s1 /\ (_deferredThreads s1 = None /\ tc s1 = user_threads s \/ logged s s1).
Proof.
  intros Hf Hl Hp. unfold enters, withSingleThreadedExtensionLoad, bind, gets. cbv beta iota.
  rewrite Hf, Hl. cbn [negb]. destruct (restore_spec s) as (s1 & -> & _ & H1). exists s1. split; [done|].
  unfold user_threads, pinned, logged in *. destruct H1 as [[Hd ->]|(t & Hd & [(D & T & W)|(D & T & W)])].
  - split; [done|]. split; [exact Hp|]. left. by rewrite Hd.
  - rewrite D, Hd. cbn. split; [done|]. split; [by intros ? [=]|]. by left.
  - rewrite D, Hd. split; [done|]. split; [|by right]. intros t' [= <-]. rewrite T. by apply Hp.
Qed.
End Threads.


(** ** The sample engine has such a setting *)

Lemma threads_of_set k n : threads_of_text (set_text k) = Some n -> n = k.
Proof.
  unfold threads_of_text. destruct (list_find _ _) as [[i x]|] eqn:E; [|discriminate].
  intros [= <-]. apply list_find_Some in E as (_ & E & _). unfold set_text in E.
  apply (inj (String.append "SET threads=")) in E. by apply (inj pretty) in E.
Qed.

Lemma prefix_app p x : String.prefix p (String.append p x) = true.
Proof.
  induction p as [|c p IH]; [by destruct x|].
  change (String.append (String c p) x) with (String c (String.append p x)). cbn [String.prefix]. destruct (Ascii.ascii_dec c c) as [_|n]; [exact IH|by destruct n].
Qed.

Lemma sample_runs_text r conn p n text m :
  sample_read p n m = utf8_encode text ->
  sample_ccall run_call [Arg_number r; Arg_number conn; Arg_number p; Arg_number n] m = (Normal 0, run_text r text m).
Proof. intros E. unfold sample_ccall. by rewrite E, utf8_roundtrip. Qed.

Lemma respond_status r st bs m : default 0 (doubles (respond r st bs m) !! (shr32 r 3 + 0)) = st.
Proof. cbn. by rewrite Z.add_0_r, lookup_insert_eq. Qed.

Lemma respond_buffer r st bs m :
  sample_read (default 0 (doubles (respond r st bs m) !! (shr32 r 3 + 1)))
    (default 0 (doubles (respond r st bs m) !! (shr32 r 3 + 2))) (respond r st bs m) = bs.
Proof.
  cbn. rewrite lookup_insert_ne, lookup_insert_eq by lia.
  rewrite lookup_insert_ne, lookup_insert_ne, lookup_insert_eq by lia.
  exact (sample_read_store 8000 bs (heap m) (respond r st bs m)).
Qed.

#[export] Instance sample_settings : EngineSettings Sample sample_table.
Proof.
  refine {| thread_count := threads;
            responds := fun m d n bs => sample_read d n m = bs |}; try done.
  - intros name args m Hn. cbn. unfold sample_ccall.
    destruct Hn as [-> | [-> | ->]];
      repeat (match goal with |- context [match ?x with _ => _ end] => destruct x end; try by split).
  - intros r conn p n k m E om. subst om. cbn [m_ccall m_f64 sample_module].
    rewrite (sample_runs_text _ _ _ _ _ _ E). cbn [fst snd is_normal andb].
    unfold run_text. rewrite !bool_decide_false by (intros E2; discriminate E2).
    destruct (threads_of_text (set_text k)) as [n'|] eqn:Et.
    + rewrite respond_status. cbn. by apply threads_of_set in Et.
    + assert (String.prefix "SET threads=" (set_text k) = true) as -> by apply prefix_app.
      cbv iota beta. by rewrite respond_status.
  - intros r conn p n m E om. subst om. cbn [m_ccall m_f64 sample_module].
    rewrite (sample_runs_text _ _ _ _ _ _ E). cbn [fst snd].
    unfold run_text. rewrite bool_decide_false by (intros E2; discriminate E2).
    rewrite bool_decide_true by done.
    split; [done|]. intros _. exists [threads m]. split; [|done].
    apply (respond_buffer r 0 [threads m] (log_statement read_text m)).
Defined.

