(* ===== verification/BindingsFiles.v ===== *)
(** * BindingsFiles: what the bindings register

    The registries the bindings share with the runtime and the pthread workers:
    scalar functions and file handles. *)
From S2P Require Import Prelude Text Regex Data FileStats Protocol WasmModule BindingsBase SampleModule.
From stdpp Require Import base tactics list gmap strings pretty.
From Stdlib Require Import ZArith Lia.
Open Scope Z_scope.

Section Registries.
Context {M : Type} `{DuckDBModule M}.
Context (createSyncAccessHandle : Z -> Outcome FileHandle) (opfs_getFileHandle : string -> Outcome Z).

(** Functions are registered under their own id, and ids to come are above them. *)
Definition udfs_ok (s : Bindings M) : Prop :=
  forall id u, _udfFunctions s !! id = Some u -> functionId u = id /\ id < _nextUDFId s.

(** [s'] has the registries of [s], with the posts [ps] added. *)
Definition same_registries (s s' : Bindings M) (ps : list (Z * WorkerMessage)) : Prop :=
  _files s' = _files s /\ _preparedHandles s' = _preparedHandles s /\
  pthread s' = pthread s /\ worker_posts s' = worker_posts s ++ ps.

Lemma on_mod_cases {A} (m : JS (Module M) A) (s : Bindings M) :
  exists o m', on_mod m s = (o, set_module m' s).
Proof. unfold on_mod, zoom. destruct (m (module s)) as [o m']. eauto. Qed.

Lemma post_workers_spec f (s : Bindings M) :
  post_workers f s =
    (Normal tt, match pthread s with Some p => add_worker_posts (f p) s | None => s end).
Proof. done. Qed.

Definition has_workers (p : option PThread) : bool :=
  match p with Some p => match all_workers p with [] => false | _ => true end | None => false end.
Definition handle_posts (p : option PThread) (name : string) (h : FileHandle) : list (Z * WorkerMessage) :=
  match p with
  | Some p => ((fun w => (w, registerFileHandle_msg name h)) <$> pthreads p) ++
              ((fun w => (w, dropFileHandle name)) <$> unusedWorkers p)
  | None => []
  end.
End Registries.

(** A scalar function gets an id that no function had before, also after creations
    that failed in the engine, and is registered under it exactly when the engine
    accepted it; nothing else of the registries changes.  An unsupported return type
    consumes no id and does not reach the engine.  With worker threads the creation
    throws even if the function was accepted: a function cannot be posted. *)
Theorem scalar_functions_get_fresh_ids {M} `{DuckDBModule M} conn name returns func (s : Bindings M) :
  udfs_ok s ->
  let r := createScalarFunction conn name returns func s in
  let u := {| functionId := _nextUDFId s; udf_connectionId := conn; udf_name := name;
              udf_returnType := returns; udf_func := func |} in
  udfs_ok r.2 /\ _udfFunctions s !! _nextUDFId s = None /\
  match arrowToSQLType returns with
  | Thrown e => r = (Thrown e, s)
  | Normal _ =>
      _nextUDFId r.2 = _nextUDFId s + 1 /\ same_registries s r.2 [] /\
      exists accepted : bool,
        _udfFunctions r.2 = (if accepted then <[_nextUDFId s := u]> (_udfFunctions s) else _udfFunctions s) /\
        if accepted then r.1 = (if has_workers (pthread s) then Thrown DataCloneError else Normal tt)
        else is_normal r.1 = false
  end.
Proof.
  intros Hok. cbv zeta. unfold createScalarFunction, bind at 1, gets.
  assert (_udfFunctions s !! _nextUDFId s = None) as Hn.
  { destruct (_udfFunctions s !! _nextUDFId s) as [u|] eqn:E; [|done]. destruct (Hok _ _ E). lia. }
  destruct (arrowToSQLType returns) as [rt|e]; [|by cbn].
  unfold bind, lift_o, ret, modify. cbn zeta beta iota.
  match goal with |- context [on_mod ?m ?st] => destruct (on_mod_cases m st) as (o & m' & ->) end.
  destruct o as [[]|e]; cbn [fst snd is_normal].
  - set (u := {| functionId := _ |}). unfold post_function, bind, gets, ret, throw, has_workers. cbn.
    assert (forall s1 : Bindings M, _nextUDFId s1 = _nextUDFId s + 1 -> _udfFunctions s1 = <[_nextUDFId s := u]> (_udfFunctions s) ->
      udfs_ok s1) as Hins.
    { intros s1 E1 E2 id v. rewrite E1, E2, lookup_insert_Some.
      intros [[<- <-]|[Hne Hu]]; [cbn; split; [done|lia]|destruct (Hok _ _ Hu); split; [done|lia]]. }
    destruct (pthread s) as [p|] eqn:E; [destruct (all_workers p)|]; cbn;
      (split; [by apply Hins|]); (split; [done|]); (split; [done|]); unfold same_registries; cbn;
      rewrite ?E, app_nil_r; (split; [done|]); by exists true.
  - unfold same_registries. cbn. rewrite app_nil_r. split; [|split; [done|]; split; [done|]; split; [by repeat split|by exists false]].
    intros id u Hu. cbn in *. destruct (Hok _ _ Hu). split; [done|lia].
Qed.

Lemma scalar_functions_get_fresh_ids_witness :
  let r1 := createScalarFunction 7 "f" (DT_simple T_Int32) 100 sample_bindings in
  let r2 := createScalarFunction 7 "g" (DT_other "Union") 101 r1.2 in
  let r3 := createScalarFunction 7 "g" (DT_simple T_Utf8) 102 r2.2 in
  r2.1 = Thrown (Error "unsupported arrow type: Union") /\
  (_udfFunctions r3.2 !! 2 = Some {| functionId := 2; udf_connectionId := 7; udf_name := "g";
     udf_returnType := DT_simple T_Utf8; udf_func := 102 |} /\ worker_posts r3.2 = []) /\
  r1.1 = Thrown DataCloneError /\
  udfs_ok r1.2.
Proof.
  intros r1 r2 r3. split; [by vm_compute|]. split; [by vm_compute|]. split; [by vm_compute|].
  apply (scalar_functions_get_fresh_ids 7 "f" (DT_simple T_Int32) 100 sample_bindings).
  intros id u. cbn. by rewrite lookup_empty.
Defined.

(** Registering a file handle: for [BROWSER_FSACCESS] the handle kept is a
    synchronous access handle, the given one, the one opened from the given
    asynchronous handle, or the one opened from the file name, and an error on the
    way is rethrown with the file name and changes nothing.  The registry, the
    prepared handles and the messages to the worker threads change only if the
    engine accepted the name: running threads get the handle, idle ones drop theirs. *)
Theorem file_handles_are_registered {M} `{DuckDBModule M} sync opfs name handle directIO (s : Bindings M) :
  (forall id h, sync id = Normal h -> exists i, h = FH_sync i) ->
  let r := registerFileHandleAsync sync opfs name handle BROWSER_FSACCESS directIO s in
  let opened := match handle with
                | FH_sync i => Normal handle
                | FH_async i => sync i
                | _ => match opfs name with Normal i => sync i | Thrown e => Thrown e end
                end in
  match opened with
  | Thrown e => r = (Thrown (Error (err_message e +:+ ":" +:+ name)), s)
  | Normal h =>
      (exists i, h = FH_sync i) /\ _udfFunctions r.2 = _udfFunctions s /\
      if is_normal r.1
      then _files r.2 = <[name := h]> (_files s) /\ _preparedHandles r.2 = delete name (_preparedHandles s) /\
           worker_posts r.2 = worker_posts s ++ handle_posts (pthread s) name h
      else same_registries s r.2 []
  end.
Proof.
  intros Hsync. cbv zeta.
  assert (forall h, (exists i, h = FH_sync i) ->
    let r := registerFileHandle name h BROWSER_FSACCESS directIO s in
    (exists i, h = FH_sync i) /\ _udfFunctions r.2 = _udfFunctions s /\
    if is_normal r.1
    then _files r.2 = <[name := h]> (_files s) /\ _preparedHandles r.2 = delete name (_preparedHandles s) /\
         worker_posts r.2 = worker_posts s ++ handle_posts (pthread s) name h
    else same_registries s r.2 []) as Hreg.
  { intros h Hh. cbv zeta. unfold registerFileHandle, bind, modify.
    match goal with |- context [on_mod ?m ?st] => destruct (on_mod_cases m st) as (o & m' & ->) end.
    destruct o as [[]|e]; rewrite ?post_workers_spec; cbn.
    - destruct (pthread s) as [p|]; cbn; rewrite ?app_nil_r; done.
    - unfold same_registries. cbn. by rewrite app_nil_r. }
  assert (forall (o : Outcome FileHandle), (forall h, o = Normal h -> exists i, h = FH_sync i) ->
    prepareFileHandleAsync sync opfs name handle BROWSER_FSACCESS s =
      match o with Normal h => (Normal h, s) | Thrown e => (Thrown (Error (err_message e +:+ ":" +:+ name)), s) end ->
    match o with
    | Thrown e => registerFileHandleAsync sync opfs name handle BROWSER_FSACCESS directIO s =
                  (Thrown (Error (err_message e +:+ ":" +:+ name)), s)
    | Normal h =>
      let r := registerFileHandleAsync sync opfs name handle BROWSER_FSACCESS directIO s in
      (exists i, h = FH_sync i) /\ _udfFunctions r.2 = _udfFunctions s /\
      if is_normal r.1
      then _files r.2 = <[name := h]> (_files s) /\ _preparedHandles r.2 = delete name (_preparedHandles s) /\
           worker_posts r.2 = worker_posts s ++ handle_posts (pthread s) name h
      else same_registries s r.2 []
    end) as Hgo.
  { intros o Ho E. unfold registerFileHandleAsync, bind. rewrite E. destruct o as [h|e]; [|done]. by apply Hreg, Ho. }
  destruct handle as [i|i|i|i]; cbn.
  - apply (Hgo (Normal (FH_sync i))); [|done]. intros h [= <-]. eauto.
  - apply Hgo; [by intros h ?%Hsync|]. cbn. by destruct (sync i).
  - apply Hgo; [|cbn; destruct (opfs name); [|done]; by destruct (sync a)].
    destruct (opfs name); [by intros h ?%Hsync|done].
  - apply Hgo; [|cbn; destruct (opfs name); [|done]; by destruct (sync a)].
    destruct (opfs name); [by intros h ?%Hsync|done].
Qed.

Lemma file_handles_are_registered_witness :
  let sync := fun i => if i =? 5 then Normal (FH_sync 50) else Thrown (Error "locked") in
  let opfs := fun _ : string => Normal 6 in
  let r := registerFileHandleAsync sync opfs "a.db" (FH_async 5) BROWSER_FSACCESS true sample_bindings in
  (_files r.2 !! "a.db"%string = Some (FH_sync 50) /\ worker_posts r.2 =
     [(1, registerFileHandle_msg "a.db" (FH_sync 50)); (2, registerFileHandle_msg "a.db" (FH_sync 50));
      (3, dropFileHandle "a.db")]) /\
  registerFileHandleAsync sync opfs "b.db" (FH_other 1) BROWSER_FSACCESS true sample_bindings =
    (Thrown (Error "locked:b.db"), sample_bindings).
Proof.
  intros sync opfs r. split; [by vm_compute|].
  exact (file_handles_are_registered sync opfs "b.db" (FH_other 1) true sample_bindings
    (fun id h E => ltac:(unfold sync in E; destruct (id =? 5); inversion E; eauto))).
Defined.
