(* ===== verification/JsMap.v ===== *)
(** * JsMap: the built-in [Map] and plain objects, in insertion order *)
From S2P Require Import Prelude.
From stdpp Require Import base tactics list sets.

Section JsMap.
Context {K V : Type} `{EqDecision K}.

Fixpoint mget (k : K) (m : list (K * V)) : option V :=
  match m with
  | [] => None
  | (k', v) :: m' => if decide (k = k') then Some v else mget k m'
  end.
Definition mhas (k : K) (m : list (K * V)) : bool := bool_decide (is_Some (mget k m)).

(** [set] keeps the place of a key that is there, and appends a new one. *)
Fixpoint mset (k : K) (v : V) (m : list (K * V)) : list (K * V) :=
  match m with
  | [] => [(k, v)]
  | (k', v') :: m' => if decide (k = k') then (k, v) :: m' else (k', v') :: mset k v m'
  end.
Fixpoint mdelete (k : K) (m : list (K * V)) : list (K * V) :=
  match m with
  | [] => []
  | (k', v) :: m' => if decide (k = k') then m' else (k', v) :: mdelete k m'
  end.
Definition keys (m : list (K * V)) : list K := m.*1.

Lemma mget_mset k v m : mget k (mset k v m) = Some v.
Proof. induction m as [|[k' v'] m IH]; cbn; repeat (case_decide; cbn); congruence. Qed.
Lemma mget_mset_ne k k' v m : k <> k' -> mget k (mset k' v m) = mget k m.
Proof. intros Hk. induction m as [|[j w] m IH]; cbn; repeat (case_decide; cbn; subst); congruence. Qed.
Lemma mget_mdelete_ne k k' m : k <> k' -> mget k (mdelete k' m) = mget k m.
Proof. intros Hk. induction m as [|[j w] m IH]; cbn; repeat (case_decide; cbn; subst); congruence. Qed.
Lemma mget_None k m : mget k m = None <-> k ∉ keys m.
Proof.
  induction m as [|[j w] m IH]; cbn; [split; [by intros _ ?%not_elem_of_nil|done]|].
  rewrite not_elem_of_cons. case_decide; [split; [done|intros []; congruence]|]. rewrite IH. tauto.
Qed.
Lemma keys_mset k v m : keys (mset k v m) = if mhas k m then keys m else keys m ++ [k].
Proof.
  unfold mhas. induction m as [|[j w] m IH]; cbn; [done|].
  destruct (decide (k = j)) as [->|]; cbn; [done|].
  unfold keys in IH. rewrite IH. by case_bool_decide.
Qed.
Lemma keys_mdelete k m : keys (mdelete k m) ⊆ keys m.
Proof. induction m as [|[j w] m IH]; cbn; [done|]. unfold keys in *. case_decide; cbn; set_solver. Qed.
Lemma NoDup_mset k v m : NoDup (keys m) -> NoDup (keys (mset k v m)).
Proof.
  intros Hm. rewrite keys_mset. unfold mhas. case_bool_decide as Hk; [done|].
  apply NoDup_app. split; [done|]. split; [|apply NoDup_singleton].
  intros x Hx ->%list_elem_of_singleton. apply Hk. destruct (mget k m) eqn:E; [eauto|].
  by apply mget_None in E.
Qed.
Lemma NoDup_mdelete k m : NoDup (keys m) -> NoDup (keys (mdelete k m)).
Proof.
  induction m as [|[j w] m IH]; cbn; [done|]. intros [Hj Hm]%NoDup_cons. case_decide; [done|].
  apply NoDup_cons. split; [|auto]. intros Hin. apply Hj. by apply (keys_mdelete k m).
Qed.
Lemma mget_mdelete k m : NoDup (keys m) -> mget k (mdelete k m) = None.
Proof.
  induction m as [|[j w] m IH]; cbn; [done|]. intros [Hj Hm]%NoDup_cons.
  case_decide as E; [subst; by apply mget_None|]. cbn. by rewrite decide_False, IH.
Qed.
End JsMap.
