(* ===== verification/S3.v ===== *)
(** * S3: addressing and signing requests to S3 ([s3_helper.ts])

    The [URL] of the browser, [js-sha256] and the clock are parameters.  A string
    holds code units below 256, as in [Text]; the headers of a request are an
    association list in insertion order. *)
From S2P Require Import Prelude Text Data.
From stdpp Require Import base tactics list strings.
From Stdlib Require Import ZArith Ascii Lia.
Open Scope Z_scope.
Open Scope string_scope.

Record S3Params := {
  p_url : string;
  p_query : string;
  p_host : string;
  p_region : string;
  p_service : string;
  p_method : string;
  p_accessKeyId : string;
  p_secretAccessKey : string;
  p_sessionToken : string;
  p_dateNow : string;
  p_datetimeNow : string
}.

Record S3PayloadParams := { contentHash : option string; contentType : option string }.

(** The key of an HMAC: a string, or the bytes of an earlier one. *)
Inductive HmacKey := key_string (s : string) | key_buffer (b : bytes).

Definition Headers : Type := list (string * string).

(** [s.startsWith(p)] *)
Definition startsWith (p s : string) : bool := String.prefix p s.
(** A string used as a condition. *)
Definition truthy (o : option string) : bool := match o with Some (String _ _) => true | _ => false end.

(** The part of [s] before the first [c], and the part from it on. *)
Fixpoint before (c : ascii) (s : string) : string :=
  match s with
  | "" => ""
  | String d s' => if Ascii.eqb d c then "" else String d (before c s')
  end.
Fixpoint from (c : ascii) (s : string) : option string :=
  match s with
  | "" => None
  | String d s' => if Ascii.eqb d c then Some s else from c s'
  end.
(** [s.replace(/c/g, '')] *)
Fixpoint remove (c : ascii) (s : string) : string :=
  match s with
  | "" => ""
  | String d s' => if Ascii.eqb d c then remove c s' else String d (remove c s')
  end.

(** [parseS3Url]: the first slash after [s3://] ends the bucket.  The path starts
    with that slash, so the last check of the code always passes. *)
Definition parseS3Url (url : string) : Outcome (string * string) :=
  if negb (startsWith "s3://" url) then Thrown (Error "URL needs to start with s3://")
  else
    let rest := String.substring 5 (String.length url - 5) url in
    match from "/" rest with
    | None => Thrown (Error "URL needs to contain a '/' after the host")
    | Some path =>
        let bucket := before "/" rest in
        if String.eqb bucket "" then Thrown (Error "URL needs to contain a bucket name")
        else if String.eqb path "" then Thrown (Error "URL needs to contain key")
        else Normal (bucket, path)
    end.

Definition hexDigit (n : Z) : string :=
  match String.get (Z.to_nat n) "0123456789ABCDEF" with
  | Some c => String c ""
  | None => "undefined"
  end.
Definition char_in (c lo hi : ascii) : bool := ((code lo <=? code c) && (code c <=? code hi))%Z.
Definition is_unreserved (c : ascii) : bool :=
  char_in c "A" "Z" || char_in c "a" "z" || char_in c "0" "9" ||
  Ascii.eqb c "_" || Ascii.eqb c "-" || Ascii.eqb c "~" || Ascii.eqb c ".".

Fixpoint uriEncode (input : string) (encode_slash : bool) : string :=
  match input with
  | "" => ""
  | String ch rest =>
      (if is_unreserved ch then String ch ""
       else if Ascii.eqb ch "/" then (if encode_slash then "%2F" else String ch "")
       else "%" +:+ hexDigit (Z.shiftr (code ch) 4) +:+ hexDigit (Z.land (code ch) 15)) +:+
      uriEncode rest encode_slash
  end.

(** The ISO string of a clock reading, as the two formats of the signature. *)
Definition date_of_iso (iso : string) : string := before "T" (remove "-" iso).
Definition datetime_of_iso (iso : string) : string := before "." (remove ":" (remove "-" iso)) +:+ "Z".

Definition newline : string := String (ascii_of_nat 10) "".
Definition EMPTY_SHA256 : string := "e3b0c44298fc1c149afbf4c8996fb92427ae41e4649b934ca495991b7852b855".

Section S3.
Context (URL_host URL_pathname : string -> Outcome string).
Context (sha256 : string -> string) (sha256_hex : bytes -> string)
  (hmac_arrayBuffer : HmacKey -> string -> bytes) (hmac : HmacKey -> string -> string).

Definition endpoint_of (config : option S3Config) : option string := config ≫= s3_endpoint.

Definition isPathStyleAccess (config : option S3Config) : bool :=
  match endpoint_of config with Some e => startsWith "http" e | None => false end.

Definition getHTTPHost (config : option S3Config) (bucket : string) : Outcome string :=
  if isPathStyleAccess config then URL_host (default "" (endpoint_of config))
  else if truthy (endpoint_of config) then Normal (bucket +:+ "." +:+ default "" (endpoint_of config))
  else Normal (bucket +:+ ".s3.amazonaws.com").

Definition getHTTPUrl (config : option S3Config) (url : string) : Outcome string :=
  match parseS3Url url with
  | Thrown e => Thrown e
  | Normal (bucket, path) =>
      if isPathStyleAccess config
      then Normal (default "" (endpoint_of config) +:+ "/" +:+ bucket +:+ path)
      else outcome_map (fun host => "https://" +:+ host +:+ path) (getHTTPHost config bucket)
  end.

(** [getS3Params] with its two clock readings. *)
Definition getS3Params (config : option S3Config) (url method iso1 iso2 : string) : Outcome S3Params :=
  match parseS3Url url with
  | Thrown e => Thrown e
  | Normal (bucket, key) =>
      let path :=
        if isPathStyleAccess config then
          outcome_map (fun pathname =>
            (if String.eqb pathname "/" then "" else pathname) +:+ "/" +:+ bucket +:+ key)
            (URL_pathname (default "" (endpoint_of config)))
        else Normal key in
      match path with
      | Thrown e => Thrown e
      | Normal path =>
          outcome_map (fun host =>
            {| p_url := path; p_query := ""; p_host := host;
               p_region := default "" (config ≫= s3_region); p_service := "s3"; p_method := method;
               p_accessKeyId := default "" (config ≫= s3_accessKeyId);
               p_secretAccessKey := default "" (config ≫= s3_secretAccessKey);
               p_sessionToken := default "" (config ≫= s3_sessionToken);
               p_dateNow := date_of_iso iso1; p_datetimeNow := datetime_of_iso iso2 |})
            (getHTTPHost config bucket)
      end
  end.

Definition payload_hash (payload : option S3PayloadParams) : string :=
  default EMPTY_SHA256 (payload ≫= contentHash).
Definition content_type (payload : option S3PayloadParams) : option string := payload ≫= contentType.

Definition signed_headers (params : S3Params) (payload : option S3PayloadParams) : string :=
  (if truthy (content_type payload) then "content-type;" else "") +:+
  "host;x-amz-content-sha256;x-amz-date" +:+
  (if truthy (Some (p_sessionToken params)) then ";x-amz-security-token" else "").

Definition canonical_request (params : S3Params) (payload : option S3PayloadParams) : string :=
  p_method params +:+ newline +:+ uriEncode (p_url params) false +:+ newline +:+ p_query params +:+
  (if truthy (content_type payload)
   then newline +:+ "content-type:" +:+ default "" (content_type payload) else "") +:+
  newline +:+ "host:" +:+ p_host params +:+ newline +:+ "x-amz-content-sha256:" +:+ payload_hash payload +:+
  newline +:+ "x-amz-date:" +:+ p_datetimeNow params +:+
  (if truthy (Some (p_sessionToken params))
   then newline +:+ "x-amz-security-token:" +:+ p_sessionToken params else "") +:+
  newline +:+ newline +:+ signed_headers params payload +:+ newline +:+ payload_hash payload.

Definition credential_scope (params : S3Params) : string :=
  p_dateNow params +:+ "/" +:+ p_region params +:+ "/" +:+ p_service params +:+ "/aws4_request".

Definition signing_key (params : S3Params) : bytes :=
  let kDate := hmac_arrayBuffer (key_string ("AWS4" +:+ p_secretAccessKey params)) (p_dateNow params) in
  let kRegion := hmac_arrayBuffer (key_buffer kDate) (p_region params) in
  let kService := hmac_arrayBuffer (key_buffer kRegion) (p_service params) in
  hmac_arrayBuffer (key_buffer kService) "aws4_request".

Definition string_to_sign (params : S3Params) (payload : option S3PayloadParams) : string :=
  "AWS4-HMAC-SHA256" +:+ newline +:+ p_datetimeNow params +:+ newline +:+ credential_scope params +:+
  newline +:+ sha256 (canonical_request params payload).

Definition createS3Headers (params : S3Params) (payload : option S3PayloadParams) : Headers :=
  ([("x-amz-date", p_datetimeNow params); ("x-amz-content-sha256", payload_hash payload)] ++
  (if truthy (Some (p_sessionToken params)) then [("x-amz-security-token", p_sessionToken params)] else []) ++
  [("Authorization",
    "AWS4-HMAC-SHA256 Credential=" +:+ p_accessKeyId params +:+ "/" +:+ credential_scope params +:+
    ", SignedHeaders=" +:+ signed_headers params payload +:+ ", Signature=" +:+
    hmac (key_buffer (signing_key params)) (string_to_sign params payload))])%list.

Definition createS3HeadersFromS3Config (config : option S3Config) (url method : string)
    (contentType : option string) (payload : option bytes) (iso1 iso2 : string) : Outcome Headers :=
  outcome_map (fun params =>
    createS3Headers params (Some {| contentHash := sha256_hex <$> payload; contentType := contentType |}))
    (getS3Params config url method iso1 iso2).

(** [addS3Headers]: the headers it sets on the request, in order. *)
Definition addS3Headers (config : option S3Config) (url method : string)
    (contentType : option string) (payload : option bytes) (iso1 iso2 : string) : Outcome Headers :=
  if truthy (config ≫= s3_accessKeyId) || truthy (config ≫= s3_sessionToken) then
    outcome_map (fun headers =>
      (headers ++ (if truthy contentType then [("content-type", default "" contentType)] else []))%list)
      (createS3HeadersFromS3Config config url method contentType payload iso1 iso2)
  else Normal [].
End S3.

(** ** Percent encoding *)

Definition hex_value (c : ascii) : Z :=
  (if char_in c "0" "9" then code c - 48 else code c - 55)%Z.

(** The percent decoding of a URL path. *)
Fixpoint percent_decode (s : string) : string :=
  match s with
  | String "%" (String a (String b s')) => String (char_of (hex_value a * 16 + hex_value b)) (percent_decode s')
  | String c s' => String c (percent_decode s')
  | "" => ""
  end.

(** The characters of an encoded string. *)
Definition is_path_char (c : ascii) : bool := is_unreserved c || Ascii.eqb c "/" || Ascii.eqb c "%".
Fixpoint all_chars (p : ascii -> bool) (s : string) : bool :=
  match s with "" => true | String c s' => p c && all_chars p s' end.

Lemma uriEncode_decode_char c slash s :
  percent_decode (uriEncode (String c s) slash) = String c (percent_decode (uriEncode s slash)).
Proof.
  destruct c as [[] [] [] [] [] [] [] []]; destruct slash; reflexivity.
Qed.

Lemma uriEncode_chars_char c slash s :
  all_chars is_path_char (uriEncode (String c s) slash) = all_chars is_path_char (uriEncode s slash).
Proof. destruct c as [[] [] [] [] [] [] [] []]; destruct slash; reflexivity. Qed.

Lemma append_assoc (a b c : string) : (a +:+ b) +:+ c = a +:+ (b +:+ c).
Proof. induction a as [|x a IH]; [done|]. change (String x ((a +:+ b) +:+ c) = String x (a +:+ (b +:+ c))). by rewrite IH. Qed.

Lemma substring_full s : String.substring 0 (String.length s) s = s.
Proof. induction s as [|c s IH]; cbn; [done|]. by rewrite IH. Qed.

Lemma startsWith_split url : startsWith "s3://" url = true ->
  url = "s3://" +:+ String.substring 5 (String.length url - 5) url.
Proof.
  do 5 (destruct url as [|? url]; [done|]; unfold startsWith; cbn [String.prefix];
    destruct (ascii_dec _ _) as [<-|]; [|done]; fold (startsWith "" url)).
  intros _. cbn. rewrite ?Nat.sub_0_r. by rewrite substring_full.
Qed.

(** No [c] in [s]. *)
Fixpoint lacks (c : ascii) (s : string) : bool :=
  match s with "" => true | String d s' => negb (Ascii.eqb d c) && lacks c s' end.

Lemma from_split c s t : from c s = Some t ->
  s = before c s +:+ t /\ lacks c (before c s) = true /\ exists r, t = String c r.
Proof.
  induction s as [|d s IH]; cbn; [done|]. destruct (Ascii.eqb_spec d c) as [->|Hd].
  - intros [= <-]. eauto.
  - intros H. destruct (IH H) as (E & L & R). split; [|split; [|done]].
    + change (String d s = String d (before c s +:+ t)). by rewrite <- E.
    + cbn. rewrite L. by destruct (Ascii.eqb_spec d c).
Qed.

Lemma from_app c b r : lacks c b = true ->
  from c (b +:+ String c r) = Some (String c r) /\ before c (b +:+ String c r) = b.
Proof.
  induction b as [|d b IH]; intros L.
  - change ("" +:+ String c r) with (String c r). cbn. by rewrite Ascii.eqb_refl.
  - change (String d b +:+ String c r) with (String d (b +:+ String c r)). cbn in L |- *.
    destruct (Ascii.eqb d c); [done|]. destruct (IH L) as [-> ->]. done.
Qed.

(** The URLs the parser accepts. *)
Definition s3_url (bucket path : string) : string := "s3://" +:+ bucket +:+ path.
Definition valid_parts (bucket path : string) : Prop :=
  bucket <> "" /\ lacks "/" bucket = true /\ exists key, path = String "/" key.

(** [parseS3Url] accepts exactly the URLs [s3://bucket/key] with a bucket
    name, and returns the bucket and the path with its slash, so that putting the
    parts together gives the URL back; every other text throws. *)
Theorem s3_urls_parse url bucket path :
  parseS3Url url = Normal (bucket, path) <-> url = s3_url bucket path /\ valid_parts bucket path.
Proof.
  split.
  - unfold parseS3Url. destruct (startsWith "s3://" url) eqn:Hp; [|done]. cbn [negb].
    pose proof (startsWith_split url Hp) as Hu. set (rest := String.substring _ _ url) in *.
    destruct (from "/" rest) as [p|] eqn:Hf; [|done]. destruct (from_split _ _ _ Hf) as (E & L & r & ->).
    destruct (String.eqb_spec (before "/" rest) ""); [done|]. cbn. intros [= <- <-].
    split; [|split; [done|split; [done|eauto]]]. unfold s3_url. by rewrite <- E.
  - intros [-> (Hb & L & key & ->)]. unfold parseS3Url, s3_url.
    assert (forall r, startsWith "s3://" ("s3://" +:+ r) = true) as -> by (intros; by destruct r).
    assert (forall r, String.substring 5 (String.length ("s3://" +:+ r) - 5) ("s3://" +:+ r) = r) as ->.
    { intros r. change ("s3://" +:+ r) with (String "s" (String "3" (String ":" (String "/" (String "/" r))))).
      cbn. rewrite ?Nat.sub_0_r. apply substring_full. }
    cbn [negb]. destruct (from_app "/" bucket key L) as [-> ->].
    destruct (String.eqb_spec bucket ""); [done|]. done.
Qed.

Lemma s3_urls_parse_witness :
  parseS3Url "s3://bucket" = Thrown (Error "URL needs to contain a '/' after the host") /\
  parseS3Url "s3:///key" = Thrown (Error "URL needs to contain a bucket name") /\
  parseS3Url "s3://b/dir/a.csv" = Normal ("b", "/dir/a.csv").
Proof.
  split; [reflexivity|]. split; [reflexivity|].
  apply s3_urls_parse. split; [reflexivity|]. split; [discriminate|]. split; [reflexivity|]. by exists "dir/a.csv".
Defined.

(** [uriEncode] loses nothing: percent decoding its result gives the string
    back, so two strings never sign the same path; the result has only unreserved
    characters, [/] and [%], and no [/] when slashes are encoded. *)
Theorem uriEncode_roundtrip s slash :
  percent_decode (uriEncode s slash) = s /\ all_chars is_path_char (uriEncode s slash) = true /\
  lacks "/" (uriEncode s true) = true.
Proof.
  induction s as [|c s (IH1 & IH2 & IH3)]; [done|].
  rewrite uriEncode_decode_char, uriEncode_chars_char, IH1, IH2. split; [done|]. split; [done|].
  destruct c as [[] [] [] [] [] [] [] []]; exact IH3.
Qed.

Lemma slash_not_prefix (x : string) : x <> String "/" x.
Proof. induction x as [|c x IH]; [done|]. by intros [= -> ?%IH]. Qed.

(** A request is signed for the host and path it is sent to.  Without an
    endpoint URL these are the bucket's virtual host and the object's key.  With
    one, the object is requested below the endpoint's path and the bucket, and that
    path is the signed one, exactly unless the endpoint's path is a lone slash: the
    request then has the slash twice and the signature once. *)
Theorem requests_sign_the_path_they_ask_for URL_host URL_pathname config scheme host base bucket key url method iso1 iso2 :
  parseS3Url url = Normal (bucket, key) ->
  let params := getS3Params URL_host URL_pathname config url method iso1 iso2 in
  (isPathStyleAccess config = false -> exists p, params = Normal p /\ p_url p = key /\
     p_host p = bucket +:+ "." +:+
       (if truthy (endpoint_of config) then default "" (endpoint_of config) else "s3.amazonaws.com") /\
     getHTTPUrl URL_host config url = Normal ("https://" +:+ p_host p +:+ p_url p)) /\
  (forall endpoint, endpoint_of config = Some endpoint -> startsWith "http" endpoint = true ->
     endpoint = scheme +:+ "://" +:+ host +:+ base ->
     URL_host endpoint = Normal host -> URL_pathname endpoint = Normal (if String.eqb base "" then "/" else base) ->
     exists p, params = Normal p /\ p_host p = host /\
       getHTTPUrl URL_host config url = Normal (scheme +:+ "://" +:+ p_host p +:+ base +:+ "/" +:+ bucket +:+ key) /\
       (p_url p = base +:+ "/" +:+ bucket +:+ key <-> base <> "/")).
Proof.
  intros Hp. cbv zeta. unfold getS3Params, getHTTPUrl, getHTTPHost. rewrite Hp. split.
  - intros ->. destruct (truthy (endpoint_of config)); eexists; split; reflexivity || done.
  - intros endpoint He Hs E Hh Hn. unfold isPathStyleAccess. rewrite He, Hs.
    cbn [default from_option id]. rewrite Hh, Hn. cbn [outcome_map].
    eexists. split; [reflexivity|]. cbn [p_host p_url]. split; [done|]. split; [by rewrite E, !append_assoc|].
    destruct (String.eqb_spec base "") as [->|Hb]; [done|].
    destruct (String.eqb_spec base "/") as [->|Hb']; [|done].
    split; [|done]. intros F. by apply slash_not_prefix in F.
Qed.

(** An endpoint with a trailing slash, and one without. *)
Definition minio (endpoint : string) : option S3Config :=
  Some {| s3_region := Some "eu"; s3_endpoint := Some endpoint; s3_accessKeyId := Some "id";
          s3_secretAccessKey := Some "key"; s3_sessionToken := None |}.

Lemma requests_sign_the_path_they_ask_for_witness :
  let host := fun _ : string => Normal "h:9000" in
  let path := fun e : string => Normal (if String.eqb e "http://h:9000/s3" then "/s3" else "/") in
  getHTTPUrl host (minio "http://h:9000/") "s3://b/k" = Normal "http://h:9000//b/k" /\
  p_url <$> match getS3Params host path (minio "http://h:9000/") "s3://b/k" "GET" "" "" with
            | Normal p => Some p | Thrown _ => None end = Some "/b/k" /\
  exists p, getS3Params host path (minio "http://h:9000/s3") "s3://b/k" "GET" "" "" = Normal p /\ p_host p = "h:9000".
Proof.
  intros host path. split; [by vm_compute|]. split; [by vm_compute|].
  destruct (requests_sign_the_path_they_ask_for host path (minio "http://h:9000/s3") "http" "h:9000" "/s3" "b" "/k"
    "s3://b/k" "GET" "" "" eq_refl) as [_ Hs].
  destruct (Hs "http://h:9000/s3" eq_refl eq_refl eq_refl eq_refl eq_refl) as (p & E & Eh & _).
  by exists p.
Defined.

(** The headers a signature covers, with their values, in order. *)
Definition covered_headers (params : S3Params) (payload : option S3PayloadParams) : Headers :=
  ((if truthy (content_type payload) then [("content-type", default "" (content_type payload))] else []) ++
   [("host", p_host params); ("x-amz-content-sha256", payload_hash payload); ("x-amz-date", p_datetimeNow params)] ++
   (if truthy (Some (p_sessionToken params)) then [("x-amz-security-token", p_sessionToken params)] else []))%list.
Definition header_line (h : string * string) : string := h.1 +:+ ":" +:+ h.2 +:+ newline.

Lemma canonical_request_lines params payload :
  canonical_request params payload =
    p_method params +:+ newline +:+ uriEncode (p_url params) false +:+ newline +:+ p_query params +:+ newline +:+
    String.concat "" (header_line <$> covered_headers params payload) +:+
    newline +:+ signed_headers params payload +:+ newline +:+ payload_hash payload.
Proof.
  unfold canonical_request, covered_headers, header_line.
  destruct (truthy (content_type payload)), (truthy (Some (p_sessionToken params)));
    cbn [fmap list_fmap app fst snd String.concat]; rewrite ?append_assoc; done.
Qed.

Lemma signed_headers_names params payload :
  signed_headers params payload = String.concat ";" (fst <$> covered_headers params payload).
Proof.
  unfold signed_headers, covered_headers.
  destruct (truthy (content_type payload)), (truthy (Some (p_sessionToken params))); reflexivity.
Qed.

(** C39: A signature covers the headers that are sent.  Without an access key and a
    session token nothing is set.  Otherwise the canonical request has one line for
    each covered header, the list of signed headers names them in the same order,
    and apart from [host], which the browser sets, they are exactly the headers set
    besides [Authorization], with the same values. *)
Theorem signatures_cover_the_headers_sent URL_host URL_pathname sha256 sha256_hex hmac_buffer hmac
    config url method ct payload iso1 iso2 hs :
  addS3Headers URL_host URL_pathname sha256 sha256_hex hmac_buffer hmac config url method ct payload iso1 iso2 = Normal hs ->
  if truthy (config ≫= s3_accessKeyId) || truthy (config ≫= s3_sessionToken) then
    exists params, getS3Params URL_host URL_pathname config url method iso1 iso2 = Normal params /\
      let load := Some {| contentHash := sha256_hex <$> payload; contentType := ct |} in
      let covered := covered_headers params load in
      let canonical := p_method params +:+ newline +:+ uriEncode (p_url params) false +:+ newline +:+
        p_query params +:+ newline +:+ String.concat "" (header_line <$> covered) +:+ newline +:+
        String.concat ";" (fst <$> covered) +:+ newline +:+ payload_hash load in
      let to_sign := "AWS4-HMAC-SHA256" +:+ newline +:+ p_datetimeNow params +:+ newline +:+
        credential_scope params +:+ newline +:+ sha256 canonical in
      In ("Authorization", "AWS4-HMAC-SHA256 Credential=" +:+ p_accessKeyId params +:+ "/" +:+
            credential_scope params +:+ ", SignedHeaders=" +:+ String.concat ";" (fst <$> covered) +:+
            ", Signature=" +:+ hmac (key_buffer (signing_key hmac_buffer params)) to_sign) hs /\
      forall n v, In (n, v) covered <-> (n = "host" /\ v = p_host params) \/ (n <> "Authorization" /\ In (n, v) hs)
  else hs = [].
Proof.
  unfold addS3Headers, createS3HeadersFromS3Config. destruct (_ || _); [|by intros [= <-]].
  destruct (getS3Params _ _ _ _ _ _ _) as [params|e] eqn:E; [|done]. cbn [outcome_map].
  intros <-%(fun E => f_equal (fun o => match o with Normal h => h | Thrown _ => [] end) E). cbv beta iota.
  exists params. split; [done|]. cbv zeta. rewrite <- signed_headers_names, <- canonical_request_lines.
  split.
  - unfold createS3Headers, string_to_sign. rewrite !in_app_iff. left. right. right. by left.
  - intros n v. unfold covered_headers, createS3Headers. cbn [content_type contentType mbind option_bind].
    destruct (truthy ct) eqn:Hc, (truthy (Some (p_sessionToken params))) eqn:Ht; cbn [app In];
      (split; [intros Hi; decompose [or] Hi; simplify_eq;
                 first [done | left; by split | right; split; [discriminate|auto 10]]
              |intros [[-> ->]|[Hn Hi]]; [auto 10|decompose [or] Hi; simplify_eq; auto 10; done]]).
Qed.

Lemma signatures_cover_the_headers_sent_witness :
  let host := fun _ : string => Normal "h:9000" in
  let path := fun _ : string => Normal "/" in
  let hs := addS3Headers host path (fun s => s) (fun _ => "h") (fun _ _ => [])
    (fun _ s => s) (minio "http://h:9000") "s3://b/k" "GET" (Some "text/plain") None
    "2024-01-02T03:04:05.6Z" "2024-01-02T03:04:05.6Z" in
  match hs with
  | Normal hs => (fst <$> hs) = ["x-amz-date"; "x-amz-content-sha256"; "Authorization"; "content-type"] /\
      exists params, getS3Params host path (minio "http://h:9000") "s3://b/k" "GET"
        "2024-01-02T03:04:05.6Z" "2024-01-02T03:04:05.6Z" = Normal params
  | Thrown _ => False
  end.
Proof.
  intros host path hs. destruct hs as [l|e] eqn:E; [|discriminate E]. split.
  - vm_compute in E. by injection E as <-.
  - destruct (signatures_cover_the_headers_sent host path (fun s => s) (fun _ => "h") (fun _ _ => []) (fun _ s => s)
      (minio "http://h:9000") "s3://b/k" "GET" (Some "text/plain") None
      "2024-01-02T03:04:05.6Z" "2024-01-02T03:04:05.6Z" l E) as (params & H & _). by exists params.
Defined.
