(* ===== verification/BrowserRuntime.v ===== *)
(** * BrowserRuntime: the file system of the browser ([runtime_browser.ts])

    The engine calls the runtime to open, read, write and drop files; a file is
    served over HTTP, from a [Blob], or through an OPFS access handle.  The browser
    itself is the class [Browser]: synchronous requests, handles, directories and
    the clock, over a world [W].  Messages on the console are left out. *)
From S2P Require Import Prelude Text Data Protocol JsMap WasmModule BindingsBase S3.
From stdpp Require Import base tactics list strings pretty.
From Stdlib Require Import ZArith Ascii Lia.
Open Scope Z_scope.

(** A synchronous [XMLHttpRequest]: what is sent, and what is read back. *)
Record Request := {
  rq_method : string;
  rq_url : string;
  rq_headers : Headers;
  rq_body : option bytes
}.
Record Response := {
  rs_status : Z;
  rs_contentLength : Outcome (option string);
  rs_lastModified : Outcome (option string);
  rs_statusText : string;
  rs_body : bytes
}.

Class Browser (W : Type) := {
  xhr_send : Request -> JS W Response;
  now : JS W Z;                                       (** [new Date().getTime()] *)
  now_iso : JS W string;                              (** [new Date().toISOString()] *)
  handle_getSize : FileHandle -> JS W Z;
  handle_truncate : FileHandle -> Z -> JS W unit;
  handle_read : FileHandle -> Z -> Z -> JS W bytes;   (** length, position *)
  handle_write : FileHandle -> bytes -> Z -> JS W Z;
  handle_flush : FileHandle -> JS W unit;
  handle_close : FileHandle -> JS W unit;
  blob_size : FileHandle -> JS W Z;
  blob_slice : FileHandle -> Z -> Z -> JS W bytes;    (** slice, read by a FileReaderSync *)
  getDirectory : JS W Z;
  getDirectoryHandle : Z -> string -> JS W Z;         (** with [create: true] *)
  getFileHandle : Z -> string -> bool -> JS W Z;
  open_access_handle : Z -> JS W FileHandle           (** [createSyncAccessHandle] *)
}.

Record Runtime (M W : Type) := MkRuntime {
  rt_mod : Module M;
  world : W;
  rt_files : list (string * FileHandle);
  _fileInfoCache : list (Z * DuckDBFileInfo);
  _globalFileInfo : option DuckDBGlobalFileInfo;
  rt_preparedHandles : list (string * FileHandle);
  _opfsRoot : option Z
}.
Arguments MkRuntime {M W}. Arguments rt_mod {M W}. Arguments world {M W}. Arguments rt_files {M W}.
Arguments _fileInfoCache {M W}. Arguments _globalFileInfo {M W}. Arguments rt_preparedHandles {M W}.
Arguments _opfsRoot {M W}.

(** [+text]: decimal digits, as in a Content-Length; the empty text is 0 and any
    other text counts as [NaN]. *)
Definition digit_value (c : Ascii.ascii) : option Z :=
  if char_in c "0" "9" then Some (code c - 48) else None.
Fixpoint digits (acc : Z) (s : string) : option Z :=
  match s with
  | EmptyString => Some acc
  | String c s' => match digit_value c with Some d => digits (acc * 10 + d) s' | None => None end
  end.
Definition Number (s : string) : option Z := digits 0 s.
Definition heap_number (o : option Z) : HeapNumber := match o with Some n => HN_int n | None => HN_nan end.

(** [path.split(/\/|\\/)] and its test. *)
Definition is_sep (c : Ascii.ascii) : bool := Ascii.eqb c "/" || Ascii.eqb c (Ascii.ascii_of_nat 92).
Fixpoint split_path (s : string) : list string :=
  match s with
  | EmptyString => [""%string]
  | String c s' =>
      if is_sep c then ""%string :: split_path s'
      else match split_path s' with
           | p :: ps => String c p :: ps
           | [] => [String c ""]
           end
  end.
Fixpoint has_sep (s : string) : bool :=
  match s with EmptyString => false | String c s' => is_sep c || has_sep s' end.

Definition OPFS_PREFIX_LEN : nat := 7.
(** [path.slice(n)] *)
Definition slice_from (n : nat) (s : string) : string := String.substring n (String.length s - n) s.

Definition dq : string := String (ascii_of_nat 34) "".

(** [truthy], for an optional boolean. *)
Definition is_true (o : option bool) : bool := default false o.

Section BrowserRuntime.
Context {M W : Type} `{DuckDBModule M} `{Browser W}.
Context (parse_file_info : string -> Outcome (option DuckDBFileInfo))
  (parse_global_info : string -> Outcome (option DuckDBGlobalFileInfo))
  (parse_date : string -> option Z)       (** [new Date(text).getTime()] *)
  (worker_name : string)                  (** the worker's global [name] *)
  (URL_host URL_pathname : string -> Outcome string)
  (sha256 : string -> string) (sha256_hex : bytes -> string)
  (hmac_arrayBuffer : HmacKey -> string -> bytes) (hmac : HmacKey -> string -> string).
Abbreviation R := (Runtime M W).

(** *** Field updates *)

Definition set_rt_mod (m : Module M) (s : R) : R :=
  MkRuntime m (world s) (rt_files s) (_fileInfoCache s) (_globalFileInfo s) (rt_preparedHandles s) (_opfsRoot s).
Definition set_world (w : W) (s : R) : R :=
  MkRuntime (rt_mod s) w (rt_files s) (_fileInfoCache s) (_globalFileInfo s) (rt_preparedHandles s) (_opfsRoot s).
Definition set_rt_files f (s : R) : R :=
  MkRuntime (rt_mod s) (world s) f (_fileInfoCache s) (_globalFileInfo s) (rt_preparedHandles s) (_opfsRoot s).
Definition set_cache c (s : R) : R :=
  MkRuntime (rt_mod s) (world s) (rt_files s) c (_globalFileInfo s) (rt_preparedHandles s) (_opfsRoot s).
Definition set_global g (s : R) : R :=
  MkRuntime (rt_mod s) (world s) (rt_files s) (_fileInfoCache s) g (rt_preparedHandles s) (_opfsRoot s).
Definition set_prepared p (s : R) : R :=
  MkRuntime (rt_mod s) (world s) (rt_files s) (_fileInfoCache s) (_globalFileInfo s) p (_opfsRoot s).
Definition set_opfsRoot r (s : R) : R :=
  MkRuntime (rt_mod s) (world s) (rt_files s) (_fileInfoCache s) (_globalFileInfo s) (rt_preparedHandles s) r.

Definition on_module {A} (m : JS (Module M) A) : JS R A := zoom rt_mod set_rt_mod m.
Definition on_world {A} (m : JS W A) : JS R A := zoom world set_world m.
Definition lift_r {A} (o : Outcome A) : JS R A := match o with Normal a => ret a | Thrown e => throw e end.

(** *** File infos, cached by the engine's epochs *)

Definition getFileInfo (fileId : Z) : JS R (option DuckDBFileInfo) :=
  try_catch
    (let! cached := gets (fun s => mget fileId (_fileInfoCache s)) in
     let! r := on_module (callSRet "duckdb_web_fs_get_file_info_by_id"
                 [Arg_number fileId; Arg_number (from_option cacheEpoch 0 cached)]) in
     if negb (r.1.1 =? SUCCESS_CODE) then ret None
     else if r.2 =? 0 then ret cached
     else
       let! infoStr := on_module (readString r.1.2 r.2) in
       on_module dropResponseBuffers ;;;
       try_catch
         (let! info := lift_r (parse_file_info infoStr) in
          match info with
          | None => ret None
          | Some file =>
              modify (fun s => set_cache (mset fileId file (_fileInfoCache s)) s) ;;;
              modify (fun s =>
                match mget (fileName file) (rt_preparedHandles s) with
                | Some h => if mhas (fileName file) (rt_files s) then s
                            else set_prepared (mdelete (fileName file) (rt_preparedHandles s))
                                   (set_rt_files (mset (fileName file) h (rt_files s)) s)
                | None => s
                end) ;;;
              ret (Some file)
          end)
         (fun _ => ret None))
    (fun _ => ret None).

Definition getGlobalFileInfo : JS R (option DuckDBGlobalFileInfo) :=
  try_catch
    (let! g := gets _globalFileInfo in
     let! r := on_module (callSRet "duckdb_web_get_global_file_info" [Arg_number (from_option g_cacheEpoch 0 g)]) in
     if negb (r.1.1 =? SUCCESS_CODE) then ret None
     else if r.2 =? 0 then ret g
     else
       let! infoStr := on_module (readString r.1.2 r.2) in
       on_module dropResponseBuffers ;;;
       let! info := lift_r (parse_global_info infoStr) in
       match info with
       | None => ret None
       | Some i => modify (set_global (Some i)) ;;; ret (Some i)
       end)
    (fun _ => ret None).

(** *** Preparing OPFS handles *)

Definition assignOPFSRoot : JS R unit :=
  let! r := gets _opfsRoot in
  match r with
  | Some _ => ret tt
  | None => let! d := on_world getDirectory in modify (set_opfsRoot (Some d))
  end.

(** [for (const folder of folders) dirHandle = await dirHandle.getDirectoryHandle(folder, ...)] *)
Fixpoint make_directories (dir : Z) (folders : list string) : JS R Z :=
  match folders with
  | [] => ret dir
  | f :: fs => let! d := on_world (getDirectoryHandle dir f) in make_directories d fs
  end.

Definition prepare_path (path : string) : JS R PreparedDBFileHandle :=
  let! cached := gets (fun s => mget path (rt_files s)) in
  match cached with
  | Some h => ret {| prep_path := path; prep_handle := h; prep_fromCached := true |}
  | None =>
      let! root := gets (fun s => default 0 (_opfsRoot s)) in
      let opfsPath := slice_from OPFS_PREFIX_LEN path in
      let folders := split_path opfsPath in
      let! dn :=
        (if has_sep opfsPath then
           let fileName := List.last folders ""%string in
           if String.eqb fileName "" then throw (Error ("Invalid path " +:+ opfsPath +:+ ". File Not Found."))
           else let! d := make_directories root (removelast folders) in ret (d, fileName)
         else ret (root, opfsPath)) in
      let! fileHandle :=
        try_catch (on_world (getFileHandle dn.1 dn.2 false))
          (fun e => if String.eqb (err_name e) "NotFoundError" then on_world (getFileHandle dn.1 dn.2 true)
                    else throw e) in
      try_catch
        (let! handle := on_world (open_access_handle fileHandle) in
         modify (fun s => set_prepared (mset path handle (rt_preparedHandles s)) s) ;;;
         ret {| prep_path := path; prep_handle := handle; prep_fromCached := false |})
        (fun e => throw (Error (err_message e +:+ ":" +:+ worker_name)))
  end.

Definition unsupported {A} (what : string) : JS R A := throw (Error ("Unsupported protocol " +:+ what)).

Definition prepareFileHandles (filePaths : list string) (protocol : DuckDBDataProtocol)
    : JS R (list PreparedDBFileHandle) :=
  match protocol with
  | BROWSER_FSACCESS => assignOPFSRoot ;;; map_of filePaths prepare_path
  | _ => let n := pretty (protocol_number protocol) in
         unsupported (n +:+ " for paths " +:+ String.concat "," filePaths +:+ " with protocol " +:+ n)
  end.

Definition rt_prepareDBFileHandle (dbPath : string) (protocol : DuckDBDataProtocol)
    : JS R (list PreparedDBFileHandle) :=
  match protocol with
  | BROWSER_FSACCESS => prepareFileHandles [dbPath; dbPath +:+ ".wal"] protocol
  | _ => let n := pretty (protocol_number protocol) in
         unsupported (n +:+ " for path " +:+ dbPath +:+ " with protocol " +:+ n)
  end.

(** *** Requests *)

(** [xhr.open(method, ...)] with the S3 headers: the URL and the headers. *)
Definition s3_request (config : option S3Config) (url signed_method open_method : string)
    (contentType : option string) (payload : option bytes) (body : option bytes) : JS R Request :=
  let! u := lift_r (getHTTPUrl URL_host config url) in
  let! iso1 := on_world now_iso in
  let! iso2 := on_world now_iso in
  let! hs := lift_r (addS3Headers URL_host URL_pathname sha256 sha256_hex hmac_arrayBuffer hmac
                       config url signed_method contentType payload iso1 iso2) in
  ret {| rq_method := open_method; rq_url := u; rq_headers := hs; rq_body := body |}.

(** A request for a file over HTTP or S3; [dataUrl!] may be undefined. *)
Definition file_request (file : DuckDBFileInfo) (method : string) : JS R Request :=
  match dataProtocol file with
  | S3 =>
      match dataUrl file with
      | Some url => s3_request (s3Config file) url method method None None None
      | None => throw (MkError "TypeError" "Cannot read properties of undefined" None)
      end
  | _ => ret {| rq_method := method; rq_url := default "undefined"%string (dataUrl file);
                rq_headers := []; rq_body := None |}
  end.

(** [xhr.setRequestHeader(name, value)] *)
Definition with_header (name value : string) (r : Request) : Request :=
  {| rq_method := rq_method r; rq_url := rq_url r; rq_headers := rq_headers r ++ [(name, value)];
     rq_body := rq_body r |}.
Definition send (r : Request) : JS R Response := on_world (xhr_send r).

(** [try { contentLength = xhr.getResponseHeader('Content-Length') } catch { warn }] *)
Definition content_length (x : Response) : option string :=
  match rs_contentLength x with Normal o => o | Thrown _ => None end.
(** The modification time, 0 if the header cannot be read. *)
Definition modification_time (x : Response) : HeapNumber :=
  match rs_lastModified x with
  | Normal o => match parse_date (default ""%string o) with Some ms => HN_seconds ms | None => HN_nan end
  | Thrown _ => HN_int 0
  end.

(** The result of an open: three numbers on the heap. *)
Definition open_result (size data mtime : HeapNumber) : JS R Z :=
  let! result := on_module (_malloc 24) in
  on_module (set_HEAPF64 (shr32 result 3 + 0) size) ;;;
  on_module (set_HEAPF64 (shr32 result 3 + 1) data) ;;;
  on_module (set_HEAPF64 (shr32 result 3 + 2) mtime) ;;;
  ret result.

(** The whole response, copied to the heap. *)
Definition full_result (x : Response) : JS R Z :=
  let! data := on_module (_malloc (lenZ (rs_body x))) in
  on_module (heap_set data (rs_body x)) ;;;
  open_result (HN_int (lenZ (rs_body x))) (HN_int data) (modification_time x).

Definition open_failed {A} (file : DuckDBFileInfo) (msg : string) : JS R A :=
  throw (Error ("Opening file " +:+ fileName file +:+ " failed: " +:+ msg)).

(** *** Opening over HTTP and S3 *)

Definition open_for_write (file : DuckDBFileInfo) (flags : Z) : JS R Z :=
  let! rq := file_request file "HEAD" in
  let! x := send rq in
  if negb (rs_status x =? 200) && negb (rs_status x =? 404) then
    open_failed file ("Unexpected return status from server (" +:+ pretty (rs_status x) +:+ ")")
  else if (rs_status x =? 404) &&
          negb (has_flag flags FILE_FLAGS_FILE_CREATE || has_flag flags FILE_FLAGS_FILE_CREATE_NEW) then
    open_failed file "Cannot write to non-existent file without FILE_FLAGS_FILE_CREATE or FILE_FLAGS_FILE_CREATE_NEW flag."
  else
    let! data := on_module (_malloc 1) in
    on_module (heap_set data []) ;;;
    let! ms := on_world now in
    open_result (HN_int 1) (HN_int data) (HN_seconds ms).

(** 1. The HEAD request with a range: the result if the server supports ranges,
    with the length it reported and the error of the attempt. *)
Definition head_range (file : DuckDBFileInfo) : JS R (option Z * option string * option JsError) :=
  let! sent :=
    try_catch
      (let! rq := file_request file "HEAD" in
       let! x := send (with_header "Range" "bytes=0-" rq) in ret (inl x))
      (fun e => ret (inr e)) in
  match sent with
  | inr e => ret (None, None, Some e)
  | inl x =>
      match content_length x with
      | Some len =>
          if rs_status x =? 206 then
            try_catch
              (let! result := open_result (heap_number (Number len)) (HN_int 0) (modification_time x) in
               ret (Some result, Some len, None))
              (fun e => ret (None, Some len, Some e))
          else ret (None, Some len, None)
      | None => ret (None, None, None)
      end
  end.

(** [text.split('/')[1]] *)
Definition after_slash (text : string) : option string :=
  match from "/" text with
  | Some (String _ rest) => Some (before "/" rest)
  | _ => None
  end.
Definition is_number (p : Z -> bool) (o : option string) : bool :=
  match o with Some text => match Number text with Some n => p n | None => false end | None => false end.

(** 2. The GET of the first byte, with a further HEAD request for the length where
    the server's answer to the first cannot be trusted. *)
Definition first_byte (file : DuckDBFileInfo) (contentLength : option string) : JS R (option Z) :=
  let! rq := file_request file "GET" in
  let! x := send (with_header "Range" "bytes=0-0" rq) in
  let contentLength2 := content_length x in
  let! lens :=
    (match contentLength2 ≫= after_slash with
     | Some total => ret (Some total, contentLength)
     | None =>
         if is_true (reliableHeadRequests file) then ret (None, contentLength)
         else
           let! rqh := file_request file "HEAD" in
           let! head := send (with_header "Range" "bytes=0-" rqh) in
           let len := content_length head in
           ret (if is_number (fun n => 1 <? n) len then len else None, len)
     end) in
  let presumedLength := lens.1 in
  let contentLength := lens.2 in
  match presumedLength with
  | Some total =>
      if (rs_status x =? 206) && is_number (Z.eqb 1) contentLength2 then
        let! result := open_result (heap_number (Number total)) (HN_int 0) (modification_time x) in
        ret (Some result)
      else if (rs_status x =? 200) &&
              is_number (fun n => is_number (Z.eqb n) contentLength) contentLength2 then
        let! result := full_result x in ret (Some result)
      else ret None
  | None =>
      if (rs_status x =? 200) &&
         is_number (fun n => is_number (Z.eqb n) contentLength) contentLength2 then
        let! result := full_result x in ret (Some result)
      else ret None
  end.

(** 3. The GET of the whole file. *)
Definition full_read (file : DuckDBFileInfo) : JS R (option Z) :=
  let! rq := file_request file "GET" in
  let! x := send rq in
  if rs_status x =? 200 then let! result := full_result x in ret (Some result) else ret None.

Definition open_for_read (file : DuckDBFileInfo) : JS R Z :=
  let! h :=
    (if negb (is_true (forceFullHttpReads file)) &&
        (is_true (reliableHeadRequests file) || negb (is_true (allowFullHttpReads file)))
     then head_range file else ret (None, None, None)) in
  match h.1.1 with
  | Some result => ret result
  | None =>
      let! r :=
        (if is_true (allowFullHttpReads file) then
           let! r2 := (if negb (is_true (forceFullHttpReads file)) then first_byte file h.1.2 else ret None) in
           match r2 with Some result => ret (Some result) | None => full_read file end
         else ret None) in
      match r, h.2 with
      | Some result, _ => ret result
      | None, Some e => throw (Error ("Reading file " +:+ fileName file +:+ " failed with error: " +:+ error_string e))
      | None, None => ret 0
      end
  end.

Definition open_http (file : DuckDBFileInfo) (flags : Z) : JS R Z :=
  if has_flag flags FILE_FLAGS_READ && has_flag flags FILE_FLAGS_WRITE then
    open_failed file "cannot open file with both read and write flags set"
  else if has_flag flags FILE_FLAGS_APPEND then
    open_failed file "appending to HTTP/S3 files is not supported"
  else if has_flag flags FILE_FLAGS_WRITE then open_for_write file flags
  else if negb (has_flag flags FILE_FLAGS_READ) then
    open_failed file ("unsupported file flags: " +:+ pretty flags)
  else open_for_read file.

(** *** Opening local files *)

Definition file_handle (file : DuckDBFileInfo) : JS R (option FileHandle) :=
  gets (fun s => mget (fileName file) (rt_files s)).

Definition open_filereader (file : DuckDBFileInfo) (flags : Z) : JS R Z :=
  let! handle := file_handle file in
  match handle with
  | Some h =>
      let! result := on_module (_malloc 24) in
      let! size := on_world (blob_size h) in
      on_module (set_HEAPF64 (shr32 result 3 + 0) (HN_int size)) ;;;
      on_module (set_HEAPF64 (shr32 result 3 + 1) (HN_int 0)) ;;;
      on_module (set_HEAPF64 (shr32 result 3 + 2) (HN_int 0)) ;;;
      ret result
  | None =>
      if has_flag flags FILE_FLAGS_NULL_IF_NOT_EXISTS then ret 0
      else
        let! result := on_module (_malloc 24) in
        let! buffer := on_module (_malloc 1) in
        on_module (set_HEAPF64 (shr32 result 3 + 0) (HN_int 1)) ;;;
        on_module (set_HEAPF64 (shr32 result 3 + 1) (HN_int buffer)) ;;;
        on_module (set_HEAPF64 (shr32 result 3 + 2) (HN_int 0)) ;;;
        ret result
  end.

Definition no_access_handle {A} (file : DuckDBFileInfo) : JS R A :=
  throw (Error ("No OPFS access handle registered with name: " +:+ fileName file)).

Definition open_fsaccess (file : DuckDBFileInfo) (flags : Z) : JS R Z :=
  let! handle := file_handle file in
  match handle with
  | None => no_access_handle file
  | Some h =>
      when has_flag flags FILE_FLAGS_FILE_CREATE_NEW then on_world (handle_truncate h 0) ;;;
      let! result := on_module (_malloc 24) in
      let! size := on_world (handle_getSize h) in
      on_module (set_HEAPF64 (shr32 result 3 + 0) (HN_int size)) ;;;
      on_module (set_HEAPF64 (shr32 result 3 + 1) (HN_int 0)) ;;;
      on_module (set_HEAPF64 (shr32 result 3 + 2) (HN_int 0)) ;;;
      ret result
  end.

(** The handler's [catch]: the engine is told, and the answer is [d]. *)
Definition report {A} (d : A) (m : JS R A) : JS R A :=
  try_catch m (fun e => on_module (failWith_mod (error_string e)) ;;; ret d).

Definition openFile (fileId : Z) (flags : Z) : JS R Z :=
  report 0
    (modify (fun s => set_cache (mdelete fileId (_fileInfoCache s)) s) ;;;
     let! file := getFileInfo fileId in
     match file with
     | None => ret 0
     | Some file =>
         match dataProtocol file with
         | HTTP | S3 => open_http file flags
         | BROWSER_FILEREADER => open_filereader file flags
         | BROWSER_FSACCESS => open_fsaccess file flags
         | BUFFER | NODE_FS => ret 0
         end
     end).

(** *** Reading and writing *)

Definition range_header (location bytes : Z) : string :=
  "bytes=" +:+ pretty location +:+ "-" +:+ pretty (location + bytes - 1).

(** [new Uint8Array(buffer, offset, length)] over a response. *)
Definition response_view (b : bytes) (offset length : Z) : JS R bytes :=
  if (offset <? 0) || (length <? 0) || (lenZ b <? offset + length)
  then throw (MkError "RangeError" "Invalid typed array length" None)
  else ret (subarray b offset (offset + length)).

Definition read_http (file : DuckDBFileInfo) (fileId buf bytes location : Z) : JS R Z :=
  if truthy (dataUrl file) then
    try_catch
      (let! rq := file_request file "GET" in
       let! x := send (with_header "Range" (range_header location bytes) rq) in
       let n := lenZ (rs_body x) in
       if (rs_status x =? 206) || ((rs_status x =? 200) && (bytes =? n) && (location =? 0)) then
         let! src := response_view (rs_body x) 0 (Z.min n bytes) in
         on_module (heap_set buf src) ;;; ret (lenZ src)
       else if rs_status x =? 200 then
         let! src := response_view (rs_body x) location (Z.min (n - location) bytes) in
         on_module (heap_set buf src) ;;; ret (lenZ src)
       else
         throw (Error ("Range request for " +:+ default "" (dataUrl file) +:+ " did returned non-success status: " +:+
                       pretty (rs_status x) +:+ " " +:+ dq +:+ rs_statusText x +:+ dq)))
      (fun e => throw (Error ("Range request for " +:+ default "" (dataUrl file) +:+ " failed with error: " +:+
                              error_string e +:+ dq)))
  else throw (Error ("Missing data URL for file " +:+ pretty fileId)).

Definition readFile (fileId buf bytes location : Z) : JS R Z :=
  if bytes =? 0 then ret 0
  else
    report 0
      (let! file := getFileInfo fileId in
       match file with
       | None => ret 0
       | Some file =>
           match dataProtocol file with
           | HTTP | S3 => read_http file fileId buf bytes location
           | BROWSER_FILEREADER =>
               let! handle := file_handle file in
               match handle with
               | None => throw (Error ("No HTML5 file registered with name: " +:+ fileName file))
               | Some h =>
                   let! data := on_world (blob_slice h location (location + bytes)) in
                   on_module (heap_set buf data) ;;; ret (lenZ data)
               end
           | BROWSER_FSACCESS =>
               let! handle := file_handle file in
               match handle with
               | None => no_access_handle file
               | Some h =>
                   let! data := on_world (handle_read h bytes location) in
                   on_module (heap_set buf data) ;;; ret (lenZ data)
               end
           | BUFFER | NODE_FS => ret 0
           end
       end).

Definition writeFile (fileId buf bytes location : Z) : JS R Z :=
  let! file := getFileInfo fileId in
  match file with
  | None => ret 0
  | Some file =>
      match dataProtocol file with
      | HTTP => on_module (failWith_mod "Cannot write to HTTP file") ;;; ret 0
      | S3 =>
          let! buffer := on_module (heap_subarray buf bytes) in
          match dataUrl file with
          | None => throw (MkError "TypeError" "Cannot read properties of undefined" None)
          | Some url =>
              let! rq := s3_request (s3Config file) url "PUT" "PUT" (Some ""%string) (Some buffer) (Some buffer) in
              let! x := send rq in
              if negb (rs_status x =? 200) then
                on_module (failWith_mod ("Failed writing file: HTTP " +:+ pretty (rs_status x))) ;;; ret 0
              else ret bytes
          end
      | BROWSER_FILEREADER => on_module (failWith_mod "cannot write using the html5 file reader api") ;;; ret 0
      | BROWSER_FSACCESS =>
          let! handle := file_handle file in
          match handle with
          | None => no_access_handle file
          | Some h =>
              let! input := on_module (heap_subarray buf bytes) in
              on_world (handle_write h input location)
          end
      | BUFFER | NODE_FS => ret 0
      end
  end.

Definition truncateFile (fileId newSize : Z) : JS R unit :=
  let! file := getFileInfo fileId in
  match file with
  | None => ret tt
  | Some file =>
      match dataProtocol file with
      | HTTP => on_module (failWith_mod "Cannot truncate a http file")
      | S3 => on_module (failWith_mod "Cannot truncate an s3 file")
      | BUFFER | NODE_FS | BROWSER_FILEREADER => on_module (failWith_mod "truncateFile not implemented")
      | BROWSER_FSACCESS =>
          let! handle := file_handle file in
          match handle with
          | None => no_access_handle file
          | Some h => on_world (handle_truncate h newSize)
          end
      end
  end.

Definition getLastFileModificationTime (fileId : Z) : JS R HeapNumber :=
  let! file := getFileInfo fileId in
  match file with
  | None => ret (HN_int 0)
  | Some file =>
      match dataProtocol file with
      | BROWSER_FILEREADER =>
          let! handle := file_handle file in
          match handle with
          | None => throw (Error ("No handle available for file: " +:+ fileName file))
          | Some _ => ret (HN_int 0)
          end
      | HTTP | S3 => let! ms := on_world now in ret (HN_seconds ms)
      | _ => ret (HN_int 0)
      end
  end.

(** *** Closing, dropping and moving *)

Definition closeFile (fileId : Z) : JS R unit :=
  let! file := getFileInfo fileId in
  modify (fun s => set_cache (mdelete fileId (_fileInfoCache s)) s) ;;;
  report tt
    (match file with
     | None => ret tt
     | Some file =>
         match dataProtocol file with
         | BROWSER_FSACCESS =>
             let! handle := file_handle file in
             match handle with
             | None => no_access_handle file
             | Some h => on_world (handle_flush h)
             end
         | _ => ret tt
         end
     end).

Definition rt_dropFile (fileNamePtr fileNameLen : Z) : JS R unit :=
  let! name := on_module (readString fileNamePtr fileNameLen) in
  let! handle := gets (fun s => mget name (rt_files s)) in
  match handle with
  | None => ret tt
  | Some h =>
      modify (fun s => set_rt_files (mdelete name (rt_files s)) s) ;;;
      match h with
      | FH_sync _ =>
          try_catch (on_world (handle_flush h) ;;; on_world (handle_close h))
            (fun _ => throw (Error ("Cannot drop file with name: " +:+ name)))
      | _ => ret tt
      end
  end.

(** The deletion takes the handle for the key of the map, so it removes nothing. *)
Definition moveFile (fromPtr fromLen toPtr toLen : Z) : JS R bool :=
  let! source := on_module (readString fromPtr fromLen) in
  let! target := on_module (readString toPtr toLen) in
  let! handle := gets (fun s => mget source (rt_files s)) in
  match handle with
  | Some h => modify (fun s => set_rt_files (mset target h (rt_files s)) s)
  | None => ret tt
  end ;;;
  modify (fun s =>
    match list_find (fun e => dataUrl (snd e) = Some source) (_fileInfoCache s) with
    | Some (_, (key, _)) => set_cache (mdelete key (_fileInfoCache s)) s
    | None => s
    end) ;;;
  ret true.

(** *** Paths *)

Definition is_remote (path : string) : bool := startsWith "http" path || startsWith "s3://" path.

(** A request for a path over HTTP or S3, signed for [signed_method]. *)
Definition path_request (path signed_method open_method : string) : JS R Request :=
  if startsWith "s3://" path then
    let! g := getGlobalFileInfo in
    s3_request (g ≫= g_s3Config) path signed_method open_method None None None
  else ret {| rq_method := open_method; rq_url := path; rq_headers := []; rq_body := None |}.

Definition status_ok (x : Response) : bool := (rs_status x =? 200) || (rs_status x =? 206).
Definition glob_add (path : string) : JS R unit :=
  on_module (ccall "duckdb_web_fs_glob_add_path" [Arg_string path]) ;;; ret tt.

Definition glob (pathPtr pathLen : Z) : JS R unit :=
  report tt
    (let! path := on_module (readString pathPtr pathLen) in
     if is_remote path then
       let! rq := path_request path "HEAD" "HEAD" in
       let! x := send rq in
       if status_ok x then glob_add path
       else
         let! g := getGlobalFileInfo in
         if negb (is_true (g ≫= g_allowFullHttpReads)) then ret tt
         else
           let! rq2 := path_request path "HEAD" "GET" in
           let! x2 := send (with_header "Range" "bytes=0-0" rq2) in
           if status_ok x2 then glob_add path else ret tt
     else
       let! files := gets rt_files in
       for_of files (fun f => when startsWith path f.1 then glob_add f.1)).

Definition checkFile (pathPtr pathLen : Z) : JS R bool :=
  try_catch
    (let! path := on_module (readString pathPtr pathLen) in
     if is_remote path then
       let! rq := path_request path "HEAD" "HEAD" in
       let! x := send rq in ret (status_ok x)
     else gets (fun s => mhas path (rt_files s)))
    (fun _ => ret false).

(** *** The operations that do nothing in the browser *)

Definition syncFile (_ : Z) : JS R unit := ret tt.
Definition removeFile (_ _ : Z) : JS R unit := ret tt.
Definition checkDirectory (pathPtr pathLen : Z) : JS R bool :=
  on_module (readString pathPtr pathLen) ;;; ret false.
Definition listDirectoryEntries (pathPtr pathLen : Z) : JS R bool :=
  on_module (readString pathPtr pathLen) ;;; ret false.
Definition createDirectory (pathPtr pathLen : Z) : JS R unit :=
  on_module (readString pathPtr pathLen) ;;; ret tt.
Definition removeDirectory (pathPtr pathLen : Z) : JS R unit :=
  on_module (readString pathPtr pathLen) ;;; ret tt.
Definition testPlatformFeature (hasBigInt64Array : bool) (feature : Z) : bool :=
  if feature =? 1 then hasBigInt64Array else false.
(** The message [progressUpdate] posts. *)
Definition progressUpdate (done percentage repeat : Z) : Z * WorkerResponseType * ProgressEntry :=
  (0, PROGRESS_UPDATE,
   {| status := if done =? 0 then "in-progress" else "completed"; percentage := percentage;
      repetitions := repeat |}).
Definition getDefaultDataProtocol : DuckDBDataProtocol := BROWSER_FILEREADER.
End BrowserRuntime.
