(* ===== verification/BrowserFiles.v ===== *)
(** * BrowserFiles: what the browser's file system promises

    A file over HTTP is its content: an open reports the content's size or delivers
    all of it, and a read delivers the bytes asked for, whether the server answers
    ranges or the whole file. *)
From S2P Require Import Prelude Text Data Protocol JsMap WasmModule BindingsBase S3 SampleModule BrowserRuntime.
From stdpp Require Import base tactics list strings pretty.
From Stdlib Require Import ZArith Lia.
Open Scope Z_scope.

(** A request without headers of its own. *)
Definition plain_request (method url : string) : Request :=
  {| rq_method := method; rq_url := url; rq_headers := []; rq_body := None |}.

(** A server that has [c] at [url]: its HEAD responses carry the size if they carry
    a length, a single byte has a plain number for a length, and a GET it answers
    with 200 delivers all of [c]. *)
Record serves (server : Request -> Outcome Response) (url : string) (c : bytes) : Prop := {
  sv_head v x t : server (with_header "Range" v (plain_request "HEAD" url)) = Normal x ->
    content_length x = Some t -> Number t = Some (lenZ c);
  sv_byte x t : server (with_header "Range" "bytes=0-0" (plain_request "GET" url)) = Normal x ->
    content_length x = Some t -> after_slash t = None;
  sv_byte_whole x : server (with_header "Range" "bytes=0-0" (plain_request "GET" url)) = Normal x ->
    rs_status x = 200 -> rs_body x = c;
  sv_whole x : server (plain_request "GET" url) = Normal x -> rs_status x = 200 -> rs_body x = c
}.

Section Http.
Context {M W : Type} `{DuckDBModule M} `{Browser W}.
Context (parse_date : string -> option Z) (URL_host URL_pathname : string -> Outcome string)
  (sha256 : string -> string) (sha256_hex : bytes -> string)
  (hmac_arrayBuffer : HmacKey -> string -> bytes) (hmac : HmacKey -> string -> string).
Context (server : Request -> Outcome Response) (server_pure : forall rq w, (xhr_send rq w).1 = server rq).
Context (file : DuckDBFileInfo) (url : string) (c : bytes).
Context (is_http : dataProtocol file = HTTP) (has_url : dataUrl file = Some url) (Hserves : serves server url c).
Abbreviation R := (Runtime M W).
Abbreviation request := (file_request (M := M) (W := W) URL_host URL_pathname sha256 sha256_hex hmac_arrayBuffer hmac file).

Definition traced (t : list Event) (s : R) : Prop := trace (rt_mod s) = t.

(** The engine gets [p], where [size], [data] and a time were stored last. *)
Definition stored (t : list Event) (p : Z) (size data : HeapNumber) (s : R) : Prop :=
  exists mtime, traced (t ++ [Ev_malloc p; Ev_f64 (shr32 p 3 + 0) size; Ev_f64 (shr32 p 3 + 1) data;
                              Ev_f64 (shr32 p 3 + 2) mtime]) s.

(** The file was opened for ranges of [c], or with all of [c] on the heap. *)
Definition opened (t : list Event) (p : Z) (s : R) : Prop :=
  stored t p (HN_int (lenZ c)) (HN_int 0) s \/
  exists q, stored (t ++ [Ev_malloc q; Ev_write q c]) p (HN_int (lenZ c)) (HN_int q) s.

Lemma request_http method : request method = ret (plain_request method url).
Proof using is_http has_url. unfold file_request. by rewrite is_http, has_url. Qed.

Lemma on_world_traced {A} t (m : JS W A) :
  triple (traced t) (on_world (M := M) m) (fun _ => traced t) (fun _ => traced t).
Proof. intros s Hs. unfold on_world, zoom. by destruct (m (world s)) as [[a|e] w]. Qed.

Lemma send_traced t rq :
  triple (traced t) (send (M := M) rq) (fun x s => traced t s /\ server rq = Normal x)
    (fun e s => traced t s /\ server rq = Thrown e).
Proof using server_pure.
  intros s Hs. unfold send, on_world, zoom. pose proof (server_pure rq (world s)) as E.
  destruct (xhr_send rq (world s)) as [[x|e] w]; cbn in *; by rewrite <- E.
Qed.

Lemma open_result_stored t size data mtime :
  triple (traced t) (open_result (M := M) (W := W) size data mtime) (fun p s => stored t p size data s) (fun _ _ => False).
Proof.
  intros s Hs. unfold open_result, bind, on_module, zoom, _malloc, set_HEAPF64. cbn.
  destruct (m_malloc 24 (state (rt_mod s))) as [p m]. cbn. exists mtime. unfold traced in *. cbn.
  by rewrite Hs, <- !app_assoc.
Qed.

(** The server answers every request for the file, HEAD and ranged ones too, and the block
    the engine allocates for the content takes it. *)
Definition answers : Prop :=
  (forall rq, rq_url rq = url -> is_normal (server rq) = true) /\
  (forall m : M, is_normal (m_write (m_malloc (lenZ c) m).1 c (m_malloc (lenZ c) m).2).1 = true).
Definition whole_available : Prop :=
  exists x, server (plain_request "GET" url) = Normal x /\ rs_status x = 200.

Lemma sent_or_not t rq :
  rq_url rq = url ->
  triple (traced t) (send (M := M) rq) (fun x s => traced t s /\ server rq = Normal x) (fun _ _ => ~ answers).
Proof using server_pure.
  intros Hu. eapply triple_conseq; [apply send_traced|done|done|].
  intros e s [_ He] [Ha _]. specialize (Ha rq Hu). by rewrite He in Ha.
Qed.

Lemma full_result_opened t x : rs_body x = c ->
  triple (traced t) (full_result (M := M) (W := W) parse_date x) (fun p s => opened t p s) (fun _ _ => ~ answers).
Proof.
  intros Hx s Hs. unfold full_result. rewrite Hx. unfold bind at 1, on_module at 1, zoom, _malloc.
  destruct (m_malloc (lenZ c) (state (rt_mod s))) as [q m] eqn:Em. cbn -[open_result].
  unfold bind, on_module, zoom, heap_set. cbn -[open_result].
  destruct (m_write q c m) as [[[]|e] m'] eqn:Ew;
    [|intros [_ Hw]; specialize (Hw (state (rt_mod s))); rewrite Em in Hw; cbn in Hw; by rewrite Ew in Hw].
  cbn -[open_result].
  match goal with |- context [open_result ?a ?b ?t ?s0] =>
    pose proof (open_result_stored (trace (rt_mod s0)) a b t s0 eq_refl) as Hr; destruct (open_result a b t s0) as [[p|e] s'] end;
    [|done]. cbn in Hr |- *. right. exists q. unfold traced in Hs. by rewrite Hs, <- app_assoc in Hr.
Qed.

(** A length the code takes from a HEAD response is the content's. *)
Definition true_length (o : option string) : Prop := forall t, o = Some t -> Number t = Some (lenZ c).

Lemma head_range_opened t :
  triple (traced t) (head_range parse_date URL_host URL_pathname sha256 sha256_hex hmac_arrayBuffer hmac file)
    (fun r s => (match r.1.1 with Some p => opened t p s | None => traced t s end) /\ true_length r.1.2)
    (fun _ _ => False).
Proof using is_http has_url server_pure Hserves.
  unfold head_range. rewrite !request_http.
  eapply (triple_bind _ _ _ (fun r s => traced t s /\
    match r with inl x => server (with_header "Range" "bytes=0-" (plain_request "HEAD" url)) = Normal x | inr _ => True end)).
  { apply (triple_try_catch _ _ _ _ _ (fun _ => traced t)); [|intros e; by apply triple_ret].
    eapply triple_bind; [by apply (triple_ret _ _ (fun a s => traced t s /\ a = plain_request "HEAD" url))|].
    intros rq. apply triple_pure. intros ->.
    eapply triple_bind; [eapply triple_conseq; [apply send_traced|done|done|by intros e s []]|].
    intros x. by apply triple_ret. }
  intros [x|e]; apply triple_pure; intros Hx; [|by apply triple_ret].
  destruct (content_length x) as [len|] eqn:El; [|by apply triple_ret].
  pose proof (sv_head _ _ _ Hserves _ x len Hx El) as Hlen.
  assert (true_length (Some len)) as Ht by (by intros ? [= <-]).
  destruct (rs_status x =? 206); [|by apply triple_ret].
  apply (triple_try_catch _ _ _ _ _ (fun _ _ => False)); [|done].
  eapply triple_bind; [eapply triple_conseq; [apply open_result_stored|done|done|done]|].
  intros p. apply triple_ret. intros s Hs. split; [|done]. left. by rewrite Hlen in Hs.
Qed.

Lemma full_read_opened t :
  triple (traced t) (full_read parse_date URL_host URL_pathname sha256 sha256_hex hmac_arrayBuffer hmac file)
    (fun r s => match r with Some p => opened t p s | None => traced t s /\ ~ whole_available end)
    (fun _ _ => ~ answers).
Proof using is_http has_url server_pure Hserves.
  unfold full_read. rewrite !request_http.
  eapply triple_bind; [by apply (triple_ret _ _ (fun a s => traced t s /\ a = plain_request "GET" url))|].
  intros rq. apply triple_pure. intros ->.
  eapply triple_bind; [by apply sent_or_not|].
  intros x. apply triple_pure. intros Hx. destruct (Z.eqb_spec (rs_status x) 200) as [Es|Es].
  2: { apply triple_ret. intros s Hs. split; [done|]. intros (x' & Hx' & E'). rewrite Hx in Hx'. congruence. }
  eapply triple_bind; [apply full_result_opened, (sv_whole _ _ _ Hserves _ Hx Es)|].
  intros p. by apply triple_ret.
Qed.

Lemma first_byte_opened t len : true_length len ->
  triple (traced t) (first_byte parse_date URL_host URL_pathname sha256 sha256_hex hmac_arrayBuffer hmac file len)
    (fun r s => match r with Some p => opened t p s | None => traced t s end) (fun _ _ => ~ answers).
Proof using is_http has_url server_pure Hserves.
  intros Hlen. unfold first_byte. rewrite !request_http.
  eapply triple_bind; [by apply (triple_ret _ _ (fun a s => traced t s /\ a = plain_request "GET" url))|].
  intros rq. apply triple_pure. intros ->.
  eapply triple_bind; [by apply sent_or_not|].
  intros x. apply triple_pure. intros Hx.
  assert (content_length x ≫= after_slash = None) as ->.
  { destruct (content_length x) as [l|] eqn:El; [|done]. cbn. by apply (sv_byte _ _ _ Hserves x). }
  eapply (triple_bind _ _ _ (fun lens s => (traced t s /\ true_length lens.1))).
  - destruct (is_true (reliableHeadRequests file)); [by apply triple_ret|].
    eapply triple_bind; [by apply (triple_ret _ _ (fun a s => traced t s /\ a = plain_request "HEAD" url))|].
    intros rq. apply triple_pure. intros ->.
    eapply triple_bind; [by apply sent_or_not|].
    intros h. apply triple_pure. intros Hh. apply triple_ret. intros s Hs. split; [done|].
    cbn. destruct (is_number _ _); [|done]. intros l El. by apply (sv_head _ _ _ Hserves "bytes=0-"%string h).
  - intros [total len2]. apply triple_pure. cbn [fst snd]. intros Ht.
    assert (triple (traced t) (if (rs_status x =? 200) &&
        is_number (fun n => is_number (Z.eqb n) len2) (content_length x)
      then let! result := full_result parse_date x in ret (Some result) else ret None)
      (fun r s => match r with Some p => opened t p s | None => traced t s end) (fun _ _ => ~ answers)) as Hwhole.
    { destruct (Z.eqb_spec (rs_status x) 200) as [Es|]; cbn [andb]; [|by apply triple_ret].
      destruct (is_number _ _); [|by apply triple_ret].
      eapply triple_bind; [apply full_result_opened, (sv_byte_whole _ _ _ Hserves _ Hx Es)|].
      intros p. by apply triple_ret. }
    destruct total as [total|]; [|done]. destruct ((rs_status x =? 206) && _); [|done].
    eapply triple_bind; [eapply triple_conseq; [apply open_result_stored|done|done|done]|].
    intros p. apply triple_ret. intros s Hs. left. by rewrite (Ht total eq_refl) in Hs.
Qed.

Lemma open_for_read_opened t :
  triple (traced t) (open_for_read parse_date URL_host URL_pathname sha256 sha256_hex hmac_arrayBuffer hmac file)
    (fun p s => opened t p s \/
       p = 0 /\ traced t s /\ ~ (is_true (allowFullHttpReads file) = true /\ whole_available))
    (fun _ _ => ~ (is_true (allowFullHttpReads file) = true /\ whole_available /\ answers)).
Proof using is_http has_url server_pure Hserves.
  unfold open_for_read.
  eapply (triple_bind _ _ _ (fun r s =>
    (match r.1.1 with Some p => opened t p s | None => traced t s end) /\ true_length r.1.2)).
  { destruct (_ && _); [eapply triple_conseq; [apply head_range_opened|done|done|done]|by apply triple_ret]. }
  intros [[[p|] len] err]; cbn [fst snd]; apply triple_pure; intros Hlen; [apply triple_ret; auto|].
  eapply (triple_bind _ _ _ (fun r s => match r with
    | Some p => opened t p s
    | None => traced t s /\ ~ (is_true (allowFullHttpReads file) = true /\ whole_available) end)).
  { destruct (is_true (allowFullHttpReads file)); [|apply triple_ret; intros s Hs; split; [done|by intros []]].
    eapply (triple_bind _ _ _ (fun r s => match r with Some p => opened t p s | None => traced t s end)).
    { destruct (negb _); [|by apply triple_ret].
      eapply triple_conseq; [by apply first_byte_opened|done|done|]. intros e s Ha (_ & _ & Ha'). by apply Ha. }
    intros [q|]; [by apply triple_ret|].
    eapply triple_conseq; [apply full_read_opened|done| |].
    - intros [q|] s; [done|]. intros [Hs Hw]. split; [done|]. by intros [].
    - intros e s Ha (_ & _ & Ha'). by apply Ha. }
  intros [q|]; [apply triple_ret; auto|].
  destruct err; [apply triple_throw; intros s [_ Hn] (? & ? & _); by apply Hn|apply triple_ret; intros s []; auto].
Qed.
End Http.


(** ** Reading *)

(** How the server may answer a range request on [c]: with the range, or with all of it. *)
Definition answers_range (c : bytes) (location bytes : Z) (x : Response) : Prop :=
  rs_status x = 206 /\ rs_body x = subarray c location (Z.min (location + bytes) (lenZ c)) \/
  rs_status x = 200 /\ rs_body x = c.

Lemma subarray_all {A} (l : list A) n : lenZ l <= n -> subarray l 0 n = l.
Proof. intros Hn. unfold subarray, lenZ in *. rewrite drop_0. apply take_ge. lia. Qed.

Lemma subarray_lenZ {A} (l : list A) a b : 0 <= a -> a <= b -> lenZ (subarray l a (Z.min b (lenZ l))) =
  Z.max 0 (Z.min (b - a) (lenZ l - a)).
Proof. intros Ha Hb. unfold subarray, lenZ. rewrite length_take, length_drop. lia. Qed.

Lemma response_view_ok {M W} (b : bytes) off len (s : Runtime M W) :
  0 <= off -> 0 <= len -> off + len <= lenZ b ->
  response_view b off len s = (Normal (subarray b off (off + len)), s).
Proof.
  intros. unfold response_view. rewrite !(proj2 (Z.ltb_ge _ _)) by lia. done.
Qed.

(** The part of a response that is copied to the buffer. *)
Definition copied {M W} (x : Response) (n location : Z) : JS (Runtime M W) bytes :=
  if (rs_status x =? 206) || ((rs_status x =? 200) && (n =? lenZ (rs_body x)) && (location =? 0))
  then response_view (rs_body x) 0 (Z.min (lenZ (rs_body x)) n)
  else response_view (rs_body x) location (Z.min (lenZ (rs_body x) - location) n).

(** What a range request for [n] bytes at [location] is answered with, as the code takes it:
    a 206 for what was asked for, a 200 for the whole file. *)
Definition delivered (x : Response) (n location : Z) : option bytes :=
  if rs_status x =? 206 then Some (subarray (rs_body x) 0 (Z.min (lenZ (rs_body x)) n))
  else if (rs_status x =? 200) && (location <=? lenZ (rs_body x))
  then Some (subarray (rs_body x) location (Z.min (location + n) (lenZ (rs_body x))))
  else None.

Lemma copied_delivered {M W} x n location (s : Runtime M W) :
  0 < n -> 0 <= location -> (rs_status x =? 206) || (rs_status x =? 200) = true ->
  copied x n location s = match delivered x n location with
                          | Some b => (Normal b, s)
                          | None => (Thrown (MkError "RangeError" "Invalid typed array length" None), s)
                          end.
Proof.
  intros Hn Hl Hst. unfold copied, delivered. pose proof (lenZ_nonneg (rs_body x)) as Hb.
  destruct (rs_status x =? 206); cbn [orb] in *; [by rewrite response_view_ok by lia|]. rewrite Hst. cbn [andb].
  destruct ((n =? lenZ (rs_body x)) && (location =? 0)) eqn:E.
  - apply andb_true_iff in E as [->%Z.eqb_eq ->%Z.eqb_eq]. rewrite (proj2 (Z.leb_le 0 _)) by lia.
    rewrite response_view_ok by lia. do 2 f_equal; f_equal; lia.
  - destruct (Z.leb_spec location (lenZ (rs_body x))) as [H|H].
    + rewrite response_view_ok by lia. do 2 f_equal; f_equal; lia.
    + unfold response_view. by rewrite (proj2 (Z.ltb_lt (Z.min _ _) 0)), orb_true_r by lia.
Qed.

Lemma delivered_asked c x n location : answers_range c location n x -> 0 < n -> 0 <= location -> location <= lenZ c ->
  delivered x n location = Some (subarray c location (Z.min (location + n) (lenZ c))).
Proof.
  intros Hx Hn Hl Hc. unfold delivered. destruct Hx as [[-> ->]|[-> ->]]; cbn [Z.eqb Pos.eqb andb].
  - f_equal. rewrite subarray_lenZ by lia. by rewrite subarray_all by (rewrite subarray_lenZ; lia).
  - by rewrite (proj2 (Z.leb_le _ _)) by lia.
Qed.

Lemma read_http_eq {M W} `{DuckDBModule M} `{Browser W} URL_host URL_pathname sha256 sha256_hex hmac_arrayBuffer hmac
    file url fileId buf n location (s : Runtime M W) :
  dataProtocol file = HTTP -> dataUrl file = Some url -> truthy (Some url) = true ->
  let m := (let! x := send (with_header "Range" (range_header location n) (plain_request "GET" url)) in
            if (rs_status x =? 206) || (rs_status x =? 200) then
              let! src := copied x n location in
              on_module (heap_set buf src) ;;; ret (lenZ src)
            else throw (Error "")) s in
  let r := read_http URL_host URL_pathname sha256 sha256_hex hmac_arrayBuffer hmac file fileId buf n location s in
  r.2 = m.2 /\ match m.1 with Normal k => r.1 = Normal k | Thrown _ => is_normal r.1 = false end.
Proof.
  intros Hp Hu Ht. cbv zeta. unfold read_http, file_request, copied. rewrite Hp, Hu, Ht.
  unfold try_catch, bind, ret, throw. cbn [default from_option id].
  change {| rq_method := "GET"; rq_url := url; rq_headers := []; rq_body := None |} with (plain_request "GET" url).
  destruct (send _ s) as [[x|e] s1]; [|done].
  destruct (rs_status x =? 206), (rs_status x =? 200), (n =? lenZ (rs_body x)), (location =? 0); cbn [orb andb]; try done;
    destruct (response_view _ _ _ s1) as [[src|e] s2]; try done;
    destruct (on_module (heap_set buf src) s2) as [[[]|e] s3]; done.
Qed.

(** A read put [src] into the buffer at [buf] and returned its length, unless the buffer
    does not take it; or it threw with nothing written. *)
Definition wrote {M W} (s : Runtime M W) (buf : Z) (src : bytes) (r : Outcome Z * Runtime M W) : Prop :=
  match r.1 with
  | Normal k => k = lenZ src /\ traced (trace (rt_mod s) ++ [Ev_write buf src]) r.2
  | Thrown _ => traced (trace (rt_mod s) ++ [Ev_write buf src; Ev_throw]) r.2
  end.
Definition refused {M W} (s : Runtime M W) (r : Outcome Z * Runtime M W) : Prop :=
  is_normal r.1 = false /\ traced (trace (rt_mod s)) r.2.

(** C33: Reading a file over HTTP.  If the server answers the range asked for with 206, or
    the whole content with 200, and the position is inside the content or at its end, the
    bytes that land in the engine's buffer are the content from there, as many as were
    asked for and there are, and their number is returned.  In general the body of a 206
    is taken for the range, up to the bytes asked for, and the body of a 200 for the whole
    file; past the end of that, on any other status and on a failed request the read
    throws, with nothing written. *)
Theorem http_reads_deliver_the_bytes_asked_for {M W} `{DuckDBModule M} `{Browser W}
    URL_host URL_pathname sha256 sha256_hex hmac_arrayBuffer hmac server file url c fileId buf n location (s : Runtime M W) :
  (forall rq w, (xhr_send (W := W) rq w).1 = server rq) ->
  dataProtocol file = HTTP -> dataUrl file = Some url -> url <> ""%string -> 0 < n -> 0 <= location ->
  let r := read_http URL_host URL_pathname sha256 sha256_hex hmac_arrayBuffer hmac file fileId buf n location s in
  match server (with_header "Range" (range_header location n) (plain_request "GET" url)) with
  | Normal x =>
      (answers_range c location n x -> location <= lenZ c ->
         wrote s buf (subarray c location (Z.min (location + n) (lenZ c))) r) /\
      (rs_status x = 206 -> wrote s buf (subarray (rs_body x) 0 (Z.min (lenZ (rs_body x)) n)) r) /\
      (rs_status x = 200 -> location <= lenZ (rs_body x) ->
         wrote s buf (subarray (rs_body x) location (Z.min (location + n) (lenZ (rs_body x)))) r) /\
      (rs_status x = 200 -> lenZ (rs_body x) < location -> refused s r) /\
      (rs_status x <> 200 -> rs_status x <> 206 -> refused s r)
  | Thrown _ => refused s r
  end.
Proof.
  intros Hs Hp Hu Hne Hn Hl. cbv zeta.
  assert (truthy (Some url) = true) as Ht by (by destruct url).
  pose proof (read_http_eq URL_host URL_pathname sha256 sha256_hex hmac_arrayBuffer hmac file url fileId buf n
    location s Hp Hu Ht) as [E2 E1]. cbv zeta in E1, E2.
  set (r := read_http _ _ _ _ _ _ file fileId buf n location s) in *. clearbody r.
  set (rq := with_header "Range" _ _) in *. unfold bind at 1 in E1; unfold bind at 1 in E2.
  unfold send, on_world, zoom in E1, E2. pose proof (Hs rq (world s)) as Ex.
  destruct (xhr_send rq (world s)) as [[x|e] w]; cbn [fst snd] in *; rewrite <- Ex; [|by split; rewrite ?E2].
  set (s1 := set_world w s) in *.
  assert (match (if (rs_status x =? 206) || (rs_status x =? 200) then delivered x n location else None) with
          | Some src => wrote s buf src r
          | None => refused s r
          end) as Hall.
  { destruct ((rs_status x =? 206) || (rs_status x =? 200)) eqn:Est; cbv beta iota in E1, E2; [|by split; rewrite ?E2].
    unfold bind in E1, E2. rewrite (copied_delivered x n location s1) in E1, E2 by done.
    destruct (delivered x n location) as [src|]; [|by split; rewrite ?E2].
    unfold on_module, zoom, heap_set, ret in E1, E2. unfold wrote, traced.
    destruct (m_write buf src (state (rt_mod s1))) as [o m]. cbn [fst snd] in *.
    destruct o as [[]|e]; cbn in E1, E2.
    - rewrite E1, E2. done.
    - rewrite E2. destruct r.1; [done|]. cbn. by rewrite <- app_assoc. }
  assert (forall src, rs_status x = 206 \/ rs_status x = 200 -> delivered x n location = Some src -> wrote s buf src r) as Hw.
  { intros src Hst Hd. rewrite Hd in Hall. by destruct Hst as [Hst|Hst]; rewrite Hst in Hall. }
  split_and!.
  - intros Hx Hc. apply Hw; [by destruct Hx as [[? _]|[? _]]; auto|]. by apply delivered_asked.
  - intros E. apply Hw; [by left|]. unfold delivered. by rewrite E.
  - intros E Hlen. apply Hw; [by right|]. unfold delivered. rewrite E. cbn. by rewrite (proj2 (Z.leb_le _ _)) by lia.
  - intros E Hlen. rewrite E in Hall. cbn [Z.eqb Pos.eqb orb] in Hall. unfold delivered in Hall. rewrite E in Hall.
    cbn [Z.eqb Pos.eqb andb] in Hall. by rewrite (proj2 (Z.leb_gt _ _)) in Hall by lia.
  - intros E3 E4. by rewrite (proj2 (Z.eqb_neq _ _) E3), (proj2 (Z.eqb_neq _ _) E4) in Hall.
Qed.

(** ** OPFS handles *)

Section Prepare.
Context {M W : Type} `{DuckDBModule M} `{Browser W} (worker_name : string).
Abbreviation R := (Runtime M W).

(** What [prepare_path] may change: the world, and the handle prepared for [path]. *)
Definition prepared_for (s : R) (path : string) (r : PreparedDBFileHandle) (s' : R) : Prop :=
  rt_files s' = rt_files s /\ prep_path r = path /\
  if prep_fromCached r
  then mget path (rt_files s) = Some (prep_handle r) /\ rt_preparedHandles s' = rt_preparedHandles s
  else mget path (rt_files s) = None /\
       rt_preparedHandles s' = mset path (prep_handle r) (rt_preparedHandles s).

(** [s'] differs from [s] in its world and its directory root only. *)
Definition same_handles (s s' : R) : Prop :=
  rt_files s' = rt_files s /\ rt_preparedHandles s' = rt_preparedHandles s.

Lemma on_world_handles {A} s0 (m : JS W A) : preserves (same_handles s0) (on_world (M := M) m).
Proof. intros s Hs. unfold on_world, zoom. by destruct (m (world s)). Qed.

Lemma make_directories_handles s0 fs d : preserves (same_handles s0) (make_directories (M := M) d fs).
Proof.
  revert d. induction fs as [|f fs IH]; intros d; cbn; [apply preserves_ret|].
  apply preserves_bind; [apply on_world_handles|auto].
Qed.

Lemma prepare_path_spec path (s : R) :
  match prepare_path worker_name path s with
  | (Normal r, s') => prepared_for s path r s'
  | (Thrown _, s') => same_handles s s'
  end.
Proof.
  unfold prepare_path, bind at 1, gets at 1. destruct (mget path (rt_files s)) as [h|] eqn:Ef; [by repeat split|].
  unfold bind at 1, gets at 1. unfold bind at 1.
  assert (forall A (m : JS R A), preserves (same_handles s) m -> forall s1, same_handles s s1 ->
    same_handles s (m s1).2) as Hpres by (intros A m Hm s1; apply Hm).
  match goal with |- context [match ?m s with _ => _ end] =>
    assert (preserves (same_handles s) m) as Hm; [|specialize (Hm s (conj eq_refl eq_refl)); destruct (m s) as [[dn|e] s1]; [|done]] end.
  { destruct (has_sep _); [|apply preserves_ret]. destruct (String.eqb _ _); [apply preserves_throw|].
    apply preserves_bind; [apply make_directories_handles|intros; apply preserves_ret]. }
  cbn [snd] in Hm. unfold bind at 1.
  match goal with |- context [match ?m s1 with _ => _ end] =>
    assert (preserves (same_handles s) m) as Hg; [|specialize (Hg s1 Hm); destruct (m s1) as [[fh|e] s2]; [|done]] end.
  { apply preserves_try_catch; [apply on_world_handles|intros e]. destruct (String.eqb _ _);
      [apply on_world_handles|apply preserves_throw]. }
  cbn [snd] in Hg. unfold try_catch, bind at 1. pose proof (on_world_handles s (open_access_handle fh) s2 Hg) as Ho.
  destruct (on_world _ s2) as [[h|e] s3]; [|done]. cbn in *. destruct Ho as [E1 E2].
  unfold prepared_for. cbn. by rewrite E1, E2.
Qed.

(** The handles a list of paths is prepared to: those registered, and the new ones,
    which wait among the prepared handles. *)
Definition all_prepared (s : R) (paths : list string) (rs : list PreparedDBFileHandle) (s' : R) : Prop :=
  prep_path <$> rs = paths /\ rt_files s' = rt_files s /\
  Forall (fun r => if prep_fromCached r then mget (prep_path r) (rt_files s) = Some (prep_handle r)
                   else mget (prep_path r) (rt_files s) = None /\
                        mget (prep_path r) (rt_preparedHandles s') = Some (prep_handle r)) rs /\
  forall k, k ∉ paths -> mget k (rt_preparedHandles s') = mget k (rt_preparedHandles s).

Lemma prepare_all_spec paths (s : R) : NoDup paths ->
  match map_of paths (prepare_path worker_name) s with
  | (Normal rs, s') => all_prepared s paths rs s'
  | (Thrown _, s') => rt_files s' = rt_files s
  end.
Proof.
  revert s. induction paths as [|p ps IH]; intros s Hn; [by repeat split; try constructor|].
  apply NoDup_cons in Hn as [Hp Hn]. cbn [map_of]. unfold bind at 1.
  pose proof (prepare_path_spec p s) as Hs. destruct (prepare_path worker_name p s) as [[r|e] s1]; [|apply Hs].
  destruct Hs as (F1 & Ep & Hr). unfold bind at 1. specialize (IH s1 Hn).
  destruct (map_of ps (prepare_path worker_name) s1) as [[rs|e] s2]; cbn; [|congruence].
  destruct IH as (Eps & F2 & Hrs & Hk). split; [cbn; congruence|]. split; [congruence|]. rewrite F1 in Hrs.
  assert (forall k, k <> p -> mget k (rt_preparedHandles s1) = mget k (rt_preparedHandles s)) as Hother.
  { intros k Hne. destruct (prep_fromCached r); destruct Hr as [_ ->]; [done|by apply mget_mset_ne]. }
  split.
  - constructor; [|done]. rewrite Ep. destruct (prep_fromCached r); [by destruct Hr|]. destruct Hr as [Hr Eh].
    split; [done|]. rewrite Hk by done. by rewrite Eh, mget_mset.
  - intros k [Hne Hin]%not_elem_of_cons. by rewrite Hk, Hother.
Qed.
End Prepare.

(** Preparing OPFS files: the result has one entry for each path, in order; an
    entry from the cache carries the registered handle, every other one a handle
    that waits among the prepared handles for the file's first use, and no other
    prepared handle and no registered file changes.  If one path fails, the
    registered files are as before. *)
Theorem opfs_files_are_prepared_once {M W} `{DuckDBModule M} `{Browser W} worker_name paths (s : Runtime M W) :
  NoDup paths ->
  match prepareFileHandles worker_name paths BROWSER_FSACCESS s with
  | (Normal rs, s') => all_prepared s paths rs s'
  | (Thrown _, s') => rt_files s' = rt_files s
  end.
Proof.
  intros Hn. unfold prepareFileHandles, assignOPFSRoot.
  assert (forall s1 : Runtime M W, same_handles s s1 ->
    match map_of paths (prepare_path worker_name) s1 with
    | (Normal rs, s') => all_prepared s paths rs s'
    | (Thrown _, s') => rt_files s' = rt_files s end) as Hall.
  { intros s1 [E1 E2]. pose proof (prepare_all_spec worker_name paths s1 Hn) as Hp.
    unfold all_prepared in *. by rewrite E1, E2 in Hp. }
  unfold bind, gets. destruct (_opfsRoot s); [by apply Hall|].
  unfold on_world, zoom. destruct (getDirectory (world s)) as [[d|e] w]; cbn; [by apply Hall|done].
Qed.

(** [moveFile] deletes the handle where it means the name: the source stays registered. *)
Lemma move_keeps_the_source {M W} `{DuckDBModule M} `{Browser W} fromPtr fromLen toPtr toLen (s : Runtime M W) h :
  let source := utf8_decode (m_read fromPtr fromLen (state (rt_mod s))) in
  let target := utf8_decode (m_read toPtr toLen (state (rt_mod s))) in
  mget source (rt_files s) = Some h -> source <> target ->
  let s' := (moveFile fromPtr fromLen toPtr toLen s).2 in
  mget source (rt_files s') = Some h /\ mget target (rt_files s') = Some h.
Proof.
  cbv zeta. intros Hs Hne. unfold moveFile, bind, on_module, zoom, readString, heap_subarray, gets, ret, modify. cbn.
  rewrite Hs. cbn. destruct (list_find _ _) as [[i [k v]]|]; cbn; by rewrite mget_mset_ne, mget_mset.
Qed.

(** ** A small browser

    A server with five bytes at one URL that supports ranges for HEAD and for the
    first byte, and answers other reads with the whole file; the world counts the
    handles that were opened. *)

Definition sample_url : string := "http://x/f".
Definition sample_content : bytes := [10; 20; 30; 40; 50].
Definition respond_with (status : Z) (len : string) (body : bytes) : Outcome Response :=
  Normal {| rs_status := status; rs_contentLength := Normal (Some len); rs_lastModified := Normal None;
            rs_statusText := "OK"; rs_body := body |}.
Definition sample_server (rq : Request) : Outcome Response :=
  if negb (String.eqb (rq_url rq) sample_url) then Thrown (MkError "NetworkError" "" None)
  else if String.eqb (rq_method rq) "HEAD" then respond_with 206 "5" []
  else match rq_headers rq with
       | [(_, v)] => if String.eqb v "bytes=0-0" then respond_with 206 "1" [10]
                     else respond_with 200 "5" sample_content
       | _ => respond_with 200 "5" sample_content
       end.

#[export] Instance sample_browser : Browser Z := {|
  xhr_send rq w := (sample_server rq, w);
  now := ret 0; now_iso := ret "2024-01-02T03:04:05.6Z"%string;
  handle_getSize _ := ret 0; handle_truncate _ _ := ret tt; handle_read _ _ _ := ret [];
  handle_write _ b _ := ret (lenZ b); handle_flush _ := ret tt; handle_close _ := ret tt;
  blob_size _ := ret 0; blob_slice _ _ _ := ret [];
  getDirectory := ret 1; getDirectoryHandle d _ := ret (d + 1); getFileHandle d _ _ := ret d;
  open_access_handle _ w := (Normal (FH_sync w), w + 1)
|}.

Definition sample_file : DuckDBFileInfo :=
  {| cacheEpoch := 1; fileId := 1; fileName := "f"; dataProtocol := HTTP; dataUrl := Some sample_url;
     reliableHeadRequests := None; allowFullHttpReads := Some true; forceFullHttpReads := None; s3Config := None |}.
Definition sample_runtime : Runtime Sample Z :=
  MkRuntime (MkModule sample_engine []) 0 [("opfs://c", FH_sync 9)]%string [] None [] None.
Abbreviation no_url := (fun _ : string => Thrown (Error "url")).
Abbreviation no_hash := (fun _ : string => ""%string).

Lemma sample_server_pure rq (w : Z) : (xhr_send rq w).1 = sample_server rq.
Proof. reflexivity. Qed.

Lemma sample_server_serves : serves sample_server sample_url sample_content.
Proof.
  split; cbn.
  - intros v x t [= <-]. by intros [= <-].
  - intros x t [= <-]. by intros [= <-].
  - intros x [= <-]. discriminate.
  - by intros x [= <-].
Qed.


Lemma http_reads_deliver_the_bytes_asked_for_witness :
  let r := read_http no_url no_url no_hash (fun _ => ""%string) (fun _ _ => []) (fun _ _ => ""%string)
             sample_file 1 100 3 1 sample_runtime in
  r.1 = Normal 3 /\ wrote sample_runtime 100 [20; 30; 40] r.
Proof.
  intros r. split; [by vm_compute|].
  pose proof (http_reads_deliver_the_bytes_asked_for no_url no_url no_hash (fun _ => ""%string) (fun _ _ => [])
    (fun _ _ => ""%string) sample_server sample_file sample_url sample_content 1 100 3 1 sample_runtime
    sample_server_pure eq_refl eq_refl ltac:(discriminate) ltac:(lia) ltac:(lia)) as [Hr _].
  exact (Hr (or_intror (conj eq_refl eq_refl)) ltac:(vm_compute; discriminate)).
Defined.

Lemma opfs_files_are_prepared_once_witness :
  let r := prepareFileHandles "w" ["opfs://a/b.db"; "opfs://c"]%string BROWSER_FSACCESS sample_runtime in
  match r with
  | (Normal rs, s') =>
      rs = [{| prep_path := "opfs://a/b.db"; prep_handle := FH_sync 0; prep_fromCached := false |};
            {| prep_path := "opfs://c"; prep_handle := FH_sync 9; prep_fromCached := true |}]%string /\
      all_prepared sample_runtime ["opfs://a/b.db"; "opfs://c"]%string rs s'
  | (Thrown _, _) => False
  end.
Proof.
  intros r. pose proof (opfs_files_are_prepared_once "w" ["opfs://a/b.db"; "opfs://c"]%string sample_runtime
    ltac:(repeat constructor; rewrite ?list_elem_of_singleton; [discriminate|by apply not_elem_of_nil])) as Hp. fold r in Hp. destruct r as [[rs|e] s'] eqn:E.
  - split; [|exact Hp]. vm_compute in E. by injection E as <- _.
  - vm_compute in E. discriminate E.
Defined.
