(* ===== verification/ClientApi.v ===== *)
(** * ClientApi: the methods of AsyncDuckDB and AsyncDuckDBConnection
    ([async_bindings.ts], [async_connection.ts])

    A method is an [Async] program: it reads and updates the client between its
    awaits, and an [APost] is [await this.postTask(new WorkerTask(..), transfer)].
    [run] executes a program against a worker given by [serve], one request at a
    time; [Rpc] shows what a request's promise settles with when requests of many
    callers overlap.  Loops that poll take a bound on their iterations; running
    out of it is the result [None]. *)
From S2P Require Import Prelude Text Regex Data FileStats Protocol Client.
From stdpp Require Import base tactics list gmap strings pretty.
From Stdlib Require Import ZArith Lia.
Open Scope Z_scope.

Inductive Async (A : Type) : Type :=
| AReturn (a : A)
| AThrow (e : JsError)
| APost (r : RequestData) (transfer : list (list Z)) (k : Outcome ResponseData -> Async A)
| AState (f : Client -> Client) (k : Client -> Async A).
Arguments AReturn {A}. Arguments AThrow {A}. Arguments APost {A}. Arguments AState {A}.

Fixpoint abind {A B} (m : Async A) (k : A -> Async B) : Async B :=
  match m with
  | AReturn a => k a
  | AThrow e => AThrow e
  | APost r t k' => APost r t (fun o => abind (k' o) k)
  | AState f k' => AState f (fun s => abind (k' s) k)
  end.

(** Continue with the completion of [m], whichever it is. *)
Fixpoint acomplete {A B} (m : Async A) (k : Outcome A -> Async B) : Async B :=
  match m with
  | AReturn a => k (Normal a)
  | AThrow e => k (Thrown e)
  | APost r t k' => APost r t (fun o => acomplete (k' o) k)
  | AState f k' => AState f (fun s => acomplete (k' s) k)
  end.

Definition areturn {A} (o : Outcome A) : Async A :=
  match o with Normal a => AReturn a | Thrown e => AThrow e end.
Definition atry {A} (m : Async A) (h : JsError -> Async A) : Async A :=
  acomplete m (fun o => match o with Normal a => AReturn a | Thrown e => h e end).
(** [try { return await m } finally { f }] *)
Definition afinally {A} (m : Async A) (f : Async unit) : Async A :=
  acomplete m (fun o => abind f (fun _ => areturn o)).

Definition post (r : RequestData) (transfer : list (list Z)) : Async ResponseData :=
  APost r transfer areturn.
Definition aget {A} (f : Client -> A) : Async A := AState (fun s => s) (fun s => AReturn (f s)).
Definition amodify (f : Client -> Client) : Async unit := AState f (fun _ => AReturn tt).

Declare Scope async_scope.
Notation "'await!' x ':=' m 'in' k" := (abind m (fun x => k))
  (at level 10, x name, m at level 100, k at level 200) : async_scope.
Open Scope async_scope.

(** [await this.postTask(task)] of a method that returns nothing. *)
Definition post_void (r : RequestData) (transfer : list (list Z)) : Async unit :=
  await! _ := post r transfer in AReturn tt.

(** ** The methods *)

Definition reset : Async ResponseData := post Rq_RESET [].
Definition ping : Async unit := post_void Rq_PING [].
Definition dropFile (name : string) : Async ResponseData := post (Rq_DROP_FILE name) [].
Definition dropFiles (names : option (list string)) : Async ResponseData := post (Rq_DROP_FILES names) [].
Definition flushFiles : Async ResponseData := post Rq_FLUSH_FILES [].

Definition instantiate (mainModuleURL : string) (pthreadWorkerURL : option string)
    (progress : option CallbackId) : Async ResponseData :=
  await! _ := match progress with
              | Some p => amodify (fun s => set_callbacks (onInstantiationProgress s ++ [p])
                                              (onExecutionProgress s) s)
              | None => AReturn tt
              end in
  await! n := aget (fun s => length (onInstantiationProgress s)) in
  post (Rq_INSTANTIATE mainModuleURL pthreadWorkerURL (Some (0 <? n)%nat)) [].

Definition getVersion : Async ResponseData := post Rq_GET_VERSION [].
Definition getFeatureFlags : Async ResponseData := post Rq_GET_FEATURE_FLAGS [].

Definition open (config : DuckDBConfig) : Async unit :=
  await! _ := amodify (set_config config) in post_void (Rq_OPEN config) [].

Definition prefetchExtensions (names : list string) : Async unit :=
  post_void (Rq_PREFETCH_EXTENSIONS names) [].
Definition tokenize (text : string) : Async ResponseData := post (Rq_TOKENIZE text) [].
Definition connectInternal : Async ResponseData := post Rq_CONNECT [].
Definition disconnect (conn : Z) : Async unit := post_void (Rq_DISCONNECT conn) [].

(** *** Queries *)

Definition registerOPFSFileName (name : string) : Async unit :=
  post_void (Rq_REGISTER_OPFS_FILE_NAME name) [].

Definition shouldOPFSFileHandling (c : DuckDBConfig) : bool :=
  if isOPFSProtocol (chars (opt_or (path c) "")) then
    bool_decide ((opfs c ≫= fileHandling) = Some opfs_auto)
  else false.

(** The names of the files registered, in the order of the script. *)
Fixpoint register_files (files : list string) (result : list string) : Async (list string) :=
  match files with
  | [] => AReturn result
  | file :: files' =>
      await! _ := atry (registerOPFSFileName file)
                    (fun _ => AThrow (Error ("File Not found:" +:+ file))) in
      register_files files' (result ++ [file])
  end.

Definition script_files (text : string) : list string :=
  map String.string_of_list_ascii (searchOPFSFiles (chars text)).

Definition registerOPFSFileFromSQL (text : string) : Async (list string) :=
  register_files (script_files text) [].

(** The bracket around a query that may read OPFS files. *)
Definition with_opfs_files (text : string) (query : Async ResponseData) : Async ResponseData :=
  await! auto := aget (fun s => shouldOPFSFileHandling (_config s)) in
  if auto : bool then
    await! files := registerOPFSFileFromSQL text in
    afinally query
      (match files with [] => AReturn tt | _ => await! _ := dropFiles (Some files) in AReturn tt end)
  else query.

Definition _runQueryAsync (conn : Z) (text : string) : Async ResponseData := post (Rq_RUN_QUERY conn text) [].
Definition runQuery (conn : Z) (text : string) : Async ResponseData :=
  with_opfs_files text (_runQueryAsync conn text).

Definition _startPendingQueryAsync (conn : Z) (text : string) (allow : bool) : Async ResponseData :=
  post (Rq_START_PENDING_QUERY conn text allow) [].
Definition startPendingQuery (conn : Z) (text : string) (allow : bool) : Async ResponseData :=
  with_opfs_files text (_startPendingQueryAsync conn text allow).

Definition pollPendingQuery (conn : Z) : Async ResponseData := post (Rq_POLL_PENDING_QUERY conn) [].
Definition cancelPendingQuery (conn : Z) : Async ResponseData := post (Rq_CANCEL_PENDING_QUERY conn) [].
Definition getInterruptHandle (conn : Z) : Async ResponseData := post (Rq_GET_INTERRUPT_HANDLE conn) [].
Definition fetchQueryResults (conn : Z) : Async ResponseData := post (Rq_FETCH_QUERY_RESULTS conn) [].
Definition getTableNames (conn : Z) (text : string) : Async ResponseData :=
  post (Rq_GET_TABLE_NAMES conn text) [].
Definition createPrepared (conn : Z) (text : string) : Async ResponseData :=
  post (Rq_CREATE_PREPARED conn text) [].
Definition closePrepared (conn statement : Z) : Async unit := post_void (Rq_CLOSE_PREPARED conn statement) [].
Definition runPrepared (conn statement : Z) (params : list Json) : Async ResponseData :=
  post (Rq_RUN_PREPARED conn statement params) [].
Definition sendPrepared (conn statement : Z) (params : list Json) : Async ResponseData :=
  post (Rq_SEND_PREPARED conn statement params) [].

(** *** Files *)

Definition globFiles (path : string) : Async ResponseData := post (Rq_GLOB_FILE_INFOS path) [].
Definition registerFileBuffer (name : string) (buffer : list Z) : Async unit :=
  post_void (Rq_REGISTER_FILE_BUFFER name buffer) [buffer].
Definition registerFileText (name text : string) : Async unit :=
  registerFileBuffer name (utf8_encode text).
(** [url] is [None] when the caller leaves it undefined. *)
Definition registerFileURL (name : string) (url : option string) (proto : DuckDBDataProtocol)
    (directIO : bool) : Async unit :=
  post_void (Rq_REGISTER_FILE_URL name (opt_or url name) proto directIO) [].
Definition registerEmptyFileBuffer (_ : string) : Async unit := AReturn tt.
Definition registerFileHandle (name : string) (handle : FileHandle) (protocol : DuckDBDataProtocol)
    (directIO : bool) : Async unit :=
  post_void (Rq_REGISTER_FILE_HANDLE name handle protocol directIO) [].
Definition collectFileStatistics (name : string) (enable : bool) : Async unit :=
  post_void (Rq_COLLECT_FILE_STATISTICS name enable) [].
Definition exportFileStatistics (name : string) : Async ResponseData :=
  post (Rq_EXPORT_FILE_STATISTICS name) [].
Definition copyFileToBuffer (name : string) : Async ResponseData := post (Rq_COPY_FILE_TO_BUFFER name) [].
Definition copyFileToPath (name path : string) : Async unit := post_void (Rq_COPY_FILE_TO_PATH name path) [].

(** *** Inserts

    The options object is the caller's: flattening replaces its [columns] by
    [columnsFlat], which the caller sees too. *)

Definition insertArrowFromIPCStream (conn : Z) (buffer : list Z) (options : option ArrowInsertOptions)
    : Async unit :=
  match buffer with
  | [] => AReturn tt
  | _ => post_void (Rq_INSERT_ARROW_FROM_IPC_STREAM conn buffer options) [buffer]
  end.

Definition flatten_csv (o : CSVInsertOptions) : Outcome CSVInsertOptions :=
  match ci_columns o with
  | None => Normal o
  | Some cols =>
      outcome_map (fun flat =>
        {| ci_name := ci_name o; ci_schema := ci_schema o; ci_create := ci_create o;
           ci_header := ci_header o; ci_delimiter := ci_delimiter o; ci_quote := ci_quote o;
           ci_escape := ci_escape o; ci_skip := ci_skip o; ci_detect := ci_detect o;
           ci_dateFormat := ci_dateFormat o; ci_timestampFormat := ci_timestampFormat o;
           ci_columns := None; ci_columnsFlat := Some flat |}) (fieldsToSQL cols)
  end.

Definition flatten_json (o : JSONInsertOptions) : Outcome JSONInsertOptions :=
  match ji_columns o with
  | None => Normal o
  | Some cols =>
      outcome_map (fun flat =>
        {| ji_name := ji_name o; ji_schema := ji_schema o; ji_create := ji_create o;
           ji_shape := ji_shape o; ji_columns := None; ji_columnsFlat := Some flat |})
        (fieldsToSQL cols)
  end.

Definition insertCSVFromPath (conn : Z) (path : string) (options : CSVInsertOptions) : Async unit :=
  await! options' := areturn (flatten_csv options) in
  post_void (Rq_INSERT_CSV_FROM_PATH conn path options') [].

Definition insertJSONFromPath (conn : Z) (path : string) (options : JSONInsertOptions) : Async unit :=
  await! options' := areturn (flatten_json options) in
  post_void (Rq_INSERT_JSON_FROM_PATH conn path options') [].

(** ** Running a method

    The worker answers a request as a function of the requests it received
    before it; on a detached client [postTask] posts nothing and resolves with
    [undefined]. *)

Section Run.
Context (reply : list RequestData -> RequestData -> Outcome ResponseData).

Definition serve (r : RequestData) : JS (Client * list RequestData) ResponseData := fun s =>
  if isDetached s.1 then (Normal D_undefined, s)
  else (reply s.2 r, (s.1, s.2 ++ [r])).

Fixpoint run {A} (m : Async A) : JS (Client * list RequestData) A := fun s =>
  match m with
  | AReturn a => (Normal a, s)
  | AThrow e => (Thrown e, s)
  | AState f k => run (k s.1) (f s.1, s.2)
  | APost r _ k => let '(o, s') := serve r s in run (k o) s'
  end.

Lemma run_abind {A B} (m : Async A) (k : A -> Async B) s :
  run (abind m k) s = match run m s with
                      | (Normal a, s') => run (k a) s'
                      | (Thrown e, s') => (Thrown e, s')
                      end.
Proof.
  revert s. induction m as [a|e|r t k' IH|f k' IH]; intros s; cbn; [done|done| |apply IH].
  destruct (serve r s) as [o s']. apply IH.
Qed.

Lemma run_acomplete {A B} (m : Async A) (k : Outcome A -> Async B) s :
  run (acomplete m k) s = let '(o, s') := run m s in run (k o) s'.
Proof.
  revert s. induction m as [a|e|r t k' IH|f k' IH]; intros s; cbn; [done|done| |apply IH].
  destruct (serve r s) as [o s']. apply IH.
Qed.

Lemma run_areturn {A} (o : Outcome A) s : run (areturn o) s = (o, s).
Proof. by destruct o. Qed.

Lemma run_post r t s : run (post r t) s = serve r s.
Proof. cbn. destruct (serve r s) as [o s']. apply run_areturn. Qed.

Lemma run_afinally {A} (m : Async A) (f : Async unit) s :
  run (afinally m f) s = try_finally (run m) (run f) s.
Proof.
  unfold afinally, try_finally. rewrite run_acomplete. destruct (run m s) as [o s'].
  rewrite run_abind. destruct (run f s') as [[[]|e] s'']; [apply run_areturn|done].
Qed.

Lemma run_post_void r t s :
  run (post_void r t) s = (outcome_map (fun _ => tt) (serve r s).1, (serve r s).2).
Proof.
  unfold post_void. rewrite run_abind, run_post. destruct (serve r s) as [[d|e] s']; done.
Qed.

(** Registering the files of a script, one request each. *)
Lemma run_register_normal c log files acc :
  isDetached c = false ->
  (forall l f, f ∈ files -> is_normal (reply l (Rq_REGISTER_OPFS_FILE_NAME f)) = true) ->
  run (register_files files acc) (c, log) =
    (Normal (acc ++ files), (c, log ++ map Rq_REGISTER_OPFS_FILE_NAME files)).
Proof.
  intros Hc. revert log acc. induction files as [|f files IH]; intros log acc Hn; cbn [register_files].
  - by rewrite !app_nil_r.
  - unfold atry, registerOPFSFileName. rewrite run_abind, run_acomplete, run_post_void.
    unfold serve. cbn [fst snd]. rewrite Hc. specialize (Hn log f ltac:(by left)) as Hf.
    destruct (reply log _) as [d|e]; [|done]. cbn -[register_files].
    rewrite IH by (intros; apply Hn; by right). by rewrite <- !app_assoc.
Qed.

Lemma run_register_error c log l1 f l2 acc e :
  isDetached c = false ->
  (forall l g, g ∈ l1 -> is_normal (reply l (Rq_REGISTER_OPFS_FILE_NAME g)) = true) ->
  reply (log ++ map Rq_REGISTER_OPFS_FILE_NAME l1) (Rq_REGISTER_OPFS_FILE_NAME f) = Thrown e ->
  run (register_files (l1 ++ f :: l2) acc) (c, log) =
    (Thrown (Error ("File Not found:" +:+ f)), (c, log ++ map Rq_REGISTER_OPFS_FILE_NAME (l1 ++ [f]))).
Proof.
  intros Hc. revert log acc. induction l1 as [|g l1 IH]; intros log acc Hn He; cbn [register_files app];
    unfold atry, registerOPFSFileName; rewrite run_abind, run_acomplete, run_post_void;
    unfold serve; cbn [fst snd]; rewrite Hc.
  - cbn in He. rewrite app_nil_r in He. by rewrite He.
  - specialize (Hn log g ltac:(by left)) as Hg. destruct (reply log _) as [d|e']; [|done].
    cbn -[register_files].
    rewrite IH; [by rewrite <- !app_assoc|intros; apply Hn; by right|].
    by rewrite <- app_assoc.
Qed.
End Run.

(** The request that ends the bracket around a query. *)
Definition drop_request (files : list string) : list RequestData :=
  match files with [] => [] | _ => [Rq_DROP_FILES (Some files)] end.

(** A query on an OPFS database registers the files its text names, in order,
    before it is posted, and drops exactly these files after it, whether the query
    succeeds or fails; its result or error is the caller's unless dropping fails.
    When a file cannot be registered the query is not posted and the caller gets
    an error naming the file; the files registered before it are not dropped. *)
Theorem opfs_files_bracket_the_query reply r text c log :
  isDetached c = false -> shouldOPFSFileHandling (_config c) = true ->
  let files := script_files text in
  let registered := map Rq_REGISTER_OPFS_FILE_NAME files in
  let res := run reply (with_opfs_files text (post r [])) (c, log) in
  ((forall l f, f ∈ files -> is_normal (reply l (Rq_REGISTER_OPFS_FILE_NAME f)) = true) ->
   res.2 = (c, log ++ registered ++ [r] ++ drop_request files) /\
   (files = [] \/ is_normal (reply (log ++ registered ++ [r]) (Rq_DROP_FILES (Some files))) = true ->
    res.1 = reply (log ++ registered) r)) /\
  (forall l1 f l2 e, files = l1 ++ f :: l2 ->
   (forall l g, g ∈ l1 -> is_normal (reply l (Rq_REGISTER_OPFS_FILE_NAME g)) = true) ->
   reply (log ++ map Rq_REGISTER_OPFS_FILE_NAME l1) (Rq_REGISTER_OPFS_FILE_NAME f) = Thrown e ->
   res = (Thrown (Error ("File Not found:" +:+ f)),
          (c, log ++ map Rq_REGISTER_OPFS_FILE_NAME (l1 ++ [f])))).
Proof.
  intros Hc Hs. cbv zeta.
  assert (run reply (with_opfs_files text (post r [])) (c, log) =
    match run reply (registerOPFSFileFromSQL text) (c, log) with
    | (Normal files, s') => run reply (afinally (post r [])
        (match files with [] => AReturn tt | _ => await! _ := dropFiles (Some files) in AReturn tt end)) s'
    | (Thrown e, s') => (Thrown e, s')
    end) as ->.
  { unfold with_opfs_files. rewrite run_abind. cbn [run aget]. cbn [fst]. rewrite Hs. by rewrite run_abind. }
  split.
  - intros Hn. unfold registerOPFSFileFromSQL. rewrite run_register_normal by done. cbn [app].
    rewrite run_afinally. unfold try_finally. rewrite run_post. unfold serve. cbn [fst snd]. rewrite Hc.
    destruct (script_files text) as [|f files] eqn:Ef; cbn [run drop_request map].
    + rewrite !app_nil_r. by split.
    + unfold dropFiles. rewrite run_abind, run_post. unfold serve. cbn [fst snd]. rewrite Hc.
      rewrite <- !app_assoc. cbn [app].
      destruct (reply _ (Rq_DROP_FILES _)) as [d|e] eqn:Ed; cbn [run fst snd]; rewrite <- ?app_assoc; cbn [app].
      * by split.
      * split; [done|]. by intros [?|?].
  - intros l1 f l2 e Hf Hn He. unfold registerOPFSFileFromSQL. rewrite Hf. by rewrite (run_register_error _ _ _ l1 f l2 [] e).
Qed.

Definition opfs_client : Client :=
  set_config {| path := Some "opfs://db"%string; accessMode := None; maximumThreads := None;
     useDirectIO := None; query_config := None; filesystem := None; allowUnsignedExtensions := None;
     arrowLosslessConversion := None; customUserAgent := None;
     opfs := Some {| fileHandling := Some opfs_auto |}; singleThreadedExtensionLoad := None |}
    (attach 1 new_client).2.

(** A worker on which every query fails. *)
Definition failing_reply (_ : list RequestData) (r : RequestData) : Outcome ResponseData :=
  match r with Rq_RUN_QUERY _ _ => Thrown (Error "boom") | _ => Normal D_null end.

Lemma opfs_files_bracket_the_query_witness :
  let text := "SELECT * FROM 'opfs://a.csv'"%string in
  let res := run failing_reply (runQuery 1 text) (opfs_client, []) in
  res.2 = (opfs_client, [] ++ [Rq_REGISTER_OPFS_FILE_NAME "opfs://a.csv"] ++ [Rq_RUN_QUERY 1 text] ++
             [Rq_DROP_FILES (Some ["opfs://a.csv"%string])]) /\
  res.1 = Thrown (Error "boom").
Proof.
  intros text res.
  destruct (proj1 (opfs_files_bracket_the_query failing_reply (Rq_RUN_QUERY 1 text) text opfs_client []
    eq_refl ltac:(vm_compute; reflexivity))) as [H1 H2]; [done|].
  split; [exact H1|]. apply H2. right. reflexivity.
Defined.

(** The column types given to [insertCSVFromPath]
    reach the worker as the flat list of their SQL types, by name and in order,
    and the caller's options are left in that form, so that inserting with the
    same options again posts the same request; a type without translation is
    reported before anything is posted. *)
Theorem insert_options_are_flattened reply conn p (csv : CSVInsertOptions) cols c log :
  isDetached c = false -> ci_columns csv = Some cols ->
  match fieldsToSQL cols with
  | Normal flat =>
      exists csv', flatten_csv csv = Normal csv' /\ flatten_csv csv' = Normal csv' /\
        ci_columns csv' = None /\ ci_columnsFlat csv' = Some flat /\ flat.*1 = cols.*1 /\
        (run reply (insertCSVFromPath conn p csv) (c, log)).2 =
          (c, log ++ [Rq_INSERT_CSV_FROM_PATH conn p csv']) /\
        (run reply (insertCSVFromPath conn p csv') (c, log)).2 =
          (c, log ++ [Rq_INSERT_CSV_FROM_PATH conn p csv'])
  | Thrown e => run reply (insertCSVFromPath conn p csv) (c, log) = (Thrown e, (c, log))
  end.
Proof.
  intros Hc Hcols. unfold insertCSVFromPath.
  destruct (fieldsToSQL cols) as [flat|e] eqn:Ef.
  - eexists. unfold flatten_csv at 1. rewrite Hcols, Ef. cbn [outcome_map].
    split; [reflexivity|]. split; [done|]. split; [done|]. split; [done|].
    split; [by apply fieldsToSQL_names|].
    unfold flatten_csv. rewrite Hcols, Ef. cbn [outcome_map ci_columns].
    rewrite !run_abind, !run_areturn, !run_post_void. unfold serve. cbn [fst snd]. by rewrite Hc.
  - unfold flatten_csv. rewrite Hcols, Ef. by rewrite run_abind, run_areturn.
Qed.

Definition csv_options : CSVInsertOptions :=
  {| ci_name := "t"; ci_schema := None; ci_create := None; ci_header := None; ci_delimiter := None;
     ci_quote := None; ci_escape := None; ci_skip := None; ci_detect := None; ci_dateFormat := None;
     ci_timestampFormat := None; ci_columns := Some [("a"%string, DT_simple T_Int32)];
     ci_columnsFlat := None |}.

Lemma insert_options_are_flattened_witness :
  exists csv', flatten_csv csv_options = Normal csv' /\ flatten_csv csv' = Normal csv' /\
    ci_columns csv' = None /\ ci_columnsFlat csv' = Some [("a"%string, sql_plain "int32")] /\
    [("a"%string, sql_plain "int32")].*1 = [("a"%string, DT_simple T_Int32)].*1 /\
    (run failing_reply (insertCSVFromPath 1 "t.csv" csv_options) (opfs_client, [])).2 =
      (opfs_client, [] ++ [Rq_INSERT_CSV_FROM_PATH 1 "t.csv" csv']) /\
    (run failing_reply (insertCSVFromPath 1 "t.csv" csv') (opfs_client, [])).2 =
      (opfs_client, [] ++ [Rq_INSERT_CSV_FROM_PATH 1 "t.csv" csv']).
Proof.
  exact (insert_options_are_flattened failing_reply 1 "t.csv" csv_options
    [("a"%string, DT_simple T_Int32)] opfs_client [] eq_refl eq_refl).
Defined.
