(* ===== verification/Streams.v ===== *)
(** * Streams: query results in chunks ([connection.ts], [async_connection.ts])

    [W] is the engine's side of a connection: the bindings for the synchronous
    connection, the worker for the asynchronous one.  Requests are served in the
    order they are posted, so a request in flight is kept as the completion it
    will have.  The loops wait for the engine; they take a bound on the number of
    iterations, and running out of it is the result [None] (an engine that never
    answers makes the source's loops run forever). *)
From S2P Require Import Prelude Text Data FileStats Protocol BindingsInterface.
From stdpp Require Import base tactics list strings.
From Stdlib Require Import ZArith Lia.
Open Scope Z_scope.

(** [IteratorResult<Uint8Array>]; the value is [null] after the end. *)
Record IterResult := { done : bool; iter_value : option bytes }.

(** *** ResultStreamIterator *)
Module Sync.
Record ResultStreamIterator := { header : bytes; _first : bool; _depleted : bool }.
Definition new_iterator (header : bytes) : ResultStreamIterator := {| header := header; _first := true; _depleted := false |}.
End Sync.

(** *** AsyncResultStreamIterator *)
Module Async.
Record AsyncResultStreamIterator := {
  header : bytes; _first : bool; _depleted : bool;
  _inFlight : option (Outcome (option bytes))
}.
Definition new_async_iterator (header : bytes) : AsyncResultStreamIterator :=
  {| header := header; _first := true; _depleted := false; _inFlight := None |}.
End Async.

Section Iterators.
Context {W : Type} (fetchQueryResults : JS W (option bytes)).

(** [do { buffer = fetch() } while (buffer == null)] *)
Fixpoint fetch_loop (fuel : nat) : JS W (option bytes) :=
  match fuel with
  | O => ret None
  | S n => let! r := fetchQueryResults in
           match r with Some b => ret (Some b) | None => fetch_loop n end
  end.

Definition lift_w {I A} (m : JS W A) : JS (W * I) A := zoom fst (fun w s => (w, s.2)) m.
Definition set_iter {I} (i : I) : JS (W * I) unit := modify (fun s => (s.1, i)).

Definition sync_next (fuel : nat) : JS (W * Sync.ResultStreamIterator) (option IterResult) :=
  let! it := gets snd in
  if Sync._first it then
    set_iter (Sync.Build_ResultStreamIterator (Sync.header it) false (Sync._depleted it)) ;;;
    ret (Some {| done := false; iter_value := Some (Sync.header it) |})
  else if Sync._depleted it then ret (Some {| done := true; iter_value := None |})
  else
    let! b := lift_w (fetch_loop fuel) in
    match b with
    | None => ret None
    | Some buffer =>
        let depleted := bool_decide (buffer = []) in
        set_iter (Sync.Build_ResultStreamIterator (Sync.header it) (Sync._first it) depleted) ;;;
        ret (Some {| done := depleted; iter_value := Some buffer |})
    end.

(** [await this._inFlight], whose rejection is thrown here. *)
Definition await_flight (o : Outcome (option bytes)) : JS (W * Async.AsyncResultStreamIterator) (option bytes) :=
  match o with Normal b => ret b | Thrown e => throw e end.

(** Post a request without waiting for it. *)
Definition start_fetch : JS (W * Async.AsyncResultStreamIterator) (Outcome (option bytes)) :=
  fun s => let '(o, w) := fetchQueryResults s.1 in (Normal o, (w, s.2)).

(** The end of [next]: the next request is posted before the chunk is returned. *)
Definition async_finish (h buffer : bytes) : JS (W * Async.AsyncResultStreamIterator) (option IterResult) :=
  let depleted := bool_decide (buffer = []) in
  let! flight := if depleted then ret None
                 else let! o := start_fetch in ret (Some o) in
  set_iter (Async.Build_AsyncResultStreamIterator h false depleted flight) ;;;
  ret (Some {| done := depleted; iter_value := Some buffer |}).

Definition async_next (fuel : nat) : JS (W * Async.AsyncResultStreamIterator) (option IterResult) :=
  let! it := gets snd in
  if Async._first it then
    set_iter (Async.Build_AsyncResultStreamIterator (Async.header it) false (Async._depleted it) (Async._inFlight it)) ;;;
    ret (Some {| done := false; iter_value := Some (Async.header it) |})
  else if Async._depleted it then ret (Some {| done := true; iter_value := None |})
  else
    let! buffer0 :=
      match Async._inFlight it with
      | Some o =>
          let! b := await_flight o in
          set_iter (Async.Build_AsyncResultStreamIterator (Async.header it) false false None) ;;; ret b
      | None => ret None
      end in
    let! b := match buffer0 with
              | Some b => ret (Some b)
              | None => lift_w (fetch_loop fuel)
              end in
    match b with
    | None => ret None
    | Some buffer =>
        async_finish (Async.header it) buffer
    end.

(** A consumer: it takes chunks until [done]; [None] when it runs out of fuel. *)
Fixpoint collect {I} (next : JS (W * I) (option IterResult)) (n : nat) : JS (W * I) (option (list bytes)) :=
  match n with
  | O => ret None
  | S n' =>
      let! r := next in
      match r with
      | None => ret None
      | Some r =>
          if done r then ret (Some [])
          else let! l := collect next n' in
               ret (option_map (fun l => default [] (iter_value r) :: l) l)
      end
  end.
End Iterators.

(** ** The synchronous connection ([DuckDBConnection], [PreparedStatement])

    apache-arrow's readers and writers are parameters. *)

Section Connection.
Context {B : Type} `{DuckDBBindings B}.
Context {Table Reader : Type}.
Context (table_from : bytes -> Outcome Table) (reader_from : Sync.ResultStreamIterator -> Outcome Reader)
  (tableToIPC : Table -> bytes).

Definition lift_o {S A} (o : Outcome A) : JS S A :=
  match o with Normal a => ret a | Thrown e => throw e end.

Record DuckDBConnection := { _conn : Z }.

Definition conn_close (c : DuckDBConnection) : JS B unit := b_disconnect (_conn c).
Definition useUnsafe {R} (callback : Z -> R) (c : DuckDBConnection) : R := callback (_conn c).
Definition conn_query (c : DuckDBConnection) (text : string) : JS B Table :=
  let! buffer := b_runQuery (_conn c) text in lift_o (table_from buffer).

Definition includes (pat s : string) : bool := bool_decide (String.index 0 pat s <> None).

Definition poll_error (e : JsError) : JsError :=
  if includes "worker is not set!" (err_message e) then Error "Worker has been terminated" else e.

(** [while (header == null) header = await poll] *)
Fixpoint poll_loop (c : DuckDBConnection) (fuel : nat) (header : option bytes) : JS B (option bytes) :=
  match header with
  | Some h => ret (Some h)
  | None =>
      match fuel with
      | O => ret None
      | S n =>
          let! h := try_catch (b_pollPendingQuery (_conn c)) (fun e => throw (poll_error e)) in
          poll_loop c n h
      end
  end.

Definition conn_send (c : DuckDBConnection) (fuel : nat) (text : string) (allowStreamResult : bool)
    : JS B (option Reader) :=
  let! header := b_startPendingQuery (_conn c) text allowStreamResult in
  let! h := poll_loop c fuel header in
  match h with
  | None => ret None
  | Some h => let! r := lift_o (reader_from (Sync.new_iterator h)) in ret (Some r)
  end.

Definition cancelSent (c : DuckDBConnection) : JS B bool := b_cancelPendingQuery (_conn c).
Definition conn_getTableNames (c : DuckDBConnection) (query : string) : JS B (list string) :=
  b_getTableNames (_conn c) query.

Record PreparedStatement := { connectionId : Z; statementId : Z }.

Definition prepare (c : DuckDBConnection) (text : string) : JS B PreparedStatement :=
  let! stmt := b_createPrepared (_conn c) text in
  ret {| connectionId := _conn c; statementId := stmt |}.

Definition conn_insertArrowFromIPCStream (c : DuckDBConnection) (buffer : bytes)
    (options : option ArrowInsertOptions) : JS B unit :=
  b_insertArrowFromIPCStream (_conn c) buffer options.
Definition insertArrowTable (c : DuckDBConnection) (table : Table) (options : option ArrowInsertOptions)
    : JS B unit :=
  conn_insertArrowFromIPCStream c (tableToIPC table) options.
Definition conn_insertCSVFromPath (c : DuckDBConnection) (path : string) (options : CSVInsertOptions)
    : JS B unit := b_insertCSVFromPath (_conn c) path options.
Definition conn_insertJSONFromPath (c : DuckDBConnection) (path : string) (options : JSONInsertOptions)
    : JS B unit := b_insertJSONFromPath (_conn c) path options.

Definition stmt_close (s : PreparedStatement) : JS B unit := b_closePrepared (connectionId s) (statementId s).
Definition stmt_query (s : PreparedStatement) (params : list Json) : JS B Table :=
  let! buffer := b_runPrepared (connectionId s) (statementId s) params in lift_o (table_from buffer).
Definition stmt_send (s : PreparedStatement) (params : list Json) : JS B Reader :=
  let! header := b_sendPrepared (connectionId s) (statementId s) params in
  lift_o (reader_from (Sync.new_iterator header)).
End Connection.

(** ** Draining a stream *)

(** The engine's side as the list of its next replies. *)
Definition Replies : Type := list (Outcome (option bytes)).
Definition fetch_reply : JS Replies (option bytes) := fun l =>
  match l with [] => (Normal None, []) | o :: l' => (o, l') end.

(** Chunks, each after some [null] replies, then the empty buffer that ends the
    result, and whatever the engine would say later. *)
Definition chunk_replies (q : nat * bytes) : Replies :=
  replicate q.1 (Normal None) ++ [Normal (Some q.2)].
Definition stream (qs : list (nat * bytes)) (n : nat) (later : Replies) : Replies :=
  concat (map chunk_replies qs) ++ chunk_replies (n, []) ++ later.

Lemma fetch_loop_replies fuel k b l :
  (k < fuel)%nat -> fetch_loop fetch_reply fuel (replicate k (Normal None) ++ Normal (Some b) :: l) = (Normal (Some b), l).
Proof.
  revert k. induction fuel as [|fuel IH]; intros k Hk; [lia|].
  destruct k as [|k]; cbn; [done|]. unfold bind. cbn. apply IH. lia.
Qed.

Lemma stream_cons q qs n later :
  stream (q :: qs) n later = replicate q.1 (Normal None) ++ Normal (Some q.2) :: stream qs n later.
Proof. unfold stream, chunk_replies. cbn. by rewrite <- !app_assoc. Qed.

Lemma stream_nil n later :
  stream [] n later = replicate n (Normal None) ++ Normal (Some []) :: later.
Proof. unfold stream, chunk_replies. cbn. by rewrite <- app_assoc. Qed.

Lemma stream_not_nil qs n later : exists o l, stream qs n later = o :: l.
Proof.
  destruct qs as [|[[|k] b] qs]; [rewrite stream_nil; destruct n; cbn; eauto|rewrite stream_cons; cbn; eauto..].
Qed.

(** What the consumer has not read yet: the reply in flight, then the engine's. *)
Definition unread (s : Replies * Async.AsyncResultStreamIterator) : Replies :=
  match Async._inFlight s.2 with Some o => o :: s.1 | None => s.1 end.

Definition sync_ready (s : Replies * Sync.ResultStreamIterator) : bool :=
  negb (Sync._first s.2) && negb (Sync._depleted s.2).
Definition async_ready (s : Replies * Async.AsyncResultStreamIterator) : bool :=
  negb (Async._first s.2) && negb (Async._depleted s.2).

Lemma sync_next_reply fuel k b l (s : Replies * Sync.ResultStreamIterator) :
  sync_ready s = true -> (k < fuel)%nat ->
  s.1 = replicate k (Normal None) ++ Normal (Some b) :: l ->
  exists s', sync_next fetch_reply fuel s =
      (Normal (Some {| done := bool_decide (b = []); iter_value := Some b |}), s') /\
    s'.1 = l /\ (b <> [] -> sync_ready s' = true) /\ (b = [] -> True).
Proof.
  unfold sync_ready. destruct s as [w [h [] []]]; cbn; try done. intros _ Hk ->.
  unfold sync_next, bind, gets, lift_w, zoom. cbn. rewrite fetch_loop_replies by done. cbn.
  eexists. split; [reflexivity|]. split; [done|]. split; [|done]. intros Hb. cbn. by rewrite bool_decide_eq_false_2.
Qed.

Lemma async_finish_reply h b l it :
  (b = [] \/ l <> []) ->
  exists s', async_finish fetch_reply h b (l, it) =
      (Normal (Some {| done := bool_decide (b = []); iter_value := Some b |}), s') /\
    unread s' = l /\ (b <> [] -> async_ready s' = true) /\ (b = [] -> Async._inFlight s'.2 = None).
Proof.
  intros Hl. unfold async_finish, bind, ret, start_fetch, set_iter, modify, unread. cbn.
  case_bool_decide as Hb; cbn.
  - eexists. split; [reflexivity|]. by split.
  - destruct Hl as [Hl|Hl]; [done|]. destruct l as [|o l]; [done|]. cbn.
    eexists. split; [reflexivity|]. by split.
Qed.

Lemma async_next_reply fuel k b l (s : Replies * Async.AsyncResultStreamIterator) :
  async_ready s = true -> (k < fuel)%nat ->
  unread s = replicate k (Normal None) ++ Normal (Some b) :: l -> (b = [] \/ l <> []) ->
  exists s', async_next fetch_reply fuel s =
      (Normal (Some {| done := bool_decide (b = []); iter_value := Some b |}), s') /\
    unread s' = l /\ (b <> [] -> async_ready s' = true) /\ (b = [] -> Async._inFlight s'.2 = None).
Proof.
  destruct s as [w [h f d fl]]. unfold async_ready at 1, unread at 1. cbn [fst snd Async._first Async._depleted Async._inFlight].
  intros Hr Hk Hu Hl. destruct f, d; try discriminate Hr.
  unfold async_next, bind, gets. cbn [snd Async._first Async._depleted Async._inFlight Async.header].
  destruct fl as [o|].
  - destruct k as [|k]; cbn in Hu; injection Hu as -> ->; cbn -[async_finish fetch_loop].
    + by apply async_finish_reply.
    + unfold lift_w, zoom. cbn -[async_finish fetch_loop]. rewrite fetch_loop_replies by lia.
      by apply async_finish_reply.
  - subst w. unfold lift_w, zoom. cbn -[async_finish fetch_loop]. rewrite fetch_loop_replies by done.
    by apply async_finish_reply.
Qed.

(** Any iterator that reads one buffer after the other drains a stream. *)
Section Drain.
Context {I : Type} (next : JS (Replies * I) (option IterResult)).
Context (ready : Replies * I -> bool) (left : Replies * I -> Replies)
  (ended : Replies * I -> Prop) (fuel : nat).
Context (next_reply : forall k b l s,
  ready s = true -> (k < fuel)%nat ->
  left s = replicate k (Normal None) ++ Normal (Some b) :: l -> (b = [] \/ l <> []) ->
  exists s', next s = (Normal (Some {| done := bool_decide (b = []); iter_value := Some b |}), s') /\
    left s' = l /\ (b <> [] -> ready s' = true) /\ (b = [] -> ended s')).

Lemma collect_stream qs n later s m :
  Forall (fun q => (q.1 < fuel)%nat /\ q.2 <> []) qs -> (n < fuel)%nat -> (length qs < m)%nat ->
  ready s = true -> left s = stream qs n later ->
  exists s', collect next m s = (Normal (Some (map snd qs)), s') /\ left s' = later /\ ended s'.
Proof.
  intros Hqs Hn. revert s m. induction Hqs as [|[k b] qs [Hk Hb] _ IH]; intros s m Hm Hr Hl;
    (destruct m as [|m]; [cbn in Hm; lia|]); cbn [collect].
  - rewrite stream_nil in Hl. destruct (next_reply n [] later s Hr Hn Hl) as (s' & E & Hl' & _ & He); [by left|].
    exists s'. unfold bind at 1. rewrite E. rewrite bool_decide_eq_true_2 by done. split; [done|]. auto.
  - rewrite stream_cons in Hl. cbn in Hk, Hb, Hl.
    destruct (next_reply k b (stream qs n later) s Hr Hk Hl) as (s' & E & Hl' & Hr' & _).
    { right. destruct (stream_not_nil qs n later) as (o & l & ->). done. }
    cbn in Hm. destruct (IH s' m ltac:(lia) (Hr' Hb) Hl') as (s'' & E' & Hl'').
    exists s''. split; [|done]. unfold bind at 1. rewrite E. rewrite bool_decide_eq_false_2 by done.
    cbn [done iter_value]. unfold bind at 1. by rewrite E'.
Qed.

Lemma collect_first h s s1 l s' m :
  next s = (Normal (Some {| done := false; iter_value := Some h |}), s1) ->
  collect next m s1 = (Normal (Some l), s') -> collect next (S m) s = (Normal (Some (h :: l)), s').
Proof. intros E1 E2. cbn [collect]. unfold bind at 1. rewrite E1. cbn. unfold bind. by rewrite E2. Qed.
End Drain.

(** C37: Both result iterators hand a consumer exactly the result: the header and
    then the engine's non-empty chunks in order, however many empty polls lie
    between them, and they end at the empty buffer.  The asynchronous iterator,
    which always has one request in flight, posts none beyond the end, so both
    leave the engine's later replies unread. *)
Theorem iterators_drain_the_stream header qs n later fuel :
  Forall (fun q => (q.1 < fuel)%nat /\ q.2 <> []) qs -> (n < fuel)%nat ->
  let chunks := Some (header :: map snd qs) in
  let s := (stream qs n later, Sync.new_iterator header) in
  let a := (stream qs n later, Async.new_async_iterator header) in
  (exists s', collect (sync_next fetch_reply fuel) (2 + length qs) s = (Normal chunks, s') /\
     s'.1 = later) /\
  (exists a', collect (async_next fetch_reply fuel) (2 + length qs) a = (Normal chunks, a') /\
     a'.1 = later /\ Async._inFlight a'.2 = None).
Proof.
  intros Hqs Hn. cbv zeta. split.
  - destruct (collect_stream (sync_next fetch_reply fuel) sync_ready fst (fun _ => True) fuel
      (fun k b l s Hr Hk Hl _ => sync_next_reply fuel k b l s Hr Hk Hl) qs n later
      (stream qs n later, Sync.Build_ResultStreamIterator header false false) (S (length qs)) Hqs Hn ltac:(lia) eq_refl eq_refl)
      as (s' & E & Hl & _).
    exists s'. split; [|done].
    by eapply (collect_first (sync_next fetch_reply fuel) header); [|exact E].
  - destruct (collect_stream (async_next fetch_reply fuel) async_ready unread
      (fun s => Async._inFlight s.2 = None) fuel (async_next_reply fuel) qs n later
      (stream qs n later, Async.Build_AsyncResultStreamIterator header false false None) (S (length qs)) Hqs Hn ltac:(lia) eq_refl eq_refl)
      as (a' & E & Hl & He).
    exists a'. split; [by eapply (collect_first (async_next fetch_reply fuel) header); [|exact E]|]. split; [|done].
    unfold unread in Hl. by rewrite He in Hl.
Qed.

Lemma iterators_drain_the_stream_witness :
  let replies := stream [(2%nat, [1]); (0%nat, [2; 3])] 1 [Normal (Some [9])] in
  exists a', collect (async_next fetch_reply 3) 4 (replies, Async.new_async_iterator [7]) = (Normal (Some [[7]; [1]; [2; 3]]), a') /\
    a'.1 = [Normal (Some [9])] /\ Async._inFlight a'.2 = None.
Proof.
  refine (proj2 (iterators_drain_the_stream [7] [(2%nat, [1]); (0%nat, [2; 3])] 1 [Normal (Some [9])] 3 _ _));
    [repeat constructor; discriminate|lia].
Defined.

(** [polls k b b']: [k] polls of the connection that find the query running. *)
Inductive polls {B} `{DuckDBBindings B} (conn : Z) : nat -> B -> B -> Prop :=
| polls_none b : polls conn 0 b b
| polls_more k b b1 b' :
    b_pollPendingQuery conn b = (Normal None, b1) -> polls conn k b1 b' -> polls conn (S k) b b'.

Lemma poll_loop_polls {B} `{DuckDBBindings B} conn k fuel b b' o b'' :
  polls conn k b b' -> b_pollPendingQuery conn b' = (o, b'') -> o <> Normal None -> (k < fuel)%nat ->
  poll_loop {| _conn := conn |} fuel None b =
    (match o with Normal h => Normal h | Thrown e => Thrown (poll_error e) end, b'').
Proof.
  intros Hp Ho Hn. revert fuel. induction Hp as [b|k b b1 b' Hb _ IH]; intros fuel Hf;
    (destruct fuel as [|fuel]; [lia|]); cbn [poll_loop _conn]; unfold bind, try_catch.
  - rewrite Ho. destruct o as [[h|]|e]; [|done|done]. by destruct fuel.
  - rewrite Hb. apply IH; [done|lia].
Qed.

(** [send] polls a query exactly until the engine answers with a header, an
    error or neither any more: after [k] polls that find it running the reader is
    made over the header, or the engine's error is thrown, except that the error
    of a missing worker is replaced; the engine is not polled again. *)
Theorem send_polls_until_the_header {B} `{DuckDBBindings B} {Reader}
    (reader_from : Sync.ResultStreamIterator -> Outcome Reader) conn text allow fuel k b b0 b1 o b2 :
  b_startPendingQuery conn text allow b = (Normal None, b0) ->
  polls conn k b0 b1 -> b_pollPendingQuery conn b1 = (o, b2) -> o <> Normal None -> (k < fuel)%nat ->
  conn_send reader_from {| _conn := conn |} fuel text allow b =
    (match o with
     | Normal (Some h) => outcome_map Some (reader_from (Sync.new_iterator h))
     | Normal None => Normal None
     | Thrown e => Thrown (poll_error e)
     end, b2).
Proof.
  intros Hs Hp Ho Hn Hf. unfold conn_send, bind at 1. cbn [_conn]. rewrite Hs.
  unfold bind at 1. rewrite (poll_loop_polls conn k fuel b0 b1 o b2 Hp Ho Hn Hf).
  destruct o as [[h|]|e]; [|done|done]. cbn. unfold lift_o, bind. by destruct (reader_from _).
Qed.

Lemma send_polls_until_the_header_witness :
  let b := {| Recording.calls := []; Recording.busy := 2; Recording.cancellable := true |} in
  (conn_send (H := Recording.bindings) (fun i => Normal (Sync.header i)) {| _conn := 1 |} 5 "SELECT 1" false b).1 =
    Normal (Some [1; 2; 3]).
Proof.
  intros b.
  refine (f_equal fst (send_polls_until_the_header (H := Recording.bindings)
    (fun i => Normal (Sync.header i)) 1 "SELECT 1" false 5 1 b
    {| Recording.calls := ["poll"]; Recording.busy := 1; Recording.cancellable := true |}
    {| Recording.calls := ["poll"; "poll"]; Recording.busy := 0; Recording.cancellable := true |}
    (Normal (Some [1; 2; 3]))
    {| Recording.calls := ["poll"; "poll"; "poll"]; Recording.busy := 0; Recording.cancellable := true |}
    _ _ _ _ _)); [reflexivity| |reflexivity|discriminate|lia].
  eapply polls_more; [reflexivity|apply polls_none].
Defined.

(** A failed request in flight is reported on every later [next] of the
    asynchronous iterator, which keeps it and never asks the engine again; the
    synchronous iterator asks again and recovers if the engine does. *)
Theorem failed_fetch_is_sticky {W} (fetch : JS W (option bytes)) fuel w (h : bytes) e :
  (let it := Async.Build_AsyncResultStreamIterator h false false (Some (Thrown e)) in
   async_next fetch fuel (w, it) = (Thrown e, (w, it))) /\
  (forall w1 w2 b, fetch w = (Thrown e, w1) -> fetch w1 = (Normal (Some b), w2) -> (0 < fuel)%nat ->
     let it := Sync.Build_ResultStreamIterator h false false in
     sync_next fetch fuel (w, it) = (Thrown e, (w1, it)) /\
     (sync_next fetch fuel (sync_next fetch fuel (w, it)).2).1 =
       Normal (Some {| done := bool_decide (b = []); iter_value := Some b |})).
Proof.
  split; [done|]. intros w1 w2 b H1 H2 Hf. cbv zeta.
  assert (sync_next fetch fuel (w, Sync.Build_ResultStreamIterator h false false) =
          (Thrown e, (w1, Sync.Build_ResultStreamIterator h false false))) as E.
  { destruct fuel as [|fuel]; [lia|]. unfold sync_next, bind, gets, lift_w, zoom. cbn. unfold bind. by rewrite H1. }
  split; [done|]. rewrite E. destruct fuel as [|fuel]; [lia|].
  unfold sync_next, bind, gets, lift_w, zoom. cbn. unfold bind. by rewrite H2.
Qed.

Lemma failed_fetch_is_sticky_witness :
  (sync_next fetch_reply 1 (sync_next fetch_reply 1
     ([Thrown (Error "io"); Normal (Some [4])], Sync.Build_ResultStreamIterator [7] false false)).2).1 =
    Normal (Some {| done := false; iter_value := Some [4] |}).
Proof.
  exact (proj2 (proj2 (failed_fetch_is_sticky fetch_reply 1
    [Thrown (Error "io"); Normal (Some [4])] [7] (Error "io"))
    [Normal (Some [4])] [] [4] eq_refl eq_refl (le_n 1))).
Defined.
