(* ===== verification/AsyncConnection.v ===== *)
(** * AsyncConnection: AsyncDuckDBConnection and AsyncPreparedStatement
    ([async_connection.ts])

    The methods are [Async] programs over the client of [ClientApi].
    apache-arrow's readers and writers are parameters; a reader is made over an
    [AsyncResultStreamIterator] ([Streams.Async]).  The loop of [send] takes a
    bound on its polls, and running out of it is [None]. *)
From S2P Require Import Prelude Text Regex Data FileStats Protocol BindingsInterface Client ClientApi Streams.
From stdpp Require Import base tactics list gmap strings.
From Stdlib Require Import ZArith Lia.
Open Scope Z_scope.
Open Scope async_scope.

Record AsyncDuckDBConnection := { _conn : Z }.
Record AsyncPreparedStatement := { connectionId : Z; statementId : Z }.

(** [connect]: a connection object over the id the worker answers. *)
Definition connect : Async AsyncDuckDBConnection :=
  await! d := connectInternal in
  match d with
  | D_number cid => AReturn {| _conn := cid |}
  | _ => AReturn {| _conn := 0 |}
  end.

(** How [send] ends: with a reader, or with [undefined] on a detached client. *)
Inductive SendResult (Reader : Type) := Reader_of (r : Reader) | Undefined.
Arguments Reader_of {Reader}. Arguments Undefined {Reader}.

Section Connection.
Context {Table Reader : Type}.
Context (table_from : ResponseData -> Outcome Table) (reader_from : ResponseData -> Outcome Reader)
  (tableToIPC : Table -> list Z) (now : Z).

Definition async_close (c : AsyncDuckDBConnection) : Async unit := disconnect (_conn c).
Definition async_useUnsafe {R} (callback : Z -> R) (c : AsyncDuckDBConnection) : R := callback (_conn c).

(** [this._bindings.logger.log({...})] *)
Definition log_query (text : string) : Async unit :=
  amodify (add_console [CE_log (D_log {| timestamp := now; level := LV_INFO; origin := LO_ASYNC_DUCKDB;
                                          topic := LT_QUERY; event := LE_RUN; value := Some text |})]).

Definition query (c : AsyncDuckDBConnection) (text : string) : Async Table :=
  await! _ := log_query text in
  await! buffer := runQuery (_conn c) text in
  areturn (table_from buffer).

(** [header == null] *)
Definition is_nullish (d : ResponseData) : bool :=
  match d with D_null | D_undefined => true | _ => false end.

Fixpoint send_loop (c : AsyncDuckDBConnection) (fuel : nat) (header : ResponseData)
    : Async (option (SendResult Reader)) :=
  if is_nullish header then
    match fuel with
    | O => AReturn None
    | S n =>
        await! detached := aget isDetached in
        if detached : bool then
          await! _ := amodify (add_console [CE_error "cannot send a message since the worker is not set!"]) in
          AReturn (Some Undefined)
        else
          await! h := pollPendingQuery (_conn c) in send_loop c n h
    end
  else await! r := areturn (reader_from header) in AReturn (Some (Reader_of r)).

Definition send (c : AsyncDuckDBConnection) (fuel : nat) (text : string) (allowStreamResult : bool)
    : Async (option (SendResult Reader)) :=
  await! _ := log_query text in
  await! header := startPendingQuery (_conn c) text allowStreamResult in
  send_loop c fuel header.

Definition async_cancelSent (c : AsyncDuckDBConnection) : Async ResponseData := cancelPendingQuery (_conn c).
Definition async_getTableNames (c : AsyncDuckDBConnection) (q : string) : Async ResponseData :=
  getTableNames (_conn c) q.

Definition async_prepare (c : AsyncDuckDBConnection) (text : string) : Async AsyncPreparedStatement :=
  await! stmt := createPrepared (_conn c) text in
  AReturn {| connectionId := _conn c; statementId := match stmt with D_number n => n | _ => 0 end |}.

Definition async_insertArrowFromIPCStream (c : AsyncDuckDBConnection) (buffer : list Z)
    (options : option ArrowInsertOptions) : Async unit :=
  insertArrowFromIPCStream (_conn c) buffer options.
Definition async_insertArrowTable (c : AsyncDuckDBConnection) (table : Table)
    (options : option ArrowInsertOptions) : Async unit :=
  async_insertArrowFromIPCStream c (tableToIPC table) options.
Definition async_insertCSVFromPath (c : AsyncDuckDBConnection) (path : string) (options : CSVInsertOptions)
    : Async unit := insertCSVFromPath (_conn c) path options.
Definition async_insertJSONFromPath (c : AsyncDuckDBConnection) (path : string) (options : JSONInsertOptions)
    : Async unit := insertJSONFromPath (_conn c) path options.

Definition async_stmt_close (s : AsyncPreparedStatement) : Async unit :=
  closePrepared (connectionId s) (statementId s).
Definition async_stmt_query (s : AsyncPreparedStatement) (params : list Json) : Async Table :=
  await! buffer := runPrepared (connectionId s) (statementId s) params in areturn (table_from buffer).
Definition async_stmt_send (s : AsyncPreparedStatement) (params : list Json) : Async Reader :=
  await! header := sendPrepared (connectionId s) (statementId s) params in areturn (reader_from header).

End Connection.

(** ** Runs on a client that may be detached while a call waits *)

(** What becomes of a request: its answer, if one is ever delivered, and whether the
    client is detached before the caller goes on. *)
Record Fate := { answer : option (Outcome ResponseData); detaches : bool }.

Definition detached (c : Client) : Client := (detach c).2.

Lemma detached_isDetached c : isDetached (detached c) = true.
Proof. unfold detached, detach, isDetached, bind, gets, ret, modify. by destruct (_worker c) eqn:E; cbn; rewrite ?E. Qed.

Section Fates.
Context (fate : list RequestData -> RequestData -> Fate).

(** [None] is a wait that never ends. *)
Definition serve_or_detach (r : RequestData) (s : Client * list RequestData)
    : option (Outcome ResponseData) * (Client * list RequestData) :=
  if isDetached s.1 then (Some (Normal D_undefined), s)
  else let f := fate s.2 r in (answer f, (if detaches f then detached s.1 else s.1, s.2 ++ [r])).

Fixpoint run_fate {A} (m : Async A) (s : Client * list RequestData) : option (Outcome A) * (Client * list RequestData) :=
  match m with
  | AReturn a => (Some (Normal a), s)
  | AThrow e => (Some (Thrown e), s)
  | AState f k => run_fate (k s.1) (f s.1, s.2)
  | APost r _ k => match serve_or_detach r s with
                   | (Some o, s') => run_fate (k o) s'
                   | (None, s') => (None, s')
                   end
  end.

Lemma fate_abind {A B} (m : Async A) (k : A -> Async B) s :
  run_fate (abind m k) s = match run_fate m s with
                           | (Some (Normal a), s') => run_fate (k a) s'
                           | (Some (Thrown e), s') => (Some (Thrown e), s')
                           | (None, s') => (None, s')
                           end.
Proof.
  revert s. induction m as [a|e|r t k' IH|f k' IH]; intros s; cbn; [done|done| |apply IH].
  destruct (serve_or_detach r s) as [[o|] s']; [apply IH|done].
Qed.

Lemma fate_acomplete {A B} (m : Async A) (k : Outcome A -> Async B) s :
  run_fate (acomplete m k) s = match run_fate m s with
                               | (Some o, s') => run_fate (k o) s'
                               | (None, s') => (None, s')
                               end.
Proof.
  revert s. induction m as [a|e|r t k' IH|f k' IH]; intros s; cbn; [done|done| |apply IH].
  destruct (serve_or_detach r s) as [[o|] s']; [apply IH|done].
Qed.

Lemma fate_areturn {A} (o : Outcome A) s : run_fate (areturn o) s = (Some o, s).
Proof. by destruct o. Qed.

Lemma fate_post r t s : run_fate (post r t) s = serve_or_detach r s.
Proof. cbn. destruct (serve_or_detach r s) as [[o|] s']; [apply fate_areturn|done]. Qed.

(** *** A client that is detached posts nothing *)

Lemma detached_post r t c log : isDetached c = true -> run_fate (post r t) (c, log) = (Some (Normal D_undefined), (c, log)).
Proof. intros Hc. rewrite fate_post. unfold serve_or_detach. cbn [fst]. by rewrite Hc. Qed.

Lemma detached_register files acc c log : isDetached c = true ->
  run_fate (register_files files acc) (c, log) = (Some (Normal (acc ++ files)), (c, log)).
Proof.
  intros Hc. revert acc. induction files as [|f files IH]; intros acc; cbn [register_files]; [by rewrite app_nil_r|].
  rewrite fate_abind. unfold atry. rewrite fate_acomplete. unfold registerOPFSFileName, post_void.
  rewrite fate_abind, detached_post by done. cbn [run_fate]. rewrite IH. by rewrite <- app_assoc.
Qed.

Lemma detached_start conn text allow c log : isDetached c = true ->
  run_fate (startPendingQuery conn text allow) (c, log) = (Some (Normal D_undefined), (c, log)).
Proof.
  intros Hc. unfold startPendingQuery, with_opfs_files. rewrite fate_abind. cbn [run_fate aget fst].
  destruct (shouldOPFSFileHandling (_config c)); [|by apply detached_post].
  rewrite fate_abind. unfold registerOPFSFileFromSQL. rewrite detached_register by done.
  unfold afinally. rewrite fate_acomplete. unfold _startPendingQueryAsync. rewrite detached_post by done.
  rewrite fate_abind. destruct (_ ++ _) as [|f files]; [done|]. rewrite fate_abind. unfold dropFiles.
  by rewrite detached_post.
Qed.

(** *** The loop of [send] *)

Section Loop.
Context {Reader : Type} (reader_from : ResponseData -> Outcome Reader) (conn : Z).
Abbreviation loop := (send_loop reader_from {| _conn := conn |}).
Let poll := Rq_POLL_PENDING_QUERY conn.

(** A poll after which the loop goes on: it is answered with null, on a client that
    stays attached. *)
Definition quiet (f : Fate) : bool :=
  negb (detaches f) && match answer f with Some (Normal d) => is_nullish d | _ => false end.

(** What [send] makes of the first poll that is not quiet. *)
Definition send_ends (f : Fate) : option (Outcome (option (SendResult Reader))) :=
  match answer f with
  | None => None
  | Some (Thrown e) => Some (Thrown e)
  | Some (Normal d) =>
      if is_nullish d then Some (Normal (Some Undefined))
      else Some (outcome_map (fun r => Some (Reader_of r)) (reader_from d))
  end.

Lemma loop_header fuel d s : is_nullish d = false ->
  run_fate (loop fuel d) s = (Some (outcome_map (fun r => Some (Reader_of r)) (reader_from d)), s).
Proof. intros Hd. destruct fuel; cbn [send_loop]; rewrite Hd, fate_abind, fate_areturn; by destruct (reader_from d). Qed.

Lemma loop_detached fuel d c log : (0 < fuel)%nat -> is_nullish d = true -> isDetached c = true ->
  let r := run_fate (loop fuel d) (c, log) in r.1 = Some (Normal (Some Undefined)) /\ r.2.2 = log.
Proof.
  intros Hf Hd Hc. destruct fuel as [|fuel]; [lia|]. cbn [send_loop]. rewrite Hd, fate_abind. cbn [run_fate aget fst].
  rewrite Hc, fate_abind. done.
Qed.

Lemma loop_polls fuel d c log k : isDetached c = false -> is_nullish d = true -> (S k < fuel)%nat ->
  (forall i, (i < k)%nat -> quiet (fate (log ++ replicate i poll) poll) = true) ->
  let f := fate (log ++ replicate k poll) poll in quiet f = false ->
  let r := run_fate (loop fuel d) (c, log) in
  r.1 = send_ends f /\ r.2.2 = log ++ replicate (S k) poll.
Proof.
  intros Hc. revert fuel log d. induction k as [|k IH]; intros fuel log d Hd Hf Hq f Hf' r.
  all: destruct fuel as [|fuel]; [lia|]; subst r; cbn [send_loop]; rewrite Hd, fate_abind; cbn [run_fate aget fst];
    rewrite Hc, fate_abind; unfold pollPendingQuery; rewrite fate_post; unfold serve_or_detach; cbn [fst snd _conn];
    rewrite Hc; cbv zeta; fold poll.
  - subst f. cbn [replicate] in *. rewrite app_nil_r in *. set (f := fate log poll) in *. unfold quiet in Hf'. unfold send_ends.
    destruct (answer f) as [[d'|e]|]; [|done..]. destruct (is_nullish d') eqn:Hn.
    + rewrite andb_true_r in Hf'. apply negb_false_iff in Hf' as ->.
      apply loop_detached; [lia|done|apply detached_isDetached].
    + by rewrite loop_header.
  - pose proof (Hq 0%nat ltac:(lia)) as H0. cbn [replicate] in H0. rewrite app_nil_r in H0. unfold quiet in H0.
    destruct (fate log poll) as [[[d'|e]|] dt]; cbn [answer detaches] in *; try (by rewrite andb_false_r in H0).
    apply andb_true_iff in H0 as [->%negb_true_iff Hn].
    destruct (IH fuel (log ++ [poll]) d' Hn ltac:(lia)) as [E1 E2].
    + intros i Hi. rewrite <- app_assoc. apply (Hq (S i)). lia.
    + rewrite <- app_assoc. exact Hf'.
    + rewrite E1, E2, <- !app_assoc. done.
Qed.
End Loop.
End Fates.

(** The client once the text of a query was logged. *)
Definition logged_query (now : Z) (text : string) (c : Client) : Client :=
  add_console [CE_log (D_log {| timestamp := now; level := LV_INFO; origin := LO_ASYNC_DUCKDB;
                                topic := LT_QUERY; event := LE_RUN; value := Some text |})] c.

(** C38: The asynchronous [send], whatever becomes of its requests: it starts the query
    ([startPendingQuery], with its OPFS bracket) and ends as the start does if that
    throws, never settles, or already answers with a header.  Otherwise it polls as
    long as polls are answered with null and the client stays attached; with the first
    poll that is not it ends, having posted exactly that many polls: a header is given
    to the reader, a throw is thrown, a client that was detached in the meantime makes it
    return [undefined], and if the poll is never answered, as when the client is detached
    while it is under way, [send] never returns.  On a client that is detached already it
    posts nothing and returns [undefined]. *)
Theorem async_send_polls_until_the_header {Reader} (reader_from : ResponseData -> Outcome Reader) now fate
    conn text allow c log fuel : (0 < fuel)%nat ->
  let start := run_fate fate (startPendingQuery conn text allow) (logged_query now text c, log) in
  let poll := Rq_POLL_PENDING_QUERY conn in
  let r := run_fate fate (send reader_from now {| _conn := conn |} fuel text allow) (c, log) in
  match start.1 with
  | None => r = (None, start.2)
  | Some (Thrown e) => r = (Some (Thrown e), start.2)
  | Some (Normal d) =>
      if negb (is_nullish d) then r = (Some (outcome_map (fun x => Some (Reader_of x)) (reader_from d)), start.2)
      else if isDetached start.2.1 then r.1 = Some (Normal (Some Undefined)) /\ r.2.2 = start.2.2
      else forall k, (S k < fuel)%nat ->
        (forall i, (i < k)%nat -> quiet (fate (start.2.2 ++ replicate i poll) poll) = true) ->
        let f := fate (start.2.2 ++ replicate k poll) poll in quiet f = false ->
        r.1 = send_ends reader_from f /\ r.2.2 = start.2.2 ++ replicate (S k) poll
  end /\
  (isDetached c = true -> r.1 = Some (Normal (Some Undefined)) /\ r.2.2 = log).
Proof.
  intros Hf. cbv zeta.
  assert (run_fate fate (send reader_from now {| _conn := conn |} fuel text allow) (c, log) =
    match run_fate fate (startPendingQuery conn text allow) (logged_query now text c, log) with
    | (Some (Normal d), s') => run_fate fate (send_loop reader_from {| _conn := conn |} fuel d) s'
    | (Some (Thrown e), s') => (Some (Thrown e), s')
    | (None, s') => (None, s')
    end) as E.
  { unfold send. rewrite fate_abind. cbn [run_fate log_query amodify fst snd]. fold (logged_query now text c).
    by rewrite fate_abind. }
  rewrite E. clear E. split.
  - destruct (run_fate _ _ _) as [[[d|e]|] [c1 log1]]; cbn [fst snd]; [|done..].
    destruct (is_nullish d) eqn:Hd; cbn [negb]; [|by apply loop_header].
    destruct (isDetached c1) eqn:Hc1; [by apply loop_detached|]. intros k Hk Hq. by apply loop_polls.
  - intros Hc. rewrite detached_start by exact Hc. by apply loop_detached.
Qed.

(** A worker that answers with the header at the second poll; and one whose second poll is
    under way when the client is detached. *)
Definition slow_fate (lost : bool) (log : list RequestData) (r : RequestData) : Fate :=
  match r with
  | Rq_POLL_PENDING_QUERY _ =>
      if (length log =? 2)%nat
      then if lost then {| answer := None; detaches := true |} else {| answer := Some (Normal (D_bytes [7])); detaches := false |}
      else {| answer := Some (Normal D_null); detaches := false |}
  | _ => {| answer := Some (Normal D_null); detaches := false |}
  end.

Definition slow_send (lost : bool) : option (Outcome (option (SendResult ResponseData))) * (Client * list RequestData) :=
  run_fate (slow_fate lost) (send (fun d => Normal d) 0 {| _conn := 1 |} 5 "SELECT 1" false) (one_pending, []).

Lemma async_send_polls_until_the_header_witness :
  (slow_send false).1 = Some (Normal (Some (Reader_of (D_bytes [7])))) /\ (slow_send true).1 = None /\
  (slow_send true).2.2 = Rq_START_PENDING_QUERY 1 "SELECT 1" false :: replicate 2 (Rq_POLL_PENDING_QUERY 1).
Proof.
  assert (forall lost i, (i < 1)%nat ->
    quiet (slow_fate lost ([Rq_START_PENDING_QUERY 1 "SELECT 1" false] ++ replicate i (Rq_POLL_PENDING_QUERY 1))
      (Rq_POLL_PENDING_QUERY 1)) = true) as Hq by (intros lost i Hi; assert (i = 0%nat) as -> by lia; reflexivity).
  split; [|].
  - apply (proj1 (async_send_polls_until_the_header (fun d => Normal d) 0 (slow_fate false) 1 "SELECT 1" false
      one_pending [] 5 ltac:(lia)) 1%nat ltac:(lia) (Hq false) eq_refl).
  - apply (proj1 (async_send_polls_until_the_header (fun d => Normal d) 0 (slow_fate true) 1 "SELECT 1" false
      one_pending [] 5 ltac:(lia)) 1%nat ltac:(lia) (Hq true) eq_refl).
Defined.
