(* ===== verification/Rpc.v ===== *)
(** * Rpc: client, channels and worker together

    [System] is a client attached to a worker: the requests posted and not yet
    received, the worker, and how many of its messages were delivered; both
    channels keep the order of the messages.  Any number of callers post
    requests at any time, handlers suspend and interleave, engine glue posts
    messages of its own.  [issued] remembers every call with its task.

    The runs considered are those in which no INSTANTIATE reaches a worker that
    has bindings (see [Dispatcher.initialisation_errors]) and the worker does not
    fail (see [Client.worker_error_strands_requests]). *)
From S2P Require Import Prelude Data FileStats Protocol Prefetch BindingsInterface Dispatcher Client.
From stdpp Require Import base tactics list gmap strings.
From Stdlib Require Import ZArith Lia.
Open Scope Z_scope.

Record System (B : Type) := MkSystem {
  client : Client;
  wire : list WorkerRequest;
  worker : Worker B;
  delivered : nat;
  issued : list (Z * WorkerTask)
}.
Arguments MkSystem {B}. Arguments client {B}. Arguments wire {B}. Arguments worker {B}.
Arguments delivered {B}. Arguments issued {B}.

Definition all_posts {B} (s : System B) : list Post := posted (disp (worker s)).
Definition undelivered {B} (s : System B) : list Post := drop (delivered s) (all_posts s).

Definition initial_system {B} (w : Z) : System B :=
  MkSystem (attach w new_client).2 [] initial_worker 0 [].

Inductive system_step {B} `{DuckDBBindings B} (hasXHR stack_writable : bool) : System B -> System B -> Prop :=
| sys_call r tr c wi w n l p c' :
    issue (fun _ => None) r tr c = (Normal (Some p), c') ->
    system_step hasXHR stack_writable (MkSystem c wi w n l)
      (MkSystem c' (wi ++ [{| messageId := client_nextMessageId c; request := r |}]) w n
         (l ++ [(client_nextMessageId c, {| task_request := r; task_promise := p |})]))
| sys_receive req c wi w w' n l :
    owed req (disp w) = [messageId req] ->
    worker_step hasXHR (Some req) w w' ->
    system_step hasXHR stack_writable (MkSystem c (req :: wi) w n l) (MkSystem c wi w' n l)
| sys_work c wi w w' n l :
    worker_step hasXHR None w w' ->
    system_step hasXHR stack_writable (MkSystem c wi w n l) (MkSystem c wi w' n l)
| sys_deliver p c wi w n l :
    posted (disp w) !! n = Some p ->
    system_step hasXHR stack_writable (MkSystem c wi w n l)
      (MkSystem (Client.onMessage stack_writable (message_of (post_response p)) c).2 wi w (S n) l)
| sys_glue s d c wi w n l :
    system_step hasXHR stack_writable (MkSystem c wi w n l)
      (MkSystem (Client.onMessage stack_writable (MkMessage (MT_string s) None d) c).2 wi w n l).

(** How a call settled: its promise is pending with its request in the table, or
    it has the outcome of a response that was delivered for it. *)
Definition settled_by (ps : list Post) (id : Z) (task : WorkerTask) (c : Client) : Prop :=
  match promises c !! task_promise task with
  | Some Pending => pendingRequests c !! id = Some task
  | Some (Fulfilled d) => exists p, p ∈ ps /\ resp_requestId (post_response p) = id /\
      resp_type (post_response p) = answer_type (task_request task) /\ resp_data (post_response p) = d
  | Some (Rejected e) => exists p e', p ∈ ps /\ resp_requestId (post_response p) = id /\
      resp_type (post_response p) = ERROR /\ resp_data (post_response p) = D_error e' /\
      err_name e' = err_name e /\ err_message e' = err_message e
  | None => False
  end.

Definition is_warning (e : ConsoleEvent) : bool := match e with CE_warn _ | CE_error _ => true | _ => false end.

(** The pending task of a request in the system is the request's own. *)
Definition awaited (c : Client) (req : WorkerRequest) : Prop :=
  exists t, pendingRequests c !! messageId req = Some t /\ task_request t = request req.

Definition answers_task (c : Client) (p : Post) : Prop :=
  post_ends p = true -> exists t,
    pendingRequests c !! resp_requestId (post_response p) = Some t /\
    terminal {| messageId := resp_requestId (post_response p); request := task_request t |} p.

Definition pool {B} (s : System B) : list Z :=
  map messageId (wire s) ++ suspended_ids (suspended (worker s)) ++ answered_ids (undelivered s).

Record system_ok {B} (s : System B) : Prop := {
  s_client : client_ok (client s);
  s_attached : is_Some (_worker (client s));
  s_awaits : Forall await_wf (suspended (worker s));
  s_pool : pool s ≡ₚ (map_to_list (pendingRequests (client s))).*1;
  s_wire : Forall (awaited (client s)) (wire s);
  s_suspended : Forall (fun a => awaited (client s) (await_request a)) (suspended (worker s));
  s_posts : Forall (answers_task (client s)) (undelivered s);
  s_delivered : (delivered s <= length (all_posts s))%nat;
  s_issued : Forall (fun c => settled_by (take (delivered s) (all_posts s)) c.1 c.2 (client s)) (issued s);
  s_pending : forall id t, pendingRequests (client s) !! id = Some t -> (id, t) ∈ issued s;
  s_ids : Forall (fun c => c.1 < client_nextMessageId (client s)) (issued s);
  s_distinct : NoDup (map (fun c => task_promise c.2) (issued s));
  s_console : Forall (fun e => is_warning e = false) (console (client s))
}.

(** ** The worker's steps, as the client sees them *)

Section WorkerSteps.
Context {B : Type} `{DuckDBBindings B} (hasXHR : bool).

(** What a step adds for a request it works on: its terminal response, or a
    suspended handler. *)
Definition progressed (req : WorkerRequest) (ps : list Post) (l : list Await) : Prop :=
  (exists p, ps = [p] /\ terminal req p /\ l = []) \/
  (exists a, ps = [] /\ l = [a] /\ await_request a = req /\ await_wf a).

Lemma answered_progressed req (s : Dispatcher B) r :
  answered req s r ->
  exists ps, posted r.2 = posted s ++ ps /\ progressed req ps (outcome_await r.1).
Proof.
  unfold answered. destruct r as [[[a|]|e] s']; cbn; [| |done].
  - intros ((Hp & _) & Ha & Hw). exists []. split; [done|]. right. by exists a.
  - intros (p & (Hp & _) & Ht). exists [p]. split; [done|]. left. by exists p.
Qed.

Lemma onMessage_owed_once req (s : Dispatcher B) :
  owed req s = [messageId req] -> answered req s (Dispatcher.onMessage hasXHR req s).
Proof.
  intros Ho. destruct (preliminary (request req)) eqn:Hp; [|by apply onMessage_answered].
  unfold owed in Ho. unfold Dispatcher.onMessage, bind, gets. destruct (request req) eqn:Hr; try discriminate Hp.
  - destruct (bindings s); [discriminate Ho|]. cbn. split; [apply (quiet_posts (ret tt)), quiet_ret|].
    split; [done|]. by cbn; rewrite Hr.
  - eexists. split; [apply (posts_post (messageId req) OK D_null [])|]. split; [done|]. split; [|done].
    left. cbn. by rewrite Hr.
Qed.

Lemma receive_step req (w w' : Worker B) :
  owed req (disp w) = [messageId req] -> worker_step hasXHR (Some req) w w' ->
  exists ps l, posted (disp w') = posted (disp w) ++ ps /\
    suspended w' = suspended w ++ l /\ progressed req ps l.
Proof.
  intros Ho Hs. inversion Hs as [req' s l o s' E| | | | | | |]; subst. cbn in *.
  destruct (answered_progressed req s _ (onMessage_owed_once req s Ho)) as (ps & Hp & Hl).
  rewrite E in *. eauto 10.
Qed.

(** An internal step of the worker: it posts no terminal response, or it takes up
    one suspended handler. *)
Definition worked (w w' : Worker B) : Prop :=
  exists ps, posted (disp w') = posted (disp w) ++ ps /\
    ((suspended w' = suspended w /\ Forall (fun p => post_ends p = false) ps) \/
     exists a l1 l2 l, suspended w = l1 ++ a :: l2 /\ suspended w' = l1 ++ l2 ++ l /\
       progressed (await_request a) ps l).

Lemma worked_quiet (w w' : Worker B) :
  posted (disp w') = posted (disp w) -> suspended w' = suspended w -> worked w w'.
Proof. intros Hp Hl. exists []. rewrite app_nil_r. split; [done|]. left. by split. Qed.

Lemma worked_post (s s' : Dispatcher B) l p :
  posted s' = posted s ++ [p] -> post_ends p = false -> worked (MkWorker s l) (MkWorker s' l).
Proof. intros Hp Hl. exists [p]. split; [done|]. left. split; [done|]. by repeat constructor. Qed.

Lemma work_step (w w' : Worker B) :
  Forall await_wf (suspended w) -> worker_step hasXHR None w w' -> worked w w'.
Proof.
  intros Hwf Hs.
  inversion Hs as [|a out s l1 l2 o s' Hm E|req p s l Hin|s l|m s l|e s l|sab v s l|p s l Hp]; subst;
    cbn [disp suspended] in *.
  - apply Forall_app in Hwf as [_ Hwf]. apply Forall_cons in Hwf as [Hwa _].
    destruct (answered_progressed _ s _ (resume_answered hasXHR a out s Hwa)) as (ps & Hp & Hl).
    rewrite E in *. exists ps. split; [done|]. right. by exists a, l1, l2, (outcome_await o).
  - unfold forward_progress. destruct (request req); try (by apply worked_quiet).
    match goal with o : option bool |- _ => destruct o as [[|]|] end; try (by apply worked_quiet);
      by eapply worked_post.
  - apply worked_quiet; [|done]. by apply watch_tick_quiet.
  - apply worked_quiet; [|done]. by destruct m.
  - by eapply worked_post.
  - by apply worked_quiet.
  - by apply worked_quiet.
Qed.
End WorkerSteps.

(** ** What the client does with a response of the worker *)

Lemma expected_is_answered r : expected_response (request_type r) = answer_type r.
Proof. by destruct r. Qed.

(** The state a response leaves its promise in. *)
Definition outcome_of (task : WorkerTask) (p : Post) (st : PromiseState) : Prop :=
  (st = Fulfilled (resp_data (post_response p)) /\
     resp_type (post_response p) = answer_type (task_request task)) \/
  (exists e e', st = Rejected e /\ resp_type (post_response p) = ERROR /\
     resp_data (post_response p) = D_error e' /\ err_name e' = err_name e /\ err_message e' = err_message e).

(** The client after it took in a response for [task]. *)
Record answered_client (c c' : Client) (id : Z) (task : WorkerTask) (p : Post) : Prop := {
  ac_outcome : exists st, outcome_of task p st /\
    promises c' = <[task_promise task := st]> (promises c);
  ac_pending : pendingRequests c' = delete id (pendingRequests c);
  ac_next : client_nextMessageId c' = client_nextMessageId c;
  ac_worker : _worker c' = _worker c;
  ac_console : console c' = console c
}.

Lemma onMessage_answer sw (c : Client) id task p :
  client_ok c -> pendingRequests c !! id = Some task ->
  terminal {| messageId := id; request := task_request task |} p ->
  answered_client c (Client.onMessage sw (message_of (post_response p)) c).2 id task p.
Proof.
  intros Hok Hid (Hreq & Hty & Hwt). cbn in Hreq, Hty. destruct p as [[mid rid ty d] tr].
  cbn [post_response resp_requestId resp_type resp_data] in *. subst rid.
  pose proof (ok_promises _ Hok _ _ Hid) as Hp.
  assert (Dispatcher.ends_request ty = true) as He
    by (destruct Hty as [-> | ->]; [apply answer_type_ends|done]).
  assert (Client.onMessage sw (MkMessage (MT_response ty) (Some id) d) c =
    finish_task sw task (MkMessage (MT_response ty) (Some id) d)
      (set_pending (client_nextMessageId c) (delete id (pendingRequests c)) c)) as E.
  { unfold Client.onMessage, bind, gets, modify. cbn. destruct ty; try discriminate He; by rewrite Hid. }
  unfold message_of. cbn [resp_type resp_requestId resp_data post_response]. rewrite E.
  assert (forall st, alter (fun _ => st) (task_promise task) (promises c) =
                     <[task_promise task := st]> (promises c)) as Halter.
  { intros st. apply map_eq. intros j. destruct (decide (j = task_promise task)) as [->|Hne].
    - by rewrite lookup_alter_eq, lookup_insert_eq, Hp.
    - by rewrite lookup_alter_ne, lookup_insert_ne by done. }
  assert (forall f, alter f (task_promise task) (promises c) =
                    <[task_promise task := f Pending]> (promises c)) as Hset.
  { intros f. rewrite <- Halter. apply map_eq. intros j. destruct (decide (j = task_promise task)) as [->|Hne].
    - by rewrite !lookup_alter_eq, Hp.
    - by rewrite !lookup_alter_ne by done. }
  unfold finish_task, settle, bind, modify, ret. cbn [msg_type msg_data].
  case_bool_decide as Herr.
  - injection Herr as ->. destruct d; try discriminate Hwt. cbn.
    split; try done. cbn. rewrite Hset. eexists. split; [|done]. right. eexists _, e. by repeat split.
  - destruct Hty as [-> |Hty]; [|by rewrite Hty in Herr]. rewrite expected_is_answered.
    rewrite bool_decide_eq_true_2 by done.
    destruct (clears_instantiation _); cbn; (split; try done; cbn; rewrite Hset;
      eexists; split; [|done]; by left).
Qed.

(** Messages that end no request only reach callbacks and the logger. *)
Lemma onMessage_notice sw (c : Client) p :
  post_ends p = false ->
  let c' := (Client.onMessage sw (message_of (post_response p)) c).2 in
  same_tables c c' /\ _worker c' = _worker c /\
  exists es, console c' = console c ++ es /\ Forall (fun e => is_warning e = false) es.
Proof.
  destruct p as [[mid rid ty d] tr]. unfold post_ends, message_of, Client.onMessage. cbn.
  destruct ty; try done; intros _; cbn; (split; [done|]); (split; [done|]); eexists; (split; [done|]).
  - apply Forall_map, Forall_true. done.
  - by repeat constructor.
  - apply Forall_map, Forall_true. done.
Qed.

(** A call on an attached client. *)
Lemma issue_posted r tr (c c' : Client) p :
  issue (fun _ => None) r tr c = (Normal (Some p), c') ->
  promises c !! p = None /\
  promises c' = <[p := Pending]> (promises c) /\
  pendingRequests c' = <[client_nextMessageId c := {| task_request := r; task_promise := p |}]> (pendingRequests c) /\
  client_nextMessageId c' = client_nextMessageId c + 1 /\ _worker c' = _worker c /\ console c' = console c.
Proof.
  unfold issue, newTask, postTask, bind, gets, modify, ret. cbn.
  destruct (_worker c) eqn:Ew; cbn; intros [= <- <-]. cbn. split; [apply fresh_promise_none|]. by rewrite Ew.
Qed.

(** ** The invariant *)

Section Invariant.
Context {B : Type} `{DuckDBBindings B} (hasXHR sw : bool).
Implicit Types (s : System B).

Lemma system_ok_initial w : system_ok (initial_system (B := B) w).
Proof.
  split; cbn; try (by constructor); try done.
Qed.

(** The pending request of a call in the system stays when requests are added. *)
Lemma awaited_insert (c c' : Client) req t :
  client_ok c -> pendingRequests c' = <[client_nextMessageId c := t]> (pendingRequests c) ->
  awaited c req -> awaited c' req.
Proof.
  intros Hok Hp (u & Hu & Hr). exists u. split; [|done]. rewrite Hp, lookup_insert_ne; [done|].
  pose proof (ok_ids _ Hok _ _ Hu). lia.
Qed.

Lemma answers_insert (c c' : Client) p t :
  client_ok c -> pendingRequests c' = <[client_nextMessageId c := t]> (pendingRequests c) ->
  answers_task c p -> answers_task c' p.
Proof.
  intros Hok Hp Ha He. destruct (Ha He) as (u & Hu & Hr). exists u. split; [|done].
  rewrite Hp, lookup_insert_ne; [done|]. pose proof (ok_ids _ Hok _ _ Hu). lia.
Qed.

Lemma settled_insert ps (c c' : Client) x p t :
  client_ok c -> promises c !! p = None -> x.1 < client_nextMessageId c ->
  promises c' = <[p := Pending]> (promises c) ->
  pendingRequests c' = <[client_nextMessageId c := t]> (pendingRequests c) ->
  settled_by ps x.1 x.2 c -> settled_by ps x.1 x.2 c'.
Proof.
  intros Hok Hp Hx Epr Epe. unfold settled_by. rewrite Epr, Epe.
  destruct (decide (p = task_promise x.2)) as [->|Hne]; [by rewrite Hp|].
  rewrite lookup_insert_ne, lookup_insert_ne by (done || lia). done.
Qed.

Lemma call_ok r tr c wi w n l p c' :
  issue (fun _ => None) r tr c = (Normal (Some p), c') ->
  system_ok (MkSystem (B := B) c wi w n l) ->
  system_ok (MkSystem c' (wi ++ [{| messageId := client_nextMessageId c; request := r |}]) w n
    (l ++ [(client_nextMessageId c, {| task_request := r; task_promise := p |})])).
Proof.
  intros Hi [Hc Ha Hw Hp Hwi Hs Hpo Hd His Hpe Hid Hdi Hco].
  unfold pool, undelivered, all_posts in *. cbn [client wire worker delivered issued] in *.
  destruct (issue_posted _ _ _ _ _ Hi) as (Hfree & Epr & Epe & En & Ew & Eco).
  assert (client_ok c') as Hc' by (pose proof (client_ok_issue (fun _ => None) r tr c Hc) as X; by rewrite Hi in X).
  assert (pendingRequests c !! client_nextMessageId c = None) as Hnone.
  { destruct (pendingRequests c !! client_nextMessageId c) eqn:E; [|done].
    pose proof (ok_ids _ Hc _ _ E). lia. }
  split; cbn.
  - done.
  - by rewrite Ew.
  - done.
  - unfold pool in *. cbn in *. rewrite Epe, map_to_list_insert by done. cbn.
    rewrite map_app, <- Hp. cbn. solve_Permutation.
  - apply Forall_app. split; [eapply Forall_impl; [exact Hwi|]; intros x; by eapply awaited_insert|].
    constructor; [|done]. eexists. cbn. rewrite Epe, lookup_insert_eq. done.
  - eapply Forall_impl; [exact Hs|]; intros x; by eapply awaited_insert.
  - eapply Forall_impl; [exact Hpo|]; intros x; by eapply answers_insert.
  - done.
  - apply Forall_app. split.
    + rewrite Forall_forall in His, Hid |- *. intros x Hx.
      by apply (settled_insert _ c c' x p _ Hc Hfree (Hid x Hx) Epr Epe), His.
    + constructor; [|done]. unfold settled_by. cbn. by rewrite Epr, Epe, !lookup_insert_eq.
  - intros id t. rewrite Epe. intros [[<- <-]|[_ Ht]]%lookup_insert_Some; apply elem_of_app;
      [right; by left|left; by apply Hpe].
  - apply Forall_app. rewrite En. split; [eapply Forall_impl; [exact Hid|]; cbn; lia|].
    constructor; [cbn; lia|done].
  - rewrite map_app. apply NoDup_app. split; [done|]. split; [|apply NoDup_singleton].
    intros q Hq Hq'. apply list_elem_of_singleton in Hq'. subst q. cbn in Hq.
    apply list_elem_of_fmap in Hq as (x & -> & Hx). rewrite Forall_forall in His. specialize (His x Hx).
    unfold settled_by in His. by rewrite Hfree in His.
  - by rewrite Eco.
Qed.

(** What a request's progress adds to the pool and to the messages. *)
Lemma progressed_pool req ps l :
  progressed req ps l -> suspended_ids l ++ answered_ids ps = [messageId req].
Proof.
  intros [(p & -> & Ht & ->)|(a & -> & -> & <- & _)]; cbn; [by apply terminal_ids|done].
Qed.

Lemma progressed_answers c req ps l :
  awaited c req -> progressed req ps l ->
  Forall (answers_task c) ps /\ Forall (fun a => awaited c (await_request a)) l /\ Forall await_wf l.
Proof.
  intros (t & Ht & Hr) [(p & -> & Hp & ->)|(a & -> & -> & <- & Hw)]; repeat constructor; try done.
  - intros _. pose proof Hp as (Hid & _). exists t. rewrite Hid. split; [done|]. rewrite Hr.
    by destruct req.
  - by exists t.
Qed.

Lemma undelivered_app (w w' : Worker B) n ps :
  posted (disp w') = posted (disp w) ++ ps -> (n <= length (posted (disp w)))%nat ->
  drop n (posted (disp w')) = drop n (posted (disp w)) ++ ps /\
  take n (posted (disp w')) = take n (posted (disp w)) /\ (n <= length (posted (disp w')))%nat.
Proof.
  intros -> Hn. rewrite drop_app_le, take_app_le, length_app by done. split_and!; try done. lia.
Qed.

Lemma receive_ok req c wi w w' n l :
  owed req (disp w) = [messageId req] -> worker_step hasXHR (Some req) w w' ->
  system_ok (MkSystem c (req :: wi) w n l) -> system_ok (MkSystem c wi w' n l).
Proof.
  intros Ho Hstep [Hc Ha Hw Hp Hwi Hs Hpo Hd His Hpe Hid Hdi Hco].
  unfold pool, undelivered, all_posts in *. cbn [client wire worker delivered issued] in *.
  destruct (receive_step hasXHR req w w' Ho Hstep) as (ps & k & Ep & El & Hk).
  apply Forall_cons in Hwi as [Hreq Hwi].
  destruct (progressed_answers c req ps k Hreq Hk) as (Hps & Hka & Hkw).
  destruct (undelivered_app w w' n ps Ep Hd) as (Eun & Eta & Hle).
  split; unfold pool, undelivered, all_posts in *; cbn [client wire worker delivered issued] in *; rewrite ?Eun, ?Eta, ?El; try done.
  - by apply Forall_app.
  - rewrite <- Hp. unfold suspended_ids. rewrite map_app, answered_ids_app.
    pose proof (progressed_pool req ps k Hk) as E. unfold suspended_ids in E.
    cbn [map]. change (messageId req :: ?x) with ([messageId req] ++ x). rewrite <- E. solve_Permutation.
  - by apply Forall_app.
  - by apply Forall_app.
Qed.

Lemma work_ok c wi w w' n l :
  worker_step hasXHR None w w' ->
  system_ok (MkSystem c wi w n l) -> system_ok (MkSystem c wi w' n l).
Proof.
  intros Hstep [Hc Ha Hw Hp Hwi Hs Hpo Hd His Hpe Hid Hdi Hco].
  unfold pool, undelivered, all_posts in *. cbn [client wire worker delivered issued] in *.
  destruct (work_step hasXHR w w' Hw Hstep) as (ps & Ep & Hk).
  destruct (undelivered_app w w' n ps Ep Hd) as (Eun & Eta & Hle).
  destruct Hk as [(El & Hps)|(a & l1 & l2 & k & El & El' & Hk)].
  - assert (answered_ids ps = []) as Eps.
    { unfold answered_ids. clear -Hps. induction Hps as [|p ps Hp _ IH]; [done|]. cbn. by rewrite Hp. }
    split; unfold pool, undelivered, all_posts in *; cbn [client wire worker delivered issued] in *; rewrite ?Eun, ?Eta, ?El; try done.
    + by rewrite answered_ids_app, Eps, app_nil_r.
    + apply Forall_app. split; [done|]. eapply Forall_impl; [exact Hps|]. intros p Hp' He. congruence.
  - rewrite El in *. apply Forall_app in Hs as [Hs1 Hs2]. apply Forall_cons in Hs2 as [Hsa Hs2].
    apply Forall_app in Hw as [Hw1 Hw2]. apply Forall_cons in Hw2 as [_ Hw2].
    destruct (progressed_answers c _ ps k Hsa Hk) as (Hps & Hka & Hkw).
    split; unfold pool, undelivered, all_posts in *; cbn [client wire worker delivered issued] in *; rewrite ?Eun, ?Eta, ?El'; try done.
    + by repeat apply Forall_app_2.
    + rewrite <- Hp. unfold suspended_ids. rewrite !map_app, answered_ids_app. cbn [map].
      pose proof (progressed_pool _ ps k Hk) as E. unfold suspended_ids in E.
      change (messageId (await_request a) :: ?x) with ([messageId (await_request a)] ++ x).
      rewrite <- E. solve_Permutation.
    + by repeat apply Forall_app_2.
    + by apply Forall_app.
Qed.

(** *** Delivery *)

Lemma settled_more ps p id t c : settled_by ps id t c -> settled_by (ps ++ [p]) id t c.
Proof.
  unfold settled_by. destruct (promises c !! task_promise t) as [[|d|e]|]; try done.
  - intros (q & Hq & Hr). exists q. split; [apply elem_of_app; by left|done].
  - intros (q & e' & Hq & Hr). exists q, e'. split; [apply elem_of_app; by left|done].
Qed.

Lemma settled_delivered ps (c c' : Client) l id task p x :
  answered_client c c' id task p -> resp_requestId (post_response p) = id ->
  pendingRequests c !! id = Some task ->
  NoDup (map (fun c => task_promise c.2) l) -> (id, task) ∈ l -> x ∈ l ->
  settled_by ps x.1 x.2 c -> settled_by (ps ++ [p]) x.1 x.2 c'.
Proof.
  intros [(st & Hst & Epr) Epe _ _ _] Hid Hpend Hnd Hin Hx Hs. unfold settled_by. rewrite Epr, Epe.
  destruct (decide (task_promise task = task_promise x.2)) as [E|Hne].
  - assert ((id, task) = x) as <- by (by eapply (NoDup_map_inj _ l)).
    cbn. rewrite lookup_insert_eq.
    assert (p ∈ ps ++ [p]) as Hp by (apply elem_of_app; right; by left).
    destruct Hst as [(-> & Ht)|(e & e' & -> & Ht & Hd & Hn & Hm)]; [by exists p|by exists p, e'].
  - rewrite lookup_insert_ne by done. pose proof (settled_more ps p _ _ _ Hs) as Hm. unfold settled_by in *.
    destruct (promises c !! task_promise x.2) as [[|d|e]|]; try done.
    rewrite lookup_delete_ne; [done|]. congruence.
Qed.

Lemma awaited_delete (c c' : Client) id task p req :
  answered_client c c' id task p -> id <> messageId req -> awaited c req -> awaited c' req.
Proof.
  intros Ha Hne (t & Ht & Hr). exists t. split; [|done].
  by rewrite (ac_pending _ _ _ _ _ Ha), lookup_delete_ne.
Qed.

Lemma answered_ids_elem q ps : q ∈ ps -> post_ends q = true -> resp_requestId (post_response q) ∈ answered_ids ps.
Proof.
  intros Hq He. unfold answered_ids. apply list_elem_of_fmap. exists q. split; [done|].
  apply list_elem_of_In, filter_In. split; [by apply list_elem_of_In|done].
Qed.

(** Delivering the response of [task]. *)
Lemma deliver_answer p c c' wi (w : Worker B) n l task :
  let id := resp_requestId (post_response p) in
  posted (disp w) !! n = Some p -> post_ends p = true ->
  pendingRequests c !! id = Some task -> answered_client c c' id task p -> client_ok c' ->
  system_ok (MkSystem c wi w n l) -> system_ok (MkSystem c' wi w (S n) l).
Proof.
  cbv zeta. intros Hn He Hid Hac Hc' [Hc Ha Hw Hp Hwi Hs Hpo Hd His Hpe Hids Hdi Hco].
  unfold pool, undelivered, all_posts in *. cbn [client wire worker delivered issued] in *.
  set (id := resp_requestId (post_response p)) in *.
  rewrite (drop_S _ _ _ Hn) in Hp, Hpo. apply Forall_cons in Hpo as [_ Hpo].
  assert (answered_ids (p :: drop (S n) (posted (disp w))) = id :: answered_ids (drop (S n) (posted (disp w)))) as Eans.
  { unfold answered_ids. cbn [List.filter]. by rewrite He. }
  rewrite Eans in Hp.
  assert (NoDup (map messageId wi ++ suspended_ids (suspended w) ++
                 id :: answered_ids (drop (S n) (posted (disp w))))) as Hnd.
  { rewrite Hp. apply NoDup_fst_map_to_list. }
  apply NoDup_app in Hnd as (_ & Hd1 & Hnd). apply NoDup_app in Hnd as (_ & Hd2 & Hnd).
  apply NoDup_cons in Hnd as [Hd3 _].
  split; unfold pool, undelivered, all_posts; cbn [client wire worker delivered issued].
  - done.
  - by rewrite (ac_worker _ _ _ _ _ Hac).
  - done.
  - rewrite (ac_pending _ _ _ _ _ Hac).
    apply (Permutation_cons_inv (a := id)). rewrite <- (map_to_list_delete _ id task Hid) in Hp.
    cbn in Hp. rewrite <- Hp. solve_Permutation.
  - rewrite Forall_forall in Hwi |- *. intros req Hin. eapply awaited_delete; [done| |by apply Hwi].
    intros E. apply (Hd1 id); [rewrite E; apply list_elem_of_fmap; eauto|].
    apply elem_of_app. right. by left.
  - rewrite Forall_forall in Hs |- *. intros a Hin. eapply awaited_delete; [done| |by apply Hs].
    intros E. apply (Hd2 id); [rewrite E; apply list_elem_of_fmap; eauto|by left].
  - rewrite Forall_forall in Hpo |- *. intros q Hin Hq. destruct (Hpo q Hin Hq) as (t & Ht & Hterm).
    exists t. split; [|done]. rewrite (ac_pending _ _ _ _ _ Hac), lookup_delete_ne; [done|].
    intros E. apply Hd3. rewrite E. by apply answered_ids_elem.
  - by apply lookup_lt_Some in Hn.
  - rewrite (take_S_r _ _ _ Hn). rewrite Forall_forall in His |- *. intros x Hx.
    by apply (settled_delivered _ c c' l id task p x Hac eq_refl Hid Hdi (Hpe _ _ Hid) Hx), His.
  - intros i t. rewrite (ac_pending _ _ _ _ _ Hac). intros [_ Ht]%lookup_delete_Some. by apply Hpe.
  - by rewrite (ac_next _ _ _ _ _ Hac).
  - done.
  - by rewrite (ac_console _ _ _ _ _ Hac).
Qed.

(** Delivering a message that ends no request, or one that is not a response. *)
Lemma deliver_notice c c' wi (w : Worker B) n n' l :
  same_tables c c' -> _worker c' = _worker c ->
  (exists es, console c' = console c ++ es /\ Forall (fun e => is_warning e = false) es) ->
  (n' <= length (posted (disp w)))%nat ->
  answered_ids (drop n' (posted (disp w))) = answered_ids (drop n (posted (disp w))) ->
  (n <= n')%nat ->
  system_ok (MkSystem c wi w n l) -> system_ok (MkSystem c' wi w n' l).
Proof.
  intros (En & Epe & Epr) Ew (es & Ees & Hes) Hle Eans Hnn [Hc Ha Hw Hp Hwi Hs Hpo Hd His Hpe Hids Hdi Hco].
  unfold pool, undelivered, all_posts in *. cbn [client wire worker delivered issued] in *.
  assert (forall req, awaited c req -> awaited c' req) as Haw by (unfold awaited; by rewrite Epe).
  split; unfold pool, undelivered, all_posts; cbn [client wire worker delivered issued];
    rewrite ?Epe, ?Ew, ?En, ?Eans; try done.
  - by eapply client_ok_tables.
  - by eapply Forall_impl.
  - eapply Forall_impl; [exact Hs|]. cbn. auto.
  - assert (drop n' (posted (disp w)) = drop (n' - n) (drop n (posted (disp w)))) as ->
      by (rewrite drop_drop; f_equal; lia).
    apply Forall_drop. eapply Forall_impl; [exact Hpo|]. intros q Hq He. rewrite Epe. by apply Hq.
  - assert (take n' (posted (disp w)) =
      take n (posted (disp w)) ++ take (n' - n) (drop n (posted (disp w)))) as ->.
    { rewrite take_take_drop. f_equal. lia. }
    eapply Forall_impl; [exact His|]. intros x Hx. unfold settled_by in *. rewrite Epr, Epe.
    destruct (promises c !! task_promise x.2) as [[|d|e]|]; try done.
    + destruct Hx as (q & Hq & Hr). exists q. split; [apply elem_of_app; by left|done].
    + destruct Hx as (q & e' & Hq & Hr). exists q, e'. split; [apply elem_of_app; by left|done].
  - rewrite Ees. by apply Forall_app.
Qed.

Lemma system_ok_step s s' : system_ok s -> system_step hasXHR sw s s' -> system_ok s'.
Proof.
  intros Hok Hs. destruct Hs as [r tr c wi w n l p c' Hi|req c wi w w' n l Ho Hst|c wi w w' n l Hst
    |p c wi w n l Hn|g d c wi w n l].
  - by eapply call_ok.
  - by eapply receive_ok.
  - by eapply work_ok.
  - destruct (post_ends p) eqn:He.
    + pose proof (s_posts _ Hok) as Hpo. unfold undelivered, all_posts in Hpo. cbn in Hpo.
      rewrite (drop_S _ _ _ Hn) in Hpo. apply Forall_cons in Hpo as [Hp _].
      destruct (Hp He) as (task & Ht & Hterm). pose proof (s_client _ Hok) as Hc.
      apply (deliver_answer p c _ wi w n l task Hn He Ht (onMessage_answer sw c _ task p Hc Ht Hterm)); [|done].
      by apply client_ok_message.
    + destruct (onMessage_notice sw c p He) as (H1 & H2 & H3).
      apply (deliver_notice c _ wi w n (S n) l H1 H2 H3); [by apply lookup_lt_Some in Hn| |lia|done].
      rewrite (drop_S _ _ _ Hn). unfold answered_ids. cbn [List.filter]. by rewrite He.
  - apply (deliver_notice c _ wi w n n l); try done; [|apply (s_delivered _ Hok)].
    exists []. by rewrite app_nil_r.
Qed.

Lemma system_reachable_ok w s :
  reachable (system_step hasXHR sw) (eq (initial_system w)) s -> system_ok s.
Proof.
  apply reachable_invariant; [intros ? <-; apply system_ok_initial|].
  intros; by eapply system_ok_step.
Qed.
End Invariant.

(** ** Properties *)

(** C1: Every call of the client gets the answer to its own request: in every
    reachable state of the system, with any number of overlapping calls, suspended
    handlers and foreign messages, the promise of a call is either pending with
    its request still in the table, or fulfilled with the payload of a response
    that the worker posted for its request id with the type its switch expects,
    or rejected with the name and message of an ERROR for its request id; and the
    client never logs an unassociated response. *)
Theorem calls_settle_with_their_own_response {B} `{DuckDBBindings B} hasXHR sw w (s : System B) :
  reachable (system_step hasXHR sw) (eq (initial_system w)) s ->
  (forall id task, (id, task) ∈ issued s ->
     settled_by (take (delivered s) (posted (disp (worker s)))) id task (client s)) /\
  (forall e, e ∈ console (client s) -> is_warning e = false).
Proof.
  intros Hok%system_reachable_ok. split.
  - intros id task Hin. pose proof (s_issued _ Hok) as Hi. rewrite Forall_forall in Hi.
    by apply (Hi (id, task)).
  - pose proof (s_console _ Hok) as Hc. rewrite Forall_forall in Hc. apply Hc.
Qed.

(** C2: No call is forgotten: in every reachable state a call whose promise is
    pending has its request in exactly one place, on its way to the worker, in a
    suspended handler, or as an undelivered response; so once the channels are
    empty and no handler is suspended, every call has settled. *)
Theorem no_call_is_forgotten {B} `{DuckDBBindings B} hasXHR sw w (s : System B) :
  reachable (system_step hasXHR sw) (eq (initial_system w)) s ->
  NoDup (pool s) /\
  (forall id task, (id, task) ∈ issued s -> promises (client s) !! task_promise task = Some Pending ->
     id ∈ pool s) /\
  (wire s = [] -> suspended (worker s) = [] -> delivered s = length (posted (disp (worker s))) ->
   pendingRequests (client s) = ∅ /\
   forall id task, (id, task) ∈ issued s ->
     exists st, promises (client s) !! task_promise task = Some st /\ st <> Pending).
Proof.
  intros Hok%system_reachable_ok. pose proof (s_pool _ Hok) as Hp.
  assert (forall id task, (id, task) ∈ issued s ->
    promises (client s) !! task_promise task = Some Pending -> id ∈ pool s) as Hin.
  { intros id task Hi Hpend. pose proof (s_issued _ Hok) as Hs. rewrite Forall_forall in Hs.
    specialize (Hs _ Hi). unfold settled_by in Hs. cbn in Hs. rewrite Hpend in Hs.
    rewrite Hp. apply list_elem_of_fmap. exists (id, task). split; [done|]. by apply elem_of_map_to_list. }
  split; [rewrite Hp; apply NoDup_fst_map_to_list|]. split; [done|].
  intros Hw Hs Hd.
  assert (pool s = []) as He.
  { unfold pool, undelivered, all_posts. rewrite Hw, Hs, Hd, drop_all. done. }
  split.
  - rewrite He in Hp. apply Permutation_nil in Hp. apply fmap_nil_inv in Hp.
    by apply map_to_list_empty_iff.
  - intros id task Hi. pose proof (s_issued _ Hok) as Hst. rewrite Forall_forall in Hst.
    specialize (Hst _ Hi). unfold settled_by in Hst. cbn in Hst.
    destruct (promises (client s) !! task_promise task) as [[| |]|] eqn:E; try done; [|by eexists..].
    specialize (Hin _ _ Hi E). by rewrite He in Hin; apply not_elem_of_nil in Hin.
Qed.

(** One PING, end to end. *)
Definition ping_client : Client := (issue (fun _ => None) Rq_PING [] (attach 5 new_client).2).2.
Definition ping_task : WorkerTask :=
  {| task_request := Rq_PING; task_promise := fresh (dom (promises (attach 5 new_client).2)) |}.
Definition ping_worker : Worker Recording.State :=
  MkWorker (Dispatcher.onMessage (H := Recording.bindings) true (Build_WorkerRequest 0 Rq_PING)
              initial_dispatcher).2 [].
Definition ping_post : Post :=
  {| post_response := MkResponse 0 0 OK D_null; post_transfer := [] |}.
Definition ping_system : System Recording.State :=
  MkSystem (Client.onMessage true (message_of (post_response ping_post)) ping_client).2 [] ping_worker 1
    [(0, ping_task)].

Lemma ping_reachable :
  reachable (system_step (H := Recording.bindings) true true) (eq (initial_system 5)) ping_system.
Proof.
  eapply reach_step; [|by apply (sys_deliver (H := Recording.bindings) true true ping_post)].
  eapply reach_step; [|apply (sys_receive (H := Recording.bindings) true true (Build_WorkerRequest 0 Rq_PING)
    ping_client [] initial_worker)]; [|done|by apply (ws_message (H := Recording.bindings) true
    (Build_WorkerRequest 0 Rq_PING) initial_dispatcher [] (Normal None))].
  eapply reach_step; [by apply reach_init|].
  by apply (sys_call (H := Recording.bindings) true true Rq_PING [] (attach 5 new_client).2 [] initial_worker 0 []).
Qed.

Lemma calls_settle_with_their_own_response_witness :
  settled_by [ping_post] 0 ping_task (client ping_system) /\
  promises (client ping_system) !! task_promise ping_task = Some (Fulfilled D_null).
Proof.
  split; [|reflexivity].
  exact (proj1 (calls_settle_with_their_own_response (H := Recording.bindings) true true 5 ping_system ping_reachable)
    0 ping_task (list_elem_of_here _ _)).
Defined.

Lemma no_call_is_forgotten_witness :
  pendingRequests (client ping_system) = ∅ /\
  forall id task, (id, task) ∈ issued ping_system ->
    exists st, promises (client ping_system) !! task_promise task = Some st /\ st <> Pending.
Proof.
  exact (proj2 (proj2 (no_call_is_forgotten (H := Recording.bindings) true true 5 ping_system ping_reachable))
    eq_refl eq_refl eq_refl).
Defined.
