(* ===== verification/Vgi.v ===== *)
(** * Vgi: the web worker bridge of the VGI transport ([vgi/webworker-bridge.ts])

    The engine asks the page for a worker that serves a shared memory channel and
    blocks until the page signals that the worker is up.  [Bridge] is the state
    [installVgiWebWorkerBridge] closes over, with what it did to the outside:
    workers spawned and terminated, messages posted, signals given.

    The handler of a request, of a worker's message, of a settled spawn, and the
    start of a queued registration each run without interruption; [bridge_step]
    interleaves them.  Values that other threads keep in the shared memory are
    arguments of the step that loads them.  The [URL] parser and the application's
    resolvers are parameters; console output is left out. *)
From S2P Require Import Prelude Regex JsMap WasmModule S3.
From stdpp Require Import base tactics list gmap sets strings pretty.
From Stdlib Require Import ZArith Ascii Lia.
Open Scope Z_scope.

(** ** Targets and options *)

Record VgiAdapterTarget := { adapterUrl : string; adapterKey : string; canonicalTarget : string }.

Inductive AllowedOrigins := allow_none | allow_any | allow_list (l : list string).

Record VgiWebWorkerBridgeOptions := {
  o_resolveWorkerUrl : option (string -> Outcome (option string));
  o_resolveAdapterTarget : option (string -> Outcome (option VgiAdapterTarget));
  irohAdapterWorker : option Z;
  o_resolveIrohTarget : option (string -> Outcome (option string));
  o_maxTargetsPerAdapter : option Z;
  allowRemoteOrigins : AllowedOrigins
}.

(** [Number.isSafeInteger(n)], for an integer *)
Definition isSafeInteger (n : Z) : bool := (- (2 ^ 53 - 1) <=? n) && (n <=? 2 ^ 53 - 1).

Definition validName (value : string) : bool :=
  negb (String.length value =? 0)%nat && (Z.of_nat (String.length value) <=? 4096) &&
  forallb (fun c => negb ((nat_of_ascii c <? 32)%nat || (nat_of_ascii c =? 127)%nat)) (chars value).

(** *** The patterns of built-in targets *)

(** [/^r$/.test(value)] *)
Definition test_whole (r : regex) (value : string) : bool :=
  match match_re r (fun s => match rest s with [] => Some tt | _ => None end) (MkSt None (chars value) None) with
  | Some _ => true
  | None => false
  end.

Fixpoint rtimes (n : nat) (r : regex) : regex :=
  match n with O => REmpty | S n' => RSeq r (rtimes n' r) end.

Definition between (c lo hi : ascii) : bool :=
  (nat_of_ascii lo <=? nat_of_ascii c)%nat && (nat_of_ascii c <=? nat_of_ascii hi)%nat.
(** [[0-9a-f]] *)
Definition hex_digit : regex := RChar (fun c => between c "0" "9" || between c "a" "f").
(** [[A-Za-z0-9._~!$&'()*+,;=:@-]] *)
Definition segment_char : regex :=
  RChar (fun c => between c "A" "Z" || between c "a" "z" || between c "0" "9" ||
                  bool_decide (c ∈ chars "._~!$&'()*+,;=:@-")).

Definition IROH_TARGET : regex := RSeq (lit (chars "iroh://")) (rtimes 64 hex_digit).
Definition HTTPI_TARGET : regex :=
  RSeq (lit (chars "httpi://")) (RSeq (rtimes 64 hex_digit)
    (ropt (RSeq (chr "/") (RSeq (rplus segment_char) (RStar true (RSeq (chr "/") (rplus segment_char))))))).

Definition canonicalIrohTarget (value : string) : option string :=
  if test_whole IROH_TARGET value then Some value else None.
Definition canonicalHttpiTarget (value : string) : option string :=
  if test_whole HTTPI_TARGET value then Some value else None.
Definition canonicalBuiltInIrohTarget (value : string) : option string :=
  match canonicalIrohTarget value with Some v => Some v | None => canonicalHttpiTarget value end.

Definition toLowerCase (s : string) : string := String.string_of_list_ascii (map lower (chars s)).

(** ** State *)

Record TargetRegion := { target : string; offset : Z; buffer : Z; lastUsed : Z }.

(** A call of [ensureAdapterRegion] in an adapter's queue: not started, or waiting
    for the answer to a registration. *)
Inductive OpPhase := Queued | Registering (requestId : string) (next : TargetRegion).
Record Operation := {
  op_request : Z; op_target : string; op_offset : Z; op_buffer : Z; op_phase : OpPhase
}.

Record AdapterEntry := {
  key : string; url : string; worker : Z;
  regions : list (string * TargetRegion);
  registrationQueue : list Operation
}.

(** The message of the engine; [er_offset] is missing if it is no integer. *)
Record EnsureRequest := {
  er_id : Z; er_location : string; er_offset : option Z; er_buffer : option Z
}.

(** A request that waits for the boot another one started; for an adapter it then
    has its own region registered. *)
Inductive Joiner :=
| J_plain (j_request : Z)
| J_adapter (j_request : Z) (j_url j_target : string) (j_offset j_buffer : Z).

Inductive BootKind :=
| Boot_plain (b_offset b_buffer : option Z)
| Boot_adapter (b_key : string) (first : TargetRegion) (application : option Z).
Inductive BootPhase := Spawning | Handshaking | Settled.
Record Boot := {
  b_kind : BootKind; b_url : string; b_phase : BootPhase; b_owner : Z; b_joiners : list Joiner
}.

Inductive VgiPost :=
| vgi_init (b_key b_target : option string) (b_offset b_buffer : option Z) (baseUrl : string)
| vgi_register_target (requestId : string) (r : TargetRegion) (baseUrl : string)
| vgi_unregister_target (r_target : string) (r_offset : Z).

(** What a worker runs: the script at a URL, or a remote one that was fetched. *)
Inductive Script := from_url (u : string) | from_blob (u : string) (source : Z).
Record FetchResponse := { fr_ok : bool; fr_status : Z; fr_statusText : string; fr_blob : Z }.

Record WorkerMessage := { wm_type : string; wm_requestId : option string; wm_error : option string }.

Record Bridge := MkBridge {
  workers : gmap string Z;
  pending : gmap string Z;
  adapters : gmap string AdapterEntry;
  pendingAdapters : gmap string Z;
  boots : gmap Z Boot;
  nextBoot : Z;
  touch : Z;
  registrationSequence : Z;
  listeners : list (Z * Z);           (** boot listeners: worker, boot *)
  spawned : list (Z * Script);        (** [new Worker] *)
  terminated : list Z;
  posts : list (Z * VgiPost);
  forwarded : list (Z * WorkerMessage);
  signals : list (Z * Z)              (** request, 1 or -1 *)
}.

Definition initial_bridge : Bridge := MkBridge ∅ ∅ ∅ ∅ ∅ 0 0 0 [] [] [] [] [] [].

(** *** Field updates *)

Definition set_workers w (s : Bridge) : Bridge :=
  MkBridge w (pending s) (adapters s) (pendingAdapters s) (boots s) (nextBoot s) (touch s)
    (registrationSequence s) (listeners s) (spawned s) (terminated s) (posts s) (forwarded s)
    (signals s).
Definition set_pending p (s : Bridge) : Bridge :=
  MkBridge (workers s) p (adapters s) (pendingAdapters s) (boots s) (nextBoot s) (touch s)
    (registrationSequence s) (listeners s) (spawned s) (terminated s) (posts s) (forwarded s)
    (signals s).
Definition set_adapters a (s : Bridge) : Bridge :=
  MkBridge (workers s) (pending s) a (pendingAdapters s) (boots s) (nextBoot s) (touch s)
    (registrationSequence s) (listeners s) (spawned s) (terminated s) (posts s) (forwarded s)
    (signals s).
Definition set_pendingAdapters p (s : Bridge) : Bridge :=
  MkBridge (workers s) (pending s) (adapters s) p (boots s) (nextBoot s) (touch s)
    (registrationSequence s) (listeners s) (spawned s) (terminated s) (posts s) (forwarded s)
    (signals s).
Definition set_boots b (s : Bridge) : Bridge :=
  MkBridge (workers s) (pending s) (adapters s) (pendingAdapters s) b (nextBoot s) (touch s)
    (registrationSequence s) (listeners s) (spawned s) (terminated s) (posts s) (forwarded s)
    (signals s).
Definition set_nextBoot n (s : Bridge) : Bridge :=
  MkBridge (workers s) (pending s) (adapters s) (pendingAdapters s) (boots s) n (touch s)
    (registrationSequence s) (listeners s) (spawned s) (terminated s) (posts s) (forwarded s)
    (signals s).
Definition set_touch n (s : Bridge) : Bridge :=
  MkBridge (workers s) (pending s) (adapters s) (pendingAdapters s) (boots s) (nextBoot s) n
    (registrationSequence s) (listeners s) (spawned s) (terminated s) (posts s) (forwarded s)
    (signals s).
Definition set_sequence n (s : Bridge) : Bridge :=
  MkBridge (workers s) (pending s) (adapters s) (pendingAdapters s) (boots s) (nextBoot s) (touch s) n
    (listeners s) (spawned s) (terminated s) (posts s) (forwarded s) (signals s).
Definition set_listeners l (s : Bridge) : Bridge :=
  MkBridge (workers s) (pending s) (adapters s) (pendingAdapters s) (boots s) (nextBoot s) (touch s)
    (registrationSequence s) l (spawned s) (terminated s) (posts s) (forwarded s) (signals s).
Definition add_spawned w (s : Bridge) : Bridge :=
  MkBridge (workers s) (pending s) (adapters s) (pendingAdapters s) (boots s) (nextBoot s) (touch s)
    (registrationSequence s) (listeners s) (spawned s ++ [w]) (terminated s) (posts s)
    (forwarded s) (signals s).
Definition add_terminated w (s : Bridge) : Bridge :=
  MkBridge (workers s) (pending s) (adapters s) (pendingAdapters s) (boots s) (nextBoot s) (touch s)
    (registrationSequence s) (listeners s) (spawned s) (terminated s ++ [w]) (posts s)
    (forwarded s) (signals s).
Definition add_post p (s : Bridge) : Bridge :=
  MkBridge (workers s) (pending s) (adapters s) (pendingAdapters s) (boots s) (nextBoot s) (touch s)
    (registrationSequence s) (listeners s) (spawned s) (terminated s) (posts s ++ [p])
    (forwarded s) (signals s).
Definition add_forwarded m (s : Bridge) : Bridge :=
  MkBridge (workers s) (pending s) (adapters s) (pendingAdapters s) (boots s) (nextBoot s) (touch s)
    (registrationSequence s) (listeners s) (spawned s) (terminated s) (posts s)
    (forwarded s ++ [m]) (signals s).
Definition add_signal x (s : Bridge) : Bridge :=
  MkBridge (workers s) (pending s) (adapters s) (pendingAdapters s) (boots s) (nextBoot s) (touch s)
    (registrationSequence s) (listeners s) (spawned s) (terminated s) (posts s) (forwarded s)
    (signals s ++ [x]).

(** *** Which scripts may run *)

Section Resolvers.
Context (parse_URL : string -> string -> Outcome (string * string))   (** [new URL(location, base)]: href and origin *)
  (page_href page_origin : string).                                   (** [self.location] *)

Definition makeResolveWorkerUrl (allow : AllowedOrigins) (location : string) : option string :=
  match parse_URL location page_href with
  | Thrown _ => None
  | Normal (href, origin) =>
      if String.eqb origin page_origin then Some href
      else match allow with
           | allow_any => Some href
           | allow_list l => if bool_decide (origin ∈ l) then Some href else None
           | allow_none => None
           end
  end.

Definition resolveWorkerUrl (opts : VgiWebWorkerBridgeOptions) (location : string) : Outcome (option string) :=
  match o_resolveWorkerUrl opts with
  | Some f => f location
  | None => Normal (makeResolveWorkerUrl (allowRemoteOrigins opts) location)
  end.

(** The checks at installation: the bound on the regions of an adapter. *)
Definition installVgiWebWorkerBridge (opts : VgiWebWorkerBridgeOptions) : Outcome Z :=
  let max := default 32 (o_maxTargetsPerAdapter opts) in
  if negb (isSafeInteger max) || (max <=? 0)
  then Thrown (Error "maxTargetsPerAdapter must be a positive integer") else Normal max.

Definition is_iroh (location : string) : bool := startsWith "iroh://" (toLowerCase location).
Definition is_httpi (location : string) : bool := startsWith "httpi://" (toLowerCase location).

(** The target of a request for an adapter, with the application's worker if it
    serves it; [None] is a refusal.  A resolver of the application may throw. *)
Definition requested_target (opts : VgiWebWorkerBridgeOptions) (location : string)
    : Outcome (option (VgiAdapterTarget * option Z)) :=
  if is_iroh location || is_httpi location then
    match canonicalBuiltInIrohTarget location, irohAdapterWorker opts with
    | Some canonical, Some app =>
        let resolved := match o_resolveIrohTarget opts with
                        | Some f => f canonical
                        | None => Normal (Some canonical)
                        end in
        match resolved with
        | Thrown _ => Normal None
        | Normal o =>
            match o ≫= canonicalBuiltInIrohTarget with
            | Some c =>
                if String.eqb (before ":" c) (before ":" canonical) then
                  Normal (Some ({| adapterUrl := page_href;
                                   adapterKey := "__vgi_application_iroh_adapter_v1__";
                                   canonicalTarget := c |}, Some app))
                else Normal None
            | None => Normal None
            end
        end
    | _, _ => Normal None
    end
  else
    match o_resolveAdapterTarget opts with
    | Some f => outcome_map (option_map (fun t => (t, None))) (f location)
    | None => Normal None
    end.

(** The worker's script: the application's own worker is not resolved again. *)
Definition adapter_script (opts : VgiWebWorkerBridgeOptions) (t : VgiAdapterTarget) (app : option Z)
    : Outcome (option string) :=
  match app with
  | Some _ => Normal (Some (adapterUrl t))
  | None => resolveWorkerUrl opts (adapterUrl t)
  end.
End Resolvers.

(** ** Regions in the shared memory *)

(** [load b i]: what [Atomics.load] finds in lane [i] of buffer [b]; [None] out of range. *)
Definition Lanes : Type := Z -> Z -> option Z.

Definition regionIsIdle (load : Lanes) (r : TargetRegion) : bool :=
  isSafeInteger (offset r) && (0 <=? offset r) && (Z.land (offset r) 3 =? 0) &&
  let h := shr32 (offset r) 2 in
  match load (buffer r) (h + 2), load (buffer r) (h + 4), load (buffer r) (h + 5) with
  | Some nSlots, Some stride, Some slotsOff =>
      negb ((nSlots <=? 0) || (1024 <? nSlots) || (stride <? 64) || (slotsOff <? 64)) &&
      forallb (fun slot =>
        let state := shr32 (offset r + slotsOff + slot * stride) 2 in
        (0 <=? state) && bool_decide (load (buffer r) state = Some 0))
        (seqZ 0 nSlots)
  | _, _, _ => false
  end.

(** The idle region that was used least recently. *)
Definition least_recently_used (l : list TargetRegion) : option TargetRegion :=
  foldl (fun best r => match best with
                       | Some b => if lastUsed r <? lastUsed b then Some r else best
                       | None => Some r
                       end) None l.

(** ** The bridge *)

Section Bridge.
Context (parse_URL : string -> string -> Outcome (string * string)) (page_href page_origin : string)
  (opts : VgiWebWorkerBridgeOptions) (maxTargetsPerAdapter : Z).

Definition signal (request v : Z) : JS Bridge unit := modify (add_signal (request, v)).
Definition post_to (w : Z) (m : VgiPost) : JS Bridge unit := modify (add_post (w, m)).
Definition set_entry (k : string) (e : AdapterEntry) : JS Bridge unit :=
  modify (fun s => set_adapters (<[k := e]> (adapters s)) s).
Definition with_queue (q : list Operation) (e : AdapterEntry) : AdapterEntry :=
  {| key := key e; url := url e; worker := worker e; regions := regions e; registrationQueue := q |}.
Definition with_regions (rs : list (string * TargetRegion)) (e : AdapterEntry) : AdapterEntry :=
  {| key := key e; url := url e; worker := worker e; regions := rs; registrationQueue := registrationQueue e |}.

(** [++touch] *)
Definition next_touch : JS Bridge Z :=
  modify (fun s => set_touch (touch s + 1) s) ;;; gets touch.

(** *** Registering regions with an adapter *)

Definition ensureAdapterRegion (k : string) (request : Z) (t : string) (o b : Z) : JS Bridge unit :=
  let! e := gets (fun s => adapters s !! k) in
  match e with
  | Some e => set_entry k (with_queue (registrationQueue e ++
      [{| op_request := request; op_target := t; op_offset := o; op_buffer := b; op_phase := Queued |}]) e)
  | None => ret tt
  end.

(** [finish], for a request of script [u]. *)
Definition finish (k : string) (request : Z) (u t : string) (o b : Z) : JS Bridge unit :=
  let! e := gets (fun s => adapters s !! k) in
  match e with
  | Some e => if String.eqb (url e) u then ensureAdapterRegion k request t o b else signal request (-1)
  | None => ret tt
  end.

(** The first operation of the queue settled. *)
Definition operation_settled (k : string) (e : AdapterEntry) (op : Operation) (v : Z) : JS Bridge unit :=
  set_entry k (with_queue (tail (registrationQueue e)) e) ;;;
  signal (op_request op) v.

Definition request_id (n : Z) : string := "vgi-target-" +:+ pretty n.

(** The regions that make room for the operation's: its target's old one, others
    at the same place, or the idle one used least recently when there is no room. *)
Definition conflicts (load : Lanes) (e : AdapterEntry) (op : Operation) : option (list TargetRegion) :=
  let current := mget (op_target op) (regions e) in
  let others := snd <$> filter (fun kr : string * TargetRegion =>
    kr.1 <> op_target op /\ offset kr.2 = op_offset op /\ buffer kr.2 = op_buffer op) (regions e) in
  let found := option_list current ++ others in
  if bool_decide (found = []) && (maxTargetsPerAdapter <=? lenZ (regions e)) then
    option_map (fun v => [v]) (least_recently_used (filter (fun r => Is_true (regionIsIdle load r)) (snd <$> regions e)))
  else Some found.

(** Making room and asking the worker to register the region: the operation is
    then at its [await].  [load1] and [load2] are the two looks at the slots. *)
Definition rebind (load1 load2 : Lanes) (k : string) (e : AdapterEntry) (op : Operation) : JS Bridge unit :=
  match conflicts load1 e op with
  | None => operation_settled k e op (-1)
  | Some rs =>
      if negb (forallb (regionIsIdle load2) rs) then operation_settled k e op (-1)
      else
        let! n := next_touch in
        for_of rs (fun r => post_to (worker e) (vgi_unregister_target (target r) (offset r))) ;;;
        modify (fun s => set_sequence (registrationSequence s + 1) s) ;;;
        let! seq := gets registrationSequence in
        let next := {| target := op_target op; offset := op_offset op; buffer := op_buffer op; lastUsed := n |} in
        let waiting := {| op_request := op_request op; op_target := op_target op; op_offset := op_offset op;
                          op_buffer := op_buffer op; op_phase := Registering (request_id seq) next |} in
        set_entry k (with_queue (waiting :: tail (registrationQueue e))
          (with_regions (foldl (fun m r => mdelete (target r) m) (regions e) rs) e)) ;;;
        post_to (worker e) (vgi_register_target (request_id seq) next (url e))
  end.

(** The operation up to its first [await]. *)
Definition start_operation (load1 load2 : Lanes) (k : string) (e : AdapterEntry) (op : Operation) : JS Bridge unit :=
  match mget (op_target op) (regions e) with
  | Some current =>
      if (offset current =? op_offset op) && (buffer current =? op_buffer op) then
        let! n := next_touch in
        operation_settled k (with_regions (mset (op_target op)
          {| target := target current; offset := offset current; buffer := buffer current; lastUsed := n |}
          (regions e)) e) op 1
      else rebind load1 load2 k e op
  | None => rebind load1 load2 k e op
  end.

(** The answer to a registration, or its timeout. *)
Definition registration_settled (k : string) (e : AdapterEntry) (op : Operation) (next : TargetRegion) (ok : bool)
    : JS Bridge unit :=
  if ok then operation_settled k (with_regions (mset (op_target op) next (regions e)) e) op 1
  else operation_settled k e op (-1).

(** The queue of adapter [k] moves: its first operation starts, or times out. *)
Definition queue_step (load1 load2 : Lanes) (k : string) : JS Bridge unit :=
  let! e := gets (fun s => adapters s !! k) in
  match e with
  | Some e =>
      match registrationQueue e with
      | op :: _ =>
          match op_phase op with
          | Queued => start_operation load1 load2 k e op
          | Registering _ _ => ret tt
          end
      | [] => ret tt
      end
  | None => ret tt
  end.

Definition registration_timeout (k : string) : JS Bridge unit :=
  let! e := gets (fun s => adapters s !! k) in
  match e with
  | Some e =>
      match registrationQueue e with
      | op :: _ =>
          match op_phase op with
          | Registering _ next => registration_settled k e op next false
          | Queued => ret tt
          end
      | [] => ret tt
      end
  | None => ret tt
  end.

(** *** Booting workers *)

Definition spawnWorker (fetch : string -> Outcome FetchResponse) (u : string) : Outcome Script :=
  let isSameOrigin := match parse_URL u page_href with
                      | Normal (_, origin) => String.eqb origin page_origin
                      | Thrown _ => false
                      end in
  if isSameOrigin then Normal (from_url u)
  else match fetch u with
       | Thrown e => Thrown e
       | Normal res =>
           if negb (fr_ok res) then
             Thrown (Error ("fetch " +:+ u +:+ " failed: " +:+ pretty (fr_status res) +:+ " " +:+ fr_statusText res))
           else Normal (from_blob u (fr_blob res))
       end.

Definition start_boot (bt : Boot) : JS Bridge Z :=
  let! n := gets nextBoot in
  modify (set_nextBoot (n + 1)) ;;;
  modify (fun s => set_boots (<[n := bt]> (boots s)) s) ;;;
  ret n.

Definition join_boot (b : Z) (j : Joiner) : JS Bridge unit :=
  modify (fun s => set_boots (alter (fun bt =>
    {| b_kind := b_kind bt; b_url := b_url bt; b_phase := b_phase bt; b_owner := b_owner bt;
       b_joiners := b_joiners bt ++ [j] |}) b (boots s)) s).

Definition settle_joiner (ok : bool) (k : option string) (j : Joiner) : JS Bridge unit :=
  match j, k with
  | J_adapter r u t o b, Some k => if ok then finish k r u t o b else signal r (-1)
  | J_plain r, _ => signal r (if ok then 1 else -1)
  | J_adapter r _ _ _ _, None => ret tt
  end.

(** [resolve] or [reject], once: the boot is no longer pending, and those who wait
    for it go on in order. *)
Definition settle_boot (b : Z) (ok : bool) : JS Bridge unit :=
  let! bt := gets (fun s => boots s !! b) in
  match bt with
  | None => ret tt
  | Some bt =>
      match b_phase bt with
      | Settled => ret tt
      | _ =>
          modify (fun s => set_boots (<[b := {| b_kind := b_kind bt; b_url := b_url bt; b_phase := Settled;
                                                b_owner := b_owner bt; b_joiners := [] |}]> (boots s)) s) ;;;
          let k := match b_kind bt with Boot_adapter k _ _ => Some k | Boot_plain _ _ => None end in
          modify (fun s => match k with
                           | Some k => set_pendingAdapters (delete k (pendingAdapters s)) s
                           | None => set_pending (delete (b_url bt) (pending s)) s
                           end) ;;;
          signal (b_owner bt) (if ok then 1 else -1) ;;;
          for_of (b_joiners bt) (settle_joiner ok k)
      end
  end.

Definition set_phase (b : Z) (p : BootPhase) : JS Bridge unit :=
  modify (fun s => set_boots (alter (fun bt =>
    {| b_kind := b_kind bt; b_url := b_url bt; b_phase := p; b_owner := b_owner bt;
       b_joiners := b_joiners bt |}) b (boots s)) s).

(** The worker of a boot is there: the listener is added and [vgi-init] posted. *)
Definition handshake (b w : Z) (bt : Boot) : JS Bridge unit :=
  set_phase b Handshaking ;;;
  modify (fun s => set_listeners (listeners s ++ [(w, b)]) s) ;;;
  post_to w (match b_kind bt with
             | Boot_plain o bf => vgi_init None None o bf (b_url bt)
             | Boot_adapter k r _ => vgi_init (Some k) (Some (target r)) (Some (offset r)) (Some (buffer r)) (b_url bt)
             end).

(** [spawnWorker] settled with [fetch]'s answer, the new worker being [w], or
    [Promise.resolve(applicationWorker)] did. *)
Definition spawn_settled (fetch : string -> Outcome FetchResponse) (w b : Z) : JS Bridge unit :=
  let! bt := gets (fun s => boots s !! b) in
  match bt with
  | Some bt =>
      match b_phase bt, b_kind bt with
      | Spawning, Boot_adapter _ _ (Some app) => handshake b app bt
      | Spawning, _ =>
          match spawnWorker fetch (b_url bt) with
          | Normal script => modify (add_spawned (w, script)) ;;; handshake b w bt
          | Thrown _ => settle_boot b false
          end
      | _, _ => ret tt
      end
  | None => ret tt
  end.

(** *** Messages of workers *)

Definition remove_listener (w b : Z) : JS Bridge unit :=
  modify (fun s => set_listeners (filter (fun l => l <> (w, b)) (listeners s)) s).
Definition forward (w : Z) (m : WorkerMessage) : JS Bridge unit := modify (add_forwarded (w, m)).

(** [onMsg] and [onBootMessage] *)
Definition on_boot_message (w b : Z) (m : WorkerMessage) : JS Bridge unit :=
  let! bt := gets (fun s => boots s !! b) in
  match bt with
  | None => ret tt
  | Some bt =>
      if String.eqb (wm_type m) "vgi-ready" then
        match b_kind bt with
        | Boot_plain _ _ => modify (fun s => set_workers (<[b_url bt := w]> (workers s)) s)
        | Boot_adapter k r _ =>
            remove_listener w b ;;;
            set_entry k {| key := k; url := b_url bt; worker := w; regions := [(target r, r)];
                           registrationQueue := [] |}
        end ;;;
        settle_boot b true
      else if String.eqb (wm_type m) "vgi-error" then
        remove_listener w b ;;;
        match b_kind bt with
        | Boot_adapter _ _ (Some _) => ret tt
        | _ => modify (add_terminated w)
        end ;;;
        settle_boot b false
      else forward w m
  end.

Definition is_target_answer (m : WorkerMessage) : bool :=
  String.eqb (wm_type m) "vgi-target-ready" || String.eqb (wm_type m) "vgi-target-error".

(** The listener of a booted adapter, and of the registration in progress. *)
Definition on_adapter_message (m : WorkerMessage) (k : string) : JS Bridge unit :=
  let! e := gets (fun s => adapters s !! k) in
  match e with
  | None => ret tt
  | Some e =>
      when negb (is_target_answer m) then forward (worker e) m ;;;
      match registrationQueue e with
      | op :: _ =>
          match op_phase op with
          | Registering id next =>
              when is_target_answer m && bool_decide (wm_requestId m = Some id) then
                registration_settled k e op next (String.eqb (wm_type m) "vgi-target-ready")
          | Queued => ret tt
          end
      | [] => ret tt
      end
  end.

(** A message event goes to the listeners that are there when it is dispatched. *)
Definition on_worker_message (w : Z) (m : WorkerMessage) : JS Bridge unit :=
  let! bs := gets (fun s => filter (fun l => l.1 = w) (listeners s)) in
  let! ks := gets (fun s => fst <$> filter (fun ke => worker ke.2 = w) (map_to_list (adapters s))) in
  for_of bs (fun l => on_boot_message w l.2 m) ;;;
  for_of ks (on_adapter_message m).

(** *** Requests of the engine *)

Definition some_nonempty (o : option string) : option string :=
  match o with Some (String c u) => Some (String c u) | _ => None end.

Definition on_adapter_request (r : EnsureRequest) (o b : Z) (t : VgiAdapterTarget) (app : option Z) (u : string)
    : JS Bridge unit :=
  let! existing := gets (fun s => adapters s !! adapterKey t) in
  let! inflightAdapter := gets (fun s => pendingAdapters s !! adapterKey t) in
  match existing, inflightAdapter with
  | Some _, _ => finish (adapterKey t) (er_id r) u (canonicalTarget t) o b
  | None, Some boot => join_boot boot (J_adapter (er_id r) u (canonicalTarget t) o b)
  | None, None =>
      let! n := next_touch in
      let first := {| target := canonicalTarget t; offset := o; buffer := b; lastUsed := n |} in
      let! boot := start_boot {| b_kind := Boot_adapter (adapterKey t) first app; b_url := u; b_phase := Spawning;
                                 b_owner := er_id r; b_joiners := [] |} in
      modify (fun s => set_pendingAdapters (<[adapterKey t := boot]> (pendingAdapters s)) s)
  end.

Definition on_plain_request (r : EnsureRequest) (u : string) : JS Bridge unit :=
  let! running := gets (fun s => workers s !! u) in
  let! inflight := gets (fun s => pending s !! u) in
  match running, inflight with
  | Some _, _ => signal (er_id r) 1
  | None, Some boot => join_boot boot (J_plain (er_id r))
  | None, None =>
      let! boot := start_boot {| b_kind := Boot_plain (er_offset r) (er_buffer r); b_url := u; b_phase := Spawning;
                                 b_owner := er_id r; b_joiners := [] |} in
      modify (fun s => set_pending (<[u := boot]> (pending s)) s)
  end.

Definition lift_b {A} (o : Outcome A) : JS Bridge A := match o with Normal a => ret a | Thrown e => throw e end.

Definition on_ensure (r : EnsureRequest) : JS Bridge unit :=
  let location := er_location r in
  if is_iroh location || is_httpi location || bool_decide (is_Some (o_resolveAdapterTarget opts)) then
    match er_offset r, er_buffer r with
    | Some o, Some b =>
        if negb (isSafeInteger o) then signal (er_id r) (-1)
        else
          let! requested := lift_b (requested_target page_href opts location) in
          match requested with
          | None => signal (er_id r) (-1)
          | Some (t, app) =>
              if negb (validName (adapterKey t)) || negb (validName (canonicalTarget t)) then signal (er_id r) (-1)
              else
                let! u := lift_b (adapter_script parse_URL page_href page_origin opts t app) in
                match some_nonempty u with
                | None => signal (er_id r) (-1)
                | Some u => on_adapter_request r o b t app u
                end
          end
    | _, _ => signal (er_id r) (-1)
    end
  else
    let! u := lift_b (resolveWorkerUrl parse_URL page_href page_origin opts location) in
    match some_nonempty u with
    | None => signal (er_id r) (-1)
    | Some u => on_plain_request r u
    end.

(** A step receives a request, or none. *)
Inductive bridge_step : option EnsureRequest -> Bridge -> Bridge -> Prop :=
| bs_ensure r s : bridge_step (Some r) s (on_ensure r s).2
| bs_spawn fetch w b s :
    w ∉ (fst <$> spawned s) -> Some w <> irohAdapterWorker opts ->
    bridge_step None s (spawn_settled fetch w b s).2
| bs_message w m s : bridge_step None s (on_worker_message w m s).2
| bs_queue load1 load2 k s : bridge_step None s (queue_step load1 load2 k s).2
| bs_timeout k s : bridge_step None s (registration_timeout k s).2.

(** [bridge_run ids s]: [s] is reached after receiving requests [ids], in order. *)
Inductive bridge_run : list Z -> Bridge -> Prop :=
| br_init : bridge_run [] initial_bridge
| br_step ids s r s' : bridge_run ids s -> bridge_step r s s' ->
    bridge_run (ids ++ match r with Some r => [er_id r] | None => [] end) s'.
End Bridge.
