(* ===== verification/VgiRequests.v ===== *)
(** * VgiRequests: every request for a worker is accounted for

    The engine's thread blocks until its request is signalled.  [bridge_ok] ties the
    boots in progress to the maps that find them; with it, a request that was
    received has been signalled, or waits for a boot or in the queue of an adapter,
    never both and never twice. *)
From S2P Require Import Prelude Regex JsMap WasmModule S3 Vgi.
From stdpp Require Import base tactics list gmap strings.
From Stdlib Require Import ZArith Lia.
Open Scope Z_scope.

(** ** Sums over a map *)

Section Sums.
Context {K A : Type} `{Countable K} (f : A -> nat).

Definition sum_of (m : gmap K A) : nat := map_fold (fun _ a n => (f a + n)%nat) 0%nat m.

Lemma sum_of_delete (m : gmap K A) k a : m !! k = Some a -> sum_of m = (f a + sum_of (delete k m))%nat.
Proof. intros Hk. unfold sum_of. by rewrite (map_fold_delete_L (fun _ a n => (f a + n)%nat) 0%nat k a m) by (done || intros; lia). Qed.
Lemma sum_of_fresh (m : gmap K A) k a : m !! k = None -> sum_of (<[k := a]> m) = (f a + sum_of m)%nat.
Proof. intros Hk. unfold sum_of. by rewrite (map_fold_insert_L (fun _ a n => (f a + n)%nat) 0%nat k a m) by (done || intros; lia). Qed.
Lemma sum_of_replace (m : gmap K A) k a a' : m !! k = Some a ->
  (sum_of (<[k := a']> m) + f a = f a' + sum_of m)%nat.
Proof.
  intros Hk. rewrite <- insert_delete_eq, sum_of_fresh, (sum_of_delete m k a Hk) by apply lookup_delete_eq. lia.
Qed.
End Sums.

(** ** What waits *)

Definition occurrences (x : Z) (l : list Z) : nat := length (filter (fun y => y = x) l).
Definition joiner_request (j : Joiner) : Z := match j with J_plain r => r | J_adapter r _ _ _ _ => r end.
Definition settled (bt : Boot) : bool := match b_phase bt with Settled => true | _ => false end.
Definition boot_requests (bt : Boot) : list Z :=
  if settled bt then [] else b_owner bt :: (joiner_request <$> b_joiners bt).

Definition waiting (x : Z) (s : Bridge) : nat :=
  (sum_of (fun bt => occurrences x (boot_requests bt)) (boots s) +
   sum_of (fun e => occurrences x (op_request <$> registrationQueue e)) (adapters s))%nat.
(** How often request [x] was signalled or waits. *)
Definition accounted (x : Z) (s : Bridge) : nat := (occurrences x (signals s).*1 + waiting x s)%nat.

Lemma occurrences_app x l l' : occurrences x (l ++ l') = (occurrences x l + occurrences x l')%nat.
Proof. unfold occurrences. by rewrite filter_app, length_app. Qed.
Lemma occurrences_cons x y l : occurrences x (y :: l) = (occurrences x [y] + occurrences x l)%nat.
Proof. apply (occurrences_app x [y] l). Qed.

(** ** The invariant *)

Definition adapter_of (bt : Boot) : option string :=
  match b_kind bt with Boot_adapter k _ _ => Some k | Boot_plain _ _ => None end.
Definition is_plain_joiner (j : Joiner) : Prop := match j with J_plain _ => True | _ => False end.

(** A boot in progress is the one its map finds. *)
Definition boot_ok (s : Bridge) (b : Z) (bt : Boot) : Prop :=
  b < nextBoot s /\
  match b_phase bt with
  | Settled => True
  | p => match adapter_of bt with
         | Some k => pendingAdapters s !! k = Some b /\ adapters s !! k = None
         | None => pending s !! b_url bt = Some b /\ Forall is_plain_joiner (b_joiners bt)
         end /\ (p = Spawning -> forall w, (w, b) ∉ listeners s)
  end.

(** [skip] is a boot that is being settled. *)
Record bridge_ok_but (skip : option Z) (s : Bridge) : Prop := {
  ok_boots b bt : skip <> Some b -> boots s !! b = Some bt -> boot_ok s b bt;
  ok_pending u b : pending s !! u = Some b ->
    exists bt, boots s !! b = Some bt /\ settled bt = false /\ adapter_of bt = None /\ b_url bt = u;
  ok_pendingAdapters k b : pendingAdapters s !! k = Some b ->
    exists bt, boots s !! b = Some bt /\ settled bt = false /\ adapter_of bt = Some k;
  ok_listeners w b : (w, b) ∈ listeners s ->
    exists bt, boots s !! b = Some bt /\ (is_Some (adapter_of bt) -> b_phase bt = Handshaking);
  ok_once : NoDup (listeners s).*2
}.
Abbreviation bridge_ok := (bridge_ok_but None).

(** What the invariant looks at. *)
Lemma bridge_ok_ext skip s s' : bridge_ok_but skip s ->
  boots s' = boots s -> nextBoot s' = nextBoot s -> pending s' = pending s -> pendingAdapters s' = pendingAdapters s ->
  listeners s' = listeners s -> (forall k, adapters s !! k = None -> adapters s' !! k = None) -> bridge_ok_but skip s'.
Proof.
  intros [H1 H2 H3 H4 H5] E1 E2 E3 E4 E5 E6.
  split; rewrite ?E1, ?E3, ?E4, ?E5; try done. intros b bt Hsk Hb. specialize (H1 b bt Hsk Hb). unfold boot_ok in *.
  rewrite E2, E3, E4, E5. destruct (b_phase bt), (adapter_of bt); naive_solver.
Qed.

(** A part of a handler that cannot throw, keeps the invariant and adds [n] to what is accounted of [x]. *)
Definition keeps (x : Z) (n : nat) (m : JS Bridge unit) (s : Bridge) : Prop :=
  exists s', m s = (Normal tt, s') /\ bridge_ok s' /\ accounted x s' = (n + accounted x s)%nat.

Section Keeps.
Context (x : Z).
Abbreviation queued := (fun e => occurrences x (op_request <$> registrationQueue e)).

Lemma keeps_bind n1 n2 (m : JS Bridge unit) k s : keeps x n1 m s ->
  (forall s', m s = (Normal tt, s') -> bridge_ok s' -> keeps x n2 (k tt) s') -> keeps x (n1 + n2) (bind m k) s.
Proof.
  intros (s1 & E1 & Hs1 & A1) H. destruct (H s1 E1 Hs1) as (s2 & E2 & Hs2 & A2). exists s2.
  unfold bind. rewrite E1. split; [done|]. split; [done|lia].
Qed.
Lemma keeps_ret s : bridge_ok s -> keeps x 0 (ret tt) s.
Proof. by exists s. Qed.
Lemma keeps_when (b : bool) n m s : (b = true -> keeps x n m s) -> (b = false -> n = 0%nat) -> bridge_ok s ->
  keeps x n (when b then m) s.
Proof. intros H1 H2 Hs. destruct b; [by apply H1|]. rewrite H2 by done. by apply keeps_ret. Qed.

(** A change of the fields that only record, or count. *)
Lemma keeps_modify f s : bridge_ok s -> bridge_ok (f s) -> accounted x (f s) = accounted x s -> keeps x 0 (modify f) s.
Proof. intros. exists (f s). split; [done|]. split; [done|lia]. Qed.

Lemma keeps_signal r v s : bridge_ok s -> keeps x (occurrences x [r]) (signal r v) s.
Proof.
  intros Hs. eexists. split; [done|]. split; [by apply (bridge_ok_ext None s)|].
  unfold accounted, waiting. cbn [signals boots adapters add_signal]. rewrite fmap_app, occurrences_app.
  change ([(r, v)].*1) with [r]. lia.
Qed.

Lemma keeps_set_entry n k e e' s : bridge_ok s -> adapters s !! k = Some e ->
  occurrences x (op_request <$> registrationQueue e') = (n + occurrences x (op_request <$> registrationQueue e))%nat ->
  keeps x n (set_entry k e') s.
Proof.
  intros Hs He Hn. eexists. split; [done|]. split.
  - apply (bridge_ok_ext None s); try done. cbn. intros k' Hk'. rewrite lookup_insert_ne; [done|]. congruence.
  - unfold accounted, waiting. cbn [signals boots adapters set_adapters].
    pose proof (sum_of_replace queued (adapters s) k e e' He) as H. cbv beta in *. lia.
Qed.

(** *** The queue of an adapter *)

Lemma keeps_ensure k r t o b e s : bridge_ok s -> adapters s !! k = Some e ->
  keeps x (occurrences x [r]) (ensureAdapterRegion k r t o b) s.
Proof.
  intros Hs He. unfold ensureAdapterRegion, bind, gets. unfold keeps. rewrite He.
  apply (keeps_set_entry _ _ e); [done..|]. cbn [registrationQueue with_queue]. rewrite fmap_app, occurrences_app.
  change (op_request <$> [_]) with [r]. lia.
Qed.

Lemma keeps_finish k r u t o b e s : bridge_ok s -> adapters s !! k = Some e ->
  keeps x (occurrences x [r]) (finish k r u t o b) s.
Proof.
  intros Hs He. unfold finish, keeps, bind, gets. rewrite He. case_match; [by apply (keeps_ensure k r t o b e)|by apply keeps_signal].
Qed.

Lemma keeps_operation_settled k e e' op q v s : bridge_ok s -> adapters s !! k = Some e ->
  registrationQueue e = op :: q -> registrationQueue e' = op :: q -> keeps x 0 (operation_settled k e' op v) s.
Proof.
  intros Hs He Hq Hq'.
  assert (forall s1, modify (fun s => add_signal (op_request op, v) (set_adapters (<[k := with_queue (tail (registrationQueue e')) e']> (adapters s)) s)) s = (Normal tt, s1) ->
    operation_settled k e' op v s = (Normal tt, s1)) as E by (intros s1 E1; exact E1).
  eexists. split; [by apply E|]. split.
  - apply (bridge_ok_ext None s); try done. cbn. intros k' Hk'. rewrite lookup_insert_ne; [done|]. congruence.
  - unfold accounted, waiting. cbn [signals boots adapters add_signal set_adapters].
    pose proof (sum_of_replace queued (adapters s) k e (with_queue (tail (registrationQueue e')) e') He) as H.
    cbv beta in *. cbn [registrationQueue with_queue] in *. rewrite Hq, Hq' in H. cbn [tail] in H.
    change (op_request <$> op :: q) with (op_request op :: (op_request <$> q)) in H.
    rewrite (occurrences_cons x (op_request op)) in H. rewrite Hq', fmap_app, occurrences_app.
    change ([(op_request op, v)].*1) with [op_request op]. cbn [tail]. lia.
Qed.

(** Fields the invariant and the count do not look at. *)
Lemma keeps_neutral f s : bridge_ok s ->
  boots (f s) = boots s -> nextBoot (f s) = nextBoot s -> pending (f s) = pending s ->
  pendingAdapters (f s) = pendingAdapters s -> listeners (f s) = listeners s -> adapters (f s) = adapters s ->
  signals (f s) = signals s -> keeps x 0 (modify f) s.
Proof.
  intros Hs E1 E2 E3 E4 E5 E6 E7. apply keeps_modify; [done| |by unfold accounted, waiting; rewrite E1, E6, E7].
  apply (bridge_ok_ext None s); try done. by rewrite E6.
Qed.

Lemma keeps_post w m s : bridge_ok s -> keeps x 0 (post_to w m) s.
Proof. intros Hs. by apply keeps_neutral. Qed.

Lemma keeps_for_of {A} (l : list A) (f : A -> JS Bridge unit) s : bridge_ok s ->
  (forall a s', a ∈ l -> bridge_ok s' -> keeps x 0 (f a) s') -> keeps x 0 (for_of l f) s.
Proof.
  revert s. induction l as [|a l IH]; intros s Hs Hf; [by apply keeps_ret|]. cbn.
  apply (keeps_bind 0 0); [apply Hf; [set_solver|done]|]. intros s' _ Hs'. apply IH; [done|]. intros; apply Hf; set_solver.
Qed.

(** Posts to a worker, one for each element. *)
Lemma for_of_post {A} w (l : list A) (g : A -> VgiPost) s : bridge_ok s ->
  exists s', for_of l (fun a => post_to w (g a)) s = (Normal tt, s') /\ bridge_ok s' /\
    accounted x s' = accounted x s /\ adapters s' = adapters s.
Proof.
  revert s. induction l as [|a l IH]; intros s Hs; [by exists s|].
  destruct (keeps_post w (g a) s Hs) as (s1 & E1 & Hs1 & A1). destruct (IH s1 Hs1) as (s' & E' & Hs' & A' & D').
  exists s'. cbn [for_of]. unfold bind. rewrite E1. split; [done|]. split; [done|]. split; [lia|].
  rewrite D'. unfold post_to, modify in E1. by simplify_eq.
Qed.

Lemma bridge_ok_touch n s : bridge_ok s -> bridge_ok (set_touch n s).
Proof. intros Hs. by apply (bridge_ok_ext None s). Qed.

Lemma keeps_rebind max load1 load2 k e op q s : bridge_ok s -> adapters s !! k = Some e -> registrationQueue e = op :: q ->
  keeps x 0 (rebind max load1 load2 k e op) s.
Proof.
  intros Hs He Hq. unfold rebind. destruct (conflicts _ _ _ _) as [rs|]; [|by apply (keeps_operation_settled k e _ op q)].
  destruct (negb _); [by apply (keeps_operation_settled k e _ op q)|].
  unfold next_touch. unfold keeps. cbn [bind modify gets].
  set (s1 := set_touch (touch s + 1) s). assert (bridge_ok s1) as Hs1 by (by apply bridge_ok_touch).
  destruct (for_of_post (worker e) rs (fun r => vgi_unregister_target (target r) (offset r)) s1 Hs1) as (s2 & E2 & Hs2 & A2 & D2).
  unfold bind at 1. rewrite E2. cbn [bind modify gets].
  set (s3 := set_sequence (registrationSequence s2 + 1) s2).
  assert (bridge_ok s3) as Hs3 by (by apply (bridge_ok_ext None s2)).
  assert (accounted x s3 = accounted x s) as <- by exact A2.
  apply (keeps_bind 0 0).
  - apply (keeps_set_entry _ _ e); [done|change (adapters s2 !! k = Some e); by rewrite D2|]. cbn [registrationQueue with_queue with_regions].
    rewrite Hq. done.
  - intros s4 _ Hs4. by apply keeps_post.
Qed.

Lemma keeps_start_operation max load1 load2 k e op q s : bridge_ok s -> adapters s !! k = Some e ->
  registrationQueue e = op :: q -> keeps x 0 (start_operation max load1 load2 k e op) s.
Proof.
  intros Hs He Hq. unfold start_operation. destruct (mget _ _) as [current|]; [|by apply (keeps_rebind _ _ _ _ _ _ q)].
  destruct (_ && _); [|by apply (keeps_rebind _ _ _ _ _ _ q)].
  apply (keeps_operation_settled k e _ op q 1 (set_touch (touch s + 1) s)); [by apply bridge_ok_touch|done..].
Qed.

Lemma keeps_registration_settled k e op q next ok s : bridge_ok s -> adapters s !! k = Some e ->
  registrationQueue e = op :: q -> keeps x 0 (registration_settled k e op next ok) s.
Proof. intros Hs He Hq. unfold registration_settled. destruct ok; by apply (keeps_operation_settled k e _ op q). Qed.

(** Reading an entry and its first operation. *)
Lemma keeps_first k (f : AdapterEntry -> Operation -> JS Bridge unit) s : bridge_ok s ->
  (forall e op q, adapters s !! k = Some e -> registrationQueue e = op :: q -> keeps x 0 (f e op) s) ->
  keeps x 0 (let! e := gets (fun s => adapters s !! k) in
             match e with
             | Some e => match registrationQueue e with op :: _ => f e op | [] => ret tt end
             | None => ret tt
             end) s.
Proof.
  intros Hs Hf. unfold keeps. unfold bind at 1, gets at 1. destruct (adapters s !! k) as [e|] eqn:He; [|by apply keeps_ret].
  destruct (registrationQueue e) as [|op q] eqn:Hq; [by apply keeps_ret|]. by apply (Hf e op q).
Qed.

Lemma keeps_queue_step max load1 load2 k s : bridge_ok s -> keeps x 0 (queue_step max load1 load2 k) s.
Proof.
  intros Hs. apply keeps_first; [done|]. intros e op q He Hq.
  destruct (op_phase op); [by apply (keeps_start_operation _ _ _ _ _ _ q)|by apply keeps_ret].
Qed.

Lemma keeps_registration_timeout k s : bridge_ok s -> keeps x 0 (registration_timeout k) s.
Proof.
  intros Hs. apply keeps_first; [done|]. intros e op q He Hq.
  destruct (op_phase op); [by apply keeps_ret|by apply (keeps_registration_settled k e op q)].
Qed.

Lemma keeps_on_adapter_message m k s : bridge_ok s -> keeps x 0 (on_adapter_message m k) s.
Proof.
  intros Hs. unfold on_adapter_message, keeps. unfold bind at 1, gets at 1.
  destruct (adapters s !! k) as [e|] eqn:He; [|by apply keeps_ret].
  assert (exists s1, (when negb (is_target_answer m) then forward (worker e) m) s = (Normal tt, s1) /\ bridge_ok s1 /\
    accounted x s1 = accounted x s /\ adapters s1 = adapters s) as (s1 & E1 & Hs1 & <- & D1).
  { destruct (negb _); eexists; (split; [done|]); split_and!; try done; by apply (bridge_ok_ext None s). }
  unfold bind. rewrite E1. rewrite <- D1 in He.
  destruct (registrationQueue e) as [|op q] eqn:Hq; [by apply keeps_ret|].
  destruct (op_phase op); [by apply keeps_ret|]. destruct (_ && _); [by apply (keeps_registration_settled k e op q)|by apply keeps_ret].
Qed.

(** *** Boots *)

(** A joiner that can be settled: an adapter's is one of an adapter boot, and the adapter is there. *)
Definition joins (s : Bridge) (ok : bool) (k : option string) (j : Joiner) : Prop :=
  match j with
  | J_plain _ => True
  | J_adapter _ _ _ _ _ => exists k', k = Some k' /\ (ok = true -> is_Some (adapters s !! k'))
  end.

Lemma keeps_settle_joiner ok k j s : bridge_ok s -> joins s ok k j ->
  exists s', settle_joiner ok k j s = (Normal tt, s') /\ bridge_ok s' /\
    accounted x s' = (occurrences x [joiner_request j] + accounted x s)%nat /\
    listeners s' = listeners s /\ (forall k', is_Some (adapters s !! k') -> is_Some (adapters s' !! k')).
Proof.
  intros Hs Hj.
  assert (forall m, settle_joiner ok k j = m -> keeps x (occurrences x [joiner_request j]) m s ->
    (exists f, m s = modify f s /\ listeners (f s) = listeners s /\ forall k', is_Some (adapters s !! k') -> is_Some (adapters (f s) !! k')) ->
    exists s', settle_joiner ok k j s = (Normal tt, s') /\ bridge_ok s' /\
    accounted x s' = (occurrences x [joiner_request j] + accounted x s)%nat /\
    listeners s' = listeners s /\ (forall k', is_Some (adapters s !! k') -> is_Some (adapters s' !! k'))) as H.
  { intros m -> (s' & E & Hs' & A) (f & E' & L & D). exists s'. rewrite E in E'. unfold modify in E'. by simplify_eq. }
  destruct j as [r|r u t o b]; cbn in *.
  - eapply H; [reflexivity|by apply keeps_signal|]. by exists (add_signal (r, if ok then 1 else -1)).
  - destruct Hj as (k' & -> & Hk'). destruct ok; cycle 1.
    + eapply H; [reflexivity|by apply keeps_signal|]. by exists (add_signal (r, -1)).
    + destruct (Hk' eq_refl) as [e He]. eapply H; [reflexivity|by apply (keeps_finish k' r u t o b e)|].
      unfold finish, ensureAdapterRegion, bind, gets. rewrite He. destruct (String.eqb _ _).
      * rewrite He. eexists. split; [reflexivity|]. split; [done|]. cbn. intros k2 Hk2.
        destruct (decide (k' = k2)) as [->|N]; [rewrite lookup_insert_eq; eauto|by rewrite lookup_insert_ne].
      * by exists (add_signal (r, -1)).
Qed.

Lemma keeps_settle_joiners ok k l s : bridge_ok s -> Forall (joins s ok k) l ->
  exists s', for_of l (settle_joiner ok k) s = (Normal tt, s') /\ bridge_ok s' /\
    accounted x s' = (occurrences x (joiner_request <$> l) + accounted x s)%nat /\ listeners s' = listeners s.
Proof.
  revert s. induction l as [|j l IH]; intros s Hs Hl; [by exists s|]. inversion Hl as [|? ? Hj Hl']; subst.
  destruct (keeps_settle_joiner ok k j s Hs Hj) as (s1 & E1 & Hs1 & A1 & L1 & D1).
  destruct (IH s1 Hs1) as (s' & E' & Hs' & A' & L').
  { eapply Forall_impl; [exact Hl'|]. intros [] ; cbn; naive_solver. }
  exists s'. cbn [for_of]. unfold bind. rewrite E1. split; [done|]. split; [done|]. split; [|congruence].
  rewrite fmap_cons, occurrences_cons. lia.
Qed.

(** What a boot in progress needs to be settled. *)
Record can_settle (s : Bridge) (b : Z) (bt : Boot) (ok : bool) : Prop := {
  cs_but : bridge_ok_but (Some b) s;
  cs_boot : boots s !! b = Some bt;
  cs_open : settled bt = false;
  cs_next : b < nextBoot s;
  cs_kind : match adapter_of bt with
            | Some k => pendingAdapters s !! k = Some b /\ (ok = true -> is_Some (adapters s !! k)) /\
                        forall w, (w, b) ∉ listeners s
            | None => pending s !! b_url bt = Some b /\ Forall is_plain_joiner (b_joiners bt)
            end
}.

Definition settled_boot (bt : Boot) : Boot :=
  {| b_kind := b_kind bt; b_url := b_url bt; b_phase := Settled; b_owner := b_owner bt; b_joiners := [] |}.
(** The boot is no longer pending. *)
Definition unpend (b : Z) (bt : Boot) (s : Bridge) : Bridge :=
  let s := set_boots (<[b := settled_boot bt]> (boots s)) s in
  match adapter_of bt with
  | Some k => set_pendingAdapters (delete k (pendingAdapters s)) s
  | None => set_pending (delete (b_url bt) (pending s)) s
  end.

Lemma unpend_ok s b bt ok : can_settle s b bt ok -> bridge_ok (unpend b bt s).
Proof.
  intros [[H1 H2 H3 H4 H5] Hb Ho Hn Hk].
  assert (boots (unpend b bt s) = <[b := settled_boot bt]> (boots s)) as Eb by (unfold unpend; by destruct (adapter_of bt)).
  assert (listeners (unpend b bt s) = listeners s) as El by (unfold unpend; by destruct (adapter_of bt)).
  assert (nextBoot (unpend b bt s) = nextBoot s) as En by (unfold unpend; by destruct (adapter_of bt)).
  assert (adapters (unpend b bt s) = adapters s) as Ea by (unfold unpend; by destruct (adapter_of bt)).
  split; rewrite ?El; try done.
  - intros b' bt' _. rewrite Eb. destruct (decide (b' = b)) as [->|N].
    + rewrite lookup_insert_eq. intros [= <-]. unfold boot_ok. by rewrite En.
    + rewrite lookup_insert_ne by done. intros Hb'. destruct (H1 b' bt' ltac:(congruence) Hb') as [Hn' Hp].
      unfold boot_ok. rewrite En, Ea, El. split; [done|]. destruct (b_phase bt'); try done;
        (destruct Hp as [Hp Hsp]; split; [|done]; unfold unpend;
         destruct (adapter_of bt') as [k'|], (adapter_of bt) as [k|]; cbn; try done;
         (split; [|apply Hp]); (rewrite lookup_delete_ne; [apply Hp|]); intros E; rewrite ?E in *; destruct Hp, Hk; congruence).
  - intros u b' Hu. rewrite Eb. unfold unpend in Hu.
    assert (pending s !! u = Some b' /\ b' <> b) as [Hu' N].
    { destruct (adapter_of bt) as [k|] eqn:Ek; cbn in Hu.
      - split; [done|]. intros ->. destruct (H2 _ _ Hu) as (bt' & ? & _ & ? & _). congruence.
      - apply lookup_delete_Some in Hu as [Nu Hu]. split; [done|]. intros ->.
        destruct (H2 _ _ Hu) as (bt' & ? & _ & _ & ?). congruence. }
    rewrite lookup_insert_ne by done. by apply H2.
  - intros k' b' Hu. rewrite Eb. unfold unpend in Hu.
    assert (pendingAdapters s !! k' = Some b' /\ b' <> b) as [Hu' N].
    { destruct (adapter_of bt) as [k|] eqn:Ek; cbn in Hu.
      - apply lookup_delete_Some in Hu as [Nu Hu]. split; [done|]. intros ->.
        destruct (H3 _ _ Hu) as (bt' & ? & _ & ?). congruence.
      - split; [done|]. intros ->. destruct (H3 _ _ Hu) as (bt' & ? & _ & ?). congruence. }
    rewrite lookup_insert_ne by done. by apply H3.
  - intros w b' Hl. rewrite Eb. destruct (decide (b' = b)) as [->|N].
    + exists (settled_boot bt). rewrite lookup_insert_eq. split; [done|]. intros [k Hk'].
      change (adapter_of bt = Some k) in Hk'. rewrite Hk' in Hk. destruct Hk as (_ & _ & Hk). by edestruct Hk.
    + rewrite lookup_insert_ne by done. by apply (H4 w).
Qed.

Lemma unpend_accounted s b bt ok : can_settle s b bt ok ->
  accounted x s = (occurrences x (b_owner bt :: (joiner_request <$> b_joiners bt)) + accounted x (unpend b bt s))%nat.
Proof.
  intros [_ Hb Ho _ _]. unfold accounted, waiting.
  assert (boots (unpend b bt s) = <[b := settled_boot bt]> (boots s)) as -> by (unfold unpend; by destruct (adapter_of bt)).
  assert (signals (unpend b bt s) = signals s) as -> by (unfold unpend; by destruct (adapter_of bt)).
  assert (adapters (unpend b bt s) = adapters s) as -> by (unfold unpend; by destruct (adapter_of bt)).
  pose proof (sum_of_replace (fun bt => occurrences x (boot_requests bt)) (boots s) b bt (settled_boot bt) Hb) as H.
  assert (boot_requests bt = b_owner bt :: (joiner_request <$> b_joiners bt)) as E by (unfold boot_requests; by rewrite Ho).
  cbv beta in H. rewrite E in H. change (occurrences x (boot_requests (settled_boot bt))) with 0%nat in H. lia.
Qed.

Lemma keeps_settle_boot s b bt ok : can_settle s b bt ok ->
  keeps x 0 (settle_boot b ok) s /\ listeners (settle_boot b ok s).2 = listeners s.
Proof.
  intros Hc. pose proof (unpend_ok _ _ _ _ Hc) as Hs. pose proof (unpend_accounted _ _ _ _ Hc) as A.
  destruct Hc as [_ Hb Ho _ Hk].
  assert (settle_boot b ok s = (signal (b_owner bt) (if ok then 1 else -1) ;;;
    for_of (b_joiners bt) (settle_joiner ok (adapter_of bt))) (unpend b bt s)) as Eq.
  { unfold settle_boot, bind, gets, modify. rewrite Hb. unfold settled in Ho. unfold unpend, settled_boot, adapter_of.
    destruct (b_phase bt), (b_kind bt); done. }
  destruct (keeps_signal (b_owner bt) (if ok then 1 else -1) _ Hs) as (s1 & E1 & Hs1 & A1).
  assert (listeners s1 = listeners s /\ adapters s1 = adapters s) as [L1 D1].
  { unfold signal, modify in E1. simplify_eq. unfold unpend. by destruct (adapter_of bt). }
  destruct (keeps_settle_joiners ok (adapter_of bt) (b_joiners bt) s1 Hs1) as (s2 & E2 & Hs2 & A2 & L2).
  { destruct (adapter_of bt) as [k|]; [|eapply Forall_impl; [apply Hk|by intros []]].
    apply Forall_forall. intros [] _; [done|]. exists k. rewrite D1. split; [done|apply Hk]. }
  unfold keeps. rewrite Eq. unfold bind. rewrite E1. cbv beta iota. rewrite E2. split; [|cbn; congruence].
  exists s2. split; [done|]. split; [done|]. rewrite (occurrences_cons x) in A. lia.
Qed.

(** *** Messages *)

(** The boot of a listener settles, if it is in progress. *)
Lemma listener_settles s b bt ok : bridge_ok s -> boots s !! b = Some bt -> settled bt = false ->
  (forall k, adapter_of bt = Some k -> (ok = true -> is_Some (adapters s !! k)) /\ forall w : Z, (w, b) ∉ listeners s) ->
  can_settle s b bt ok.
Proof.
  intros Hs Hb Ho Hk. destruct (ok_boots _ _ Hs b bt ltac:(done) Hb) as [Hn Hp]. split; try done.
  - destruct Hs. split; auto.
  - unfold settled in Ho. destruct (adapter_of bt) as [k|]; [destruct (Hk k eq_refl)|]; destruct (b_phase bt); naive_solver.
Qed.

(** What a message changes of the listeners is the boot's own. *)
Definition removes (w b : Z) (m : JS Bridge unit) (s : Bridge) : Prop :=
  forall l, l ∈ listeners s -> l <> (w, b) -> l ∈ listeners (m s).2.

Lemma remove_listener_but w b s : bridge_ok s -> bridge_ok_but (Some b) (set_listeners (filter (fun l => l <> (w, b)) (listeners s)) s).
Proof.
  intros [H1 H2 H3 H4 H5]. split; cbn; try done.
  - intros b' bt' N Hb'. destruct (H1 b' bt' ltac:(done) Hb') as [Hn Hp]. split; [done|]. cbn.
    destruct (b_phase bt'); try done; destruct Hp as [Hp Hsp]; (split; [done|]); intros E w' Hw; apply (Hsp E w');
      by apply list_elem_of_filter in Hw as [_ Hw].
  - intros w' b' Hl. apply list_elem_of_filter in Hl as [_ Hl]. by apply (H4 w').
  - clear - H5. induction (listeners s) as [|[w' b'] l IH]; [constructor|]. rewrite fmap_cons in H5.
    apply NoDup_cons in H5 as [Hn Hd]. rewrite filter_cons. destruct (decide _); [|by apply IH]. cbn. apply NoDup_cons.
    split; [|by apply IH]. intros Hin. apply Hn. apply list_elem_of_fmap in Hin as (y & Ey & Hy).
    apply list_elem_of_filter in Hy as [_ Hy]. cbn in Ey |- *. rewrite Ey. apply list_elem_of_fmap. eauto.
Qed.

Lemma only_listener w w' b s : bridge_ok s -> (w, b) ∈ listeners s -> (w', b) ∉ filter (fun l => l <> (w, b)) (listeners s).
Proof.
  intros Hs Hl Hl'. apply list_elem_of_filter in Hl' as [N Hl']. apply N. f_equal.
  pose proof (ok_once _ _ Hs) as Hd. apply list_elem_of_lookup in Hl as [i Hi], Hl' as [j Hj].
  assert (i = j) as <- by (eapply NoDup_lookup; [exact Hd|by rewrite list_lookup_fmap, Hi|by rewrite list_lookup_fmap, Hj]).
  congruence.
Qed.

Lemma settled_no_op b ok s : (forall bt, boots s !! b = Some bt -> settled bt = true) -> settle_boot b ok s = (Normal tt, s).
Proof.
  intros H. unfold settle_boot, bind, gets. destruct (boots s !! b) as [bt|]; [|done]. specialize (H bt eq_refl).
  unfold settled in H. by destruct (b_phase bt).
Qed.

(** Settling after the fields that do not matter were set. *)
Lemma keeps_settle_plain b ok s bt : bridge_ok s -> boots s !! b = Some bt -> adapter_of bt = None ->
  keeps x 0 (settle_boot b ok) s /\ listeners (settle_boot b ok s).2 = listeners s.
Proof.
  intros Hs Hb Hk. destruct (settled bt) eqn:Ho.
  - assert (settle_boot b ok s = (Normal tt, s)) as E by (apply settled_no_op; intros; congruence).
    unfold keeps. rewrite E. split; [by exists s|done].
  - apply (keeps_settle_boot s b bt ok). by apply listener_settles; [..|congruence].
Qed.

(** The same for a boot that is known by its invariant alone. *)
Lemma keeps_settle_adapter s s1 w b bt k ok : bridge_ok s -> (w, b) ∈ listeners s -> boots s !! b = Some bt ->
  adapter_of bt = Some k -> b_phase bt = Handshaking ->
  boots s1 = boots s -> nextBoot s1 = nextBoot s -> pending s1 = pending s -> pendingAdapters s1 = pendingAdapters s ->
  listeners s1 = filter (fun l => l <> (w, b)) (listeners s) ->
  (forall k', k' <> k -> adapters s !! k' = None -> adapters s1 !! k' = None) -> (ok = true -> is_Some (adapters s1 !! k)) ->
  can_settle s1 b bt ok.
Proof.
  intros Hs Hl Hb Hk Hph E1 E2 E3 E4 E5 E6 E7.
  destruct (ok_boots _ _ Hs b bt ltac:(done) Hb) as [Hn Hp]. rewrite Hph, Hk in Hp. destruct Hp as [[Hpk Hak] _].
  split; [|by rewrite E1|unfold settled; by rewrite Hph|by rewrite E2|].
  - destruct (remove_listener_but w b s Hs) as [H1 H2 H3 H4 H5]. cbn in *.
    split; rewrite ?E1, ?E3, ?E4, ?E5; try done.
    intros b' bt' N Hb'. destruct (H1 b' bt' N Hb') as [Hn' Hp']. cbn in *. unfold boot_ok.
    rewrite E2, E3, E4, E5. split; [done|]. destruct (b_phase bt'); try done; destruct Hp' as [Hp' Hsp]; (split; [|done]);
      (destruct (adapter_of bt') as [k'|]; [|done]); destruct Hp' as [Hp' Ha']; (split; [done|]); (apply E6; [|done]);
      intros ->; congruence.
  - rewrite Hk, E4, E5. split; [done|]. split; [done|]. intros w'. by apply only_listener.
Qed.

Lemma on_boot_ready w b s m : bridge_ok s -> (w, b) ∈ listeners s -> wm_type m = "vgi-ready"%string ->
  keeps x 0 (on_boot_message w b m) s /\ removes w b (on_boot_message w b m) s.
Proof.
  intros Hs Hl Hm. destruct (ok_listeners _ _ Hs w b Hl) as (bt & Hb & Hph).
  destruct (b_kind bt) as [o bf|k r app] eqn:Ek.
  - assert (on_boot_message w b m s = settle_boot b true (set_workers (<[b_url bt := w]> (workers s)) s)) as E.
    { unfold on_boot_message. unfold bind at 1, gets at 1. rewrite Hb, Hm, Ek. done. }
    destruct (keeps_settle_plain b true (set_workers (<[b_url bt := w]> (workers s)) s) bt) as [(s' & E' & Hs' & A') L].
    + by apply (bridge_ok_ext None s).
    + done.
    + unfold adapter_of. by rewrite Ek.
    + unfold keeps, removes. rewrite E, L. split; [by exists s'|done].
  - assert (adapter_of bt = Some k) as Hk by (unfold adapter_of; by rewrite Ek). specialize (Hph (mk_is_Some _ _ Hk)).
    set (e := {| key := k; url := b_url bt; worker := w; regions := [(target r, r)]; registrationQueue := [] |}).
    set (s1 := set_adapters (<[k := e]> (adapters s)) (set_listeners (filter (fun l => l <> (w, b)) (listeners s)) s)).
    assert (on_boot_message w b m s = settle_boot b true s1) as E.
    { unfold on_boot_message. unfold bind at 1, gets at 1. rewrite Hb, Hm, Ek. done. }
    destruct (ok_boots _ _ Hs b bt ltac:(done) Hb) as [_ Hp]. rewrite Hph, Hk in Hp. destruct Hp as [[_ Hnone] _].
    destruct (keeps_settle_boot s1 b bt true) as [(s' & E' & Hs' & A') L].
    { apply (keeps_settle_adapter s s1 w b bt k true); try done; cbn.
      - intros k' N Hk'. by rewrite lookup_insert_ne.
      - intros _. rewrite lookup_insert_eq. eauto. }
    unfold keeps, removes. rewrite E, L. split.
    + exists s'. split; [done|]. split; [done|]. rewrite A'. unfold accounted, waiting, s1. cbn [adapters set_adapters boots signals set_listeners].
      rewrite sum_of_fresh by done. done.
    + intros l Hin N. unfold s1. cbn. by apply list_elem_of_filter.
Qed.

Lemma on_boot_error w b s m : bridge_ok s -> (w, b) ∈ listeners s -> wm_type m = "vgi-error"%string ->
  keeps x 0 (on_boot_message w b m) s /\ removes w b (on_boot_message w b m) s.
Proof.
  intros Hs Hl Hm. destruct (ok_listeners _ _ Hs w b Hl) as (bt & Hb & Hph).
  set (s0 := set_listeners (filter (fun l => l <> (w, b)) (listeners s)) s).
  assert (exists s1, on_boot_message w b m s = settle_boot b false s1 /\ boots s1 = boots s /\ nextBoot s1 = nextBoot s /\
    pending s1 = pending s /\ pendingAdapters s1 = pendingAdapters s /\ listeners s1 = listeners s0 /\
    adapters s1 = adapters s /\ signals s1 = signals s) as (s1 & E & E1 & E2 & E3 & E4 & E5 & E6 & E7).
  { unfold on_boot_message. unfold bind at 1, gets at 1. rewrite Hb, Hm.
    destruct (b_kind bt) as [o bf|k r [app|]]; [exists (add_terminated w s0)|exists s0|exists (add_terminated w s0)]; done. }
  assert (accounted x s1 = accounted x s) as Ac by (unfold accounted, waiting; by rewrite E1, E6, E7).
  unfold keeps, removes. rewrite E, <- Ac.
  assert (keeps x 0 (settle_boot b false) s1 /\ listeners (settle_boot b false s1).2 = listeners s1) as [K L].
  { destruct (adapter_of bt) as [k|] eqn:Hk.
    - specialize (Hph ltac:(eauto)). apply (keeps_settle_boot s1 b bt false).
      apply (keeps_settle_adapter s s1 w b bt k false); try done. by rewrite E6.
    - apply (keeps_settle_plain b false s1 bt); [|by rewrite E1|done].
      destruct (remove_listener_but w b s Hs) as [H1 H2 H3 H4 H5]. cbn in *.
      split; rewrite ?E1, ?E3, ?E4, ?E5; try done. intros b' bt' _ Hb'.
      assert (boot_ok s0 b' bt') as [Hn Hp].
      { destruct (decide (b' = b)) as [->|N]; [|apply H1; congruence].
        assert (bt' = bt) as -> by congruence. destruct (ok_boots _ _ Hs b bt ltac:(done) Hb) as [Hn Hp].
        split; [done|]. destruct (b_phase bt); try done; rewrite Hk in *; destruct Hp as [Hp Hsp]; (split; [done|]); intros Hx w' Hw;
          apply (Hsp Hx w'); cbn in Hw; by apply list_elem_of_filter in Hw as [_ Hw]. }
      unfold boot_ok. rewrite E2, E3, E4, E5, E6. done. }
  split; [done|]. rewrite L, E5. intros l Hin N. cbn. by apply list_elem_of_filter.
Qed.

Lemma keeps_on_boot_message w b s m : bridge_ok s -> (w, b) ∈ listeners s ->
  keeps x 0 (on_boot_message w b m) s /\ removes w b (on_boot_message w b m) s.
Proof.
  intros Hs Hl. destruct (String.eqb_spec (wm_type m) "vgi-ready") as [E|N1]; [by apply on_boot_ready|].
  destruct (String.eqb_spec (wm_type m) "vgi-error") as [E|N2]; [by apply on_boot_error|].
  destruct (ok_listeners _ _ Hs w b Hl) as (bt & Hb & _).
  assert (on_boot_message w b m s = forward w m s) as E.
  { unfold on_boot_message, bind, gets. rewrite Hb. apply String.eqb_neq in N1, N2. by rewrite N1, N2. }
  unfold keeps, removes. rewrite E. split; [|done]. exists (add_forwarded (w, m) s).
  split; [done|]. split; [by apply (bridge_ok_ext None s)|done].
Qed.

Lemma keeps_boot_listeners w m l s : bridge_ok s -> NoDup l -> (forall p, p ∈ l -> p.1 = w /\ p ∈ listeners s) ->
  keeps x 0 (for_of l (fun p => on_boot_message w p.2 m)) s.
Proof.
  revert s. induction l as [|[w' b] l IH]; intros s Hs Hd Hl; [by apply keeps_ret|]. cbn [for_of].
  apply NoDup_cons in Hd as [Hn Hd]. destruct (Hl (w', b) ltac:(apply list_elem_of_here)) as [Ew Hb]. cbn in Ew. subst w'.
  destruct (keeps_on_boot_message w b s m Hs Hb) as [K R]. apply (keeps_bind 0 0); [exact K|].
  intros s' E Hs'. apply IH; [done|done|]. intros p Hp. destruct (Hl p ltac:(by apply list_elem_of_further)) as [Ep Hp'].
  split; [done|]. specialize (R p Hp'). cbn [snd] in E. rewrite E in R. apply R. intros ->. done.
Qed.

Lemma keeps_on_worker_message w m s : bridge_ok s -> keeps x 0 (on_worker_message w m) s.
Proof.
  intros Hs. set (bs := filter (fun l : Z * Z => l.1 = w) (listeners s)).
  set (ks := fst <$> filter (fun ke : string * AdapterEntry => worker ke.2 = w) (map_to_list (adapters s))).
  change (keeps x 0 (for_of bs (fun l => on_boot_message w l.2 m) ;;; for_of ks (on_adapter_message m)) s).
  apply (keeps_bind 0 0).
  - apply keeps_boot_listeners; [done| |].
    + apply NoDup_filter. eapply NoDup_fmap_1, ok_once, Hs.
    + intros p Hp. by apply list_elem_of_filter in Hp.
  - intros s' _ Hs'. apply keeps_for_of; [done|]. intros k s1 _ Hs1. by apply keeps_on_adapter_message.
Qed.

(** *** Spawning *)

(** The boot's own fields change: its phase, its joiners. *)
Lemma boot_update s b bt bt' l : bridge_ok s -> boots s !! b = Some bt -> settled bt = false -> settled bt' = false ->
  adapter_of bt' = adapter_of bt -> b_url bt' = b_url bt ->
  (adapter_of bt = None -> Forall is_plain_joiner (b_joiners bt')) ->
  (b_phase bt' = Spawning -> b_phase bt = Spawning /\ l = []) ->
  (is_Some (adapter_of bt) -> b_phase bt = Handshaking -> b_phase bt' = Handshaking) ->
  (l = [] \/ b_phase bt = Spawning /\ b_phase bt' = Handshaking /\ exists w, l = [(w, b)]) ->
  bridge_ok (set_listeners (listeners s ++ l) (set_boots (<[b := bt']> (boots s)) s)).
Proof.
  intros [H1 H2 H3 H4 H5] Hb Ho Ho' Ek Eu Hj Hsp Hph Hl.
  destruct (H1 b bt ltac:(done) Hb) as [Hn Hp].
  assert (forall b', b' <> b -> <[b := bt']> (boots s) !! b' = boots s !! b') as Hne by (intros; by rewrite lookup_insert_ne).
  split; cbn.
  - intros b' bt2 _ Hb'. destruct (decide (b' = b)) as [->|N].
    + rewrite lookup_insert_eq in Hb'. simplify_eq. split; [done|]. cbn. unfold settled in Ho, Ho'.
      assert (match adapter_of bt2 with
        | Some k => pendingAdapters s !! k = Some b /\ adapters s !! k = None
        | None => pending s !! b_url bt2 = Some b /\ Forall is_plain_joiner (b_joiners bt2)
        end) as Hkind.
      { rewrite Ek, Eu. destruct (b_phase bt); try done; (destruct (adapter_of bt); [apply Hp|]); (split; [apply Hp|by apply Hj]). }
      destruct (b_phase bt2) eqn:E2; try done; (split; [exact Hkind|]); intros E3; try done.
      destruct (Hsp eq_refl) as [E4 ->]. rewrite E4 in Hp. rewrite app_nil_r. by apply Hp.
    + rewrite Hne in Hb' by done. destruct (H1 b' bt2 ltac:(done) Hb') as [Hn' Hp']. split; [done|]. cbn.
      destruct (b_phase bt2); try done;
        (destruct Hp' as [Hp' Hs']; split; [done|]; intros E3 w' [Hw|Hw]%elem_of_app;
         [by apply (Hs' E3 w')|destruct Hl as [->|(_ & _ & w2 & ->)]; set_solver]).
  - intros u b' Hu. destruct (H2 u b' Hu) as (bt2 & Hb2 & Ho2 & Hk2 & Hu2). destruct (decide (b' = b)) as [->|N].
    + exists bt'. rewrite lookup_insert_eq. simplify_eq. split_and!; congruence.
    + exists bt2. rewrite Hne by done. done.
  - intros k b' Hu. destruct (H3 k b' Hu) as (bt2 & Hb2 & Ho2 & Hk2). destruct (decide (b' = b)) as [->|N].
    + exists bt'. rewrite lookup_insert_eq. simplify_eq. split_and!; congruence.
    + exists bt2. rewrite Hne by done. done.
  - intros w b' [Hw|Hw]%elem_of_app.
    + destruct (H4 w b' Hw) as (bt2 & Hb2 & Hk2). destruct (decide (b' = b)) as [->|N].
      * exists bt'. rewrite lookup_insert_eq. simplify_eq. split; [done|]. rewrite Ek. auto.
      * exists bt2. rewrite Hne by done. done.
    + destruct Hl as [->|(_ & E & w2 & ->)]; [set_solver|]. apply list_elem_of_singleton in Hw as [= -> ->].
      exists bt'. by rewrite lookup_insert_eq.
  - rewrite fmap_app. destruct Hl as [->|(E & _ & w2 & ->)]; [by rewrite app_nil_r|].
    apply NoDup_app. split; [done|]. split; [|apply NoDup_singleton].
    cbn. intros b2 Hb2 E2%list_elem_of_singleton. subst b2. apply list_elem_of_fmap in Hb2 as ([w3 b3] & E3 & Hin).
    cbn in E3. subst b3. rewrite E in Hp. by apply (proj2 Hp eq_refl w3).
Qed.

Lemma accounted_boots s b bt bt' f : boots s !! b = Some bt -> boots (f s) = <[b := bt']> (boots s) ->
  signals (f s) = signals s -> adapters (f s) = adapters s ->
  (accounted x (f s) + occurrences x (boot_requests bt) = occurrences x (boot_requests bt') + accounted x s)%nat.
Proof.
  intros Hb E1 E2 E3. unfold accounted, waiting. rewrite E1, E2, E3.
  pose proof (sum_of_replace (fun bt => occurrences x (boot_requests bt)) (boots s) b bt bt' Hb) as H. cbv beta in H. lia.
Qed.

Definition with_phase (p : BootPhase) (bt : Boot) : Boot :=
  {| b_kind := b_kind bt; b_url := b_url bt; b_phase := p; b_owner := b_owner bt; b_joiners := b_joiners bt |}.

Lemma keeps_handshake b w bt s : bridge_ok s -> boots s !! b = Some bt -> b_phase bt = Spawning ->
  keeps x 0 (handshake b w bt) s.
Proof.
  intros Hs Hb Hp.
  set (f := fun s => set_listeners (listeners s ++ [(w, b)]) (set_boots (<[b := with_phase Handshaking bt]> (boots s)) s)).
  assert (bridge_ok (f s)) as Hs'.
  { apply (boot_update s b bt _ [(w, b)]); try done; unfold settled; rewrite ?Hp; try done; [|naive_solver].
    intros Hk. destruct (ok_boots _ _ Hs b bt ltac:(done) Hb) as [_ H]. rewrite Hp, Hk in H. apply H. }
  assert (accounted x (f s) = accounted x s) as A.
  { pose proof (accounted_boots s b bt (with_phase Handshaking bt) f Hb eq_refl eq_refl eq_refl) as A.
    unfold boot_requests, settled in A. rewrite Hp in A. cbn [with_phase b_phase b_owner b_joiners] in A. lia. }
  assert (forall m, handshake b w bt s = post_to w m (f s) -> keeps x 0 (handshake b w bt) s) as H.
  { intros m E. destruct (keeps_post w m (f s) Hs') as (s' & E' & H' & A'). exists s'. rewrite E. split; [done|].
    split; [done|]. by rewrite A', A. }
  eapply H. unfold handshake, set_phase. unfold bind, modify.
  rewrite (alter_alt_Some _ (boots s) b bt Hb). reflexivity.
Qed.

Lemma can_settle_spawning s b bt : bridge_ok s -> boots s !! b = Some bt -> b_phase bt = Spawning -> can_settle s b bt false.
Proof.
  intros Hs Hb Hp. apply listener_settles; [done|done|unfold settled; by rewrite Hp|]. intros k Hk. split; [done|].
  destruct (ok_boots _ _ Hs b bt ltac:(done) Hb) as [_ H]. rewrite Hp in H. by apply H.
Qed.

Lemma keeps_spawn_settled parse_URL page_href page_origin fetch w b s : bridge_ok s ->
  keeps x 0 (spawn_settled parse_URL page_href page_origin fetch w b) s.
Proof.
  intros Hs. unfold spawn_settled, keeps. unfold bind at 1, gets at 1. destruct (boots s !! b) as [bt|] eqn:Hb; [|by apply keeps_ret].
  assert (keeps x 0 (match spawnWorker parse_URL page_href page_origin fetch (b_url bt) with
    | Normal script => modify (add_spawned (w, script)) ;;; handshake b w bt
    | Thrown _ => settle_boot b false
    end) s \/ b_phase bt <> Spawning) as H.
  { destruct (b_phase bt) eqn:Hp; [left|by right..]. destruct (spawnWorker _ _ _ _ _) as [script|err].
    - apply (keeps_bind 0 0); [by apply keeps_neutral|]. intros s' E Hs'. apply keeps_handshake; [done| |done].
      unfold modify in E. by simplify_eq.
    - apply (keeps_settle_boot s b bt false). by apply can_settle_spawning. }
  destruct (b_phase bt) eqn:Hp; [|by apply keeps_ret..]. destruct H as [H|H]; [|done].
  destruct (b_kind bt) as [o bf|k r [app|]] eqn:Ek; [exact H| |exact H]. by apply keeps_handshake.
Qed.

(** *** Requests *)

Lemma keeps_join_boot b j bt s : bridge_ok s -> boots s !! b = Some bt -> settled bt = false ->
  (adapter_of bt = None -> is_plain_joiner j) -> keeps x (occurrences x [joiner_request j]) (join_boot b j) s.
Proof.
  intros Hs Hb Ho Hj.
  set (bt' := {| b_kind := b_kind bt; b_url := b_url bt; b_phase := b_phase bt; b_owner := b_owner bt; b_joiners := b_joiners bt ++ [j] |}).
  set (f := fun s => set_listeners (listeners s ++ []) (set_boots (<[b := bt']> (boots s)) s)).
  assert (bridge_ok (f s)) as Hs'.
  { apply (boot_update s b bt bt' []); try done; try (naive_solver; fail).
    intros Hk. apply Forall_app. split; [|constructor; auto]. destruct (ok_boots _ _ Hs b bt ltac:(done) Hb) as [_ H].
    unfold settled in Ho. rewrite Hk in H. destruct (b_phase bt); naive_solver. }
  exists (set_boots (<[b := bt']> (boots s)) s). split; [|split].
  - unfold join_boot, modify. by rewrite (alter_alt_Some _ (boots s) b bt Hb).
  - unfold f in Hs'. rewrite app_nil_r in Hs'. exact Hs'.
  - pose proof (accounted_boots s b bt bt' (fun s => set_boots (<[b := bt']> (boots s)) s) Hb eq_refl eq_refl eq_refl) as A.
    assert (boot_requests bt' = boot_requests bt ++ [joiner_request j]) as E.
    { unfold boot_requests. change (settled bt') with (settled bt). rewrite Ho. cbn. by rewrite fmap_app. }
    rewrite E, occurrences_app in A. lia.
Qed.

(** A new boot takes the next number. *)
Lemma new_boot_ok s bt (f : Bridge -> Bridge) : bridge_ok s -> b_phase bt = Spawning -> b_joiners bt = [] ->
  boots (f s) = <[nextBoot s := bt]> (boots s) -> nextBoot (f s) = nextBoot s + 1 -> listeners (f s) = listeners s ->
  adapters (f s) = adapters s -> signals (f s) = signals s ->
  match adapter_of bt with
  | Some k => pendingAdapters s !! k = None /\ adapters s !! k = None /\
      pendingAdapters (f s) = <[k := nextBoot s]> (pendingAdapters s) /\ pending (f s) = pending s
  | None => pending s !! b_url bt = None /\ pending (f s) = <[b_url bt := nextBoot s]> (pending s) /\
      pendingAdapters (f s) = pendingAdapters s
  end ->
  bridge_ok (f s) /\ accounted x (f s) = (occurrences x [b_owner bt] + accounted x s)%nat.
Proof.
  intros Hs Hp Hj E1 E2 E3 E4 E5 Hk. pose proof Hs as [H1 H2 H3 H4 H5].
  assert (boots s !! nextBoot s = None) as Hfresh.
  { destruct (boots s !! nextBoot s) as [bt'|] eqn:E; [|done]. destruct (H1 _ _ ltac:(done) E). lia. }
  split; cycle 1.
  { unfold accounted, waiting. rewrite E1, E4, E5, sum_of_fresh by done. unfold boot_requests, settled. rewrite Hp, Hj. cbn. lia. }
  assert (forall b bt', boots s !! b = Some bt' -> b <> nextBoot s) as Hne by (intros b bt' Hb ->; congruence).
  assert (settled bt = false) as Ho by (unfold settled; by rewrite Hp).
  split; rewrite ?E1, ?E3; try done.
  - intros b bt' _ Hb. destruct (decide (b = nextBoot s)) as [->|N].
    + rewrite lookup_insert_eq in Hb. simplify_eq. unfold boot_ok. rewrite E2, E3, E4, Hp, Hj. split; [lia|].
      split; [|intros _ w Hw; destruct (H4 w _ Hw) as (? & ? & _); congruence].
      destruct (adapter_of bt'); [destruct Hk as (_ & ? & -> & _)|destruct Hk as (_ & -> & _)]; by rewrite lookup_insert_eq.
    + rewrite lookup_insert_ne in Hb by done. destruct (H1 b bt' ltac:(done) Hb) as [Hn Hp'].
      assert (forall k, pendingAdapters s !! k = Some b -> pendingAdapters (f s) !! k = Some b) as Hpa.
      { intros k Hkb. destruct (adapter_of bt); [destruct Hk as (? & _ & -> & _)|by destruct Hk as (_ & _ & ->)].
        rewrite lookup_insert_ne; [done|congruence]. }
      assert (forall u, pending s !! u = Some b -> pending (f s) !! u = Some b) as Hpe.
      { intros u Hub. destruct (adapter_of bt); [by destruct Hk as (_ & _ & _ & ->)|destruct Hk as (? & -> & _)].
        rewrite lookup_insert_ne; [done|congruence]. }
      unfold boot_ok. rewrite E2, E3, E4. split; [lia|].
      destruct (b_phase bt'); try done; destruct Hp' as [Hp' Hs']; (split; [|done]); destruct (adapter_of bt');
        destruct Hp'; auto.
  - intros u b Hu. destruct (adapter_of bt) as [k|] eqn:Ek.
    + destruct Hk as (_ & _ & _ & E). rewrite E in Hu. destruct (H2 u b Hu) as (bt' & Hb & ?).
      exists bt'. rewrite lookup_insert_ne; [done|]. intros <-. by apply (Hne _ _ Hb).
    + destruct Hk as (_ & E & _). rewrite E in Hu. apply lookup_insert_Some in Hu as [[<- <-]|[N Hu]].
      * exists bt. by rewrite lookup_insert_eq.
      * destruct (H2 u b Hu) as (bt' & Hb & ?). exists bt'. rewrite lookup_insert_ne; [done|]. intros <-. by apply (Hne _ _ Hb).
  - intros k' b Hu. destruct (adapter_of bt) as [k|] eqn:Ek.
    + destruct Hk as (_ & _ & E & _). rewrite E in Hu. apply lookup_insert_Some in Hu as [[<- <-]|[N Hu]].
      * exists bt. by rewrite lookup_insert_eq.
      * destruct (H3 k' b Hu) as (bt' & Hb & ?). exists bt'. rewrite lookup_insert_ne; [done|]. intros <-. by apply (Hne _ _ Hb).
    + destruct Hk as (_ & _ & E). rewrite E in Hu. destruct (H3 k' b Hu) as (bt' & Hb & ?).
      exists bt'. rewrite lookup_insert_ne; [done|]. intros <-. by apply (Hne _ _ Hb).
  - intros w b Hl. destruct (H4 w b Hl) as (bt' & Hb & ?). exists bt'. rewrite lookup_insert_ne; [done|].
    intros <-. by apply (Hne _ _ Hb).
Qed.

Lemma keeps_on_adapter_request r o b t app u s : bridge_ok s ->
  keeps x (occurrences x [er_id r]) (on_adapter_request r o b t app u) s.
Proof.
  intros Hs. unfold on_adapter_request, keeps. unfold bind at 1 2, gets at 1 2.
  destruct (adapters s !! adapterKey t) as [e|] eqn:He; [by apply (keeps_finish _ _ _ _ _ _ e)|].
  destruct (pendingAdapters s !! adapterKey t) as [bo|] eqn:Hp.
  - destruct (ok_pendingAdapters _ _ Hs _ _ Hp) as (bt & Hb & Ho & Hk). apply (keeps_join_boot bo (J_adapter (er_id r) u (canonicalTarget t) o b) bt); try done. congruence.
  - set (bt := {| b_kind := Boot_adapter (adapterKey t) {| target := canonicalTarget t; offset := o; buffer := b; lastUsed := touch s + 1 |} app;
      b_url := u; b_phase := Spawning; b_owner := er_id r; b_joiners := [] |}).
    set (f := fun s => set_pendingAdapters (<[adapterKey t := nextBoot s]> (pendingAdapters s))
      (set_boots (<[nextBoot s := bt]> (boots s)) (set_nextBoot (nextBoot s + 1) s))).
    exists (f (set_touch (touch s + 1) s)). split; [done|].
    apply (new_boot_ok (set_touch (touch s + 1) s) bt f); try done. by apply bridge_ok_touch.
Qed.

Lemma keeps_on_plain_request r u s : bridge_ok s -> keeps x (occurrences x [er_id r]) (on_plain_request r u) s.
Proof.
  intros Hs. unfold on_plain_request, keeps. unfold bind at 1 2, gets at 1 2.
  destruct (workers s !! u) as [w|]; [by apply keeps_signal|].
  destruct (pending s !! u) as [bo|] eqn:Hp.
  - destruct (ok_pending _ _ Hs _ _ Hp) as (bt & Hb & Ho & Hk & Hu). by apply (keeps_join_boot bo (J_plain (er_id r)) bt).
  - set (bt := {| b_kind := Boot_plain (er_offset r) (er_buffer r); b_url := u; b_phase := Spawning; b_owner := er_id r; b_joiners := [] |}).
    set (f := fun s => set_pending (<[u := nextBoot s]> (pending s)) (set_boots (<[nextBoot s := bt]> (boots s)) (set_nextBoot (nextBoot s + 1) s))).
    exists (f s). split; [done|]. by apply (new_boot_ok s bt f).
Qed.

(** The resolvers of the application do not throw. *)
Definition total_resolvers (opts : VgiWebWorkerBridgeOptions) : Prop :=
  (forall f l, o_resolveWorkerUrl opts = Some f -> is_normal (f l) = true) /\
  (forall f l, o_resolveAdapterTarget opts = Some f -> is_normal (f l) = true).

Lemma resolveWorkerUrl_normal parse_URL page_href page_origin opts l : total_resolvers opts ->
  exists u, resolveWorkerUrl parse_URL page_href page_origin opts l = Normal u.
Proof.
  intros [H _]. unfold resolveWorkerUrl. destruct (o_resolveWorkerUrl opts) as [f|]; [|eauto].
  specialize (H f l eq_refl). destruct (f l); [eauto|done].
Qed.

Lemma requested_target_normal page_href opts l : total_resolvers opts ->
  exists t, requested_target page_href opts l = Normal t.
Proof.
  intros [_ H]. unfold requested_target. destruct (is_iroh l || is_httpi l).
  - destruct (canonicalBuiltInIrohTarget l), (irohAdapterWorker opts); eauto.
    destruct (match o_resolveIrohTarget opts with Some f => _ | None => _ end) as [o|]; [|eauto].
    destruct (o ≫= _); [|eauto]. destruct (String.eqb _ _); eauto.
  - destruct (o_resolveAdapterTarget opts) as [f|]; [|eauto]. specialize (H f l eq_refl). destruct (f l); [cbn; eauto|done].
Qed.

Lemma adapter_script_normal parse_URL page_href page_origin opts t app : total_resolvers opts ->
  exists u, adapter_script parse_URL page_href page_origin opts t app = Normal u.
Proof. intros H. unfold adapter_script. destruct app; [eauto|by apply resolveWorkerUrl_normal]. Qed.

Lemma keeps_on_ensure parse_URL page_href page_origin opts r s : total_resolvers opts -> bridge_ok s ->
  keeps x (occurrences x [er_id r]) (on_ensure parse_URL page_href page_origin opts r) s.
Proof.
  intros Ht Hs. unfold on_ensure. destruct (_ || _).
  - destruct (er_offset r) as [o|], (er_buffer r) as [b|]; try by apply keeps_signal.
    destruct (negb (isSafeInteger o)); [by apply keeps_signal|].
    destruct (requested_target_normal page_href opts (er_location r) Ht) as [[[t app]|] Er]; unfold keeps;
      rewrite Er; unfold bind at 1, lift_b at 1, ret at 1; [|by apply keeps_signal].
    destruct (_ || _); [by apply keeps_signal|].
    destruct (adapter_script_normal parse_URL page_href page_origin opts t app Ht) as [u Eu]. rewrite Eu.
    unfold bind at 1, lift_b at 1, ret at 1. destruct (some_nonempty u); [by apply keeps_on_adapter_request|by apply keeps_signal].
  - destruct (resolveWorkerUrl_normal parse_URL page_href page_origin opts (er_location r) Ht) as [u Eu]. unfold keeps.
    rewrite Eu. unfold bind at 1, lift_b at 1, ret at 1.
    destruct (some_nonempty u); [by apply keeps_on_plain_request|by apply keeps_signal].
Qed.
End Keeps.

(** ** The bridge *)

Lemma initial_bridge_ok : bridge_ok initial_bridge.
Proof.
  split; cbn; try by intros *; rewrite ?lookup_empty.
  - intros w b H. by apply not_elem_of_nil in H.
  - constructor.
Qed.

Section Run.
Context (parse_URL : string -> string -> Outcome (string * string)) (page_href page_origin : string)
  (opts : VgiWebWorkerBridgeOptions) (max : Z) (Htotal : total_resolvers opts).

Lemma step_accounted x r s s' : bridge_step parse_URL page_href page_origin opts max r s s' -> bridge_ok s ->
  bridge_ok s' /\
  accounted x s' = (occurrences x (match r with Some r => [er_id r] | None => [] end) + accounted x s)%nat.
Proof.
  intros Hstep Hs.
  assert (forall n m, keeps x n m s -> bridge_ok (m s).2 /\ accounted x (m s).2 = (n + accounted x s)%nat) as H.
  { by intros n m (s1 & -> & H1 & H2). }
  destruct Hstep; apply H.
  - by apply keeps_on_ensure.
  - by apply keeps_spawn_settled.
  - by apply keeps_on_worker_message.
  - by apply keeps_queue_step.
  - by apply keeps_registration_timeout.
Qed.

Lemma run_accounted ids s : bridge_run parse_URL page_href page_origin opts max ids s ->
  bridge_ok s /\ forall x, accounted x s = occurrences x ids.
Proof.
  induction 1 as [|ids s r s' _ [Hs IH] Hstep]; [split; [apply initial_bridge_ok|done]|].
  split; [by apply (step_accounted 0 r s s')|]. intros x. destruct (step_accounted x r s s' Hstep Hs) as [_ ->].
  rewrite IH, occurrences_app. lia.
Qed.
End Run.

(** *** Runs to evaluate *)

Inductive Event :=
| Ev_ensure (r : EnsureRequest)
| Ev_spawn (fetch : string -> Outcome FetchResponse) (w b : Z)
| Ev_message (w : Z) (m : WorkerMessage)
| Ev_queue (load : Lanes) (k : string)
| Ev_timeout (k : string).

Section Drive.
Context (parse_URL : string -> string -> Outcome (string * string)) (page_href page_origin : string)
  (opts : VgiWebWorkerBridgeOptions) (max : Z).

Definition drive1 (ev : Event) (s : Bridge) : Bridge :=
  match ev with
  | Ev_ensure r => (on_ensure parse_URL page_href page_origin opts r s).2
  | Ev_spawn fetch w b =>
      if decide ((w ∉ (fst <$> spawned s)) /\ (Some w <> irohAdapterWorker opts))
      then (spawn_settled parse_URL page_href page_origin fetch w b s).2 else s
  | Ev_message w m => (on_worker_message w m s).2
  | Ev_queue load k => (queue_step max load load k s).2
  | Ev_timeout k => (registration_timeout k s).2
  end.
Definition drive (l : list Event) : Bridge := foldl (fun s ev => drive1 ev s) initial_bridge l.
Definition requests_of (l : list Event) : list Z :=
  l ≫= fun ev => match ev with Ev_ensure r => [er_id r] | _ => [] end.

Lemma drive_run l : bridge_run parse_URL page_href page_origin opts max (requests_of l) (drive l).
Proof.
  unfold drive, requests_of. induction l as [|ev l IH] using rev_ind; [constructor|].
  rewrite foldl_app, bind_app. cbn. rewrite app_nil_r. destruct ev as [r|fetch w b|w m|load k|k]; cbn.
  - apply (br_step _ _ _ _ _ _ _ (Some r) _ IH). constructor.
  - destruct (decide _) as [[H1 H2]|]; [|by rewrite app_nil_r].
    apply (br_step _ _ _ _ _ _ _ None _ IH). by apply bs_spawn.
  - apply (br_step _ _ _ _ _ _ _ None _ IH). constructor.
  - apply (br_step _ _ _ _ _ _ _ None _ IH). constructor.
  - apply (br_step _ _ _ _ _ _ _ None _ IH). constructor.
Qed.
End Drive.

(** ** The promises *)

(** Whatever the engine asks and the workers answer, in any order, a request the
    bridge received was signalled or waits for a boot or in the queue of an adapter:
    as often as it was received, so never both, and never signalled twice. *)
Theorem requests_are_answered_once parse_URL page_href page_origin opts max ids s x :
  total_resolvers opts -> bridge_run parse_URL page_href page_origin opts max ids s ->
  occurrences x ids = (occurrences x (signals s).*1 + waiting x s)%nat.
Proof.
  intros Ht Hr. destruct (run_accounted parse_URL page_href page_origin opts max Ht ids s Hr) as [_ H]. by rewrite <- H.
Qed.

(** A parser that knows two hosts. *)
Definition two_hosts (l base : string) : Outcome (string * string) :=
  if startsWith "/" l then Normal (l, base) else if startsWith "https://cdn/" l then Normal (l, "https://cdn"%string)
  else Thrown (Error "Invalid URL").
Definition plain_options : VgiWebWorkerBridgeOptions :=
  {| o_resolveWorkerUrl := None; o_resolveAdapterTarget := None; irohAdapterWorker := Some 9;
     o_resolveIrohTarget := None; o_maxTargetsPerAdapter := None; allowRemoteOrigins := allow_list ["https://cdn"%string] |}.
Definition message (t : string) : WorkerMessage := {| wm_type := t; wm_requestId := None; wm_error := None |}.
Definition request (id : Z) (l : string) : EnsureRequest :=
  {| er_id := id; er_location := l; er_offset := Some 1024; er_buffer := Some 7 |}.
Definition no_fetch (u : string) : Outcome FetchResponse := Thrown (Error "network").

(** Two requests share a boot that succeeds, a third is refused, a fourth waits. *)
Definition some_requests : list Event :=
  [Ev_ensure (request 1 "/w.js"); Ev_ensure (request 2 "/w.js"); Ev_ensure (request 3 "ftp:x");
   Ev_ensure (request 4 "https://cdn/w.js"); Ev_spawn no_fetch 5 0; Ev_message 5 (message "vgi-ready")].

Lemma plain_options_total : total_resolvers plain_options.
Proof. by split. Defined.

Lemma requests_are_answered_once_witness :
  let s := drive two_hosts "/" "/" plain_options 32 some_requests in
  signals s = [(3, -1); (1, 1); (2, 1)] /\ waiting 4 s = 1%nat /\
  occurrences 2 (requests_of some_requests) = (occurrences 2 (signals s).*1 + waiting 2 s)%nat.
Proof.
  split; [vm_compute; reflexivity|]. split; [vm_compute; reflexivity|].
  apply (requests_are_answered_once two_hosts "/" "/" plain_options 32); [apply plain_options_total|apply drive_run].
Defined.

(** A script or an adapter key is booted by one worker at a time, and an adapter
    that is up is not booted again: requests that come meanwhile join the boot. *)
Theorem boots_are_shared parse_URL page_href page_origin opts max ids s b1 b2 bt1 bt2 :
  total_resolvers opts -> bridge_run parse_URL page_href page_origin opts max ids s ->
  boots s !! b1 = Some bt1 -> boots s !! b2 = Some bt2 -> settled bt1 = false -> settled bt2 = false ->
  adapter_of bt1 = adapter_of bt2 -> (adapter_of bt1 = None -> b_url bt1 = b_url bt2) ->
  b1 = b2 /\ forall k, adapter_of bt1 = Some k -> adapters s !! k = None.
Proof.
  intros Ht Hr H1 H2 O1 O2 Ek Eu. destruct (run_accounted parse_URL page_href page_origin opts max Ht ids s Hr) as [Hs _].
  destruct (ok_boots _ _ Hs b1 bt1 ltac:(done) H1) as [_ P1], (ok_boots _ _ Hs b2 bt2 ltac:(done) H2) as [_ P2].
  unfold settled in O1, O2. rewrite <- Ek in P2. destruct (adapter_of bt1) as [k|].
  - assert (pendingAdapters s !! k = Some b1 /\ adapters s !! k = None) as [Q1 Q] by (destruct (b_phase bt1); naive_solver).
    assert (pendingAdapters s !! k = Some b2) by (destruct (b_phase bt2); naive_solver). split; [congruence|]. by intros k' [= <-].
  - rewrite (Eu eq_refl) in P1. assert (pending s !! b_url bt2 = Some b1) by (destruct (b_phase bt1); naive_solver).
    assert (pending s !! b_url bt2 = Some b2) by (destruct (b_phase bt2); naive_solver). split; [congruence|done].
Qed.

Lemma boots_are_shared_witness :
  let s := drive two_hosts "/" "/" plain_options 32
    [Ev_ensure (request 1 "/w.js"); Ev_ensure (request 2 "/w.js"); Ev_ensure (request 3 "iroh://x")] in
  b_joiners <$> boots s !! 0 = Some [J_plain 2] /\ nextBoot s = 1 /\
  forall b bt, boots s !! b = Some bt -> settled bt = false -> adapter_of bt = None -> b_url bt = "/w.js"%string -> 0 = b.
Proof.
  intros s. split; [vm_compute; reflexivity|]. split; [vm_compute; reflexivity|].
  intros b bt Hb Ho Hk Hu.
  destruct (boots s !! 0) as [bt0|] eqn:H0; [|exfalso; vm_compute in H0; discriminate].
  assert (settled bt0 = false /\ adapter_of bt0 = None /\ b_url bt0 = "/w.js"%string) as (H1 & H2 & H3).
  { vm_compute in H0. injection H0 as <-. repeat split. }
  destruct (boots_are_shared two_hosts "/" "/" plain_options 32 _ s 0 b bt0 bt plain_options_total
    (drive_run two_hosts "/" "/" plain_options 32 _) H0 Hb H1 Ho) as [E _]; [congruence..|exact E].
Defined.

(** *** Requests that are left without an answer, and answers that are wrong *)

(** A resolver of the application that throws ends the handler: nothing signals the request. *)
Lemma a_throwing_resolver_strands_its_request :
  let opts := {| o_resolveWorkerUrl := Some (fun _ => Thrown (Error "no")); o_resolveAdapterTarget := None;
                 irohAdapterWorker := None; o_resolveIrohTarget := None; o_maxTargetsPerAdapter := None;
                 allowRemoteOrigins := allow_none |} in
  let s := drive two_hosts "/" "/" opts 32 [Ev_ensure (request 1 "/w.js")] in
  signals s = [] /\ waiting 1 s = 0%nat.
Proof. vm_compute. split; reflexivity. Qed.

(** A worker that reports an error after it was ready is terminated, and later requests are told it is ready. *)
Lemma a_terminated_worker_stays_ready :
  let s := drive two_hosts "/" "/" plain_options 32
    [Ev_ensure (request 1 "/w.js"); Ev_spawn no_fetch 5 0; Ev_message 5 (message "vgi-ready");
     Ev_message 5 (message "vgi-error"); Ev_ensure (request 2 "/w.js")] in
  terminated s = [5] /\ signals s = [(1, 1); (2, 1)].
Proof. vm_compute. split; reflexivity. Qed.
