(* ===== verification/VgiRegions.v ===== *)
(** * VgiRegions: the shared memory regions an adapter serves

    An adapter is told of at most [maxTargetsPerAdapter] regions, one for a target
    and one for a place in memory, whatever the order in which registrations,
    answers, timeouts and boots come; a region in use is never taken away. *)
From S2P Require Import Prelude Regex JsMap WasmModule S3 Vgi VgiRequests.
From stdpp Require Import base tactics list gmap strings.
From Stdlib Require Import ZArith Lia.
Open Scope Z_scope.

(** ** Maps in insertion order *)

Section Maps.
Context {K V : Type} `{EqDecision K}.
Implicit Types m : list (K * V).

Lemma mget_elem k v m : NoDup (keys m) -> ((k, v) ∈ m <-> mget k m = Some v).
Proof.
  induction m as [|[k' v'] m IH]; intros Hd; [split; [by intros ?%not_elem_of_nil|done]|].
  apply NoDup_cons in Hd as [Hn Hd]. rewrite elem_of_cons. cbn. case_decide as E; [subst k'|].
  - split; [|intros [= ->]; by left]. intros [[= ->]|Hin]; [done|]. exfalso. apply Hn.
    apply list_elem_of_fmap. by exists (k, v).
  - rewrite <- IH by done. split; [|by right]. intros [[= -> ->]|Hin]; done.
Qed.

Lemma length_mset k v m : length (mset k v m) = if mhas k m then length m else S (length m).
Proof.
  unfold mhas. induction m as [|[k' v'] m IH]; [done|]. cbn. case_decide as E; [done|]. cbn. rewrite IH.
  by case_bool_decide.
Qed.
Lemma length_mdelete k m : (length (mdelete k m) <= length m)%nat.
Proof. induction m as [|[k' v'] m IH]; cbn; [done|]. case_decide; cbn; lia. Qed.
Lemma length_mdelete_Some k v m : mget k m = Some v -> length m = S (length (mdelete k m)).
Proof. induction m as [|[k' v'] m IH]; cbn; [done|]. case_decide; [done|]. intros Hk. cbn. by rewrite <- IH. Qed.

(** Several keys go. *)
Definition mdeletes (ks : list K) m : list (K * V) := foldl (fun m k => mdelete k m) m ks.
Lemma mdeletes_spec ks m : NoDup (keys m) ->
  NoDup (keys (mdeletes ks m)) /\ (forall k, mget k (mdeletes ks m) = if decide (k ∈ ks) then None else mget k m) /\
  (length (mdeletes ks m) <= length m)%nat.
Proof.
  unfold mdeletes. revert m. induction ks as [|k ks IH]; intros m Hd; cbn [foldl].
  - split; [done|]. split; [|done]. intros k. rewrite decide_False; [done|apply not_elem_of_nil].
  - destruct (IH (mdelete k m) (NoDup_mdelete k m Hd)) as (H1 & H2 & H3). split; [done|]. split.
    + intros k'. rewrite H2. destruct (decide (k' ∈ ks)) as [Hin|Hn]; [rewrite decide_True; [done|by right]|].
      destruct (decide (k' = k)) as [->|N]; [rewrite decide_True by left; by apply mget_mdelete|].
      rewrite decide_False; [by apply mget_mdelete_ne|]. rewrite elem_of_cons. tauto.
    + pose proof (length_mdelete k m). lia.
Qed.
Lemma mdeletes_shrinks k v ks m : NoDup (keys m) -> k ∈ ks -> mget k m = Some v -> (length (mdeletes ks m) < length m)%nat.
Proof.
  unfold mdeletes. revert m. induction ks as [|k' ks IH]; intros m Hd Hin Hk; [by apply not_elem_of_nil in Hin|]. cbn [foldl].
  destruct (decide (k = k')) as [<-|N].
  - pose proof (proj2 (proj2 (mdeletes_spec ks (mdelete k m) (NoDup_mdelete k m Hd)))) as Hle.
    rewrite (length_mdelete_Some k v m Hk). unfold mdeletes in Hle. lia.
  - apply elem_of_cons in Hin as [->|Hin]; [done|].
    pose proof (length_mdelete k' m). apply Nat.lt_le_trans with (length (mdelete k' m)); [|lia].
    apply IH; [by apply NoDup_mdelete|done|by rewrite mget_mdelete_ne].
Qed.
End Maps.

(** ** The invariant *)

Definition place (r : TargetRegion) : Z * Z := (offset r, buffer r).

Section Regions.
Context (max : Z) (max_pos : 0 < max).

(** The regions of an adapter, by target. *)
Record regions_ok (rs : list (string * TargetRegion)) : Prop := {
  re_keys : NoDup (JsMap.keys rs);
  re_target t r : mget t rs = Some r -> target r = t;
  re_place t t' r r' : mget t rs = Some r -> mget t' rs = Some r' -> place r = place r' -> t = t';
  re_bound : lenZ rs <= max
}.

(** There is room for one more. *)
Definition room_for (rs : list (string * TargetRegion)) (t : string) (p : Z * Z) : Prop :=
  mget t rs = None /\ (forall t' r, mget t' rs = Some r -> place r <> p) /\ lenZ rs < max.

Record entry_ok (e : AdapterEntry) : Prop := {
  en_regions : regions_ok (regions e);
  en_tail : Forall (fun op => op_phase op = Queued) (tail (registrationQueue e));
  en_head op q id next : registrationQueue e = op :: q -> op_phase op = Registering id next ->
    target next = op_target op /\ room_for (regions e) (op_target op) (place next)
}.

Definition adapters_ok (s : Bridge) : Prop := forall k e, adapters s !! k = Some e -> entry_ok e.

Lemma regions_ok_add rs t r : regions_ok rs -> target r = t -> room_for rs t (place r) -> regions_ok (mset t r rs).
Proof.
  intros [H1 H2 H3 H4] Ht (R1 & R2 & R3). split.
  - by apply NoDup_mset.
  - intros t' r'. destruct (decide (t' = t)) as [->|N]; [rewrite mget_mset; by intros [= <-]|rewrite mget_mset_ne by done; apply H2].
  - intros t1 t2 r1 r2 E1 E2 Ep. destruct (decide (t1 = t)) as [->|N1], (decide (t2 = t)) as [->|N2]; [done|..].
    + rewrite mget_mset in E1. rewrite mget_mset_ne in E2 by done. injection E1 as <-. by destruct (R2 _ _ E2).
    + rewrite mget_mset_ne in E1 by done. rewrite mget_mset in E2. injection E2 as <-. by destruct (R2 _ _ E1).
    + rewrite mget_mset_ne in E1, E2 by done. by apply (H3 _ _ _ _ E1 E2).
  - unfold lenZ in *. rewrite length_mset. case_match; lia.
Qed.

(** A region is used again. *)
Lemma regions_ok_touch rs t r r' : regions_ok rs -> mget t rs = Some r -> target r' = target r -> place r' = place r ->
  regions_ok (mset t r' rs).
Proof.
  intros [H1 H2 H3 H4] Ht Et Ep.
  assert (forall t1 r1, mget t1 (mset t r' rs) = Some r1 -> exists r0, mget t1 rs = Some r0 /\ target r1 = target r0 /\ place r1 = place r0) as H.
  { intros t1 r1. destruct (decide (t1 = t)) as [->|N]; [rewrite mget_mset; intros [= <-]; by exists r|].
    rewrite mget_mset_ne by done. by exists r1. }
  split.
  - by apply NoDup_mset.
  - intros t1 r1 E. destruct (H t1 r1 E) as (r0 & E0 & -> & _). by apply H2.
  - intros t1 t2 r1 r2 E1 E2 E. destruct (H t1 r1 E1) as (r3 & E3 & _ & P3), (H t2 r2 E2) as (r4 & E4 & _ & P4).
    apply (H3 _ _ _ _ E3 E4). congruence.
  - unfold lenZ in *. rewrite length_mset. unfold mhas. rewrite Ht. cbn. lia.
Qed.

Lemma regions_ok_deletes rs ks : regions_ok rs -> regions_ok (mdeletes ks rs).
Proof.
  intros [H1 H2 H3 H4]. destruct (mdeletes_spec ks rs H1) as (D1 & D2 & D3).
  assert (forall t r, mget t (mdeletes ks rs) = Some r -> mget t rs = Some r) as H by (intros t r; rewrite D2; by case_decide).
  split; [done|by intros t r Ht; apply H2, H| |unfold lenZ in *; lia].
  intros t t' r r' E1 E2. apply (H3 t t' r r'); by apply H.
Qed.

(** *** Making room *)

Lemma foldl_mdelete (l : list TargetRegion) (rs : list (string * TargetRegion)) :
  foldl (fun m r => mdelete (target r) m) rs l = mdeletes (target <$> l) rs.
Proof. unfold mdeletes. revert rs. induction l as [|r l IH]; intros rs; [done|]. cbn. apply IH. Qed.

Lemma least_recently_used_in l r : least_recently_used l = Some r -> r ∈ l.
Proof.
  unfold least_recently_used.
  assert (forall o, foldl (fun best r => match best with
    | Some b => if lastUsed r <? lastUsed b then Some r else best
    | None => Some r end) o l = Some r -> o = Some r \/ r ∈ l) as H.
  { induction l as [|r' l IH]; intros o Ho; [by left|]. destruct (IH _ Ho) as [E|E]; [|right; by right].
    destruct o as [b|]; [destruct (_ <? _)|]; simplify_eq; try (right; left; done). by left. }
  intros Hr. by destruct (H None Hr).
Qed.

(** The regions in the way are regions of the adapter, and without them there is room. *)
Lemma conflicts_spec load e op rs : regions_ok (regions e) -> conflicts max load e op = Some rs ->
  (forall r, r ∈ rs -> mget (target r) (regions e) = Some r) /\
  room_for (mdeletes (target <$> rs) (regions e)) (op_target op) (op_offset op, op_buffer op).
Proof.
  intros Hr Hc. pose proof Hr as [H1 H2 H3 H4]. unfold conflicts in Hc.
  set (current := mget (op_target op) (regions e)) in *.
  set (others := snd <$> filter (fun kr : string * TargetRegion => kr.1 <> op_target op /\ offset kr.2 = op_offset op /\ buffer kr.2 = op_buffer op) (regions e)) in *.
  assert (forall r, r ∈ others <-> exists t, mget t (regions e) = Some r /\ t <> op_target op /\ place r = (op_offset op, op_buffer op)) as Hothers.
  { intros r. unfold others. rewrite list_elem_of_fmap. split.
    - intros ([t r'] & -> & Hin). apply list_elem_of_filter in Hin as [(N & Eo & Eb) Hin]. cbn in *.
      exists t. rewrite <- mget_elem by done. split; [done|]. split; [done|]. unfold place. congruence.
    - intros (t & Ht & N & Ep). exists (t, r). split; [done|]. apply list_elem_of_filter. cbn. unfold place in Ep.
      split; [naive_solver|]. by apply mget_elem. }
  assert (forall r, r ∈ snd <$> regions e -> mget (target r) (regions e) = Some r) as Hin.
  { intros r Hr'. apply list_elem_of_fmap in Hr' as ([t r'] & -> & Hin). apply mget_elem in Hin; [|done].
    cbn. by rewrite (H2 t r' Hin). }
  assert (forall r, r ∈ option_list current ++ others -> mget (target r) (regions e) = Some r) as Hfound.
  { intros r [Hc'|Ho]%elem_of_app.
    - unfold current in Hc'. destruct (mget (op_target op) (regions e)) as [c|] eqn:Ec; cbn in Hc'; [|by apply not_elem_of_nil in Hc'].
      apply list_elem_of_singleton in Hc'. subst c. by rewrite (H2 _ _ Ec).
    - apply Hothers in Ho as (t & Ht & _). by rewrite (H2 _ _ Ht). }
  assert (forall ks, (forall r, r ∈ option_list current ++ others -> target r ∈ ks) ->
    mget (op_target op) (mdeletes ks (regions e)) = None /\
    forall t' r, mget t' (mdeletes ks (regions e)) = Some r -> place r <> (op_offset op, op_buffer op)) as Hroom.
  { intros ks Hks. destruct (mdeletes_spec ks (regions e) H1) as (_ & D2 & _). split.
    - rewrite D2. case_decide as Hd; [done|]. destruct (mget (op_target op) (regions e)) as [c|] eqn:Ec; [|done].
      exfalso. apply Hd. rewrite <- (H2 _ _ Ec). apply Hks, elem_of_app. left. unfold current. rewrite ?Ec. by apply list_elem_of_singleton.
    - intros t' r. rewrite D2. case_decide as Hd; [done|]. intros Ht Ep. apply Hd. rewrite <- (H2 _ _ Ht). apply Hks, elem_of_app.
      destruct (decide (t' = op_target op)) as [->|N]; [left; unfold current; rewrite ?Ht; by apply list_elem_of_singleton|].
      right. apply Hothers. eauto. }
  destruct (bool_decide (option_list current ++ others = []) && (max <=? lenZ (regions e))) eqn:Efull.
  - apply andb_true_iff in Efull as [Enil%bool_decide_eq_true _]. rewrite Enil in *.
    destruct (least_recently_used _) as [v|] eqn:Ev; simplify_eq/=. apply least_recently_used_in, list_elem_of_filter in Ev as [_ Ev].
    split; [intros r Hr'; apply list_elem_of_singleton in Hr' as ->; by apply Hin|].
    destruct (Hroom [target v]) as [R1 R2]; [intros r Hr'; by apply not_elem_of_nil in Hr'|]. split; [done|]. split; [done|].
    pose proof (mdeletes_shrinks (target v) v [target v] (regions e) H1 ltac:(by left) (Hin v Ev)). change (lenZ (mdeletes [target v] (regions e)) < max). unfold lenZ in *. lia.
  - simplify_eq. split; [done|]. destruct (Hroom (target <$> option_list current ++ others)) as [R1 R2];
      [intros r Hr'; by apply list_elem_of_fmap_2|]. split; [done|]. split; [done|].
    destruct (option_list current ++ others) as [|r l] eqn:El.
    + cbn in Efull. change (mdeletes (target <$> []) (regions e)) with (regions e). lia.
    + change (lenZ (mdeletes (target r :: (target <$> l)) (regions e)) < max).
      pose proof (mdeletes_shrinks (target r) r (target r :: (target <$> l)) (regions e) H1
        ltac:(apply list_elem_of_here) (Hfound r ltac:(apply list_elem_of_here))).
      unfold lenZ in *. lia.
Qed.

(** ** The operations *)

Lemma adapters_ok_set s k e : adapters_ok s -> entry_ok e -> adapters_ok (set_adapters (<[k := e]> (adapters s)) s).
Proof. intros Hs He k' e' Hk. cbn in Hk. apply lookup_insert_Some in Hk as [[<- <-]|[N Hk]]; [done|by apply (Hs k')]. Qed.

(** An adapter with its first operation settled and its regions changed. *)
Lemma entry_ok_tail e op q rs : entry_ok e -> registrationQueue e = op :: q -> regions_ok rs ->
  entry_ok (with_queue q (with_regions rs e)).
Proof.
  intros [_ Ht _] Hq Hr. rewrite Hq in Ht. cbn in Ht. split; cbn; [done| |].
  - destruct q; [done|]. by apply Forall_inv_tail in Ht.
  - intros op' q' id next -> Hp. apply Forall_inv in Ht. congruence.
Qed.

Lemma settled_ok k e e' op q v s : adapters_ok s -> entry_ok e -> registrationQueue e = op :: q ->
  regions_ok (regions e') -> registrationQueue e' = op :: q -> adapters_ok (operation_settled k e' op v s).2.
Proof.
  intros Hs He Hq Hr Hq'. apply (adapters_ok_set s k); [done|]. rewrite Hq'. cbn [tail].
  pose proof (entry_ok_tail e op q (regions e') He Hq Hr) as [H1 H2 H3]. split; [done|exact H2|exact H3].
Qed.

Lemma ensure_ok k r t o b s : adapters_ok s -> adapters_ok (ensureAdapterRegion k r t o b s).2.
Proof.
  intros Hs. unfold ensureAdapterRegion, bind, gets. destruct (adapters s !! k) as [e|] eqn:He; [|done].
  apply adapters_ok_set; [done|]. destruct (Hs k e He) as [H1 H2 H3]. split; cbn; [done| |].
  - destruct (registrationQueue e); [constructor|]. cbn in *. apply Forall_app. by repeat constructor.
  - intros op q id next Hq Hp. destruct (registrationQueue e) as [|op' q'] eqn:Eq; cbn in Hq; [by injection Hq as <- <-|].
    injection Hq as <- <-. by apply (H3 op' q' id next).
Qed.

Lemma finish_ok k r u t o b : preserves adapters_ok (finish k r u t o b).
Proof.
  intros s Hs. unfold finish, bind, gets. destruct (adapters s !! k) as [e|] eqn:He; [|done].
  case_match; [by apply ensure_ok|exact Hs].
Qed.

Lemma posts_adapters {A} w (l : list A) (g : A -> VgiPost) s :
  exists s', for_of l (fun a => post_to w (g a)) s = (Normal tt, s') /\ adapters s' = adapters s.
Proof.
  revert s. induction l as [|a l IH]; intros s; [by exists s|].
  destruct (IH (add_post (w, g a) s)) as (s' & E & D). exists s'. split; [exact E|exact D].
Qed.

(** The entry while the first operation waits for the answer to its registration. *)
Definition registering (e : AdapterEntry) (op : Operation) (rs : list TargetRegion) (id : string) (next : TargetRegion)
    : AdapterEntry :=
  with_queue ({| op_request := op_request op; op_target := op_target op; op_offset := op_offset op; op_buffer := op_buffer op;
                 op_phase := Registering id next |} :: tail (registrationQueue e))
    (with_regions (foldl (fun m r => mdelete (target r) m) (regions e) rs) e).

(** What [rebind] does to the adapters: it settles the operation, or registers. *)
Lemma rebind_adapters load1 load2 k e op s :
  (exists v, rebind max load1 load2 k e op s = operation_settled k e op v s) \/
  (exists rs id n, conflicts max load1 e op = Some rs /\ forallb (regionIsIdle load2) rs = true /\
    adapters (rebind max load1 load2 k e op s).2 =
      <[k := registering e op rs id {| target := op_target op; offset := op_offset op; buffer := op_buffer op; lastUsed := n |}]> (adapters s)).
Proof.
  unfold rebind. destruct (conflicts max load1 e op) as [rs|]; [|left; eauto].
  destruct (forallb (regionIsIdle load2) rs) eqn:Ei; [right|left; eauto]. cbn [negb].
  set (s1 := set_touch (touch s + 1) s).
  destruct (posts_adapters (worker e) rs (fun r => vgi_unregister_target (target r) (offset r)) s1) as (s2 & E2 & D2).
  exists rs, (request_id (registrationSequence s2 + 1)), (touch s + 1). split; [done|]. split; [done|].
  unfold next_touch. cbn [bind modify gets]. fold s1. unfold bind at 1. rewrite E2. cbn. by rewrite D2.
Qed.

Lemma rebind_ok load1 load2 k e op q s : adapters_ok s -> entry_ok e -> registrationQueue e = op :: q ->
  adapters_ok (rebind max load1 load2 k e op s).2.
Proof.
  intros Hs He Hq. destruct (rebind_adapters load1 load2 k e op s) as [[v ->]|(rs & id & n & Hc & _ & E)].
  { by apply (settled_ok k e e op q); try apply He. }
  destruct (conflicts_spec load1 e op rs (en_regions _ He) Hc) as [_ Hroom].
  intros k' e' Hk'. rewrite E in Hk'. apply lookup_insert_Some in Hk' as [[<- <-]|[N Hk']]; [|by apply (Hs k')].
  unfold registering. rewrite foldl_mdelete. split; cbn.
  - apply regions_ok_deletes, He.
  - apply He.
  - intros op' q' id' next [= <- <-] Hp. cbn in *. injection Hp as <- <-. done.
Qed.

Lemma start_ok load1 load2 k e op q s : adapters_ok s -> entry_ok e -> registrationQueue e = op :: q ->
  adapters_ok (start_operation max load1 load2 k e op s).2.
Proof.
  intros Hs He Hq. unfold start_operation. destruct (mget (op_target op) (regions e)) as [current|] eqn:Ec; [|by apply (rebind_ok _ _ k e op q)].
  destruct (_ && _); [|by apply (rebind_ok _ _ k e op q)].
  apply (settled_ok k e _ op q 1 (set_touch (touch s + 1) s)); try done. cbn.
  by apply (regions_ok_touch _ _ current); [apply He|..].
Qed.

Lemma registration_settled_ok k e op q id next ok s : adapters_ok s -> entry_ok e -> registrationQueue e = op :: q ->
  op_phase op = Registering id next -> adapters_ok (registration_settled k e op next ok s).2.
Proof.
  intros Hs He Hq Hp. destruct (en_head _ He op q id next Hq Hp) as [Ht Hroom].
  unfold registration_settled. destruct ok; (apply (settled_ok k e _ op q); try done); [|apply He].
  by apply regions_ok_add; [apply He|..].
Qed.

Lemma queue_step_ok load1 load2 k : preserves adapters_ok (queue_step max load1 load2 k).
Proof.
  intros s Hs. unfold queue_step. unfold bind at 1, gets at 1. destruct (adapters s !! k) as [e|] eqn:He; [|done].
  destruct (registrationQueue e) as [|op q] eqn:Hq; [done|]. destruct (op_phase op); [|done].
  by apply (start_ok _ _ k e op q); [|apply (Hs k)|].
Qed.

Lemma timeout_ok k : preserves adapters_ok (registration_timeout k).
Proof.
  intros s Hs. unfold registration_timeout. unfold bind at 1, gets at 1. destruct (adapters s !! k) as [e|] eqn:He; [|done].
  destruct (registrationQueue e) as [|op q] eqn:Hq; [done|]. destruct (op_phase op) as [|id next] eqn:Hp; [done|].
  by apply (registration_settled_ok k e op q id); [|apply (Hs k)|..].
Qed.

Lemma adapter_message_ok m k : preserves adapters_ok (on_adapter_message m k).
Proof.
  intros s Hs. unfold on_adapter_message. unfold bind at 1, gets at 1. destruct (adapters s !! k) as [e|] eqn:He; [|done].
  assert (exists s1, (when negb (is_target_answer m) then forward (worker e) m) s = (Normal tt, s1) /\ adapters s1 = adapters s) as (s1 & E1 & D1).
  { destruct (negb _); eauto. }
  assert (adapters_ok s1) as Hs1 by (unfold adapters_ok; by rewrite D1).
  unfold bind. rewrite E1. destruct (registrationQueue e) as [|op q] eqn:Hq; [done|].
  destruct (op_phase op) as [|id next] eqn:Hp; [done|]. destruct (_ && _); [|done].
  by apply (registration_settled_ok k e op q id); [|apply (Hs k)|..].
Qed.

(** Parts that leave the adapters alone. *)
Lemma preserves_same {A} (m : JS Bridge A) : (forall s, adapters (m s).2 = adapters s) -> preserves adapters_ok m.
Proof. intros H s Hs. unfold adapters_ok. by rewrite H. Qed.

Lemma settle_boot_ok b ok : preserves adapters_ok (settle_boot b ok).
Proof.
  intros s Hs. unfold settle_boot. unfold bind at 1, gets at 1. destruct (boots s !! b) as [bt|]; [|done].
  assert (preserves adapters_ok (for_of (b_joiners bt) (settle_joiner ok (match b_kind bt with Boot_adapter k _ _ => Some k | Boot_plain _ _ => None end)))) as Hj.
  { apply preserves_for_of. intros [r|r u t o b']; cbn; [by apply preserves_same|].
    destruct (b_kind bt); [by apply preserves_same|]. destruct ok; [apply finish_ok|by apply preserves_same]. }
  destruct (b_phase bt); [| |done]; unfold bind, modify, signal; cbn -[for_of]; apply Hj; by destruct (b_kind bt).
Qed.

Lemma boot_message_ok w b m : preserves adapters_ok (on_boot_message w b m).
Proof.
  intros s Hs. unfold on_boot_message. unfold bind at 1, gets at 1. destruct (boots s !! b) as [bt|]; [|done].
  destruct (String.eqb _ _); [|destruct (String.eqb _ _); [|exact Hs]].
  - destruct (b_kind bt) as [o bf|k r app]; unfold bind, modify, remove_listener, set_entry; cbn -[settle_boot]; apply settle_boot_ok; [exact Hs|].
    apply (adapters_ok_set (set_listeners _ s) k); [exact Hs|]. split; cbn.
    + split; cbn.
      * apply NoDup_singleton.
      * intros t r'. case_decide; [|done]. by intros [= <-].
      * intros t t' r1 r2. repeat case_decide; congruence.
      * unfold lenZ. cbn. lia.
    + constructor.
    + done.
  - unfold remove_listener. destruct (b_kind bt) as [o bf|k r [app|]]; unfold bind, modify, ret; cbn -[settle_boot]; apply settle_boot_ok; exact Hs.
Qed.

Lemma worker_message_ok w m : preserves adapters_ok (on_worker_message w m).
Proof.
  unfold on_worker_message. repeat (apply preserves_bind; [apply preserves_gets|]; intros ?).
  apply preserves_bind; [apply preserves_for_of; intros; apply boot_message_ok|].
  intros _. apply preserves_for_of. intros; apply adapter_message_ok.
Qed.

Lemma spawn_ok parse_URL page_href page_origin fetch w b :
  preserves adapters_ok (spawn_settled parse_URL page_href page_origin fetch w b).
Proof.
  intros s Hs. unfold spawn_settled. unfold bind at 1, gets at 1. destruct (boots s !! b) as [bt|]; [|done].
  destruct (b_phase bt); [|done..].
  assert (adapters_ok (match spawnWorker parse_URL page_href page_origin fetch (b_url bt) with
    | Normal script => modify (add_spawned (w, script)) ;;; handshake b w bt
    | Thrown _ => settle_boot b false
    end s).2) as H.
  { destruct (spawnWorker _ _ _ _ _); [exact Hs|by apply settle_boot_ok]. }
  destruct (b_kind bt) as [o bf|k r [app|]]; [exact H|exact Hs|exact H].
Qed.

Lemma ensure_request_ok parse_URL page_href page_origin opts r :
  preserves adapters_ok (on_ensure parse_URL page_href page_origin opts r).
Proof.
  assert (forall A (o : Outcome A), preserves adapters_ok (lift_b o)) as Hl by (intros A [] s Hs; exact Hs).
  assert (forall v, preserves adapters_ok (signal (er_id r) v)) as Hsig by (intros v s Hs; exact Hs).
  unfold on_ensure. destruct (_ || _).
  - destruct (er_offset r) as [o|], (er_buffer r) as [b|]; auto. destruct (negb _); auto.
    apply preserves_bind; [auto|]. intros [[t app]|]; [|auto]. destruct (_ || _); [auto|].
    apply preserves_bind; [auto|]. intros u. destruct (some_nonempty u) as [u'|]; [|auto].
    intros s Hs. unfold on_adapter_request. unfold bind at 1 2, gets at 1 2.
    destruct (adapters s !! adapterKey t); [by apply finish_ok|]. destruct (pendingAdapters s !! adapterKey t); exact Hs.
  - apply preserves_bind; [auto|]. intros u. destruct (some_nonempty u) as [u'|]; [|auto].
    intros s Hs. unfold on_plain_request. unfold bind at 1 2, gets at 1 2.
    destruct (workers s !! u'); [exact Hs|]. destruct (pending s !! u'); exact Hs.
Qed.

Lemma run_ok parse_URL page_href page_origin opts ids s :
  bridge_run parse_URL page_href page_origin opts max ids s -> adapters_ok s.
Proof.
  induction 1 as [|ids s r s' _ IH Hstep]; [by intros k e; cbn; rewrite lookup_empty|].
  destruct Hstep; [by apply ensure_request_ok|by apply spawn_ok|by apply worker_message_ok|by apply queue_step_ok|by apply timeout_ok].
Qed.
End Regions.

(** ** The promises *)

Lemma installed_max opts max : installVgiWebWorkerBridge opts = Normal max -> 0 < max.
Proof.
  unfold installVgiWebWorkerBridge. destruct (_ || _) eqn:E; [done|]. intros [= <-].
  apply orb_false_iff in E as [_ E]. lia.
Qed.

(** C18: At any time an adapter serves at most [maxTargetsPerAdapter] regions, each
    under its own target, and no two at the same place of the same memory. *)
Theorem adapters_serve_distinct_regions parse_URL page_href page_origin opts max ids s k e :
  installVgiWebWorkerBridge opts = Normal max -> bridge_run parse_URL page_href page_origin opts max ids s ->
  adapters s !! k = Some e ->
  lenZ (regions e) <= max /\ NoDup (JsMap.keys (regions e)) /\
  (forall t r, mget t (regions e) = Some r -> target r = t) /\
  (forall t t' r r', mget t (regions e) = Some r -> mget t' (regions e) = Some r' ->
     offset r = offset r' -> buffer r = buffer r' -> t = t').
Proof.
  intros Hm Hr He. destruct (run_ok max (installed_max opts max Hm) _ _ _ _ _ _ Hr k e He) as [[H1 H2 H3 H4] _ _].
  split_and!; try done. intros t t' r r' E1 E2 Eo Eb. apply (H3 t t' r r' E1 E2). unfold place. congruence.
Qed.

(** An application with one adapter for its own targets, two regions at most. *)
Definition adapter_options : VgiWebWorkerBridgeOptions :=
  {| o_resolveWorkerUrl := None;
     o_resolveAdapterTarget := Some (fun l => Normal (Some {| adapterUrl := "/a.js"; adapterKey := "k"; canonicalTarget := l |}));
     irohAdapterWorker := None; o_resolveIrohTarget := None; o_maxTargetsPerAdapter := Some 2; allowRemoteOrigins := allow_none |}.
Definition region_request (id : Z) (l : string) (o : Z) : EnsureRequest :=
  {| er_id := id; er_location := l; er_offset := Some o; er_buffer := Some 7 |}.
Definition target_answer (t id : string) : WorkerMessage := {| wm_type := t; wm_requestId := Some id; wm_error := None |}.
(** A channel of one slot at each place; the slot at [busy] is taken. *)
Definition one_slot (busy : Z) : Lanes := fun _ i =>
  Some (if i mod 256 =? 2 then 1 else if i mod 256 =? 4 then 128 else if i mod 256 =? 5 then 64
        else if i =? busy then 1 else 0).

(** Three targets want regions; the first one's is idle when the third comes. *)
Definition three_regions : list Event :=
  [Ev_ensure (region_request 1 "t1" 1024); Ev_spawn no_fetch 5 0; Ev_message 5 (message "vgi-ready");
   Ev_ensure (region_request 2 "t2" 2048); Ev_queue (one_slot 0) "k"; Ev_message 5 (target_answer "vgi-target-ready" "vgi-target-1");
   Ev_ensure (region_request 3 "t3" 3072); Ev_queue (one_slot 528) "k"; Ev_message 5 (target_answer "vgi-target-ready" "vgi-target-2")].

Lemma adapters_serve_distinct_regions_witness :
  let s := drive two_hosts "/" "/" adapter_options 2 three_regions in
  signals s = [(1, 1); (2, 1); (3, 1)] /\ (JsMap.keys ∘ regions <$> adapters s !! "k"%string) = Some ["t2"%string; "t3"%string] /\
  forall e, adapters s !! "k"%string = Some e -> lenZ (regions e) <= 2.
Proof.
  split; [vm_compute; reflexivity|]. split; [vm_compute; reflexivity|]. intros e He.
  apply (adapters_serve_distinct_regions two_hosts "/" "/" adapter_options 2 (requests_of three_regions) _ "k" e eq_refl (drive_run _ _ _ _ _ _) He).
Defined.

Lemma queue_step_other max load1 load2 k k' s : k' <> k -> adapters (queue_step max load1 load2 k s).2 !! k' = adapters s !! k'.
Proof.
  intros N. unfold queue_step. unfold bind at 1, gets at 1. destruct (adapters s !! k) as [e|]; [|done].
  destruct (registrationQueue e) as [|op q]; [done|]. destruct (op_phase op); [|done].
  assert (forall e' v s', adapters s' = adapters s -> adapters (operation_settled k e' op v s').2 !! k' = adapters s !! k') as Hset.
  { intros e' v s' <-. apply lookup_insert_ne. congruence. }
  assert (adapters (rebind max load1 load2 k e op s).2 !! k' = adapters s !! k') as Hreb.
  { destruct (rebind_adapters max load1 load2 k e op s) as [[v ->]|(rs & id & n & _ & _ & ->)]; [by apply Hset|].
    apply lookup_insert_ne. congruence. }
  unfold start_operation. destruct (mget _ _); [|done]. destruct (_ && _); [|done].
  by apply (Hset _ 1 (set_touch (touch s + 1) s)).
Qed.

(** A slot of the region is taken: the header at the region's place gives the number
    of slots, their stride and where they start, and the state of one of them is not
    zero. *)
Record taken_slot (load : Lanes) (r : TargetRegion) (slot : Z) : Prop := {
  ts_aligned : 0 <= offset r /\ offset r mod 4 = 0;
  ts_slots : exists n stride first,
    load (buffer r) (offset r / 4 + 2) = Some n /\ load (buffer r) (offset r / 4 + 4) = Some stride /\
    load (buffer r) (offset r / 4 + 5) = Some first /\ 0 <= slot < n /\
    0 <= offset r + first + slot * stride < 2 ^ 31 /\ offset r < 2 ^ 31 /\
    load (buffer r) ((offset r + first + slot * stride) / 4) <> Some 0
}.

Lemma shr32_div x : 0 <= x < 2 ^ 31 -> shr32 x 2 = x / 4.
Proof.
  intros Hx. unfold shr32. replace (int32 x) with x; [by rewrite Z.shiftr_div_pow2 by lia|].
  unfold int32. rewrite Z.mod_small; lia.
Qed.

Lemma taken_not_idle load r slot : taken_slot load r slot -> regionIsIdle load r = false.
Proof.
  intros [_ (n & stride & first & H1 & H2 & H3 & Hs & Ha & Ho & Ht)]. apply not_true_iff_false. unfold regionIsIdle.
  intros [[[Hsafe H0]%andb_true_iff Hal]%andb_true_iff Hl]%andb_true_iff. cbv zeta in Hl.
  rewrite shr32_div, H1, H2, H3 in Hl by lia. apply andb_true_iff in Hl as [_ Hl].
  rewrite forallb_forall in Hl. specialize (Hl slot). rewrite <- list_elem_of_In, elem_of_seqZ in Hl.
  specialize (Hl ltac:(lia)). apply andb_true_iff in Hl as [_ Hl%bool_decide_eq_true]. rewrite shr32_div in Hl by lia. done.
Qed.

(** C17: A region in use is never taken away: while an adapter makes room for another
    region, a region with a slot that was taken when the slots were looked at the second
    time stays registered at its place, with this adapter and with every other. *)
Theorem active_regions_are_kept parse_URL page_href page_origin opts max ids s load1 load2 k k' e t r slot :
  installVgiWebWorkerBridge opts = Normal max -> bridge_run parse_URL page_href page_origin opts max ids s ->
  adapters s !! k' = Some e -> mget t (regions e) = Some r -> taken_slot load2 r slot ->
  exists e' r', adapters (queue_step max load1 load2 k s).2 !! k' = Some e' /\ mget t (regions e') = Some r' /\ place r' = place r.
Proof.
  intros Hm Hr He Ht Hidle%taken_not_idle. destruct (run_ok max (installed_max opts max Hm) _ _ _ _ _ _ Hr k' e He) as [Hreg _ _].
  destruct (decide (k' = k)) as [->|N]; [|rewrite queue_step_other by done; by exists e, r].
  unfold queue_step. unfold bind at 1, gets at 1. rewrite He.
  destruct (registrationQueue e) as [|op q] eqn:Hq; [by exists e, r|]. destruct (op_phase op); [|by exists e, r].
  assert (exists e' r', adapters (rebind max load1 load2 k e op s).2 !! k = Some e' /\ mget t (regions e') = Some r' /\ place r' = place r) as Hreb.
  { destruct (rebind_adapters max load1 load2 k e op s) as [[v ->]|(rs & id & n & Hc & Hall & ->)].
    - eexists _, r. split; [apply lookup_insert_eq|done].
    - eexists _, r. split; [apply lookup_insert_eq|]. split; [|done]. unfold registering. rewrite foldl_mdelete.
      cbn [regions with_queue with_regions]. destruct (mdeletes_spec (target <$> rs) (regions e) (re_keys _ _ Hreg)) as (_ & -> & _).
      rewrite decide_False; [done|]. intros Hin. apply list_elem_of_fmap in Hin as (r0 & -> & Hin).
      destruct (conflicts_spec max load1 e op rs Hreg Hc) as [Hrs _]. rewrite (Hrs r0 Hin) in Ht. injection Ht as ->.
      rewrite forallb_forall in Hall. rewrite (Hall r) in Hidle; [done|by apply list_elem_of_In]. }
  unfold start_operation. destruct (mget (op_target op) (regions e)) as [current|] eqn:Ec; [|done].
  destruct (_ && _); [|done]. eexists. destruct (decide (t = op_target op)) as [->|N].
  - eexists. split; [apply lookup_insert_eq|]. cbn. rewrite mget_mset. split; [done|]. unfold place. cbn. congruence.
  - exists r. split; [apply lookup_insert_eq|]. cbn. by rewrite mget_mset_ne.
Qed.

(** The third target of [three_regions] while the second one's region is in use: the first one's goes. *)
Lemma active_regions_are_kept_witness :
  let s := drive two_hosts "/" "/" adapter_options 2 (take 7 three_regions) in
  taken_slot (one_slot 528) {| target := "t2"; offset := 2048; buffer := 7; lastUsed := 2 |} 0 /\
  exists e' r', adapters (queue_step 2 (one_slot 528) (one_slot 528) "k" s).2 !! "k"%string = Some e' /\
    mget "t2"%string (regions e') = Some r' /\ place r' = (2048, 7).
Proof.
  intros s.
  assert (taken_slot (one_slot 528) {| target := "t2"; offset := 2048; buffer := 7; lastUsed := 2 |} 0) as Hts.
  { split; [split; [cbn; lia|reflexivity]|]. exists 1, 128, 64. vm_compute. repeat split; congruence. }
  split; [exact Hts|].
  destruct (adapters s !! "k"%string) as [e|] eqn:He; [|exfalso; vm_compute in He; discriminate].
  apply (active_regions_are_kept two_hosts "/" "/" adapter_options 2 (requests_of (take 7 three_regions)) s _ _ "k" "k" e "t2"
    {| target := "t2"; offset := 2048; buffer := 7; lastUsed := 2 |} 0 eq_refl (drive_run _ _ _ _ _ _) He).
  - vm_compute in He. injection He as <-. reflexivity.
  - exact Hts.
Defined.

(** A region at 2^31 or beyond is never idle, so it is never given up. *)
Lemma high_regions_are_never_idle load r : offset r = 2 ^ 31 -> load (buffer r) (- 2 ^ 29 + 2) = None -> regionIsIdle load r = false.
Proof.
  intros Ho Hl. unfold regionIsIdle. rewrite Ho. change (shr32 (2 ^ 31) 2) with (- 2 ^ 29). by rewrite Hl.
Qed.
