(* ===== verification/VgiScripts.v ===== *)
(** * VgiScripts: which scripts the bridge runs

    A worker that the bridge spawns has the page's privileges.  With the default
    resolver it runs a script of the page's own origin, or one that was fetched from
    an origin the application listed, whatever the engine asks for. *)
From S2P Require Import Prelude Regex JsMap WasmModule S3 Vgi VgiRequests.
From stdpp Require Import base tactics list gmap strings.
From Stdlib Require Import ZArith Lia.
Open Scope Z_scope.

Section Scripts.
Context (parse_URL : string -> string -> Outcome (string * string)) (page_href page_origin : string)
  (opts : VgiWebWorkerBridgeOptions) (max : Z).

(** The application trusts an origin. *)
Definition trusted (origin : string) : Prop :=
  match allowRemoteOrigins opts with
  | allow_any => True
  | allow_list l => origin ∈ l
  | allow_none => False
  end.

(** A serialised URL is parsed to itself, ([URL], WHATWG). *)
Definition reparses : Prop :=
  forall l href origin, parse_URL l page_href = Normal (href, origin) -> parse_URL href page_href = Normal (href, origin).

Definition url_ok (u : string) : Prop :=
  exists origin, parse_URL u page_href = Normal (u, origin) /\ (origin = page_origin \/ trusted origin).

(** What may run. *)
Definition script_ok (sc : Script) : Prop :=
  match sc with
  | from_url u => exists href, parse_URL u page_href = Normal (href, page_origin)
  | from_blob u _ => exists origin, parse_URL u page_href = Normal (u, origin) /\ trusted origin
  end.

(** The application's own worker is not spawned by the bridge. *)
Definition has_worker (bt : Boot) : bool :=
  match b_kind bt with Boot_adapter _ _ (Some _) => true | _ => false end.

Record scripts_ok (s : Bridge) : Prop := {
  sc_boots b bt : boots s !! b = Some bt -> has_worker bt = false -> url_ok (b_url bt);
  sc_spawned w sc : (w, sc) ∈ spawned s -> script_ok sc
}.

Lemma resolved_ok l u : reparses -> makeResolveWorkerUrl parse_URL page_href page_origin (allowRemoteOrigins opts) l = Some u -> url_ok u.
Proof.
  intros Hre. unfold makeResolveWorkerUrl. destruct (parse_URL l page_href) as [[href origin]|] eqn:E; [|done].
  apply Hre in E. destruct (String.eqb_spec origin page_origin) as [->|N]; [intros [= <-]; exists page_origin; eauto|].
  unfold url_ok, trusted. destruct (allowRemoteOrigins opts) as [| |lo]; [done|intros [= <-]; eauto|].
  case_bool_decide as Hin; [|done]. intros [= <-]. eauto.
Qed.

Lemma spawnWorker_ok fetch u sc : url_ok u -> spawnWorker parse_URL page_href page_origin fetch u = Normal sc -> script_ok sc.
Proof.
  intros (origin & E & Ho). unfold spawnWorker. rewrite E. destruct (String.eqb_spec origin page_origin) as [->|N].
  - intros [= <-]. by exists u.
  - destruct (fetch u) as [res|]; [|done]. destruct (negb _); [done|]. intros [= <-]. exists origin. split; [done|].
    by destruct Ho.
Qed.

(** Neither boots nor workers are new. *)
Definition no_new (m : JS Bridge unit) : Prop :=
  forall s, spawned (m s).2 = spawned s /\
    forall b bt, boots (m s).2 !! b = Some bt -> exists bt0, boots s !! b = Some bt0 /\ b_kind bt = b_kind bt0 /\ b_url bt = b_url bt0.

Lemma no_new_ok m : no_new m -> preserves scripts_ok m.
Proof.
  intros H s [H1 H2]. destruct (H s) as [E Hb]. split; [|by rewrite E]. intros b bt Hbt Hw.
  destruct (Hb b bt Hbt) as (bt0 & Hb0 & Ek & ->). apply (H1 b bt0 Hb0). unfold has_worker in *. by rewrite <- Ek.
Qed.
Lemma no_new_same m : (forall s, spawned (m s).2 = spawned s /\ boots (m s).2 = boots s) -> no_new m.
Proof. intros H s. destruct (H s) as [-> ->]. split; [done|]. eauto. Qed.
Lemma no_new_bind m (k : unit -> JS Bridge unit) : no_new m -> no_new (k tt) -> no_new (bind m k).
Proof.
  intros Hm Hk s. unfold bind. destruct (Hm s) as [E Hb]. destruct (m s) as [[[]|e] s1]; cbn in *; [|done].
  destruct (Hk s1) as [E' Hb']. split; [congruence|]. intros b bt Hbt. destruct (Hb' b bt Hbt) as (bt1 & H1 & ? & ?).
  destruct (Hb b bt1 H1) as (bt0 & Hb0 & ? & ?). exists bt0. split_and!; congruence.
Qed.
Lemma no_new_for_of {A} (l : list A) f : (forall a, no_new (f a)) -> no_new (for_of l f).
Proof.
  intros Hf. induction l as [|a l IH]; cbn; [by apply no_new_same|]. by apply no_new_bind.
Qed.
Lemma no_new_gets {A} (g : Bridge -> A) (k : A -> JS Bridge unit) : (forall a, no_new (k a)) -> no_new (let! a := gets g in k a).
Proof. intros Hk s. apply (Hk (g s) s). Qed.

Lemma no_new_settled k e op v : no_new (operation_settled k e op v).
Proof. by apply no_new_same. Qed.
Lemma no_new_finish k r u t o b : no_new (finish k r u t o b).
Proof.
  apply no_new_gets. intros [e|]; [|by apply no_new_same]. case_match; [|by apply no_new_same].
  apply no_new_gets. intros [e'|]; by apply no_new_same.
Qed.
Lemma no_new_registration k e op next ok : no_new (registration_settled k e op next ok).
Proof. unfold registration_settled. destruct ok; apply no_new_settled. Qed.

Lemma no_new_rebind load1 load2 k e op : no_new (rebind max load1 load2 k e op).
Proof.
  unfold rebind. destruct (conflicts _ _ _ _) as [rs|]; [|apply no_new_settled]. destruct (negb _); [apply no_new_settled|].
  unfold next_touch. intros s. cbn [bind modify gets]. revert s.
  assert (forall n, no_new (for_of rs (fun r => post_to (worker e) (vgi_unregister_target (target r) (offset r))) ;;;
    modify (fun s => set_sequence (registrationSequence s + 1) s) ;;;
    let! seq := gets registrationSequence in
    let next := {| target := op_target op; offset := op_offset op; buffer := op_buffer op; lastUsed := n |} in
    let waiting := {| op_request := op_request op; op_target := op_target op; op_offset := op_offset op;
                      op_buffer := op_buffer op; op_phase := Registering (request_id seq) next |} in
    set_entry k (with_queue (waiting :: tail (registrationQueue e))
      (with_regions (foldl (fun m r => mdelete (target r) m) (regions e) rs) e)) ;;;
    post_to (worker e) (vgi_register_target (request_id seq) next (url e)))) as H.
  { intros n. apply no_new_bind; [apply no_new_for_of; intros; by apply no_new_same|].
    apply no_new_bind; [by apply no_new_same|]. apply no_new_gets. intros seq. by apply no_new_same. }
  intros s. apply (H (touch s + 1) (set_touch (touch s + 1) s)).
Qed.

Lemma no_new_queue_step load1 load2 k : no_new (queue_step max load1 load2 k).
Proof.
  apply no_new_gets. intros [e|]; [|by apply no_new_same]. destruct (registrationQueue e) as [|op q]; [by apply no_new_same|].
  destruct (op_phase op); [|by apply no_new_same]. unfold start_operation.
  destruct (mget _ _) as [current|]; [|apply no_new_rebind]. destruct (_ && _); [|apply no_new_rebind]. by apply no_new_same.
Qed.
Lemma no_new_timeout k : no_new (registration_timeout k).
Proof.
  apply no_new_gets. intros [e|]; [|by apply no_new_same]. destruct (registrationQueue e) as [|op q]; [by apply no_new_same|].
  destruct (op_phase op); [by apply no_new_same|apply no_new_registration].
Qed.

(** A boot's kind and script stay. *)
Lemma no_new_update f b : (forall s, spawned (f s) = spawned s) ->
  (forall s b', b' <> b -> boots (f s) !! b' = boots s !! b') ->
  (forall s bt, boots (f s) !! b = Some bt -> exists bt0, boots s !! b = Some bt0 /\ b_kind bt = b_kind bt0 /\ b_url bt = b_url bt0) ->
  no_new (modify f).
Proof.
  intros H1 H2 H3 s. split; [apply H1|]. cbn. intros b' bt Hbt. destruct (decide (b' = b)) as [->|N]; [by apply H3|].
  rewrite H2 in Hbt by done. eauto.
Qed.
Lemma no_new_alter g b : (forall bt, b_kind (g bt) = b_kind bt /\ b_url (g bt) = b_url bt) ->
  no_new (modify (fun s => set_boots (alter g b (boots s)) s)).
Proof.
  intros Hg. apply (no_new_update _ b); cbn; [done| |].
  - intros s b' N. by apply lookup_alter_ne.
  - intros s bt. rewrite lookup_alter_eq. intros (bt0 & -> & H0)%fmap_Some. exists bt0. rewrite H0. split; [done|]. apply Hg.
Qed.

Lemma no_new_joiner ok k j : no_new (settle_joiner ok k j).
Proof. destruct j as [r|r u t o b], k as [k|]; cbn; try by apply no_new_same. destruct ok; [apply no_new_finish|by apply no_new_same]. Qed.

Lemma no_new_settle_boot b ok : no_new (settle_boot b ok).
Proof.
  intros s. destruct (boots s !! b) as [bt|] eqn:Hb; cycle 1.
  { unfold settle_boot, bind, gets. rewrite Hb. split; [done|eauto]. }
  destruct (settled bt) eqn:Ho.
  { rewrite settled_no_op by congruence. split; [done|eauto]. }
  set (k := match b_kind bt with Boot_adapter k _ _ => Some k | Boot_plain _ _ => None end).
  set (rest := modify (fun s => match k with
      | Some k => set_pendingAdapters (delete k (pendingAdapters s)) s
      | None => set_pending (delete (b_url bt) (pending s)) s
      end) ;;; signal (b_owner bt) (if ok then 1 else -1) ;;; for_of (b_joiners bt) (settle_joiner ok k)).
  set (s1 := set_boots (<[b := {| b_kind := b_kind bt; b_url := b_url bt; b_phase := Settled; b_owner := b_owner bt; b_joiners := [] |}]> (boots s)) s).
  assert (settle_boot b ok s = rest s1) as ->.
  { unfold settle_boot, bind, gets. rewrite Hb. unfold settled in Ho. by destruct (b_phase bt). }
  assert (no_new rest) as Hn.
  { apply no_new_bind; [by apply no_new_same; intros s2; destruct k|]. apply no_new_bind; [by apply no_new_same|].
    apply no_new_for_of. intros; apply no_new_joiner. }
  destruct (Hn s1) as [E1 E2]. split; [exact E1|]. intros b' bt' Hbt'. destruct (E2 b' bt' Hbt') as (bt1 & Hb1 & Ek & Eu).
  cbn in Hb1. apply lookup_insert_Some in Hb1 as [[<- <-]|[N Hb1]]; [by exists bt|by exists bt1].
Qed.

Lemma no_new_boot_message w b m : no_new (on_boot_message w b m).
Proof.
  apply no_new_gets. intros [bt|]; [|by apply no_new_same].
  destruct (String.eqb _ _); [|destruct (String.eqb _ _); [|by apply no_new_same]].
  - apply no_new_bind; [|apply no_new_settle_boot]. destruct (b_kind bt); by apply no_new_same.
  - apply no_new_bind; [by apply no_new_same|]. apply no_new_bind; [|apply no_new_settle_boot].
    destruct (b_kind bt) as [o bf|k r [app|]]; by apply no_new_same.
Qed.

Lemma no_new_adapter_message m k : no_new (on_adapter_message m k).
Proof.
  apply no_new_gets. intros [e|]; [|by apply no_new_same].
  apply no_new_bind; [destruct (negb _); by apply no_new_same|].
  destruct (registrationQueue e) as [|op q]; [by apply no_new_same|]. destruct (op_phase op); [by apply no_new_same|].
  destruct (_ && _); [apply no_new_registration|by apply no_new_same].
Qed.

Lemma no_new_worker_message w m : no_new (on_worker_message w m).
Proof.
  apply no_new_gets. intros bs. apply no_new_gets. intros ks. apply no_new_bind.
  - apply no_new_for_of. intros; apply no_new_boot_message.
  - apply no_new_for_of. intros; apply no_new_adapter_message.
Qed.

Lemma no_new_handshake b w bt : no_new (handshake b w bt).
Proof. apply no_new_bind; [by apply no_new_alter|]. by apply no_new_same. Qed.

Lemma spawn_scripts fetch w b : preserves scripts_ok (spawn_settled parse_URL page_href page_origin fetch w b).
Proof.
  intros s Hs. unfold spawn_settled. unfold bind at 1, gets at 1. destruct (boots s !! b) as [bt|] eqn:Hb; [|done].
  destruct (b_phase bt); [|done..].
  assert (has_worker bt = false -> scripts_ok (match spawnWorker parse_URL page_href page_origin fetch (b_url bt) with
    | Normal script => modify (add_spawned (w, script)) ;;; handshake b w bt
    | Thrown _ => settle_boot b false
    end s).2) as H.
  { intros Hw. destruct (spawnWorker _ _ _ _ _) as [sc|err] eqn:Esc; [|by apply (no_new_ok _ (no_new_settle_boot b false))].
    apply (no_new_ok _ (no_new_handshake b w bt)). destruct Hs as [H1 H2]. split; [done|]. cbn.
    intros w' sc' [Hin|Hin]%elem_of_app; [by apply (H2 w')|]. apply list_elem_of_singleton in Hin as [= -> ->].
    apply (spawnWorker_ok fetch (b_url bt)); [by apply (H1 b)|done]. }
  unfold has_worker in H. destruct (b_kind bt) as [o bf|k r [app|]]; [by apply H| |by apply H].
  by apply (no_new_ok _ (no_new_handshake b app bt)).
Qed.

(** A boot for a resolved script. *)
Lemma new_boot_scripts s s' n bt : scripts_ok s -> boots s' = <[n := bt]> (boots s) -> spawned s' = spawned s ->
  (has_worker bt = false -> url_ok (b_url bt)) -> scripts_ok s'.
Proof.
  intros [H1 H2] E1 E2 Hu. split; rewrite ?E1, ?E2; [|done].
  intros b bt' [[<- <-]|[N Hb]]%lookup_insert_Some; [done|by apply (H1 b)].
Qed.
Lemma no_new_join b j : no_new (join_boot b j).
Proof. by apply no_new_alter. Qed.
Lemma nonempty_eq o u : some_nonempty o = Some u -> o = Some u.
Proof. destruct o as [[|c v]|]; cbn; congruence. Qed.

Lemma request_scripts r : reparses -> o_resolveWorkerUrl opts = None ->
  preserves scripts_ok (on_ensure parse_URL page_href page_origin opts r).
Proof.
  intros Hre Hno.
  assert (forall l u, resolveWorkerUrl parse_URL page_href page_origin opts l = Normal u -> forall u', some_nonempty u = Some u' -> url_ok u') as Hres.
  { intros l u Hu u' Hu'. unfold resolveWorkerUrl in Hu. rewrite Hno in Hu. injection Hu as <-.
    apply (resolved_ok l); [done|]. by apply nonempty_eq. }
  assert (forall v, preserves scripts_ok (signal (er_id r) v)) as Hsig by (intros v; apply no_new_ok; by apply no_new_same).
  unfold on_ensure. intros s Hs. destruct (_ || _).
  - destruct (er_offset r) as [o|], (er_buffer r) as [b|]; try by apply Hsig. destruct (negb _); [by apply Hsig|].
    unfold bind at 1, lift_b at 1. destruct (requested_target _ _ _) as [[[t app]|]|]; [|by apply Hsig|exact Hs]. cbn [ret].
    destruct (_ || _); [by apply Hsig|]. unfold bind at 1, lift_b at 1.
    destruct (adapter_script _ _ _ _ _ _) as [u|err] eqn:Eu; [|exact Hs]. cbn [ret].
    destruct (some_nonempty u) as [u'|] eqn:Enu; [|by apply Hsig].
    unfold on_adapter_request. unfold bind at 1 2, gets at 1 2.
    destruct (adapters s !! adapterKey t); [by apply (no_new_ok _ (no_new_finish _ _ _ _ _ _))|].
    destruct (pendingAdapters s !! adapterKey t); [by apply (no_new_ok _ (no_new_join _ _))|].
    eapply (new_boot_scripts s _ (nextBoot s)); [done|reflexivity|reflexivity|]. cbn. unfold has_worker. cbn.
    destruct app; [done|]. intros _. by apply (Hres _ _ Eu).
  - unfold bind at 1, lift_b at 1. destruct (resolveWorkerUrl _ _ _ _ _) as [u|err] eqn:Eu; [|exact Hs]. cbn [ret].
    destruct (some_nonempty u) as [u'|] eqn:Enu; [|by apply Hsig].
    unfold on_plain_request. unfold bind at 1 2, gets at 1 2.
    destruct (workers s !! u'); [by apply Hsig|]. destruct (pending s !! u'); [by apply (no_new_ok _ (no_new_join _ _))|].
    eapply (new_boot_scripts s _ (nextBoot s)); [done|reflexivity|reflexivity|]. intros _. by apply (Hres _ _ Eu).
Qed.

(** C29: With the default resolver, every worker the bridge spawned runs a script of
    the page's own origin by its URL, or a fetched script whose origin is one that
    [allowRemoteOrigins] admits; with no origins allowed, nothing remote runs. *)
Theorem only_allowed_scripts_run ids s w sc : reparses -> o_resolveWorkerUrl opts = None ->
  bridge_run parse_URL page_href page_origin opts max ids s -> (w, sc) ∈ spawned s -> script_ok sc.
Proof.
  intros Hre Hno Hr. enough (scripts_ok s) as Hs by apply Hs.
  induction Hr as [|ids s r s' _ IH Hstep]; [split; cbn; [intros b bt; by rewrite lookup_empty|intros w' sc' H; by apply not_elem_of_nil in H]|].
  destruct Hstep; [by apply request_scripts|by apply spawn_scripts|..].
  - by apply (no_new_ok _ (no_new_worker_message _ _)).
  - by apply (no_new_ok _ (no_new_queue_step _ _ _)).
  - by apply (no_new_ok _ (no_new_timeout _)).
Qed.
End Scripts.

(** A script of the page and one of a trusted host are run; a third request is refused. *)
Definition two_scripts : list Event :=
  [Ev_ensure (request 1 "/w.js"); Ev_ensure (request 2 "https://cdn/w.js"); Ev_ensure (request 3 "https://evil/w.js");
   Ev_spawn no_fetch 5 0;
   Ev_spawn (fun _ => Normal {| fr_ok := true; fr_status := 200; fr_statusText := "OK"; fr_blob := 77 |}) 6 1].

Lemma two_hosts_reparses : reparses two_hosts "/".
Proof.
  intros l href origin. unfold two_hosts. destruct (startsWith "/" l) eqn:E1; [intros [= <- <-]; by rewrite E1|].
  destruct (startsWith "https://cdn/" l) eqn:E2; [intros [= <- <-]; by rewrite E1, E2|done].
Defined.

Lemma only_allowed_scripts_run_witness :
  let s := drive two_hosts "/" "/" plain_options 32 two_scripts in
  spawned s = [(5, from_url "/w.js"); (6, from_blob "https://cdn/w.js" 77)] /\
  signals s = [(3, -1)] /\ script_ok two_hosts "/" "/" plain_options (from_blob "https://cdn/w.js" 77).
Proof.
  intros s. assert (spawned s = [(5, from_url "/w.js"); (6, from_blob "https://cdn/w.js" 77)]) as E by (vm_compute; reflexivity).
  split; [exact E|]. split; [vm_compute; reflexivity|].
  apply (only_allowed_scripts_run two_hosts "/" "/" plain_options 32 (requests_of two_scripts) s 6);
    [apply two_hosts_reparses|reflexivity|apply drive_run|]. rewrite E. right. left.
Defined.
