(* ===== verification/VgiEnsure.v ===== *)
(** * VgiEnsure: the engine's wait for a worker ([vgi_wasm_ensure_worker], [lib/js-stubs.js])

    The engine's thread looks at the ready flag of the channel, posts a request to
    the page and polls the answer, a second at a time.  The values it finds at its
    successive looks are an argument: they are stored by the page
    ([Vgi.signal]). *)
From S2P Require Import Prelude.
From stdpp Require Import base tactics.
From Stdlib Require Import ZArith Lia.
Open Scope Z_scope.

(** What the call did: whether it posted the request, published the flag, and how often it waited. *)
Record Ensured := { en_result : Z; en_posted : bool; en_published : bool; en_waits : nat }.

(** [while (Atomics.load(readyI32, 0) === 0)]: [looks k] is found at the [k]th look; [None] is
    out of fuel, [Some None] the time limit. *)
Fixpoint wait_ready (fuel : nat) (looks : nat -> Z) (k : nat) (waited : Z) : option (option nat) :=
  match fuel with
  | O => None
  | S fuel' =>
      if looks k =? 0 then
        let waited := waited + 1000 in
        if 30000 <=? waited then Some None else wait_ready fuel' looks (S k) waited
      else Some (Some k)
  end.

Definition vgi_wasm_ensure_worker (fuel : nat) (ready_flag : Z) (has_SharedArrayBuffer : bool) (looks : nat -> Z)
    : option Ensured :=
  if ready_flag =? 1 then Some {| en_result := 0; en_posted := false; en_published := false; en_waits := 0 |}
  else if negb has_SharedArrayBuffer then Some {| en_result := -1; en_posted := false; en_published := false; en_waits := 0 |}
  else match wait_ready fuel looks 0 0 with
       | None => None
       | Some None => Some {| en_result := -1; en_posted := true; en_published := false; en_waits := 30 |}
       | Some (Some k) =>
           if looks (S k) =? 1 then Some {| en_result := 0; en_posted := true; en_published := true; en_waits := k |}
           else Some {| en_result := -1; en_posted := true; en_published := false; en_waits := k |}
       end.

(** The first look that finds something, if it is one of the next [n]. *)
Fixpoint first_answer (looks : nat -> Z) (k n : nat) : option nat :=
  match n with
  | O => None
  | S n' => if looks k =? 0 then first_answer looks (S k) n' else Some k
  end.

Lemma wait_ready_spec looks n : forall k fuel, (n < fuel)%nat -> (0 < n)%nat ->
  wait_ready fuel looks k (30000 - 1000 * Z.of_nat n) = Some (first_answer looks k n).
Proof.
  induction n as [|n IH]; intros k fuel Hf Hn; [lia|]. destruct fuel as [|fuel]; [lia|]. cbn [wait_ready first_answer].
  destruct (looks k =? 0); [|done]. destruct (Z.leb_spec 30000 (30000 - 1000 * Z.of_nat (S n) + 1000)) as [H|H].
  - destruct n; [done|lia].
  - rewrite <- (IH (S k) fuel) by lia. f_equal. lia.
Qed.

Lemma first_answer_bound looks n : forall k j, first_answer looks k n = Some j -> (k <= j < k + n)%nat /\ looks j <> 0.
Proof.
  induction n as [|n IH]; intros k j; cbn; [done|]. destruct (Z.eqb_spec (looks k) 0) as [E|E].
  - intros H. apply IH in H as [H1 H2]. split; [lia|done].
  - intros [= <-]. split; [lia|done].
Qed.

(** C31: The wait for a worker ends after at most thirty waits of a second, whatever the
    page does: the call fails when no answer came by then or the answer was no
    success, and otherwise publishes that the worker is ready, to which later calls
    return at once without a request. *)
Theorem ensure_worker_returns_in_time fuel flag sab looks : (31 <= fuel)%nat ->
  exists r, vgi_wasm_ensure_worker fuel flag sab looks = Some r /\ (en_waits r <= 30)%nat /\
    (en_result r = 0 \/ en_result r = -1) /\
    (en_result r = 0 <-> flag = 1 \/ sab = true /\ exists k, first_answer looks 0 30 = Some k /\ looks (S k) = 1) /\
    en_posted r = negb (flag =? 1) && sab /\ en_published r = en_posted r && (en_result r =? 0).
Proof.
  intros Hf. unfold vgi_wasm_ensure_worker.
  destruct (Z.eqb_spec flag 1) as [->|N]; [eexists; split; [done|]; cbn; split_and!; try done; [lia|by left|tauto]|].
  destruct sab; cbn [negb]; [|eexists; split; [done|]; cbn; split_and!; try done; [lia|by right|naive_solver]].
  assert (wait_ready fuel looks 0 0 = Some (first_answer looks 0 30)) as ->.
  { change 0 with (30000 - 1000 * Z.of_nat 30) at 1. apply wait_ready_spec; lia. }
  destruct (first_answer looks 0 30) as [k|] eqn:Ek; [|eexists; split; [done|]; cbn; split_and!; try done; [by right|naive_solver]].
  apply first_answer_bound in Ek as Hk. destruct (Z.eqb_spec (looks (S k)) 1) as [E|E]; eexists; (split; [done|]); cbn.
  - split_and!; try done; [lia|by left|]. split; [|done]. intros _. right. eauto.
  - split_and!; try done; [lia|by right|]. naive_solver.
Qed.

Lemma ensure_worker_returns_in_time_witness :
  (exists r, vgi_wasm_ensure_worker 31 0 true (fun k => if (k <? 3)%nat then 0 else 1) = Some r /\ (en_waits r <= 30)%nat) /\
  vgi_wasm_ensure_worker 31 0 true (fun _ => 0) = Some {| en_result := -1; en_posted := true; en_published := false; en_waits := 30 |}.
Proof.
  split; [|reflexivity].
  destruct (ensure_worker_returns_in_time 31 0 true (fun k => if (k <? 3)%nat then 0 else 1)) as (r & H1 & H2 & _); [lia|eauto].
Defined.
