(* ===== verification/VgiServed.v ===== *)
(** * VgiServed: what the bridge's success means ([vgi/webworker-bridge.ts])

    A request for a script that is no adapter's target is signalled with success only
    when a worker runs that script and has said that it is ready. *)
From S2P Require Import Prelude Regex JsMap WasmModule S3 Vgi VgiRequests VgiScripts.
From stdpp Require Import base tactics list gmap strings.
From Stdlib Require Import ZArith Lia.
Open Scope Z_scope.

Definition script_url (sc : Script) : string := match sc with from_url u => u | from_blob u _ => u end.

(** The bridge spawned worker [w] with the script at [u]. *)
Definition runs (s : Bridge) (w : Z) (u : string) : Prop := exists sc, (w, sc) ∈ spawned s /\ script_url sc = u.

(** All requests of a boot, those that are settled too. *)
Definition boot_ids (bt : Boot) : list Z := b_owner bt :: (joiner_request <$> b_joiners bt).

(** A request for a script that is no adapter's target. *)
Definition is_plain (opts : VgiWebWorkerBridgeOptions) (r : EnsureRequest) : bool :=
  negb (is_iroh (er_location r) || is_httpi (er_location r) || bool_decide (is_Some (o_resolveAdapterTarget opts))).

(** ** One request *)

Section Served.
Context (parse_URL : string -> string -> Outcome (string * string)) (page_href page_origin : string)
  (opts : VgiWebWorkerBridgeOptions) (max : Z).
(** Request [x] is for script [u]. *)
Context (x : Z) (u : string).

(** Request [x] waits for a boot of [u] only, in no adapter's queue, and is told that the
    worker is ready only when one is known. *)
Record served (s : Bridge) : Prop := {
  sv_boots b bt : boots s !! b = Some bt -> x ∈ boot_ids bt -> adapter_of bt = None /\ b_url bt = u;
  sv_queues k e op : adapters s !! k = Some e -> op ∈ registrationQueue e -> op_request op <> x;
  sv_signal : (x, 1) ∈ signals s -> is_Some (workers s !! u)
}.

Lemma served_neutral f : (forall s, boots (f s) = boots s /\ adapters (f s) = adapters s /\ signals (f s) = signals s /\ workers (f s) = workers s) ->
  preserves served (modify f).
Proof. intros Hf s [H1 H2 H3]. cbn. destruct (Hf s) as (E1 & E2 & E3 & E4). split; rewrite ?E1, ?E2, ?E3, ?E4; done. Qed.

(** A signal that is no success for [x], or that a worker is there for. *)
Definition may_signal (s : Bridge) (r v : Z) : Prop := r = x -> v = 1 -> is_Some (workers s !! u).

Lemma served_signal r v s : served s -> may_signal s r v -> served (signal r v s).2.
Proof.
  intros [H1 H2 H3] Hm. split; cbn; [done..|]. intros [H|H]%elem_of_app; [by apply H3|].
  apply list_elem_of_singleton in H as [= <- <-]. by apply Hm.
Qed.
Lemma served_refusal r : preserves served (signal r (-1)).
Proof. intros s Hs. apply served_signal; [done|]. intros _ [=]. Qed.

Definition queue_free (e : AdapterEntry) : Prop := forall op, op ∈ registrationQueue e -> op_request op <> x.

Lemma served_entry k e : queue_free e -> preserves served (set_entry k e).
Proof.
  intros He s [H1 H2 H3]. split; cbn; [done| |done]. intros k' e' op [[<- <-]|[N Hk]]%lookup_insert_Some; [by apply He|by apply (H2 k')].
Qed.

Lemma served_settled k e op v : queue_free e -> op_request op <> x -> preserves served (operation_settled k e op v).
Proof.
  intros He Hop. unfold operation_settled. apply preserves_bind.
  - apply served_entry. intros op' Hin. apply He. cbn in Hin. destruct (registrationQueue e); [done|by right].
  - intros _ s Hs. apply served_signal; [done|]. by intros E.
Qed.

Lemma served_finish k r u' t o b : r <> x -> preserves served (finish k r u' t o b).
Proof.
  intros Hr s Hs. unfold finish. unfold bind at 1, gets at 1. destruct (adapters s !! k) as [e|] eqn:He; [|done].
  destruct (String.eqb _ _); [|by apply served_refusal]. unfold ensureAdapterRegion, bind, gets. rewrite He.
  apply served_entry; [|done]. cbn. intros op [Hin|Hin]%elem_of_app; [by apply (sv_queues _ Hs k e)|].
  apply list_elem_of_singleton in Hin as ->. done.
Qed.

Lemma served_joiner ok k j s : served s -> (joiner_request j = x -> k = None /\ (ok = true -> is_Some (workers s !! u))) ->
  served (settle_joiner ok k j s).2 /\ workers (settle_joiner ok k j s).2 = workers s.
Proof.
  intros Hs Hj. destruct j as [r|r u' t o b]; cbn in Hj |- *.
  - split; [|done]. apply served_signal; [done|]. intros E. destruct (Hj E) as [_ H]. by destruct ok; [intros _; apply H|].
  - destruct k as [k|]; [|done]. destruct ok; [|split; [by apply served_refusal|done]].
    split; [apply served_finish; [|done]; intros E; by destruct (Hj E)|].
    unfold finish, ensureAdapterRegion, bind, gets. destruct (adapters s !! k) as [e|] eqn:He; [|done].
    destruct (String.eqb _ _); [|done]. by rewrite He.
Qed.

Lemma served_joiners ok k l : forall s, served s ->
  (x ∈ (joiner_request <$> l) -> k = None /\ (ok = true -> is_Some (workers s !! u))) -> served (for_of l (settle_joiner ok k) s).2.
Proof.
  induction l as [|j l IH]; intros s Hs Hl; [done|]. cbn [for_of]. unfold bind.
  destruct (served_joiner ok k j s Hs) as [H1 H2]; [intros <-; apply Hl; cbn; by left|].
  destruct (settle_joiner ok k j s) as [[[]|e] s1]; cbn in *; [|done]. apply IH; [done|]. rewrite H2. intros Hx. apply Hl. cbn. by right.
Qed.

(** A boot that succeeded has a worker, if it is for [u]. *)
Lemma served_settle_boot b ok s : served s ->
  (ok = true -> forall bt, boots s !! b = Some bt -> adapter_of bt = None -> b_url bt = u -> is_Some (workers s !! u)) ->
  served (settle_boot b ok s).2.
Proof.
  intros Hs Hok. unfold settle_boot. unfold bind at 1, gets at 1. destruct (boots s !! b) as [bt|] eqn:Hb; [|done].
  set (k := match b_kind bt with Boot_adapter k _ _ => Some k | Boot_plain _ _ => None end).
  assert (x ∈ boot_ids bt -> k = None /\ (ok = true -> is_Some (workers s !! u))) as Hx.
  { intros Hx. destruct (sv_boots _ Hs b bt Hb Hx) as [E1 E2]. split; [exact E1|]. intros E. by apply (Hok E bt). }
  set (bt' := {| b_kind := b_kind bt; b_url := b_url bt; b_phase := Settled; b_owner := b_owner bt; b_joiners := [] |}).
  assert (forall f, (forall s, boots (f s) = boots s /\ adapters (f s) = adapters s /\ signals (f s) = signals s /\ workers (f s) = workers s) ->
    served (f (set_boots (<[b := bt']> (boots s)) s)) /\ workers (f (set_boots (<[b := bt']> (boots s)) s)) = workers s) as Hset.
  { intros f Hf. destruct (Hf (set_boots (<[b := bt']> (boots s)) s)) as (_ & _ & _ & E). split; [|done].
    apply (served_neutral f Hf). destruct Hs as [H1 H2 H3]. split; cbn; [|done|done].
    intros b0 bt0 [[<- <-]|[N Hb0]]%lookup_insert_Some; [|by apply (H1 b0)]. intros Hin. apply (H1 b bt Hb).
    unfold boot_ids in *. cbn in Hin. apply list_elem_of_singleton in Hin as ->. by left. }
  assert (forall f, (forall s, boots (f s) = boots s /\ adapters (f s) = adapters s /\ signals (f s) = signals s /\ workers (f s) = workers s) ->
    served (for_of (b_joiners bt) (settle_joiner ok k) (add_signal (b_owner bt, if ok then 1 else -1) (f (set_boots (<[b := bt']> (boots s)) s)))).2) as H.
  { intros f Hf. destruct (Hset f Hf) as [H1 H2]. apply served_joiners.
    - apply served_signal; [done|]. unfold may_signal. rewrite H2. intros <-. destruct ok; [|done]. intros _. apply Hx; [by left|done].
    - cbn. rewrite H2. intros Hin. apply Hx. by right. }
  specialize (H (fun s => match k with Some k => set_pendingAdapters (delete k (pendingAdapters s)) s | None => set_pending (delete (b_url bt) (pending s)) s end)).
  assert (H' := H ltac:(intros s'; by destruct k)). by destruct (b_phase bt).
Qed.

(** *** The queues of adapters *)

Lemma served_first k (f : AdapterEntry -> Operation -> JS Bridge unit) s : served s ->
  (forall e op, queue_free e -> op ∈ registrationQueue e -> preserves served (f e op)) ->
  served ((let! e := gets (fun s => adapters s !! k) in
    match e with
    | Some e => match registrationQueue e with op :: _ => f e op | [] => ret tt end
    | None => ret tt
    end) s).2.
Proof.
  intros Hs Hf. unfold bind, gets. destruct (adapters s !! k) as [e|] eqn:He; [|done].
  destruct (registrationQueue e) as [|op q] eqn:Hq; [done|]. apply (Hf e op); [|rewrite Hq; by left|done].
  intros op' Hin. by apply (sv_queues _ Hs k e).
Qed.

Lemma served_rebind load1 load2 k e op : queue_free e -> op_request op <> x -> preserves served (rebind max load1 load2 k e op).
Proof.
  intros He Hop. unfold rebind. destruct (conflicts _ _ _ _) as [rs|]; [|by apply served_settled].
  destruct (negb _); [by apply served_settled|].
  unfold next_touch. apply preserves_bind; [apply preserves_bind; [by apply served_neutral|]; intros _; apply preserves_gets|].
  intros n. apply preserves_bind; [apply preserves_for_of; intros r; by apply served_neutral|]. intros _.
  apply preserves_bind; [by apply served_neutral|]. intros _. apply preserves_bind; [apply preserves_gets|]. intros seq.
  apply preserves_bind; [|intros _; by apply served_neutral]. apply served_entry. cbn. intros op' [->|Hin]%elem_of_cons; [done|].
  apply He. destruct (registrationQueue e); [done|by right].
Qed.

Lemma served_queue_step load1 load2 k : preserves served (queue_step max load1 load2 k).
Proof.
  intros s Hs. apply served_first; [done|]. intros e op He Hin. specialize (He op Hin) as Hop.
  destruct (op_phase op); [|apply preserves_ret]. unfold start_operation.
  destruct (mget _ _) as [current|]; [|by apply served_rebind]. destruct (_ && _); [|by apply served_rebind].
  unfold next_touch. apply preserves_bind; [apply preserves_bind; [by apply served_neutral|]; intros _; apply preserves_gets|].
  intros n. by apply served_settled.
Qed.

Lemma served_registration k e op next ok : queue_free e -> op_request op <> x -> preserves served (registration_settled k e op next ok).
Proof. intros He Hop. unfold registration_settled. destruct ok; by apply served_settled. Qed.

Lemma served_timeout k : preserves served (registration_timeout k).
Proof.
  intros s Hs. apply served_first; [done|]. intros e op He Hin. destruct (op_phase op); [apply preserves_ret|].
  apply served_registration; [done|by apply He].
Qed.

Lemma served_adapter_message m k : preserves served (on_adapter_message m k).
Proof.
  intros s Hs. unfold on_adapter_message. unfold bind at 1, gets at 1. destruct (adapters s !! k) as [e|] eqn:He; [|done].
  assert (queue_free e) as Hq by (intros op Hin; by apply (sv_queues _ Hs k e)).
  revert s Hs He. enough (preserves served (when negb (is_target_answer m) then forward (worker e) m ;;;
      match registrationQueue e with
      | op :: _ =>
          match op_phase op with
          | Registering id next =>
              when is_target_answer m && bool_decide (wm_requestId m = Some id) then
                registration_settled k e op next (String.eqb (wm_type m) "vgi-target-ready")
          | Queued => ret tt
          end
      | [] => ret tt
      end)) as H by (intros s Hs _; by apply H).
  apply preserves_bind; [destruct (negb _); [by apply served_neutral|apply preserves_ret]|]. intros _.
  destruct (registrationQueue e) as [|op q] eqn:E; [apply preserves_ret|]. destruct (op_phase op); [apply preserves_ret|].
  destruct (_ && _); [|apply preserves_ret]. apply served_registration; [done|]. apply Hq. rewrite E. by left.
Qed.

(** *** Boots *)

Lemma served_boot_message w b m : preserves served (on_boot_message w b m).
Proof.
  intros s Hs. unfold on_boot_message. unfold bind at 1, gets at 1. destruct (boots s !! b) as [bt|] eqn:Hb; [|done].
  destruct (String.eqb _ _).
  - destruct (b_kind bt) as [o bf|k r app] eqn:Ek.
    + apply served_settle_boot; cbn.
      * destruct Hs as [H1 H2 H3]. split; cbn; [done..|]. intros H. destruct (decide (b_url bt = u)) as [->|N]; [by rewrite lookup_insert_eq|].
        rewrite lookup_insert_ne by done. by apply H3.
      * intros _ bt' Hb' _ <-. assert (bt' = bt) as -> by congruence. by rewrite lookup_insert_eq.
    + apply served_settle_boot.
      * apply (served_entry k); [by intros op Hin%not_elem_of_nil|]. by apply (served_neutral (fun s => set_listeners _ s)).
      * cbn. intros _ bt' Hb' E. assert (bt' = bt) as -> by congruence. unfold adapter_of in E. by rewrite Ek in E.
  - destruct (String.eqb _ _); [|by apply (served_neutral (add_forwarded (w, m)))].
    assert (forall f, (forall s, boots (f s) = boots s /\ adapters (f s) = adapters s /\ signals (f s) = signals s /\ workers (f s) = workers s) ->
      served (settle_boot b false (f s)).2) as H by (intros f Hf; apply served_settle_boot; [by apply (served_neutral f)|done]).
    destruct (b_kind bt) as [o bf|k r [app|]].
    + by apply (H (fun s => add_terminated w (set_listeners (filter (fun l => l <> (w, b)) (listeners s)) s))).
    + by apply (H (fun s => set_listeners (filter (fun l => l <> (w, b)) (listeners s)) s)).
    + by apply (H (fun s => add_terminated w (set_listeners (filter (fun l => l <> (w, b)) (listeners s)) s))).
Qed.

Lemma served_worker_message w m : preserves served (on_worker_message w m).
Proof.
  unfold on_worker_message. apply preserves_bind; [apply preserves_gets|]. intros bs.
  apply preserves_bind; [apply preserves_gets|]. intros ks. apply preserves_bind.
  - apply preserves_for_of. intros l. apply served_boot_message.
  - intros _. apply preserves_for_of. intros k. apply served_adapter_message.
Qed.

(** A boot changes, but not what it is for, and its requests are no others. *)
Lemma served_alter g b s : served s ->
  (forall bt, boots s !! b = Some bt -> adapter_of (g bt) = adapter_of bt /\ b_url (g bt) = b_url bt /\
    (x ∈ boot_ids (g bt) -> x ∈ boot_ids bt \/ adapter_of bt = None /\ b_url bt = u)) ->
  served (set_boots (alter g b (boots s)) s).
Proof.
  intros [H1 H2 H3] Hg. split; cbn; [|done|done]. intros b' bt. destruct (decide (b = b')) as [<-|N].
  - rewrite lookup_alter_eq. intros (bt0 & Hb0 & ->)%fmap_Some. destruct (Hg bt0 Hb0) as (-> & -> & Hx).
    intros Hin. destruct (Hx Hin) as [Hin'|?]; [by apply (H1 b)|done].
  - rewrite lookup_alter_ne by done. apply H1.
Qed.

Lemma served_handshake b w bt : preserves served (handshake b w bt).
Proof.
  unfold handshake, set_phase. apply preserves_bind.
  - intros s Hs. apply served_alter; [done|]. intros bt' _. split_and!; [done..|]. by left.
  - intros _. apply preserves_bind; [by apply served_neutral|]. intros _. by apply served_neutral.
Qed.

Lemma served_spawn fetch w b : preserves served (spawn_settled parse_URL page_href page_origin fetch w b).
Proof.
  unfold spawn_settled. apply preserves_bind; [apply preserves_gets|]. intros [bt|]; [|apply preserves_ret].
  destruct (b_phase bt); [|apply preserves_ret..].
  assert (preserves served (match spawnWorker parse_URL page_href page_origin fetch (b_url bt) with
    | Normal script => modify (add_spawned (w, script)) ;;; handshake b w bt
    | Thrown _ => settle_boot b false
    end)) as H.
  { destruct (spawnWorker _ _ _ _ _); [|intros s Hs; by apply served_settle_boot].
    apply preserves_bind; [by apply served_neutral|]. intros _. apply served_handshake. }
  destruct (b_kind bt) as [o bf|k r [app|]]; [exact H|apply served_handshake|exact H].
Qed.

(** *** Requests *)

Definition wants (r : EnsureRequest) : Prop :=
  is_plain opts r = true /\ exists o, resolveWorkerUrl parse_URL page_href page_origin opts (er_location r) = Normal o /\ some_nonempty o = Some u.

Lemma served_new_boot bt f s : served s -> (x ∈ boot_ids bt -> adapter_of bt = None /\ b_url bt = u) ->
  (forall s, boots (f s) = boots s /\ adapters (f s) = adapters s /\ signals (f s) = signals s /\ workers (f s) = workers s) ->
  served (f (set_boots (<[nextBoot s := bt]> (boots s)) (set_nextBoot (nextBoot s + 1) s))).
Proof.
  intros [H1 H2 H3] Hbt Hf. apply (served_neutral f Hf). split; cbn; [|done|done].
  intros b bt' [[<- <-]|[N Hb]]%lookup_insert_Some; [done|by apply (H1 b)].
Qed.

Lemma served_join b j s : served s ->
  (joiner_request j = x -> forall bt, boots s !! b = Some bt -> adapter_of bt = None /\ b_url bt = u) -> served (join_boot b j s).2.
Proof.
  intros Hs Hj. apply served_alter; [done|]. intros bt Hbt. split; [done|]. split; [done|]. unfold boot_ids. cbn.
  rewrite fmap_app, app_comm_cons, elem_of_app. intros [Hin|Hin]; [by left|right]. apply list_elem_of_singleton in Hin. by apply Hj.
Qed.

Lemma served_adapter_request r o b t app u' : er_id r <> x -> preserves served (on_adapter_request r o b t app u').
Proof.
  intros Hr s Hs. unfold on_adapter_request. unfold bind at 1 2, gets at 1 2.
  destruct (adapters s !! adapterKey t); [by apply served_finish|].
  destruct (pendingAdapters s !! adapterKey t) as [boot|]; [by apply served_join|].
  unfold next_touch, start_boot, bind, gets, modify, ret. cbn.
  set (bt := {| b_kind := _; b_url := _; b_phase := _; b_owner := _; b_joiners := _ |}).
  apply (served_new_boot bt (set_pendingAdapters (<[adapterKey t := nextBoot s]> (pendingAdapters s))) (set_touch (touch s + 1) s)).
  - by apply (served_neutral (set_touch (touch s + 1))).
  - intros Hin. apply list_elem_of_singleton in Hin. by rewrite Hin in Hr.
  - done.
Qed.

Lemma served_plain_request r u' s : bridge_ok s -> (er_id r = x -> u' = u) -> served s -> served (on_plain_request r u' s).2.
Proof.
  intros Hok Hr Hs. unfold on_plain_request. unfold bind at 1 2, gets at 1 2. destruct (workers s !! u') as [w|] eqn:Hw.
  { apply served_signal; [done|]. intros E _. rewrite <- (Hr E). by exists w. }
  destruct (pending s !! u') as [boot|] eqn:Hp.
  { apply served_join; [done|]. intros E bt Hbt. destruct (ok_pending _ _ Hok u' boot Hp) as (bt' & Hb' & _ & Ek & Eu).
    assert (bt' = bt) as -> by congruence. by rewrite <- (Hr E). }
  unfold start_boot, bind, gets, modify, ret. cbn.
  set (bt := {| b_kind := _; b_url := _; b_phase := _; b_owner := _; b_joiners := _ |}).
  apply (served_new_boot bt (set_pending (<[u' := nextBoot s]> (pending s))) s); [done| |done].
  intros Hin. apply list_elem_of_singleton in Hin. split; [done|]. by apply Hr.
Qed.

Lemma served_ensure r s : bridge_ok s -> (er_id r = x -> wants r) -> served s -> served (on_ensure parse_URL page_href page_origin opts r s).2.
Proof.
  intros Hok Hr Hs. unfold wants, is_plain in Hr.
  assert (forall v, v <> 1 -> served (signal (er_id r) v s).2) as Hsig by (intros v Hv; apply served_signal; [done|]; by intros _ E).
  unfold on_ensure. destruct (_ || _).
  - assert (er_id r <> x) as N by (intros E; by destruct (Hr E)). clear Hr.
    destruct (er_offset r) as [o|], (er_buffer r) as [b|]; try by apply Hsig. destruct (negb _); [by apply Hsig|].
    unfold bind at 1, lift_b at 1. destruct (requested_target _ _ _) as [[[t app]|]|]; [|by apply Hsig|done]. cbn [ret].
    destruct (_ || _); [by apply Hsig|]. unfold bind at 1, lift_b at 1.
    destruct (adapter_script _ _ _ _ _ _) as [o'|err]; [|done]. cbn [ret].
    destruct (some_nonempty o') as [u'|]; [|by apply Hsig]. by apply served_adapter_request.
  - unfold bind at 1, lift_b at 1. destruct (resolveWorkerUrl _ _ _ _ _) as [o'|err]; [|done]. cbn [ret].
    destruct (some_nonempty o') as [u'|] eqn:Eu; [|by apply Hsig]. apply served_plain_request; [done| |done].
    intros E. destruct (Hr E) as (_ & o & [= <-] & Eo). congruence.
Qed.

Lemma step_served r s s' : bridge_step parse_URL page_href page_origin opts max r s s' -> bridge_ok s ->
  (forall q, r = Some q -> er_id q = x -> wants q) -> served s -> served s'.
Proof.
  intros Hstep Hok Hr Hs. destruct Hstep.
  - apply served_ensure; [done|by apply Hr|done].
  - by apply served_spawn.
  - by apply served_worker_message.
  - by apply served_queue_step.
  - by apply served_timeout.
Qed.

Lemma initial_served : served initial_bridge.
Proof.
  split; cbn; [intros b bt; by rewrite lookup_empty|intros k e op; by rewrite lookup_empty|]. intros H. by apply not_elem_of_nil in H.
Qed.
End Served.

(** ** Workers run their scripts *)

(** Boot [b] is there, and [w] runs its script unless it boots an adapter. *)
Definition boots_for (s : Bridge) (w b : Z) : Prop :=
  exists bt, boots s !! b = Some bt /\ (adapter_of bt = None -> runs s w (b_url bt)).

Definition fresh_boots (s : Bridge) : Prop := forall b bt, boots s !! b = Some bt -> b < nextBoot s.

Record workers_run (s : Bridge) : Prop := {
  wr_fresh : fresh_boots s;
  wr_listeners w b : (w, b) ∈ listeners s -> boots_for s w b;
  wr_workers w u : workers s !! u = Some w -> runs s w u
}.

(** No worker and no listener is new, and boots are for what they were. *)
Record frame (s0 s : Bridge) : Prop := {
  fr_listeners : listeners s ⊆ listeners s0;
  fr_workers : workers s = workers s0;
  fr_spawned : spawned s0 ⊆ spawned s;
  fr_next : nextBoot s0 <= nextBoot s;
  fr_fresh : fresh_boots s;
  fr_boots b bt : boots s0 !! b = Some bt -> b < nextBoot s0 ->
    exists bt', boots s !! b = Some bt' /\ b_kind bt' = b_kind bt /\ b_url bt' = b_url bt
}.

Lemma frame_refl s : fresh_boots s -> frame s s.
Proof. intros H. split; [done..|lia|done|]. intros b bt Hb _. by exists bt. Qed.

Lemma runs_frame s0 s w u : frame s0 s -> runs s0 w u -> runs s w u.
Proof. intros H (sc & Hsc & E). exists sc. split; [by apply (fr_spawned _ _ H)|done]. Qed.

Lemma boots_for_frame s0 s w b : fresh_boots s0 -> frame s0 s -> boots_for s0 w b -> boots_for s w b.
Proof.
  intros Hf H (bt & Hb & Hr). destruct (fr_boots _ _ H b bt Hb (Hf b bt Hb)) as (bt' & Hb' & Ek & Eu). exists bt'. split; [done|].
  unfold adapter_of in *. rewrite Ek, Eu. intros E. by apply (runs_frame s0), Hr.
Qed.

Lemma workers_run_frame s0 s : workers_run s0 -> frame s0 s -> workers_run s.
Proof.
  intros [H1 H2 H3] H. split; [apply H| |].
  - intros w b Hin. apply (boots_for_frame s0); [done..|]. by apply H2, (fr_listeners _ _ H).
  - intros w u. rewrite (fr_workers _ _ H). intros Hw. by apply (runs_frame s0), H3.
Qed.

Abbreviation quiet m := (forall s0, preserves (frame s0) m).

Lemma quiet_neutral f : (forall s, listeners (f s) ⊆ listeners s /\ workers (f s) = workers s /\ spawned (f s) = spawned s /\
  nextBoot (f s) = nextBoot s /\ boots (f s) = boots s) -> quiet (modify f).
Proof.
  intros Hf s0 s [H1 H2 H3 H4 H5 H6]. destruct (Hf s) as (E1 & E2 & E3 & E4 & E5). unfold modify. cbn [snd].
  split; unfold fresh_boots; rewrite ?E2, ?E3, ?E4, ?E5; try done. set_solver.
Qed.

Lemma frame_boot b bt bt' s0 s : frame s0 s -> boots s !! b = Some bt -> b_kind bt' = b_kind bt -> b_url bt' = b_url bt ->
  frame s0 (set_boots (<[b := bt']> (boots s)) s).
Proof.
  intros [H1 H2 H3 H4 H5 H6] Hb Ek Eu. split; cbn; [done..| |].
  - intros b1 bt1 Hb1. cbn in Hb1. apply lookup_insert_Some in Hb1 as [[<- <-]|[N Hb1]]; [by apply (H5 b bt)|by apply (H5 b1 bt1)].
  - intros b1 bt1 Hb1 Hlt. destruct (H6 b1 bt1 Hb1 Hlt) as (bt2 & Hb2 & Ek2 & Eu2). destruct (decide (b = b1)) as [<-|N].
    + exists bt'. rewrite lookup_insert_eq. split; [done|]. assert (bt2 = bt) as -> by congruence. split; congruence.
    + exists bt2. by rewrite lookup_insert_ne.
Qed.

Lemma quiet_alter b g : (forall bt, b_kind (g bt) = b_kind bt /\ b_url (g bt) = b_url bt) ->
  quiet (modify (fun s => set_boots (alter g b (boots s)) s)).
Proof.
  intros Hg s0 s Hs. cbn. rewrite alter_alt. destruct (boots s !! b) as [bt|] eqn:Hb.
  - apply (frame_boot b bt); [done..| |]; apply Hg.
  - by destruct s.
Qed.

Lemma quiet_new_boot bt : quiet (start_boot bt).
Proof.
  intros s0 s [H1 H2 H3 H4 H5 H6]. unfold start_boot, bind, gets, modify, ret. cbn. split; cbn; [done..|lia| |].
  - intros b1 bt1 Hb1. cbn in Hb1 |- *. apply lookup_insert_Some in Hb1 as [[<- <-]|[N Hb1]]; [lia|]. specialize (H5 b1 bt1 Hb1). lia.
  - intros b1 bt1 Hb1 Hlt. destruct (H6 b1 bt1 Hb1 Hlt) as (bt2 & Hb2 & E). exists bt2. by rewrite lookup_insert_ne by lia.
Qed.

Create HintDb quiet.

(** Goes through a handler that has no new workers. *)
Ltac hush := repeat first
  [ solve [auto 2 with quiet nocore]
  | apply preserves_ret | apply preserves_gets | apply preserves_throw
  | apply preserves_bind; [|intros ?]
  | apply preserves_for_of; intros ?
  | solve [apply quiet_neutral; intros ?; split_and!; repeat case_match; done]
  | match goal with |- preserves _ (match ?x with _ => _ end) => destruct x eqn:? end ].

#[local] Hint Resolve quiet_new_boot : quiet.

Lemma quiet_finish k r u t o b : quiet (finish k r u t o b).
Proof. intros s0. unfold finish, ensureAdapterRegion, set_entry, signal. hush. Qed.
Lemma quiet_settled k e op v : quiet (operation_settled k e op v).
Proof. intros s0. unfold operation_settled, set_entry, signal. hush. Qed.
#[local] Hint Resolve quiet_finish quiet_settled : quiet.

Lemma quiet_joiner ok k j : quiet (settle_joiner ok k j).
Proof. intros s0. unfold settle_joiner, signal. hush. Qed.
#[local] Hint Resolve quiet_joiner : quiet.

Lemma quiet_settle_boot b ok : quiet (settle_boot b ok).
Proof.
  intros s0 s Hs. unfold settle_boot. unfold bind at 1, gets at 1. destruct (boots s !! b) as [bt|] eqn:Hb; [|done].
  set (bt' := {| b_kind := b_kind bt; b_url := b_url bt; b_phase := Settled; b_owner := b_owner bt; b_joiners := [] |}).
  assert (frame s0 (set_boots (<[b := bt']> (boots s)) s)) as H by by apply (frame_boot b bt).
  set (k := match b_kind bt with Boot_adapter k _ _ => Some k | Boot_plain _ _ => None end).
  assert (preserves (frame s0) (modify (fun s => match k with
      | Some k => set_pendingAdapters (delete k (pendingAdapters s)) s
      | None => set_pending (delete (b_url bt) (pending s)) s
      end) ;;; signal (b_owner bt) (if ok then 1 else -1) ;;; for_of (b_joiners bt) (settle_joiner ok k))) as Hrest.
  { unfold signal. hush. }
  destruct (b_phase bt); [by apply (Hrest (set_boots (<[b := bt']> (boots s)) s))..|done].
Qed.
#[local] Hint Resolve quiet_settle_boot : quiet.

Lemma quiet_queue_step max load1 load2 k : quiet (queue_step max load1 load2 k).
Proof. intros s0. unfold queue_step, start_operation, rebind, next_touch, set_entry, post_to. hush. Qed.
Lemma quiet_timeout k : quiet (registration_timeout k).
Proof. intros s0. unfold registration_timeout, registration_settled. hush. Qed.
Lemma quiet_adapter_message m k : quiet (on_adapter_message m k).
Proof. intros s0. unfold on_adapter_message, registration_settled, forward. hush. Qed.
#[local] Hint Resolve quiet_queue_step quiet_timeout quiet_adapter_message : quiet.

Lemma quiet_remove_listener w b : quiet (remove_listener w b).
Proof. apply quiet_neutral. intros s. split_and!; [|done..]. intros l Hl. by apply list_elem_of_filter in Hl as [_ Hl]. Qed.
#[local] Hint Resolve quiet_remove_listener : quiet.

Section Run.
Context (parse_URL : string -> string -> Outcome (string * string)) (page_href page_origin : string)
  (opts : VgiWebWorkerBridgeOptions) (max : Z).

(** A quiet handler keeps what is known of the workers, and of worker [w] and boot [b]. *)
Lemma quiet_run (m : JS Bridge unit) : quiet m -> preserves workers_run m.
Proof. intros Hm s Hs. apply (workers_run_frame s); [done|]. apply Hm, frame_refl, Hs. Qed.

(** The workers are known, and the listeners [ls] were for their boots. *)
Definition listening (ls : list (Z * Z)) (s : Bridge) : Prop := workers_run s /\ forall w b, (w, b) ∈ ls -> boots_for s w b.

Lemma quiet_listening ls (m : JS Bridge unit) : quiet m -> preserves (listening ls) m.
Proof.
  intros Hm s [Hs Hls]. assert (frame s (m s).2) as H by apply Hm, frame_refl, Hs.
  split; [by apply (workers_run_frame s)|]. intros w b Hin. apply (boots_for_frame s); [apply Hs|done|by apply Hls].
Qed.

Lemma listening_boot_message ls w b m : (w, b) ∈ ls -> preserves (listening ls) (on_boot_message w b m).
Proof.
  intros Hin s Hs. unfold on_boot_message. unfold bind at 1, gets at 1. destruct (boots s !! b) as [bt|] eqn:Hb; [|done].
  destruct (String.eqb _ _).
  - destruct (b_kind bt) as [o bf|k r app] eqn:Ek.
    + apply (quiet_listening ls (settle_boot b true) (quiet_settle_boot b true)).
      destruct Hs as [[H1 H2 H3] Hls]. split; [|done]. split; [done..|]. cbn.
      intros w' u [[<- <-]|[N Hw]]%lookup_insert_Some; [|by apply H3].
      destruct (Hls w b Hin) as (bt' & Hb' & Hr). assert (bt' = bt) as -> by congruence. apply Hr. unfold adapter_of. by rewrite Ek.
    + revert s Hs Hb. enough (preserves (listening ls) (remove_listener w b ;;;
        set_entry k {| key := k; url := b_url bt; worker := w; regions := [(target r, r)]; registrationQueue := [] |} ;;;
        settle_boot b true)) as H by (intros s Hs _; by apply H).
      apply quiet_listening. intros s0. unfold set_entry. hush.
  - revert s Hs Hb. enough (preserves (listening ls) (if String.eqb (wm_type m) "vgi-error" then
        remove_listener w b ;;;
        match b_kind bt with
        | Boot_adapter _ _ (Some _) => ret tt
        | _ => modify (add_terminated w)
        end ;;;
        settle_boot b false
      else forward w m)) as H by (intros s Hs _; by apply H).
    apply quiet_listening. intros s0. unfold forward. hush.
Qed.

Lemma for_of_in {S A} (I : S -> Prop) (l : list A) (f : A -> JS S unit) : (forall a, a ∈ l -> preserves I (f a)) -> preserves I (for_of l f).
Proof.
  induction l as [|a l IH]; intros Hf; [apply preserves_ret|]. cbn. apply preserves_bind; [apply Hf; by left|]. intros _.
  apply IH. intros a' Hin. apply Hf. by right.
Qed.

Lemma run_worker_message w m : preserves workers_run (on_worker_message w m).
Proof.
  intros s Hs. unfold on_worker_message. unfold bind at 1 2, gets at 1 2. set (bs := filter _ (listeners s)).
  enough (preserves (listening bs) (for_of bs (fun l => on_boot_message w l.2 m) ;;;
    for_of (fst <$> filter (fun ke : string * AdapterEntry => worker ke.2 = w) (map_to_list (adapters s))) (on_adapter_message m))) as H.
  { apply (H s). split; [done|]. intros w' b Hin. apply (wr_listeners _ Hs). by apply list_elem_of_filter in Hin as [_ Hin]. }
  apply preserves_bind; [|intros _; apply quiet_listening; intros s0; hush].
  apply for_of_in. intros [w' b] Hin. cbn.
  assert (w' = w) as -> by (apply list_elem_of_filter in Hin as [Ew _]; exact Ew). by apply listening_boot_message.
Qed.

(** The worker that a boot listens to from now on. *)
Lemma run_handshake b w bt s : workers_run s -> boots s !! b = Some bt -> (adapter_of bt = None -> runs s w (b_url bt)) ->
  workers_run (handshake b w bt s).2.
Proof.
  intros Hs Hb Hr.
  set (s1 := (set_phase b Handshaking s).2).
  assert (frame s s1) as Hf by (apply quiet_alter; [by intros|apply frame_refl, Hs]).
  assert (boots_for s1 w b) as Hw by (apply (boots_for_frame s); [apply Hs|done|by exists bt]).
  apply (workers_run_frame s) in Hf; [|done]. destruct Hf as [H1 H2 H3]. split; [done| |done].
  intros w' b' [Hin|Hin]%elem_of_app; [by apply H2|]. apply list_elem_of_singleton in Hin as [= -> ->]. done.
Qed.

Lemma spawned_url fetch u sc : spawnWorker parse_URL page_href page_origin fetch u = Normal sc -> script_url sc = u.
Proof.
  unfold spawnWorker. destruct (match parse_URL u page_href with Normal _ => _ | Thrown _ => _ end); [by intros [= <-]|].
  destruct (fetch u) as [res|]; [|done]. destruct (negb _); [done|]. by intros [= <-].
Qed.

Lemma run_spawn fetch w b : preserves workers_run (spawn_settled parse_URL page_href page_origin fetch w b).
Proof.
  intros s Hs. unfold spawn_settled. unfold bind at 1, gets at 1. destruct (boots s !! b) as [bt|] eqn:Hb; [|done].
  destruct (b_phase bt); [|done..].
  assert (workers_run (match spawnWorker parse_URL page_href page_origin fetch (b_url bt) with
    | Normal script => modify (add_spawned (w, script)) ;;; handshake b w bt
    | Thrown _ => settle_boot b false
    end s).2) as H.
  { destruct (spawnWorker _ _ _ _ _) as [sc|err] eqn:Esc; [|apply quiet_run; [apply quiet_settle_boot|done]].
    apply (run_handshake b w bt (add_spawned (w, sc) s)); [|done|].
    - apply (workers_run_frame s); [done|]. destruct Hs as [H1 _ _]. split; cbn; [done..| |lia|done|].
      + intros p Hp. apply elem_of_app. by left.
      + intros b' bt' Hb' _. by exists bt'.
    - intros _. exists sc. split; [apply elem_of_app; right; by left|]. by apply (spawned_url fetch). }
  destruct (b_kind bt) as [o bf|k r [app|]] eqn:Ek; [exact H| |exact H].
  apply run_handshake; [done..|]. unfold adapter_of. by rewrite Ek.
Qed.

Lemma quiet_ensure r : quiet (on_ensure parse_URL page_href page_origin opts r).
Proof.
  intros s0. unfold on_ensure, on_adapter_request, on_plain_request, lift_b, next_touch, signal, join_boot. hush.
  all: by apply quiet_alter.
Qed.

Lemma step_run r s s' : bridge_step parse_URL page_href page_origin opts max r s s' -> workers_run s -> workers_run s'.
Proof.
  destruct 1.
  - apply quiet_run, quiet_ensure.
  - apply run_spawn.
  - apply run_worker_message.
  - apply quiet_run, quiet_queue_step.
  - apply quiet_run, quiet_timeout.
Qed.

Lemma initial_run : workers_run initial_bridge.
Proof.
  split; cbn; [intros b bt Hb; cbn in Hb; by rewrite lookup_empty in Hb|intros w b Hin; by apply not_elem_of_nil in Hin|intros w u; by rewrite lookup_empty].
Qed.

(** *** When a worker becomes known *)

Lemma quiet_workers (m : JS Bridge unit) s : quiet m -> fresh_boots s -> workers (m s).2 = workers s.
Proof. intros Hm Hs. apply (fr_workers s), Hm, frame_refl, Hs. Qed.

(** A worker is new among those known only after its message that it is ready. *)
Lemma message_workers w m s u w' : workers_run s -> workers (on_worker_message w m s).2 !! u = Some w' ->
  workers s !! u = Some w' \/ w' = w /\ wm_type m = "vgi-ready"%string.
Proof.
  intros Hs. set (I := fun s' => fresh_boots s' /\ forall u w', workers s' !! u = Some w' ->
    workers s !! u = Some w' \/ w' = w /\ wm_type m = "vgi-ready"%string).
  assert (forall m' : JS Bridge unit, quiet m' -> preserves I m') as Hq.
  { intros m' Hm s' [Hf HI]. split; [apply (fr_fresh s'), Hm, frame_refl, Hf|]. by rewrite quiet_workers. }
  enough (preserves I (on_worker_message w m)) as H by (apply (H s); split; [apply Hs|by left]).
  unfold on_worker_message. apply preserves_bind; [apply preserves_gets|]. intros bs.
  apply preserves_bind; [apply preserves_gets|]. intros ks. apply preserves_bind.
  2: { intros _. apply preserves_for_of. intros k. apply Hq, quiet_adapter_message. }
  apply preserves_for_of. intros [w1 b]. cbn. unfold on_boot_message. apply preserves_bind; [apply preserves_gets|].
  intros [bt|]; [|apply preserves_ret]. destruct (String.eqb_spec (wm_type m) "vgi-ready") as [E|N].
  - apply preserves_bind; [|intros _; apply Hq, quiet_settle_boot]. destruct (b_kind bt) as [o bf|k r app].
    + apply preserves_modify. intros s' [Hf HI]. split; [exact Hf|]. cbn.
      intros u1 w2 [[<- <-]|[N Hw]]%lookup_insert_Some; [by right|by apply HI].
    + apply Hq. intros s0. unfold set_entry. hush.
  - apply Hq. intros s0. unfold forward. hush.
Qed.

Lemma spawn_workers fetch w b s : workers_run s -> workers (spawn_settled parse_URL page_href page_origin fetch w b s).2 = workers s.
Proof.
  intros Hs. unfold spawn_settled. unfold bind at 1, gets at 1. destruct (boots s !! b) as [bt|] eqn:Hb; [|done].
  destruct (b_phase bt); [|done..].
  assert (workers (match spawnWorker parse_URL page_href page_origin fetch (b_url bt) with
    | Normal script => modify (add_spawned (w, script)) ;;; handshake b w bt
    | Thrown _ => settle_boot b false
    end s).2 = workers s) as H.
  { destruct (spawnWorker _ _ _ _ _); [done|]. apply quiet_workers; [apply quiet_settle_boot|apply Hs]. }
  destruct (b_kind bt) as [o bf|k r [app|]]; [exact H|done|exact H].
Qed.

(** A worker that is known runs the script it is known for. *)
Lemma known_workers_run ids s w u : bridge_run parse_URL page_href page_origin opts max ids s -> workers s !! u = Some w -> runs s w u.
Proof.
  intros Hr. apply wr_workers. induction Hr as [|ids s r s' _ IH Hstep]; [apply initial_run|by apply (step_run r s)].
Qed.
End Run.
