(* ===== verification/VgiLink.v ===== *)
(** * VgiLink: the engine's calls and the page's bridge together
    ([vgi_wasm_ensure_worker] of [lib/js-stubs.js], [vgi/webworker-bridge.ts])

    [VgiEnsure] has one call of the engine, with what it finds at its looks as an
    argument; [Vgi] has the bridge, which writes signals.  Here any number of calls run
    next to the bridge.  A call creates a shared buffer for the answer, named by a number
    that is also the id of its request, posts the request to the page, and looks at the
    buffer again and again; requests of different threads reach the bridge in any order.
    Every look and store is a step. *)
From S2P Require Import Prelude Regex JsMap WasmModule S3 Vgi VgiRequests VgiRegions VgiEnsure VgiScripts VgiServed.
From stdpp Require Import base tactics list gmap strings functions.
From Stdlib Require Import ZArith Lia.
Open Scope Z_scope.

(** ** Signals are only added *)

Section Grows.
Context (parse_URL : string -> string -> Outcome (string * string)) (page_href page_origin : string)
  (opts : VgiWebWorkerBridgeOptions) (max : Z).

Definition signalled (x : Z * Z) (s : Bridge) : Prop := x ∈ signals s.
Abbreviation keeps_signal_of x m := (preserves (signalled x) m).

Lemma silent x (f : Bridge -> Bridge) : (forall s, signals (f s) = signals s) -> keeps_signal_of x (modify f).
Proof. intros H. apply preserves_modify. intros s. unfold signalled. by rewrite H. Qed.

Lemma signal_grows x r v : keeps_signal_of x (signal r v).
Proof. apply preserves_modify. intros s Hs. unfold signalled. cbn. apply elem_of_app. by left. Qed.

Create HintDb grows.
#[local] Hint Resolve signal_grows : grows.

(** Goes through a handler. *)
Ltac grows := repeat first
  [ solve [auto 1 with grows nocore]
  | apply preserves_ret | apply preserves_gets | apply preserves_throw
  | apply preserves_bind; [|intros ?]
  | apply preserves_for_of; intros ?
  | solve [apply silent; intros ?; repeat case_match; reflexivity]
  | match goal with |- preserves _ (match ?x with _ => _ end) => destruct x eqn:? end ].

Lemma finish_grows x k r u t o b : keeps_signal_of x (finish k r u t o b).
Proof. unfold finish, ensureAdapterRegion, set_entry. grows. Qed.
#[local] Hint Resolve finish_grows : grows.

Lemma joiner_grows x ok k j : keeps_signal_of x (settle_joiner ok k j).
Proof. unfold settle_joiner. grows. Qed.
#[local] Hint Resolve joiner_grows : grows.

Lemma settle_boot_grows x b ok : keeps_signal_of x (settle_boot b ok).
Proof. unfold settle_boot. grows. Qed.

Lemma settled_grows x k e op v : keeps_signal_of x (operation_settled k e op v).
Proof. unfold operation_settled, set_entry. grows. Qed.
#[local] Hint Resolve settle_boot_grows settled_grows : grows.

Lemma queue_grows x l1 l2 k : keeps_signal_of x (queue_step max l1 l2 k).
Proof. unfold queue_step, start_operation, rebind, next_touch, set_entry, post_to. grows. Qed.

Lemma boot_message_grows x w b m : keeps_signal_of x (on_boot_message w b m).
Proof. unfold on_boot_message, remove_listener, forward, set_entry. grows. Qed.

Lemma adapter_message_grows x m k : keeps_signal_of x (on_adapter_message m k).
Proof. unfold on_adapter_message, registration_settled, forward. grows. Qed.
#[local] Hint Resolve boot_message_grows adapter_message_grows : grows.

Lemma bridge_step_grows x r s s' : bridge_step parse_URL page_href page_origin opts max r s s' ->
  signalled x s -> signalled x s'.
Proof.
  intros Hs. revert s s' Hs. assert (forall (m : JS Bridge unit) s, keeps_signal_of x m -> signalled x s -> signalled x (m s).2) as H
    by (intros m s Hm; apply Hm).
  intros s s' [r' s0|fetch w b s0 _ _|w m s0|l1 l2 k s0|k s0]; apply H.
  - unfold on_ensure, on_adapter_request, on_plain_request, lift_b, start_boot, join_boot, next_touch. grows.
  - unfold spawn_settled, handshake, set_phase, post_to. grows.
  - unfold on_worker_message. grows.
  - apply queue_grows.
  - unfold registration_timeout, registration_settled. grows.
Qed.
End Grows.

(** ** Calls and bridge *)

(** Where a call of [vgi_wasm_ensure_worker] is: at its look at the ready flag, at
    [postMessage], at the look of its loop after [waited] milliseconds, at the look that
    tells success, at the store of the flag, or returned. *)
Inductive EnsurePc :=
| E_start
| E_post
| E_poll (readySab waited : Z)
| E_answer (readySab : Z)
| E_publish (readySab : Z)
| E_done (result : Z).

(** [ec_flag] and [ec_looks]: what the call found at its looks at the flag and at the answer. *)
Record EnsureCall := {
  ec_location : string; ec_offset : Z; ec_pc : EnsurePc; ec_flag : Z; ec_looks : list Z
}.

(** [lk_transit]: messages posted and not dispatched yet; [lk_asked]: all posted;
    [lk_said]: the messages of workers the bridge was handed. *)
Record Link := {
  lk_ready : gmap Z Z;                (** the ready lane of the region at an offset *)
  lk_transit : list EnsureRequest;
  lk_asked : list EnsureRequest;
  lk_calls : list EnsureCall;
  lk_said : list (Z * WorkerMessage);
  lk_bridge : Bridge
}.

Definition put_calls (cs : list EnsureCall) (l : Link) : Link :=
  {| lk_ready := lk_ready l; lk_transit := lk_transit l; lk_asked := lk_asked l; lk_calls := cs; lk_said := lk_said l; lk_bridge := lk_bridge l |}.
Definition set_flag (o v : Z) (l : Link) : Link :=
  {| lk_ready := <[o := v]> (lk_ready l); lk_transit := lk_transit l; lk_asked := lk_asked l; lk_calls := lk_calls l;
     lk_said := lk_said l; lk_bridge := lk_bridge l |}.
Definition post_ensure (r : EnsureRequest) (l : Link) : Link :=
  {| lk_ready := lk_ready l; lk_transit := lk_transit l ++ [r]; lk_asked := lk_asked l ++ [r]; lk_calls := lk_calls l;
     lk_said := lk_said l; lk_bridge := lk_bridge l |}.
Definition set_bridge (transit : list EnsureRequest) (s : Bridge) (l : Link) : Link :=
  {| lk_ready := lk_ready l; lk_transit := transit; lk_asked := lk_asked l; lk_calls := lk_calls l; lk_said := lk_said l;
     lk_bridge := s |}.

Definition worker_says (w : Z) (m : WorkerMessage) (l : Link) : Link :=
  {| lk_ready := lk_ready l; lk_transit := lk_transit l; lk_asked := lk_asked l; lk_calls := lk_calls l;
     lk_said := lk_said l ++ [(w, m)]; lk_bridge := (on_worker_message w m (lk_bridge l)).2 |}.

Definition initial_link : Link :=
  {| lk_ready := ∅; lk_transit := []; lk_asked := []; lk_calls := []; lk_said := []; lk_bridge := initial_bridge |}.

Definition flag_of (o : Z) (l : Link) : Z := default 0 (lk_ready l !! o).

(** What is in the answer's buffer: 0, or what the bridge stored last. *)
Definition answer_of (r : Z) (s : Bridge) : Z :=
  foldl (fun v p => if p.1 =? r then p.2 else v) 0 (signals s).

Definition goes_to (pc : EnsurePc) (c : EnsureCall) : EnsureCall :=
  {| ec_location := ec_location c; ec_offset := ec_offset c; ec_pc := pc; ec_flag := ec_flag c; ec_looks := ec_looks c |}.
Definition sees_flag (v : Z) (c : EnsureCall) : EnsureCall :=
  {| ec_location := ec_location c; ec_offset := ec_offset c; ec_pc := ec_pc c; ec_flag := v; ec_looks := ec_looks c |}.
Definition looks_at (v : Z) (c : EnsureCall) : EnsureCall :=
  {| ec_location := ec_location c; ec_offset := ec_offset c; ec_pc := ec_pc c; ec_flag := ec_flag c; ec_looks := ec_looks c ++ [v] |}.

Section Link.
Context (parse_URL : string -> string -> Outcome (string * string)) (page_href page_origin : string)
  (opts : VgiWebWorkerBridgeOptions) (max : Z)
  (has_SharedArrayBuffer : bool) (memory : Z).   (** [vgiSab.buf()] *)

(** One step of a call, with what it does to the rest. *)
Definition call_step (c : EnsureCall) (l : Link) : EnsureCall * Link :=
  match ec_pc c with
  | E_start =>
      let v := flag_of (ec_offset c) l in
      (goes_to (if v =? 1 then E_done 0 else if negb has_SharedArrayBuffer then E_done (-1) else E_post) (sees_flag v c), l)
  | E_post =>
      let readySab := lenZ (lk_asked l) in
      (goes_to (E_poll readySab 0) c,
       post_ensure {| er_id := readySab; er_location := ec_location c; er_offset := Some (ec_offset c); er_buffer := Some memory |} l)
  | E_poll readySab waited =>
      let v := answer_of readySab (lk_bridge l) in
      let waited' := waited + 1000 in
      (goes_to (if v =? 0 then if 30000 <=? waited' then E_done (-1) else E_poll readySab waited' else E_answer readySab)
         (looks_at v c), l)
  | E_answer readySab =>
      let v := answer_of readySab (lk_bridge l) in
      (goes_to (if v =? 1 then E_publish readySab else E_done (-1)) (looks_at v c), l)
  | E_publish _ => (goes_to (E_done 0) c, set_flag (ec_offset c) 1 l)
  | E_done _ => (c, l)
  end.

Definition step_call (i : nat) (l : Link) : Link :=
  match lk_calls l !! i with
  | Some c => let (c', l') := call_step c l in put_calls (<[i := c']> (lk_calls l)) l'
  | None => l
  end.

Definition enter_call (location : string) (o : Z) (l : Link) : Link :=
  put_calls (lk_calls l ++ [{| ec_location := location; ec_offset := o; ec_pc := E_start; ec_flag := 0; ec_looks := [] |}]) l.

(** What the bridge does on its own: a spawn settles, an adapter's queue moves, a registration times out. *)
Inductive bridge_goes_on : Bridge -> Bridge -> Prop :=
| bg_spawn fetch w b s :
    w ∉ (fst <$> spawned s) -> Some w <> irohAdapterWorker opts ->
    bridge_goes_on s (spawn_settled parse_URL page_href page_origin fetch w b s).2
| bg_queue load1 load2 k s : bridge_goes_on s (queue_step max load1 load2 k s).2
| bg_timeout k s : bridge_goes_on s (registration_timeout k s).2.

Lemma goes_on_step s s' : bridge_goes_on s s' -> bridge_step parse_URL page_href page_origin opts max None s s'.
Proof. destruct 1; by constructor. Qed.

(** A call begins or goes on, a request or a worker's message reaches the bridge, or the
    bridge does something else.  Requests of different threads arrive in any order. *)
Inductive link_step : Link -> Link -> Prop :=
| ls_enter location o l : link_step l (enter_call location o l)
| ls_call i l : link_step l (step_call i l)
| ls_receive before r after s l : lk_transit l = before ++ r :: after ->
    bridge_step parse_URL page_href page_origin opts max (Some r) (lk_bridge l) s -> link_step l (set_bridge (before ++ after) s l)
| ls_message w m l : link_step l (worker_says w m l)
| ls_bridge s l : bridge_goes_on (lk_bridge l) s -> link_step l (set_bridge (lk_transit l) s l).

Inductive link_run : Link -> Prop :=
| lr_init : link_run initial_link
| lr_step l l' : link_run l -> link_step l l' -> link_run l'.

(** ** The invariant *)

(** Request [r] was posted for the region at [o]. *)
Definition asked_for (l : Link) (r o : Z) : Prop := exists q, q ∈ lk_asked l /\ er_id q = r /\ er_offset q = Some o.
(** A request for the region at [o] was answered with success. *)
Definition ready_for (l : Link) (o : Z) : Prop := exists r, asked_for l r o /\ signalled (r, 1) (lk_bridge l).

(** What a call found so far: zeros while it polls, then an answer, twice. *)
Definition trace_ok (c : EnsureCall) : Prop :=
  match ec_pc c with
  | E_start => ec_looks c = []
  | E_post => ec_flag c <> 1 /\ has_SharedArrayBuffer = true /\ ec_looks c = []
  | E_poll _ waited => ec_flag c <> 1 /\ has_SharedArrayBuffer = true /\
      exists k, (k < 30)%nat /\ ec_looks c = replicate k 0 /\ waited = 1000 * Z.of_nat k
  | E_answer _ => ec_flag c <> 1 /\ has_SharedArrayBuffer = true /\
      exists k v, (k < 30)%nat /\ v <> 0 /\ ec_looks c = replicate k 0 ++ [v]
  | E_publish _ => ec_flag c <> 1 /\ has_SharedArrayBuffer = true /\
      exists k v, (k < 30)%nat /\ v <> 0 /\ ec_looks c = replicate k 0 ++ [v; 1]
  | E_done result => exists e, vgi_wasm_ensure_worker 31 (ec_flag c) has_SharedArrayBuffer (fun k => nth k (ec_looks c) 0) = Some e /\
      en_result e = result
  end.

(** What a call relies on. *)
Definition reason_ok (l : Link) (c : EnsureCall) : Prop :=
  match ec_pc c with
  | E_start | E_post => True
  | E_poll r _ | E_answer r => asked_for l r (ec_offset c)
  | E_publish r => asked_for l r (ec_offset c) /\ signalled (r, 1) (lk_bridge l)
  | E_done result => result = 0 -> ready_for l (ec_offset c)
  end.

Record link_ok (l : Link) : Prop := {
  lo_transit : lk_transit l ⊆ lk_asked l;
  lo_ids : er_id <$> lk_asked l = seqZ 0 (lenZ (lk_asked l));
  lo_bridge : exists ids, bridge_run parse_URL page_href page_origin opts max ids (lk_bridge l) /\
    ids ++ (er_id <$> lk_transit l) ≡ₚ er_id <$> lk_asked l;
  lo_ready o : flag_of o l = 1 -> ready_for l o;
  lo_calls : Forall (fun c => trace_ok c /\ reason_ok l c) (lk_calls l)
}.

(** [l'] knows of all requests and signals of [l]. *)
Definition extends (l l' : Link) : Prop :=
  lk_asked l ⊆ lk_asked l' /\ forall x, signalled x (lk_bridge l) -> signalled x (lk_bridge l').

Lemma asked_extends l l' r o : extends l l' -> asked_for l r o -> asked_for l' r o.
Proof. intros [H _] (q & Hq & E). exists q. split; [by apply H|done]. Qed.
Lemma ready_extends l l' o : extends l l' -> ready_for l o -> ready_for l' o.
Proof. intros H (r & Ha & Hs). exists r. split; [by apply (asked_extends l)|by apply H]. Qed.
Lemma reason_extends l l' c : extends l l' -> reason_ok l c -> reason_ok l' c.
Proof.
  intros H. unfold reason_ok. destruct (ec_pc c); eauto using asked_extends, ready_extends.
  intros [H1 H2]. split; [by apply (asked_extends l)|by apply H].
Qed.
Lemma calls_extend l l' cs : extends l l' -> Forall (fun c => trace_ok c /\ reason_ok l c) cs ->
  Forall (fun c => trace_ok c /\ reason_ok l' c) cs.
Proof.
  intros H Hcs. apply Forall_forall. intros c Hc. rewrite Forall_forall in Hcs. destruct (Hcs c Hc) as [H1 H2].
  split; [done|by apply (reason_extends l)].
Qed.
Lemma extends_same l l' : lk_asked l' = lk_asked l -> lk_bridge l' = lk_bridge l -> extends l l'.
Proof. intros E1 E2. split; [by rewrite E1|by rewrite E2]. Qed.

Lemma answer_signalled r s : answer_of r s <> 0 -> signalled (r, answer_of r s) s.
Proof.
  unfold answer_of, signalled. induction (signals s) as [|[x v] q IH] using rev_ind; [done|].
  rewrite foldl_app. cbn. rewrite elem_of_app. destruct (Z.eqb_spec x r) as [->|N]; [intros _; right; apply list_elem_of_singleton; done|].
  intros H. left. by apply IH.
Qed.

(** The loop of [VgiEnsure] on the looks of a call. *)
Lemma nth_replicate_app k (q : list Z) j : nth (k + j) (replicate k 0 ++ q) 0 = nth j q 0.
Proof. rewrite app_nth2; rewrite length_replicate; [f_equal; lia|lia]. Qed.
Lemma nth_zeros j k (q : list Z) : (j < k)%nat -> nth j (replicate k 0 ++ q) 0 = 0.
Proof. revert j. induction k as [|k IH]; intros [|j] H; [lia|lia|done|]. cbn. apply IH. lia. Qed.

Lemma nth_replicate_0 k j : nth j (replicate k 0) 0 = 0.
Proof. revert j. induction k as [|k IH]; intros [|j]; [done..|]. cbn. apply IH. Qed.

Lemma first_answer_at looks n : forall i k, (k < n)%nat -> (forall j, (j < k)%nat -> looks (i + j)%nat = 0) -> looks (i + k)%nat <> 0 ->
  first_answer looks i n = Some (i + k)%nat.
Proof.
  induction n as [|n IH]; intros i k Hk Hz Hv; [lia|]. cbn. destruct k as [|k].
  - rewrite Nat.add_0_r in *. by destruct (Z.eqb_spec (looks i) 0).
  - rewrite <- (Nat.add_0_r i), Hz by lia. cbn. rewrite Nat.add_0_r, (IH (S i) k); [f_equal; lia|lia| |].
    + intros j Hj. rewrite <- (Hz (S j)) by lia. f_equal. lia.
    + intros E. apply Hv. rewrite <- E. f_equal. lia.
Qed.

Lemma first_answer_none looks n : forall i, (forall j, looks j = 0) -> first_answer looks i n = None.
Proof. induction n as [|n IH]; intros i H; [done|]. cbn. rewrite H. cbn. by apply IH. Qed.

Lemma ensure_result flag looks : exists e, vgi_wasm_ensure_worker 31 flag has_SharedArrayBuffer looks = Some e /\
  en_result e = if flag =? 1 then 0 else if negb has_SharedArrayBuffer then -1 else
    match first_answer looks 0 30 with Some k => if looks (S k) =? 1 then 0 else -1 | None => -1 end.
Proof.
  unfold vgi_wasm_ensure_worker. destruct (flag =? 1); [by eexists|]. destruct has_SharedArrayBuffer; cbn [negb]; [|by eexists].
  assert (wait_ready 31 looks 0 0 = Some (first_answer looks 0 30)) as -> by (apply (wait_ready_spec looks 30 0 31); lia).
  destruct (first_answer looks 0 30) as [k|]; [|by eexists]. destruct (looks (S k) =? 1); by eexists.
Qed.

Lemma answered_result flag looks k v w : flag <> 1 -> has_SharedArrayBuffer = true -> (k < 30)%nat -> v <> 0 ->
  looks = replicate k 0 ++ [v; w] -> exists e,
  vgi_wasm_ensure_worker 31 flag has_SharedArrayBuffer (fun j => nth j looks 0) = Some e /\ en_result e = if w =? 1 then 0 else -1.
Proof.
  intros Hf Hsab Hk Hv ->. destruct (ensure_result flag (fun j => nth j (replicate k 0 ++ [v; w]) 0)) as (e & He & Hr).
  exists e. split; [done|]. rewrite Hr. destruct (Z.eqb_spec flag 1); [done|]. rewrite Hsab. cbn [negb].
  rewrite (first_answer_at _ 30 0 k Hk).
  - cbn [Nat.add]. replace (S k) with (k + 1)%nat by lia. by rewrite nth_replicate_app.
  - intros j Hj. by apply nth_zeros.
  - pose proof (nth_replicate_app k [v; w] 0) as E. rewrite Nat.add_0_r in E. cbn [Nat.add]. by rewrite E.
Qed.

Lemma call_step_trace c l : trace_ok c -> trace_ok (call_step c l).1.
Proof.
  unfold trace_ok, call_step. destruct (ec_pc c) as [| |r w|r|r|res] eqn:Epc; cbn [fst goes_to sees_flag looks_at ec_pc ec_flag ec_looks].
  - intros El. set (v := flag_of (ec_offset c) l).
    destruct (ensure_result v (fun k => nth k (ec_looks c) 0)) as (e & He & Hr).
    destruct (Z.eqb_spec v 1) as [Ev|Ev]; [by exists e|]. destruct has_SharedArrayBuffer eqn:Hsab; cbn [negb] in *; [done|by exists e].
  - intros (Hf & Hsab & ->). split_and!; [done..|]. exists 0%nat. split_and!; [lia|done..].
  - intros (Hf & Hsab & k & Hk & -> & ->). set (v := answer_of r (lk_bridge l)). destruct (Z.eqb_spec v 0) as [->|Ev].
    + rewrite <- replicate_S_end. destruct (Z.leb_spec 30000 (1000 * Z.of_nat k + 1000)) as [H|H].
      * destruct (ensure_result (ec_flag c) (fun j => nth j (replicate (S k) 0) 0)) as (e & He & Hr). exists e. split; [done|].
        rewrite Hr. destruct (Z.eqb_spec (ec_flag c) 1); [done|]. rewrite Hsab. cbn [negb].
        rewrite first_answer_none; [done|]. intros j. rewrite nth_replicate_0. done.
      * split_and!; [done..|]. exists (S k). split_and!; [lia|done|lia].
    + split_and!; [done..|]. by exists k, v.
  - intros (Hf & Hsab & k & v & Hk & Hv & ->). rewrite <- app_assoc. cbn [app]. set (w := answer_of r (lk_bridge l)).
    destruct (Z.eqb_spec w 1) as [->|Ew]; [split_and!; [done..|]; by exists k, v|].
    destruct (answered_result (ec_flag c) (replicate k 0 ++ [v; w]) k v w) as (e & He & Hr); [done..|].
    exists e. split; [done|]. rewrite Hr. by destruct (Z.eqb_spec w 1).
  - intros (Hf & Hsab & k & v & Hk & Hv & ->).
    destruct (answered_result (ec_flag c) (replicate k 0 ++ [v; 1]) k v 1) as (e & He & Hr); [done..|]. by exists e.
  - by rewrite Epc.
Qed.

(** A step of a call posts at most one request, and sets at most the flag of its region. *)
Lemma call_step_link c l : link_ok l -> trace_ok c -> reason_ok l c ->
  extends l (call_step c l).2 /\ link_ok (call_step c l).2 /\ reason_ok (call_step c l).2 (call_step c l).1 /\
  lk_calls (call_step c l).2 = lk_calls l.
Proof.
  intros Hl Ht Hc. assert (extends l l) as Hrefl by by apply extends_same. pose proof Hl as [H0 H1 H2 H3 H4].
  unfold call_step, reason_ok in Hc |- *. destruct (ec_pc c) as [| |r w|r|r|res] eqn:Epc; cbn [fst snd goes_to sees_flag looks_at ec_pc ec_offset].
  - split_and!; [done| | |done]; [done|]. destruct (Z.eqb_spec (flag_of (ec_offset c) l) 1) as [E|E]; [intros _; by apply H3|].
    by destruct (negb has_SharedArrayBuffer).
  - set (q := {| er_id := lenZ (lk_asked l); er_location := _; er_offset := _; er_buffer := _ |}).
    assert (extends l (post_ensure q l)) as Hx by (split; [intros x Hx; apply elem_of_app; by left|done]).
    split; [done|]. split; [|split; [|done]].
    + split; cbn.
      * set_solver.
      * rewrite fmap_app, H1. unfold lenZ. rewrite length_app. cbn. rewrite Nat2Z.inj_add, seqZ_app by lia. done.
      * destruct H2 as (ids & Hr & Hp). exists ids. split; [done|]. by rewrite !fmap_app, app_assoc, Hp.
      * intros o Ho. apply (ready_extends l); [done|by apply H3].
      * by apply (calls_extend l).
    + exists q. split; [|done]. apply elem_of_app. right. by apply list_elem_of_singleton.
  - split_and!; [done..| |done]. destruct (_ =? 0); [|done]. by destruct (_ <=? _).
  - split_and!; [done..| |done]. destruct (Z.eqb_spec (answer_of r (lk_bridge l)) 1) as [E|E]; [|done].
    split; [done|]. rewrite <- E. apply answer_signalled. by rewrite E.
  - destruct Hc as [Ha Hs]. assert (ready_for l (ec_offset c)) as Hready by by exists r.
    split_and!; [by apply extends_same| |done|done].
    split; cbn; [done..| |done]. intros o. unfold flag_of. cbn.
    destruct (decide (o = ec_offset c)) as [->|N]; [done|]. rewrite lookup_insert_ne by done. apply H3.
  - rewrite Epc. split_and!; done.
Qed.

(** The bridge moved, and no request reached it. *)
Lemma bridge_moved_ok l l' : bridge_step parse_URL page_href page_origin opts max None (lk_bridge l) (lk_bridge l') ->
  lk_ready l' = lk_ready l -> lk_transit l' = lk_transit l -> lk_asked l' = lk_asked l -> lk_calls l' = lk_calls l ->
  link_ok l -> link_ok l'.
Proof.
  intros Hb E1 E2 E3 E4 [H0 H1 H2 H3 H4].
  assert (extends l l') as Hx by (split; [by rewrite E3|]; intros x; by eapply bridge_step_grows).
  split; rewrite ?E2, ?E3, ?E4; [done|done| | |].
  - destruct H2 as (ids & Hr & Hp). exists ids. split; [|done]. rewrite <- (app_nil_r ids). by apply (br_step _ _ _ _ _ _ _ None _ Hr).
  - intros o. unfold flag_of. rewrite E1. intros Ho. apply (ready_extends l); [done|by apply H3].
  - by apply (calls_extend l).
Qed.

Lemma link_step_ok l l' : link_step l l' -> link_ok l -> link_ok l'.
Proof.
  intros Hstep Hl. destruct Hstep as [location o l|i l|before r after s l Ht Hb|w m l|s l Hb].
  - destruct Hl as [H0 H1 H2 H3 H4]. split; cbn; [done..|]. apply Forall_app. split; [done|].
    apply Forall_singleton. done.
  - unfold step_call. destruct (lk_calls l !! i) as [c|] eqn:Hc; [|done].
    destruct (Forall_lookup_1 _ _ _ _ (lo_calls _ Hl) Hc) as [Htr Hre].
    pose proof (call_step_trace c l Htr) as Htr'. destruct (call_step_link c l Hl Htr Hre) as (Hx & [H0 H1 H2 H3 H4] & Hre' & E).
    destruct (call_step c l) as [c' l']. cbn in *. split; cbn; [done..|]. rewrite <- E. by apply Forall_insert.
  - assert (extends l (set_bridge (before ++ after) s l)) as Hx by (split; [done|]; intros x; by eapply bridge_step_grows).
    destruct Hl as [H0 H1 H2 H3 H4]. rewrite Ht in H0. split; cbn; [set_solver|done| | |].
    + destruct H2 as (ids & Hr & Hp). exists (ids ++ [er_id r]). split; [by apply (br_step _ _ _ _ _ _ _ (Some r) _ Hr)|].
      rewrite <- Hp, Ht, !fmap_app. cbn. rewrite <- app_assoc. cbn. by rewrite Permutation_middle.
    + intros o Ho. apply (ready_extends l); [done|by apply H3].
    + by apply (calls_extend l).
  - apply (bridge_moved_ok l); [by constructor|done..].
  - apply (bridge_moved_ok l); [by apply goes_on_step|done..].
Qed.

Lemma link_run_ok l : link_run l -> link_ok l.
Proof.
  induction 1 as [|l l' _ IH Hstep]; [|by apply (link_step_ok l)]. split; [done|done| |done|constructor].
  exists []. split; [constructor|done].
Qed.
End Link.

(** *** Runs to evaluate *)

Inductive LinkEvent :=
| L_enter (location : string) (o : Z)
| L_call (i n : nat)          (** [n] steps of call [i] *)
| L_receive                   (** the oldest message *)
| L_bridge (ev : Event).

Section Drive.
Context (parse_URL : string -> string -> Outcome (string * string)) (page_href page_origin : string)
  (opts : VgiWebWorkerBridgeOptions) (max memory : Z).

Definition ldrive1 (ev : LinkEvent) (l : Link) : Link :=
  match ev with
  | L_enter location o => enter_call location o l
  | L_call i n => Nat.iter n (step_call true memory i) l
  | L_receive =>
      match lk_transit l with
      | r :: q => set_bridge q (drive1 parse_URL page_href page_origin opts max (Ev_ensure r) (lk_bridge l)) l
      | [] => l
      end
  | L_bridge (Ev_ensure _) => l
  | L_bridge (Ev_message w m) => worker_says w m l
  | L_bridge ev => set_bridge (lk_transit l) (drive1 parse_URL page_href page_origin opts max ev (lk_bridge l)) l
  end.
Definition ldrive (evs : list LinkEvent) : Link := foldl (fun l ev => ldrive1 ev l) initial_link evs.

Abbreviation run := (link_run parse_URL page_href page_origin opts max true memory).

Lemma ldrive1_run ev l : run l -> run (ldrive1 ev l).
Proof.
  intros Hl. destruct ev as [location o|i n| |ev]; cbn.
  - apply (lr_step _ _ _ _ _ _ _ l); [done|constructor].
  - induction n as [|n IH]; [done|]. cbn. eapply lr_step; [exact IH|constructor].
  - destruct (lk_transit l) as [|r q] eqn:E; [done|]. eapply lr_step; [exact Hl|]. apply (ls_receive _ _ _ _ _ _ _ [] r q); [done|constructor].
  - assert (forall s, bridge_goes_on parse_URL page_href page_origin opts max (lk_bridge l) s -> run (set_bridge (lk_transit l) s l)) as H.
    { intros s Hs. eapply lr_step; [exact Hl|by constructor]. }
    destruct ev as [r|fetch w b|w m|load k|k]; [done| |eapply lr_step; [exact Hl|constructor]|apply H; constructor..]. cbn.
    destruct (decide _) as [[H1 H2]|N]; [apply H; by constructor|]. by destruct l.
Qed.

Lemma ldrive_run evs : run (ldrive evs).
Proof.
  unfold ldrive. induction evs as [|ev evs IH] using rev_ind; [constructor|]. rewrite foldl_app. by apply ldrive1_run.
Qed.
End Drive.

(** ** The promises *)

Lemma link_served parse_URL page_href page_origin opts max sab memory l x u :
  total_resolvers opts -> link_run parse_URL page_href page_origin opts max sab memory l ->
  (forall q, q ∈ lk_asked l -> er_id q = x -> wants parse_URL page_href page_origin opts u q) -> served x u (lk_bridge l).
Proof.
  intros Ht Hr. induction Hr as [|l l' Hr IH Hstep]; [intros _; apply initial_served|]. intros Hq.
  pose proof (link_run_ok _ _ _ _ _ _ _ _ Hr) as [H0 _ (ids & Hb & _) _ _].
  destruct (run_accounted parse_URL page_href page_origin opts max Ht ids _ Hb) as [Hok _].
  destruct Hstep as [location o l|i l|before r after s l Et Hs|w m l|s l Hs]; cbn in Hq |- *.
  - by apply IH.
  - unfold step_call in *. destruct (lk_calls l !! i) as [c|]; [|by apply IH]. unfold call_step in *.
    destruct (ec_pc c); cbn in Hq |- *; apply IH; try exact Hq. intros q Hin. apply Hq. apply elem_of_app. by left.
  - apply (step_served parse_URL page_href page_origin opts max x u _ _ _ Hs Hok); [|by apply IH].
    intros q [= <-]. apply Hq, H0. rewrite Et. apply elem_of_app. right. by left.
  - apply (step_served parse_URL page_href page_origin opts max x u None (lk_bridge l)); [constructor|done|done|by apply IH].
  - apply (step_served parse_URL page_href page_origin opts max x u None (lk_bridge l)); [by apply goes_on_step|done|done|by apply IH].
Qed.

(** A worker that is known has said that it is ready. *)
Lemma known_workers_said parse_URL page_href page_origin opts max sab memory l u w :
  link_run parse_URL page_href page_origin opts max sab memory l -> workers (lk_bridge l) !! u = Some w ->
  exists m, (w, m) ∈ lk_said l /\ wm_type m = "vgi-ready"%string.
Proof.
  intros Hr. revert u w. enough (workers_run (lk_bridge l) /\ forall u w, workers (lk_bridge l) !! u = Some w ->
    exists m, (w, m) ∈ lk_said l /\ wm_type m = "vgi-ready"%string) as H by apply H.
  induction Hr as [|l l' _ [Hw IH] Hstep]; [split; [apply initial_run|intros u w; cbn; by rewrite lookup_empty]|].
  destruct Hstep as [location o l|i l|before r after s l _ Hs|w m l|s l Hs]; cbn.
  - done.
  - unfold step_call, call_step. destruct (lk_calls l !! i) as [c|]; [|done]. by destruct (ec_pc c).
  - split; [by apply (step_run parse_URL page_href page_origin opts max _ _ _ Hs)|]. inversion Hs as [r' s0 E| | | |]; subst.
    rewrite quiet_workers; [done|apply quiet_ensure|apply Hw].
  - split; [apply (step_run parse_URL page_href page_origin opts max None (lk_bridge l)); [constructor|done]|].
    intros u w' H. apply message_workers in H as [H|[-> H]]; [|by exists m; split; [apply elem_of_app; right; left|]|done].
    destruct (IH u w' H) as (m' & Hm & E). exists m'. split; [apply elem_of_app; by left|done].
  - split; [by apply (step_run parse_URL page_href page_origin opts max None (lk_bridge l)); [apply goes_on_step|]|].
    destruct Hs as [fetch w b s _ _|load1 load2 k s|k s].
    + by rewrite spawn_workers.
    + rewrite quiet_workers; [done|apply quiet_queue_step|apply Hw].
    + rewrite quiet_workers; [done|apply quiet_timeout|apply Hw].
Qed.

(** The reason of a success: a request for the region that the bridge answered with success. *)
Lemma ready_calls_were_answered parse_URL page_href page_origin opts max sab memory l i c :
  link_run parse_URL page_href page_origin opts max sab memory l -> lk_calls l !! i = Some c -> ec_pc c = E_done 0 ->
  exists q, q ∈ lk_asked l /\ er_offset q = Some (ec_offset c) /\ (er_id q, 1) ∈ signals (lk_bridge l).
Proof.
  intros Hr Hi Hc. destruct (Forall_lookup_1 _ _ _ _ (lo_calls _ _ _ _ _ _ _ (link_run_ok _ _ _ _ _ _ _ _ Hr)) Hi) as [_ H].
  unfold reason_ok in H. rewrite Hc in H. destruct (H eq_refl) as (r & (q & Hq & <- & Ho) & Hs). by exists q.
Qed.

(** C6: A call that returns success has a worker: if the requests for its region are for
    script [u], the bridge knows a worker for it, which it spawned with that script and
    which has posted [vgi-ready] to it.  This holds too for the calls that find the ready flag and ask nothing,
    whatever calls, workers and the page do in between. *)
Theorem successful_calls_have_a_worker parse_URL page_href page_origin opts max sab memory l i c u :
  total_resolvers opts -> link_run parse_URL page_href page_origin opts max sab memory l ->
  lk_calls l !! i = Some c -> ec_pc c = E_done 0 ->
  (forall q, q ∈ lk_asked l -> er_offset q = Some (ec_offset c) -> wants parse_URL page_href page_origin opts u q) ->
  exists w sc m, workers (lk_bridge l) !! u = Some w /\ (w, sc) ∈ spawned (lk_bridge l) /\ script_url sc = u /\
    (w, m) ∈ lk_said l /\ wm_type m = "vgi-ready"%string.
Proof.
  intros Ht Hr Hi Hc Hu. destruct (ready_calls_were_answered _ _ _ _ _ _ _ l i c Hr Hi Hc) as (q & Hq & Ho & Hs).
  pose proof (link_run_ok _ _ _ _ _ _ _ _ Hr) as [_ Hids (ids & Hb & _) _ _].
  assert (served (er_id q) u (lk_bridge l)) as Hserved.
  { apply (link_served parse_URL page_href page_origin opts max sab memory); [done..|]. intros q' Hq' E.
    assert (q' = q) as ->; [|by apply Hu]. apply (NoDup_map_inj er_id (lk_asked l)); [|done..]. change (NoDup (er_id <$> lk_asked l)). rewrite Hids. apply NoDup_seqZ. }
  destruct (sv_signal _ _ _ Hserved Hs) as [w Hw]. destruct (known_workers_run parse_URL page_href page_origin opts max ids _ w u Hb Hw) as (sc & Hsc & E).
  destruct (known_workers_said parse_URL page_href page_origin opts max sab memory l u w Hr Hw) as (m & Hm & Em).
  by exists w, sc, m.
Qed.

Lemma occurrences_nodup x l : NoDup l -> occurrences x l = if bool_decide (x ∈ l) then 1%nat else 0%nat.
Proof.
  induction 1 as [|y l Hy Hl IH]; [done|]. rewrite occurrences_cons, IH. unfold occurrences. rewrite filter_cons.
  destruct (decide (y = x)) as [->|N].
  - by rewrite (bool_decide_eq_true_2 (x ∈ x :: l)), bool_decide_eq_false_2 by (done || by left).
  - cbn. rewrite (bool_decide_ext (x ∈ l) (x ∈ y :: l)); [done|]. rewrite elem_of_cons. naive_solver.
Qed.

(** C5: Requests of calls are delivered once: each that was posted is under way to the
    page, was signalled, or waits at the bridge, and only one of these, once; nothing
    is signalled that was not posted. *)
Theorem requests_are_delivered_once parse_URL page_href page_origin opts max sab memory l x :
  total_resolvers opts -> link_run parse_URL page_href page_origin opts max sab memory l ->
  (occurrences x (er_id <$> lk_transit l) + occurrences x (signals (lk_bridge l)).*1 + waiting x (lk_bridge l))%nat =
  if bool_decide (0 <= x < lenZ (lk_asked l)) then 1%nat else 0%nat.
Proof.
  intros Ht Hr. destruct (link_run_ok _ _ _ _ _ _ _ _ Hr) as [_ H1 (ids & Hb & Hp) _ _].
  destruct (run_accounted parse_URL page_href page_origin opts max Ht ids _ Hb) as [_ Ha].
  assert (occurrences x (ids ++ (er_id <$> lk_transit l)) = occurrences x (seqZ 0 (lenZ (lk_asked l)))) as E.
  { rewrite <- H1. unfold occurrences. by rewrite Hp. }
  rewrite occurrences_app, <- Ha, (occurrences_nodup x (seqZ _ _)) in E by apply NoDup_seqZ. unfold accounted in E.
  destruct (bool_decide_reflect (x ∈ seqZ 0 (lenZ (lk_asked l)))) as [Hx|Hx]; rewrite elem_of_seqZ in Hx.
  - rewrite bool_decide_eq_true_2 by lia. lia.
  - rewrite bool_decide_eq_false_2 by lia. lia.
Qed.

(** A call among others and next to the bridge does what [vgi_wasm_ensure_worker] does
    alone, given what it found at its looks: it returns that result, so it
    fails when no look of thirty finds an answer. *)
Theorem calls_agree_with_the_loop parse_URL page_href page_origin opts max sab memory l i c result :
  link_run parse_URL page_href page_origin opts max sab memory l -> lk_calls l !! i = Some c -> ec_pc c = E_done result ->
  exists e, vgi_wasm_ensure_worker 31 (ec_flag c) sab (fun k => nth k (ec_looks c) 0) = Some e /\ en_result e = result.
Proof.
  intros Hr Hi Hc. destruct (Forall_lookup_1 _ _ _ _ (lo_calls _ _ _ _ _ _ _ (link_run_ok _ _ _ _ _ _ _ _ Hr)) Hi) as [H _].
  unfold trace_ok in H. by rewrite Hc in H.
Qed.

(** Three targets share an adapter that has room for two: the first one's region goes,
    and then the first one is asked for again. *)
Definition three_targets : list LinkEvent :=
  [L_enter "t1" 1024; L_call 0 3; L_receive; L_bridge (Ev_spawn no_fetch 5 0); L_bridge (Ev_message 5 (message "vgi-ready")); L_call 0 3;
   L_enter "t2" 2048; L_call 1 2; L_receive; L_bridge (Ev_queue (one_slot 0) "k");
   L_bridge (Ev_message 5 (target_answer "vgi-target-ready" "vgi-target-1")); L_call 1 3;
   L_enter "t3" 3072; L_call 2 2; L_receive; L_bridge (Ev_queue (one_slot 528) "k");
   L_bridge (Ev_message 5 (target_answer "vgi-target-ready" "vgi-target-2")); L_call 2 3].
Definition three_targets_link (more : list LinkEvent) : Link :=
  ldrive two_hosts "/" "/" adapter_options 2 7 (three_targets ++ more).

Lemma three_targets_run more : link_run two_hosts "/" "/" adapter_options 2 true 7 (three_targets_link more).
Proof. apply ldrive_run. Qed.

(** The region is registered no more and no message is under way, but its ready flag stands:
    the call returns success without asking. *)
Lemma regions_given_up_stay_ready :
  let l := three_targets_link [L_enter "t1" 1024; L_call 3 1] in
  (ec_pc <$> lk_calls l) = replicate 4 (E_done 0) /\ length (lk_asked l) = 3%nat /\ lk_transit l = [] /\
  (JsMap.keys ∘ regions <$> adapters (lk_bridge l) !! "k"%string) = Some ["t2"%string; "t3"%string].
Proof. vm_compute. repeat split; reflexivity. Qed.

(** A call that asks, and one of another thread that finds the flag. *)
Definition two_calls : list LinkEvent :=
  [L_enter "/w.js" 1024; L_call 0 3; L_receive; L_bridge (Ev_spawn no_fetch 5 0); L_bridge (Ev_message 5 (message "vgi-ready"));
   L_call 0 3; L_enter "/w.js" 1024; L_call 1 1].

Lemma successful_calls_have_a_worker_witness :
  let l := ldrive two_hosts "/" "/" plain_options 32 7 two_calls in
  (ec_pc <$> lk_calls l) = [E_done 0; E_done 0] /\ length (lk_asked l) = 1%nat /\
  exists w sc m, workers (lk_bridge l) !! "/w.js"%string = Some w /\ (w, sc) ∈ spawned (lk_bridge l) /\ script_url sc = "/w.js"%string /\
    (w, m) ∈ lk_said l /\ wm_type m = "vgi-ready"%string.
Proof.
  intros l. split; [vm_compute; reflexivity|]. split; [vm_compute; reflexivity|].
  destruct (lk_calls l !! 1%nat) as [c|] eqn:Hc; [|exfalso; vm_compute in Hc; discriminate].
  apply (successful_calls_have_a_worker two_hosts "/" "/" plain_options 32 true 7 l 1%nat c "/w.js" plain_options_total (ldrive_run _ _ _ _ _ _ _) Hc).
  - vm_compute in Hc. injection Hc as <-. reflexivity.
  - assert (lk_asked l = [{| er_id := 0; er_location := "/w.js"; er_offset := Some 1024; er_buffer := Some 7 |}]) as -> by (vm_compute; reflexivity).
    intros q Hq _. apply list_elem_of_singleton in Hq as ->. split; [vm_compute; reflexivity|].
    exists (Some "/w.js"%string). split; vm_compute; reflexivity.
Defined.

(** One request is answered, one waits for its registration, and one is under way. *)
Definition requests_on_their_way : list LinkEvent :=
  take 9 three_targets ++ [L_enter "t3" 3072; L_call 2 2].

Lemma adapter_options_total : total_resolvers adapter_options.
Proof. split; intros f loc Hf; [done|]. cbn in Hf. by injection Hf as <-. Defined.

Lemma requests_are_delivered_once_witness :
  let l := ldrive two_hosts "/" "/" adapter_options 2 7 requests_on_their_way in
  (er_id <$> lk_transit l) = [2] /\ (signals (lk_bridge l)).*1 = [0] /\ waiting 1 (lk_bridge l) = 1%nat /\
  (occurrences 1 (er_id <$> lk_transit l) + occurrences 1 (signals (lk_bridge l)).*1 + waiting 1 (lk_bridge l))%nat = 1%nat.
Proof.
  intros l. split; [vm_compute; reflexivity|]. split; [vm_compute; reflexivity|]. split; [vm_compute; reflexivity|].
  rewrite (requests_are_delivered_once two_hosts "/" "/" adapter_options 2 true 7 l 1);
    [vm_compute; reflexivity|apply adapter_options_total|apply ldrive_run].
Defined.

(** A call that polls before the page has answered, and gives up in the end. *)
Lemma calls_agree_with_the_loop_witness :
  let l := ldrive two_hosts "/" "/" adapter_options 2 7 [L_enter "t1" 1024; L_call 0 32; L_receive] in
  (ec_pc <$> lk_calls l) = [E_done (-1)] /\
  forall c, lk_calls l !! 0%nat = Some c -> exists e,
    vgi_wasm_ensure_worker 31 (ec_flag c) true (fun k => nth k (ec_looks c) 0) = Some e /\ en_result e = -1.
Proof.
  intros l. split; [vm_compute; reflexivity|]. intros c Hc.
  apply (calls_agree_with_the_loop two_hosts "/" "/" adapter_options 2 true 7 l 0%nat c (-1) (ldrive_run _ _ _ _ _ _ _) Hc).
  vm_compute in Hc. injection Hc as <-. reflexivity.
Defined.
