(* ===== verification/SabRing.v ===== *)
(** * SabRing: the shared memory transport of the VGI worker
    ([lib/vgi-sab-ring.js], the slot functions of [lib/js-stubs.js])

    A channel is a header and a number of slots in shared memory.  A slot has a
    block of control lanes and two byte rings, one from the client (the engine) to
    the worker and one back.  A client opens a slot under a fresh claim, and worker
    threads serve claims; a worker whose claim is over may still be running.

    Every access to the shared memory is a step of its own ([exec]), and the steps
    of any number of client and worker threads interleave ([channel_step]).  An
    [Atomics.wait] is bounded by a timeout, so a wait is a step that may always be
    taken; a notification only makes it shorter.  [sent], [received] and [epoch] are
    history: what was published and consumed since the slot was last opened, and
    under which claim.

    A client thread is one use of a slot at a time.  [stubTerminalError], which only
    loads, is a function of a slot here; [SabErrors] has its loads as steps. *)
From S2P Require Import Prelude WasmModule.
From stdpp Require Import base tactics list functions.
From Stdlib Require Import ZArith Lia.
Open Scope Z_scope.

(** ** The layout of a channel *)

Definition HEADER_BYTES : Z := 64.
Definition SLOT_CONTROL_BYTES : Z := 64.

(** [(n + (a - 1)) & ~(a - 1)], on 32-bit operands *)
Definition alignUp (n a : Z) : Z := int32 (Z.land (int32 (n + (a - 1))) (Z.lnot (int32 (a - 1)))).
Definition slotStride (ringCap : Z) : Z := alignUp (SLOT_CONTROL_BYTES + 2 * ringCap) 64.
Definition channelBytes (nSlots ringCap : Z) : Z := HEADER_BYTES + nSlots * slotStride ringCap.

Record Header := { nSlots : Z; ringCap : Z; slot_stride : Z; slotsOff : Z }.
(** The header [initChannel] writes. *)
Definition initial_header (n cap : Z) : Header :=
  {| nSlots := n; ringCap := cap; slot_stride := slotStride cap; slotsOff := HEADER_BYTES |}.
Definition slotBase (base : Z) (hdr : Header) (slot : Z) : Z := base + slotsOff hdr + slot * slot_stride hdr.

Inductive Lane :=
| SLOT_STATE | C2W_WRITE | C2W_READ | C2W_CLOSED | W2C_WRITE | W2C_READ | W2C_CLOSED
| TERMINAL_CLAIM | TERMINAL_CODE | TERMINAL_DETAIL | SLOT_RESERVATION.
#[export] Instance Lane_eq_dec : EqDecision Lane.
Proof. solve_decision. Defined.

Definition lane_index (l : Lane) : Z :=
  match l with
  | SLOT_STATE => 0 | C2W_WRITE => 1 | C2W_READ => 2 | C2W_CLOSED => 3
  | W2C_WRITE => 4 | W2C_READ => 5 | W2C_CLOSED => 6
  | TERMINAL_CLAIM => 7 | TERMINAL_CODE => 8 | TERMINAL_DETAIL => 9 | SLOT_RESERVATION => 10
  end.

Inductive Side := C2W | W2C.
#[export] Instance Side_eq_dec : EqDecision Side.
Proof. solve_decision. Defined.

Definition write_lane (d : Side) : Lane := match d with C2W => C2W_WRITE | W2C => W2C_WRITE end.
Definition read_lane (d : Side) : Lane := match d with C2W => C2W_READ | W2C => W2C_READ end.
Definition closed_lane (d : Side) : Lane := match d with C2W => C2W_CLOSED | W2C => W2C_CLOSED end.

(** The first byte of a ring of a slot. *)
Definition data_offset (base : Z) (hdr : Header) (slot : Z) (d : Side) : Z :=
  slotBase base hdr slot + SLOT_CONTROL_BYTES + match d with C2W => 0 | W2C => ringCap hdr end.
Definition lane_offset (base : Z) (hdr : Header) (slot : Z) (l : Lane) : Z :=
  slotBase base hdr slot + 4 * lane_index l.

(** The index of the control block in the [Int32Array]: [slotBase(base, hdr, slot) >> 2]. *)
Definition ctl_index (base : Z) (hdr : Header) (slot : Z) : Z := Z.shiftr (int32 (slotBase base hdr slot)) 2.

Definition WAIT_TIMEOUT_MS : Z := 250.

(** ** Threads *)

Abbreviation bytes := (list Z).

Record Slot := {
  ctl : Lane -> Z;
  data : Side -> Z -> Z;        (** by offset in the ring; other offsets are the memory around it *)
  sent : Side -> bytes;
  received : Side -> bytes;
  epoch : Z
}.

(** A call: [ringWrite] with how far it got, [ringRead] of at most [n] bytes, with
    the one bounded wait of [js-stubs.js] or looping, and [workerCloseW2c]. *)
Inductive Job :=
| J_write (src : bytes) (off : Z)
| J_read (n : Z) (bounded : bool)
| J_close.

(** What follows the [finally] block. *)
Inductive Next :=
| N_head (j : Job)
| N_wait (j : Job) (l : Lane) (pos : Z)
| N_done (result : Z) (got : bytes).

(** Where a thread is; [got] are the bytes copied so far. *)
Inductive Pc :=
| Open_seq
| Open_cas (id : Z)
| Open_check (id : Z)
| Open_undo (id : Z)
| Open_reset (id : Z) (todo : list Lane)
| Open_publish (id : Z)
| Open_unlock (id : Z)
| Head (j : Job)
| Acq_cas (j : Job)
| Acq_wait (j : Job) (owner : Z)
| Acq_recheck (j : Job)
| Acq_undo (j : Job)
| Load_w (j : Job)
| Load_r (j : Job) (w : Z)
| Check_closed (j : Job) (w r : Z) (again : bool)
| Check_claim (j : Job) (w r closed : Z) (again : bool)
| Reload_w (j : Job) (r : Z)
| Copy (j : Job) (w r k : Z) (got : bytes)
| Publish (j : Job) (w r k : Z) (got : bytes)
| Store_closed
| Unlock (next : Next)
| Wait (j : Job) (l : Lane) (pos : Z)
| Eos_store
| Release_store
| Error_stores (todo : list (Lane * Z))
| Done (result : Z) (got : bytes).

Inductive Kind := Client (owner : bool) | Worker (servedClaim : Z).

Record Thread := { kind : Kind; at_slot : nat; pc : Pc }.

Record Channel := { claim_seq : Z; slots : nat -> Slot; threads : nat -> Thread }.

(** The ring a thread works on: the client writes c2w and reads w2c. *)
Definition side_of (k : Kind) (j : Job) : Side :=
  match k, j with
  | Client _, J_write _ _ | Worker _, J_read _ _ => C2W
  | _, _ => W2C
  end.

Definition is_worker (k : Kind) : bool := match k with Worker _ => true | Client _ => false end.

(** [Atomics.store] *)
Definition store (l : Lane) (v : Z) (s : Slot) : Slot :=
  {| ctl := <[l := int32 v]> (ctl s); data := data s; sent := sent s; received := received s; epoch := epoch s |}.
Definition set_data (d : Side) (a b : Z) (s : Slot) : Slot :=
  {| ctl := ctl s; data := <[d := <[a := b]> (data s d)]> (data s); sent := sent s; received := received s;
     epoch := epoch s |}.
Definition add_sent (d : Side) (bs : bytes) (s : Slot) : Slot :=
  {| ctl := ctl s; data := data s; sent := <[d := sent s d ++ bs]> (sent s); received := received s; epoch := epoch s |}.
Definition add_received (d : Side) (bs : bytes) (s : Slot) : Slot :=
  {| ctl := ctl s; data := data s; sent := sent s; received := <[d := received s d ++ bs]> (received s);
     epoch := epoch s |}.
(** A new claim starts: the history of the slot starts afresh. *)
Definition new_epoch (id : Z) (s : Slot) : Slot :=
  {| ctl := ctl s; data := data s; sent := fun _ => []; received := fun _ => []; epoch := id |}.

Definition goto (p : Pc) (t : Thread) : Thread := {| kind := kind t; at_slot := at_slot t; pc := p |}.
Definition become (k : Kind) (t : Thread) : Thread := {| kind := k; at_slot := at_slot t; pc := pc t |}.

Definition reset_lanes : list Lane :=
  [C2W_WRITE; C2W_READ; C2W_CLOSED; W2C_WRITE; W2C_READ; W2C_CLOSED;
   TERMINAL_CLAIM; TERMINAL_CODE; TERMINAL_DETAIL].

Section Machine.
Context (n_slots : nat) (cap : Z).

(** *** One access *)

Definition continue (next : Next) : Pc :=
  match next with N_head j => Head j | N_wait j l p => Wait j l p | N_done r g => Done r g end.
(** The [finally] block releases the reservation a worker holds. *)
Definition leave (k : Kind) (next : Next) : Pc := if is_worker k then Unlock next else continue next.

(** The first access of the [try] block. *)
Definition body (j : Job) : Pc := match j with J_close => Store_closed | _ => Load_w j end.

(** What a call returns when the claim it serves is over. *)
Definition lost_claim (j : Job) : Pc :=
  match j with J_write _ off => Done off [] | _ => Done 0 [] end.

(** [slotOpen] moves on to the next slot. *)
Definition next_slot (id : Z) (t : Thread) : Thread :=
  if (S (at_slot t) <? n_slots)%nat
  then {| kind := kind t; at_slot := S (at_slot t); pc := Open_cas id |}
  else goto (Done (-1) []) t.

(** The claim id after counter value [q]. *)
Definition claim_id (q : Z) : Z := let id := int32 (q + 1) in if id =? 0 then 1 else id.

(** The ring offset of the [i]th byte of a copy of [k] bytes at position [p]. *)
Definition copy_offset (p k i : Z) : Z :=
  let pos := Z.rem p cap in
  let first := Z.min k (cap - pos) in
  if i <? first then pos + i else i - first.

Definition exec_open (q : Z) (s : Slot) (t : Thread) : Slot * Thread :=
  match pc t with
  | Open_seq => (s, goto (if (0 <? n_slots)%nat then Open_cas (claim_id q) else Done (-1) []) t)
  | Open_cas id =>
      if ctl s SLOT_RESERVATION =? 0 then (store SLOT_RESERVATION id s, goto (Open_check id) t)
      else (s, next_slot id t)
  | Open_check id =>
      if ctl s SLOT_STATE =? 0 then (s, goto (Open_reset id reset_lanes) t) else (s, goto (Open_undo id) t)
  | Open_undo id => (store SLOT_RESERVATION 0 s, next_slot id t)
  | Open_reset id (l :: todo) => (store l 0 s, goto (Open_reset id todo) t)
  | Open_reset id [] => (s, goto (Open_publish id) t)
  | Open_publish id => (new_epoch id (store SLOT_STATE id s), goto (Open_unlock id) t)
  | Open_unlock id =>
      (store SLOT_RESERVATION 0 s, become (Client true) (goto (Done (Z.of_nat (at_slot t)) []) t))
  | _ => (s, t)
  end.

(** [acquireWorkerOperation] with claim [c]. *)
Definition exec_acquire (c : Z) (s : Slot) (t : Thread) : Slot * Thread :=
  match pc t with
  | Acq_cas j =>
      if ctl s SLOT_RESERVATION =? 0 then (store SLOT_RESERVATION c s, goto (Acq_recheck j) t)
      else (s, goto (Acq_wait j (ctl s SLOT_RESERVATION)) t)
  | Acq_wait j _ => (s, goto (Head j) t)
  | Acq_recheck j => (s, goto (if ctl s SLOT_STATE =? c then body j else Acq_undo j) t)
  | Acq_undo j =>
      ((if ctl s SLOT_RESERVATION =? c then store SLOT_RESERVATION 0 s else s), goto (lost_claim j) t)
  | Unlock next =>
      ((if ctl s SLOT_RESERVATION =? c then store SLOT_RESERVATION 0 s else s), goto (continue next) t)
  | _ => (s, t)
  end.

(** The loop condition of a write; then a worker checks its claim. *)
Definition exec_head (s : Slot) (t : Thread) (j : Job) : Thread :=
  match j with
  | J_write src off => if lenZ src <=? off then goto (Done (lenZ src) []) t
                       else match kind t with
                            | Client _ => goto (Load_w j) t
                            | Worker c => goto (if (c =? 0) || negb (ctl s SLOT_STATE =? c)
                                                then lost_claim j else Acq_cas j) t
                            end
  | _ => match kind t with
         | Client _ => goto (Load_w j) t
         | Worker c => goto (if (c =? 0) || negb (ctl s SLOT_STATE =? c) then lost_claim j else Acq_cas j) t
         end
  end.

(** An empty ring that is not at its end: [ringRead] waits and starts over, the
    engine's version looks at the write position once more and then gives up. *)
Definition not_eos (t : Thread) (j : Job) (w r : Z) (again : bool) : Pc :=
  match j with
  | J_read _ true => if again then Done (-2) [] else Reload_w j r
  | _ => leave (kind t) (N_wait j (write_lane (side_of (kind t) j)) w)
  end.

(** The positions are known: how much can be copied. *)
Definition loaded (t : Thread) (j : Job) (w r : Z) (again : bool) : Pc :=
  match j with
  | J_write src off =>
      let free := cap - (w - r) in
      if free =? 0 then leave (kind t) (N_wait j (read_lane (side_of (kind t) j)) r)
      else Copy j w r (Z.min free (lenZ src - off)) []
  | J_read n _ =>
      let avail := w - r in
      if avail =? 0 then Check_closed j w r again else Copy j w r (Z.min avail n) []
  | J_close => Store_closed
  end.

Definition exec_ring (s : Slot) (t : Thread) : Slot * Thread :=
  match pc t with
  | Head j => (s, exec_head s t j)
  | Store_closed =>
      (store W2C_CLOSED (match kind t with Worker c => c | Client _ => 1 end) s,
       goto (leave (kind t) (N_done 1 [])) t)
  | Load_w j => (s, goto (Load_r j (ctl s (write_lane (side_of (kind t) j)))) t)
  | Load_r j w => (s, goto (loaded t j w (ctl s (read_lane (side_of (kind t) j))) false) t)
  | Reload_w j r => (s, goto (loaded t j (ctl s (write_lane (side_of (kind t) j))) r true) t)
  | Check_closed j w r again =>
      let closed := ctl s (closed_lane (side_of (kind t) j)) in
      (s, goto (if closed =? 0 then not_eos t j w r again
                else if is_worker (kind t) then leave (kind t) (N_done 0 [])
                else Check_claim j w r closed again) t)
  | Check_claim j w r closed again =>
      (s, goto (if closed =? ctl s SLOT_STATE then leave (kind t) (N_done 0 []) else not_eos t j w r again) t)
  | Copy j w r k got =>
      let d := side_of (kind t) j in
      if k <=? lenZ got then (s, goto (Publish j w r k got) t)
      else match j with
           | J_write src off =>
               let b := nth (Z.to_nat (off + lenZ got)) src 0 in
               (set_data d (copy_offset w k (lenZ got)) b s, goto (Copy j w r k (got ++ [b])) t)
           | _ => (s, goto (Copy j w r k (got ++ [data s d (copy_offset r k (lenZ got))])) t)
           end
  | Publish j w r k got =>
      let d := side_of (kind t) j in
      match j with
      | J_write src off =>
          (add_sent d got (store (write_lane d) (w + k) s), goto (leave (kind t) (N_head (J_write src (off + k)))) t)
      | _ => (add_received d got (store (read_lane d) (r + k) s), goto (leave (kind t) (N_done k got)) t)
      end
  | Wait j _ _ => (s, goto (Head j) t)
  | _ => (s, t)
  end.

(** [stubWriteEos], [slotRelease] and [workerCloseError], which take no reservation. *)
Definition stubWriteEos (s : Slot) : Slot := store C2W_CLOSED 1 s.
Definition slotRelease (s : Slot) : Slot := store SLOT_STATE 0 s.
Definition workerCloseError (claim code detail : Z) : list (Lane * Z) :=
  [(TERMINAL_CODE, code); (TERMINAL_DETAIL, detail); (TERMINAL_CLAIM, claim); (W2C_CLOSED, claim)].

Definition exec_plain (s : Slot) (t : Thread) : Slot * Thread :=
  match pc t with
  | Eos_store => (stubWriteEos s, goto (Done 0 []) t)
  | Release_store => (slotRelease s, become (Client false) (goto (Done 0 []) t))
  | Error_stores ((l, v) :: todo) => (store l v s, goto (Error_stores todo) t)
  | Error_stores [] => (s, goto (Done 0 []) t)
  | _ => (s, t)
  end.

Definition exec (q : Z) (s : Slot) (t : Thread) : Slot * Thread :=
  match pc t with
  | Open_seq | Open_cas _ | Open_check _ | Open_undo _ | Open_reset _ _ | Open_publish _ | Open_unlock _ =>
      exec_open q s t
  | Acq_cas _ | Acq_wait _ _ | Acq_recheck _ | Acq_undo _ | Unlock _ =>
      match kind t with Worker c => exec_acquire c s t | Client _ => (s, t) end
  | Eos_store | Release_store | Error_stores _ => exec_plain s t
  | Done _ _ => (s, t)
  | _ => exec_ring s t
  end.

(** *** Calls *)

Inductive Call :=
| C_open
| C_job (j : Job)                                     (** by the owner of a slot *)
| C_eos
| C_release
| C_serve (slot : nat) (servedClaim : Z) (j : Job)    (** by a worker thread, for any claim *)
| C_error (slot : nat) (claim code detail : Z).

Definition is_int32 (c : Z) : bool := int32 c =? c.
Definition valid_job (k : Kind) (j : Job) : bool :=
  match j with
  | J_write _ off => off =? 0
  | J_read n bounded => (0 <=? n) && negb (bounded && is_worker k)
  | J_close => is_worker k
  end.

(** A thread that has nothing to do calls a function. *)
Definition start (t : Thread) (call : Call) : option Thread :=
  match pc t with
  | Done _ _ =>
      match kind t, call with
      | Client true, C_job j => if valid_job (kind t) j then Some (goto (Head j) t) else None
      | Client true, C_eos => Some (goto Eos_store t)
      | Client true, C_release => Some (goto Release_store t)
      | Client true, _ => None
      | _, C_open => Some {| kind := Client false; at_slot := 0; pc := Open_seq |}
      | _, C_serve s c j =>
          if is_int32 c && valid_job (Worker c) j && (s <? n_slots)%nat
          then Some {| kind := Worker c; at_slot := s; pc := Head j |} else None
      | _, C_error s c code detail =>
          if is_int32 c then
            Some {| kind := Worker c; at_slot := s; pc := Error_stores (workerCloseError c code detail) |}
          else None
      | _, _ => None
      end
  | _ => None
  end.

Definition set_thread (i : nat) (t : Thread) (c : Channel) : Channel :=
  {| claim_seq := claim_seq c; slots := slots c; threads := <[i := t]> (threads c) |}.

Definition run_thread (i : nat) (c : Channel) : Channel :=
  let t := threads c i in
  let r := exec (claim_seq c) (slots c (at_slot t)) t in
  {| claim_seq := match pc t with Open_seq => int32 (claim_seq c + 1) | _ => claim_seq c end;
     slots := <[at_slot t := r.1]> (slots c); threads := <[i := r.2]> (threads c) |}.

Inductive channel_step : Channel -> Channel -> Prop :=
| cs_run i c : channel_step c (run_thread i c)
| cs_call i call t c : start (threads c i) call = Some t -> channel_step c (set_thread i t c).

(** A schedule: calls, and numbers of accesses, of threads. *)
Inductive Action := A_call (i : nat) (call : Call) | A_run (i n : nat).
Definition act (a : Action) (c : Channel) : option Channel :=
  match a with
  | A_call i call => (fun t => set_thread i t c) <$> start (threads c i) call
  | A_run i n => Some (Nat.iter n (run_thread i) c)
  end.
Fixpoint play (l : list Action) (c : Channel) : option Channel :=
  match l with [] => Some c | a :: l' => act a c ≫= play l' end.

(** *** Terminal errors *)

Definition SAB_TERMINAL_ERROR : Z := -3.

(** [stubTerminalError], when nothing comes between its loads; [features] is the
    channel's [FEATURE_TERMINAL_ERROR]. *)
Definition stubTerminalError (features : bool) (s : Slot) : option (Z * Z) :=
  let claim := ctl s SLOT_STATE in
  if negb features then None
  else if (claim =? 0) || negb (ctl s TERMINAL_CLAIM =? claim) then None
  else Some (ctl s TERMINAL_CODE, ctl s TERMINAL_DETAIL).

(** [stubReadWithTerminal]: the result of a read that returned [result]. *)
Definition stubReadWithTerminal (features : bool) (s : Slot) (result : Z) : Z :=
  if (result =? 0) && bool_decide (is_Some (stubTerminalError features s)) then SAB_TERMINAL_ERROR else result.

(** A channel in fresh memory, after [initChannel]. *)
Definition initial_slot : Slot :=
  {| ctl := fun _ => 0; data := fun _ _ => 0; sent := fun _ => []; received := fun _ => []; epoch := 0 |}.
Definition initial_channel : Channel :=
  {| claim_seq := 0; slots := fun _ => initial_slot;
     threads := fun _ => {| kind := Client false; at_slot := 0; pc := Done 0 [] |} |}.
End Machine.
