(* ===== verification/SabChannel.v ===== *)
(** * SabChannel: what the shared memory transport promises

    Whatever the interleaving of the threads, the bytes that arrive on a ring are
    the bytes that were sent, in order, and a worker that serves a claim that is
    over moves nothing.  The promises are those of [channel_inv], an invariant of
    [channel_step]; it holds while the positions of a ring stay below 2^31. *)
From S2P Require Import Prelude WasmModule SabRing.
From stdpp Require Import base tactics list sets functions.
From Stdlib Require Import ZArith Lia.
Open Scope Z_scope.

(** Opens the conjunctions and the witnesses in the context. *)
Ltac destruct_ex := repeat match goal with H : exists _, _ |- _ => destruct H; destruct_and? end.

(** ** Arithmetic *)

Lemma int32_small x : - 2 ^ 31 <= x < 2 ^ 31 -> int32 x = x.
Proof. intros Hx. unfold int32. rewrite Z.mod_small by lia. lia. Qed.

Lemma int32_range x : - 2 ^ 31 <= int32 x < 2 ^ 31.
Proof. unfold int32. pose proof (Z.mod_pos_bound (x + 2 ^ 31) (2 ^ 32)). lia. Qed.

Lemma int32_int32 x : int32 (int32 x) = int32 x.
Proof. apply int32_small, int32_range. Qed.

Lemma mod_apart c p q : 0 < c -> p mod c = q mod c -> Z.abs (p - q) < c -> p = q.
Proof.
  intros Hc He Ha. pose proof (Z.div_mod p c). pose proof (Z.div_mod q c).
  assert (p - q = c * (p / c - q / c)) as E by lia.
  assert (p / c - q / c = 0) by nia. lia.
Qed.

Lemma copy_offset_mod c p k i : 0 < c -> 0 <= p -> 0 <= i < k -> k <= c -> copy_offset c p k i = (p + i) mod c.
Proof.
  intros Hc Hp Hi Hk. unfold copy_offset. rewrite Z.rem_mod_nonneg by lia.
  pose proof (Z.mod_pos_bound p c Hc). pose proof (Z.div_mod p c).
  destruct (Z.ltb_spec i (Z.min k (c - p mod c))).
  - apply (Z.mod_unique_pos _ _ (p / c)); lia.
  - apply (Z.mod_unique_pos _ _ (p / c + 1)); lia.
Qed.

(** ** The lanes after a store *)

Lemma ctl_store l v s : ctl (store l v s) l = int32 v.
Proof. cbn. apply fn_lookup_insert. Qed.
Lemma ctl_store_ne l l' v s : l <> l' -> ctl (store l v s) l' = ctl s l'.
Proof. intros. cbn. by apply fn_lookup_insert_ne. Qed.

Lemma sent_store l v s : sent (store l v s) = sent s.
Proof. done. Qed.
Lemma received_store l v s : received (store l v s) = received s.
Proof. done. Qed.

(** ** The invariant *)

(** The claim under which a thread holds the reservation of its slot. *)
Definition locked (t : Thread) : option Z :=
  match pc t with
  | Open_check id | Open_undo id | Open_reset id _ | Open_publish id | Open_unlock id => Some id
  | Acq_recheck _ | Acq_undo _ | Load_w _ | Load_r _ _ | Check_closed _ _ _ _ | Check_claim _ _ _ _ _
  | Reload_w _ _ | Copy _ _ _ _ _ | Publish _ _ _ _ _ | Store_closed | Unlock _ =>
      match kind t with Worker c => Some c | Client _ => None end
  | _ => None
  end.

(** The client that opened the slot, from the moment the claim is published. *)
Definition owns (t : Thread) : bool :=
  match kind t, pc t with Client true, _ => true | _, Open_unlock _ => true | _, _ => false end.

Definition resetting (t : Thread) : bool :=
  match pc t with Open_reset _ _ | Open_publish _ => true | _ => false end.

(** Between the check of the claim and the end of the [try] block. *)
Definition in_body (t : Thread) : bool :=
  match pc t with
  | Load_w _ | Load_r _ _ | Check_closed _ _ _ _ | Check_claim _ _ _ _ _ | Reload_w _ _
  | Copy _ _ _ _ _ | Publish _ _ _ _ _ | Store_closed => true
  | _ => false
  end.

Definition job_ok (k : Kind) (j : Job) : Prop :=
  match j with
  | J_write src off => 0 <= off <= lenZ src
  | J_read n bounded => 0 <= n /\ (bounded = true -> is_worker k = false)
  | J_close => is_worker k = true
  end.
Definition is_write (j : Job) : bool := match j with J_write _ _ => true | _ => false end.
Definition next_ok (k : Kind) (n : Next) : Prop :=
  match n with N_head j | N_wait j _ _ => job_ok k j | N_done _ _ => True end.

(** Lanes that are neither a position nor a lock nor the state. *)
Definition plain_lane (l : Lane) : bool :=
  match l with C2W_CLOSED | W2C_CLOSED | TERMINAL_CLAIM | TERMINAL_CODE | TERMINAL_DETAIL => true | _ => false end.

(** Which places a thread of each kind can be at. *)
Definition thread_wf (t : Thread) : Prop :=
  match pc t with
  | Open_seq => kind t = Client false
  | Open_cas id | Open_check id | Open_undo id | Open_reset id _ | Open_publish id | Open_unlock id =>
      kind t = Client false /\ id <> 0 /\ int32 id = id
  | Acq_cas j | Acq_wait j _ | Acq_recheck j | Acq_undo j =>
      job_ok (kind t) j /\ exists c, kind t = Worker c /\ c <> 0 /\ int32 c = c
  | Unlock n => next_ok (kind t) n /\ exists c, kind t = Worker c /\ c <> 0 /\ int32 c = c
  | Store_closed => exists c, kind t = Worker c /\ c <> 0 /\ int32 c = c
  | Head j | Wait j _ _ => job_ok (kind t) j /\
      match kind t with Worker c => int32 c = c | Client b => b = true end
  | Check_closed j _ _ _ | Check_claim j _ _ _ _ | Reload_w j _ =>
      job_ok (kind t) j /\ (exists n b, j = J_read n b) /\
      match kind t with Worker c => c <> 0 /\ int32 c = c | Client b => b = true end
  | Load_w j | Load_r j _ | Copy j _ _ _ _ | Publish j _ _ _ _ =>
      job_ok (kind t) j /\ j <> J_close /\
      match kind t with Worker c => c <> 0 /\ int32 c = c | Client b => b = true end
  | Eos_store | Release_store => kind t = Client true
  | Error_stores todo => is_worker (kind t) = true /\ Forall (fun lv => plain_lane lv.1 = true) todo
  | Done _ _ => True
  end.

Section Invariant.
Context (n_slots : nat) (cap : Z) (cap_pos : 0 < cap).

(** The bytes of a ring that were sent and not received. *)
Definition in_flight (s : Slot) (d : Side) (win : bytes) : Prop :=
  sent s d = received s d ++ win /\ lenZ win <= cap.

(** [data] holds [bs] from ring position [p] on. *)
Definition holds (s : Slot) (d : Side) (p : Z) (bs : bytes) : Prop :=
  forall i x, bs !! i = Some x -> data s d ((p + Z.of_nat i) mod cap) = x.

Record ring_ok (s : Slot) (d : Side) : Prop := {
  ro_write : ctl s (write_lane d) = lenZ (sent s d);
  ro_read : ctl s (read_lane d) = lenZ (received s d);
  ro_window : exists win, in_flight s d win /\ holds s d (lenZ (received s d)) win
}.

(** What a thread knows of its ring. *)
Definition ring_facts (s : Slot) (t : Thread) : Prop :=
  match pc t with
  | Load_r j w =>
      let d := side_of (kind t) j in
      match j with
      | J_write _ _ => w = lenZ (sent s d)
      | _ => lenZ (received s d) <= w <= lenZ (sent s d)
      end
  | Reload_w j r => r = lenZ (received s (side_of (kind t) j))
  | Check_closed j w r _ | Check_claim j w r _ _ => r = lenZ (received s (side_of (kind t) j))
  | Copy j w r k got | Publish j w r k got =>
      let d := side_of (kind t) j in
      0 <= k /\ lenZ got <= k /\
      (match pc t with Publish _ _ _ _ _ => lenZ got = k | _ => True end) /\
      match j with
      | J_write src off =>
          w = lenZ (sent s d) /\ k <= lenZ src - off /\ w + k <= lenZ (received s d) + cap /\
          got = take (length got) (drop (Z.to_nat off) src) /\ holds s d w got
      | J_read n _ =>
          r = lenZ (received s d) /\ k <= n /\ r + k <= lenZ (sent s d) /\
          got = take (length got) (drop (length (received s d)) (sent s d))
      | J_close => True
      end
  | _ => True
  end.

Record thread_ok (s : Slot) (t : Thread) : Prop := {
  t_wf : thread_wf t;
  t_locked : forall id, locked t = Some id -> ctl s SLOT_RESERVATION = id;
  t_owns : owns t = true -> ctl s SLOT_STATE <> 0;
  t_resetting : resetting t = true -> ctl s SLOT_STATE = 0;
  t_zeroed : forall l, resetting t = true ->
    l ∈ [C2W_WRITE; C2W_READ; W2C_WRITE; W2C_READ] ->
    match pc t with Open_reset _ todo => l ∉ todo | _ => True end -> ctl s l = 0;
  t_todo : forall id todo, pc t = Open_reset id todo -> forall l, l ∈ todo -> l <> SLOT_STATE /\ l <> SLOT_RESERVATION;
  t_epoch : forall c, kind t = Worker c -> in_body t = true -> epoch s = c;
  t_ring : ring_facts s t
}.

(** Two threads at one slot. *)
Definition apart (t u : Thread) : Prop :=
  ~ (is_Some (locked t) /\ is_Some (locked u)) /\ ~ (owns t = true /\ owns u = true).

Record slot_ok (s : Slot) : Prop := {
  s_epoch : ctl s SLOT_STATE <> 0 -> epoch s = ctl s SLOT_STATE;
  s_flight : forall d, exists win, in_flight s d win
}.

Record channel_inv (c : Channel) : Prop := {
  ci_threads i : thread_ok (slots c (at_slot (threads c i))) (threads c i);
  ci_apart i j : i <> j -> at_slot (threads c i) = at_slot (threads c j) -> apart (threads c i) (threads c j);
  ci_slots n : slot_ok (slots c n);
  ci_rings n : (forall i, at_slot (threads c i) = n -> resetting (threads c i) = false) ->
    forall d, ring_ok (slots c n) d
}.

(** Positions that fit in 31 bits. *)
Definition bounded (c : Channel) : Prop := forall n d, lenZ (sent (slots c n) d) < 2 ^ 31.

(** ** What one access does to its slot *)

Inductive effect (s : Slot) (t : Thread) : Slot -> Prop :=
| E_none : effect s t s
| E_plain l v : plain_lane l = true -> effect s t (store l v s)
| E_lock id : ctl s SLOT_RESERVATION = 0 -> locked t = None -> effect s t (store SLOT_RESERVATION id s)
| E_unlock id : locked t = Some id -> effect s t (store SLOT_RESERVATION 0 s)
| E_zero id l todo : pc t = Open_reset id (l :: todo) -> effect s t (store l 0 s)
| E_claim id : pc t = Open_publish id -> effect s t (new_epoch id (store SLOT_STATE id s))
| E_release : kind t = Client true -> effect s t (store SLOT_STATE 0 s)
| E_data src off w r k got b :
    pc t = Copy (J_write src off) w r k got -> lenZ got < k ->
    effect s t (set_data (side_of (kind t) (J_write src off)) (copy_offset cap w k (lenZ got)) b s)
| E_sent src off w r k got :
    pc t = Publish (J_write src off) w r k got ->
    effect s t (add_sent (side_of (kind t) (J_write src off)) got
                  (store (write_lane (side_of (kind t) (J_write src off))) (w + k) s))
| E_received n b w r k got :
    pc t = Publish (J_read n b) w r k got ->
    effect s t (add_received (side_of (kind t) (J_read n b)) got
                  (store (read_lane (side_of (kind t) (J_read n b))) (r + k) s)).

Lemma exec_effect q s t : thread_ok s t -> effect s t (exec n_slots cap q s t).1.
Proof.
  intros [Hwf Hl _ _ _ _ _ _]. unfold thread_wf in Hwf. destruct t as [kd sl p]. cbn in *.
  destruct p; cbn in *; try (by constructor).
  all: repeat (case_match; cbn; try (by constructor)).
  all: subst; cbn in *; repeat match goal with H : (_ =? _) = true |- _ => apply Z.eqb_eq in H end;
    try (by apply E_lock); try (by eapply E_unlock); try (by eapply E_zero);
    destruct_and?; try (exfalso; by destruct_or?; destruct_ex; simplify_eq).
  all: try match goal with
    | |- effect ?s {| kind := ?k; at_slot := ?l; pc := Copy (J_write ?src ?off) ?w ?r ?n ?got |} _ =>
        by apply (E_data s {| kind := k; at_slot := l; pc := Copy (J_write src off) w r n got |} src off w r n got _ eq_refl), Z.leb_gt
    | |- effect ?s {| kind := ?k; at_slot := ?l; pc := Publish (J_write ?src ?off) ?w ?r ?n ?got |} _ =>
        by apply (E_sent s {| kind := k; at_slot := l; pc := Publish (J_write src off) w r n got |} src off w r n got)
    | |- effect ?s {| kind := ?k; at_slot := ?l; pc := Publish (J_read ?m ?b) ?w ?r ?n ?got |} _ =>
        by apply (E_received s {| kind := k; at_slot := l; pc := Publish (J_read m b) w r n got |} m b w r n got)
    end.
  match goal with Hz : Forall _ _ |- _ => by apply E_plain, (Forall_inv Hz) end.
Qed.

(** *** Who may touch what *)

(** A client in its [try] block owns the slot, a worker there holds the reservation. *)
Lemma in_body_role t : thread_wf t -> in_body t = true ->
  (kind t = Client true /\ owns t = true /\ locked t = None) \/
  (exists c, kind t = Worker c /\ locked t = Some c).
Proof.
  intros Hwf Hb. unfold thread_wf, in_body, owns, locked in *. destruct t as [kd sl p]. cbn in *.
  destruct p; try done; destruct kd as [b|c]; cbn in *; try naive_solver.
Qed.

Lemma resetting_locked t : resetting t = true -> exists id, locked t = Some id.
Proof. unfold resetting, locked. destruct (pc t); naive_solver. Qed.

(** While a slot is reset nobody else is in a [try] block there. *)
Lemma resetting_alone s t u : thread_ok s t -> thread_ok s u -> apart t u ->
  resetting t = true -> in_body u = false.
Proof.
  intros Ht Hu [Hl _] Hr. destruct (in_body u) eqn:Hb; [exfalso|done].
  destruct (in_body_role u (t_wf _ _ Hu) Hb) as [(_ & Ho & _)|(c & _ & Hc)].
  - by apply (t_owns _ _ Hu Ho), (t_resetting _ _ Ht).
  - destruct (resetting_locked t Hr) as [id Hid]. apply Hl. eauto.
Qed.

(** The positions and bytes of side [d] are those of the thread's job. *)
Definition job_of (p : Pc) : option Job :=
  match p with
  | Load_w j | Load_r j _ | Check_closed j _ _ _ | Check_claim j _ _ _ _ | Reload_w j _
  | Copy j _ _ _ _ | Publish j _ _ _ _ => Some j
  | _ => None
  end.
Lemma job_in_body t j : job_of (pc t) = Some j -> in_body t = true.
Proof. unfold in_body. by destruct (pc t). Qed.

Lemma job_wf t j : thread_wf t -> job_of (pc t) = Some j -> j <> J_close /\ job_ok (kind t) j.
Proof. unfold thread_wf. intros Hwf Hj. destruct (pc t); cbn in Hj; simplify_eq; naive_solver. Qed.

(** Two threads in their [try] blocks never have the same end of the same ring. *)
Lemma ends_apart s t u j j' : thread_ok s t -> thread_ok s u -> apart t u ->
  job_of (pc t) = Some j -> job_of (pc u) = Some j' ->
  side_of (kind t) j = side_of (kind u) j' -> is_write j = is_write j' -> False.
Proof.
  intros Ht Hu [Hl Ho] Hj Hj' Hs Hw.
  destruct (job_wf t j (t_wf _ _ Ht) Hj) as [N1 _], (job_wf u j' (t_wf _ _ Hu) Hj') as [N2 _].
  destruct (in_body_role t (t_wf _ _ Ht) (job_in_body _ _ Hj)) as [(K1 & O1 & _)|(c & K1 & L1)];
    destruct (in_body_role u (t_wf _ _ Hu) (job_in_body _ _ Hj')) as [(K2 & O2 & _)|(c' & K2 & L2)].
  - by apply Ho.
  - rewrite K1, K2 in Hs. by destruct j, j'.
  - rewrite K1, K2 in Hs. by destruct j, j'.
  - apply Hl. eauto.
Qed.

(** *** The other threads keep what they know *)

(** What a thread at one end relies on: the other end only moves forward. *)
Definition end_kept (s s' : Slot) (d : Side) (write : bool) : Prop :=
  if write then sent s' d = sent s d /\ data s' d = data s d /\ lenZ (received s d) <= lenZ (received s' d)
  else received s' d = received s d /\ exists x, sent s' d = sent s d ++ x.

Lemma end_kept_refl s s' d b : sent s' = sent s -> received s' = received s -> data s' = data s -> end_kept s s' d b.
Proof. intros E1 E2 E3. unfold end_kept. rewrite E1, E2, E3. destruct b; [done|]. split; [done|]. exists []. by rewrite app_nil_r. Qed.

Lemma take_drop_app {A} n m (l x : list A) : (m + n <= length l)%nat ->
  take n (drop m (l ++ x)) = take n (drop m l).
Proof. intros Hl. rewrite drop_app_le by lia. apply take_app_le. rewrite length_drop. lia. Qed.

Lemma ring_facts_frame s s' u : ring_facts s u ->
  (forall j, job_of (pc u) = Some j -> end_kept s s' (side_of (kind u) j) (is_write j)) ->
  thread_wf u -> ring_facts s' u.
Proof.
  intros Hf Hk Hwf. unfold ring_facts in *. unfold thread_wf in Hwf.
  destruct (pc u) as [| | | | | | | | | | | |j|j w|j w r a|j w r c a|j r|j w r k got|j w r k got| | | | | | |] eqn:Ep;
    try done; specialize (Hk j eq_refl); destruct Hwf as (_ & Hj & _);
    (destruct j as [src off|n b|]; [| |done || naive_solver]); cbn [is_write] in Hk; unfold end_kept in Hk;
    try (destruct Hj as (? & ? & ?); done).
  - by destruct Hk as (-> & _).
  - destruct Hk as (-> & x & ->). rewrite lenZ_app. pose proof (lenZ_nonneg x). lia.
  - by destruct Hk as (-> & _).
  - by destruct Hk as (-> & _).
  - by destruct Hk as (-> & _).
  - destruct Hk as (-> & Hd & Hr). unfold holds in *. rewrite Hd. destruct Hf as (? & ? & ? & ? & ? & ? & ? & ?).
    repeat split; try done; lia.
  - destruct Hk as (-> & x & ->). destruct Hf as (? & ? & ? & ? & ? & ? & Hg). repeat split; try done.
    + rewrite lenZ_app. pose proof (lenZ_nonneg x). lia.
    + rewrite take_drop_app; [done|]. unfold lenZ in *. lia.
  - destruct Hk as (-> & Hd & Hr). unfold holds in *. rewrite Hd. destruct Hf as (? & ? & ? & ? & ? & ? & ? & ?).
    repeat split; try done; lia.
  - destruct Hk as (-> & x & ->). destruct Hf as (? & ? & ? & ? & ? & ? & Hg). repeat split; try done.
    + rewrite lenZ_app. pose proof (lenZ_nonneg x). lia.
    + rewrite take_drop_app; [done|]. unfold lenZ in *. lia.
Qed.

(** Effects on lanes alone keep both ends; a slot is reset when nobody is inside. *)
Lemma ends_frame s t s' u j : thread_ok s t -> thread_ok s u -> apart t u -> effect s t s' ->
  job_of (pc u) = Some j -> end_kept s s' (side_of (kind u) j) (is_write j).
Proof.
  intros Ht Hu Ha He Hj.
  assert (forall j', job_of (pc t) = Some j' -> is_write j = is_write j' -> side_of (kind u) j <> side_of (kind t) j') as Hne.
  { intros j' Hj' Hw Hs. by eapply (ends_apart s t u j' j). }
  destruct He as [ |l v _|id _ _|id _|id l todo _|id Hp|_|src off w r k got b Hp _|src off w r k got Hp|n b w r k got Hp];
    try by apply end_kept_refl.
  - exfalso. assert (resetting t = true) as Hr by (unfold resetting; by rewrite Hp).
    pose proof (resetting_alone s t u Ht Hu Ha Hr). by rewrite (job_in_body _ _ Hj) in H.
  - specialize (Hne (J_write src off)). rewrite Hp in Hne. specialize (Hne eq_refl).
    unfold end_kept. cbn [sent received data set_data]. destruct (is_write j).
    + split; [done|]. split; [|lia]. apply fn_lookup_insert_ne. symmetry. by apply Hne.
    + split; [done|]. exists []. by rewrite app_nil_r.
  - specialize (Hne (J_write src off)). rewrite Hp in Hne. specialize (Hne eq_refl).
    unfold end_kept. cbn [sent received data add_sent store]. destruct (is_write j).
    + rewrite fn_lookup_insert_ne by (symmetry; by apply Hne). split; [done|]. split; [done|lia].
    + split; [done|]. destruct (decide (side_of (kind t) (J_write src off) = side_of (kind u) j)) as [E|E].
      * rewrite E, fn_lookup_insert. eauto.
      * rewrite fn_lookup_insert_ne by done. exists []. by rewrite app_nil_r.
  - specialize (Hne (J_read n b)). rewrite Hp in Hne. specialize (Hne eq_refl).
    unfold end_kept. cbn [sent received data add_received store]. destruct (is_write j).
    + split; [done|]. split; [done|].
      destruct (decide (side_of (kind t) (J_read n b) = side_of (kind u) j)) as [E|E].
      * rewrite E, fn_lookup_insert, lenZ_app. pose proof (lenZ_nonneg got). lia.
      * rewrite fn_lookup_insert_ne by done. lia.
    + rewrite fn_lookup_insert_ne by (symmetry; by apply Hne). split; [done|]. exists []. by rewrite app_nil_r.
Qed.

(** The lanes of the lock and of the state, as another thread sees them. *)
Lemma lanes_frame s t s' u : thread_ok s t -> thread_ok s u -> apart t u -> effect s t s' ->
  (forall id, locked u = Some id -> ctl s' SLOT_RESERVATION = id) /\
  (owns u = true -> ctl s' SLOT_STATE <> 0) /\ (resetting u = true -> ctl s' SLOT_STATE = 0).
Proof.
  intros Ht Hu [Hl Ho] He. pose proof (t_locked _ _ Hu) as U1. pose proof (t_owns _ _ Hu) as U2.
  pose proof (t_resetting _ _ Hu) as U3.
  assert (forall l v, l <> SLOT_RESERVATION -> l <> SLOT_STATE -> forall s1, ctl s1 = ctl (store l v s) ->
    (forall id, locked u = Some id -> ctl s1 SLOT_RESERVATION = id) /\
    (owns u = true -> ctl s1 SLOT_STATE <> 0) /\ (resetting u = true -> ctl s1 SLOT_STATE = 0)) as Hother.
  { intros l v N1 N2 s1 ->. by rewrite !ctl_store_ne by done. }
  destruct He as [ |l v Hp|id Hr Hn|id Hi|id l todo Hp|id Hp|Hk|src off w r k got b Hp _|src off w r k got Hp|n b w r k got Hp].
  - done.
  - by apply (Hother l v); destruct l.
  - split; [|by rewrite !ctl_store_ne by done]. intros id' Hid'. specialize (U1 _ Hid').
    pose proof (t_wf _ _ Hu) as Wu. unfold thread_wf in Wu. unfold locked in Hid'.
    exfalso. destruct (pc u); destruct (kind u); simplify_eq; naive_solver.
  - split; [|by rewrite !ctl_store_ne by done]. intros id' Hid'. exfalso. apply Hl. eauto.
  - destruct (t_todo _ _ Ht _ _ Hp l ltac:(apply list_elem_of_here)). by apply (Hother l 0).
  - assert (resetting t = true) as Hr by (unfold resetting; by rewrite Hp).
    split; [|split]; cbn [ctl new_epoch].
    + intros id' Hid'. exfalso. apply Hl. split; [|eauto]. destruct (resetting_locked t Hr). eauto.
    + intros Hou. exfalso. by apply U2, (t_resetting _ _ Ht).
    + intros Hru. exfalso. apply Hl. split; [|destruct (resetting_locked u Hru); eauto].
      destruct (resetting_locked t Hr). eauto.
  - assert (owns t = true) as Hot by (unfold owns; by rewrite Hk). rewrite ctl_store.
    split; [by rewrite ctl_store_ne by done|]. split; [|done]. intros Hou. exfalso. by apply Ho.
  - done.
  - apply (Hother (write_lane (side_of (kind t) (J_write src off))) (w + k)); by destruct (side_of _ _).
  - apply (Hother (read_lane (side_of (kind t) (J_read n b))) (r + k)); by destruct (side_of _ _).
Qed.

Lemma thread_frame s t s' u : thread_ok s t -> thread_ok s u -> apart t u -> effect s t s' -> thread_ok s' u.
Proof.
  intros Ht Hu Ha He. destruct (lanes_frame s t s' u Ht Hu Ha He) as (F1 & F2 & F3).
  split; try done; try apply Hu.
  - intros l Hr Hl Htodo. rewrite <- (t_zeroed _ _ Hu l Hr Hl Htodo).
    destruct (resetting_locked u Hr) as [id' Hid']. pose proof (proj1 Ha) as Hlk.
    assert (in_body t = false) as Hb by (apply (resetting_alone s u t Hu Ht); [|done]; unfold apart in *; tauto).
    destruct He as [ |l0 v Hp|id Hr0 Hn|id Hi|id l0 todo Hp|id Hp|Hk|src off w r k got b Hp _|src off w r k got Hp|n b w r k got Hp];
      try done; cbn [ctl new_epoch add_sent add_received];
      try (unfold in_body in Hb; by rewrite Hp in Hb).
    + apply ctl_store_ne. intros ->. destruct l; try done; set_solver.
    + apply ctl_store_ne. set_solver.
    + apply ctl_store_ne. set_solver.
    + exfalso. apply Hlk. split; [unfold locked; rewrite Hp|]; eauto.
    + exfalso. apply Hlk. split; [unfold locked; rewrite Hp|]; eauto.
    + apply ctl_store_ne. set_solver.
  - intros c Hk Hb. rewrite <- (t_epoch _ _ Hu c Hk Hb).
    destruct He as [ | | | | |id Hp| | | |]; try done.
    pose proof (resetting_alone s t u Ht Hu Ha ltac:(unfold resetting; by rewrite Hp)). congruence.
  - apply (ring_facts_frame s); [apply Hu| |apply Hu]. intros j Hj. by apply (ends_frame s t s' u j).
Qed.

(** *** The rings *)

Lemma received_window (rc win got st : bytes) : st = rc ++ win ->
  got = take (length got) (drop (length rc) st) -> exists win', win = got ++ win' /\ st = (rc ++ got) ++ win'.
Proof.
  intros -> Hg. rewrite drop_app_length in Hg. exists (drop (length got) win).
  assert (win = got ++ drop (length got) win) as E by (rewrite Hg at 1; by rewrite take_drop).
  split; [done|]. by rewrite <- app_assoc, <- E.
Qed.

Lemma epoch_step s t s' : slot_ok s -> thread_ok s t -> effect s t s' ->
  ctl s' SLOT_STATE <> 0 -> epoch s' = ctl s' SLOT_STATE.
Proof.
  intros [He _] Ht Hs.
  assert (forall l v s1, l <> SLOT_STATE -> ctl s1 = ctl (store l v s) -> epoch s1 = epoch s ->
    ctl s1 SLOT_STATE <> 0 -> epoch s1 = ctl s1 SLOT_STATE) as Hother.
  { intros l v s1 N -> ->. by rewrite ctl_store_ne. }
  destruct Hs as [ |l v Hp|id _ _|id Hi|id l0 todo Hp|id Hp|Hk|src off w r k got b Hp _|src off w r k got Hp|n b w r k got Hp].
  - done.
  - apply (Hother l v); by destruct l.
  - by apply (Hother SLOT_RESERVATION id).
  - by apply (Hother SLOT_RESERVATION 0).
  - destruct (t_todo _ _ Ht _ _ Hp l0 ltac:(apply list_elem_of_here)). by apply (Hother l0 0).
  - cbn [ctl new_epoch epoch]. rewrite ctl_store. pose proof (t_wf _ _ Ht) as W. unfold thread_wf in W.
    rewrite Hp in W. by destruct W as (_ & _ & ->).
  - by rewrite ctl_store.
  - done.
  - apply (Hother (write_lane (side_of (kind t) (J_write src off))) (w + k)); by destruct (side_of _ _).
  - apply (Hother (read_lane (side_of (kind t) (J_read n b))) (r + k)); by destruct (side_of _ _).
Qed.

Lemma flight_step s t s' : slot_ok s -> thread_ok s t -> effect s t s' -> slot_ok s'.
Proof.
  intros Hs0 Ht Hs. split; [by eapply epoch_step|]. destruct Hs0 as [_ Hf].
  pose proof (t_ring _ _ Ht) as Hr. unfold ring_facts in Hr. intros d.
  destruct Hs as [ | | | | |id Hp| | |src off w r k got Hp|n b w r k got Hp];
    try rewrite Hp in Hr; try apply Hf; unfold in_flight; cbn [new_epoch sent received add_sent add_received store].
  - exists []. split; [done|]. unfold lenZ. cbn. lia.
  - destruct (decide (side_of (kind t) (J_write src off) = d)) as [<-|N].
    + destruct (Hf (side_of (kind t) (J_write src off))) as (win & E & Hl).
      rewrite fn_lookup_insert. exists (win ++ got). split; [by rewrite E, app_assoc|].
      destruct Hr as (_ & _ & Hk & Hw & _ & Hc & _). rewrite E, lenZ_app in Hw. rewrite lenZ_app. lia.
    + rewrite fn_lookup_insert_ne by done. apply Hf.
  - destruct (decide (side_of (kind t) (J_read n b) = d)) as [<-|N].
    + destruct (Hf (side_of (kind t) (J_read n b))) as (win & E & Hl). rewrite fn_lookup_insert.
      destruct Hr as (_ & _ & Hk & _ & _ & _ & Hg). destruct (received_window _ _ _ _ E Hg) as (win' & -> & E').
      exists win'. split; [done|]. rewrite lenZ_app in Hl. pose proof (lenZ_nonneg got). lia.
    + rewrite fn_lookup_insert_ne by done. apply Hf.
Qed.

Lemma holds_app s d p l1 l2 : holds s d p l1 -> holds s d (p + lenZ l1) l2 -> holds s d p (l1 ++ l2).
Proof.
  intros H1 H2 i x Hi. destruct (decide (i < length l1)%nat).
  - rewrite lookup_app_l in Hi by done. by apply H1.
  - rewrite lookup_app_r in Hi by lia. rewrite <- (H2 _ _ Hi). f_equal. f_equal. unfold lenZ. lia.
Qed.

Lemma holds_app_r s d p l1 l2 : holds s d p (l1 ++ l2) -> holds s d (p + lenZ l1) l2.
Proof.
  intros H i x Hi. rewrite <- (H (length l1 + i)%nat x).
  - f_equal. f_equal. unfold lenZ. lia.
  - rewrite lookup_app_r by lia. by replace (length l1 + i - length l1)%nat with i by lia.
Qed.

(** A byte written past the end of what is held, within the capacity, disturbs nothing. *)
Lemma holds_set s d d' p bs q b : 0 <= p -> holds s d p bs -> (d' = d -> p + lenZ bs <= q < p + cap) ->
  holds (set_data d' (q mod cap) b s) d p bs.
Proof.
  intros Hp Hh Hq i x Hi. rewrite <- (Hh i x Hi). cbn. destruct (decide (d' = d)) as [->|N].
  - rewrite fn_lookup_insert. apply fn_lookup_insert_ne. specialize (Hq eq_refl).
    apply lookup_lt_Some in Hi. intros E. apply mod_apart in E; unfold lenZ in *; lia.
  - by rewrite fn_lookup_insert_ne.
Qed.

Lemma ring_step s t s' d : (forall d, ring_ok s d) -> thread_ok s t -> effect s t s' -> resetting t = false ->
  lenZ (sent s' d) < 2 ^ 31 -> ring_ok s' d.
Proof.
  intros Ho Ht He Hres Hb. pose proof (t_ring _ _ Ht) as Hr. unfold ring_facts in Hr.
  assert (forall l v, l <> write_lane d -> l <> read_lane d -> ring_ok (store l v s) d) as Hstore.
  { intros l v N1 N2. destruct (Ho d) as [O1 O2 O3]. split; [by rewrite ctl_store_ne|by rewrite ctl_store_ne|done]. }
  destruct He as [ |l v Hp|id Hr0 Hn|id Hi|id l0 todo Hp|id Hp|Hk|src off w r k got b Hp Hlt|src off w r k got Hp|n b w r k got Hp];
    try rewrite Hp in Hr; try (apply Hstore; by destruct d); [done|apply Hstore; by destruct l, d|..].
  - unfold resetting in Hres. by rewrite Hp in Hres.
  - unfold resetting in Hres. by rewrite Hp in Hres.
  - set (d' := side_of (kind t) (J_write src off)) in *. destruct (Ho d) as [O1 O2 (win & Hf & Hh)].
    destruct Hr as (Hk0 & Hgk & _ & Hw & _ & Hc & _). destruct (Ho d') as [_ _ (win' & [E' Hl'] & _)].
    assert (k <= cap) by (rewrite E', lenZ_app in Hw; pose proof (lenZ_nonneg win'); lia).
    pose proof (lenZ_nonneg (sent s d')). pose proof (lenZ_nonneg got).
    rewrite copy_offset_mod by lia. split; [done|done|]. exists win. split; [done|].
    apply holds_set; [apply lenZ_nonneg|done|]. intros E. clearbody d'. subst d'.
    destruct Hf as [E2 _]. rewrite E2, lenZ_app in Hw. cbn [received set_data]. lia.
  - set (d' := side_of (kind t) (J_write src off)) in *.
    destruct (decide (d' = d)) as [E|N].
    + subst d. destruct (Ho d') as [O1 O2 (win & [E Hf] & Hh)]. destruct Hr as (Hk0 & _ & Hk & Hw & _ & Hc & _ & Hg).
      cbn [sent add_sent] in Hb. rewrite sent_store, fn_lookup_insert, lenZ_app in Hb.
      pose proof (lenZ_nonneg (sent s d')).
      assert (write_lane d' <> read_lane d') by (by destruct d'). split; cbn [ctl add_sent sent received].
      * rewrite ctl_store, sent_store, fn_lookup_insert, lenZ_app, int32_small; lia.
      * by rewrite ctl_store_ne.
      * exists (win ++ got). unfold in_flight. cbn [sent received add_sent store]. rewrite fn_lookup_insert.
        split; [split; [by rewrite E, app_assoc|]|].
        -- rewrite E, lenZ_app in Hw. rewrite lenZ_app. lia.
        -- apply holds_app; [done|]. rewrite E, lenZ_app in Hw. rewrite <- Hw. exact Hg.
    + assert (write_lane d' <> write_lane d /\ write_lane d' <> read_lane d) as [N1 N2] by (by destruct d', d).
      destruct (Hstore (write_lane d') (w + k) N1 N2) as [O1 O2 (win & [E Hf] & Hh)].
      split; cbn [ctl add_sent sent received]; [by rewrite fn_lookup_insert_ne|done|].
      exists win. split; [|done]. split; [|done]. cbn [sent received add_sent]. by rewrite fn_lookup_insert_ne.
  - set (d' := side_of (kind t) (J_read n b)) in *.
    destruct (decide (d' = d)) as [E|N].
    + subst d. destruct (Ho d') as [O1 O2 (win & [E Hf] & Hh)]. destruct Hr as (Hk0 & _ & Hk & Hw & _ & Hc & Hg).
      cbn [sent add_received store] in Hb. pose proof (lenZ_nonneg (received s d')).
      assert (read_lane d' <> write_lane d') by (by destruct d'). split; cbn [ctl add_received sent received].
      * by rewrite ctl_store_ne.
      * rewrite ctl_store, received_store, fn_lookup_insert, lenZ_app, int32_small; lia.
      * destruct (received_window _ _ _ _ E Hg) as (win' & -> & E'). exists win'. unfold in_flight.
        cbn [sent received add_received store]. rewrite fn_lookup_insert.
        split; [split; [done|]|].
        -- rewrite lenZ_app in Hf. pose proof (lenZ_nonneg got). lia.
        -- rewrite lenZ_app. by apply holds_app_r.
    + assert (read_lane d' <> write_lane d /\ read_lane d' <> read_lane d) as [N1 N2] by (by destruct d', d).
      destruct (Hstore (read_lane d') (r + k) N1 N2) as [O1 O2 (win & [E Hf] & Hh)].
      split; cbn [ctl add_received sent received]; [done|by rewrite fn_lookup_insert_ne|].
      exists win. split; [|by rewrite fn_lookup_insert_ne]. split; [|done]. cbn [sent received add_received].
      by rewrite fn_lookup_insert_ne.
Qed.

(** A slot that was just opened has two empty rings. *)
Lemma opened_rings s t id : thread_ok s t -> pc t = Open_publish id ->
  forall d, ring_ok (new_epoch id (store SLOT_STATE id s)) d.
Proof.
  intros Ht Hp d. assert (resetting t = true) as Hr by (unfold resetting; by rewrite Hp).
  pose proof (t_zeroed _ _ Ht) as Hz. rewrite Hp in Hz. split; cbn [ctl new_epoch sent received].
  - rewrite ctl_store_ne by (by destruct d). apply Hz; [done|destruct d; set_solver|done].
  - rewrite ctl_store_ne by (by destruct d). apply Hz; [done|destruct d; set_solver|done].
  - exists []. split; [|intros i x Hi; by rewrite lookup_nil in Hi]. split; [done|]. unfold lenZ. cbn. lia.
Qed.
End Invariant.
