(* ===== verification/SabOrder.v ===== *)
(** * SabOrder: the streams of a channel arrive in order

    The invariant of [SabChannel] holds of every state a channel can reach while
    the positions of its rings fit a lane; the promises of the transport follow. *)
From S2P Require Import Prelude WasmModule SabRing SabChannel.
From stdpp Require Import base tactics list sets functions.
From Stdlib Require Import ZArith Lia.
Open Scope Z_scope.

(** Case analysis on the place of a thread, then on what its access found. *)
Ltac at_pc t := let k := fresh "kd" in let l := fresh "sl" in let p := fresh "p" in
  destruct t as [k l p]; cbn in *; destruct p; cbn in *.
Ltac found := repeat (case_match; cbn in *; simplify_eq/=).
Ltac eqbs := repeat match goal with
  | H : (_ =? _) = true |- _ => apply Z.eqb_eq in H
  | H : (_ =? _) = false |- _ => apply Z.eqb_neq in H
  | H : (_ <=? _) = true |- _ => apply Z.leb_le in H
  | H : (_ <=? _) = false |- _ => apply Z.leb_gt in H
  end.
Ltac opened := destruct_and?; destruct_ex; simplify_eq/=.
(** Every branch of an access, the marks of the thread kept folded. *)
Ltac branches :=
  cbn; unfold exec_head, loaded, not_eos, lost_claim, body, leave, continue; cbn;
  repeat (match goal with
    | |- context [if ?b then _ else _] => destruct b eqn:?
    | |- context [match ?x with _ => _ end] => is_var x; destruct x
    end; unfold exec_head, loaded, not_eos, lost_claim, body, leave, continue; cbn).

Section Order.
Context (n_slots : nat) (cap : Z) (cap_pos : 0 < cap).
Abbreviation exec := (exec n_slots cap).
Abbreviation thread_ok := (thread_ok cap).
Abbreviation ring_ok := (ring_ok cap).
Abbreviation slot_ok := (slot_ok cap).

(** ** A thread after its own access *)

Lemma claim_id_ok q : claim_id q <> 0 /\ int32 (claim_id q) = claim_id q.
Proof.
  unfold claim_id. case_match; eqbs; [done|]. split; [done|apply int32_int32].
Qed.

(** [next_slot] keeps the claim, or gives up. *)
Lemma next_slot_pc id t :
  pc (next_slot n_slots id t) = Open_cas id \/ exists r, pc (next_slot n_slots id t) = Done r [].
Proof. unfold next_slot. case_match; cbn; eauto. Qed.
Lemma next_slot_kind id t : kind (next_slot n_slots id t) = kind t.
Proof. unfold next_slot. by case_match. Qed.
Lemma next_slot_moves id t : at_slot (next_slot n_slots id t) <> at_slot t -> pc (next_slot n_slots id t) = Open_cas id.
Proof. unfold next_slot. by case_match. Qed.
Lemma next_slot_wf id t : kind t = Client false /\ id <> 0 /\ int32 id = id ->
  thread_wf (next_slot n_slots id t).
Proof.
  intros H. unfold thread_wf. rewrite next_slot_kind. by destruct (next_slot_pc id t) as [->|[r ->]].
Qed.

Lemma leave_wf k sl n : next_ok k n ->
  match k with Worker c => c <> 0 /\ int32 c = c | Client b => b = true end ->
  thread_wf {| kind := k; at_slot := sl; pc := leave k n |}.
Proof.
  intros Hn Hk. unfold leave. destruct k as [b|c]; cbn; [|naive_solver].
  destruct n; cbn in *; naive_solver.
Qed.

(** Closes [thread_wf] of a thread at a known place. *)
Ltac wf := unfold thread_wf; cbn; try tauto; solve [naive_solver lia].

Lemma head_wf s k sl j : job_ok k j ->
  match k with Worker c => int32 c = c | Client b => b = true end ->
  thread_wf (exec_head s {| kind := k; at_slot := sl; pc := Head j |} j).
Proof.
  intros Hj Hk.
  assert (thread_wf (match k with
    | Client _ => goto (Load_w j) {| kind := k; at_slot := sl; pc := Head j |}
    | Worker c => goto (if (c =? 0) || negb (ctl s SLOT_STATE =? c) then lost_claim j else Acq_cas j)
        {| kind := k; at_slot := sl; pc := Head j |} end)) as H.
  { destruct k as [b|c]; [destruct j; wf|]. destruct ((c =? 0) || _) eqn:E; [destruct j; wf|].
    apply orb_false_iff in E as [E _]. eqbs. wf. }
  destruct j as [src off| |]; cbn [exec_head]; [destruct (lenZ src <=? off); [wf|exact H]|exact H..].
Qed.

Lemma not_eos_wf k sl p j w r again : job_ok k j -> (exists n b, j = J_read n b) ->
  match k with Worker c => c <> 0 /\ int32 c = c | Client b => b = true end ->
  thread_wf (goto (not_eos {| kind := k; at_slot := sl; pc := p |} j w r again) {| kind := k; at_slot := sl; pc := p |}).
Proof.
  intros Hj (n & b & ->) Hk. cbn. destruct b; [destruct again; wf|]. by apply leave_wf.
Qed.

Lemma loaded_wf k sl p j w r again : job_ok k j -> j <> J_close ->
  match k with Worker c => c <> 0 /\ int32 c = c | Client b => b = true end ->
  thread_wf (goto (loaded cap {| kind := k; at_slot := sl; pc := p |} j w r again) {| kind := k; at_slot := sl; pc := p |}).
Proof.
  intros Hj N Hk. destruct j as [src off|n b|]; cbn; [| |done]; ifs; try wf. by apply (leave_wf k sl).
Qed.

Lemma wf_step q s t : thread_ok s t -> thread_wf (exec q s t).2.
Proof.
  intros Ht. pose proof (t_wf _ _ _ Ht) as Hw. pose proof (t_ring _ _ _ Ht) as Hr. clear Ht.
  destruct t as [k sl p]. unfold thread_wf, ring_facts in Hw, Hr. cbn in Hw, Hr. destruct p; cbn.
  all: try (wf; fail).
  - pose proof (claim_id_ok q) as Hid. revert Hid. generalize (claim_id q) as id. intros id Hid. ifs; wf.
  - ifs; [wf|by apply next_slot_wf].
  - ifs; wf.
  - by apply next_slot_wf.
  - destruct todo; wf.
  - destruct_and?. by apply head_wf.
  - destruct k; [wf|]. ifs; wf.
  - destruct k; [wf|]. ifs; [destruct j; wf|wf].
  - destruct k; [wf|]. destruct j; wf.
  - destruct_and?. by apply loaded_wf.
  - destruct_and?. ifs; [by apply not_eos_wf|by apply (leave_wf k sl)|wf].
  - destruct_and?. ifs; [by apply (leave_wf k sl)|by apply not_eos_wf].
  - destruct_and?. destruct_ex. subst. by apply loaded_wf.
  - ifs; [wf|]. destruct j; wf.
  - destruct_and?. destruct j; apply (leave_wf k sl); try done; cbn in *; lia.
  - destruct k; [wf|]. destruct next; wf.
  - destruct todo as [|[l v] todo]; [wf|]. destruct Hw as [? Hf]. apply Forall_inv_tail in Hf. wf.
Qed.

Lemma next_slot_unmarked id t : kind t = Client false ->
  locked (next_slot n_slots id t) = None /\ owns (next_slot n_slots id t) = false /\
  resetting (next_slot n_slots id t) = false.
Proof.
  intros Hk. unfold locked, owns, resetting. rewrite next_slot_kind, Hk.
  by destruct (next_slot_pc id t) as [->|[r ->]].
Qed.
Ltac next_slot_case := match goal with
  | H : context [next_slot n_slots ?id ?t] |- _ =>
      destruct (next_slot_unmarked id t eq_refl) as (? & ? & ?); congruence
  end.

(** The reservation is held from before, or was free. *)
Lemma locked_step q s t id : thread_ok s t -> locked (exec q s t).2 = Some id ->
  (locked t = Some id /\ ctl (exec q s t).1 SLOT_RESERVATION = ctl s SLOT_RESERVATION) \/
  (ctl s SLOT_RESERVATION = 0 /\ ctl (exec q s t).1 SLOT_RESERVATION = id).
Proof.
  intros [Hw _ _ _ _ Htodo _ _]. destruct t as [k sl p]. unfold thread_wf in Hw. cbn in Hw. destruct p; branches.
  all: intros H; opened; try next_slot_case; unfold locked in *; cbn in *; simplify_eq; eqbs.
  all: try (left; done).
  - right. by rewrite fn_lookup_insert.
  - left. split; [done|]. apply fn_lookup_insert_ne. by destruct (Htodo _ _ eq_refl l (list_elem_of_here _ _)).
  - right. by rewrite fn_lookup_insert.
Qed.

(** The owner keeps the slot, or the slot was just published. *)
Lemma owns_step q s t : thread_ok s t -> owns (exec q s t).2 = true ->
  (owns t = true /\ ctl (exec q s t).1 SLOT_STATE = ctl s SLOT_STATE) \/
  (resetting t = true /\ ctl (exec q s t).1 SLOT_STATE <> 0).
Proof.
  intros [Hw _ _ _ _ _ _ _]. destruct t as [k sl p]. unfold thread_wf in Hw. cbn in Hw. destruct p; branches.
  all: intros H; opened; try next_slot_case; unfold owns, resetting in *; cbn in *; simplify_eq; eqbs.
  all: try (left; done).
  all: try (left; split; [done || by destruct k as [[]|]|apply fn_lookup_insert_ne; done || by destruct (side_of _ _)]).
  - right. split; [done|]. rewrite fn_lookup_insert. congruence.
  - left. split; [done|]. apply fn_lookup_insert_ne. match goal with H : Forall _ _ |- _ => apply Forall_inv in H end.
    cbn in *. by destruct l.
Qed.

(** A slot is reset when its state was found to be 0. *)
Lemma resetting_step q s t : thread_ok s t -> resetting (exec q s t).2 = true ->
  ctl (exec q s t).1 SLOT_STATE = 0.
Proof.
  intros [Hw _ _ Hres _ Htodo _ _]. destruct t as [k sl p]. unfold thread_wf in Hw. cbn in Hw. destruct p; branches.
  all: intros H; opened; try next_slot_case; unfold resetting in *; cbn in *; simplify_eq; eqbs.
  all: try done.
  - by apply Hres.
  - rewrite fn_lookup_insert_ne; [by apply Hres|]. by destruct (Htodo _ _ eq_refl l (list_elem_of_here _ _)).
Qed.

(** The lanes of a slot being reset are 0 once done. *)
Lemma zeroed_step q s t l : thread_ok s t -> resetting (exec q s t).2 = true ->
  l ∈ [C2W_WRITE; C2W_READ; W2C_WRITE; W2C_READ] ->
  match pc (exec q s t).2 with Open_reset _ todo => l ∉ todo | _ => True end -> ctl (exec q s t).1 l = 0.
Proof.
  intros [Hw _ _ _ Hz Htodo _ _]. destruct t as [k sl p]. unfold thread_wf in Hw. cbn in Hw. destruct p; branches.
  all: intros H Hl; opened; try next_slot_case; unfold resetting in *; cbn in *; simplify_eq; eqbs.
  all: intros Ht.
  - exfalso. apply Ht. unfold reset_lanes. set_solver.
  - apply (Hz l eq_refl Hl). set_solver.
  - destruct (decide (l0 = l)) as [->|N]; [by rewrite fn_lookup_insert|].
    rewrite fn_lookup_insert_ne by done. apply (Hz l eq_refl Hl). set_solver.
Qed.

Lemma todo_step q s t id todo : thread_ok s t -> pc (exec q s t).2 = Open_reset id todo ->
  forall l, l ∈ todo -> l <> SLOT_STATE /\ l <> SLOT_RESERVATION.
Proof.
  intros [Hw _ _ _ _ Htodo _ _]. destruct t as [k sl p]. unfold thread_wf in Hw. cbn in Hw. destruct p; branches.
  all: intros H; opened; cbn in *; simplify_eq; eqbs.
  all: try match goal with H : pc (next_slot _ ?id ?t) = _ |- _ =>
    destruct (next_slot_pc id t) as [?|[? ?]]; congruence end.
  - intros l Hl. apply list_elem_of_In in Hl. cbn in Hl. by destruct l; intuition.
  - intros l' Hl. apply (Htodo _ _ eq_refl). set_solver.
Qed.
(** A worker past its check serves the claim the slot was opened under. *)
Lemma epoch_self q s t c : thread_ok s t -> slot_ok s -> kind (exec q s t).2 = Worker c ->
  in_body (exec q s t).2 = true -> epoch (exec q s t).1 = c.
Proof.
  intros [Hw _ _ _ _ _ He _] [Hs _]. destruct t as [k sl p]. unfold thread_wf in Hw. cbn in Hw, He.
  destruct p; branches.
  all: intros Hk Hb; opened; try (rewrite next_slot_kind in Hk; done); unfold in_body in *; cbn in *; simplify_eq; eqbs.
  all: try (by apply He).
  all: rewrite Hs; congruence.
Qed.

(** The next byte of a copy. *)
Lemma take_next (l : bytes) n (got : bytes) x : drop n l !! length got = Some x ->
  got = take (length got) (drop n l) -> got ++ [x] = take (length (got ++ [x])) (drop n l).
Proof.
  intros Hx Hg. rewrite length_app. cbn [length]. rewrite Nat.add_1_r, (take_S_r _ _ x Hx). by rewrite <- Hg.
Qed.

(** The facts of a copy grow by the byte that was copied. *)
Lemma copy_write_step s t src off w r k got :
  pc t = Copy (J_write src off) w r k got -> (forall d, ring_ok s d) -> thread_ok s t -> lenZ got < k ->
  let d := side_of (kind t) (J_write src off) in
  let b := nth (Z.to_nat (off + lenZ got)) src 0 in
  ring_facts cap (set_data d (copy_offset cap w k (lenZ got)) b s)
    (goto (Copy (J_write src off) w r k (got ++ [b])) t).
Proof.
  intros Hp Ho Ht Hlt d b. pose proof (t_ring _ _ _ Ht) as Hr. pose proof (t_wf _ _ _ Ht) as Hw.
  unfold thread_wf in Hw. unfold ring_facts in *. rewrite Hp in Hr, Hw. cbn [goto pc kind].
  destruct Hw as [Hoff _]. cbn in Hoff. destruct Hr as (H0 & Hle & _ & -> & Hsrc & Hcap & Hgot & Hh).
  fold d in Hcap, Hh |- *. destruct (Ho d) as [_ _ (win & [E Hwin] & _)].
  assert (lenZ (sent s d) = lenZ (received s d) + lenZ win) as E' by (by rewrite E, lenZ_app).
  pose proof (lenZ_nonneg got). pose proof (lenZ_nonneg win). pose proof (lenZ_nonneg (received s d)).
  rewrite copy_offset_mod by lia. rewrite lenZ_app. cbn [sent received set_data].
  change (lenZ [b]) with 1. repeat split; try lia.
  - apply take_next; [|done]. rewrite lookup_drop. unfold b, lenZ in *.
    replace (Z.to_nat (off + Z.of_nat (length got))) with (Z.to_nat off + length got)%nat by lia.
    destruct (nth_lookup_or_length src (Z.to_nat off + length got) 0); [done|lia].
  - apply holds_app.
    + apply holds_set; lia || done.
    + intros i x Hi. apply list_lookup_singleton_Some in Hi as [-> <-]. cbn [data set_data].
      rewrite Z.add_0_r. by rewrite !fn_lookup_insert.
Qed.

Lemma copy_read_step s t n b w r k got :
  pc t = Copy (J_read n b) w r k got -> (forall d, ring_ok s d) -> thread_ok s t -> lenZ got < k ->
  ring_facts cap s (goto (Copy (J_read n b) w r k
    (got ++ [data s (side_of (kind t) (J_read n b)) (copy_offset cap r k (lenZ got))])) t).
Proof.
  intros Hp Ho Ht Hlt. pose proof (t_ring _ _ _ Ht) as Hr. unfold ring_facts in *. rewrite Hp in Hr.
  cbn [goto pc kind]. set (d := side_of (kind t) (J_read n b)) in *.
  destruct Hr as (H0 & Hle & _ & -> & Hn & Hsent & Hgot). destruct (Ho d) as [_ _ (win & [E Hwin] & Hh)].
  assert (lenZ (sent s d) = lenZ (received s d) + lenZ win) as E' by (by rewrite E, lenZ_app).
  pose proof (lenZ_nonneg got). pose proof (lenZ_nonneg win). pose proof (lenZ_nonneg (received s d)).
  rewrite copy_offset_mod by lia. rewrite lenZ_app. change (lenZ [_]) with 1. repeat split; try lia.
  apply take_next; [|done]. rewrite E, drop_app_length.
  destruct (lookup_lt_is_Some_2 win (length got)) as [x Hx]; [unfold lenZ in *; lia|].
  rewrite Hx. f_equal. symmetry. by apply Hh.
Qed.

(** The positions are loaded: what may be copied. *)
Lemma loaded_facts s t j w again : (forall d, ring_ok s d) -> job_ok (kind t) j ->
  match j with
  | J_write _ _ => w = lenZ (sent s (side_of (kind t) j))
  | _ => lenZ (received s (side_of (kind t) j)) <= w <= lenZ (sent s (side_of (kind t) j))
  end ->
  ring_facts cap s (goto (loaded cap t j w (lenZ (received s (side_of (kind t) j))) again) t).
Proof.
  intros Ho Hj Hw. set (d := side_of (kind t) j) in *. destruct (Ho d) as [_ _ (win & [E Hwin] & _)].
  assert (lenZ (sent s d) = lenZ (received s d) + lenZ win) as E' by (by rewrite E, lenZ_app).
  pose proof (lenZ_nonneg win). pose proof (lenZ_nonneg (received s d)). unfold ring_facts.
  destruct j as [src off|n b|]; cbn in *; [| |done]; destruct (_ =? 0) eqn:Ez; eqbs; fold d; cbn.
  - unfold leave. by destruct (is_worker _).
  - change (lenZ []) with 0. repeat split; try lia. intros i x Hi. by rewrite lookup_nil in Hi.
  - done.
  - change (lenZ []) with 0. repeat split; lia.
Qed.

Lemma leave_facts s k n t : ring_facts cap s (goto (leave k n) t).
Proof. unfold leave. destruct (is_worker k); [done|]. by destruct n. Qed.

Lemma not_eos_facts s t j w again : ring_facts cap s (goto (not_eos t j w (lenZ (received s (side_of (kind t) j))) again) t).
Proof.
  unfold not_eos. destruct j as [src off|n [|]|]; try apply leave_facts. by destruct again.
Qed.

(** Most places of a thread know nothing of the rings. *)
Definition quiet (p : Pc) : bool :=
  match p with
  | Load_r _ _ | Check_closed _ _ _ _ | Check_claim _ _ _ _ _ | Reload_w _ _ | Copy _ _ _ _ _ | Publish _ _ _ _ _ => false
  | _ => true
  end.
Lemma quiet_facts s t : quiet (pc t) = true -> ring_facts cap s t.
Proof. unfold ring_facts. by destruct (pc t). Qed.
Lemma next_slot_quiet id t : quiet (pc (next_slot n_slots id t)) = true.
Proof. by destruct (next_slot_pc id t) as [->|[r ->]]. Qed.

Lemma ring_self q s t : thread_ok s t -> (in_body t = true -> forall d, ring_ok s d) ->
  ring_facts cap (exec q s t).1 (exec q s t).2.
Proof.
  intros Ht Hring. pose proof (t_wf _ _ _ Ht) as Hw. pose proof (t_ring _ _ _ Ht) as Hr.
  destruct t as [k sl p] eqn:Et. unfold thread_wf in Hw. unfold ring_facts in Hr. cbn in Hw, Hr.
  destruct p.
  all: try (apply quiet_facts; branches; done || apply next_slot_quiet).
  all: cbn in *; specialize (Hring eq_refl).
  - destruct (Hring (side_of k j)) as [Hlw _ (win & [E _] & _)]. destruct j; cbn; [done|..];
      rewrite Hlw, E, lenZ_app; pose proof (lenZ_nonneg win); lia.
  - destruct (Hring (side_of k j)) as [_ -> _]. destruct Hw as [Hj _]. by apply loaded_facts.
  - subst r. destruct (_ =? 0); [apply not_eos_facts|]. destruct (is_worker k); [apply leave_facts|done].
  - subst r. destruct (_ =? _); [apply leave_facts|apply not_eos_facts].
  - destruct Hw as (Hj & (n & b & ->) & _). destruct (Hring (side_of k (J_read n b))) as [-> _ (win & [E _] & _)].
    subst r. apply loaded_facts; [done..|]. cbn [kind]. rewrite E, lenZ_app. pose proof (lenZ_nonneg win). lia.
  - destruct (k0 <=? lenZ got) eqn:Ek; eqbs.
    + destruct Hr as (H0 & Hle & _ & Hj). cbn. repeat split; [done|done|lia|exact Hj].
    + destruct j as [src off|n b|]; [| |tauto].
      * by refine (copy_write_step s _ src off w r k0 got _ Hring Ht Ek).
      * by refine (copy_read_step s _ n b w r k0 got _ Hring Ht Ek).
Qed.

Lemma exec_self q s t : thread_ok s t -> slot_ok s -> (in_body t = true -> forall d, ring_ok s d) ->
  thread_ok (exec q s t).1 (exec q s t).2.
Proof.
  intros Ht Hs Hring. pose proof (t_locked _ _ _ Ht) as Hl. pose proof (t_owns _ _ _ Ht) as Ho. split.
  - by apply wf_step.
  - intros id Hid. destruct (locked_step q s t id Ht Hid) as [[H ->]|[_ H]]; [by apply Hl|done].
  - intros H. destruct (owns_step q s t Ht H) as [[H1 ->]|[_ H1]]; [by apply Ho|done].
  - intros H. by apply resetting_step.
  - intros l. by apply zeroed_step.
  - intros id todo. by apply todo_step.
  - intros c. by apply epoch_self.
  - by apply ring_self.
Qed.

Lemma thread_ok_locked s t id : thread_ok s t -> locked t = Some id -> ctl s SLOT_RESERVATION <> 0.
Proof.
  intros Ht Hid. rewrite (t_locked _ _ _ Ht _ Hid). pose proof (t_wf _ _ _ Ht) as Hw.
  destruct t as [k sl p]. unfold thread_wf, locked in *. cbn in *. destruct p, k; opened; simplify_eq/=; opened; done.
Qed.

(** Two threads stay apart. *)
Lemma apart_step q s t u : thread_ok s t -> thread_ok s u -> apart t u -> apart (exec q s t).2 u.
Proof.
  intros Ht Hu [Hl Ho]. split.
  - intros [[id Hid] [id' Hid']]. destruct (locked_step q s t id Ht Hid) as [[H _]|[H _]].
    + apply Hl. eauto.
    + by apply (thread_ok_locked s u id').
  - intros [H1 H2]. destruct (owns_step q s t Ht H1) as [[H _]|[H _]]; [by apply Ho|].
    by apply (t_owns _ _ _ Hu H2), (t_resetting _ _ _ Ht).
Qed.
Lemma apart_sym t u : apart t u -> apart u t.
Proof. unfold apart. tauto. Qed.

(** A thread that moves on to another slot brings nothing with it. *)
Lemma moves_on q s t : thread_wf t -> at_slot (exec q s t).2 <> at_slot t ->
  kind (exec q s t).2 = Client false /\ exists id, pc (exec q s t).2 = Open_cas id /\ id <> 0 /\ int32 id = id.
Proof.
  intros Hw. destruct t as [k sl p]. unfold thread_wf in Hw. cbn in Hw.
  destruct p; branches; try done; opened; intros Hn; rewrite next_slot_kind; split; try done;
    exists id; by rewrite (next_slot_moves id _ Hn).
Qed.

Lemma arrived_ok s t id : kind t = Client false -> pc t = Open_cas id -> id <> 0 -> int32 id = id -> thread_ok s t.
Proof.
  intros Hk Hp H1 H2. split; unfold thread_wf, locked, owns, resetting, in_body, ring_facts; rewrite Hp, ?Hk; try done.
Qed.

Lemma arrived_apart t u : kind t = Client false -> (exists id, pc t = Open_cas id) -> apart t u.
Proof.
  intros Hk [id Hp]. unfold apart, locked, owns. rewrite Hp, Hk. split; [by intros [[? ?] _]|by intros [? _]].
Qed.

(** ** The channel *)

Abbreviation channel_inv := (channel_inv cap).

Lemma slots_run i c n : slots (run_thread n_slots cap i c) n =
  if decide (n = at_slot (threads c i)) then (exec (claim_seq c) (slots c (at_slot (threads c i))) (threads c i)).1
  else slots c n.
Proof.
  cbn. case_decide as E; [subst; apply fn_lookup_insert|]. by apply fn_lookup_insert_ne.
Qed.
Lemma threads_run i c j : threads (run_thread n_slots cap i c) j =
  if decide (j = i) then (exec (claim_seq c) (slots c (at_slot (threads c i))) (threads c i)).2 else threads c j.
Proof.
  cbn. case_decide as E; [subst; apply fn_lookup_insert|]. by apply fn_lookup_insert_ne.
Qed.

(** The rings of a slot where some thread is in its [try] block are as they should be. *)
Lemma busy_rings c i : channel_inv c -> in_body (threads c i) = true ->
  forall d, ring_ok (slots c (at_slot (threads c i))) d.
Proof.
  intros Hc Hb. apply (ci_rings _ _ Hc). intros j Hj. destruct (resetting (threads c j)) eqn:Hr; [|done].
  destruct (decide (i = j)) as [<-|N].
  - unfold resetting, in_body in *. by destruct (pc _).
  - pose proof (ci_threads _ _ Hc j) as Hjok. rewrite Hj in Hjok.
    pose proof (resetting_alone cap _ _ _ Hjok (ci_threads _ _ Hc i)
      (apart_sym _ _ (ci_apart _ _ Hc i j N (eq_sym Hj))) Hr). congruence.
Qed.

Lemma run_threads_ok i c j : channel_inv c ->
  let c' := run_thread n_slots cap i c in thread_ok (slots c' (at_slot (threads c' j))) (threads c' j).
Proof.
  intros Hc c'. pose proof (ci_threads _ _ Hc i) as Hi. unfold c'. rewrite threads_run, slots_run.
  destruct (decide (j = i)) as [->|N].
  - destruct (decide _) as [E|E].
    + apply exec_self; [done|apply (ci_slots _ _ Hc)|]. intros Hb. by apply busy_rings.
    + destruct (moves_on _ _ _ (t_wf _ _ _ Hi) E) as (Hk & id & Hp & H1 & H2). by apply (arrived_ok _ _ id).
  - destruct (decide _) as [E|E]; [|apply Hc]. pose proof (ci_threads _ _ Hc j) as Hj. rewrite E in Hj.
    apply (thread_frame cap cap_pos (slots c (at_slot (threads c i))) (threads c i)); try done.
    + apply (ci_apart _ _ Hc); [done|by rewrite E].
    + by apply exec_effect.
Qed.

Lemma run_apart i c j k : channel_inv c -> let c' := run_thread n_slots cap i c in
  j <> k -> at_slot (threads c' j) = at_slot (threads c' k) -> apart (threads c' j) (threads c' k).
Proof.
  intros Hc c'.
  assert (forall k, k <> i -> at_slot (threads c' i) = at_slot (threads c' k) -> apart (threads c' i) (threads c' k)) as Hi.
  { clear k. intros k N. unfold c'. rewrite !threads_run, decide_True by done. rewrite decide_False by done. intros E.
    pose proof (ci_threads _ _ Hc i) as Hi. pose proof (ci_threads _ _ Hc k) as Hk.
    set (t' := (exec _ _ _).2) in *. destruct (decide (at_slot t' = at_slot (threads c i))) as [E'|E'].
    - rewrite <- E, E' in Hk. apply apart_step; [done|done|].
      apply (ci_apart _ _ Hc); [done|by rewrite <- E, E'].
    - destruct (moves_on _ _ _ (t_wf _ _ _ Hi) E') as (Hkd & id & Hp & _). apply arrived_apart; eauto. }
  intros N E. destruct (decide (j = i)) as [->|N1]; [by apply Hi|].
  destruct (decide (k = i)) as [->|N2]; [by apply apart_sym, Hi|].
  revert E. unfold c'. rewrite !threads_run, !decide_False by done. by apply Hc.
Qed.

Lemma run_slots_ok i c n : channel_inv c -> slot_ok (slots (run_thread n_slots cap i c) n).
Proof.
  intros Hc. rewrite slots_run. case_decide; [|apply Hc].
  apply (flight_step cap cap_pos (slots c (at_slot (threads c i))) (threads c i)); try apply Hc.
  apply exec_effect, Hc.
Qed.

(** A thread that stops resetting its slot has just published it. *)
Lemma reset_ends q s t : thread_wf t -> resetting t = true -> resetting (exec q s t).2 = false ->
  exists id, pc t = Open_publish id.
Proof.
  intros Hw Hr. destruct t as [k sl p]. unfold thread_wf, resetting in *. cbn in *. destruct p; try done; eauto.
  by destruct todo.
Qed.

Lemma run_rings i c n : channel_inv c -> let c' := run_thread n_slots cap i c in
  (forall d, lenZ (sent (slots c' n) d) < 2 ^ 31) ->
  (forall j, at_slot (threads c' j) = n -> resetting (threads c' j) = false) -> forall d, ring_ok (slots c' n) d.
Proof.
  intros Hc c' Hb Hr d. pose proof (ci_threads _ _ Hc i) as Hi.
  pose proof (Hr i) as Hri. unfold c' in Hri. rewrite threads_run, decide_True in Hri by done.
  assert (forall j, j <> i -> at_slot (threads c j) = n -> resetting (threads c j) = false) as Hothers.
  { intros j N E. specialize (Hr j). unfold c' in Hr. rewrite threads_run, decide_False in Hr by done. by apply Hr. }
  specialize (Hb d). unfold c' in Hb |- *. rewrite slots_run in Hb |- *. destruct (decide _) as [En|En].
  - subst n. set (s := slots c (at_slot (threads c i))) in *. set (t := threads c i) in *.
    pose proof (exec_effect n_slots cap (claim_seq c) s t Hi) as He.
    destruct (resetting t) eqn:Ert.
    + assert (at_slot (exec (claim_seq c) s t).2 = at_slot t) as Es.
      { destruct (decide (at_slot (exec (claim_seq c) s t).2 = at_slot t)) as [|N]; [done|].
        exfalso. clear - Ert N Hi. destruct (moves_on _ _ _ (t_wf _ _ _ Hi) N) as (_ & id & Hp & _).
        revert N. destruct t as [k sl p]. unfold resetting in Ert. cbn in *. destruct p; try done. by destruct todo. }
      destruct (reset_ends _ _ _ (t_wf _ _ _ Hi) Ert (Hri Es)) as [id Hp].
      pose proof (opened_rings cap cap_pos s t id Hi Hp d) as Hop. destruct t as [k sl p]. cbn in Hp. subst p. exact Hop.
    + apply (ring_step cap cap_pos s t); try done. apply (ci_rings _ _ Hc). intros j Hj.
      destruct (decide (j = i)) as [->|N]; [done|by apply Hothers].
  - apply (ci_rings _ _ Hc). intros j Hj. destruct (decide (j = i)) as [->|N]; [by subst n|by apply Hothers].
Qed.

Lemma run_inv i c : channel_inv c -> bounded (run_thread n_slots cap i c) -> channel_inv (run_thread n_slots cap i c).
Proof.
  intros Hc Hb. split.
  - intros j. by apply run_threads_ok.
  - intros j k. by apply run_apart.
  - intros n. by apply run_slots_ok.
  - intros n. apply run_rings; [done|]. intros d. apply Hb.
Qed.

(** *** Calls *)

Lemma valid_job_ok k j : valid_job k j = true -> job_ok k j.
Proof.
  destruct j as [src off|n b|]; cbn; [|intros [H1 H2]%andb_true_iff|done].
  - intros H%Z.eqb_eq. pose proof (lenZ_nonneg src). lia.
  - eqbs. split; [done|]. intros ->. by destruct (is_worker k).
Qed.
Lemma is_int32_eq c : is_int32 c = true -> int32 c = c.
Proof. apply Z.eqb_eq. Qed.

(** A thread that starts a call keeps the slot it owns, and no lock. *)
Lemma start_marks t call t' : start n_slots t call = Some t' ->
  thread_wf t' /\ locked t' = None /\ resetting t = false /\ resetting t' = false /\ quiet (pc t') = true /\ in_body t' = false /\
  (owns t' = true -> owns t = true /\ at_slot t' = at_slot t).
Proof.
  unfold start. destruct t as [k sl p]. cbn. destruct p; try done.
  intros H. destruct k as [[]|c], call as [|j| | |n c' j|n c' code detail]; try done; cbn in H.
  all: repeat match type of H with (if ?b then _ else _) = _ => destruct b eqn:? end; simplify_eq/=.
  all: repeat match goal with H : _ && _ = true |- _ => apply andb_true_iff in H as [? ?] end.
  all: repeat match goal with H : valid_job _ _ = true |- _ => apply valid_job_ok in H
    | H : is_int32 _ = true |- _ => apply is_int32_eq in H end.
  all: split; [unfold thread_wf; cbn; try done|split_and!; try done].
  all: split; [done|repeat constructor].
Qed.

Lemma call_inv i call t c : channel_inv c -> start n_slots (threads c i) call = Some t -> channel_inv (set_thread i t c).
Proof.
  intros Hc Hs. destruct (start_marks _ _ _ Hs) as (Hw & Hl & Hr0 & Hr & Hq & Hb & Ho).
  assert (forall j, threads (set_thread i t c) j = if decide (j = i) then t else threads c j) as Ht.
  { intros j. cbn. case_decide as E; [subst; apply fn_lookup_insert|by apply fn_lookup_insert_ne]. }
  assert (forall k, k <> i -> at_slot t = at_slot (threads c k) -> apart t (threads c k)) as Hi.
  { intros k N E. split; [intros [[id Hid] _]; congruence|]. intros [H1 H2]. destruct (Ho H1) as [H3 H4].
    destruct (ci_apart _ _ Hc i k (not_eq_sym N) ltac:(congruence)) as [_ H5]. by apply H5. }
  split.
  - intros j. rewrite Ht. destruct (decide (j = i)) as [->|N]; [|apply Hc]. cbn [slots set_thread].
    split; try congruence.
    + intros H. destruct (Ho H) as [H1 ->]. by apply (t_owns _ _ _ (ci_threads _ _ Hc i)).
    + intros id todo Hp. unfold resetting in Hr. by rewrite Hp in Hr.
    + by apply quiet_facts.
  - intros j k N. rewrite !Ht. destruct (decide (j = i)) as [->|N1], (decide (k = i)) as [->|N2]; try done.
    + by apply Hi.
    + intros E. by apply apart_sym, Hi.
    + by apply Hc.
  - apply Hc.
  - intros n Hn d. apply (ci_rings _ _ Hc n). intros j Hj. specialize (Hn j). rewrite Ht in Hn.
    destruct (decide (j = i)) as [->|N]; [done|by apply Hn].
Qed.

(** ** What a channel can reach *)

Inductive reachable : Channel -> Prop :=
| reach_start : reachable initial_channel
| reach_step c c' : reachable c -> channel_step n_slots cap c c' -> bounded c' -> reachable c'.

Lemma initial_inv : channel_inv initial_channel.
Proof.
  split.
  - intros i. split; try done.
  - intros i j N _. split; [by intros [[id Hid] _]|by intros [? _]].
  - intros n. split; [done|]. intros d. exists []. split; [done|]. unfold lenZ. cbn. lia.
  - intros n _ d. split; [by destruct d..|]. exists []. split; [split; [done|]|].
    + unfold lenZ. cbn. lia.
    + intros i x Hi. by rewrite lookup_nil in Hi.
Qed.

Lemma reachable_inv c : reachable c -> channel_inv c.
Proof.
  induction 1 as [|c c' _ IH Hs Hb]; [apply initial_inv|]. destruct Hs as [i c|i call t c Hs].
  - by apply run_inv.
  - by apply (call_inv i call).
Qed.
End Order.
