(* ===== verification/SabFacts.v ===== *)
(** * SabFacts: the promises of the shared memory transport

    What [reachable] channels guarantee: the streams of a slot arrive in order, a
    worker whose claim is over moves nothing, a slot has one client.  The slots of a
    channel do not overlap.  The last section shows schedules in which the
    transport does less than its comments say. *)
From S2P Require Import Prelude WasmModule SabRing SabChannel SabOrder.
From stdpp Require Import base tactics list functions.
From Stdlib Require Import ZArith Lia.
Open Scope Z_scope.

(** ** Schedules *)

(** The positions of a slot fit in 31 bits. *)
Definition fits (s : Slot) : bool := (lenZ (sent s C2W) <? 2 ^ 31) && (lenZ (sent s W2C) <? 2 ^ 31).

(** [play], as long as the positions fit. *)
Fixpoint run_fitting (n_slots : nat) (cap : Z) (i n : nat) (c : Channel) : option Channel :=
  match n with
  | O => Some c
  | S n' => let c' := run_thread n_slots cap i c in
            if fits (slots c' (at_slot (threads c i))) then run_fitting n_slots cap i n' c' else None
  end.
Fixpoint play_fitting (n_slots : nat) (cap : Z) (l : list Action) (c : Channel) : option Channel :=
  match l with
  | [] => Some c
  | A_call i call :: l' =>
      t ← start n_slots (threads c i) call; play_fitting n_slots cap l' (set_thread i t c)
  | A_run i n :: l' => c' ← run_fitting n_slots cap i n c; play_fitting n_slots cap l' c'
  end.
(** Where a schedule leads. *)
Definition final (n_slots : nat) (cap : Z) (l : list Action) : Channel :=
  default initial_channel (play_fitting n_slots cap l initial_channel).

Section Schedules.
Context (n_slots : nat) (cap : Z).

Lemma reachable_bounded c : reachable n_slots cap c -> bounded c.
Proof. intros [|c0 c' _ _ Hb]; [|done]. intros n d. unfold lenZ. cbn. lia. Qed.

Lemma run_fitting_reachable i n c c' : reachable n_slots cap c -> run_fitting n_slots cap i n c = Some c' ->
  reachable n_slots cap c'.
Proof.
  revert c. induction n as [|n IH]; intros c Hc H; cbn [run_fitting] in H; [by simplify_eq|].
  cbv zeta in H.
  match type of H with (if fits ?s then _ else _) = _ => destruct (fits s) eqn:E end; [|done].
  apply IH in H; [done|]. eapply reach_step; [done|constructor|]. intros m d.
  pose proof (reachable_bounded c Hc m d). rewrite slots_run. case_decide as Em; [|done].
  rewrite slots_run, decide_True in E by done. unfold fits in E. apply andb_true_iff in E as [E1 E2]. destruct d; lia.
Qed.

Lemma play_fitting_reachable l c c' : reachable n_slots cap c -> play_fitting n_slots cap l c = Some c' ->
  reachable n_slots cap c'.
Proof.
  revert c. induction l as [|[i call|i n] l IH]; intros c Hc H; simplify_eq/=; [done|..].
  - apply bind_Some in H as (t & Hs & H). apply IH in H; [done|].
    eapply reach_step; [done|by eapply cs_call|]. exact (reachable_bounded c Hc).
  - apply bind_Some in H as (c1 & Hr & H). apply IH in H; [done|]. by eapply run_fitting_reachable.
Qed.

Lemma final_reachable l : reachable n_slots cap (final n_slots cap l).
Proof.
  unfold final. destruct (play_fitting _ _ _ _) eqn:E; [|constructor]. cbn.
  eapply play_fitting_reachable; [constructor|done].
Qed.
End Schedules.

(** ** The streams *)

(** C7: Whatever the interleaving of clients and workers, and whatever claims stale
    workers still serve, in every ring of every slot what was received since the
    slot was opened is a prefix of what was sent, and at most a ring is in flight. *)
Theorem streams_arrive_in_order n_slots cap c n d : 0 < cap -> reachable n_slots cap c ->
  exists rest, sent (slots c n) d = received (slots c n) d ++ rest /\ lenZ rest <= cap.
Proof. intros Hcap Hc. apply (s_flight _ _ (ci_slots _ _ (reachable_inv n_slots cap Hcap c Hc) n)). Qed.

(** Five bytes through a ring of four; the writer is in the way of itself until the reader comes. *)
Definition five_bytes : list Action :=
  [A_call 0 C_open; A_run 0 40; A_call 0 (C_job (J_write [1; 2; 3; 4; 5] 0)); A_run 0 30;
   A_call 1 (C_serve 0 1 (J_read 3 false)); A_run 1 12; A_run 0 30].

Lemma streams_arrive_in_order_witness :
  let c := final 2 4 five_bytes in
  sent (slots c 0%nat) C2W = [1; 2; 3; 4; 5] /\ received (slots c 0%nat) C2W = [1; 2; 3] /\
  exists rest, sent (slots c 0%nat) C2W = received (slots c 0%nat) C2W ++ rest /\ lenZ rest <= 4.
Proof.
  split; [vm_compute; reflexivity|]. split; [vm_compute; reflexivity|].
  apply (streams_arrive_in_order 2 4); [lia|]. apply final_reachable.
Defined.

(** ** Claims *)

(** C8: A worker inside an operation, past its check of the claim, serves the claim
    the slot was last opened under; it holds the reservation lane with that claim,
    and no other thread is opening the slot or inside a worker operation there.  So
    a worker whose claim is over never touches the streams of the next claim. *)
Theorem stale_workers_are_locked_out n_slots cap c i claim : 0 < cap -> reachable n_slots cap c ->
  kind (threads c i) = Worker claim -> in_body (threads c i) = true ->
  let s := slots c (at_slot (threads c i)) in
  epoch s = claim /\ ctl s SLOT_RESERVATION = claim /\
  forall j, j <> i -> at_slot (threads c j) = at_slot (threads c i) -> locked (threads c j) = None.
Proof.
  intros Hcap Hc Hk Hb s. pose proof (reachable_inv n_slots cap Hcap c Hc) as Hinv.
  pose proof (ci_threads _ _ Hinv i) as Hi.
  destruct (in_body_role _ (t_wf _ _ _ Hi) Hb) as [(Hk' & _)|(c' & Hk' & Hl)]; [congruence|].
  assert (c' = claim) as -> by congruence. split; [by apply (t_epoch _ _ _ Hi)|]. split; [by apply (t_locked _ _ _ Hi)|].
  intros j N E. destruct (locked (threads c j)) eqn:Ej; [|done].
  destruct (ci_apart _ _ Hinv i j (not_eq_sym N) (eq_sym E)) as [H _]. exfalso. apply H. eauto.
Qed.

(** The first claim is released while its worker holds a copy in hand; the slot opens again once it is done. *)
Definition reopened : list Action :=
  [A_call 0 C_open; A_run 0 40; A_call 0 (C_job (J_write [1; 2] 0)); A_run 0 30;
   A_call 1 (C_serve 0 1 (J_read 2 false)); A_run 1 6; A_call 0 C_release; A_run 0 1].

Lemma stale_workers_are_locked_out_witness :
  let c := final 1 4 reopened in
  ctl (slots c 0%nat) SLOT_STATE = 0 /\ epoch (slots c 0%nat) = 1 /\ ctl (slots c 0%nat) SLOT_RESERVATION = 1 /\
  locked (threads c 0%nat) = None.
Proof.
  pose proof (stale_workers_are_locked_out 1 4 (final 1 4 reopened) 1 1 ltac:(lia) (final_reachable 1 4 reopened)
    ltac:(vm_compute; reflexivity) ltac:(vm_compute; reflexivity)) as (H1 & H2 & H3).
  split; [vm_compute; reflexivity|]. split; [exact H1|]. split; [exact H2|].
  apply (H3 0%nat); [done|vm_compute; reflexivity].
Defined.

(** A slot has one client: two threads never own the same slot, so the two ends
    of its rings that belong to the client have one user each. *)
Theorem slots_have_one_client n_slots cap c i j : 0 < cap -> reachable n_slots cap c -> i <> j ->
  owns (threads c i) = true -> owns (threads c j) = true ->
  at_slot (threads c i) <> at_slot (threads c j).
Proof.
  intros Hcap Hc N Hi Hj E. destruct (ci_apart _ _ (reachable_inv n_slots cap Hcap c Hc) i j N E) as [_ H]. by apply H.
Qed.

Definition two_clients : list Action := [A_call 0 C_open; A_run 0 2; A_call 1 C_open; A_run 1 40; A_run 0 40].

Lemma slots_have_one_client_witness :
  let c := final 2 4 two_clients in
  owns (threads c 0%nat) = true /\ owns (threads c 1%nat) = true /\ at_slot (threads c 0%nat) <> at_slot (threads c 1%nat).
Proof.
  split; [vm_compute; reflexivity|]. split; [vm_compute; reflexivity|].
  apply (slots_have_one_client 2 4); [lia|apply final_reachable|lia|vm_compute; reflexivity..].
Defined.

(** ** The layout *)

(** What a slot consists of. *)
Inductive Part := P_lane (l : Lane) | P_ring (d : Side).
#[export] Instance Part_eq_dec : EqDecision Part.
Proof. solve_decision. Defined.

Definition part_start (base : Z) (hdr : Header) (slot : Z) (p : Part) : Z :=
  match p with P_lane l => lane_offset base hdr slot l | P_ring d => data_offset base hdr slot d end.
Definition part_size (cap : Z) (p : Part) : Z := match p with P_lane _ => 4 | P_ring _ => cap end.

Lemma alignUp_64 n : 0 <= n -> n + 63 < 2 ^ 31 -> alignUp n 64 = 64 * ((n + 63) / 64).
Proof.
  intros H0 H1. unfold alignUp. replace (64 - 1) with (Z.ones 6) by done. rewrite (int32_small (Z.ones 6)) by (change (Z.ones 6) with 63; lia).
  rewrite (int32_small (n + Z.ones 6)) by (change (Z.ones 6) with 63; lia). rewrite <- Z.ldiff_land, Z.ldiff_ones_r, Z.shiftl_mul_pow2, Z.shiftr_div_pow2 by lia.
  change (Z.ones 6) with 63. pose proof (Z.div_mod (n + 63) 64). pose proof (Z.mod_pos_bound (n + 63) 64).
  change (2 ^ 6) with 64. rewrite int32_small by lia. lia.
Qed.

Lemma slotStride_spec cap : 0 < cap -> 2 * cap + 127 < 2 ^ 31 ->
  slotStride cap mod 64 = 0 /\ 64 + 2 * cap <= slotStride cap < 2 ^ 31.
Proof.
  intros H0 H1. unfold slotStride, SLOT_CONTROL_BYTES. rewrite alignUp_64 by lia.
  pose proof (Z.div_mod (64 + 2 * cap + 63) 64). pose proof (Z.mod_pos_bound (64 + 2 * cap + 63) 64).
  split; [|lia]. rewrite Z.mul_comm. apply Z.mod_mul. lia.
Qed.

(** C30: The control lanes and the two rings of the slots of a channel are disjoint
    and lie between the header and [channelBytes]; while the whole channel lies below
    2^31, the 32-bit index the code computes for a control block is the block's word. *)
Theorem channel_parts_do_not_overlap n cap base s p s' p' :
  0 < cap -> 2 * cap + 127 < 2 ^ 31 -> 0 <= base -> base mod 4 = 0 -> 0 <= s < n -> 0 <= s' < n -> (s, p) <> (s', p') ->
  let hdr := initial_header n cap in
  (part_start base hdr s p + part_size cap p <= part_start base hdr s' p' \/
   part_start base hdr s' p' + part_size cap p' <= part_start base hdr s p) /\
  base + HEADER_BYTES <= part_start base hdr s p /\ part_start base hdr s p + part_size cap p <= base + channelBytes n cap /\
  (base + channelBytes n cap <= 2 ^ 31 -> 4 * ctl_index base hdr s = slotBase base hdr s).
Proof.
  intros Hc0 Hc1 Hb Hb4 Hs Hs' Hne hdr. destruct (slotStride_spec cap Hc0 Hc1) as [Hm [Hst Hst2]].
  assert (ringCap hdr = cap) as Hcap by done.
  assert (forall l, 0 <= lane_index l <= 10) as Hl by (intros []; cbn; lia).
  assert (forall l l', lane_index l = lane_index l' -> l = l') as Hinj by (intros [] []; cbn; done || lia).
  assert (forall s p, slotBase base hdr s <= part_start base hdr s p /\
    part_start base hdr s p + part_size cap p <= slotBase base hdr s + slotStride cap) as Hin.
  { intros s0 [l|[]]; unfold part_start, part_size, lane_offset, data_offset, SLOT_CONTROL_BYTES; rewrite ?Hcap; [specialize (Hl l)|..]; lia. }
  assert (slotBase base hdr s = base + 64 + s * slotStride cap) as Es by done.
  assert (slotBase base hdr s' = base + 64 + s' * slotStride cap) as Es' by done.
  split; [|split; [|split]].
  - destruct (Z.lt_trichotomy s s') as [L|[<-|L]].
    + left. pose proof (Hin s p). pose proof (Hin s' p'). nia.
    + assert (p <> p') as N by congruence.
      destruct p as [l|d], p' as [l'|d']; unfold part_start, part_size, lane_offset, data_offset, SLOT_CONTROL_BYTES; rewrite ?Hcap; cbn [part_size].
      * assert (lane_index l <> lane_index l') by (intros E; apply N; f_equal; auto). lia.
      * specialize (Hl l). destruct d'; lia.
      * specialize (Hl l'). destruct d; lia.
      * destruct d, d'; lia || done.
    + right. pose proof (Hin s p). pose proof (Hin s' p'). nia.
  - pose proof (Hin s p). unfold HEADER_BYTES. nia.
  - pose proof (Hin s p). unfold channelBytes, HEADER_BYTES. nia.
  - intros Hhi. unfold ctl_index. unfold channelBytes, HEADER_BYTES in Hhi.
    rewrite int32_small by nia. rewrite Z.shiftr_div_pow2 by lia. change (2 ^ 2) with 4.
    assert ((base + 64 + s * slotStride cap) mod 4 = 0) as E4.
    { apply Z.mod_divide; [lia|]. apply Z.mod_divide in Hb4; [|lia]. apply Z.mod_divide in Hm; [|lia].
      destruct Hb4 as [x ->], Hm as [y ->]. exists (x + 16 + s * y * 16). lia. }
    rewrite Es. pose proof (Z.div_mod (base + 64 + s * slotStride cap) 4). lia.
Qed.

Lemma channel_parts_do_not_overlap_witness :
  let hdr := initial_header 4 65536 in
  part_start 1024 hdr 1 (P_ring C2W) + 65536 <= part_start 1024 hdr 1 (P_ring W2C) /\ 4 * ctl_index 1024 hdr 1 = slotBase 1024 hdr 1.
Proof.
  pose proof (channel_parts_do_not_overlap 4 65536 1024 1 (P_ring C2W) 1 (P_ring W2C)
    ltac:(lia) ltac:(vm_compute; reflexivity) ltac:(lia) ltac:(reflexivity) ltac:(lia) ltac:(lia) ltac:(discriminate)) as (H & _ & _ & H4).
  split; [|apply H4; vm_compute; discriminate].
  vm_compute. discriminate.
Defined.

(** A channel past 2^31 is out of reach: the index of its control blocks is negative. *)
Lemma high_channels_have_no_index : ctl_index (2 ^ 31) (initial_header 4 65536) 0 = - 536870896.
Proof. vm_compute. reflexivity. Qed.

(** ** Where the transport does less than it says *)

(** [ringRead] loads the write position before it looks at the closed lane. *)
Definition closing_late : list Action :=
  [A_call 0 C_open; A_run 0 40; A_call 1 (C_serve 0 1 (J_read 4 false)); A_run 1 5;
   A_call 0 (C_job (J_write [7] 0)); A_run 0 30; A_call 0 C_eos; A_run 0 2; A_run 1 5].

(** A reader that found the ring empty, and looks at the closed lane after the writer
    wrote a byte and closed, reports the end of the stream with the byte unread. *)
Lemma end_of_stream_may_come_early : exists c, reachable 1 4 c /\
  pc (threads c 1%nat) = Done 0 [] /\ sent (slots c 0%nat) C2W = [7] /\ received (slots c 0%nat) C2W = [] /\
  ctl (slots c 0%nat) C2W_CLOSED = 1.
Proof.
  exists (final 1 4 closing_late). split; [apply final_reachable|]. vm_compute. repeat split.
Qed.

(** [workerCloseError] checks no claim: it runs for claim 1 after the worker of claim 2 has closed. *)
Definition error_late : list Action :=
  [A_call 0 C_open; A_run 0 40; A_call 0 C_release; A_run 0 1; A_call 0 C_open; A_run 0 40;
   A_call 1 (C_serve 0 2 J_close); A_run 1 10; A_call 2 (C_error 0 1 5 6); A_run 2 5;
   A_call 0 (C_job (J_read 4 true)); A_run 0 20].

(** The close of claim 2 is overwritten, and the client that reads is told to try again. *)
Lemma a_stale_error_undoes_a_close : exists c, reachable 1 4 c /\
  pc (threads c 1%nat) = Done 1 [] /\ ctl (slots c 0%nat) SLOT_STATE = 2 /\ ctl (slots c 0%nat) W2C_CLOSED = 1 /\
  pc (threads c 0%nat) = Done (-2) [].
Proof.
  exists (final 1 4 error_late). split; [apply final_reachable|]. vm_compute. repeat split.
Qed.

(** A worker of claim 1, which is over, reports an error while the error of claim 2 is there. *)
Definition two_errors : list Action :=
  [A_call 0 C_open; A_run 0 40; A_call 0 C_release; A_run 0 1; A_call 0 C_open; A_run 0 40;
   A_call 1 (C_error 0 2 7 8); A_run 1 5; A_call 2 (C_error 0 1 5 6); A_run 2 1].

(** The claim lanes hold while the code is replaced: the client of claim 2 reads the code of one
    error with the detail of another, though its checks before and after agree. *)
Lemma terminal_errors_may_mix : exists c, reachable 1 4 c /\
  stubTerminalError true (slots c 0%nat) = Some (5, 8) /\ stubReadWithTerminal true (slots c 0%nat) 0 = -3.
Proof.
  exists (final 1 4 two_errors). split; [apply final_reachable|]. vm_compute. split; reflexivity.
Qed.

(** A slot through which 2^31 - 1 bytes went under one claim. *)
Definition worn_channel : Channel :=
  {| claim_seq := 1;
     slots := fun _ => {| ctl := fun l => match l with SLOT_STATE => 1 | C2W_WRITE | C2W_READ => 2 ^ 31 - 1 | _ => 0 end;
                          data := fun _ _ => 0; sent := fun _ => []; received := fun _ => []; epoch := 1 |};
     threads := fun i => match i with
       | O => {| kind := Client true; at_slot := 0; pc := Head (J_write [5] 0) |}
       | _ => {| kind := Worker 1; at_slot := 0; pc := Head (J_read 4 false) |}
       end |}.

(** The next byte makes the write position negative, and the read that follows returns a negative count. *)
Lemma positions_wrap :
  let c := Nat.iter 20 (run_thread 1 4 1) (Nat.iter 20 (run_thread 1 4 0) worn_channel) in
  ctl (slots c 0%nat) C2W_WRITE = - 2 ^ 31 /\ pc (threads c 0%nat) = Done 1 [] /\
  pc (threads c 1%nat) = Done (- 4294967295) [].
Proof. vm_compute. repeat split. Qed.
