(* ===== verification/SabErrors.v ===== *)
(** * SabErrors: the terminal errors of a slot, load by load

    [stubTerminalError] ([lib/vgi-sab-ring.js]), [vgi_wasm_slot_terminal_error] and
    the end of [vgi_wasm_slot_read] ([lib/js-stubs.js]) read the terminal lanes of a
    slot without a reservation, while the threads of [SabRing] store to them.  Here
    every load is a step of a reader of its own, next to the steps of the channel.

    Readers are numbered, and each is one call.  The file shows what the second look
    at the state is good for: a snapshot that is not rejected is the error that was
    reported for its claim, whatever is released and opened meanwhile, as long as a
    worker reports an error while its claim is open.  [SabFacts.terminal_errors_may_mix]
    shows that it is not enough without the last condition. *)
From S2P Require Import Prelude WasmModule SabRing SabChannel SabOrder SabFacts.
From stdpp Require Import base tactics list relations functions.
From Stdlib Require Import ZArith Lia.
Open Scope Z_scope.

(** ** Readers *)

(** Where a reader is: in [stubTerminalError] ([T_]), or after the [ringRead] of
    [vgi_wasm_slot_read] that returned 0 ([A_]).  The claim of a finished call is the one it
    found; 0 when it did not get that far. *)
Inductive Rpc :=
| T_features
| T_claim
| T_token (claim : Z)
| T_code (claim : Z)
| T_detail (claim code : Z)
| T_state (claim code detail : Z)
| T_again (claim code detail : Z)
| T_done (claim : Z) (r : option (Z * Z))
| A_features
| A_claim
| A_token
| A_state (token : Z)
| A_done (claim result : Z).

(** After the [ringRead] of [vgi_wasm_slot_read] that returned 0. *)
Definition announce_step (features : bool) (s : Slot) (p : Rpc) : Rpc :=
  match p with
  | A_features => if features then A_claim else A_done 0 0
  | A_claim => if ctl s SLOT_STATE =? 0 then A_done 0 0 else A_token
  | A_token => A_state (ctl s TERMINAL_CLAIM)
  | A_state token => if token =? ctl s SLOT_STATE then A_done token SAB_TERMINAL_ERROR else A_done 0 0
  | _ => p
  end.

(** One load of a slot. *)
Definition read_step (features : bool) (s : Slot) (p : Rpc) : Rpc :=
  match p with
  | T_features => if features then T_claim else T_done 0 None
  | T_claim => if ctl s SLOT_STATE =? 0 then T_done 0 None else T_token (ctl s SLOT_STATE)
  | T_token c => if ctl s TERMINAL_CLAIM =? c then T_code c else T_done c None
  | T_code c => T_detail c (ctl s TERMINAL_CODE)
  | T_detail c code => T_state c code (ctl s TERMINAL_DETAIL)
  | T_state c code detail => if ctl s SLOT_STATE =? c then T_again c code detail else T_done c None
  | T_again c code detail => T_done c (if ctl s TERMINAL_CLAIM =? c then Some (code, detail) else None)
  | _ => announce_step features s p
  end.

Record Reader := { r_slot : nat; r_pc : Rpc }.

(** A channel and the calls that read its terminal lanes. *)
Record Observed := { channel : Channel; readers : nat -> option Reader }.

Definition with_channel (c : Channel) (o : Observed) : Observed := {| channel := c; readers := readers o |}.
Definition with_reader (k : nat) (r : Reader) (o : Observed) : Observed :=
  {| channel := channel o; readers := <[k := Some r]> (readers o) |}.

Section Readers.
Context (n_slots : nat) (cap : Z) (features : bool).

(** The error reported for a claim. *)
Context (errs : Z -> option (Z * Z)).

(** A worker stores to the lanes of an error only while its claim is open. *)
Definition in_time (c : Channel) (i : nat) : bool :=
  match pc (threads c i), kind (threads c i) with
  | Error_stores (_ :: _), Worker claim => ctl (slots c (at_slot (threads c i))) SLOT_STATE =? claim
  | _, _ => true
  end.

(** An error is reported as [errs] says. *)
Definition as_reported (call : Call) : bool :=
  match call with
  | C_error _ claim code detail =>
      negb (claim =? 0) && is_int32 code && is_int32 detail && bool_decide (errs claim = Some (code, detail))
  | _ => true
  end.

Definition read_once (k : nat) (o : Observed) : Observed :=
  match readers o k with
  | Some r => with_reader k {| r_slot := r_slot r; r_pc := read_step features (slots (channel o) (r_slot r)) (r_pc r) |} o
  | None => o
  end.

(** The steps: of a thread, as long as positions and claims fit in a lane; a call; a new reader; a load. *)
Inductive observed_step : Observed -> Observed -> Prop :=
| os_run i o : in_time (channel o) i = true ->
    bounded (run_thread n_slots cap i (channel o)) -> 0 <= claim_seq (run_thread n_slots cap i (channel o)) ->
    observed_step o (with_channel (run_thread n_slots cap i (channel o)) o)
| os_call i call t o : start n_slots (threads (channel o) i) call = Some t -> as_reported call = true ->
    observed_step o (with_channel (set_thread i t (channel o)) o)
| os_new k n p o : readers o k = None -> (p = T_features \/ p = A_features) ->
    observed_step o (with_reader k {| r_slot := n; r_pc := p |} o)
| os_read k o : observed_step o (read_once k o).

Definition initial_observed : Observed := {| channel := initial_channel; readers := fun _ => None |}.
Definition observed (o : Observed) : Prop := rtc observed_step initial_observed o.

(** ** Claims are used once *)

(** The claim a thread has drawn and not published. *)
Definition pending (t : Thread) : option Z :=
  match pc t with
  | Open_cas id | Open_check id | Open_undo id | Open_reset id _ | Open_publish id => Some id
  | _ => None
  end.

(** A claim that was published, or dropped: no slot will be opened under it again. *)
Definition spent (c : Channel) (id : Z) : Prop :=
  0 < id <= claim_seq c /\ forall i, pending (threads c i) <> Some id.

Record claims_ok (c : Channel) : Prop := {
  co_seq : 0 <= claim_seq c < 2 ^ 31;
  co_range i id : pending (threads c i) = Some id -> 0 < id <= claim_seq c;
  co_distinct i j id : i <> j -> pending (threads c i) = Some id -> pending (threads c j) <> Some id;
  co_state n : ctl (slots c n) SLOT_STATE = 0 \/ spent c (ctl (slots c n) SLOT_STATE);
  co_token n : ctl (slots c n) TERMINAL_CLAIM = 0 \/ spent c (ctl (slots c n) TERMINAL_CLAIM)
}.

(** What a thread that reports an error has left to do, and has done. *)
Definition reporting (c : Channel) (t : Thread) : Prop :=
  match pc t, kind t with
  | Error_stores todo, Worker claim =>
      claim <> 0 /\ int32 claim = claim /\
      exists code detail k, errs claim = Some (code, detail) /\ int32 code = code /\ int32 detail = detail /\
        todo = drop k (workerCloseError claim code detail) /\
        let s := slots c (at_slot t) in
        ((0 < k)%nat -> spent c claim) /\
        (ctl s SLOT_STATE = claim ->
         ((0 < k)%nat -> ctl s TERMINAL_CODE = code) /\ ((1 < k)%nat -> ctl s TERMINAL_DETAIL = detail))
  | _, _ => True
  end.

(** An error of the claim of a slot is the one that was reported. *)
Definition token_ok (s : Slot) : Prop :=
  ctl s SLOT_STATE <> 0 -> ctl s TERMINAL_CLAIM = ctl s SLOT_STATE ->
  errs (ctl s SLOT_STATE) = Some (ctl s TERMINAL_CODE, ctl s TERMINAL_DETAIL).

(** What a reader knows, as long as its claim is the slot's. *)
Definition knows (c : Channel) (r : Reader) : Prop :=
  let s := slots c (r_slot r) in
  match r_pc r with
  | T_token k => spent c k
  | T_code k => spent c k /\ (ctl s SLOT_STATE = k -> ctl s TERMINAL_CLAIM = k)
  | T_detail k code => spent c k /\
      (ctl s SLOT_STATE = k -> ctl s TERMINAL_CLAIM = k /\ ctl s TERMINAL_CODE = code)
  | T_state k code detail => spent c k /\ (ctl s SLOT_STATE = k -> errs k = Some (code, detail))
  | T_again k code detail => errs k = Some (code, detail)
  | T_done k (Some e) => errs k = Some e
  | A_state k => k = 0 \/ spent c k /\ (ctl s SLOT_STATE = k -> ctl s TERMINAL_CLAIM = k)
  | A_done k r => r = SAB_TERMINAL_ERROR -> k = 0 \/ spent c k /\ (ctl s SLOT_STATE = k -> ctl s TERMINAL_CLAIM = k)
  | _ => True
  end.

Record observed_inv (o : Observed) : Prop := {
  oi_channel : channel_inv cap (channel o);
  oi_claims : claims_ok (channel o);
  oi_reporting i : reporting (channel o) (threads (channel o) i);
  oi_tokens n : token_ok (slots (channel o) n);
  oi_readers k r : readers o k = Some r -> knows (channel o) r
}.
(** *** What an access does to the lanes of errors *)

Definition error_lanes : list Lane := [SLOT_STATE; TERMINAL_CLAIM; TERMINAL_CODE; TERMINAL_DETAIL].

Inductive lanes_effect (s : Slot) (t : Thread) (s' : Slot) : Prop :=
| L_same : (forall l, l ∈ error_lanes -> ctl s' l = ctl s l) -> lanes_effect s t s'
| L_reset : ctl s' SLOT_STATE = 0 ->
    (ctl s' TERMINAL_CLAIM = ctl s TERMINAL_CLAIM \/ ctl s' TERMINAL_CLAIM = 0) -> lanes_effect s t s'
| L_open id : pc t = Open_publish id -> ctl s' SLOT_STATE = id ->
    (forall l, l ∈ error_lanes -> l <> SLOT_STATE -> ctl s' l = ctl s l) -> lanes_effect s t s'
| L_error l v todo : pc t = Error_stores ((l, v) :: todo) -> s' = store l v s -> lanes_effect s t s'.

(** Stores to other lanes do not touch those of errors. *)
Lemma store_same s l v : l ∉ error_lanes -> forall l', l' ∈ error_lanes -> ctl (store l v s) l' = ctl s l'.
Proof. intros Hl l' Hl'. apply ctl_store_ne. intros ->. done. Qed.

Ltac same_lanes := apply L_same; intros l' Hl'; first [done | apply store_same; [by apply (bool_decide_unpack _)|done]].

Lemma exec_lanes q s t : thread_ok cap s t -> lanes_effect s t (exec n_slots cap q s t).1.
Proof.
  intros Ht. pose proof (t_wf _ _ _ Ht) as Hw. pose proof (t_resetting _ _ _ Ht) as Hr.
  pose proof (t_todo _ _ _ Ht) as Htodo. destruct t as [k sl p]. unfold thread_wf in Hw.
  cbn in Hw, Hr, Htodo. destruct p; cbn [exec pc exec_open exec_acquire exec_ring exec_plain kind].
  all: try (repeat (case_match; cbn [fst snd]); same_lanes).
  - destruct todo as [|l todo]; cbn [fst]; [same_lanes|].
    destruct (Htodo _ _ eq_refl l (list_elem_of_here _ _)) as [N _].
    apply L_reset; [by rewrite ctl_store_ne; auto|].
    destruct (decide (l = TERMINAL_CLAIM)) as [->|]; [right; apply ctl_store|left; by apply ctl_store_ne].
  - destruct_and?. apply (L_open _ _ _ id); [done|by cbn; rewrite fn_lookup_insert|].
    intros l' Hl' N. by apply (ctl_store_ne SLOT_STATE).
  - cbn [fst]. unfold slotRelease. apply L_reset; [apply ctl_store|left; by apply ctl_store_ne].
  - destruct todo as [|[l v] todo]; cbn [fst]; [same_lanes|]. by eapply L_error.
Qed.

(** *** Claims *)

Lemma pending_step q s t id : pending (exec n_slots cap q s t).2 = Some id ->
  pending t = Some id \/ (pc t = Open_seq /\ id = claim_id q).
Proof.
  destruct t as [k sl p]. destruct p; branches; unfold pending; cbn; try done; auto.
  all: try match goal with
    | |- context [next_slot _ ?id ?t] => destruct (next_slot_pc n_slots id t) as [->|[r ->]]
    end.
  all: intros; simplify_eq; auto.
Qed.

(** Claims grow by one with every [slotOpen], while they fit. *)
Lemma claim_seq_run i c : 0 <= claim_seq c < 2 ^ 31 -> 0 <= claim_seq (run_thread n_slots cap i c) ->
  claim_seq c <= claim_seq (run_thread n_slots cap i c) < 2 ^ 31 /\
  (pc (threads c i) = Open_seq ->
   claim_seq (run_thread n_slots cap i c) = claim_seq c + 1 /\ claim_id (claim_seq c) = claim_seq c + 1).
Proof.
  intros H0 H1. cbn in *. pose proof (int32_range (claim_seq c + 1)).
  destruct (decide (claim_seq c + 1 < 2 ^ 31)) as [L|L].
  - assert (int32 (claim_seq c + 1) = claim_seq c + 1) as E by (apply int32_small; lia).
    unfold claim_id. cbv zeta. rewrite E. destruct (Z.eqb_spec (claim_seq c + 1) 0); [lia|].
    destruct (pc (threads c i)); split; try done; lia.
  - assert (int32 (claim_seq c + 1) = - 2 ^ 31) as E.
    { replace (claim_seq c + 1) with (2 ^ 31) by lia. by vm_compute. }
    revert H1. destruct (pc (threads c i)); rewrite ?E; split; try done; lia.
Qed.

Lemma pending_run i c j id : 0 <= claim_seq c < 2 ^ 31 -> 0 <= claim_seq (run_thread n_slots cap i c) ->
  pending (threads (run_thread n_slots cap i c) j) = Some id ->
  pending (threads c j) = Some id \/ (j = i /\ pc (threads c i) = Open_seq /\ id = claim_seq c + 1).
Proof.
  intros H0 H1. rewrite threads_run. case_decide as E; [subst j|by left].
  intros [H|[Hp ->]]%pending_step; [by left|]. right. by destruct (claim_seq_run i c H0 H1) as [_ [_ ->]].
Qed.

Lemma spent_run i c id : 0 <= claim_seq c < 2 ^ 31 -> 0 <= claim_seq (run_thread n_slots cap i c) ->
  spent c id -> spent (run_thread n_slots cap i c) id.
Proof.
  intros H0 H1 [Hr Hp]. pose proof (claim_seq_run i c H0 H1) as [Hs _]. split; [lia|].
  intros j Hj. destruct (pending_run i c j id H0 H1 Hj) as [H|(_ & _ & ->)]; [by apply (Hp j)|lia].
Qed.

Lemma spent_call i call t c id : start n_slots (threads c i) call = Some t ->
  spent c id -> spent (set_thread i t c) id.
Proof.
  intros Hs [Hr Hp]. split; [done|]. intros j. cbn. destruct (decide (j = i)) as [->|N].
  - rewrite fn_lookup_insert. unfold start in Hs. destruct (threads c i) as [k sl p]. cbn in Hs. destruct p; try done.
    repeat (case_match; simplify_eq/=); done.
  - rewrite fn_lookup_insert_ne by done. apply Hp.
Qed.

(** *** A store of an error *)

Lemma error_head claim code detail k l v todo :
  (l, v) :: todo = drop k (workerCloseError claim code detail) ->
  todo = drop (S k) (workerCloseError claim code detail) /\
  ((k = 0%nat /\ (l, v) = (TERMINAL_CODE, code)) \/ (k = 1%nat /\ (l, v) = (TERMINAL_DETAIL, detail)) \/
   (k = 2%nat /\ (l, v) = (TERMINAL_CLAIM, claim)) \/ (k = 3%nat /\ (l, v) = (W2C_CLOSED, claim))).
Proof.
  unfold workerCloseError. intros H. destruct k as [|[|[|[|k]]]]; cbn in H; simplify_eq; split; auto 6.
  all: rewrite drop_nil in H; done.
Qed.

(** It happens while its claim is that of the slot, and after the stores before it. *)
Record error_store (c : Channel) (i : nat) (l : Lane) (v : Z) (todo : list (Lane * Z))
    (claim code detail : Z) (k : nat) : Prop := {
  es_kind : kind (threads c i) = Worker claim;
  es_claim : claim <> 0 /\ int32 claim = claim;
  es_state : ctl (slots c (at_slot (threads c i))) SLOT_STATE = claim;
  es_errs : errs claim = Some (code, detail) /\ int32 code = code /\ int32 detail = detail;
  es_todo : todo = drop (S k) (workerCloseError claim code detail);
  es_code : (0 < k)%nat -> ctl (slots c (at_slot (threads c i))) TERMINAL_CODE = code;
  es_detail : (1 < k)%nat -> ctl (slots c (at_slot (threads c i))) TERMINAL_DETAIL = detail;
  es_head : (k = 0%nat /\ (l, v) = (TERMINAL_CODE, code)) \/ (k = 1%nat /\ (l, v) = (TERMINAL_DETAIL, detail)) \/
    (k = 2%nat /\ (l, v) = (TERMINAL_CLAIM, claim)) \/ (k = 3%nat /\ (l, v) = (W2C_CLOSED, claim))
}.

Lemma error_store_spec c i l v todo : thread_wf (threads c i) -> reporting c (threads c i) -> in_time c i = true ->
  pc (threads c i) = Error_stores ((l, v) :: todo) -> exists claim code detail k, error_store c i l v todo claim code detail k.
Proof.
  intros Hw Hr Hi Hp. unfold thread_wf, reporting, in_time in *. rewrite Hp in *. destruct Hw as [Hk _].
  destruct (kind (threads c i)) as [|claim] eqn:Ek; [done|]. apply Z.eqb_eq in Hi.
  destruct Hr as (Hc & Hc' & code & detail & k & He & H1 & H2 & Ht & _ & Hl). destruct (Hl Hi) as [Hl1 Hl2].
  destruct (error_head _ _ _ _ _ _ _ Ht) as [Ht' Hh]. by exists claim, code, detail, k.
Qed.

Lemma error_store_state c i l v todo claim code detail k : error_store c i l v todo claim code detail k -> l <> SLOT_STATE.
Proof. intros []. naive_solver. Qed.

(** *** The steps of a thread *)

Section Run.
Context (c : Channel) (i : nat).
Abbreviation c' := (run_thread n_slots cap i c).
Context (Hinv : channel_inv cap c) (Hclaims : claims_ok c)
  (Hrep : forall j, reporting c (threads c j)) (Htok : forall n, token_ok (slots c n))
  (Htime : in_time c i = true) (Hseq : 0 <= claim_seq c').

Lemma published_spent id : pc (threads c i) = Open_publish id -> spent c' id.
Proof.
  intros Hp. assert (pending (threads c i) = Some id) as Hpd by (unfold pending; by rewrite Hp).
  pose proof (co_range _ Hclaims _ _ Hpd) as Hr. pose proof (claim_seq_run i c (co_seq _ Hclaims) Hseq) as [Hs _].
  split; [lia|]. intros j Hj. destruct (decide (j = i)) as [->|N].
  - rewrite threads_run, decide_True in Hj by done. destruct (threads c i) as [k sl p]. cbn in Hp. subst p. done.
  - destruct (pending_run i c j id (co_seq _ Hclaims) Hseq Hj) as [H|[-> _]]; [|done].
    by apply (co_distinct _ Hclaims i j id).
Qed.

Lemma spent_kept id : spent c id -> spent c' id.
Proof. apply spent_run; [apply Hclaims|done]. Qed.

(** A slot that is under a spent claim after the step was under it before. *)
Lemma spent_state n id : spent c id -> ctl (slots c' n) SLOT_STATE = id -> ctl (slots c n) SLOT_STATE = id.
Proof.
  intros Hs. rewrite slots_run. case_decide as E; [subst n|done].
  pose proof (ci_threads _ _ Hinv i) as Hi.
  destruct (exec_lanes (claim_seq c) _ _ Hi) as [H|H _|id' Hp H _|l v todo Hp H].
  - by rewrite H by (by apply (bool_decide_unpack _)).
  - rewrite H. intros <-. destruct Hs as [Hs _]. lia.
  - rewrite H. intros ->. destruct Hs as [_ Hs]. destruct (Hs i). unfold pending. by rewrite Hp.
  - destruct (error_store_spec c i l v todo (t_wf _ _ _ Hi) (Hrep i) Htime Hp) as (claim & code & detail & k & He).
    rewrite H, ctl_store_ne; [done|]. by eapply error_store_state.
Qed.
(** The lanes of errors of such a slot only change to what was reported. *)
Lemma lanes_kept n id l : spent c id -> ctl (slots c' n) SLOT_STATE = id -> l ∈ error_lanes ->
  ctl (slots c' n) l = ctl (slots c n) l \/
  exists code detail, errs id = Some (code, detail) /\
    ((l = TERMINAL_CODE /\ ctl (slots c' n) l = code) \/ (l = TERMINAL_DETAIL /\ ctl (slots c' n) l = detail) \/
     (l = TERMINAL_CLAIM /\ ctl (slots c' n) l = id /\
      ctl (slots c' n) TERMINAL_CODE = code /\ ctl (slots c' n) TERMINAL_DETAIL = detail)).
Proof.
  intros Hs Hst Hl. pose proof (spent_state n id Hs Hst) as Hst0. revert Hst. rewrite slots_run.
  case_decide as E; [subst n|by left]. pose proof (ci_threads _ _ Hinv i) as Hi.
  destruct (exec_lanes (claim_seq c) _ _ Hi) as [H|H _|id' Hp H _|l' v todo Hp H].
  - left. by apply H.
  - rewrite H. intros <-. destruct Hs as [Hs _]. lia.
  - rewrite H. intros ->. destruct Hs as [_ Hs]. destruct (Hs i). unfold pending. by rewrite Hp.
  - intros _. rewrite H.
    destruct (error_store_spec c i l' v todo (t_wf _ _ _ Hi) (Hrep i) Htime Hp)
      as (claim & code & detail & k & [_ [_ Hc] Hs' (He & Hec & Hed) _ Hk1 Hk2 Hh]).
    assert (claim = id) as -> by congruence.
    destruct (decide (l = l')) as [->|N]; [|left; apply ctl_store_ne; congruence].
    destruct Hh as [[-> ?]|[[-> ?]|[[-> ?]|[-> ?]]]]; simplify_eq/=; rewrite ?ctl_store, ?ctl_store_ne by done.
    + right. exists code, detail. split; [done|]. left. split; [done|]. by rewrite fn_lookup_insert.
    + right. exists code, detail. split; [done|]. right. left. split; [done|]. by rewrite fn_lookup_insert.
    + right. exists code, detail. split; [done|]. right. right. rewrite fn_lookup_insert, !fn_lookup_insert_ne by done.
      split_and!; auto with lia.
    + exfalso. revert Hl. by apply (bool_decide_unpack _).
Qed.

Lemma code_kept n id code detail : spent c id -> ctl (slots c' n) SLOT_STATE = id -> errs id = Some (code, detail) ->
  ctl (slots c n) TERMINAL_CODE = code -> ctl (slots c' n) TERMINAL_CODE = code.
Proof.
  intros Hs Hst He Hc. destruct (lanes_kept n id TERMINAL_CODE Hs Hst) as [->|(code' & detail' & He' & H)];
    [by apply (bool_decide_unpack _)|done|naive_solver].
Qed.
Lemma detail_kept n id code detail : spent c id -> ctl (slots c' n) SLOT_STATE = id -> errs id = Some (code, detail) ->
  ctl (slots c n) TERMINAL_DETAIL = detail -> ctl (slots c' n) TERMINAL_DETAIL = detail.
Proof.
  intros Hs Hst He Hc. destruct (lanes_kept n id TERMINAL_DETAIL Hs Hst) as [->|(code' & detail' & He' & H)];
    [by apply (bool_decide_unpack _)|done|naive_solver].
Qed.
Lemma token_kept n id : spent c id -> ctl (slots c' n) SLOT_STATE = id ->
  ctl (slots c n) TERMINAL_CLAIM = id -> ctl (slots c' n) TERMINAL_CLAIM = id.
Proof.
  intros Hs Hst Hc. destruct (lanes_kept n id TERMINAL_CLAIM Hs Hst) as [->|(code' & detail' & He' & H)];
    [by apply (bool_decide_unpack _)|done|naive_solver].
Qed.

Lemma spent_lane n l v : l ∈ [SLOT_STATE; TERMINAL_CLAIM] -> (forall m l, l ∈ [SLOT_STATE; TERMINAL_CLAIM] ->
  ctl (slots c m) l = 0 \/ spent c (ctl (slots c m) l)) -> ctl (slots c' n) l = v -> v = 0 \/ spent c' v.
Proof.
  intros Hl H <-. assert (forall m l, l ∈ [SLOT_STATE; TERMINAL_CLAIM] ->
    ctl (slots c m) l = 0 \/ spent c' (ctl (slots c m) l)) as H'.
  { intros m l' Hl'. destruct (H m l' Hl'); [by left|right; by apply spent_kept]. }
  assert (l ∈ error_lanes) as Hl2 by (apply list_elem_of_In in Hl as [<-|[<-|[]]]; by apply (bool_decide_unpack _)).
  rewrite slots_run. case_decide as E; [subst n|by apply H'].
  pose proof (ci_threads _ _ Hinv i) as Hi.
  destruct (exec_lanes (claim_seq c) _ _ Hi) as [E|E1 E2|id' Hp E1 E2|l' v todo Hp E].
  - rewrite E by done. by apply H'.
  - apply list_elem_of_In in Hl as [<-|[<-|[]]]; [by left|]. destruct E2 as [->| ->]; [|by left]. apply H'. by apply (bool_decide_unpack _).
  - apply list_elem_of_In in Hl as [<-|[<-|[]]]; [right; rewrite E1; by apply published_spent|].
    rewrite E2 by done. apply H'. by apply (bool_decide_unpack _).
  - destruct (error_store_spec c i l' v todo (t_wf _ _ _ Hi) (Hrep i) Htime Hp)
      as (claim & code & detail & k & [_ [Hc0 Hc] Hs' _ _ _ _ Hh]).
    rewrite E. destruct (decide (l = l')) as [->|N]; [|rewrite ctl_store_ne by congruence; by apply H'].
    rewrite ctl_store. destruct Hh as [[_ Ev]|[[_ Ev]|[[_ Ev]|[_ Ev]]]]; injection Ev as -> ->.
    3: rewrite Hc, <- Hs'; apply H'; by apply (bool_decide_unpack _).
    all: exfalso; revert Hl; by apply (bool_decide_unpack _).
Qed.

Lemma claims_run : claims_ok c'.
Proof.
  pose proof (claim_seq_run i c (co_seq _ Hclaims) Hseq) as [Hs _].
  assert (forall m l, l ∈ [SLOT_STATE; TERMINAL_CLAIM] -> ctl (slots c m) l = 0 \/ spent c (ctl (slots c m) l)) as Hl.
  { intros m l [<-|[<-|[]]]%list_elem_of_In; apply Hclaims. }
  split.
  - lia.
  - intros j id Hj. destruct (pending_run i c j id (co_seq _ Hclaims) Hseq Hj) as [H|(_ & Hp & ->)].
    + apply Hclaims in H. lia.
    + pose proof (co_seq _ Hclaims). destruct (claim_seq_run i c (co_seq _ Hclaims) Hseq) as [_ Hq].
      destruct (Hq Hp). lia.
  - intros j k id N Hj0 Hk0. pose proof (pending_run i c j id (co_seq _ Hclaims) Hseq Hj0) as Hj.
    pose proof (pending_run i c k id (co_seq _ Hclaims) Hseq Hk0) as Hk.
    destruct Hj as [Hj|(-> & _ & ->)], Hk as [Hk|(-> & _ & Ek)]; try done.
    + exact (co_distinct _ Hclaims j k id N Hj Hk).
    + apply Hclaims in Hj. lia.
    + apply Hclaims in Hk. lia.
  - intros n. eapply spent_lane; [|exact Hl|done]. by apply (bool_decide_unpack _).
  - intros n. eapply spent_lane; [|exact Hl|done]. by apply (bool_decide_unpack _).
Qed.

Lemma reporting_step q s t todo : pc (exec n_slots cap q s t).2 = Error_stores todo ->
  kind (exec n_slots cap q s t).2 = kind t /\ at_slot (exec n_slots cap q s t).2 = at_slot t /\
  exists l v, pc t = Error_stores ((l, v) :: todo).
Proof.
  destruct t as [k sl p]. destruct p; branches; try done.
  all: try match goal with
    | |- context [next_slot _ ?id ?t] => destruct (next_slot_pc n_slots id t) as [->|[r ->]]; done
    end.
  intros [= ->]. eauto.
Qed.

Lemma reporting_run j : reporting c' (threads c' j).
Proof.
  rewrite threads_run. destruct (decide (j = i)) as [->|N].
  - unfold reporting. destruct (pc (exec _ _ _ _ _).2) eqn:Ep; try done. rename todo into todo'.
    destruct (reporting_step _ _ _ _ Ep) as (-> & -> & l & v & Hp).
    pose proof (ci_threads _ _ Hinv i) as Hi.
    destruct (error_store_spec c i l v todo' (t_wf _ _ _ Hi) (Hrep i) Htime Hp) as (claim & code & detail & k & He).
    pose proof (error_store_state _ _ _ _ _ _ _ _ _ He) as Nl.
    destruct He as [-> Hc Hst (He & Hec & Hed) -> Hk1 Hk2 Hh]. destruct Hc as [Hc0 Hc].
    split; [done|]. split; [done|]. exists code, detail, (S k). split_and!; try done.
    + intros _. apply spent_kept. rewrite <- Hst. destruct (co_state _ Hclaims (at_slot (threads c i))); [congruence|done].
    + rewrite slots_run, decide_True by done.
      destruct (threads c i) as [kd sl p]. cbn in Hp, Hk1, Hk2. subst p. cbn [exec pc exec_plain fst at_slot] in *.
      intros _. destruct Hh as [[-> Ev]|[[-> Ev]|[[-> Ev]|[-> Ev]]]]; injection Ev as -> ->;
        split; intros Hk; try lia; rewrite ?ctl_store, ?ctl_store_ne by done; auto with lia.
  - pose proof (Hrep j) as Hj. unfold reporting in *. destruct (pc (threads c j)) eqn:Ep; try done.
    destruct (kind (threads c j)) as [|claim]; [done|].
    destruct Hj as (H0 & H1 & code & detail & k & He & Hec & Hed & Ht & Hs & Hl).
    split; [done|]. split; [done|]. exists code, detail, k. split_and!; try done.
    + intros Hk. by apply spent_kept, Hs.
    + intros Hst. split; intros Hk; (assert (spent c claim) as Hsp by (apply Hs; lia));
        destruct (Hl (spent_state _ _ Hsp Hst)) as [H2 H3].
      * eapply code_kept; eauto.
      * eapply detail_kept; eauto.
Qed.

Lemma tokens_run n : token_ok (slots c' n).
Proof.
  rewrite slots_run. case_decide as E; [subst n|apply Htok]. pose proof (ci_threads _ _ Hinv i) as Hi.
  set (s := slots c (at_slot (threads c i))) in *. pose proof (Htok (at_slot (threads c i))) as Ht. fold s in Ht.
  unfold token_ok in *.
  destruct (exec_lanes (claim_seq c) _ _ Hi) as [E|E1 E2|id' Hp E1 E2|l' v todo Hp E].
  - rewrite !E by (by apply (bool_decide_unpack _)). done.
  - by rewrite E1.
  - rewrite E1, !E2 by (try done; by apply (bool_decide_unpack _)). intros N Htk.
    pose proof (co_token _ Hclaims (at_slot (threads c i))) as [H|[_ H]]; fold s in H; [congruence|].
    destruct (H i). unfold pending. by rewrite Hp, Htk.
  - destruct (error_store_spec c i l' v todo (t_wf _ _ _ Hi) (Hrep i) Htime Hp)
      as (claim & code & detail & k & [_ [Hc0 Hc] Hst (He & Hec & Hed) _ Hk1 Hk2 Hh]).
    fold s in Hst, Hk1, Hk2. rewrite E. rewrite Hst in Ht. specialize (Ht Hc0).
    destruct Hh as [[-> Ev]|[[-> Ev]|[[-> Ev]|[-> Ev]]]]; injection Ev as -> ->;
      rewrite ?ctl_store, ?ctl_store_ne, Hst by done; intros _ Htk; rewrite ?Hec, ?Hed.
    + specialize (Ht Htk). congruence.
    + specialize (Ht Htk). congruence.
    + rewrite Hk1, Hk2 by lia. done.
    + by apply Ht.
Qed.

Lemma knows_run r : knows c r -> knows c' r.
Proof.
  unfold knows. destruct (r_pc r) as [| |k|k|k code|k code detail|k code detail|k [e|]| | | |k|k res]; try done.
  - apply spent_kept.
  - intros [H1 H2]. split; [by apply spent_kept|]. intros Hst. apply token_kept; [done..|]. by apply H2, spent_state.
  - intros [H1 H2]. split; [by apply spent_kept|]. intros Hst.
    pose proof (spent_state _ _ H1 Hst) as Hst0. destruct (H2 Hst0) as [H3 H4].
    split; [by apply token_kept|]. pose proof (Htok (r_slot r)) as Ht. unfold token_ok in Ht.
    rewrite Hst0, H4 in Ht. assert (k <> 0) as N by (destruct H1; lia).
    exact (code_kept _ _ _ _ H1 Hst (Ht N H3) H4).
  - intros [H1 H2]. split; [by apply spent_kept|]. intros Hst. by apply H2, spent_state.
  - intros [->|[H1 H2]]; [by left|right]. split; [by apply spent_kept|]. intros Hst.
    apply token_kept; [done..|]. by apply H2, spent_state.
  - intros H E. destruct (H E) as [->|[H1 H2]]; [by left|right]. split; [by apply spent_kept|]. intros Hst.
    apply token_kept; [done..|]. by apply H2, spent_state.
Qed.

End Run.

(** *** The steps of the others *)

Lemma start_unpending t call t' : start n_slots t call = Some t' -> pending t' = None.
Proof.
  unfold start. destruct t as [k sl p]. cbn. destruct p; try done. intros H.
  repeat (case_match; simplify_eq/=); done.
Qed.

Lemma pending_call i call t c j id : start n_slots (threads c i) call = Some t ->
  pending (threads (set_thread i t c) j) = Some id -> pending (threads c j) = Some id.
Proof.
  intros Hs. cbn. destruct (decide (j = i)) as [->|N]; [|by rewrite fn_lookup_insert_ne].
  rewrite fn_lookup_insert. by rewrite (start_unpending _ _ _ Hs).
Qed.

Lemma claims_call i call t c : start n_slots (threads c i) call = Some t -> claims_ok c -> claims_ok (set_thread i t c).
Proof.
  intros Hs [H1 H2 H3 H4 H5]. split; [done|..].
  - intros j id Hj. exact (H2 _ _ (pending_call _ _ _ _ _ _ Hs Hj)).
  - intros j k id N Hj Hk. exact (H3 _ _ _ N (pending_call _ _ _ _ _ _ Hs Hj) (pending_call _ _ _ _ _ _ Hs Hk)).
  - intros n. destruct (H4 n); [by left|right]. by eapply spent_call.
  - intros n. destruct (H5 n); [by left|right]. by eapply spent_call.
Qed.

Lemma reporting_start t call t' c : start n_slots t call = Some t' -> as_reported call = true -> reporting c t'.
Proof.
  unfold start. destruct t as [k sl p]. cbn. destruct p; try done. intros H Hr.
  assert (forall sl claim code detail, is_int32 claim = true -> as_reported (C_error sl claim code detail) = true ->
    reporting c {| kind := Worker claim; at_slot := sl; pc := Error_stores (workerCloseError claim code detail) |}) as Hc.
  { intros sl' claim code detail Hi Hrep. cbn in Hrep.
    repeat match type of Hrep with _ && _ = true => apply andb_true_iff in Hrep as [Hrep ?] end.
    repeat match goal with Hx : is_int32 _ = true |- _ => apply is_int32_eq in Hx end.
    match goal with Hx : bool_decide _ = true |- _ => apply bool_decide_eq_true in Hx end.
    apply negb_true_iff, Z.eqb_neq in Hrep. split; [done|]. split; [done|].
    exists code, detail, 0%nat. split_and!; try done; try lia. }
  destruct k as [[]|c'], call; simplify_eq/=; try done.
  all: repeat match type of H with (if ?b then _ else _) = _ => destruct b eqn:? end; simplify_eq/=; try done.
  all: by apply Hc.
Qed.

Lemma reporting_call i call t c j : start n_slots (threads c i) call = Some t -> as_reported call = true ->
  reporting c (threads c j) -> reporting (set_thread i t c) (threads (set_thread i t c) j).
Proof.
  intros Hs Hr Hj.
  assert (forall u, reporting c u -> reporting (set_thread i t c) u) as Hkeep.
  { intros u. unfold reporting. destruct (pc u); try done. destruct (kind u) as [|claim]; [done|].
    intros (H0 & H1 & code & detail & k & He & Hec & Hed & Ht & Hsp & Hl). split; [done|]. split; [done|].
    exists code, detail, k. split_and!; try done. intros Hk. by eapply spent_call, Hsp. }
  apply Hkeep. cbn. destruct (decide (j = i)) as [->|N]; [|by rewrite fn_lookup_insert_ne].
  rewrite fn_lookup_insert. by eapply reporting_start.
Qed.

Lemma knows_call i call t c r : start n_slots (threads c i) call = Some t -> knows c r -> knows (set_thread i t c) r.
Proof.
  intros Hs. unfold knows. pose proof (fun id => spent_call i call t c id Hs) as Hk.
  destruct (r_pc r) as [| |k|k|k code|k code detail|k code detail|k [e|]| | | |k|k res]; try done; naive_solver.
Qed.

Lemma read_knows c r : claims_ok c -> (forall n, token_ok (slots c n)) -> knows c r ->
  knows c {| r_slot := r_slot r; r_pc := read_step features (slots c (r_slot r)) (r_pc r) |}.
Proof.
  intros Hc Ht. unfold knows. cbn [r_slot r_pc]. pose proof (co_state _ Hc (r_slot r)) as Hst.
  pose proof (co_token _ Hc (r_slot r)) as Htk. specialize (Ht (r_slot r)). unfold token_ok in Ht.
  destruct (r_pc r) as [| |k|k|k code|k code detail|k code detail|k [e|]| | | |k|k res]; cbn [read_step announce_step]; try done.
  all: repeat match goal with
    | |- context [if ?b then _ else _] => destruct b eqn:?
    end; eqbs; try done.
  - by destruct Hst.
  - intros [H1 H2]. split; [done|]. intros E. split; [by apply H2|done].
  - intros [H1 H2]. split; [done|]. intros E. destruct (H2 E) as [H3 <-]. rewrite E in Ht.
    apply Ht; [|done]. destruct H1. lia.
  - intros [H1 H2]. by apply H2.
  - intros _. destruct Htk; [by left|right]. done.
Qed.

Lemma initial_observed_inv : 0 < cap -> observed_inv initial_observed.
Proof.
  intros Hcap. split; try done.
  - by apply initial_inv.
  - split; [cbn; lia|done|done|intros n; by left|intros n; by left].
  - intros n N. by destruct N.
Qed.

Lemma observed_step_inv o o' : 0 < cap -> observed_step o o' -> observed_inv o -> observed_inv o'.
Proof.
  intros Hcap Hs [H1 H2 H3 H4 H5]. destruct Hs as [i o Ht Hb Hq|i call t o Hs Hr|k n p o Hk Hp|k o].
  - split; cbn [channel readers with_channel].
    + by apply run_inv.
    + by apply claims_run.
    + intros j. by apply reporting_run.
    + intros n. by apply tokens_run.
    + intros k r Hk. apply knows_run; try done. by apply (H5 k).
  - split; cbn [channel readers with_channel].
    + by eapply call_inv.
    + by eapply claims_call.
    + intros j. by eapply reporting_call.
    + done.
    + intros k r Hk. eapply knows_call; [done|]. by apply (H5 k).
  - split; try done. intros k' r. cbn. destruct (decide (k' = k)) as [->|N].
    + rewrite fn_lookup_insert. intros [= <-]. by destruct Hp as [->| ->].
    + rewrite fn_lookup_insert_ne by done. apply H5.
  - unfold read_once. destruct (readers o k) as [r|] eqn:E; [|done]. split; try done.
    intros k' r'. cbn. destruct (decide (k' = k)) as [->|N].
    + rewrite fn_lookup_insert. intros [= <-]. by apply read_knows, H5 with k.
    + rewrite fn_lookup_insert_ne by done. apply H5.
Qed.

Lemma observed_inv_reached o o' : 0 < cap -> rtc observed_step o o' -> observed_inv o -> observed_inv o'.
Proof. intros Hcap. induction 1 as [|o o1 o' Hs _ IH]; [done|]. intros Ho. by apply IH, (observed_step_inv o). Qed.

(** ** What a reader is told *)

(** The step of a reader that is at work on a claim, or has told its error. *)
Definition on_claim (n : nat) (claim : Z) (e : Z * Z) (r : Reader) : Prop :=
  r_slot r = n /\
  match r_pc r with
  | T_features | T_claim => True
  | T_token k | T_code k | T_detail k _ | T_state k _ _ | T_again k _ _ => k = claim
  | T_done k x => k = claim /\ x = Some e
  | _ => False
  end.

Lemma observed_spent claim o o' : observed_inv o -> observed_step o o' -> spent (channel o) claim -> spent (channel o') claim.
Proof.
  intros Hinv Hs Hsp. destruct Hs as [i c Ht Hb Hq|i call t c Hs Hr|k n p c Hk Hp|k c]; cbn [channel with_channel with_reader].
  - by apply spent_kept; [apply Hinv|..].
  - by eapply spent_call.
  - done.
  - unfold read_once. by destruct (readers c k).
Qed.

Lemma observed_state n claim o o' : observed_inv o -> observed_step o o' -> spent (channel o) claim ->
  ctl (slots (channel o') n) SLOT_STATE = claim ->
  ctl (slots (channel o) n) SLOT_STATE = claim /\
  (ctl (slots (channel o) n) TERMINAL_CLAIM = claim -> ctl (slots (channel o') n) TERMINAL_CLAIM = claim).
Proof.
  intros [H1 H2 H3 H4 H5] Hs Hsp Hst.
  destruct Hs as [i c Ht Hb Hq|i call t c Hs Hr|k n' p c Hk Hp|k c]; cbn [channel with_channel with_reader] in *.
  - split; [by eapply spent_state|]. intros Htk. by eapply token_kept.
  - done.
  - done.
  - unfold read_once in *. by destruct (readers c k).
Qed.

Lemma observed_states n claim o o' : 0 < cap -> observed_inv o -> rtc observed_step o o' -> spent (channel o) claim ->
  ctl (slots (channel o') n) SLOT_STATE = claim -> ctl (slots (channel o) n) SLOT_STATE = claim.
Proof.
  intros Hcap Hinv Hrun. revert Hinv. induction Hrun as [o|o o1 o' Hs Hrun IH]; intros Hinv Hsp Hst; [done|].
  eapply observed_state; [done..|]. apply IH; [by eapply observed_step_inv|by eapply observed_spent|done].
Qed.

Lemma on_claim_step n claim e o o' k r : 0 < cap -> features = true -> observed_inv o -> observed_step o o' ->
  spent (channel o) claim -> errs claim = Some e ->
  ctl (slots (channel o) n) SLOT_STATE = claim -> ctl (slots (channel o) n) TERMINAL_CLAIM = claim ->
  readers o k = Some r -> on_claim n claim e r ->
  exists r', readers o' k = Some r' /\ on_claim n claim e r'.
Proof.
  intros Hcap Hf Hinv Hs Hsp He Hst Htk Hr Hon. destruct Hs as [i o Ht Hb Hq|i call t o Hs Hrep|k' n' p o Hk Hp|k' o].
  1,2: by exists r.
  - exists r. split; [|done]. cbn. rewrite fn_lookup_insert_ne; [done|]. intros ->. congruence.
  - unfold read_once. destruct (readers o k') as [r'|] eqn:E'; [|by exists r].
    cbn [readers with_reader]. destruct (decide (k = k')) as [->|N]; [|exists r; by rewrite fn_lookup_insert_ne].
    rewrite fn_lookup_insert. rewrite Hr in E'. injection E' as <-. eexists. split; [done|]. unfold on_claim. cbn [r_slot r_pc].
    destruct Hon as [-> Hon]. split; [done|]. pose proof (oi_readers _ Hinv _ _ Hr) as Hkn. unfold knows in Hkn.
    destruct (r_pc r) as [| |k0|k0|k0 code|k0 code detail|k0 code detail|k0 x| | | |k0|k0 res]; cbn [read_step announce_step] in *; try done; try subst k0.
    + by rewrite Hf.
    + rewrite Hst. destruct Hsp as [Hsp _]. destruct (Z.eqb_spec claim 0); [lia|done].
    + by rewrite Htk, Z.eqb_refl.
    + by rewrite Hst, Z.eqb_refl.
    + rewrite Htk, Z.eqb_refl. split; [done|]. congruence.
Qed.

(** While a slot that holds an error is not released, a reader that starts on it stays on the error. *)
Lemma on_claim_reached n claim e o o' k r : 0 < cap -> features = true -> observed_inv o -> rtc observed_step o o' ->
  spent (channel o) claim -> errs claim = Some e ->
  ctl (slots (channel o') n) SLOT_STATE = claim -> ctl (slots (channel o) n) TERMINAL_CLAIM = claim ->
  readers o k = Some r -> on_claim n claim e r ->
  exists r', readers o' k = Some r' /\ on_claim n claim e r'.
Proof.
  intros Hcap Hf Hinv Hrun. revert Hinv r. induction Hrun as [o|o o1 o' Hs Hrun IH]; intros Hinv r Hsp He Hst Htk Hr Hon.
  - by exists r.
  - pose proof (observed_step_inv _ _ Hcap Hs Hinv) as Hinv1.
    pose proof (observed_spent claim o o1 Hinv Hs Hsp) as Hsp1.
    pose proof (observed_states n claim o1 o' Hcap Hinv1 Hrun Hsp1 Hst) as Hst1.
    destruct (observed_state n claim o o1 Hinv Hs Hsp Hst1) as [Hst0 Htk1].
    destruct (on_claim_step n claim e o o1 k r) as (r1 & Hr1 & Hon1); try done.
    apply (IH Hinv1 r1); auto.
Qed.
End Readers.

(** ** Schedules *)

Inductive OAction := O_call (i : nat) (call : Call) | O_run (i n : nat) | O_new (k slot : nat) (p : Rpc) | O_read (k n : nat).

Definition is_entry (p : Rpc) : bool := match p with T_features | A_features => true | _ => false end.

Section Schedules.
Context (n_slots : nat) (cap : Z) (features : bool) (errs : Z -> option (Z * Z)).

Definition observed_act (a : OAction) (o : Observed) : option Observed :=
  match a with
  | O_call i call =>
      t ← start n_slots (threads (channel o) i) call;
      if as_reported errs call then Some (with_channel (set_thread i t (channel o)) o) else None
  | O_run i _ =>
      let c' := run_thread n_slots cap i (channel o) in
      if in_time (channel o) i && fits (slots c' (at_slot (threads (channel o) i))) && (0 <=? claim_seq c')
      then Some (with_channel c' o) else None
  | O_new k slot p =>
      match readers o k with
      | None => if is_entry p then Some (with_reader k {| r_slot := slot; r_pc := p |} o) else None
      | Some _ => None
      end
  | O_read k _ => Some (read_once features k o)
  end.

Definition repeats (a : OAction) : nat := match a with O_run _ n | O_read _ n => n | _ => 1%nat end.
Fixpoint observed_repeat (a : OAction) (n : nat) (o : Observed) : option Observed :=
  match n with O => Some o | S n' => o1 ← observed_act a o; observed_repeat a n' o1 end.
Fixpoint observed_play (l : list OAction) (o : Observed) : option Observed :=
  match l with [] => Some o | a :: l' => o1 ← observed_repeat a (repeats a) o; observed_play l' o1 end.
Definition observed_end (l : list OAction) (o : Observed) : Observed := default o (observed_play l o).

Lemma run_bounded i c : bounded c -> fits (slots (run_thread n_slots cap i c) (at_slot (threads c i))) = true ->
  bounded (run_thread n_slots cap i c).
Proof.
  intros Hc E m d. pose proof (Hc m d). rewrite slots_run. case_decide as Em; [|done].
  rewrite slots_run, decide_True in E by done. unfold fits in E. apply andb_true_iff in E as [E1 E2]. destruct d; lia.
Qed.

Lemma observed_bounded o o' : rtc (observed_step n_slots cap features errs) o o' -> bounded (channel o) -> bounded (channel o').
Proof.
  induction 1 as [|o o1 o' Hs _ IH]; [done|]. intros Ho. apply IH.
  destruct Hs as [i o Ht Hb Hq|i call t o Hs Hr|k n p o Hk Hp|k o]; try done.
  unfold read_once. by destruct (readers o k).
Qed.

Lemma observed_act_step a o o' : bounded (channel o) -> observed_act a o = Some o' ->
  observed_step n_slots cap features errs o o'.
Proof.
  intros Hb H. destruct a as [i call|i n|k slot p|k n]; cbn [observed_act] in H.
  - apply bind_Some in H as (t & Hs & H). destruct (as_reported errs call) eqn:E; simplify_eq. by eapply os_call.
  - cbv zeta in H. match type of H with (if ?b then _ else _) = _ => destruct b eqn:E end; simplify_eq.
    apply andb_true_iff in E as [[E1 E2]%andb_true_iff E3]. apply os_run; [done|by apply run_bounded|lia].
  - destruct (readers o k) eqn:E; [done|]. destruct p; simplify_eq/=; apply os_new; auto.
  - simplify_eq. apply os_read.
Qed.

Lemma observed_repeat_reach a n o o' : bounded (channel o) -> observed_repeat a n o = Some o' ->
  rtc (observed_step n_slots cap features errs) o o'.
Proof.
  revert o. induction n as [|n IH]; intros o Hb H; simplify_eq/=; [done|].
  apply bind_Some in H as (o1 & H1 & H). pose proof (observed_act_step _ _ _ Hb H1) as Hs.
  eapply rtc_l; [done|]. apply IH; [|done]. eapply observed_bounded; [by apply rtc_once|done].
Qed.

Lemma observed_end_reach l o : bounded (channel o) -> rtc (observed_step n_slots cap features errs) o (observed_end l o).
Proof.
  intros Hb. unfold observed_end. destruct (observed_play l o) as [o'|] eqn:E; [|done]. cbn.
  revert o Hb E. induction l as [|a l IH]; intros o Hb H; simplify_eq/=; [done|].
  apply bind_Some in H as (o1 & H1 & H). pose proof (observed_repeat_reach _ _ _ _ Hb H1) as Hr.
  etrans; [done|]. apply IH; [by eapply observed_bounded|done].
Qed.

Lemma initial_bounded : bounded (channel initial_observed).
Proof. intros n d. unfold lenZ. cbn. lia. Qed.
End Schedules.

(** ** The promises *)

(** A reader that runs alone computes [stubTerminalError]: seven loads. *)
Lemma alone_is_stubTerminalError features s : exists claim,
  Nat.iter 7 (read_step features s) T_features = T_done claim (stubTerminalError features s).
Proof.
  unfold stubTerminalError. cbv zeta. destruct features; cbn; [|by exists 0].
  destruct (Z.eqb_spec (ctl s SLOT_STATE) 0) as [E|E]; cbn; [by exists 0|].
  destruct (Z.eqb_spec (ctl s TERMINAL_CLAIM) (ctl s SLOT_STATE)) as [E'|E']; cbn; [|by eexists].
  rewrite Z.eqb_refl. cbn. rewrite E', Z.eqb_refl. by eexists.
Qed.

(** C9: Whatever the slots that are released and opened again while
    [stubTerminalError] loads the lanes of an error one by one, a code and a detail
    that it returns are those reported for the claim it found, as long as every
    worker stores an error only while its claim is open and fewer than 2^31 claims
    were drawn. *)
Theorem error_snapshots_are_reports n_slots cap features errs o k r claim e : 0 < cap ->
  observed n_slots cap features errs o -> readers o k = Some r -> r_pc r = T_done claim (Some e) -> errs claim = Some e.
Proof.
  intros Hcap Ho Hr Hp.
  pose proof (observed_inv_reached n_slots cap features errs _ _ Hcap Ho (initial_observed_inv cap errs Hcap)) as Hinv.
  pose proof (oi_readers _ _ _ Hinv k r Hr) as Hk. unfold knows in Hk. by rewrite Hp in Hk.
Qed.

(** C10: When a read of the engine announced an error, and the slot is not released
    before the engine has asked for it, [vgi_wasm_slot_terminal_error] returns it:
    the code and the detail reported for the claim.  Other threads do what they like,
    except that a worker stores an error only while its claim is open ([in_time]; see
    [terminal_errors_may_mix] for one that does not), and fewer than 2^31 claims are
    drawn. *)
Theorem announced_errors_can_be_read n_slots cap errs o o' n k r k' r' claim claim' x : 0 < cap ->
  observed n_slots cap true errs o ->
  readers o k = Some r -> r_slot r = n -> r_pc r = A_done claim SAB_TERMINAL_ERROR -> claim <> 0 ->
  readers o k' = Some {| r_slot := n; r_pc := T_features |} ->
  rtc (observed_step n_slots cap true errs) o o' -> ctl (slots (channel o') n) SLOT_STATE = claim ->
  readers o' k' = Some r' -> r_pc r' = T_done claim' x ->
  claim' = claim /\ exists e, x = Some e /\ errs claim = Some e.
Proof.
  intros Hcap Ho Hr Hn Hp Hc0 Hk' Hrun Hst Hr' Hp'.
  pose proof (observed_inv_reached n_slots cap true errs _ _ Hcap Ho (initial_observed_inv cap errs Hcap)) as Hinv.
  pose proof (oi_readers _ _ _ Hinv k r Hr) as Hk. unfold knows in Hk. rewrite Hp, Hn in Hk.
  destruct (Hk eq_refl) as [|[Hsp Htk]]; [done|].
  pose proof (observed_states n_slots cap true errs n claim o o' Hcap Hinv Hrun Hsp Hst) as Hst0.
  specialize (Htk Hst0). pose proof (oi_tokens _ _ _ Hinv n) as Ht. unfold token_ok in Ht. rewrite Hst0 in Ht.
  specialize (Ht Hc0 Htk). destruct (on_claim_reached n_slots cap true errs n claim _ o o' k' _ Hcap eq_refl Hinv Hrun Hsp Ht
    Hst Htk Hk' (conj eq_refl I)) as (r'' & Hr'' & _ & Hon).
  assert (r'' = r') as -> by congruence. rewrite Hp' in Hon. destruct Hon as [-> ->]. eauto.
Qed.

(** The worker of claim 1 reports 7 with detail 8. *)
Definition one_error (claim : Z) : option (Z * Z) := if claim =? 1 then Some (7, 8) else None.

(** A reader is between its loads of the code and the detail when the worker reports again. *)
Definition error_read : list OAction :=
  [O_call 0 C_open; O_run 0 40; O_call 1 (C_error 0 1 7 8); O_run 1 5; O_new 0 0 T_features; O_read 0 4;
   O_call 1 (C_error 0 1 7 8); O_run 1 2; O_read 0 4].

Lemma error_snapshots_are_reports_witness :
  option_map r_pc (readers (observed_end 1 4 true one_error error_read initial_observed) 0%nat) =
    Some (T_done 1 (Some (7, 8))) /\ one_error 1 = Some (7, 8).
Proof.
  split; [vm_compute; reflexivity|].
  apply (error_snapshots_are_reports 1 4 true one_error (observed_end 1 4 true one_error error_read initial_observed) 0
    {| r_slot := 0; r_pc := T_done 1 (Some (7, 8)) |}); [lia| |vm_compute; reflexivity|reflexivity].
  apply observed_end_reach, initial_bounded.
Defined.

(** A read of the engine that finds the error, and the call that fetches it. *)
Definition error_announced : list OAction :=
  [O_call 0 C_open; O_run 0 40; O_call 1 (C_error 0 1 7 8); O_run 1 5; O_new 0 0 A_features; O_read 0 4; O_new 1 0 T_features].
Definition error_fetched : list OAction := [O_read 1 3; O_call 1 (C_error 0 1 7 8); O_run 1 3; O_read 1 4].

Lemma announced_errors_can_be_read_witness :
  let o := observed_end 1 4 true one_error error_announced initial_observed in
  let o' := observed_end 1 4 true one_error error_fetched o in
  readers o 0%nat = Some {| r_slot := 0; r_pc := A_done 1 (-3) |} /\
  readers o' 1%nat = Some {| r_slot := 0; r_pc := T_done 1 (Some (7, 8)) |} /\
  (1 = 1 /\ exists e, Some (7, 8) = Some e /\ one_error 1 = Some e).
Proof.
  intros o o'. split; [vm_compute; reflexivity|]. split; [vm_compute; reflexivity|].
  assert (observed 1 4 true one_error o) as Ho by apply observed_end_reach, initial_bounded.
  apply (announced_errors_can_be_read 1 4 one_error o o' 0 0 {| r_slot := 0; r_pc := A_done 1 (-3) |} 1
    {| r_slot := 0; r_pc := T_done 1 (Some (7, 8)) |}); try lia; try done; try (vm_compute; reflexivity).
  apply observed_end_reach. eapply observed_bounded; [exact Ho|apply initial_bounded].
Defined.

(** The second look at the state rejects a snapshot whose slot was opened again between its loads. *)
Definition error_replaced : list OAction :=
  [O_call 0 C_open; O_run 0 40; O_call 1 (C_error 0 1 7 8); O_run 1 5; O_new 0 0 T_features; O_read 0 4;
   O_call 0 C_release; O_run 0 1; O_call 0 C_open; O_run 0 40; O_read 0 4].
Lemma replaced_errors_are_rejected :
  let o := observed_end 1 4 true one_error error_replaced initial_observed in
  option_map r_pc (readers o 0%nat) = Some (T_done 1 None) /\ ctl (slots (channel o) 0%nat) SLOT_STATE = 2.
Proof. vm_compute. split; reflexivity. Qed.

(** [vgi_wasm_slot_read] looks at the state once for 0 and once for the claim of the error: a slot
    released in between, without any error, is announced as one with an error. *)
Definition released_in_read : list OAction :=
  [O_call 0 C_open; O_run 0 40; O_new 0 0 A_features; O_read 0 3; O_call 0 C_release; O_run 0 1; O_read 0 1].
Lemma announcement_without_error :
  let o := observed_end 1 4 true (fun _ => None) released_in_read initial_observed in
  option_map r_pc (readers o 0%nat) = Some (A_done 0 SAB_TERMINAL_ERROR).
Proof. vm_compute. reflexivity. Qed.
