(* ===== verification/HttpFetch.v ===== *)
(** * HttpFetch: HTTP requests through a helper worker
    ([bindings/http_fetch_helper.ts], [lib/src/http_fetch.cc])

    An engine thread hands a request to the helper through a slot of a mailbox in
    shared memory and waits; the helper copies the request, fetches, asks for a
    buffer and puts the response there.  This is the protocol of one slot: callers,
    each a run of [FetchViaHelper] with one request, and the helper's [serve].  Every
    access to a lane is a step.  The caller's clock, its cancellation flag and
    [malloc] are choices of the step ([Choice]), and so is what [fetch] does.

    [requests] is what the caller's memory holds for its request: the values of the
    input lanes, which are pointers and lengths.  [fetched] is history.  [HttpMailbox] has the other slots, the
    request counter and the flag that says the helper is up.  Accesses are taken to be sequentially consistent. *)
From S2P Require Import Prelude Text.
From stdpp Require Import base tactics list gmap functions.
From Stdlib Require Import ZArith Lia.
Open Scope Z_scope.

(** ** The wire format of a response *)

Definition le_bytes (n : nat) (v : Z) : list Z := map (fun i => (v / 2 ^ (8 * Z.of_nat i)) mod 256) (seq 0 n).

(** [encode(status, headers, body)], the headers in UTF-8 *)
Definition encode (status : Z) (head body : list Z) : list Z :=
  le_bytes 2 status ++ le_bytes 4 (lenZ head) ++ head ++ le_bytes 4 (lenZ body) ++ body.

(** A little-endian number of [n] bytes. *)
Fixpoint le_value (l : list Z) : Z := match l with [] => 0 | b :: l' => b + 256 * le_value l' end.
Definition take_le (n : nat) (l : list Z) : Z * list Z := (le_value (take n l), drop n l).

(** [ParseWasmResponse] up to the splitting of the header lines. *)
Definition parse_response (buf : list Z) : Z * list Z * list Z :=
  let (status, p) := take_le 2 buf in
  let (headers_len, p) := take_le 4 p in
  let raw_headers := take (Z.to_nat headers_len) p in
  let p := drop (Z.to_nat headers_len) p in
  let (body_len, p) := take_le 4 p in
  (status, raw_headers, take (Z.to_nat body_len) p).

(** ** The mailbox *)

Inductive Lane :=
| STATE | ABORT | URL_PTR | URL_LEN | METHOD | METHOD_LEN | HEADERS | HEADER_COUNT | BODY | BODY_LEN
| SIZE | BUFFER | PROGRESS | COPIED | ABANDONED.
#[export] Instance Lane_eq_dec : EqDecision Lane.
Proof. solve_decision. Defined.

Definition FREE : Z := 0.
Definition CLAIMED : Z := 1.
Definition REQUEST : Z := 2.
Definition IN_FLIGHT : Z := 3.
Definition NEEDS_BUFFER : Z := 4.
Definition BUFFER_PROVIDED : Z := 5.
Definition DONE : Z := 6.
Definition FAILED : Z := 7.
Definition CANCELLED : Z := 8.

(** The inputs of a request, in the order the helper loads them. *)
Definition input_lanes : list Lane :=
  [URL_PTR; URL_LEN; METHOD; METHOD_LEN; HEADERS; HEADER_COUNT; BODY_LEN; BODY].

(** The body is loaded only if it has a positive length. *)
Definition after_load (l : Lane) (v : Z) (todo : list Lane) : list Lane :=
  if bool_decide (l = BODY_LEN) && (v <=? 0) then [] else todo.

(** What the helper gets by loading [todo] from [f]. *)
Fixpoint inputs_of (f : Lane -> Z) (todo : list Lane) : list Z :=
  match todo with
  | [] => []
  | l :: todo' => f l :: (if bool_decide (l = BODY_LEN) && (f l <=? 0) then [] else inputs_of f todo')
  end.
Definition request_inputs (f : Lane -> Z) : list Z := inputs_of f input_lanes.

Inductive FetchOutcome := O_unavailable | O_ok | O_failed | O_cancelled | O_timed_out.
#[export] Instance FetchOutcome_eq_dec : EqDecision FetchOutcome.
Proof. solve_decision. Defined.

(** Why a caller raised abort. *)
Inductive AbortReason := R_cancelled | R_timed_out.
Definition abort_outcome (r : AbortReason) : FetchOutcome :=
  match r with R_cancelled => O_cancelled | R_timed_out => O_timed_out end.

(** Where a call of [FetchViaHelper] is.  [buf] is its buffer, 0 for none, and
    [reason] why it raised abort, if it did.  After [C_done O_ok buf] the buffer is
    parsed and freed; [C_parsed] has what was found there. *)
Inductive CallerPc :=
| C_idle
| C_store (todo : list (Lane * Z))
| C_request
| C_look (reason : option AbortReason) (buf : Z)
| C_size (reason : option AbortReason)
| C_buffer (reason : option AbortReason) (buf : Z)
| C_provide (reason : option AbortReason) (buf : Z)
| C_collect (result : FetchOutcome) (buf : Z)
| C_pickup (reason : option AbortReason) (buf : Z)
| C_take_back (reason : option AbortReason) (buf : Z)
| C_deadline (reason : option AbortReason) (buf : Z)
| C_abort (reason : AbortReason) (buf : Z)
| C_grace (reason : AbortReason) (buf : Z)
| C_copied (reason : AbortReason) (buf : Z)
| C_abandon (reason : AbortReason)
| C_release (reason : AbortReason) (finished : list Z)
| C_done (result : FetchOutcome) (buf : Z)
| C_parsed (response : option (list Z)).

(** Where the helper's [serve] of the slot is. *)
Inductive HelperPc :=
| H_idle
| H_claim
| H_read (todo : list Lane) (got : list Z)
| H_copied (got : option (list Z))
| H_fetch (got : list Z) (aborted : bool)
| H_size (got response : list Z)
| H_needs (got response : list Z)
| H_wait (got response : list Z)
| H_buffer (got response : list Z)
| H_write (got response : list Z) (buf : Z)
| H_publish (state : Z)
| H_check (state : Z)
| H_free (state : Z).

(** What happens to a fetch: the abort lane is looked at, a chunk arrives, it ends. *)
Inductive FetchEvent := Watch | Chunk | Response (response : list Z) | Failure.

(** What the world decides at a step. *)
Record Choice := {
  late_pickup : bool;                    (** two seconds passed since the request *)
  cancellation : bool;                   (** the query was interrupted *)
  stalled : bool;                        (** nothing happened for the time of the timeout *)
  grace_over : bool;                     (** ten seconds passed since the abort *)
  malloc_result : Z;                     (** the address of a new block, or it fails *)
  readable : bool;                       (** the request can be decoded *)
  fetch_event : FetchEvent
}.

Record Mailbox := {
  lanes : Lane -> Z;
  heap : gmap Z (list Z);
  callers : nat -> CallerPc;
  helper : HelperPc;
  fetched : list (list Z * list Z)       (** inputs and response of completed fetches *)
}.

Definition set_lane (l : Lane) (v : Z) (m : Mailbox) : Mailbox :=
  {| lanes := <[l := v]> (lanes m); heap := heap m; callers := callers m; helper := helper m; fetched := fetched m |}.
Definition set_heap (h : gmap Z (list Z)) (m : Mailbox) : Mailbox :=
  {| lanes := lanes m; heap := h; callers := callers m; helper := helper m; fetched := fetched m |}.
Definition set_caller (k : nat) (p : CallerPc) (m : Mailbox) : Mailbox :=
  {| lanes := lanes m; heap := heap m; callers := <[k := p]> (callers m); helper := helper m; fetched := fetched m |}.
Definition set_helper (p : HelperPc) (m : Mailbox) : Mailbox :=
  {| lanes := lanes m; heap := heap m; callers := callers m; helper := p; fetched := fetched m |}.
Definition add_fetched (x : list Z * list Z) (m : Mailbox) : Mailbox :=
  {| lanes := lanes m; heap := heap m; callers := callers m; helper := helper m; fetched := fetched m ++ [x] |}.

Section Slot.
Context (requests : nat -> Lane -> Z).

(** What a caller stores before it publishes the request. *)
Definition request_stores (k : nat) : list (Lane * Z) :=
  map (fun l => (l, requests k l)) [URL_PTR; URL_LEN; METHOD; METHOD_LEN; HEADERS; HEADER_COUNT; BODY; BODY_LEN] ++
  [(SIZE, 0); (BUFFER, 0); (PROGRESS, 0); (COPIED, 0); (ABANDONED, 0); (ABORT, 0)].

(** [compare_exchange_strong(from, to)] of the state, and what follows. *)
Definition cas (from to : Z) (yes no : Mailbox -> Mailbox) (m : Mailbox) : Mailbox :=
  if lanes m STATE =? from then yes (set_lane STATE to m) else no m.

(** What a caller does with the state it found. *)
Definition at_state (state : Z) (reason : option AbortReason) (buf : Z) : CallerPc :=
  if state =? NEEDS_BUFFER then C_size reason
  else if state =? DONE then C_collect O_ok buf
  else if (state =? FAILED) || (state =? CANCELLED) then
    C_collect (if negb (buf =? 0) then O_failed else from_option abort_outcome O_failed reason) buf
  else C_pickup reason buf.

(** [FetchViaHelper] of caller [k], one access; at its end what [ParseWasmResponse] does
    with the buffer, which it owns. *)
Definition FetchViaHelper (ch : Choice) (k : nat) (m : Mailbox) : Mailbox :=
  match callers m k with
  | C_idle => cas FREE CLAIMED (set_caller k (C_store (request_stores k))) (set_caller k (C_done O_unavailable 0)) m
  | C_store ((l, v) :: todo) => set_caller k (C_store todo) (set_lane l v m)
  | C_store [] => set_caller k C_request m
  | C_request => set_caller k (C_look None 0) (set_lane STATE REQUEST m)
  | C_look reason buf => set_caller k (at_state (lanes m STATE) reason buf) m
  | C_size reason =>
      let b := malloc_result ch in
      if bool_decide (reason = None) && (0 <? b) && bool_decide (heap m !! b = None)
      then set_caller k (C_buffer reason b) (set_heap (<[b := replicate (Z.to_nat (lanes m SIZE)) 0]> (heap m)) m)
      else set_caller k (C_buffer reason 0) m
  | C_buffer reason buf => set_caller k (C_provide reason buf) (set_lane BUFFER buf m)
  | C_provide reason buf => set_caller k (C_look reason buf) (set_lane STATE BUFFER_PROVIDED m)
  | C_collect result buf =>
      let m := if bool_decide (result <> O_ok) && negb (buf =? 0) then set_heap (delete buf (heap m)) m else m in
      set_caller k (C_done result (if bool_decide (result = O_ok) then buf else 0)) (set_lane STATE FREE m)
  | C_pickup reason buf =>
      set_caller k (if (lanes m STATE =? REQUEST) && late_pickup ch then C_take_back reason buf else C_deadline reason buf) m
  | C_take_back reason buf =>
      cas REQUEST FREE (set_caller k (C_done O_unavailable 0)) (set_caller k (C_deadline reason buf)) m
  | C_deadline None buf =>
      set_caller k (if cancellation ch then C_abort R_cancelled buf
                    else if stalled ch then C_abort R_timed_out buf else C_look None buf) m
  | C_deadline (Some r) buf => set_caller k (if grace_over ch then C_grace r buf else C_look (Some r) buf) m
  | C_abort r buf => set_caller k (C_look (Some r) buf) (set_lane ABORT 1 m)
  | C_grace r buf => cas REQUEST FREE (set_caller k (C_done (abort_outcome r) 0)) (set_caller k (C_copied r buf)) m
  | C_copied r buf =>
      set_caller k (if lanes m COPIED =? 0 then C_look (Some r) buf else C_abandon r) m
  | C_abandon r => set_caller k (C_release r [DONE; FAILED; CANCELLED]) (set_lane ABANDONED 1 m)
  | C_release r (st :: finished) => cas st FREE (set_caller k (C_release r finished)) (set_caller k (C_release r finished)) m
  | C_release r [] => set_caller k (C_done (abort_outcome r) 0) m
  | C_done O_ok buf => set_caller k (C_parsed (heap m !! buf)) (set_heap (delete buf (heap m)) m)
  | C_done _ _ | C_parsed _ => m
  end.

(** The helper: [run]'s look at the slot, then [serve], one access. *)
Definition serve (ch : Choice) (m : Mailbox) : Mailbox :=
  match helper m with
  | H_idle => if lanes m STATE =? REQUEST then set_helper H_claim m else m
  | H_claim => cas REQUEST IN_FLIGHT (set_helper (H_read input_lanes [])) (set_helper H_idle) m
  | H_read (l :: todo) got =>
      set_helper (if readable ch then H_read (after_load l (lanes m l) todo) (got ++ [lanes m l]) else H_copied None) m
  | H_read [] got => set_helper (H_copied (if readable ch then Some got else None)) m
  | H_copied (Some got) => set_helper (H_fetch got false) (set_lane COPIED 1 m)
  | H_copied None => set_helper (H_publish FAILED) (set_lane COPIED 1 m)
  | H_fetch got aborted =>
      match fetch_event ch with
      | Watch => set_helper (H_fetch got (aborted || negb (lanes m ABORT =? 0))) m
      | Chunk => set_lane PROGRESS (lanes m PROGRESS + 1) m
      | Response response => add_fetched (got, response) (set_helper (H_size got response) m)
      | Failure => set_helper (H_publish (if aborted then CANCELLED else FAILED)) m
      end
  | H_size got response => set_helper (H_needs got response) (set_lane SIZE (lenZ response) m)
  | H_needs got response => set_helper (H_wait got response) (set_lane STATE NEEDS_BUFFER m)
  | H_wait got response =>
      if lanes m STATE =? NEEDS_BUFFER then m else set_helper (H_buffer got response) m
  | H_buffer got response =>
      set_helper (if lanes m BUFFER =? 0 then H_publish CANCELLED else H_write got response (lanes m BUFFER)) m
  | H_write got response buf => set_helper (H_publish DONE) (set_heap (<[buf := response]> (heap m)) m)
  | H_publish st => set_helper (H_check st) (set_lane STATE st m)
  | H_check st => set_helper (if lanes m ABANDONED =? 0 then H_idle else H_free st) m
  | H_free st => cas st FREE (set_helper H_idle) (set_helper H_idle) m
  end.

(** A caller between its last three compare-exchanges. *)
Definition releasing (p : CallerPc) : bool := match p with C_release _ _ => true | _ => false end.

Inductive slot_step : Mailbox -> Mailbox -> Prop :=
| ss_caller ch k m : slot_step m (FetchViaHelper ch k m)
| ss_helper ch m : slot_step m (serve ch m).

(** A caller that comes now gets the slot. *)
Definition claims (k : nat) (m : Mailbox) : bool :=
  match callers m k with C_idle => lanes m STATE =? FREE | _ => false end.

(** The same, when no caller claims the slot while another is between its last three
    compare-exchanges. *)
Inductive settled_step : Mailbox -> Mailbox -> Prop :=
| se_caller ch k m : (claims k m = true -> forall j, releasing (callers m j) = false) ->
    settled_step m (FetchViaHelper ch k m)
| se_helper ch m : settled_step m (serve ch m).

Definition initial_mailbox : Mailbox :=
  {| lanes := fun _ => 0; heap := ∅; callers := fun _ => C_idle; helper := H_idle; fetched := [] |}.
End Slot.
