(* ===== verification/HttpFacts.v ===== *)
(** * HttpFacts: what the helper's mailbox guarantees

    The wire format is read back as it was written.  [Inv] is the invariant of a slot
    when no caller claims it between the last three compare-exchanges of one that gives
    up ([settled_step]): one caller at most is inside, the helper is as far as the state
    says ([link]), and no two hold one block. *)
From S2P Require Import Prelude Text HttpFetch.
From stdpp Require Import base tactics list gmap functions.
From Stdlib Require Import ZArith Lia.
Open Scope Z_scope.

(** ** The wire format *)

Lemma le_2 v l : 0 <= v < 2 ^ 16 -> take_le 2 (le_bytes 2 v ++ l) = (v, l).
Proof.
  intros Hv. unfold take_le, le_bytes. cbn [seq map app take drop le_value].
  rewrite take_0. cbn [le_value]. f_equal.
  change (2 ^ (8 * Z.of_nat 0)) with 1. change (2 ^ (8 * Z.of_nat 1)) with 256.
  change (2 ^ 16) with 65536 in Hv. Z.to_euclidean_division_equations. lia.
Qed.

Lemma le_4 v l : 0 <= v < 2 ^ 32 -> take_le 4 (le_bytes 4 v ++ l) = (v, l).
Proof.
  intros Hv. unfold take_le, le_bytes. cbn [seq map app take drop le_value].
  rewrite take_0. cbn [le_value]. f_equal.
  change (2 ^ (8 * Z.of_nat 0)) with 1. change (2 ^ (8 * Z.of_nat 1)) with 256.
  change (2 ^ (8 * Z.of_nat 2)) with (256 * 256). change (2 ^ (8 * Z.of_nat 3)) with (256 * 256 * 256).
  change (2 ^ 32) with 4294967296 in Hv. rewrite <- !Z.div_div by lia.
  Z.to_euclidean_division_equations. lia.
Qed.

(** The engine reads back the status, the texts of the headers and the body. *)
Lemma encode_parsed (status : Z) (head body : list Z) :
  0 <= status < 2 ^ 16 -> lenZ head < 2 ^ 32 -> lenZ body < 2 ^ 32 ->
  parse_response (HttpFetch.encode status head body) = (status, head, body).
Proof.
  intros Hs Hh Hb. unfold parse_response, HttpFetch.encode.
  rewrite le_2 by done. rewrite le_4 by (unfold lenZ in *; lia).
  unfold lenZ at 1 3. rewrite Nat2Z.id, drop_app_length, take_app_length.
  rewrite le_4 by (unfold lenZ in *; lia).
  unfold lenZ. by rewrite Nat2Z.id, firstn_all.
Qed.

(** ** The invariant of a slot *)

Definition is_terminal (st : Z) : bool := (st =? DONE) || (st =? FAILED) || (st =? CANCELLED).

(** The caller holds the slot. *)
Definition inside (p : CallerPc) : bool :=
  match p with C_idle | C_done _ _ | C_parsed _ => false | _ => true end.

Inductive Mode := M_none | M_store | M_wait | M_release (finished : list Z).

(** How far the caller inside is. *)
Definition mode (p : option CallerPc) : Mode :=
  match p with
  | None => M_none
  | Some (C_store _ | C_request) => M_store
  | Some (C_release _ finished) => M_release finished
  | Some _ => M_wait
  end.

(** The state before the helper has claimed the request. *)
Definition before_claim (md : Mode) (s copied : Z) : Prop :=
  match md with
  | M_none => s = FREE
  | M_store => s = CLAIMED
  | M_wait => s = REQUEST /\ copied = 0
  | M_release _ => s = FREE
  end.

(** The state after the helper has published its end [s]. *)
Definition after_end (md : Mode) (s : Z) : Prop :=
  is_terminal s = true /\ match md with M_wait => True | M_release finished => s ∈ finished | _ => False end.

Definition unfinished (md : Mode) : Prop := md <> M_store.

Definition releasing_mode (md : Mode) : bool := match md with M_release _ => true | _ => false end.

(** What the helper's position says about the state. *)
Definition link (h : HelperPc) (md : Mode) (s copied : Z) : Prop :=
  match h with
  | H_idle | H_claim => before_claim md s copied \/ after_end md s
  | H_read _ _ | H_copied _ => md = M_wait /\ s = IN_FLIGHT /\ copied = 0
  | H_fetch _ _ | H_size _ _ | H_needs _ _ => md <> M_store /\ s = IN_FLIGHT
  | H_wait _ _ => md <> M_store /\ (s = NEEDS_BUFFER \/ s = BUFFER_PROVIDED)
  | H_buffer _ _ | H_write _ _ _ => md <> M_store /\ s = BUFFER_PROVIDED
  | H_publish st => md <> M_store /\ is_terminal st = true /\ (s = IN_FLIGHT \/ s = BUFFER_PROVIDED)
  | H_check st => is_terminal st = true /\
      (before_claim md s copied \/ (s = st /\ (md = M_none \/ releasing_mode md = true \/ after_end md s)))
  | H_free st => is_terminal st = true /\
      (before_claim md s copied \/ (s = st /\ (md = M_none \/ releasing_mode md = true)))
  end.

(** The block a caller has. *)
Definition owned (p : CallerPc) : option Z :=
  match p with
  | C_look _ b | C_buffer _ b | C_provide _ b | C_collect _ b | C_pickup _ b | C_take_back _ b
  | C_deadline _ b | C_abort _ b | C_grace _ b | C_copied _ b => if b =? 0 then None else Some b
  | C_done O_ok b => Some b
  | _ => None
  end.

(** The block the helper is writing to. *)
Definition hold (m : Mailbox) : option Z :=
  match helper m with
  | H_wait _ _ => if lanes m STATE =? BUFFER_PROVIDED then Some (lanes m BUFFER) else None
  | H_buffer _ _ => Some (lanes m BUFFER)
  | H_write _ _ b => Some b
  | H_publish st => if st =? DONE then Some (lanes m BUFFER) else None
  | _ => None
  end.

Definition block (m : Mailbox) (b n : Z) : Prop := exists l, heap m !! b = Some l /\ lenZ l = n.

Section Facts.
Context (requests : nat -> Lane -> Z).

(** The block [b] holds a response to the request of [k]. *)
Definition answered (m : Mailbox) (k : nat) (b : Z) : Prop :=
  exists r, heap m !! b = Some r /\ (request_inputs (requests k), r) ∈ fetched m.

(** What a caller that polls with the buffer [b] finds at the end [st]. *)
Definition ended (m : Mailbox) (k : nat) (st b : Z) : Prop :=
  if st =? DONE then b <> 0 /\ answered m k b else b = 0.

Definition polls (m : Mailbox) (k : nat) (b : Z) : Prop :=
  let s := lanes m STATE in
  if s =? BUFFER_PROVIDED then b = lanes m BUFFER
  else if is_terminal s then ended m k s b else b = 0.

Definition stored (todo : list (Lane * Z)) (f : Lane -> Z) : Lane -> Z :=
  foldl (fun f x => <[x.1 := x.2]> f) f todo.

(** What the caller inside knows at each of its steps. *)
Definition known (m : Mailbox) (k : nat) (p : CallerPc) : Prop :=
  match p with
  | C_store todo => Forall (fun x => x.1 <> STATE) todo /\
      forall x, x ∈ request_stores requests k -> stored todo (lanes m) x.1 = x.2
  | C_request => forall x, x ∈ request_stores requests k -> lanes m x.1 = x.2
  | C_look _ b | C_pickup _ b | C_take_back _ b | C_deadline _ b | C_abort _ b | C_grace _ b
  | C_copied _ b => polls m k b
  | C_size _ => lanes m STATE = NEEDS_BUFFER
  | C_buffer _ b => lanes m STATE = NEEDS_BUFFER /\ (b = 0 \/ block m b (lanes m SIZE))
  | C_provide _ b => lanes m STATE = NEEDS_BUFFER /\ lanes m BUFFER = b /\ (b = 0 \/ block m b (lanes m SIZE))
  | C_collect r b => is_terminal (lanes m STATE) = true /\ ended m k (lanes m STATE) b /\
      (r = O_ok <-> lanes m STATE = DONE)
  | C_abandon _ => lanes m COPIED <> 0
  | _ => True
  end.

(** What a caller that is through has. *)
Definition through (m : Mailbox) (k : nat) (p : CallerPc) : Prop :=
  match p with
  | C_done O_ok b => answered m k b
  | C_parsed x => exists r, x = Some r /\ (request_inputs (requests k), r) ∈ fetched m
  | _ => True
  end.

Definition reads (o : option nat) (got : list Z) : Prop :=
  forall k, o = Some k -> got = request_inputs (requests k).

(** What the helper knows. *)
Definition serves (o : option nat) (m : Mailbox) : Prop :=
  match helper m with
  | H_read todo got => todo ⊆ input_lanes /\ forall k, o = Some k -> got ++ inputs_of (requests k) todo = request_inputs (requests k)
  | H_copied (Some got) | H_fetch got _ => reads o got
  | H_size got r => reads o got /\ (got, r) ∈ fetched m
  | H_needs got r => reads o got /\ (got, r) ∈ fetched m /\ lanes m SIZE = lenZ r
  | H_wait got r => reads o got /\ (got, r) ∈ fetched m /\ lanes m SIZE = lenZ r /\
      (lanes m STATE = BUFFER_PROVIDED -> lanes m BUFFER = 0 \/ block m (lanes m BUFFER) (lenZ r))
  | H_buffer got r => reads o got /\ (got, r) ∈ fetched m /\
      (lanes m BUFFER = 0 \/ block m (lanes m BUFFER) (lenZ r))
  | H_write got r b => reads o got /\ (got, r) ∈ fetched m /\ b = lanes m BUFFER /\ b <> 0 /\ block m b (lenZ r)
  | H_publish st =>
      if st =? DONE
      then lanes m STATE = BUFFER_PROVIDED /\ lanes m BUFFER <> 0 /\
           forall k, o = Some k -> answered m k (lanes m BUFFER)
      else lanes m STATE = BUFFER_PROVIDED -> lanes m BUFFER = 0
  | _ => True
  end.

Definition abandoned_ok (md : Mode) (m : Mailbox) : Prop :=
  match md with
  | M_none => lanes m STATE = FREE \/ lanes m ABANDONED <> 0
  | M_store => True
  | M_wait => lanes m ABANDONED = 0
  | M_release finished => lanes m ABANDONED <> 0 /\ Forall (fun s => is_terminal s = true) finished
  end.

(** [o] is the caller inside. *)
Record inv (o : option nat) (m : Mailbox) : Prop := {
  i_inside : forall k, inside (callers m k) = true <-> o = Some k;
  i_link : link (helper m) (mode (callers m <$> o)) (lanes m STATE) (lanes m COPIED);
  i_abandoned : abandoned_ok (mode (callers m <$> o)) m;
  i_inputs : forall k, o = Some k -> mode (callers m <$> o) = M_wait ->
    forall l, l ∈ input_lanes -> lanes m l = requests k l;
  i_known : forall k, o = Some k -> known m k (callers m k);
  i_through : forall k, through m k (callers m k);
  i_serves : serves o m;
  i_owned : forall k b, owned (callers m k) = Some b -> b <> 0 /\ is_Some (heap m !! b);
  i_distinct : forall k j b, owned (callers m k) = Some b -> owned (callers m j) = Some b -> k = j;
  i_hold : forall k b, hold m = Some b -> owned (callers m k) = Some b -> o = Some k
}.

Lemma mailbox_initial : inv None initial_mailbox.
Proof. split; cbn; intros; try done; by left. Qed.

(** The lanes a request does not use are free to change, but not while it is stored. *)
Lemma inv_quiet o m l v :
  inv o m -> mode (callers m <$> o) <> M_store -> l ∈ [ABORT; PROGRESS] -> inv o (set_lane l v m).
Proof.
  intros [] Hm Hl. set_unfold in Hl.
  assert (forall k, o = Some k -> known m k (callers m k) -> known (set_lane l v m) k (callers m k)) as Hk.
  { intros k -> Hk. cbn in Hm. destruct Hl as [->|[->|[]]];
      destruct (callers m k); try exact Hk; by destruct Hm. }
  destruct Hl as [->|[->|[]]];
    (split; try assumption; [|by eauto]);
    intros k Ho Hw x Hx; pose proof (i_inputs0 k Ho Hw x Hx) as Hi;
    destruct x; try exact Hi; exfalso; clear -Hx; set_unfold; naive_solver.
Qed.

(** *** Steps of the helper *)

(** What remains to be shown of a step that leaves the callers where they are. *)
Lemma inv_serve o m m' :
  inv o m -> callers m' = callers m -> (forall l, l ∈ input_lanes -> lanes m' l = lanes m l) ->
  link (helper m') (mode (callers m <$> o)) (lanes m' STATE) (lanes m' COPIED) ->
  abandoned_ok (mode (callers m <$> o)) m' ->
  (forall k, o = Some k -> known m k (callers m k) -> known m' k (callers m k)) ->
  (forall k, through m k (callers m k) -> through m' k (callers m k)) ->
  serves o m' -> (forall b, is_Some (heap m !! b) -> is_Some (heap m' !! b)) ->
  (forall b, hold m' = Some b -> b = 0 \/ hold m = Some b) ->
  inv o m'.
Proof.
  intros [] Hc Hi Hl Ha Hk Ht Hs Hh Ho. split; rewrite ?Hc; eauto.
  - intros k -> Hm l Hin. rewrite Hi by done. eauto.
  - intros k b Hb. destruct (i_owned0 k b Hb). eauto.
  - intros k b Hb Hw. destruct (Ho b Hb) as [->|]; [|eauto]. by destruct (i_owned0 k 0 Hw).
Qed.

(** A move of the helper alone. *)
Lemma inv_helper o m h :
  inv o m -> link h (mode (callers m <$> o)) (lanes m STATE) (lanes m COPIED) -> serves o (set_helper h m) ->
  (forall b, hold (set_helper h m) = Some b -> b = 0 \/ hold m = Some b) ->
  inv o (set_helper h m).
Proof. intros I Hl Hs Hh. pose proof I as []. eapply inv_serve; eauto. Qed.

(** A move of the helper that sets the state. *)
Lemma inv_publish o m h s :
  inv o m -> link h (mode (callers m <$> o)) s (lanes m COPIED) ->
  abandoned_ok (mode (callers m <$> o)) (set_lane STATE s m) ->
  (forall k, o = Some k -> known m k (callers m k) -> known (set_lane STATE s m) k (callers m k)) ->
  serves o (set_helper h (set_lane STATE s m)) ->
  (forall b, hold (set_helper h (set_lane STATE s m)) = Some b -> b = 0 \/ hold m = Some b) ->
  inv o (set_helper h (set_lane STATE s m)).
Proof.
  intros I Hl Ha Hk Hs Hh. pose proof I as []. eapply inv_serve; eauto.
  intros l Hin. destruct l; try done. exfalso. clear -Hin. set_unfold. naive_solver.
Qed.

Lemma terminal_cases s : is_terminal s = true -> s = DONE \/ s = FAILED \/ s = CANCELLED.
Proof. unfold is_terminal. lia. Qed.

Lemma mode_wait o m : inv o m -> mode (callers m <$> o) = M_wait -> exists k, o = Some k.
Proof. destruct o; cbn; [eauto|done]. Qed.

Lemma mode_release o m :
  inv o m -> (forall k, releasing (callers m k) = false) -> releasing_mode (mode (callers m <$> o)) = false.
Proof. intros _ Hr. destruct o as [k|]; [|done]. specialize (Hr k). cbn. by destruct (callers m k). Qed.

(** The helper is at work and the caller has nothing to do but poll. *)
Definition busy (s : Z) : Prop := is_terminal s = false /\ s <> BUFFER_PROVIDED.

Lemma known_busy m m' k p :
  mode (Some p) <> M_store -> busy (lanes m STATE) -> lanes m STATE <> NEEDS_BUFFER -> busy (lanes m' STATE) ->
  (lanes m COPIED <> 0 -> lanes m' COPIED <> 0) -> known m k p -> known m' k p.
Proof.
  intros Hm [Ht Hp] Hn [Ht' Hp'] Hc. apply Z.eqb_neq in Hp, Hp'.
  destruct p; cbn; unfold polls; rewrite ?Ht, ?Hp, ?Ht', ?Hp'; try done; naive_solver.
Qed.

(** The helper claims the request, or finds it gone. *)
Lemma claim_inv o m :
  inv o m -> helper m = H_claim ->
  inv o (cas REQUEST IN_FLIGHT (set_helper (H_read input_lanes [])) (set_helper H_idle) m).
Proof.
  intros I Hh. pose proof I as []. rewrite Hh in *. cbn [link] in *. unfold cas. ifs.
  - assert (lanes m STATE = REQUEST) as Hs by lia.
    assert (mode (callers m <$> o) = M_wait /\ lanes m COPIED = 0) as [Hm Hc].
    { destruct i_link0 as [Hb|[Ht _]]; [|by rewrite Hs in Ht].
      rewrite Hs in Hb. destruct (mode _); try done. by destruct Hb. }
    apply inv_publish; rewrite ?Hm; cbn; auto; [by rewrite Hm in i_abandoned0| |done..].
    intros k ->. apply known_busy; rewrite ?Hs; try done.
    change (mode (callers m <$> Some k) <> M_store). by rewrite Hm.
  - apply inv_helper; rewrite ?Hh; done.
Qed.

(** It loads an input of the request. *)
Lemma read_inv o m l todo got :
  inv o m -> helper m = H_read (l :: todo) got ->
  inv o (set_helper (H_read (after_load l (lanes m l) todo) (got ++ [lanes m l])) m).
Proof.
  intros I Hh. pose proof I as []. rewrite Hh in *. cbn [link] in *. destruct i_link0 as (Hm & Hs & Hc).
  unfold serves in i_serves0. rewrite Hh in i_serves0. destruct i_serves0 as [Hsub Hg].
  assert (l ∈ input_lanes) as Hl by (apply Hsub; left).
  apply inv_helper; [done|by rewrite Hm| |done]. split.
  - unfold after_load. ifs; [apply list_subseteq_nil|]. intros x Hx. apply Hsub. by right.
  - intros k ->. rewrite <- (Hg k eq_refl). cbn [inputs_of].
    rewrite <- (i_inputs0 k eq_refl Hm l Hl), <- app_assoc. unfold after_load. by ifs.
Qed.

(** It is done with the request's memory. *)
Lemma copied_inv o m h :
  inv o m -> (exists got, helper m = H_copied got) -> hold (set_helper h m) = None ->
  link h M_wait IN_FLIGHT 1 ->
  serves o (set_helper h (set_lane COPIED 1 m)) -> inv o (set_helper h (set_lane COPIED 1 m)).
Proof.
  intros I [got Hh] Hd Hl Hs. pose proof I as []. rewrite Hh in *. cbn [link] in *.
  destruct i_link0 as (Hm & Hst & Hc).
  apply (inv_serve o m); try done.
  - intros l Hin. destruct l; try done. exfalso. clear -Hin. set_unfold. naive_solver.
  - rewrite Hm. rewrite <- Hst in Hl. exact Hl.
  - intros k -> Hk. cbn in Hm. by destruct (callers m k).
  - intros b Hb. change (hold (set_helper h m) = Some b) in Hb. by rewrite Hd in Hb.
Qed.

(** It gets the response, tells its size, and asks for a buffer. *)
Lemma response_inv o m got aborted r :
  inv o m -> helper m = H_fetch got aborted ->
  inv o (add_fetched (got, r) (set_helper (H_size got r) m)).
Proof.
  intros I Hh. pose proof I as []. unfold serves in i_serves0. rewrite Hh in *. cbn [link] in *.
  destruct i_link0 as [Hm Hs]. apply (inv_serve o m); try done.
  - intros k ->. apply known_busy; cbn; by rewrite ?Hs.
  - intros k Hk. destruct (callers m k) as [| | | | | | | | | | | | | | | |[] b|x]; try done; cbn in *;
      destruct Hk as (x' & Hx & Hin); exists x'; split; try done; apply elem_of_app; by left.
  - split; [done|]. apply elem_of_app. right. by left.
Qed.

Lemma size_inv o m got r :
  inv o m -> helper m = H_size got r -> inv o (set_helper (H_needs got r) (set_lane SIZE (lenZ r) m)).
Proof.
  intros I Hh. pose proof I as []. unfold serves in i_serves0. rewrite Hh in *. cbn [link] in *.
  destruct i_link0 as [Hm Hs]. destruct i_serves0. apply (inv_serve o m); try done.
  - intros l Hin. destruct l; try done. exfalso. clear -Hin. set_unfold. naive_solver.
  - intros k ->. apply known_busy; try change (busy (lanes m STATE)); by rewrite ?Hs.
Qed.

Lemma needs_inv o m got r :
  inv o m -> helper m = H_needs got r -> inv o (set_helper (H_wait got r) (set_lane STATE NEEDS_BUFFER m)).
Proof.
  intros I Hh. pose proof I as []. unfold serves in i_serves0. rewrite Hh in *. cbn [link] in *.
  destruct i_link0 as [Hm Hs]. destruct i_serves0 as (Hr & Hf & Hz). apply inv_publish; try done.
  - cbn. auto.
  - destruct (mode _); try done. cbn in *. rewrite Hs in *. by destruct i_abandoned0; [|right].
  - intros k ->. apply known_busy; by rewrite ?Hs.
Qed.

(** The buffer is there, or null. *)
Lemma buffer_inv o m got r :
  inv o m -> helper m = H_buffer got r ->
  inv o (set_helper (if lanes m BUFFER =? 0 then H_publish CANCELLED else H_write got r (lanes m BUFFER)) m).
Proof.
  intros I Hh. pose proof I as []. unfold serves in i_serves0. rewrite Hh in *. cbn [link] in *.
  destruct i_link0 as [Hm Hs]. destruct i_serves0 as (Hr & Hf & Hb).
  destruct (lanes m BUFFER =? 0) eqn:E.
  - apply inv_helper; [done|by cbn; auto|intros _; cbn; lia|done].
  - apply inv_helper; [done|done|cbn; repeat split; auto; [lia|]|].
    + destruct Hb; [lia|done].
    + intros b. unfold hold. rewrite Hh. cbn. auto.
Qed.

(** The write keeps what other callers have in their buffers. *)
Lemma through_write o m k b l :
  inv o m -> hold m = Some b ->
  through m k (callers m k) -> through (set_heap (<[b := l]> (heap m)) m) k (callers m k).
Proof.
  intros [] Hh. destruct (callers m k) as [| | | | | | | | | | | | | | | |[] b'|x] eqn:Hc; try done.
  intros (r & Hr & Hin). exists r. split; [|done]. cbn. rewrite lookup_insert_ne; [done|]. intros ->.
  assert (o = Some k) as Ho by (apply (i_hold0 k b' Hh); by rewrite Hc).
  apply i_inside0 in Ho. by rewrite Hc in Ho.
Qed.

Lemma write_inv o m got r b :
  inv o m -> helper m = H_write got r b ->
  inv o (set_helper (H_publish DONE) (set_heap (<[b := r]> (heap m)) m)).
Proof.
  intros I Hh. pose proof I as []. unfold serves in i_serves0. rewrite Hh in *. cbn [link] in *.
  destruct i_link0 as [Hm Hs]. destruct i_serves0 as (Hr & Hf & -> & Hb & Hl).
  apply (inv_serve o m); try done.
  - cbn. auto.
  - intros k -> Hk. destruct (callers m k); try exact Hk; cbn in *; unfold polls in *;
      change (lanes _ STATE) with (lanes m STATE) in *; rewrite ?Hs in *; try exact Hk; by destruct Hk.
  - intros k Ht. apply (through_write o m k _ r I); [|done]. unfold hold. by rewrite Hh.
  - cbn. repeat split; try done. intros k ->. exists r. cbn. rewrite lookup_insert_eq.
    split; [done|]. rewrite (Hr k eq_refl) in Hf. exact Hf.
  - intros b' Hb'. cbn. destruct (decide (lanes m BUFFER = b')) as [<-|];
      [rewrite lookup_insert_eq|rewrite lookup_insert_ne]; by eauto.
  - intros b' Hb'. right. unfold hold. rewrite Hh. exact Hb'.
Qed.

(** The end that the helper publishes is what the caller finds. *)
Lemma polls_end m k st b :
  lanes m STATE = IN_FLIGHT \/ lanes m STATE = BUFFER_PROVIDED -> is_terminal st = true ->
  helper m = H_publish st -> serves (Some k) m -> polls m k b -> polls (set_lane STATE st m) k b.
Proof.
  unfold serves, polls. intros Hs Ht Hh Hv Hp. rewrite Hh in Hv.
  change (lanes (set_lane STATE st m) STATE) with st. rewrite Ht.
  destruct (st =? BUFFER_PROVIDED) eqn:E; [apply terminal_cases in Ht; apply Z.eqb_eq in E; naive_solver|].
  unfold ended. destruct (st =? DONE).
  - destruct Hv as (He & Hb & Ha). rewrite He in Hp. cbn in Hp. subst b. split; [done|]. by apply Ha.
  - destruct Hs as [He|He]; rewrite He in *; cbn in Hp; [done|]. by rewrite Hp, Hv.
Qed.

Lemma end_inv o m st :
  inv o m -> helper m = H_publish st ->
  inv o (set_helper (H_check st) (set_lane STATE st m)).
Proof.
  intros I Hh. pose proof I as []. pose proof i_serves0 as Hv. unfold serves in i_serves0.
  rewrite Hh in *. cbn [link] in *.
  destruct i_link0 as (Hm & Ht & Hs). apply inv_publish; try done.
  - cbn. split; [done|]. right. split; [done|]. unfold after_end. destruct (mode _) eqn:E; auto; done.
  - destruct (mode _); try done. cbn in *. destruct i_abandoned0 as [Hf|]; [|by right].
    rewrite Hf in Hs. by destruct Hs.
  - intros k -> Hk. cbn in Hm. destruct (callers m k); try done; cbn [known] in *;
      first [by destruct Hm | by eapply polls_end
            | destruct Hs as [He|He]; rewrite He in Hk; by (discriminate Hk || destruct Hk)].
Qed.

(** Whoever sees a finished request last frees the slot. *)
Lemma check_inv o m st :
  inv o m -> helper m = H_check st ->
  inv o (set_helper (if lanes m ABANDONED =? 0 then H_idle else H_free st) m).
Proof.
  intros I Hh. pose proof I as []. rewrite Hh in *. cbn [link] in *. destruct i_link0 as [Ht Hl].
  apply inv_helper; try done; ifs; try done.
  - cbn. destruct Hl as [|[Hs [Hn|[Hr|Ha]]]]; auto.
    + rewrite Hn in *. cbn in *. left. naive_solver lia.
    + destruct (mode _); try done. cbn in *. destruct i_abandoned0. lia.
  - cbn. split; [done|]. destruct Hl as [|[Hs [Hn|[Hr|Ha]]]]; auto.
    destruct Ha as [_ Ha]. destruct (mode _); try done; cbn in *; [lia|auto].
Qed.

Lemma free_inv o m st :
  inv o m -> helper m = H_free st -> inv o (cas st FREE (set_helper H_idle) (set_helper H_idle) m).
Proof.
  intros I Hh. pose proof I as []. rewrite Hh in *. cbn [link] in *. destruct i_link0 as (Ht & Hl).
  unfold cas. destruct (lanes m STATE =? st) eqn:E.
  - assert (mode (callers m <$> o) = M_none \/ releasing_mode (mode (callers m <$> o)) = true) as Hn.
    { destruct Hl as [Hb|[]]; [|done]. apply Z.eqb_eq in E. subst st. unfold before_claim in Hb.
      destruct (mode _); auto; [by rewrite Hb in Ht|destruct Hb as [Hb _]; by rewrite Hb in Ht]. }
    assert (before_claim (mode (callers m <$> o)) FREE (lanes m COPIED)) as Hb
      by (destruct Hn as [->|Hn]; [done|by destruct (mode _)]).
    apply inv_publish; try done; cbn; auto.
    + destruct Hn as [->|Hn]; [by left|]. by destruct (mode _).
    + intros k ->. clear -Hn. cbn in Hn. destruct (callers m k); naive_solver.
  - apply inv_helper; try done. cbn. destruct Hl as [|[Hs _]]; [auto|lia].
Qed.

(** The helper keeps the invariant. *)
Lemma serve_inv ch o m :
  inv o m -> inv o (serve ch m).
Proof.
  intros I. pose proof (i_serves _ _ I) as Hs. pose proof (i_link _ _ I) as Hl.
  unfold serve, serves in *. destruct (helper m) eqn:Hh.
  - ifs; [|done]. apply inv_helper; rewrite ?Hh in *; done.
  - by apply claim_inv.
  - destruct todo as [|l todo]; [|ifs; [by apply read_inv|]]; ifs;
      apply inv_helper; try done. cbn. intros k Hk. destruct Hs as [_ Hs].
      specialize (Hs k Hk). by rewrite app_nil_r in Hs.
  - destruct got; (eapply copied_inv; [done|by eauto|done|cbn; auto|]); [done|].
    destruct Hl as (_ & Hst & _). intros He. change (lanes m STATE = BUFFER_PROVIDED) in He. by rewrite He in Hst.
  - destruct (fetch_event ch).
    + by apply inv_helper.
    + apply inv_quiet; [done| |by right; left]. destruct Hl as [Hm _]. done.
    + by eapply response_inv.
    + apply inv_helper; try done.
      * destruct Hl. ifs; cbn; auto.
      * destruct Hl as [_ Hst]. ifs; cbn; rewrite Hst; done.
      * by ifs.
  - by apply size_inv.
  - by apply needs_inv.
  - ifs; [done|]. destruct Hl as [Hm Hst]. destruct Hs as (H1 & H2 & H3 & H4).
    assert (lanes m STATE = BUFFER_PROVIDED) as He by (destruct Hst; lia).
    apply inv_helper; try done; [cbn; auto|]. unfold hold. rewrite Hh. cbn. rewrite He. auto.
  - by apply buffer_inv.
  - by eapply write_inv.
  - by apply end_inv.
  - by apply check_inv.
  - by apply free_inv.
Qed.

(** *** Steps of a caller *)

(** What remains to be shown of a step after which caller [k] is inside. *)
Lemma inv_inside o k m m' p :
  inv o m -> o = None \/ o = Some k -> callers m' = <[k := p]> (callers m) -> inside p = true ->
  link (helper m') (mode (Some p)) (lanes m' STATE) (lanes m' COPIED) ->
  abandoned_ok (mode (Some p)) m' ->
  (mode (Some p) = M_wait -> forall l, l ∈ input_lanes -> lanes m' l = requests k l) ->
  known m' k p -> (forall j, j <> k -> through m j (callers m j) -> through m' j (callers m j)) ->
  serves (Some k) m' -> (forall b, is_Some (heap m !! b) -> is_Some (heap m' !! b)) ->
  (forall b, owned p = Some b ->
     owned (callers m k) = Some b \/ (b <> 0 /\ heap m !! b = None /\ is_Some (heap m' !! b))) ->
  (forall j b, j <> k -> hold m' = Some b -> owned (callers m j) = Some b -> hold m = Some b) ->
  inv (Some k) m'.
Proof.
  intros [] Hok Hc Hp Hl Ha Hi Hk Ht Hs Hh Ho Hd.
  assert (callers m' k = p) as Hck by (by rewrite Hc, fn_lookup_insert).
  assert (forall j, j <> k -> callers m' j = callers m j) as Hcj by (intros; by rewrite Hc, fn_lookup_insert_ne).
  assert (forall j b, j <> k -> owned (callers m j) = Some b -> owned p <> Some b) as Hfresh.
  { intros j b Hj Hb Hpb. destruct (Ho b Hpb) as [Hb'|(_ & Hn & _)]; [by destruct Hj; eauto|].
    destruct (i_owned0 j b Hb) as [_ []]. congruence. }
  split; cbn; rewrite ?Hck; try done.
  - intros j. destruct (decide (j = k)) as [->|Hj]; [by rewrite Hck|]. rewrite Hcj, i_inside0 by done. naive_solver.
  - intros j [= <-]. eauto.
  - intros j [= <-]. by rewrite Hck.
  - intros j. destruct (decide (j = k)) as [->|Hj]; [rewrite Hck; by destruct p|]. rewrite Hcj by done. eauto.
  - intros j b. destruct (decide (j = k)) as [->|Hj]; [rewrite Hck|rewrite Hcj by done].
    + intros [Hb|(? & _ & ?)]%Ho; [|done]. destruct (i_owned0 k b Hb). eauto.
    + intros Hb. destruct (i_owned0 j b Hb). eauto.
  - intros i j b. destruct (decide (i = k)) as [->|Hi'], (decide (j = k)) as [->|Hj]; rewrite ?Hck, ?Hcj by done;
      [done| | |by eauto]; intros Hb Hb'; exfalso; eapply Hfresh; eauto.
  - intros j b Hb. destruct (decide (j = k)) as [->|Hj]; [done|]. rewrite Hcj by done.
    intros Hw. pose proof (i_hold0 j b (Hd j b Hj Hb Hw) Hw). naive_solver.
Qed.

(** A move of the caller alone. *)
Lemma inv_move k m p :
  inv (Some k) m -> inside p = true -> mode (Some p) = mode (Some (callers m k)) -> known m k p ->
  owned p = None \/ owned p = owned (callers m k) -> inv (Some k) (set_caller k p m).
Proof.
  intros I Hp Hm Hk Ho. pose proof I as []. cbn [fmap option_fmap option_map] in *.
  apply (inv_inside (Some k) k m _ p); rewrite ?Hm; eauto.
  intros b Hb. destruct Ho; [congruence|left; congruence].
Qed.

(** What remains to be shown of a caller's last step. *)
Lemma inv_leave k m m' p :
  inv (Some k) m -> callers m' = <[k := p]> (callers m) -> inside p = false ->
  link (helper m') M_none (lanes m' STATE) (lanes m' COPIED) -> abandoned_ok M_none m' ->
  through m' k p -> heap m' = heap m -> fetched m' = fetched m -> serves None m' ->
  (forall b, owned p = Some b -> owned (callers m k) = Some b /\ hold m' = None) ->
  (forall b, hold m' = Some b -> hold m = Some b) ->
  inv None m'.
Proof.
  intros [] Hc Hp Hl Ha Ht Hh Hf Hs Ho Hd.
  assert (callers m' k = p) as Hck by (by rewrite Hc, fn_lookup_insert).
  assert (forall j, j <> k -> callers m' j = callers m j) as Hcj by (intros; by rewrite Hc, fn_lookup_insert_ne).
  split; cbn; try done.
  - intros j. destruct (decide (j = k)) as [->|Hj]; [by rewrite Hck, Hp|]. rewrite Hcj, i_inside0 by done. naive_solver.
  - intros j. destruct (decide (j = k)) as [->|Hj]; [by rewrite Hck|]. rewrite Hcj by done.
    pose proof (i_through0 j) as Hj'. unfold through, answered in *. by rewrite Hh, Hf.
  - intros j b. rewrite Hh. destruct (decide (j = k)) as [->|Hj]; [rewrite Hck|rewrite Hcj by done; eauto].
    intros [Hb _]%Ho. eauto.
  - intros i j b. destruct (decide (i = k)) as [->|Hi'], (decide (j = k)) as [->|Hj]; rewrite ?Hck, ?Hcj by done;
      [done|intros [Hb _]%Ho ?|intros ? [Hb _]%Ho|]; eauto.
  - intros j b Hb. destruct (decide (j = k)) as [->|Hj]; [rewrite Hck|rewrite Hcj by done].
    + intros [_ Hn]%Ho. congruence.
    + intros Hb'. pose proof (i_hold0 j b (Hd b Hb) Hb'). congruence.
Qed.

(** The helper rests while a caller stores its request. *)
Definition resting (h : HelperPc) : bool :=
  match h with H_idle | H_claim | H_check _ | H_free _ => true | _ => false end.

Lemma store_rests h s copied :
  link h M_store s copied -> resting h = true /\ s = CLAIMED.
Proof. destruct h; cbn; unfold after_end; naive_solver. Qed.

Lemma resting_link h md md' s s' copied copied' :
  link h md s copied -> resting h = true -> is_terminal s = false ->
  before_claim md' s' copied' -> link h md' s' copied'.
Proof. destruct h; cbn; naive_solver. Qed.

Lemma resting_serves o (m : Mailbox) : resting (helper m) = true -> serves o m.
Proof. unfold serves. by destruct (helper m). Qed.

Lemma resting_hold (m : Mailbox) : resting (helper m) = true -> hold m = None.
Proof. unfold hold. by destruct (helper m). Qed.

(** A free slot has nobody inside. *)
Lemma free_outside o m :
  inv o m -> lanes m STATE = FREE -> releasing_mode (mode (callers m <$> o)) = false ->
  o = None /\ resting (helper m) = true.
Proof.
  intros I Hs Hr. pose proof I as []. rewrite Hs in *.
  assert (mode (callers m <$> o) = M_none /\ resting (helper m) = true) as [Hm ?].
  { destruct (helper m); cbn in *; unfold after_end, before_claim in *; destruct (mode _); naive_solver. }
  split; [|done]. destruct o as [k|]; [|done]. cbn in Hm.
  assert (inside (callers m k) = true) as Hin by (by apply i_inside0). by destruct (callers m k).
Qed.

Lemma claim_slot_inv o m k :
  inv o m -> callers m k = C_idle -> releasing_mode (mode (callers m <$> o)) = false -> lanes m STATE = FREE ->
  inv (Some k) (set_caller k (C_store (request_stores requests k)) (set_lane STATE CLAIMED m)).
Proof.
  intros I Hk Hr Hs. destruct (free_outside o m I Hs Hr) as [-> Hh]. pose proof I as [].
  eapply inv_inside; try done; [by left| | |by apply resting_serves|].
  - eapply resting_link; [exact i_link0|done..|by rewrite Hs|done].
  - split; [by repeat constructor|]. intros x Hx. cbn in Hx.
    repeat (apply elem_of_cons in Hx as [->|Hx]; [reflexivity|]). by apply not_elem_of_nil in Hx.
  - intros j b _ Hb. rewrite resting_hold in Hb; done.
Qed.

Lemma store_lane_inv m k l v todo :
  inv (Some k) m -> callers m k = C_store ((l, v) :: todo) ->
  inv (Some k) (set_caller k (C_store todo) (set_lane l v m)).
Proof.
  intros I Hk. pose proof I as []. pose proof (i_known0 k eq_refl) as Hn. rewrite Hk in Hn.
  destruct Hn as [Hst Hn]. inversion Hst as [|? ? Hl Hst']. cbn in Hl, i_link0, i_abandoned0. rewrite Hk in *.
  destruct (store_rests _ _ _ i_link0) as [Hr Hs].
  assert (lanes (set_lane l v m) STATE = CLAIMED) as Hs' by (cbn; by rewrite fn_lookup_insert_ne).
  eapply (inv_inside (Some k)); try done; [by right| |by apply resting_serves|].
  - eapply resting_link; [exact i_link0|done..|by rewrite Hs|exact Hs'].
  - intros j b _ Hb. rewrite resting_hold in Hb; done.
Qed.

Lemma stores_inputs k l : l ∈ input_lanes -> (l, requests k l) ∈ request_stores requests k.
Proof.
  intros Hl. apply elem_of_app. left. apply list_elem_of_fmap. exists l. split; [done|].
  revert Hl. destruct l; apply (bool_decide_unpack _); exact Logic.I.
Qed.

(** The request is published. *)
Lemma request_inv m k :
  inv (Some k) m -> callers m k = C_request ->
  inv (Some k) (set_caller k (C_look None 0) (set_lane STATE REQUEST m)).
Proof.
  intros I Hk. pose proof I as []. pose proof (i_known0 k eq_refl) as Hn. rewrite Hk in Hn.
  cbn in Hn, i_link0. rewrite Hk in *.
  destruct (store_rests _ _ _ i_link0) as [Hr Hs].
  eapply (inv_inside (Some k)); try done; [by right| | | |by apply resting_serves|].
  - eapply resting_link; [exact i_link0|done..|by rewrite Hs|].
    split; [done|]. apply (Hn (COPIED, 0)). cbn. repeat first [by left | right].
  - apply (Hn (ABANDONED, 0)). cbn. repeat first [by left | right].
  - intros _ l Hl. pose proof (Hn _ (stores_inputs k l Hl)) as He. destruct l; try exact He.
    exfalso. revert Hl. apply (bool_decide_unpack _). exact Logic.I.
  - intros j b _ Hb. rewrite resting_hold in Hb; done.
Qed.

(** The caller acts on the state it finds. *)
Lemma look_inv m k reason buf :
  inv (Some k) m -> callers m k = C_look reason buf ->
  inv (Some k) (set_caller k (at_state (lanes m STATE) reason buf) m).
Proof.
  intros I Hk. pose proof (i_known _ _ I k eq_refl) as Hn. rewrite Hk in Hn. cbn in Hn.
  assert (Hn' := Hn). unfold polls in Hn'. unfold at_state, is_terminal in *.
  destruct (lanes m STATE =? NEEDS_BUFFER) eqn:E1; [|destruct (lanes m STATE =? DONE) eqn:E2;
    [|destruct ((lanes m STATE =? FAILED) || (lanes m STATE =? CANCELLED)) eqn:E3]];
    (apply inv_move; [done|done|by rewrite Hk| |rewrite Hk; by auto]).
  - cbn. lia.
  - apply Z.eqb_eq in E2. rewrite E2 in Hn'. cbn in *. by rewrite E2.
  - assert (buf = 0) as ->.
    { apply orb_true_iff in E3 as [E3|E3]; apply Z.eqb_eq in E3; by rewrite E3 in Hn'. }
    cbn. unfold ended, is_terminal. rewrite E2, <- orb_assoc, E3. repeat split; try done.
    + intros Hr. by destruct reason as [[]|].
    + lia.
  - done.
Qed.

(** Who asks for a buffer is the helper. *)
Lemma needs_waits k m :
  inv (Some k) m -> mode (Some (callers m k)) = M_wait -> lanes m STATE = NEEDS_BUFFER ->
  exists got r, helper m = H_wait got r.
Proof.
  intros I Hm Hs. pose proof (i_link _ _ I) as Hl. cbn [fmap option_fmap option_map] in Hl. rewrite Hm, Hs in Hl.
  destruct (helper m); cbn in Hl; unfold after_end in Hl; naive_solver.
Qed.

Lemma waits k m :
  inv (Some k) m -> mode (Some (callers m k)) = M_wait ->
  link (helper m) M_wait (lanes m STATE) (lanes m COPIED) /\ lanes m ABANDONED = 0 /\
  forall l, l ∈ input_lanes -> lanes m l = requests k l.
Proof.
  intros [] Hm. cbn [fmap option_fmap option_map] in *. rewrite Hm in *. split; [done|]. split; [done|]. by apply i_inputs0.
Qed.

Lemma inputs_kept k m l v :
  bool_decide (l ∈ input_lanes) = false -> (forall x, x ∈ input_lanes -> lanes m x = requests k x) ->
  forall x, x ∈ input_lanes -> lanes (set_lane l v m) x = requests k x.
Proof.
  intros Hl Hi x Hx. cbn. apply bool_decide_eq_false in Hl.
  rewrite fn_lookup_insert_ne; [auto|]. by intros ->.
Qed.

Lemma malloc_inv m k reason b :
  inv (Some k) m -> callers m k = C_size reason -> 0 < b -> heap m !! b = None ->
  inv (Some k) (set_caller k (C_buffer reason b)
    (set_heap (<[b := replicate (Z.to_nat (lanes m SIZE)) 0]> (heap m)) m)).
Proof.
  intros I Hk Hb Hf. pose proof I as []. pose proof (i_known0 k eq_refl) as Hn. rewrite Hk in Hn. cbn in Hn.
  destruct (needs_waits k m I) as (got & r & Hh); [by rewrite Hk|done|].
  destruct (waits k m I) as (Hl & Ha & Hi); [by rewrite Hk|].
  assert (forall b' l, heap m !! b' = Some l ->
    heap m !! b' = (<[b := replicate (Z.to_nat (lanes m SIZE)) 0]> (heap m)) !! b') as Hkeep.
  { intros b' l Hl'. rewrite lookup_insert_ne; [done|]. intros ->. congruence. }
  unfold serves in i_serves0. rewrite Hh in i_serves0. destruct i_serves0 as (Hr & Hin & Hz & _).
  eapply (inv_inside (Some k)); try done; [by right|..].
  - split; [done|]. right. exists (replicate (Z.to_nat (lanes m SIZE)) 0). cbn. rewrite lookup_insert_eq.
    split; [done|]. unfold lenZ in *. rewrite length_replicate. lia.
  - intros j _. destruct (callers m j) as [| | | | | | | | | | | | | | | |[] b'|x]; try done.
    intros (r' & Hr' & Hin'). exists r'. split; [|done]. cbn. by rewrite <- (Hkeep _ _ Hr').
  - unfold serves. cbn. rewrite Hh. repeat split; try done. change (lanes _ STATE) with (lanes m STATE). by rewrite Hn.
  - intros b' [l Hb']. cbn. rewrite <- (Hkeep _ _ Hb'). eauto.
  - cbn. intros b' Hb'. right. destruct (b =? 0) eqn:E; [done|]. injection Hb' as <-.
    rewrite lookup_insert_eq. split; [lia|eauto].
Qed.

Lemma buffer_lane_inv m k reason b :
  inv (Some k) m -> callers m k = C_buffer reason b ->
  inv (Some k) (set_caller k (C_provide reason b) (set_lane BUFFER b m)).
Proof.
  intros I Hk. pose proof I as []. pose proof (i_known0 k eq_refl) as Hn. rewrite Hk in Hn. destruct Hn as [Hs Hb].
  destruct (needs_waits k m I) as (got & r & Hh); [by rewrite Hk|done|].
  destruct (waits k m I) as (Hl & Ha & Hi); [by rewrite Hk|].
  unfold serves in i_serves0. rewrite Hh in i_serves0. destruct i_serves0 as (Hr & Hin & Hz & _).
  eapply (inv_inside (Some k)); try done; [by right|..].
  - intros _. by apply inputs_kept.
  - unfold serves. cbn. rewrite Hh. repeat split; try done.
    intros Hp. change (lanes m STATE = BUFFER_PROVIDED) in Hp. by rewrite Hs in Hp.
  - intros b' Hb'. left. by rewrite Hk.
  - intros j b' _. unfold hold. change (helper (set_caller _ _ _)) with (helper m). rewrite Hh.
    change (lanes (set_caller _ _ _) STATE) with (lanes m STATE). by rewrite Hs.
Qed.

Lemma provide_inv m k reason b :
  inv (Some k) m -> callers m k = C_provide reason b ->
  inv (Some k) (set_caller k (C_look reason b) (set_lane STATE BUFFER_PROVIDED m)).
Proof.
  intros I Hk. pose proof I as []. pose proof (i_known0 k eq_refl) as Hn. rewrite Hk in Hn. destruct Hn as (Hs & He & Hb).
  destruct (needs_waits k m I) as (got & r & Hh); [by rewrite Hk|done|].
  destruct (waits k m I) as (Hl & Ha & Hi); [by rewrite Hk|].
  unfold serves in i_serves0. rewrite Hh in i_serves0. destruct i_serves0 as (Hr & Hin & Hz & _).
  eapply (inv_inside (Some k)); try done; [by right|..].
  - cbn. rewrite Hh. cbn. auto.
  - intros _. by apply inputs_kept.
  - unfold serves. cbn. rewrite Hh. repeat split; try done. intros _.
    change (lanes m BUFFER = 0 \/ block m (lanes m BUFFER) (lenZ r)). rewrite He, <- Hz. done.
  - intros b' Hb'. left. by rewrite Hk.
  - intros j b' Hj. unfold hold at 1. change (helper (set_caller _ _ _)) with (helper m). rewrite Hh.
    change (Some (lanes m BUFFER) = Some b' -> owned (callers m j) = Some b' -> hold m = Some b').
    rewrite He. intros [= <-] Hb'. destruct (i_owned0 j b Hb') as [Hb0 _]. destruct Hj. apply (i_distinct0 j k b Hb').
    rewrite Hk. cbn. by apply Z.eqb_neq in Hb0 as ->.
Qed.

Lemma terminal_open s :
  is_terminal s = true -> s <> IN_FLIGHT /\ s <> NEEDS_BUFFER /\ s <> BUFFER_PROVIDED.
Proof. by intros [->|[->| ->]]%terminal_cases. Qed.

(** A request the helper has not claimed, or has finished: the helper rests. *)
Lemma over_rests k m :
  inv (Some k) m -> mode (Some (callers m k)) = M_wait ->
  lanes m STATE = REQUEST \/ is_terminal (lanes m STATE) = true ->
  resting (helper m) = true /\ forall c, link (helper m) M_none FREE c.
Proof.
  intros I Hm Hs. destruct (waits k m I Hm) as (Hl & _).
  assert (lanes m STATE <> IN_FLIGHT /\ lanes m STATE <> NEEDS_BUFFER /\ lanes m STATE <> BUFFER_PROVIDED)
    as (H1 & H2 & H3) by (destruct Hs as [->|Hs]; [done|by apply terminal_open]).
  clear Hs I. destruct (helper m); cbn in *; try (split; [done|]; intros c; auto); naive_solver.
Qed.

(** The caller leaves a slot whose helper rests, and frees it. *)
Lemma free_inv_caller m k p :
  inv (Some k) m -> resting (helper m) = true -> (forall c, link (helper m) M_none FREE c) -> inside p = false ->
  through m k p -> owned p = None \/ owned p = owned (callers m k) ->
  inv None (set_caller k p (set_lane STATE FREE m)).
Proof.
  intros I Hr Hl Hp Ht Ho. apply (inv_leave k m _ p); try done; [by left|by apply resting_serves|..].
  - intros b Hb. split; [destruct Ho; congruence|by apply resting_hold].
  - intros b. by rewrite resting_hold.
Qed.

Lemma collect_inv m k r b :
  inv (Some k) m -> callers m k = C_collect r b ->
  bool_decide (r <> O_ok) && negb (b =? 0) = false /\
  inv None (set_caller k (C_done r (if bool_decide (r = O_ok) then b else 0)) (set_lane STATE FREE m)).
Proof.
  intros I Hk. pose proof (i_known _ _ I k eq_refl) as Hn. rewrite Hk in Hn. destruct Hn as (Ht & He & Hr).
  destruct (over_rests k m I) as [Hh Hl]; [by rewrite Hk|by right|]. unfold ended in He.
  destruct (decide (r = O_ok)) as [->|Hne].
  - rewrite (proj1 Hr eq_refl) in He. cbn in He. destruct He as [Hb Ha]. split; [done|].
    apply free_inv_caller; try done. right. rewrite Hk. cbn. by apply Z.eqb_neq in Hb as ->.
  - destruct (Z.eqb_spec (lanes m STATE) DONE) as [Hd|_]; [by destruct Hne; apply Hr|]. subst b.
    split; [by rewrite andb_false_r|]. apply free_inv_caller; try done; [by destruct r|left; by destruct r].
Qed.

Lemma back_inv m k p :
  inv (Some k) m -> mode (Some (callers m k)) = M_wait -> lanes m STATE = REQUEST ->
  (exists r, p = C_done r 0 /\ r <> O_ok) -> inv None (set_caller k p (set_lane STATE FREE m)).
Proof.
  intros I Hm Hs (r & -> & Hr). destruct (over_rests k m I Hm) as [Hh Hl]; [by left|].
  apply free_inv_caller; try done; [by destruct r|left; by destruct r].
Qed.

(** The caller hands the slot over. *)
Lemma abandon_inv m k r :
  inv (Some k) m -> callers m k = C_abandon r ->
  inv (Some k) (set_caller k (C_release r [DONE; FAILED; CANCELLED]) (set_lane ABANDONED 1 m)).
Proof.
  intros I Hk. pose proof I as []. pose proof (i_known0 k eq_refl) as Hn. rewrite Hk in Hn. cbn in Hn.
  destruct (waits k m I) as (Hl & Ha & Hi); [by rewrite Hk|].
  assert (forall s, is_terminal s = true -> s ∈ [DONE; FAILED; CANCELLED]) as Hin.
  { intros s [->|[->| ->]]%terminal_cases; set_solver. }
  eapply (inv_inside (Some k)); try done; [by right|..].
  - change (link (helper m) (M_release [DONE; FAILED; CANCELLED]) (lanes m STATE) (lanes m COPIED)).
    destruct (helper m); cbn in *; unfold after_end in *; naive_solver.
  - split; [done|]. by repeat constructor.
Qed.

(** One of its compare-exchanges. *)
Lemma release_inv m k r st fin :
  inv (Some k) m -> callers m k = C_release r (st :: fin) ->
  inv (Some k) (cas st FREE (set_caller k (C_release r fin)) (set_caller k (C_release r fin)) m).
Proof.
  intros I Hk. pose proof I as []. cbn [fmap option_fmap option_map] in *. rewrite Hk in *. cbn [mode] in *.
  destruct i_abandoned0 as [Ha Hf]. inversion Hf as [|? ? Ht Hf']. subst. unfold cas. ifs.
  - apply Z.eqb_eq in Heqb. subst st.
    assert (resting (helper m) = true /\ forall c, link (helper m) (M_release fin) FREE c) as [Hr Hl].
    { destruct (terminal_open _ Ht) as (H1 & H2 & H3). clear -i_link0 H1 H2 H3.
      destruct (helper m); cbn in *; try (split; [done|]; intros c; auto); naive_solver. }
    eapply (inv_inside (Some k)); try done; [by right|by apply resting_serves|].
    intros j b _ Hb. rewrite resting_hold in Hb; done.
  - apply Z.eqb_neq in Heqb. eapply (inv_inside (Some k)); try done; [by right|].
    change (link (helper m) (M_release fin) (lanes m STATE) (lanes m COPIED)).
    clear -i_link0 Heqb. destruct (helper m); cbn in *; unfold after_end in *; rewrite ?elem_of_cons in *; naive_solver.
Qed.

Lemma serves_none o m : serves o m -> serves None m.
Proof.
  assert (forall got, reads None got) as Hn by done. unfold serves.
  destruct (helper m) as [| |todo got|[got|]| | | | | | |st| |]; try done; [naive_solver..|].
  destruct (st =? DONE); [naive_solver|done].
Qed.

Lemma released_inv m k r :
  inv (Some k) m -> callers m k = C_release r [] -> inv None (set_caller k (C_done (abort_outcome r) 0) m).
Proof.
  intros I Hk. pose proof I as []. cbn [fmap option_fmap option_map] in *. rewrite Hk in *. cbn [mode] in *.
  apply (inv_leave k m _ (C_done (abort_outcome r) 0)); try done; [|by right; destruct i_abandoned0|by destruct r| |by destruct r].
  - change (link (helper m) M_none (lanes m STATE) (lanes m COPIED)).
    clear -i_link0. destruct (helper m); cbn in *; unfold after_end in *; naive_solver (by eapply not_elem_of_nil).
  - by apply serves_none in i_serves0.
Qed.

(** Blocks nobody uses can go. *)
Lemma known_heap m h k p :
  (forall b, owned p = Some b -> h !! b = heap m !! b) -> known m k p -> forall j q, known (set_caller j q (set_heap h m)) k p.
Proof.
  intros Hh Hk j q.
  assert (forall b, b <> 0 -> owned p = (if b =? 0 then None else Some b) -> h !! b = heap m !! b) as Hb.
  { intros b Hb Ho. apply Hh. rewrite Ho. by apply Z.eqb_neq in Hb as ->. }
  assert (forall b st, owned p = (if b =? 0 then None else Some b) -> ended m k st b ->
    ended (set_caller j q (set_heap h m)) k st b) as He.
  { intros b st Ho. unfold ended, answered. ifs; [|done]. cbn. intros [Hb0 Ha]. by rewrite (Hb b Hb0 Ho). }
  assert (forall b, owned p = (if b =? 0 then None else Some b) -> polls m k b ->
    polls (set_caller j q (set_heap h m)) k b) as Hp.
  { intros b Ho. unfold polls. cbn. ifs; auto. }
  assert (forall b n, owned p = (if b =? 0 then None else Some b) -> b = 0 \/ block m b n ->
    b = 0 \/ block (set_caller j q (set_heap h m)) b n) as Hbl.
  { intros b n Ho [->|Hbl]; [by left|]. destruct (Z.eq_dec b 0) as [|Hb0]; [by left|right].
    unfold block. cbn. by rewrite (Hb b Hb0 Ho). }
  destruct p; cbn in *; try done; naive_solver.
Qed.

Lemma serves_heap o m h :
  (forall b, hold m = Some b -> h !! b = heap m !! b) -> serves o m -> forall j q, serves o (set_caller j q (set_heap h m)).
Proof.
  intros Hh Hs j q. unfold serves, hold, block, answered in *. cbn.
  destruct (helper m) as [| | | | | | |got r|got r|got r b|st| |] eqn:E; try done.
  - destruct Hs as (H1 & H2 & H3 & H4). repeat split; auto. intros He. rewrite He in Hh. rewrite (Hh _ eq_refl). auto.
  - by rewrite (Hh _ eq_refl).
  - by rewrite (Hh _ eq_refl).
  - destruct (st =? DONE); [|done]. by rewrite (Hh _ eq_refl).
Qed.

(** A caller outside moves, and the blocks of the others stay. *)
Lemma inv_outside o m k p h :
  inv o m -> inside (callers m k) = false -> inside p = false -> owned p = None ->
  through (set_caller k p (set_heap h m)) k p ->
  (forall b, owned (callers m k) <> Some b -> h !! b = heap m !! b) ->
  inv o (set_caller k p (set_heap h m)).
Proof.
  intros [] Hk Hp Hop Htp Hh.
  assert (forall j, j <> k -> <[k := p]> (callers m) j = callers m j) as Hcj by (intros; by rewrite fn_lookup_insert_ne).
  assert (<[k := p]> (callers m) k = p) as Hck by (by rewrite fn_lookup_insert).
  assert (o <> Some k) as Hok by (intros Ho; apply i_inside0 in Ho; congruence).
  assert (callers (set_caller k p (set_heap h m)) <$> o = callers m <$> o) as Hco.
  { destruct o as [j|]; [|done]. cbn. f_equal. apply Hcj. congruence. }
  assert (forall j, o = Some j -> j <> k) as Hoj by congruence.
  assert (forall j b', j <> k -> owned (callers m j) = Some b' -> h !! b' = heap m !! b') as Hkeep.
  { intros j b' Hj Hb'. apply Hh. intros Hb. destruct Hj. eauto. }
  assert (forall j, callers (set_caller k p (set_heap h m)) j = <[k := p]> (callers m) j) as Hc by done.
  split; rewrite ?Hco; try done.
  - intros j. rewrite Hc. destruct (decide (j = k)) as [->|Hj]; [rewrite Hck, Hp|by rewrite Hcj].
    split; [done|intros ->; by destruct Hok].
  - intros j Hj. rewrite Hc, Hcj by auto. apply (known_heap m); eauto.
  - intros j. rewrite Hc. destruct (decide (j = k)) as [->|Hj]; [by rewrite Hck|].
    rewrite Hcj by done. pose proof (i_through0 j) as Ht. pose proof (Hkeep j) as Hkj.
    destruct (callers m j) as [| | | | | | | | | | | | | | | |[] b'|x]; try done.
    destruct Ht as (r & Hr & Hin). exists r. split; [|done]. cbn. by rewrite Hkj.
  - apply (serves_heap o m); try done. intros b' Hb'. apply Hh. intros Hb. destruct Hok. eauto.
  - intros j b'. rewrite Hc. destruct (decide (j = k)) as [->|Hj]; [by rewrite Hck, Hop|].
    rewrite Hcj by done. intros Hb'. cbn. rewrite (Hkeep j b' Hj Hb'). eauto.
  - intros i j b'. rewrite !Hc. destruct (decide (i = k)) as [->|Hi'], (decide (j = k)) as [->|Hj];
      rewrite ?Hck, ?Hop, ?Hcj by done; try done. eauto.
  - intros j b' Hb'. rewrite Hc. destruct (decide (j = k)) as [->|Hj]; [by rewrite Hck, Hop|].
    rewrite Hcj by done. eauto.
Qed.

(** The buffer is parsed and freed. *)
Lemma parse_inv o m k b :
  inv o m -> callers m k = C_done O_ok b ->
  inv o (set_caller k (C_parsed (heap m !! b)) (set_heap (delete b (heap m)) m)).
Proof.
  intros I Hk. apply inv_outside; rewrite ?Hk; try done.
  - pose proof (i_through _ _ I k) as Ht. by rewrite Hk in Ht.
  - intros b' Hb'. apply lookup_delete_ne. by intros ->.
Qed.

(** A caller keeps the invariant; only [o] may change. *)
Lemma FetchViaHelper_inv ch k o m :
  inv o m -> (claims k m = true -> forall j, releasing (callers m j) = false) ->
  exists o', inv o' (FetchViaHelper requests ch k m).
Proof.
  intros I Hr. unfold FetchViaHelper. pose proof (i_inside _ _ I k) as Hin.
  pose proof (i_known _ _ I k) as Hn.
  destruct (callers m k) as [|todo| |reason buf|reason|reason buf|reason buf|r buf|reason buf|reason buf|reason buf
    |r buf|r buf|r buf|r|r fin|r buf|] eqn:Hk; cbn in Hin;
    try (assert (o = Some k) as -> by (by apply Hin)); try specialize (Hn eq_refl).
  - unfold cas. ifs.
    + exists (Some k). apply (claim_slot_inv o); try done; [|lia]. apply mode_release; [done|].
      apply Hr. unfold claims. by rewrite Hk.
    + exists o. apply (inv_outside o m k _ (heap m)); rewrite ?Hk; done.
  - exists (Some k). destruct todo as [|[l v] todo]; [|by apply store_lane_inv].
    apply inv_move; rewrite ?Hk; auto. by destruct Hn.
  - exists (Some k). by apply request_inv.
  - exists (Some k). by apply look_inv.
  - exists (Some k). ifs; [|apply inv_move; rewrite ?Hk; auto; split; auto].
    apply andb_true_iff in Heqb as [[_ Hb]%andb_true_iff Hf]. apply bool_decide_eq_true in Hf.
    apply malloc_inv; try done. lia.
  - exists (Some k). by apply buffer_lane_inv.
  - exists (Some k). by apply provide_inv.
  - exists None. destruct (collect_inv m k r buf I Hk) as [-> Hi]. exact Hi.
  - exists (Some k). ifs; apply inv_move; rewrite ?Hk; auto.
  - unfold cas. ifs.
    + exists None. apply back_inv; rewrite ?Hk; try done; [lia|eauto].
    + exists (Some k). apply inv_move; rewrite ?Hk; auto.
  - exists (Some k). destruct reason as [r|]; ifs; apply inv_move; rewrite ?Hk; auto.
  - exists (Some k). apply (inv_quiet (Some k) (set_caller k (C_look (Some r) buf) m)); [|cbn|by left].
    + apply inv_move; rewrite ?Hk; auto.
    + by rewrite fn_lookup_insert.
  - unfold cas. ifs.
    + exists None. apply back_inv; rewrite ?Hk; try done; [lia|]. eexists. split; [done|]. by destruct r.
    + exists (Some k). apply inv_move; rewrite ?Hk; auto.
  - exists (Some k). ifs; apply inv_move; rewrite ?Hk; auto. cbn. lia.
  - exists (Some k). by apply abandon_inv.
  - destruct fin as [|st fin]; [exists None; by apply released_inv|exists (Some k); by apply release_inv].
  - exists o. destruct r; try done. by apply parse_inv.
  - by exists o.
Qed.

Lemma settled_inv m : reachable (settled_step requests) (fun m => m = initial_mailbox) m -> exists o, inv o m.
Proof.
  revert m. apply reachable_invariant; [intros m ->; exists None; apply mailbox_initial|].
  intros m m' [o I] Hs. destruct Hs as [ch k m Hr|ch m]; [by apply (FetchViaHelper_inv ch k o)|exists o; by apply serve_inv].
Qed.
End Facts.

(** ** What follows *)

(** The helper reads the request's memory. *)
Definition reading (h : HelperPc) : bool := match h with H_read _ _ | H_copied _ => true | _ => false end.

(** The caller waits for its response. *)
Definition waiting (p : CallerPc) : Prop := mode (Some p) = M_wait.

(** C19: Whatever the order of the accesses of the callers and the helper, as long as no
    caller claims the slot while another is between the last three compare-exchanges of
    giving it up (without which it is false: [late_exchange_frees_anothers_slot]): one
    caller at most holds the slot; while the helper reads a request its caller waits and
    the lanes are its own; the helper writes a response only into an allocated block of
    the response's length; and a caller that succeeds finds, in a block that is still
    allocated, a response fetched for its own request. *)
Theorem fetches_reach_their_callers (requests : nat -> Lane -> Z) (m : Mailbox) :
  reachable (settled_step requests) (fun m => m = initial_mailbox) m ->
  (forall i j, inside (callers m i) = true -> inside (callers m j) = true -> i = j) /\
  (reading (helper m) = true -> exists k, waiting (callers m k) /\ lanes m STATE = IN_FLIGHT /\
     lanes m COPIED = 0 /\ forall l, l ∈ input_lanes -> lanes m l = requests k l) /\
  (forall got r b, helper m = H_write got r b -> exists old, heap m !! b = Some old /\ lenZ old = lenZ r) /\
  (forall k b, callers m k = C_done O_ok b ->
     exists r, heap m !! b = Some r /\ (request_inputs (requests k), r) ∈ fetched m) /\
  (forall k x, callers m k = C_parsed x ->
     exists r, x = Some r /\ (request_inputs (requests k), r) ∈ fetched m).
Proof.
  intros [o I]%settled_inv. pose proof I as []. repeat split.
  - intros i j Hi%i_inside0 Hj%i_inside0. congruence.
  - intros Hr. assert (mode (callers m <$> o) = M_wait /\ lanes m STATE = IN_FLIGHT /\ lanes m COPIED = 0)
      as (Hm & ? & ?) by (by destruct (helper m)).
    destruct o as [k|]; [|done]. exists k. repeat split; try done. by apply i_inputs0.
  - intros got r b Hh. unfold serves in i_serves0. rewrite Hh in i_serves0. naive_solver.
  - intros k b Hk. pose proof (i_through0 k) as Ht. by rewrite Hk in Ht.
  - intros k x Hk. pose proof (i_through0 k) as Ht. by rewrite Hk in Ht.
Qed.

(** *** Runs *)

(** A move of caller [k], or of the helper. *)
Definition move (requests : nat -> Lane -> Z) (x : option nat * Choice) (m : Mailbox) : Mailbox :=
  match x.1 with Some k => FetchViaHelper requests x.2 k m | None => serve x.2 m end.
Definition play (requests : nat -> Lane -> Z) (moves : list (option nat * Choice)) (m : Mailbox) : Mailbox :=
  foldl (fun m x => move requests x m) m moves.

Lemma play_reachable requests moves m :
  reachable (slot_step requests) (fun m => m = initial_mailbox) m ->
  reachable (slot_step requests) (fun m => m = initial_mailbox) (play requests moves m).
Proof.
  revert m. induction moves as [|[[k|] ch] moves IH]; intros m Hm; [done|..];
    apply IH; (eapply reach_step; [exact Hm|]); constructor.
Qed.

(** A run of caller 0 and the helper. *)
Definition one_caller (moves : list (option nat * Choice)) : bool :=
  forallb (fun x => match x.1 with Some (S _) => false | _ => true end) moves.

Lemma FetchViaHelper_other requests ch k j m : j <> k -> callers (FetchViaHelper requests ch k m) j = callers m j.
Proof.
  intros Hj. unfold FetchViaHelper, cas. repeat case_match; cbn; rewrite ?fn_lookup_insert_ne by done; done.
Qed.

Lemma serve_callers ch m : callers (serve ch m) = callers m.
Proof. unfold serve, cas. by repeat case_match. Qed.

Lemma settled_reachable requests moves m :
  reachable (settled_step requests) (fun m => m = initial_mailbox) m ->
  (forall j, j <> 0%nat -> callers m j = C_idle) -> one_caller moves = true ->
  reachable (settled_step requests) (fun m => m = initial_mailbox) (play requests moves m).
Proof.
  revert m. induction moves as [|[[[|k]|] ch] moves IH]; intros m Hm Hj Hs; [done|..];
    cbn in Hs; [|done|]; apply IH; try done.
  - eapply reach_step; [exact Hm|]. constructor. unfold claims. intros H0 j.
    destruct (decide (j = 0%nat)) as [->|Hne]; [by destruct (callers m 0%nat)|by rewrite Hj].
  - intros j Hne. cbn. rewrite FetchViaHelper_other; auto.
  - eapply reach_step; [exact Hm|]. constructor.
  - intros j Hne. cbn. rewrite serve_callers. auto.
Qed.

(** A request by caller [k], and choices that let it go through. *)
Definition sample_requests (k : nat) (l : Lane) : Z := Z.of_nat k + 7.
Definition going (ev : FetchEvent) : Choice :=
  {| late_pickup := false; cancellation := false; stalled := false; grace_over := false;
     malloc_result := 100; readable := true; fetch_event := ev |}.
Definition interrupted : Choice :=
  {| late_pickup := false; cancellation := true; stalled := false; grace_over := true;
     malloc_result := 100; readable := true; fetch_event := Watch |}.

Definition caller_moves (k n : nat) : list (option nat * Choice) := repeat (Some k, going Watch) n.
Definition helper_moves (n : nat) : list (option nat * Choice) := repeat (None, going Watch) n.
Definition responds : list (option nat * Choice) := [(None, going (Response [1; 2; 3]))].

(** The request is posted and read. *)
Definition posted (k : nat) : list (option nat * Choice) := caller_moves k 17 ++ helper_moves 12.
Definition delivered : list (option nat * Choice) :=
  posted 0 ++ responds ++ helper_moves 2 ++ caller_moves 0 4 ++ helper_moves 5 ++ caller_moves 0 2.

Lemma fetches_reach_their_callers_witness :
  let m := play sample_requests delivered initial_mailbox in
  callers m 0%nat = C_done O_ok 100 /\
  exists r, heap m !! 100 = Some r /\ (request_inputs (sample_requests 0), r) ∈ fetched m.
Proof.
  cbv zeta. split; [by vm_compute|].
  assert (reachable (settled_step sample_requests) (fun m => m = initial_mailbox)
    (play sample_requests delivered initial_mailbox)) as Hr.
  { apply settled_reachable; [by apply reach_init|done|by vm_compute]. }
  destruct (fetches_reach_their_callers sample_requests _ Hr) as (_ & _ & _ & Hd & _).
  apply (Hd 0%nat 100). by vm_compute.
Defined.

(** A slot whose caller gave up before the helper asked for a buffer is lost: the
    helper waits for a buffer, and every later caller finds the slot taken. *)
Definition given_up : list (option nat * Choice) :=
  posted 0 ++ repeat (Some 0%nat, interrupted) 20 ++ responds ++ helper_moves 2.

Lemma abandoned_slot_is_lost :
  let m := play sample_requests given_up initial_mailbox in
  reachable (settled_step sample_requests) (fun m => m = initial_mailbox) m /\
  callers m 0%nat = C_done O_cancelled 0 /\
  (forall ch, serve ch m = m) /\
  forall ch k, callers m k = C_idle ->
    FetchViaHelper sample_requests ch k m = set_caller k (C_done O_unavailable 0) m.
Proof.
  cbv zeta. split; [apply settled_reachable; [by apply reach_init|done|by vm_compute]|].
  split; [by vm_compute|]. split.
  - intros ch. set (m := play _ _ _).
    assert (helper m = H_wait (repeat 7 8) [1; 2; 3]) as Hh by (by vm_compute).
    assert (lanes m STATE = NEEDS_BUFFER) as Hs by (by vm_compute).
    unfold serve. by rewrite Hh, Hs.
  - intros ch k Hk. set (m := play _ _ _) in *.
    assert (lanes m STATE = NEEDS_BUFFER) as Hs by (by vm_compute).
    unfold FetchViaHelper, cas. by rewrite Hk, Hs.
Qed.

(** When a caller claims the slot between the last compare-exchanges of another, one of
    them frees the slot that it holds: callers 1 and 2 are then both inside. *)
Definition overtaken : list (option nat * Choice) :=
  posted 0 ++ repeat (Some 0%nat, interrupted) 11 ++
  [(None, going Failure)] ++ helper_moves 3 ++ posted 1 ++ [(None, going Failure)] ++ helper_moves 1 ++
  caller_moves 0 1 ++ caller_moves 2 1.

Lemma late_exchange_frees_anothers_slot :
  let m := play sample_requests overtaken initial_mailbox in
  reachable (slot_step sample_requests) (fun m => m = initial_mailbox) m /\
  callers m 1%nat = C_look None 0 /\ inside (callers m 2%nat) = true /\ lanes m STATE = CLAIMED.
Proof.
  cbv zeta. split; [apply play_reachable; by apply reach_init|]. repeat split; by vm_compute.
Qed.
