(* ===== verification/HttpMailbox.v ===== *)
(** * HttpMailbox: all slots of the mailbox, and the helper's loop
    ([bindings/http_fetch_helper.ts], [lib/src/http_fetch.cc])

    [HttpFetch] is the protocol of one slot.  Here callers look for a free slot, count
    their request in the mailbox's first lane and give up on a helper that is gone,
    and the helper's [run] scans the slots and waits for the count to change.  A slot
    is a [Mailbox], which moves as [HttpFetch] says; a block that a caller allocates
    is not in use by another slot.

    The file shows that every slot keeps the promises of [HttpFacts], that a call holds
    one slot at most and none when it is over, and that the helper never waits while
    a request is there that nobody will tell it of. *)
From S2P Require Import Prelude Text WasmModule HttpFetch HttpFacts.
From stdpp Require Import base tactics list gmap functions.
From Stdlib Require Import ZArith Lia.
Open Scope Z_scope.

(** ** The calls and the helper's loop *)

(** Where a call of [FetchViaHelper] is in the mailbox; [B_in] is inside a slot, where
    its place is that of [HttpFetch]. *)
Inductive BoxCall :=
| B_ready
| B_try (i : nat)
| B_in (i : nat)
| B_count (i : nat)
| B_gone (i : nat)
| B_over (i : option nat).

(** Where [run] is: before it loads the count, at a slot, or waiting. *)
Inductive RunPc := R_seen | R_scan (seen : Z) (i : nat) | R_wait (seen : Z).

Record Box := {
  counter : Z;
  ready : Z;
  box : nat -> Mailbox;
  calls : nat -> BoxCall;
  run_pc : RunPc;
  serving : nat -> bool
}.

Definition set_slot (i : nat) (m : Mailbox) (b : Box) : Box :=
  {| counter := counter b; ready := ready b; box := <[i := m]> (box b); calls := calls b;
     run_pc := run_pc b; serving := serving b |}.
Definition set_call (k : nat) (p : BoxCall) (b : Box) : Box :=
  {| counter := counter b; ready := ready b; box := box b; calls := <[k := p]> (calls b);
     run_pc := run_pc b; serving := serving b |}.
Definition set_run (p : RunPc) (b : Box) : Box :=
  {| counter := counter b; ready := ready b; box := box b; calls := calls b; run_pc := p; serving := serving b |}.
Definition set_serving (i : nat) (v : bool) (b : Box) : Box :=
  {| counter := counter b; ready := ready b; box := box b; calls := calls b; run_pc := run_pc b;
     serving := <[i := v]> (serving b) |}.
Definition set_counter (v : Z) (b : Box) : Box :=
  {| counter := v; ready := ready b; box := box b; calls := calls b; run_pc := run_pc b; serving := serving b |}.
Definition set_ready (v : Z) (b : Box) : Box :=
  {| counter := counter b; ready := v; box := box b; calls := calls b; run_pc := run_pc b; serving := serving b |}.

Section Box.
Context (requests : nat -> Lane -> Z) (kSlots : nat).

(** The call returns with this step of its slot. *)
Definition returned (p : CallerPc) : bool :=
  match p with C_done r _ => bool_decide (r <> O_ok) | C_parsed _ => true | _ => false end.

(** [FetchViaHelper] of caller [k], one access: the flag, the search, then the slot;
    publishing a request is followed by [fetch_add] and [Wake], and taking one back
    because the helper is gone by lowering the flag. *)
Definition box_call (ch : Choice) (k : nat) (b : Box) : Box :=
  match calls b k with
  | B_ready => set_call k (if (ready b =? 1) && (0 <? kSlots)%nat then B_try 0 else B_over None) b
  | B_try i =>
      let m := FetchViaHelper requests ch k (box b i) in
      set_call k (if inside (callers m k) then B_in i
                  else if (S i <? kSlots)%nat then B_try (S i) else B_over None) (set_slot i m b)
  | B_in i =>
      let m := FetchViaHelper requests ch k (box b i) in
      set_call k (match callers (box b i) k with
                  | C_request => B_count i
                  | C_take_back _ _ => if returned (callers m k) then B_gone i else B_in i
                  | _ => if returned (callers m k) then B_over (Some i) else B_in i
                  end) (set_slot i m b)
  | B_count i => set_call k (B_in i) (set_counter (int32 (counter b + 1)) b)
  | B_gone i => set_call k (B_over (Some i)) (set_ready 0 b)
  | B_over _ => b
  end.

(** [run], one access.  The look at a slot is the first step of [serve] in [HttpFetch]. *)
Definition run_step (ch : Choice) (b : Box) : Box :=
  match run_pc b with
  | R_seen => set_run (R_scan (counter b) 0) b
  | R_scan seen i =>
      if (i <? kSlots)%nat then
        if serving b i || negb (lanes (box b i) STATE =? REQUEST) then set_run (R_scan seen (S i)) b
        else set_run (R_scan seen (S i)) (set_serving i true (set_slot i (serve ch (box b i)) b))
      else set_run (R_wait seen) b
  | R_wait _ => set_run R_seen b
  end.

(** [serve] of a slot goes on; when it is over, [finally] gives the slot back. *)
Definition serve_step (ch : Choice) (i : nat) (b : Box) : Box :=
  match helper (box b i) with H_idle => b | _ => set_slot i (serve ch (box b i)) b end.
Definition finally_step (i : nat) (b : Box) : Box :=
  match helper (box b i) with H_idle => set_serving i false b | _ => b end.

(** A new block is not in use in any slot. *)
Definition fresh_block (ch : Choice) (b : Box) : Prop := forall i, heap (box b i) !! malloc_result ch = None.

(** The slot of a step. *)
Definition call_slot (p : BoxCall) : option nat := match p with B_try i | B_in i => Some i | _ => None end.
Definition run_slot (p : RunPc) : option nat := match p with R_scan _ i => Some i | _ => None end.

Inductive box_step : Box -> Box -> Prop :=
| bs_call ch k b : fresh_block ch b -> box_step b (box_call ch k b)
| bs_run ch b : box_step b (run_step ch b)
| bs_serve ch i b : box_step b (serve_step ch i b)
| bs_finally i b : box_step b (finally_step i b).

(** The helper is between the end of a fetch and the end of its [finally]: on its
    thread nothing but the clean-up comes in between. *)
Definition finishing (b : Box) (i : nat) : bool :=
  match helper (box b i) with
  | H_publish _ | H_check _ | H_free _ => true
  | H_idle => serving b i
  | _ => false
  end.

(** Nobody is in its last compare-exchanges at slot [i]. *)
Definition undisturbed (b : Box) (i : nat) : Prop := forall j, releasing (callers (box b i) j) = false.

(** The steps when no slot is claimed between those exchanges, a scan does not come
    before the clean-up of the slot it looks at, and requests are counted in 31 bits. *)
Inductive orderly_step : Box -> Box -> Prop :=
| os_call ch k b : fresh_block ch b ->
    (forall i, calls b k = B_try i -> lanes (box b i) STATE = FREE -> undisturbed b i) ->
    counter b + 1 < 2 ^ 31 -> orderly_step b (box_call ch k b)
| os_run ch b : (forall i, run_slot (run_pc b) = Some i -> finishing b i = false) -> orderly_step b (run_step ch b)
| os_serve ch i b : orderly_step b (serve_step ch i b)
| os_finally i b : orderly_step b (finally_step i b).

(** After [duckdb_web_http_fetch_ready]. *)
Definition initial_box : Box :=
  {| counter := 0; ready := 1; box := fun _ => initial_mailbox; calls := fun _ => B_ready; run_pc := R_seen;
     serving := fun _ => false |}.
(** ** The invariant *)

(** Where a call is, seen from slot [i], where its place is [q]. *)
Definition placed (p : BoxCall) (i : nat) (q : CallerPc) : Prop :=
  match p with
  | B_ready => q = C_idle
  | B_try j => if (i <? j)%nat then inside q = false else q = C_idle
  | B_in j => if decide (i = j) then q <> C_idle /\ returned q = false else inside q = false
  | B_count j => if decide (i = j) then inside q = true else inside q = false
  | B_gone _ | B_over _ => inside q = false
  end.

(** A request at slot [j] will be noticed by a helper that loaded the count [seen]. *)
Definition noticed (b : Box) (seen : Z) (j : nat) : Prop :=
  lanes (box b j) STATE = REQUEST ->
  counter b <> seen \/ helper (box b j) = H_claim \/ exists k, calls b k = B_count j.

Definition scanned (b : Box) : Prop :=
  match run_pc b with
  | R_seen => True
  | R_scan seen i => seen <= counter b /\ forall j, (j < i)%nat -> (j < kSlots)%nat -> noticed b seen j
  | R_wait seen => seen <= counter b /\ forall j, (j < kSlots)%nat -> noticed b seen j
  end.

Abbreviation slot_reachable := (reachable (settled_step requests) (fun m => m = initial_mailbox)).

Record box_inv (b : Box) : Prop := {
  bi_slots i : slot_reachable (box b i);
  bi_calls k i : placed (calls b k) i (callers (box b i) k);
  bi_serving i : serving b i = false -> helper (box b i) = H_idle;
  bi_counter : 0 <= counter b;
  bi_scanned : scanned b
}.

(** *** A step of a slot *)

Lemma call_helper ch k m : helper (FetchViaHelper requests ch k m) = helper m.
Proof. unfold FetchViaHelper, cas. by repeat case_match. Qed.

(** A request appears in a slot only when its caller publishes it. *)
Lemma call_publishes ch k o m : inv requests o m -> lanes (FetchViaHelper requests ch k m) STATE = REQUEST ->
  lanes m STATE = REQUEST \/ callers m k = C_request.
Proof.
  intros I. unfold FetchViaHelper, cas. destruct (callers m k) as [|[|[l v] todo]| | | | | | | | |[]| | | | |? []|[]|] eqn:E; cbn;
    try (repeat case_match; cbn; rewrite ?fn_lookup_insert; auto; done).
  assert (o = Some k) as Ho by (apply (i_inside _ _ _ I); by rewrite E).
  pose proof (i_known _ _ _ I k Ho) as Hk. rewrite E in Hk. destruct Hk as [Hk _]. apply Forall_inv in Hk. cbn in Hk.
  rewrite fn_lookup_insert_ne by done. auto.
Qed.

(** The helper claims a request, and makes none. *)
Lemma serve_claims ch o m : inv requests o m -> lanes (serve ch m) STATE = REQUEST ->
  lanes m STATE = REQUEST /\ helper m <> H_claim.
Proof.
  intros I. pose proof (i_link _ _ _ I) as Hl. unfold serve, cas.
  destruct (helper m) as [| | |[]| | | | | | | st| |]; cbn in Hl;
    try (repeat case_match; cbn; rewrite ?fn_lookup_insert; eauto; done).
  - destruct (Z.eqb_spec (lanes m STATE) REQUEST); cbn; rewrite ?fn_lookup_insert; done.
  - cbn. rewrite fn_lookup_insert. intros ->. by destruct Hl as (_ & ? & _).
Qed.

Lemma reached_inv m : slot_reachable m -> exists o, inv requests o m.
Proof. apply settled_inv. Qed.

Lemma call_not_idle ch k m : callers (FetchViaHelper requests ch k m) k <> C_idle.
Proof. unfold FetchViaHelper, cas, at_state. repeat case_match; cbn; rewrite ?fn_lookup_insert; congruence. Qed.

Lemma call_from_idle ch k m : callers m k = C_idle -> returned (callers (FetchViaHelper requests ch k m) k) = false \/
  inside (callers (FetchViaHelper requests ch k m) k) = false.
Proof. intros E. unfold FetchViaHelper, cas. rewrite E. case_match; cbn; rewrite fn_lookup_insert; auto. Qed.

Lemma call_from_request ch k m : callers m k = C_request -> inside (callers (FetchViaHelper requests ch k m) k) = true.
Proof. intros E. unfold FetchViaHelper. rewrite E. cbn. by rewrite fn_lookup_insert. Qed.

Lemma returned_outside p : returned p = true -> inside p = false.
Proof. by destruct p. Qed.

(** A call steps at its own slot only. *)
Lemma box_call_slots ch k b i : box (box_call ch k b) i =
  if decide (call_slot (calls b k) = Some i) then FetchViaHelper requests ch k (box b i) else box b i.
Proof.
  unfold box_call. destruct (calls b k) as [|i'|i'|i'|i'|]; cbn [call_slot]; try (by rewrite decide_False).
  all: cbn; case_decide as E; [injection E as ->; by rewrite fn_lookup_insert|].
  all: rewrite fn_lookup_insert_ne; congruence.
Qed.

Lemma box_call_others ch k b j : j <> k -> calls (box_call ch k b) j = calls b j.
Proof. intros N. unfold box_call. destruct (calls b k); cbn; rewrite ?fn_lookup_insert_ne by done; done. Qed.

Lemma box_call_helper ch k b i : helper (box (box_call ch k b) i) = helper (box b i).
Proof. rewrite box_call_slots. case_decide; [apply call_helper|done]. Qed.

Lemma box_call_rest ch k b : run_pc (box_call ch k b) = run_pc b /\
  serving (box_call ch k b) = serving b.
Proof. unfold box_call. by destruct (calls b k). Qed.

Lemma box_call_counter ch k b : 0 <= counter b -> counter b + 1 < 2 ^ 31 -> counter (box_call ch k b) =
  match calls b k with B_count _ => counter b + 1 | _ => counter b end.
Proof.
  intros H0 H1. unfold box_call. destruct (calls b k); try done. cbn.
  unfold int32. rewrite Z.mod_small by lia. lia.
Qed.

Lemma box_call_placed ch k b i : (forall j i, placed (calls b j) i (callers (box b i) j)) ->
  placed (calls (box_call ch k b) k) i (callers (box (box_call ch k b) i) k).
Proof.
  intros Hp. pose proof (Hp k i) as Hi. rewrite box_call_slots. unfold box_call.
  destruct (calls b k) as [|i'|i'|i'|i'|] eqn:Ek; cbn [call_slot calls set_call set_slot]; rewrite ?fn_lookup_insert.
  - rewrite decide_False by done. unfold placed in Hi. rewrite Hi. by case_match.
  - pose proof (Hp k i') as Hi'. rewrite Ek in Hi'. unfold placed in Hi'. rewrite Nat.ltb_irrefl in Hi'.
    set (q := callers (FetchViaHelper requests ch k (box b i')) k).
    assert (q <> C_idle) as Hq by apply call_not_idle.
    destruct (decide (Some i' = Some i)) as [E|N].
    + injection E as <-. change (callers (FetchViaHelper requests ch k (box b i')) k) with q.
      destruct (call_from_idle ch k _ Hi') as [H|H]; change (callers (FetchViaHelper requests ch k (box b i')) k) with q in H.
      * destruct (inside q) eqn:Eq; [by cbn; rewrite decide_True|]. case_match; [|done]. unfold placed.
        by rewrite (proj2 (Nat.ltb_lt i' (S i')) (Nat.lt_succ_diag_r i')).
      * rewrite H. case_match; [|done]. unfold placed. by rewrite (proj2 (Nat.ltb_lt i' (S i')) (Nat.lt_succ_diag_r i')).
    + assert (inside (callers (box b i) k) = false) as Ho by (unfold placed in Hi; case_match; [done|by rewrite Hi]).
      destruct (inside q); [cbn; rewrite decide_False; [done|congruence]|]. case_match; [|done].
      unfold placed. destruct (Nat.ltb_spec i (S i')); [done|]. unfold placed in Hi. destruct (Nat.ltb_spec i i'); [lia|done].
  - pose proof (Hp k i') as Hi'. rewrite Ek in Hi'. unfold placed in Hi'. rewrite decide_True in Hi' by done. destruct Hi' as [H1 H2].
    pose proof (call_not_idle ch k (box b i')) as Hq. pose proof (call_from_request ch k (box b i')) as Hr.
    set (q := callers (FetchViaHelper requests ch k (box b i')) k) in *.
    destruct (decide (Some i' = Some i)) as [E|N].
    + injection E as <-. change (callers (FetchViaHelper requests ch k (box b i')) k) with q.
      destruct (returned q) eqn:Er.
      * pose proof (returned_outside _ Er) as Ho.
        destruct (callers (box b i') k); cbn; try done. rewrite Hr in Ho by done. done.
      * destruct (callers (box b i') k); cbn; rewrite decide_True by done; try done. by apply Hr.
    + unfold placed in Hi. rewrite decide_False in Hi by congruence.
      destruct (callers (box b i') k), (returned q); cbn; rewrite ?decide_False by congruence; done.
  - rewrite decide_False by done. unfold placed in *.
    destruct (decide (i = i')) as [->|]; [|done]. destruct (callers (box b i') k); done.
  - rewrite decide_False by done. done.
  - rewrite decide_False by done. by rewrite Ek.
Qed.

Lemma call_noticed ch k b seen j : box_inv b -> counter b + 1 < 2 ^ 31 -> seen <= counter b ->
  noticed b seen j -> noticed (box_call ch k b) seen j.
Proof.
  intros I Hc Hs Hn Hst. pose proof (box_call_counter ch k b (bi_counter _ I) Hc) as Ec.
  rewrite box_call_helper.
  destruct (calls b k) as [|i|i|i|i|i] eqn:Ek; [..|left; lia| |]; rewrite Ec; clear Ec.
  all: rewrite box_call_slots, Ek in Hst; cbn [call_slot] in Hst.
  all: assert (lanes (box b j) STATE = REQUEST \/ calls (box_call ch k b) k = B_count j) as [H|H];
    [|destruct (Hn H) as [?|[?|[k0 Hk0]]]; [auto..|]; right; right; exists k0;
      rewrite box_call_others; [done|intros ->; congruence]|by eauto].
  all: try (rewrite decide_False in Hst by done; by left).
  - case_decide as E; [injection E as ->|by left]. destruct (reached_inv _ (bi_slots _ I j)) as [o Io].
    destruct (call_publishes ch k o _ Io Hst) as [H|H]; [by left|].
    pose proof (bi_calls _ I k j) as Hp. rewrite Ek in Hp. unfold placed in Hp. rewrite Nat.ltb_irrefl in Hp. congruence.
  - case_decide as E; [injection E as ->|by left]. destruct (reached_inv _ (bi_slots _ I j)) as [o Io].
    destruct (call_publishes ch k o _ Io Hst) as [H|H]; [by left|right].
    unfold box_call. rewrite Ek, H. cbn. apply fn_lookup_insert.
Qed.

Lemma box_call_inv ch k b : box_inv b ->
  (forall i, calls b k = B_try i -> lanes (box b i) STATE = FREE -> undisturbed b i) ->
  counter b + 1 < 2 ^ 31 -> box_inv (box_call ch k b).
Proof.
  intros I Hu Hc. destruct (box_call_rest ch k b) as [Er Es].
  pose proof (box_call_counter ch k b (bi_counter _ I) Hc) as Ec. split.
  - intros i. rewrite box_call_slots. case_decide as E; [|apply I]. eapply reach_step; [apply I|].
    constructor. unfold claims. pose proof (bi_calls _ I k i) as Hp. intros Hc'.
    destruct (callers (box b i) k) eqn:Ek; try done. apply Hu; [|lia].
    destruct (calls b k) as [|n|n| | |]; try done; injection E as ->; [done|].
    cbn in Hp. rewrite decide_True in Hp by done. by destruct Hp.
  - intros j i. destruct (decide (j = k)) as [->|N].
    + apply box_call_placed. intros j i'. apply I.
    + rewrite box_call_others, box_call_slots by done. case_decide; [|apply I].
      rewrite FetchViaHelper_other by done. apply I.
  - intros i. rewrite Es, box_call_helper. apply I.
  - rewrite Ec. pose proof (bi_counter _ I). destruct (calls b k); lia.
  - pose proof (bi_scanned _ I) as Hsc. unfold scanned in *. rewrite Er.
    assert (counter b <= counter (box_call ch k b)) by (rewrite Ec; destruct (calls b k); lia).
    destruct (run_pc b) as [|seen i|seen]; [done|..]; destruct Hsc as [Hle Hsc]; split; try lia; intros;
      apply call_noticed; auto.
Qed.

(** *** The helper's steps *)

(** A step of [serve] at one slot. *)
Lemma served_slots ch i b j : box (set_slot i (serve ch (box b i)) b) j =
  if decide (j = i) then serve ch (box b i) else box b j.
Proof. cbn. case_decide as E; [subst; apply fn_lookup_insert|by apply fn_lookup_insert_ne]. Qed.

Lemma serve_reachable ch b i j : box_inv b ->
  slot_reachable (box (set_slot i (serve ch (box b i)) b) j).
Proof.
  intros I. rewrite served_slots. case_decide; [|apply I]. eapply reach_step; [apply I|]. constructor.
Qed.

Lemma serve_placed ch b i k j : box_inv b ->
  placed (calls b k) j (callers (box (set_slot i (serve ch (box b i)) b) j) k).
Proof. intros I. rewrite served_slots. case_decide as E; [subst; rewrite serve_callers|]; apply I. Qed.

Lemma serve_noticed ch b i seen j : box_inv b -> noticed b seen j ->
  noticed (set_slot i (serve ch (box b i)) b) seen j.
Proof.
  intros I Hn. unfold noticed in *. rewrite served_slots. cbn [counter set_slot calls].
  case_decide as E; [subst j|done]. intros Hst. destruct (reached_inv _ (bi_slots _ I i)) as [o Io].
  destruct (serve_claims ch o _ Io Hst) as [H1 H2]. destruct (Hn H1) as [H|[H|H]]; [by left|done|by right; right].
Qed.

(** A slot that is being served, and not at its end, has no request but the one to be claimed. *)
Lemma busy_noticed b i seen : box_inv b -> finishing b i = false -> serving b i = true -> noticed b seen i.
Proof.
  intros I Hf Hs Hst. destruct (reached_inv _ (bi_slots _ I i)) as [o Io]. pose proof (i_link _ _ _ Io) as Hl.
  rewrite Hst in Hl. unfold finishing in Hf.
  destruct (helper (box b i)) eqn:Eh; cbn in Hl; try congruence; try (right; left; done).
  all: exfalso; unfold REQUEST, IN_FLIGHT, NEEDS_BUFFER, BUFFER_PROVIDED in Hl; destruct_and?; try done.
  by destruct_or?.
Qed.

Lemma serve_inv_box ch b i : box_inv b -> box_inv (serve_step ch i b).
Proof.
  intros I. assert (helper (box b i) <> H_idle -> box_inv (set_slot i (serve ch (box b i)) b)) as H.
  { intros N. split.
    - intros j. by apply serve_reachable.
    - intros k j. exact (serve_placed ch b i k j I).
    - intros j Hj. rewrite served_slots. case_decide as E; [|by apply I]. subst j. by rewrite (bi_serving _ I i Hj) in N.
    - apply I.
    - pose proof (bi_scanned _ I) as Hsc. unfold scanned in *. cbn [run_pc set_slot counter].
      destruct (run_pc b) as [|seen i'|seen]; [done|..]; destruct Hsc as [Hle Hsc]; split; try lia; intros;
        apply serve_noticed; auto. }
  unfold serve_step. destruct (helper (box b i)); [done|..]; by apply H.
Qed.

Lemma finally_inv b i : box_inv b -> box_inv (finally_step i b).
Proof.
  intros I. unfold finally_step. destruct (helper (box b i)) eqn:Eh; try done. split; try apply I.
  cbn. intros j. destruct (decide (j = i)) as [->|N]; [done|]. rewrite fn_lookup_insert_ne by done. apply I.
Qed.

Lemma run_inv_box ch b : box_inv b -> (forall i, run_slot (run_pc b) = Some i -> finishing b i = false) ->
  box_inv (run_step ch b).
Proof.
  intros I Hr. unfold run_step. pose proof (bi_scanned _ I) as Hsc. unfold scanned in Hsc.
  destruct (run_pc b) as [|seen i|seen] eqn:Er; [split; try apply I|..|split; try apply I].
  - cbn. split; [lia|]. lia.
  - destruct Hsc as [Hle Hsc]. pose proof (Hr i eq_refl) as Hf. destruct (i <? kSlots)%nat eqn:Ei.
    + apply Nat.ltb_lt in Ei. destruct (serving b i || negb (lanes (box b i) STATE =? REQUEST)) eqn:Eb.
      * split; try apply I. cbn. split; [done|]. intros j Hj Hk.
        destruct (decide (j = i)) as [->|]; [|apply Hsc; lia].
        apply orb_true_iff in Eb as [Eb|Eb]; [by apply (busy_noticed b i seen I)|].
        intros Hst. apply negb_true_iff, Z.eqb_neq in Eb. done.
      * apply orb_false_iff in Eb as [Eb1 Eb2]. apply negb_false_iff, Z.eqb_eq in Eb2.
        pose proof (bi_serving _ I i Eb1) as Eh.
        split; [intros j; exact (serve_reachable ch b i j I)|intros k j; exact (serve_placed ch b i k j I)|..|apply I|].
        -- cbn. intros j. destruct (decide (j = i)) as [->|N]; [by rewrite fn_lookup_insert|].
           rewrite !fn_lookup_insert_ne by done. apply I.
        -- cbn [scanned run_pc set_run set_serving set_slot]. split; [done|]. intros j Hj Hk.
           destruct (decide (j = i)) as [->|]; [|apply (serve_noticed ch b i seen j I), Hsc; lia].
           intros _. right. left. cbn. rewrite fn_lookup_insert. unfold serve. by rewrite Eh, Eb2.
    + apply Nat.ltb_ge in Ei. split; try apply I. cbn. split; [done|]. intros j Hj. apply Hsc; lia.
  - done.
Qed.

Lemma initial_box_inv : box_inv initial_box.
Proof. split; try done. intros i. by apply reach_init. Qed.

Lemma orderly_inv b : reachable (orderly_step) (fun b => b = initial_box) b -> box_inv b.
Proof.
  revert b. apply reachable_invariant; [intros b ->; apply initial_box_inv|].
  intros b b' I Hs. destruct Hs as [ch k b Hf Hu Hc|ch b Hr|ch i b|i b].
  - by apply box_call_inv.
  - by apply run_inv_box.
  - by apply serve_inv_box.
  - by apply finally_inv.
Qed.
End Box.

(** ** What follows *)

Abbreviation orderly requests kSlots := (reachable (orderly_step requests kSlots) (fun b => b = initial_box)).

(** In every orderly run of callers and helper over the whole mailbox each slot moves
    as the protocol of one slot says, so what is proved of a slot holds of all of them; a
    call holds at most one slot, and none once it has returned, whether it found a slot,
    got a response, gave up, or took its request back. *)
Theorem calls_hold_one_slot requests kSlots b : orderly requests kSlots b ->
  (forall i, reachable (settled_step requests) (fun m => m = initial_mailbox) (box b i)) /\
  (forall k i j, inside (callers (box b i) k) = true -> inside (callers (box b j) k) = true -> i = j) /\
  (forall k r i, calls b k = B_over r -> inside (callers (box b i) k) = false).
Proof.
  intros I%orderly_inv. split; [apply I|]. split.
  - intros k i j Hi Hj. pose proof (bi_calls _ _ _ I k i) as Pi. pose proof (bi_calls _ _ _ I k j) as Pj.
    unfold placed in *. destruct (calls b k) as [|n|n|n|n|]; try congruence.
    + by rewrite Pi in Hi.
    + destruct (i <? n)%nat; [congruence|]. by rewrite Pi in Hi.
    + destruct (decide (i = n)), (decide (j = n)); congruence.
    + destruct (decide (i = n)), (decide (j = n)); congruence.
  - intros k r i E. pose proof (bi_calls _ _ _ I k i) as Hp. by rewrite E in Hp.
Qed.

(** C20: The helper does not sleep on a request: in every orderly run, when it waits for
    the count [seen] to change and a slot holds a request, then the count has changed, or
    the request is about to be claimed, or its caller is about to count it. *)
Theorem no_request_is_overlooked requests kSlots b seen j : orderly requests kSlots b ->
  run_pc b = R_wait seen -> (j < kSlots)%nat -> lanes (box b j) STATE = REQUEST ->
  counter b <> seen \/ helper (box b j) = H_claim \/ exists k, calls b k = B_count j.
Proof.
  intros I%orderly_inv Hr Hj. pose proof (bi_scanned _ _ _ I) as Hs. unfold scanned in Hs. rewrite Hr in Hs.
  destruct Hs as [_ Hs]. by apply Hs.
Qed.

Lemma find_same {A} (f g : A -> bool) l : (forall x, In x l -> f x = g x) -> find f l = find g l.
Proof.
  induction l as [|x l IH]; intros H; [done|]. cbn. rewrite (H x) by (by left). destruct (g x); [done|].
  apply IH. intros y Hy. apply H. by right.
Qed.

(** A search that nobody disturbs finds the first slot that is free. *)
Fixpoint slot_search (requests : nat -> Lane -> Z) (kSlots : nat) (ch : Choice) (k n : nat) (b : Box) : Box :=
  match n with
  | O => b
  | S n' => match calls b k with B_try _ => slot_search requests kSlots ch k n' (box_call requests kSlots ch k b) | _ => b end
  end.

Lemma search_finds_the_first_free requests kSlots ch k n i b :
  calls b k = B_try i -> (i + n = kSlots)%nat -> (forall j, (i <= j)%nat -> callers (box b j) k = C_idle) ->
  match find (fun j => lanes (box b j) STATE =? FREE) (seq i n) with
  | Some j => calls (slot_search requests kSlots ch k n b) k = B_in j /\
      lanes (box (slot_search requests kSlots ch k n b) j) STATE = CLAIMED
  | None => (0 < n)%nat -> calls (slot_search requests kSlots ch k n b) k = B_over None
  end.
Proof.
  revert i b. induction n as [|n IH]; intros i b Hb Hn Hi; [cbn; lia|]. cbn [seq find slot_search]. rewrite Hb.
  assert (box_call requests kSlots ch k b =
    if lanes (box b i) STATE =? FREE
    then set_call k (B_in i) (set_slot i (set_caller k (C_store (request_stores requests k)) (set_lane STATE CLAIMED (box b i))) b)
    else set_call k (if (S i <? kSlots)%nat then B_try (S i) else B_over None)
           (set_slot i (set_caller k (C_done O_unavailable 0) (box b i)) b)) as E.
  { unfold box_call. rewrite Hb. unfold FetchViaHelper, cas. rewrite Hi by done.
    destruct (lanes (box b i) STATE =? FREE); cbn; by rewrite fn_lookup_insert. }
  rewrite E. destruct (lanes (box b i) STATE =? FREE) eqn:Es.
  - destruct n; cbn [slot_search calls set_call]; rewrite ?fn_lookup_insert; cbn; rewrite !fn_lookup_insert; done.
  - clear E. set (b1 := set_call _ _ _).
    assert (forall j, j <> i -> box b1 j = box b j) as Hbox by (intros j N; cbn; by rewrite fn_lookup_insert_ne).
    assert (calls b1 k = if (S i <? kSlots)%nat then B_try (S i) else B_over None) as Hc1 by (cbn; by rewrite fn_lookup_insert).
    destruct n as [|n].
    + intros _. cbn [slot_search seq]. rewrite Hc1. by rewrite (proj2 (Nat.ltb_ge (S i) kSlots)) by lia.
    + rewrite (proj2 (Nat.ltb_lt (S i) kSlots)) in Hc1 by lia.
      rewrite (find_same (fun j => lanes (box b j) STATE =? FREE) (fun j => lanes (box b1 j) STATE =? FREE)).
      2: { intros j Hj%in_seq. rewrite Hbox by lia. done. }
      specialize (IH (S i) b1 Hc1 ltac:(lia)). destruct (find _ _); [|intros _]; apply IH; try lia.
      all: intros j Hj; rewrite Hbox by lia; apply Hi; lia.
Qed.

(** *** Runs *)

Inductive Move := V_call (ch : Choice) (k : nat) | V_run (ch : Choice) | V_serve (ch : Choice) (i : nat) | V_finally (i : nat).

Section Runs.
Context (requests : nat -> Lane -> Z) (kSlots : nat).

Definition box_move (x : Move) (b : Box) : Box :=
  match x with
  | V_call ch k => box_call requests kSlots ch k b
  | V_run ch => run_step kSlots ch b
  | V_serve ch i => serve_step ch i b
  | V_finally i => finally_step i b
  end.
Definition box_play (l : list Move) (b : Box) : Box := foldl (fun b x => box_move x b) b l.

(** The slot a move steps at. *)
Definition move_slot (x : Move) (b : Box) : option nat :=
  match x with
  | V_call _ k => call_slot (calls b k)
  | V_run _ => run_slot (run_pc b)
  | V_serve _ i => Some i
  | V_finally _ => None
  end.
Definition at_slot (P : nat -> bool) (o : option nat) : bool := match o with Some i => P i | None => true end.

(** The moves of a run of callers 0 and 1 in which nobody allocates, and in which no
    slot is claimed during a release either. *)
Definition small_move_ok (x : Move) (b : Box) : bool :=
  match x with V_call _ k => (k <? 2)%nat | _ => true end &&
  at_slot (fun i => bool_decide (heap (box (box_move x b) i) = ∅)) (move_slot x b).
Definition calm (b : Box) (i : nat) : bool :=
  negb (releasing (callers (box b i) 0%nat)) && negb (releasing (callers (box b i) 1%nat)).
Definition orderly_move_ok (x : Move) (b : Box) : bool :=
  (counter b + 1 <? 2 ^ 31) &&
  at_slot (fun i => match x with
                    | V_call _ _ => if lanes (box b i) STATE =? FREE then calm b i else true
                    | V_run _ => negb (finishing b i)
                    | _ => true
                    end) (move_slot x b).
Fixpoint play_ok (ordered : bool) (l : list Move) (b : Box) : bool :=
  match l with
  | [] => true
  | x :: l' => small_move_ok x b && (negb ordered || orderly_move_ok x b) && play_ok ordered l' (box_move x b)
  end.

(** Nobody else has called, and nothing is allocated. *)
Record small (b : Box) : Prop := {
  sm_others i k : (2 <= k)%nat -> callers (box b i) k = C_idle;
  sm_heap i : heap (box b i) = ∅
}.

Lemma small_undisturbed b i : small b -> calm b i = true -> undisturbed b i.
Proof.
  intros H [H0%negb_true_iff H1%negb_true_iff]%andb_true_iff j.
  destruct j as [|[|j]]; [done..|]. rewrite (sm_others _ H i (S (S j)) ltac:(lia)). done.
Qed.

Lemma small_step b b' : small b ->
  (forall i, box b' i = box b i \/ heap (box b' i) = ∅ /\ forall k, (2 <= k)%nat -> callers (box b' i) k = callers (box b i) k) ->
  small b'.
Proof.
  intros H Hb. split; intros i; destruct (Hb i) as [->|[H1 H2]]; try apply H; [|done].
  intros k Hk. rewrite H2 by done. by apply H.
Qed.

Lemma small_move (x : Move) b : small b -> small_move_ok x b = true -> small (box_move x b).
Proof.
  intros Hs [Hk Hx]%andb_true_iff. apply (small_step b); [done|]. intros i.
  destruct x as [ch k|ch|ch j|j]; cbn [move_slot box_move at_slot] in *.
  - apply Nat.ltb_lt in Hk. rewrite box_call_slots in *. case_decide as E; [right|by left].
    rewrite E in Hx. cbn in Hx. apply bool_decide_eq_true in Hx.
    rewrite box_call_slots, decide_True in Hx by done. split; [done|]. intros k' Hk'.
    by rewrite FetchViaHelper_other by lia.
  - unfold run_step in *. destruct (run_pc b) as [|seen n|seen]; try (by left). cbn [run_slot at_slot] in Hx.
    apply bool_decide_eq_true in Hx.
    destruct (n <? kSlots)%nat; [|by left]. destruct (serving b n || _); [by left|].
    cbn [box set_run set_serving set_slot] in *. destruct (decide (i = n)) as [->|N]; [right|left; by apply fn_lookup_insert_ne].
    split; [done|]. intros k _. rewrite fn_lookup_insert. by rewrite serve_callers.
  - apply bool_decide_eq_true in Hx. unfold serve_step in *. destruct (helper (box b j)); try (by left).
    all: cbn [box set_slot] in *; destruct (decide (i = j)) as [->|N]; [right|left; by apply fn_lookup_insert_ne];
      (split; [done|]); intros k _; rewrite fn_lookup_insert; by rewrite serve_callers.
  - left. unfold finally_step. by destruct (helper (box b j)).
Qed.

Lemma small_fresh ch b : small b -> fresh_block ch b.
Proof. intros Hs i. by rewrite (sm_heap _ Hs). Qed.

Lemma move_step (x : Move) b : small b -> box_step requests kSlots b (box_move x b).
Proof. intros Hs. destruct x; constructor. by apply small_fresh. Qed.

Lemma orderly_move_step (x : Move) b : small b -> orderly_move_ok x b = true -> orderly_step requests kSlots b (box_move x b).
Proof.
  intros Hs [Hc Hx]%andb_true_iff. apply Z.ltb_lt in Hc.
  destruct x as [ch k|ch|ch j|j]; cbn [move_slot box_move at_slot] in *.
  - apply os_call; [by apply small_fresh| |lia]. intros i E Hst. unfold at_slot in Hx. rewrite E in Hx. cbn [call_slot] in Hx.
    rewrite (proj2 (Z.eqb_eq _ _) Hst) in Hx. by apply small_undisturbed.
  - apply os_run. intros i E. rewrite E in Hx. by apply negb_true_iff in Hx.
  - apply os_serve.
  - apply os_finally.
Qed.

Lemma play_reachable_by (step : Box -> Box -> Prop) (ordered : bool) l b :
  (forall x b, small b -> (ordered = true -> orderly_move_ok x b = true) -> step b (box_move x b)) ->
  small b -> reachable step (fun b => b = initial_box) b -> play_ok ordered l b = true ->
  reachable step (fun b => b = initial_box) (box_play l b).
Proof.
  intros Hstep. revert b. induction l as [|x l IH]; intros b Hs Hb Hp; [done|]. cbn [play_ok] in Hp.
  apply andb_true_iff in Hp as [[Hx Ho]%andb_true_iff Hp]. apply IH; [by apply small_move|..|done].
  eapply reach_step; [done|]. apply Hstep; [done|]. intros ->. done.
Qed.

Lemma initial_small : small initial_box.
Proof. done. Qed.

Lemma orderly_run l : play_ok true l initial_box = true -> orderly requests kSlots (box_play l initial_box).
Proof.
  intros H. apply (play_reachable_by _ true); [|apply initial_small|by apply reach_init|done].
  intros x b Hs Ho. by apply orderly_move_step, Ho.
Qed.
Lemma plain_run l : play_ok false l initial_box = true ->
  reachable (box_step requests kSlots) (fun b => b = initial_box) (box_play l initial_box).
Proof.
  intros H. apply (play_reachable_by _ false); [|apply initial_small|by apply reach_init|done].
  intros x b Hs _. by apply move_step.
Qed.
End Runs.

(** Caller 0 publishes a request at the first of two slots while the helper goes to sleep:
    it looked at the slot before. *)
Definition just_published : list Move :=
  repeat (V_call (going Watch) 0) 16 ++ repeat (V_run (going Watch)) 4 ++ repeat (V_call (going Watch) 0) 2.

Lemma no_request_is_overlooked_witness :
  let b := box_play sample_requests 2 just_published initial_box in
  run_pc b = R_wait 0 /\ counter b = 0 /\
  (counter b <> 0 \/ helper (box b 0%nat) = H_claim \/ exists k, calls b k = B_count 0%nat).
Proof.
  split; [vm_compute; reflexivity|]. split; [vm_compute; reflexivity|].
  apply (no_request_is_overlooked sample_requests 2); [|vm_compute; reflexivity|lia|vm_compute; reflexivity].
  apply orderly_run. vm_compute. reflexivity.
Defined.

(** Caller 1 finds the first slot taken and moves on to the second. *)
Definition two_callers : list Move :=
  repeat (V_call (going Watch) 0) 2 ++ repeat (V_call (going Watch) 1) 3.

Lemma calls_hold_one_slot_witness :
  let b := box_play sample_requests 2 two_callers initial_box in
  inside (callers (box b 1%nat) 1%nat) = true /\
  forall i, inside (callers (box b i) 1%nat) = true -> i = 1%nat.
Proof.
  intros b. assert (inside (callers (box b 1%nat) 1%nat) = true) as H by (vm_compute; reflexivity).
  split; [exact H|]. intros i Hi.
  apply (calls_hold_one_slot sample_requests 2 b) with (k := 1%nat); [|exact Hi|exact H].
  apply orderly_run. vm_compute. reflexivity.
Defined.

(** When a scan comes between the end of a fetch and the clean-up that follows it, a
    request that took the slot in the meantime is passed over, and the helper sleeps on
    it until its time-out of a second. *)
Definition passed_over : list Move :=
  repeat (V_call (going Watch) 0) 19 ++ repeat (V_run (going Watch)) 2 ++ repeat (V_serve (going Watch) 0) 11 ++
  [V_serve (going Failure) 0] ++ repeat (V_serve (going Watch) 0) 2 ++ repeat (V_call (going Watch) 0) 3 ++
  repeat (V_call (going Watch) 1) 19 ++ repeat (V_run (going Watch)) 5 ++ [V_finally 0].

Lemma requests_may_be_passed_over :
  let b := box_play sample_requests 1 passed_over initial_box in
  reachable (box_step sample_requests 1) (fun b => b = initial_box) b /\
  run_pc b = R_wait 2 /\ counter b = 2 /\ lanes (box b 0%nat) STATE = REQUEST /\
  helper (box b 0%nat) = H_idle /\ calls b 1%nat = B_in 0.
Proof.
  cbv zeta. split; [|vm_compute; repeat split].
  apply plain_run. vm_compute. reflexivity.
Qed.
