(* ===== verification/HttpHeaders.v ===== *)
(** * HttpHeaders: the texts of a request and of a response
    ([bindings/http_fetch_helper.ts], [lib/src/http_wasm.cc])

    The lanes of a slot hold addresses.  Here the helper reads what is there, the URL, the
    method, the headers as pairs of NUL-terminated strings and the body, and the engine
    takes the headers of a response apart again.  A loop that runs off the end of the
    memory does not return, which is [None]. *)
From S2P Require Import Prelude Text HttpFetch HttpFacts.
From stdpp Require Import base tactics list strings.
From Stdlib Require Import ZArith Lia Ascii.
Open Scope Z_scope.

(** ** Reading a request *)

(** The memory the engine and the helper share. *)
Record ByteMemory := { mem_size : nat; mem_byte : Z -> Z }.

(** [while (view[end] !== 0) end++], from [p] on, with the bytes on the way. *)
Fixpoint until_nul (mem : ByteMemory) (p : Z) (left : nat) : option (list Z) :=
  match left with
  | O => None
  | S left' => if mem_byte mem p =? 0 then Some [] else cons (mem_byte mem p) <$> until_nul mem (p + 1) left'
  end.
Definition cstring (mem : ByteMemory) (p : Z) : option string :=
  utf8_decode <$> until_nul mem p (Z.to_nat (Z.of_nat (mem_size mem) - p)).

(** [bytes]: what is left of the memory, then zeros. *)
Definition bytes_at (mem : ByteMemory) (p : Z) (len : nat) : list Z :=
  map (fun i => if p + Z.of_nat i <? Z.of_nat (mem_size mem) then mem_byte mem (p + Z.of_nat i) else 0) (seq 0 len).
Definition text (mem : ByteMemory) (p : Z) (len : nat) : string := utf8_decode (bytes_at mem p len).

(** An element of [i32()], as an unsigned number. *)
Definition load32 (mem : ByteMemory) (i : Z) : Z := le_value (bytes_at mem (4 * i) 4).

Section Headers.
(** [Headers] of the platform; [append] may refuse a header. *)
Context {Headers : Type} (no_headers : Headers) (append : Headers -> string -> string -> option Headers).

(** [name === 'Host'] is sent under another name. *)
Definition header_name (name : string) : string := if String.eqb name "Host" then "X-Host-Override" else name.

(** The loop over the headers; [i] is [array + i] of the source. *)
Fixpoint header_loop (mem : ByteMemory) (i : Z) (count : nat) (hs : Headers) : option Headers :=
  match count with
  | O => Some hs
  | S count' =>
      name ← cstring mem (load32 mem i);
      if String.eqb name "User-Agent" then header_loop mem (i + 2) count' hs
      else value ← cstring mem (load32 mem (i + 1));
           header_loop mem (i + 2) count' (default hs (append hs (header_name name) value))
  end.

Record HelperRequest := { rq_url : string; rq_method : string; rq_headers : Headers; rq_body : option (list Z) }.

(** [serve] up to the store of [COPIED]; [f] are the values it loaded. *)
Definition read_request (mem : ByteMemory) (f : Lane -> Z) : option HelperRequest :=
  hs ← header_loop mem (f HEADERS / 4) (Z.to_nat (f HEADER_COUNT)) no_headers;
  Some {| rq_url := text mem (f URL_PTR) (Z.to_nat (f URL_LEN));
          rq_method := text mem (f METHOD) (Z.to_nat (f METHOD_LEN));
          rq_headers := hs;
          rq_body := if 0 <? f BODY_LEN then Some (bytes_at mem (f BODY) (Z.to_nat (f BODY_LEN))) else None |}.

(** ** What the engine put there *)

(** [bs] at [p]. *)
Definition holds_bytes (mem : ByteMemory) (p : Z) (bs : list Z) : Prop :=
  p + lenZ bs <= Z.of_nat (mem_size mem) /\ forall i b, bs !! i = Some b -> mem_byte mem (p + Z.of_nat i) = b.

(** The NUL-terminated UTF-8 of [s] at [p]. *)
Definition holds_cstring (mem : ByteMemory) (p : Z) (s : string) : Prop :=
  0 <= p /\ ~ In "000"%char (String.list_ascii_of_string s) /\ holds_bytes mem p (utf8_encode s ++ [0]).

Fixpoint holds_headers (mem : ByteMemory) (i : Z) (l : list (string * string)) : Prop :=
  match l with
  | [] => True
  | (n, v) :: l' => holds_cstring mem (load32 mem i) n /\ holds_cstring mem (load32 mem (i + 1)) v /\
      holds_headers mem (i + 2) l'
  end.

(** The headers that are sent: without the user agent, the host renamed, and without
    those the platform refuses. *)
Definition sent_headers (l : list (string * string)) (hs : Headers) : Headers :=
  foldl (fun hs nv => if String.eqb nv.1 "User-Agent" then hs else default hs (append hs (header_name nv.1) nv.2)) hs l.

Lemma until_nul_holds mem p bs left : 0 <= p -> Forall (fun b => b <> 0) bs -> holds_bytes mem p (bs ++ [0]) ->
  (length bs < left)%nat -> until_nul mem p left = Some bs.
Proof.
  intros Hp Hn. revert p Hp left. induction Hn as [|b bs Hb Hn IH]; intros p Hp left [Hs Hm] Hl.
  - destruct left as [|left]; [cbn in Hl; lia|]. cbn. specialize (Hm 0%nat 0 eq_refl). rewrite Z.add_0_r in Hm. by rewrite Hm.
  - destruct left as [|left]; [cbn in Hl; lia|]. cbn. pose proof (Hm 0%nat b eq_refl) as H0. rewrite Z.add_0_r in H0.
    rewrite H0. destruct (Z.eqb_spec b 0); [done|]. rewrite (IH (p + 1)); [done|lia|split|cbn in Hl; lia].
    + unfold lenZ in *. cbn in Hs. lia.
    + intros i x Hi. specialize (Hm (S i) x Hi). replace (p + 1 + Z.of_nat i) with (p + Z.of_nat (S i)) by lia. done.
Qed.

Lemma encode_no_nul s : ~ In "000"%char (String.list_ascii_of_string s) -> Forall (fun b => b <> 0) (utf8_encode s).
Proof.
  unfold utf8_encode. induction (String.list_ascii_of_string s) as [|c l IH]; intros H; [constructor|]. cbn.
  apply Forall_app. split; [|apply IH; intros Hi; apply H; by right].
  assert (c <> "000"%char) as N by (intros ->; apply H; by left).
  destruct c as [[] [] [] [] [] [] [] []]; try done; repeat constructor; vm_compute; congruence.
Qed.

Lemma cstring_holds mem p s : holds_cstring mem p s -> cstring mem p = Some s.
Proof.
  intros (Hp & Hn & Hh). unfold cstring. pose proof Hh as [Hs _]. unfold lenZ in Hs. rewrite length_app in Hs. cbn in Hs.
  rewrite (until_nul_holds mem p (utf8_encode s)); [cbn; by rewrite utf8_roundtrip|done|by apply encode_no_nul|done|lia].
Qed.

Lemma bytes_at_holds mem p bs : holds_bytes mem p bs -> bytes_at mem p (length bs) = bs.
Proof.
  intros [Hs Hm]. unfold bytes_at, lenZ in *. apply list_eq. intros i. rewrite list_lookup_fmap.
  destruct (decide (i < length bs)%nat) as [L|L].
  - rewrite lookup_seq_lt by done. destruct (lookup_lt_is_Some_2 bs i L) as [b Hb]. rewrite Hb. cbn.
    destruct (Z.ltb_spec (p + Z.of_nat i) (Z.of_nat (mem_size mem))); [|lia]. by rewrite (Hm i b).
  - rewrite lookup_seq_ge, lookup_ge_None_2 by lia. done.
Qed.

Lemma header_loop_holds mem i l hs : holds_headers mem i l -> header_loop mem i (length l) hs = Some (sent_headers l hs).
Proof.
  revert i hs. induction l as [|[n v] l IH]; intros i hs H; [done|]. cbn [holds_headers] in H. destruct H as (Hn & Hv & H).
  cbn [length header_loop]. rewrite (cstring_holds _ _ _ Hn). cbn [mbind option_bind]. cbn [sent_headers foldl fst snd].
  destruct (String.eqb n "User-Agent"); [by apply IH|]. rewrite (cstring_holds _ _ _ Hv). cbn. by apply IH.
Qed.

(** The helper reads from shared memory the request that is there: the URL and the
    method, the headers in order without the user agent, with the host under its other
    name and without those that the platform refuses, and the body if it is not empty;
    the reading comes to an end. *)
Theorem requests_are_read mem f url method headers body :
  Z.to_nat (f HEADER_COUNT) = length headers ->
  holds_bytes mem (f URL_PTR) (utf8_encode url) -> f URL_LEN = lenZ (utf8_encode url) ->
  holds_bytes mem (f METHOD) (utf8_encode method) -> f METHOD_LEN = lenZ (utf8_encode method) ->
  holds_headers mem (f HEADERS / 4) headers ->
  holds_bytes mem (f BODY) body -> f BODY_LEN = lenZ body ->
  read_request mem f = Some {| rq_url := url; rq_method := method; rq_headers := sent_headers headers no_headers;
    rq_body := match body with [] => None | _ => Some body end |}.
Proof.
  intros Hc Hu Hul Hm Hml Hh Hb Hbl. unfold read_request. rewrite Hc, (header_loop_holds _ _ _ _ Hh). cbn [mbind option_bind].
  unfold text. rewrite Hul, Hml, Hbl. unfold lenZ. rewrite !Nat2Z.id, !bytes_at_holds, !utf8_roundtrip by done.
  by destruct body.
Qed.
End Headers.

(** A request of two headers at fixed addresses, in a memory of 128 bytes. *)
Definition sample_bytes : list Z :=
  utf8_encode "http://h/" ++ utf8_encode "GET" ++ [0; 0; 0; 0] ++            (* 0, 9, 12 *)
  le_bytes 4 32 ++ le_bytes 4 40 ++ le_bytes 4 48 ++ le_bytes 4 40 ++         (* 16 *)
  utf8_encode "Host" ++ [0; 0; 0; 0] ++                                       (* 32 *)
  utf8_encode "h" ++ [0; 0; 0; 0; 0; 0; 0] ++                                 (* 40 *)
  utf8_encode "User-Agent" ++ [0].                                            (* 48 *)
Definition sample_memory : ByteMemory := {| mem_size := 128; mem_byte := fun p => nth (Z.to_nat p) sample_bytes 0 |}.
Definition sample_lanes (l : Lane) : Z :=
  match l with
  | URL_LEN => 9 | METHOD => 9 | METHOD_LEN => 3 | HEADERS => 16 | HEADER_COUNT => 2 | _ => 0
  end.
Definition list_append (hs : list (string * string)) (n v : string) : option (list (string * string)) := Some (hs ++ [(n, v)]).

(** The bytes of a concrete memory. *)
Definition holds_bytesb (mem : ByteMemory) (p : Z) (bs : list Z) : bool :=
  (p + lenZ bs <=? Z.of_nat (mem_size mem)) && bool_decide (map (fun i => mem_byte mem (p + Z.of_nat i)) (seq 0 (length bs)) = bs).
Lemma holds_bytesb_spec mem p bs : holds_bytesb mem p bs = true -> holds_bytes mem p bs.
Proof.
  intros [H1%Z.leb_le H2%bool_decide_eq_true]%andb_true_iff. split; [done|]. intros i b Hi. rewrite <- H2 in Hi.
  rewrite list_lookup_fmap in Hi. destruct (seq 0 (length bs) !! i) as [j|] eqn:E; [|done]. apply lookup_seq in E as [-> _]. by injection Hi.
Qed.
Lemma holds_cstringb mem p s : 0 <= p -> ~ In "000"%char (String.list_ascii_of_string s) ->
  holds_bytesb mem p (utf8_encode s ++ [0]) = true -> holds_cstring mem p s.
Proof. intros. split; [done|]. split; [done|]. by apply holds_bytesb_spec. Qed.

Lemma requests_are_read_witness :
  read_request [] list_append sample_memory sample_lanes =
    Some {| rq_url := "http://h/"; rq_method := "GET"; rq_headers := [("X-Host-Override", "h")]; rq_body := None |}.
Proof.
  apply (requests_are_read [] list_append sample_memory sample_lanes "http://h/" "GET" [("Host", "h"); ("User-Agent", "h")] []);
    try reflexivity; try (apply holds_bytesb_spec; vm_compute; reflexivity).
  split; [|split; [|split; [|split; [|exact I]]]];
    (apply holds_cstringb; [vm_compute; congruence|cbn; intuition congruence|vm_compute; reflexivity]).
Defined.

(** ** The headers of a response *)

(** [lines.join(sep)], on the bytes. *)
Fixpoint join (sep : list Z) (lines : list (list Z)) : list Z :=
  match lines with
  | [] => []
  | [l] => l
  | l :: lines' => l ++ sep ++ join sep lines'
  end.
Definition CRLF : list Z := [13; 10].
Definition COLON : Z := 58.

(** [key + ': ' + value], and what the helper puts in front of the body. *)
Definition response_line (kv : string * string) : list Z := utf8_encode kv.1 ++ [COLON; 32] ++ utf8_encode kv.2.
Definition response_bytes (status : Z) (headers : list (string * string)) (body : list Z) : list Z :=
  HttpFetch.encode status (join CRLF (map response_line headers)) body.

(** The engine's string helpers: the parts between the line ends, and a text without
    white space at its ends. *)
Class StringUtil := {
  Split : list Z -> list (list Z);
  Trim : list Z -> list Z
}.
(** No white space at either end. *)
Definition is_blank (b : Z) : bool := (b =? 32) || ((9 <=? b) && (b <=? 13)).
Definition trimmed (l : list Z) : Prop := from_option (fun b => is_blank b = false) True (head l) /\
  from_option (fun b => is_blank b = false) True (last l).
Class StringUtilLaws `{StringUtil} := {
  Split_join lines : lines <> [] -> Forall (fun l => l <> [] /\ Forall (fun b => b ∉ CRLF) l) lines ->
    Split (join CRLF lines) = lines;
  Split_nothing : Forall (eq []) (Split []);
  Trim_blank n l : trimmed l -> Trim (replicate n 32 ++ l) = l
}.

(** [line.find(':')], and the two parts of the line. *)
Fixpoint cut_at (c : Z) (l : list Z) : option (list Z * list Z) :=
  match l with
  | [] => None
  | b :: l' => if b =? c then Some ([], l') else (fun x => (b :: x.1, x.2)) <$> cut_at c l'
  end.

(** The engine's types for a response: its status codes, and its map of headers with
    [Insert]. *)
Class HTTPUtil := {
  HTTPStatusCode : Type;
  ToStatusCode : Z -> HTTPStatusCode;
  NotFound_404 : HTTPStatusCode;
  HTTPHeaders : Type;
  empty_headers : HTTPHeaders;
  Insert : list Z -> list Z -> HTTPHeaders -> HTTPHeaders
}.

Record HTTPResponse `{HTTPUtil} := {
  rs_status : HTTPStatusCode;
  rs_reason : string;
  rs_headers : HTTPHeaders;
  rs_body : list Z
}.

Section Response.
Context `{http : HTTPUtil} `{laws : StringUtilLaws}.

(** The headers inserted in this order. *)
Definition insert_all (l : list (list Z * list Z)) : HTTPHeaders :=
  foldl (fun hs kv => Insert kv.1 kv.2 hs) empty_headers l.

(** A line of [ParseWasmResponse], and all that is inserted. *)
Definition parse_line (line : list Z) : option (list Z * list Z) :=
  match cut_at COLON line with
  | Some (key, val) => let key := Trim key in if bool_decide (key = []) then None else Some (key, Trim val)
  | None => None
  end.
Definition parse_headers (raw : list Z) : list (list Z * list Z) := omap parse_line (Split raw).

(** A null buffer is answered as not found; of another one the engine takes the status,
    the headers and the body. *)
Definition ParseWasmResponse (buf : option (list Z)) : HTTPResponse :=
  match buf with
  | None =>
      {| rs_status := NotFound_404;
         rs_reason := "XMLHttpRequest failed or unavailable — check the browser console for CORS or network errors";
         rs_headers := empty_headers; rs_body := [] |}
  | Some buf =>
      let '(status_code, raw_headers, body) := parse_response buf in
      {| rs_status := ToStatusCode status_code; rs_reason := "";
         rs_headers := insert_all (parse_headers raw_headers); rs_body := body |}
  end.

(** A header as [Headers] of the platform gives it: a name without a colon, nothing that ends a line. *)
Definition header_ok (kv : string * string) : Prop :=
  kv.1 <> EmptyString /\ (COLON ∉ utf8_encode kv.1) /\ Forall (fun b => b ∉ CRLF) (utf8_encode kv.1 ++ utf8_encode kv.2) /\
  trimmed (utf8_encode kv.1) /\ trimmed (utf8_encode kv.2).

Lemma cut_at_first c l r : c ∉ l -> cut_at c (l ++ c :: r) = Some (l, r).
Proof.
  induction l as [|b l IH]; intros Hl; cbn; [by rewrite Z.eqb_refl|].
  apply not_elem_of_cons in Hl as [N Hl]. destruct (Z.eqb_spec b c); [congruence|]. by rewrite (IH Hl).
Qed.

Lemma parse_response_line kv : header_ok kv -> parse_line (response_line kv) = Some (utf8_encode kv.1, utf8_encode kv.2).
Proof.
  intros (Hne & Hc & _ & Hk & Hv). unfold parse_line, response_line. cbn [app].
  rewrite (cut_at_first COLON (utf8_encode kv.1) (32 :: utf8_encode kv.2)) by done.
  rewrite (Trim_blank 0 (utf8_encode kv.1)) by done. rewrite (Trim_blank 1 (utf8_encode kv.2)) by done.
  rewrite bool_decide_eq_false_2; [done|]. intros E. apply Hne.
  rewrite <- (utf8_roundtrip kv.1), E. done.
Qed.

Lemma response_line_unbroken kv : header_ok kv -> response_line kv <> [] /\ Forall (fun b => b ∉ CRLF) (response_line kv).
Proof.
  intros (_ & _ & [H1 H2]%Forall_app & _). unfold response_line. split; [by destruct (utf8_encode kv.1)|].
  apply Forall_app. split; [done|]. apply Forall_app. split; [|done].
  repeat constructor; by apply (bool_decide_unpack _).
Qed.

Lemma headers_come_back headers : Forall header_ok headers ->
  parse_headers (join CRLF (map response_line headers)) = map (fun kv => (utf8_encode kv.1, utf8_encode kv.2)) headers.
Proof.
  intros Hh. unfold parse_headers. destruct headers as [|kv headers].
  - cbn. pose proof Split_nothing as Hs. induction Hs as [|l ls <- _ IH]; [done|]. cbn. exact IH.
  - rewrite Split_join; [|done|].
    + induction Hh as [|kv' l Hkv _ IH]; [done|]. cbn. rewrite (parse_response_line kv' Hkv). f_equal. exact IH.
    + apply Forall_map. eapply Forall_impl; [exact Hh|]. exact response_line_unbroken.
Qed.

(** C21: What the helper got from a fetch is what the engine finds in its buffer: the
    engine's code for the status, a header map into which every header was inserted with
    its name and value, in order and nothing else, and the body. *)
Theorem responses_come_back status headers body : 0 <= status < 2 ^ 16 -> Forall header_ok headers ->
  lenZ (join CRLF (map response_line headers)) < 2 ^ 32 -> lenZ body < 2 ^ 32 ->
  ParseWasmResponse (Some (response_bytes status headers body)) =
    {| rs_status := ToStatusCode status; rs_reason := "";
       rs_headers := insert_all (map (fun kv => (utf8_encode kv.1, utf8_encode kv.2)) headers);
       rs_body := body |}.
Proof.
  intros Hs Hh Hl Hb. unfold ParseWasmResponse, response_bytes.
  rewrite encode_parsed by done. by rewrite headers_come_back.
Qed.
End Response.

(** String helpers as the engine's documentation has them. *)
Fixpoint split_lines (l cur : list Z) : list (list Z) :=
  match l with
  | [] => [cur]
  | b :: l' =>
      match l' with
      | c :: l'' => if (b =? 13) && (c =? 10) then cur :: split_lines l'' [] else split_lines l' (cur ++ [b])
      | [] => [cur ++ [b]]
      end
  end.
Fixpoint drop_blank (l : list Z) : list Z :=
  match l with b :: l' => if is_blank b then drop_blank l' else l | [] => [] end.
#[export] Instance simple_StringUtil : StringUtil :=
  {| Split l := split_lines l []; Trim l := rev (drop_blank (rev (drop_blank l))) |}.

Lemma split_lines_app l rest cur : Forall (fun b => b ∉ CRLF) l ->
  split_lines (l ++ rest) cur = split_lines rest (cur ++ l).
Proof.
  intros H. revert cur. induction H as [|b l Hb H IH]; intros cur; [by rewrite app_nil_r|].
  assert ((b =? 13) = false) as Eb by (apply Z.eqb_neq; intros ->; apply Hb; by left).
  cbn [app split_lines]. rewrite Eb. cbn [andb].
  assert (forall x, match l ++ rest with [] => [x] | _ :: _ => split_lines (l ++ rest) x end = split_lines (l ++ rest) x) as E
    by (intros x; by destruct (l ++ rest)).
  specialize (IH (cur ++ [b])). rewrite <- app_assoc in IH. cbn [app] in IH. rewrite <- IH.
  by destruct (l ++ rest).
Qed.

Lemma drop_blank_head l : from_option (fun b => is_blank b = false) True (head l) -> drop_blank l = l.
Proof. destruct l as [|b l]; cbn; [done|]. by intros ->. Qed.

#[export] Instance simple_StringUtilLaws : StringUtilLaws.
Proof.
  split.
  - intros lines Hne H. cbn [Split simple_StringUtil]. induction H as [|l lines [Hl0 Hl] H IH]; [done|].
    destruct lines as [|l' lines].
    + cbn [join]. rewrite <- (app_nil_r l) at 1. by rewrite split_lines_app.
    + change (join CRLF (l :: l' :: lines)) with (l ++ CRLF ++ join CRLF (l' :: lines)).
      rewrite split_lines_app by done. cbn [CRLF app split_lines Z.eqb andb Pos.eqb]. f_equal. by apply IH.
  - by repeat constructor.
  - intros n l [H1 H2]. cbn [Trim simple_StringUtil].
    assert (drop_blank (replicate n 32 ++ l) = l) as -> by (induction n; [by apply drop_blank_head|done]).
    rewrite drop_blank_head; [apply rev_involutive|].
    unfold reverse in *. rewrite rev_alt. by rewrite <- head_reverse in H2.
Qed.

(** Status codes as numbers, with none for those that are not known, and the first
    header of a name kept. *)
Definition simple_Insert (k v : list Z) (hs : list (list Z * list Z)) : list (list Z * list Z) :=
  if existsb (fun kv => bool_decide (kv.1 = k)) hs then hs else hs ++ [(k, v)].
#[export] Instance simple_HTTPUtil : HTTPUtil :=
  {| HTTPStatusCode := option Z; ToStatusCode n := if (100 <=? n) && (n <? 600) then Some n else None;
     NotFound_404 := Some 404; HTTPHeaders := list (list Z * list Z); empty_headers := []; Insert := simple_Insert |}.

Lemma responses_come_back_witness :
  ParseWasmResponse (Some (response_bytes 206 [("content-length", "3"); ("etag", "a: b")] [1; 2; 3])) =
    {| rs_status := Some 206; rs_reason := "";
       rs_headers := [(utf8_encode "content-length", utf8_encode "3"); (utf8_encode "etag", utf8_encode "a: b")];
       rs_body := [1; 2; 3] |}.
Proof.
  etransitivity.
  - apply (responses_come_back 206 [("content-length", "3"); ("etag", "a: b")] [1; 2; 3]); [lia| |vm_compute; reflexivity..].
    repeat (constructor; [split; [discriminate|]; split; [by apply (bool_decide_unpack _)|];
      split; [by apply (bool_decide_unpack _)|]; done|]). constructor.
  - vm_compute. reflexivity.
Defined.
