(* ===== verification/UdfRuntime.v ===== *)
(** * UdfRuntime: calling scalar functions ([bindings/udf_runtime.ts])

    The engine calls a function that JavaScript registered: it passes a description of
    the arguments (JSON) and an array of pointers to their buffers; the runtime reads the
    arguments of each row, calls the function, and answers with pointers to buffers for
    values, validity and string lengths.

    The heap is that of the engine, so it is a type [M] with the operations of typed
    arrays over it ([TypedHeap]).  A view keeps the buffer it was made over: growing a
    memory that is not shared detaches it, and then it reads [undefined] and ignores
    writes.  A number is an integer or one of the others ([F]: fractions, NaN, the
    infinities), whose arithmetic the code does not look at.  Objects are passed as they
    are at the time of the call: a function that keeps or changes the object of a STRUCT
    argument, which the code makes once and fills again for every row, is not covered.

    A function is one of the program's: it works on a state [U] of its own, and may throw
    any value. *)
From S2P Require Import Prelude Text Data WasmModule.
From stdpp Require Import base tactics list strings pretty.
From Stdlib Require Import ZArith Lia.
Open Scope Z_scope.

(** ** Values *)

Inductive JsNumber (F : Type) := Num_int (n : Z) | Num_other (x : F).
Arguments Num_int {F}. Arguments Num_other {F}.

(** What the language does with the other numbers. *)
Class Numbers (F : Type) := {
  NaN : F;
  is_NaN : F -> bool;
  truncate : F -> Z;                  (** [ToIntegerOrInfinity]; 0 for NaN and infinities *)
  fround : JsNumber F -> JsNumber F;      (** [Math.fround] *)
  parse_number : string -> JsNumber F;  (** [JsNumber(s)] *)
  print_number : JsNumber F -> string
}.

Inductive Value (F : Type) :=
| V_undefined
| V_null
| V_boolean (b : bool)
| V_number (n : JsNumber F)
| V_string (s : string)
| V_object (fields : list (string * Value F)).
Arguments V_undefined {F}. Arguments V_null {F}. Arguments V_boolean {F}. Arguments V_number {F}.
Arguments V_string {F}. Arguments V_object {F}.

(** What is thrown: an error, or any other value. *)
Inductive JsThrown (F : Type) := T_error (e : JsError) | T_value (v : Value F).
Arguments T_error {F}. Arguments T_value {F}.

(** How a call of a function ends. *)
Inductive Completion (F A : Type) := Done (a : A) | Threw (t : JsThrown F).
Arguments Done {F A}. Arguments Threw {F A}.

(** A function that was registered. *)
Definition ScalarUDF (F U : Type) : Type := list (Value F) -> U -> Completion F (Value F) * U.

(** The element types of the typed arrays in use. *)
Inductive ElemType := E_u8 | E_i8 | E_i32 | E_f32 | E_f64.
Definition elem_size (t : ElemType) : Z := match t with E_u8 | E_i8 => 1 | E_i32 | E_f32 => 4 | E_f64 => 8 end.

Section Values.
Context {F : Type} `{Numbers F}.

Definition integer_of (n : JsNumber F) : Z := match n with Num_int z => z | Num_other x => truncate x end.

(** [ToNumber] *)
Definition to_number (v : Value F) : JsNumber F :=
  match v with
  | V_undefined | V_object _ => Num_other NaN
  | V_null => Num_int 0
  | V_boolean b => Num_int (if b then 1 else 0)
  | V_number n => n
  | V_string s => parse_number s
  end.

(** What a typed array keeps of a number. *)
Definition convert (t : ElemType) (n : JsNumber F) : JsNumber F :=
  match t with
  | E_u8 => Num_int (integer_of n mod 256)
  | E_i8 => Num_int ((integer_of n + 128) mod 256 - 128)
  | E_i32 => Num_int (int32 (integer_of n))
  | E_f32 => fround n
  | E_f64 => n
  end.

(** [v || ''] as [TextEncoder.encode] converts it. *)
Definition text_of (v : Value F) : string :=
  match v with
  | V_undefined | V_null | V_boolean false => ""
  | V_boolean true => "true"
  | V_number (Num_int n) => if (n =? 0)%Z then "" else print_number (Num_int n)
  | V_number (Num_other x) => if is_NaN x then "" else print_number (Num_other x)
  | V_string s => s
  | V_object _ => "[object Object]"
  end%string.

Definition nullish (v : Value F) : bool := match v with V_undefined | V_null => true | _ => false end.

(** [!v] of an element of a byte array *)
Definition falsy (v : Value F) : bool :=
  match v with V_undefined | V_null | V_boolean false => true | V_number (Num_int n) => n =? 0 | _ => false end.

(** [e.toString()] of what was thrown; a data property of that name cannot be called. *)
Definition TypeError (msg : string) : JsError := MkError "TypeError" msg None.
Definition thrown_string (t : JsThrown F) : Outcome string :=
  match t with
  | T_error e => Normal (error_string e)
  | T_value V_undefined => Thrown (TypeError "Cannot read properties of undefined (reading 'toString')")
  | T_value V_null => Thrown (TypeError "Cannot read properties of null (reading 'toString')")
  | T_value (V_boolean b) => Normal (if b then "true" else "false")%string
  | T_value (V_number n) => Normal (print_number n)
  | T_value (V_string s) => Normal s
  | T_value (V_object fields) =>
      if existsb (fun f => String.eqb f.1 "toString") fields then Thrown (TypeError "e.toString is not a function")
      else Normal "[object Object]"%string
  end.

(** A number used as an index: [undefined] becomes NaN, then 0. *)
Definition index_of (v : Value F) : Z := integer_of (to_number v).
End Values.

(** ** The heap *)

Class TypedHeap (F M : Type) := {
  h_malloc : Z -> M -> Z * M;
  h_buffer : M -> Z;                             (** the identity of [HEAPU8.buffer] *)
  h_shared : M -> bool;
  h_length : M -> Z;                             (** its length in bytes *)
  h_bytes : Z -> Z -> M -> bytes;                (** address, length *)
  h_set_bytes : Z -> bytes -> M -> M;
  h_elem : ElemType -> Z -> M -> JsNumber F;       (** the element at an address *)
  h_set_elem : ElemType -> Z -> JsNumber F -> M -> M
}.

(** A typed array over the heap. *)
Record ArrayView := { av_buffer : Z; av_type : ElemType; av_ptr : Z; av_length : Z }.

(** The description of the arguments, as it is parsed. *)
Inductive ArgumentTypeDescription :=
| MkArgument (arg_name : string) (physicalType : string)
    (validityBuffer dataBuffer lengthBuffer : option Z) (children : list ArgumentTypeDescription).

Record SchemaDescription := {
  desc_rows : Z;
  desc_args : list ArgumentTypeDescription;
  desc_ret : string                              (** [ret.physicalType] *)
}.

(** A resolver: what the closure of [buildResolver] reads a row from. *)
Inductive Resolver (F : Type) :=
| R_strings (strings : list (Value F))
| R_struct (validity : option ArrayView) (children : list (string * Resolver F))
| R_data (validity : option ArrayView) (data : option ArrayView).
Arguments R_strings {F}. Arguments R_struct {F}. Arguments R_data {F}.

Definition getTypeSize (ptype : string) : Z :=
  if bool_decide (ptype ∈ ["UINT8"; "INT8"]%string) then 1
  else if bool_decide (ptype ∈ ["INT32"; "FLOAT"]%string) then 4
  else if bool_decide (ptype ∈ ["INT64"; "UINT64"; "DOUBLE"; "VARCHAR"]%string) then 8
  else 0.

(** The array type [ptrToArray] makes; for other types it is an empty array. *)
Definition array_type (ptype : string) : option ElemType :=
  if bool_decide (ptype = "UINT8"%string) then Some E_u8
  else if bool_decide (ptype = "INT8"%string) then Some E_i8
  else if bool_decide (ptype = "INT32"%string) then Some E_i32
  else if bool_decide (ptype = "FLOAT"%string) then Some E_f32
  else if bool_decide (ptype = "DOUBLE"%string) then Some E_f64
  else if bool_decide (ptype = "VARCHAR"%string) then Some E_f64
  else None.

Section Heap.
Context {F M : Type} `{Numbers F} `{TypedHeap F M}.

Definition RangeError (msg : string) : JsError := MkError "RangeError" msg None.

(** An index given to [subarray], clamped. *)
Definition clamp (i len : Z) : Z := if i <? 0 then Z.max 0 (len + i) else Z.min i len.

(** A view can be used while its buffer is the heap's, or shared. *)
Definition usable (v : ArrayView) (m : M) : bool := h_shared m || (av_buffer v =? h_buffer m).
Definition in_view (v : ArrayView) (i : Z) (m : M) : bool := usable v m && (0 <=? i) && (i <? av_length v).
Definition elem_addr (v : ArrayView) (i : Z) : Z := av_ptr v + i * elem_size (av_type v).

Definition view_length (v : option ArrayView) (m : M) : Z :=
  match v with Some v => if usable v m then av_length v else 0 | None => 0 end.
Definition view_get (v : option ArrayView) (i : Z) (m : M) : Value F :=
  match v with
  | Some v => if in_view v i m then V_number (h_elem (av_type v) (elem_addr v i) m) else V_undefined
  | None => V_undefined
  end.
Definition view_set (v : ArrayView) (i : Z) (x : Value F) : JS M unit :=
  modify (fun m => if in_view v i m then h_set_elem (av_type v) (elem_addr v i) (convert (av_type v) (to_number x)) m else m).

(** [const heap = HEAPU8.subarray(ptr, ...); new T(heap.buffer, heap.byteOffset, n)] *)
Definition new_view (t : ElemType) (ptr n : Z) : JS M ArrayView := fun m =>
  let offset := clamp ptr (h_length m) in
  if negb (offset mod elem_size t =? 0) then (Thrown (RangeError "start offset of a typed array"), m)
  else if h_length m <? offset + n * elem_size t then (Thrown (RangeError "Invalid typed array length"), m)
  else (Normal {| av_buffer := h_buffer m; av_type := t; av_ptr := offset; av_length := n |}, m).

Definition ptrToArray (ptr : Z) (ptype : string) (n : Z) : JS M (option ArrayView) :=
  match array_type ptype with
  | Some t => let! v := new_view t ptr n in ret (Some v)
  | None => ret None
  end.
Definition ptrToUint8Array (ptr n : Z) : JS M ArrayView := new_view E_u8 ptr n.
Definition ptrToFloat64Array (ptr n : Z) : JS M ArrayView := new_view E_f64 ptr n.

Definition malloc (n : Z) : JS M Z := fun m => let '(p, m') := h_malloc n m in (Normal p, m').

(** [HEAPU8.subarray(p, p + n)], its bytes *)
Definition subarray_bytes (p n : Z) (m : M) : bytes :=
  let a := clamp p (h_length m) in h_bytes a (Z.max 0 (clamp (p + n) (h_length m) - a)) m.
Definition heap_bytes (p n : Z) : JS M bytes := gets (subarray_bytes p n).

(** [HEAPU8.subarray(p, p + n).set(bs)] *)
Definition heap_set_bytes (p : Z) (bs : bytes) : JS M unit := fun m =>
  let a := clamp p (h_length m) in
  if clamp (p + lenZ bs) (h_length m) - a <? lenZ bs then (Thrown (RangeError "offset is out of bounds"), m)
  else (Normal tt, h_set_bytes a bs m).

(** [HEAPF64[i] = v]; an index outside does nothing. *)
Definition set_heap_f64 (i : Z) (x : Z) : JS M unit :=
  modify (fun m => if (0 <=? i) && (8 * i + 8 <=? h_length m) then h_set_elem E_f64 (8 * i) (Num_int x) m else m).

Definition storeError (response : Z) (message : string) : JS M unit :=
  let msgBuffer := utf8_encode message in
  let! heapAddr := malloc (lenZ msgBuffer) in
  heap_set_bytes heapAddr msgBuffer ;;;
  set_heap_f64 (shr32 response 3 + 0) 1 ;;;
  set_heap_f64 (shr32 response 3 + 1) heapAddr ;;;
  set_heap_f64 (shr32 response 3 + 2) (lenZ msgBuffer).

(** ** The arguments *)

Section Arguments.
Context (ptrs : ArrayView) (rows : Z).

(** [ptrs[i] as number], used as an address *)
Definition pointer (i : Z) : JS M Z := gets (fun m => index_of (view_get (Some ptrs) i m)).

(** The strings of a VARCHAR argument, decoded at once. *)
Definition decode_strings (validity : option ArrayView) (raw : option ArrayView) (lengths : ArrayView)
    : JS M (list (Value F)) :=
  map_of (seqZ 0 rows) (fun j =>
    let! null := gets (fun m => match validity with Some v => falsy (view_get (Some v) j m) | None => false end) in
    if null then ret V_null
    else
      let! p := gets (fun m => index_of (view_get raw j m)) in
      let! n := gets (fun m => index_of (view_get (Some lengths) j m)) in
      let! b := heap_bytes p n in
      ret (V_string (utf8_decode b))).

Definition malformed (what : string) : JsError := Error ("malformed data view, expected " +:+ what).

Fixpoint buildResolver (arg : ArgumentTypeDescription) : JS M (Resolver F) :=
  let '(MkArgument _ physicalType validityBuffer dataBuffer lengthBuffer children) := arg in
  let! validity :=
    match validityBuffer with
    | Some b => let! p := pointer b in let! v := ptrToUint8Array p rows in ret (Some v)
    | None => ret None
    end in
  if bool_decide (physicalType = "VARCHAR"%string) then
    match dataBuffer, lengthBuffer with
    | None, _ => throw (malformed "data buffer for VARCHAR argument")
    | _, None => throw (malformed "data length buffer for VARCHAR argument")
    | Some d, Some l =>
        let! p := pointer d in
        let! raw := ptrToArray p physicalType rows in
        let! q := pointer l in
        let! stringLengths := ptrToFloat64Array q rows in
        let! strings := decode_strings validity raw stringLengths in
        ret (R_strings strings)
    end
  else if bool_decide (physicalType = "STRUCT"%string) then
    let! rs := (fix build l :=
                  match l with
                  | [] => ret []
                  | c :: l' =>
                      let! r := buildResolver c in
                      let! rs := build l' in
                      let '(MkArgument name _ _ _ _ _) := c in ret ((name, r) :: rs)
                  end) children in
    ret (R_struct validity rs)
  else
    match dataBuffer with
    | None => throw (malformed ("data buffer for argument of type: " +:+ physicalType))
    | Some d =>
        let! p := pointer d in
        let! data := ptrToArray p physicalType rows in
        ret (R_data validity data)
    end.
End Arguments.

(** Whether a row is null. *)
Definition row_null (validity : option ArrayView) (row : Z) (m : M) : bool :=
  match validity with Some v => falsy (view_get (Some v) row m) | None => false end.

(** A resolver applied to a row. *)
Fixpoint resolve (r : Resolver F) (row : Z) (m : M) : Value F :=
  match r with
  | R_strings l => default V_undefined (l !! Z.to_nat row)
  | R_struct validity children =>
      if row_null validity row m then V_null
      else V_object (map (fun '(name, c) => (name, resolve c row m)) children)
  | R_data validity data => if row_null validity row m then V_null else view_get data row m
  end.

(** ** The call *)

Context (JSON_parse : string -> Outcome SchemaDescription).

Definition of_outcome {A} (o : Outcome A) : JS M A := fun m => (o, m).

(** The result of row [i] and its validity; a VARCHAR goes to an array of the runtime's own. *)
Definition store_result (data : option ArrayView) (validity : ArrayView) (i : Z) (res : Value F) : JS M unit :=
  match data with Some v => view_set v i res | None => ret tt end ;;;
  view_set validity i (V_number (Num_int (if nullish res then 0 else 1))).

(** The lengths of the strings, from [row] on. *)
Fixpoint store_lengths (lengths : ArrayView) (row : Z) (utf8 : list bytes) : JS M unit :=
  match utf8 with
  | [] => ret tt
  | b :: utf8' => view_set lengths row (V_number (Num_int (lenZ b))) ;;; store_lengths lengths (row + 1) utf8'
  end.

(** The strings back to back, and the offset of each. *)
Fixpoint copy_strings (data : ArrayView) (stringPtr row writerOffset : Z) (utf8 : list bytes) : JS M unit :=
  match utf8 with
  | [] => ret tt
  | b :: utf8' =>
      view_set data row (V_number (Num_int writerOffset)) ;;;
      heap_set_bytes (stringPtr + writerOffset) b ;;;
      copy_strings data stringPtr (row + 1) (writerOffset + lenZ b) utf8'
  end.

(** The strings of the results, in UTF-8. *)
Definition texts (results : list (Value F)) : list bytes := map (fun v => utf8_encode (text_of v)) results.

Definition encode_strings (data : ArrayView) (rows : Z) (results : list (Value F)) : JS M Z :=
  let! resultLengthsPtr := malloc (rows * 8) in
  let! resultLengths := ptrToFloat64Array resultLengthsPtr rows in
  let utf8 := texts results in
  store_lengths resultLengths 0 utf8 ;;;
  let! resultStringPtr := malloc (sum_list_Z (map lenZ utf8)) in
  copy_strings data resultStringPtr 0 0 utf8 ;;;
  ret resultLengthsPtr.

(** The answer: three pointers, in a block of their own. *)
Definition pack_response (response resultDataPtr resultValidityPtr resultLengthsPtr : Z) : JS M unit :=
  let! retPtr := malloc 24 in
  let! retBuffer := ptrToFloat64Array retPtr 3 in
  view_set retBuffer 0 (V_number (Num_int resultDataPtr)) ;;;
  view_set retBuffer 1 (V_number (Num_int resultValidityPtr)) ;;;
  view_set retBuffer 2 (V_number (Num_int resultLengthsPtr)) ;;;
  set_heap_f64 (shr32 response 3 + 0) 0 ;;;
  set_heap_f64 (shr32 response 3 + 1) retPtr ;;;
  set_heap_f64 (shr32 response 3 + 2) 0.

(** The buffers for the results: address and view of the values, then of the validity. *)
Definition result_buffers (desc : SchemaDescription) : JS M (Z * option ArrayView * (Z * ArrayView)) :=
  let! resultDataPtr := malloc (desc_rows desc * getTypeSize (desc_ret desc)) in
  let! resultData := ptrToArray resultDataPtr (desc_ret desc) (desc_rows desc) in
  let! resultValidityPtr := malloc (desc_rows desc) in
  let! resultValidity := ptrToUint8Array resultValidityPtr (desc_rows desc) in
  ret (resultDataPtr, resultData, (resultValidityPtr, resultValidity)).

(** *** The code that calls the function, on its state too *)

Section Functions.
Context {U : Type}.
(** [runtime._udfFunctions] *)
Context (udfFunctions : Z -> option (ScalarUDF F U)).

Definition UDF (A : Type) : Type := M -> U -> Completion F A * M * U.
Definition u_ret {A} (a : A) : UDF A := fun m u => (Done a, m, u).
Definition u_bind {A B} (x : UDF A) (k : A -> UDF B) : UDF B := fun m u =>
  match x m u with
  | (Done a, m', u') => k a m' u'
  | (Threw t, m', u') => (Threw t, m', u')
  end.
Definition u_catch {A} (x : UDF A) (h : JsThrown F -> UDF A) : UDF A := fun m u =>
  match x m u with
  | (Done a, m', u') => (Done a, m', u')
  | (Threw t, m', u') => h t m' u'
  end.
Definition on_heap {A} (x : JS M A) : UDF A := fun m u =>
  match x m with
  | (Normal a, m') => (Done a, m', u)
  | (Thrown e, m') => (Threw (T_error e), m', u)
  end.
Definition call_func (func : ScalarUDF F U) (args : list (Value F)) : UDF (Value F) := fun m u =>
  let '(c, u') := func args u in (c, m, u').

Notation "'let*' x ':=' m 'in' k" := (u_bind m (fun x => k))
  (at level 10, x name, m at level 100, k at level 200).
Notation "'let*' ' p ':=' m 'in' k" := (u_bind m (fun x => match x with p => k end))
  (at level 10, p pattern, m at level 100, k at level 200).

(** The function is called for each row, and its result stored. *)
Fixpoint run_rows (func : ScalarUDF F U) (argResolvers : list (Resolver F))
    (data : option ArrayView) (validity : ArrayView) (rows : list Z) : UDF (list (Value F)) :=
  match rows with
  | [] => u_ret []
  | i :: rows' =>
      let* args := on_heap (gets (fun m => map (fun r => resolve r i m) argResolvers)) in
      let* res := call_func func args in
      let* _ := on_heap (store_result data validity i res) in
      let* results := run_rows func argResolvers data validity rows' in
      u_ret (res :: results)
  end.

(** From the resolvers on. *)
Definition call_rows (response : Z) (desc : SchemaDescription) (func : ScalarUDF F U)
    (argResolvers : list (Resolver F)) : UDF unit :=
  let rows := desc_rows desc in
  let* '(resultDataPtr, resultData, (resultValidityPtr, resultValidity)) := on_heap (result_buffers desc) in
  let* empty := on_heap (gets (fun m => (view_length resultData m =? 0) || (view_length (Some resultValidity) m =? 0))) in
  match resultData, empty with
  | Some data, false =>
      let varchar := bool_decide (desc_ret desc = "VARCHAR"%string) in
      let* results := run_rows func argResolvers (if varchar then None else Some data) resultValidity (seqZ 0 rows) in
      on_heap (let! resultLengthsPtr := (if varchar then encode_strings data rows results else ret 0) in
               pack_response response resultDataPtr resultValidityPtr resultLengthsPtr)
  | _, _ => on_heap (storeError response "Can't create physical arrays for result")
  end.

Definition callScalarUDF (response funcId descPtr descSize ptrsPtr ptrsSize : Z) : UDF unit :=
  u_catch
    (match udfFunctions funcId with
     | None => on_heap (storeError response ("Unknown UDF with id: " +:+ pretty funcId))
     | Some func =>
         let* rawDesc := on_heap (heap_bytes descPtr descSize) in
         let* desc := on_heap (of_outcome (JSON_parse (utf8_decode rawDesc))) in
         let* ptrs := on_heap (ptrToFloat64Array ptrsPtr (ptrsSize / 8)) in
         let* argResolvers := on_heap (map_of (desc_args desc) (buildResolver ptrs (desc_rows desc))) in
         call_rows response desc func argResolvers
     end)
    (fun e => let* text := on_heap (of_outcome (thrown_string e)) in on_heap (storeError response text)).
End Functions.
End Heap.
