(* ===== verification/UdfFacts.v ===== *)
(** * UdfFacts: scalar functions are applied row by row

    The laws of a heap ([TypedHeapLaws]): elements and bytes are read back as stored, a
    store touches nothing else, and [malloc] gives a block apart from every live one and
    leaves those as they are.  The call then delivers, for each row, the function's
    result on the values its arguments have in the heap before the call
    ([argument_value], read directly), and an error of the function as its text. *)
From S2P Require Import Prelude Text Data WasmModule UdfRuntime.
From stdpp Require Import base tactics list strings pretty.
From Stdlib Require Import ZArith Lia.
Open Scope Z_scope.

(** Two ranges of addresses, by start and length. *)
Definition apart (p n q k : Z) : Prop := p + n <= q \/ q + k <= p.

Section Same.
Context {F M : Type} `{TypedHeap F M}.

(** The heaps agree on [k] bytes from [q]. *)
Definition same (q k : Z) (m m' : M) : Prop :=
  (forall t a, q <= a -> a + elem_size t <= q + k -> h_elem t a m' = h_elem t a m) /\
  (forall a n, q <= a -> a + n <= q + k -> h_bytes a n m' = h_bytes a n m).
End Same.

Class TypedHeapLaws (F M : Type) `{Numbers F} `{TypedHeap F M} := {
  live : M -> Z -> Z -> Prop;                    (** the blocks: address, length *)
  live_bounds m q k : live m q k -> 0 < q /\ q + k <= h_length m;
  malloc_block n m p m' : h_malloc n m = (p, m') -> p <> 0 -> p mod 8 = 0 /\ live m' p n;
  malloc_keeps n m p m' q k : h_malloc n m = (p, m') -> live m q k -> live m' q k /\ same q k m m';
  malloc_apart n m p m' q k : h_malloc n m = (p, m') -> p <> 0 -> live m q k -> apart p n q k;
  malloc_shared n m : h_shared (h_malloc n m).2 = h_shared m;
  elem_same t a x m : 0 <= a -> a + elem_size t <= h_length m ->
    h_elem t a (h_set_elem t a (convert t x) m) = convert t x;
  elem_other t a x m q k : apart a (elem_size t) q k -> same q k m (h_set_elem t a x m);
  elem_live t a x m q k : live (h_set_elem t a x m) q k <-> live m q k;
  elem_buffer t a x m : h_buffer (h_set_elem t a x m) = h_buffer m /\
    h_shared (h_set_elem t a x m) = h_shared m /\ h_length (h_set_elem t a x m) = h_length m;
  bytes_same a bs m : 0 <= a -> a + lenZ bs <= h_length m -> h_bytes a (lenZ bs) (h_set_bytes a bs m) = bs;
  bytes_other a bs m q k : apart a (lenZ bs) q k -> same q k m (h_set_bytes a bs m);
  bytes_live a bs m q k : live (h_set_bytes a bs m) q k <-> live m q k;
  bytes_buffer a bs m : h_buffer (h_set_bytes a bs m) = h_buffer m /\
    h_shared (h_set_bytes a bs m) = h_shared m /\ h_length (h_set_bytes a bs m) = h_length m
}.

(** The next statement of a computation, by its equation. *)
Ltac next E := unfold bind at 1; rewrite E; cbv beta iota.

Ltac next_heap E := unfold u_bind at 1, on_heap at 1; rewrite E; cbv beta iota.

Section Facts.
Context {F M : Type} {HN : Numbers F} {HT : TypedHeap F M} {HL : TypedHeapLaws F M}.

(** Allocations succeed, and a memory that is not shared does not grow. *)
Definition steady : Prop :=
  forall n m, (h_malloc n m).1 <> 0 /\ (h_shared m = true \/ h_buffer (h_malloc n m).2 = h_buffer m).

(** [n] bytes at [p] lie in a live block. *)
Definition placed (m : M) (p n : Z) : Prop := exists q k, live m q k /\ q <= p /\ p + n <= q + k.

(** What the rest of the program has stays: its blocks and what is in them. *)
Definition keeps (m m' : M) : Prop :=
  h_shared m' = h_shared m /\ (h_shared m = true \/ h_buffer m' = h_buffer m) /\
  forall q k, live m q k -> live m' q k /\ same q k m m'.

(** [p] is new since [m]. *)
Definition fresh (m : M) (p n : Z) : Prop := forall q k, live m q k -> apart p n q k.

Lemma heap_same_refl q k (m : M) : same q k m m.
Proof. done. Qed.
Lemma heap_same_trans q k (m1 m2 m3 : M) : same q k m1 m2 -> same q k m2 m3 -> same q k m1 m3.
Proof.
  intros [E1 B1] [E2 B2]. split; intros.
  - rewrite E2 by done. by apply E1.
  - rewrite B2 by done. by apply B1.
Qed.
Lemma heap_same_sub q k p n (m m' : M) : same q k m m' -> q <= p -> p + n <= q + k -> same p n m m'.
Proof. intros [E B] H1 H2. split; intros; [apply E|apply B]; lia. Qed.

Lemma keeps_refl m : keeps m m.
Proof. repeat split; auto. Qed.
Lemma keeps_trans m1 m2 m3 : keeps m1 m2 -> keeps m2 m3 -> keeps m1 m3.
Proof.
  intros (S1 & B1 & L1) (S2 & B2 & L2). split; [congruence|]. split.
  - rewrite S1 in B2. destruct B1, B2; auto. right. congruence.
  - intros q k Hl. destruct (L1 q k Hl) as [Hl1 Hs1]. destruct (L2 q k Hl1). split; [done|]. by eapply heap_same_trans.
Qed.
Lemma keeps_placed m m' p n : keeps m m' -> placed m p n -> placed m' p n.
Proof. intros (_ & _ & L) (q & k & Hl & ? & ?). exists q, k. split; [by apply L|done]. Qed.
Lemma keeps_same m m' p n : keeps m m' -> placed m p n -> same p n m m'.
Proof. intros (_ & _ & L) (q & k & Hl & ? & ?). eapply heap_same_sub; [by apply L|done..]. Qed.
Lemma fresh_keeps m m' p n : keeps m m' -> fresh m' p n -> fresh m p n.
Proof. intros (_ & _ & L) Hf q k Hl. apply Hf. by apply L. Qed.
Lemma placed_bounds m p n : placed m p n -> 0 < p /\ p + n <= h_length m.
Proof. intros (q & k & Hl & ? & ?). destruct (live_bounds m q k Hl). lia. Qed.
Lemma fresh_placed m p n q k : fresh m p n -> placed m q k -> apart p n q k.
Proof. intros Hf (q' & k' & Hl & ? & ?). destruct (Hf q' k' Hl); [left|right]; lia. Qed.

Lemma keeps_elem m0 m t a x : keeps m0 m -> fresh m0 a (elem_size t) -> keeps m0 (h_set_elem t a x m).
Proof.
  intros (S & B & L) Hf. destruct (elem_buffer t a x m) as (Eb & Es & _).
  split; [congruence|]. split; [rewrite Eb; auto|].
  intros q k Hl. destruct (L q k Hl) as [Hl' Hs]. split; [by apply elem_live|].
  eapply heap_same_trans; [done|]. apply elem_other. by apply Hf.
Qed.

Lemma keeps_bytes m0 m a bs : keeps m0 m -> fresh m0 a (lenZ bs) -> keeps m0 (h_set_bytes a bs m).
Proof.
  intros (S & B & L) Hf. destruct (bytes_buffer a bs m) as (Eb & Es & _).
  split; [congruence|]. split; [rewrite Eb; auto|].
  intros q k Hl. destruct (L q k Hl) as [Hl' Hs]. split; [by apply bytes_live|].
  eapply heap_same_trans; [done|]. apply bytes_other. by apply Hf.
Qed.

(** An allocation. *)
Lemma malloc_ok n m : steady ->
  exists p m', malloc n m = (Normal p, m') /\ keeps m m' /\ p mod 8 = 0 /\ live m' p n /\ fresh m p n.
Proof.
  intros Hst. unfold malloc. destruct (Hst n m) as [Hp Hb]. destruct (h_malloc n m) as [p m'] eqn:E. cbn in *.
  exists p, m'. destruct (malloc_block n m p m' E Hp). split; [done|]. split; [|split; [done|split; [done|]]].
  - split; [pose proof (malloc_shared n m) as Hs; by rewrite E in Hs|]. split; [done|].
    intros q k. by eapply malloc_keeps.
  - intros q k. by eapply malloc_apart.
Qed.

(** ** Views *)

Definition view_ok (m : M) (v : ArrayView) : Prop :=
  usable v m = true /\ placed m (av_ptr v) (av_length v * elem_size (av_type v)).

Lemma elem_size_pos t : 0 < elem_size t.
Proof. by destruct t. Qed.

Lemma usable_keeps v (m m' : M) : keeps m m' -> usable v m = true -> usable v m' = true.
Proof. intros (S & B & _). unfold usable. rewrite S. intros Hu. destruct B as [-> | ->]; [done|exact Hu]. Qed.

Lemma view_ok_keeps v (m m' : M) : keeps m m' -> view_ok m v -> view_ok m' v.
Proof. intros Hk [Hu Hp]. split; [by eapply usable_keeps|by eapply keeps_placed]. Qed.

Lemma elem_in_view v i (m : M) : view_ok m v -> 0 <= i < av_length v ->
  av_ptr v <= elem_addr v i /\ elem_addr v i + elem_size (av_type v) <= av_ptr v + av_length v * elem_size (av_type v).
Proof. intros _ Hi. unfold elem_addr. pose proof (elem_size_pos (av_type v)). nia. Qed.

Lemma view_get_in v i (m : M) : view_ok m v -> 0 <= i < av_length v ->
  view_get (Some v) i m = V_number (h_elem (av_type v) (elem_addr v i) m).
Proof. intros [Hu _] Hi. cbn. assert (in_view v i m = true) as ->; [|done]. unfold in_view. rewrite Hu. lia. Qed.

Lemma view_get_out v i (m : M) : ~ 0 <= i < av_length v -> view_get (Some v) i m = (V_undefined : Value F).
Proof. intros Hi. cbn. assert (in_view v i m = false) as ->; [|done]. unfold in_view. destruct (usable v m); lia. Qed.

Lemma view_get_keeps v i (m m' : M) : keeps m m' -> view_ok m v -> view_get (Some v) i m' = view_get (Some v) i m.
Proof.
  intros Hk Hv. destruct (decide (0 <= i < av_length v)) as [Hi|Hi]; [|by rewrite !view_get_out].
  rewrite !view_get_in by (try done; by eapply view_ok_keeps). f_equal.
  destruct (elem_in_view v i m Hv Hi). destruct Hv as [_ Hp]. by apply (keeps_same m m' _ _ Hk Hp).
Qed.

Lemma view_set_in v i x (m : M) : view_ok m v -> 0 <= i < av_length v ->
  view_set v i x m = (Normal tt, h_set_elem (av_type v) (elem_addr v i) (convert (av_type v) (to_number x)) m).
Proof.
  intros [Hu _] Hi. unfold view_set, modify. assert (in_view v i m = true) as ->; [|done].
  unfold in_view. rewrite Hu. lia.
Qed.

Definition the_view (m : M) (t : ElemType) (p n : Z) : ArrayView :=
  {| av_buffer := h_buffer m; av_type := t; av_ptr := p; av_length := n |}.

Lemma new_view_ok t p n (m : M) : placed m p (n * elem_size t) -> p mod elem_size t = 0 -> 0 <= n ->
  new_view t p n m = (Normal (the_view m t p n), m) /\ view_ok m (the_view m t p n).
Proof.
  intros Hp Hm Hn. destruct (placed_bounds _ _ _ Hp). pose proof (elem_size_pos t). split.
  - unfold new_view, clamp. replace (p <? 0) with false by lia. rewrite Z.min_l by nia. rewrite Hm. cbn [Z.eqb negb].
    by replace (h_length m <? p + n * elem_size t) with false by lia.
  - split; [|done]. unfold usable. cbn. rewrite Z.eqb_refl. apply orb_true_r.
Qed.

(** ** The arguments *)

Section Ptrs.
Context (ptrsPtr n rows : Z).

(** The address of a buffer, by its index in the array of pointers. *)
Definition buffer_at (m : M) (i : Z) : Z := index_of (V_number (h_elem E_f64 (ptrsPtr + i * 8) m)).

(** The value of an argument at a row, read from the heap. *)
Fixpoint argument_value (m : M) (row : Z) (arg : ArgumentTypeDescription) : Value F :=
  let '(MkArgument _ physicalType validityBuffer dataBuffer lengthBuffer children) := arg in
  if match validityBuffer with
     | Some b => falsy (V_number (h_elem E_u8 (buffer_at m b + row) m) : Value F)
     | None => false
     end then V_null
  else if bool_decide (physicalType = "VARCHAR"%string) then
    match dataBuffer, lengthBuffer with
    | Some d, Some l =>
        let p := index_of (V_number (h_elem E_f64 (buffer_at m d + row * 8) m) : Value F) in
        let k := index_of (V_number (h_elem E_f64 (buffer_at m l + row * 8) m) : Value F) in
        V_string (utf8_decode (subarray_bytes p k m))
    | _, _ => V_undefined
    end
  else if bool_decide (physicalType = "STRUCT"%string) then
    V_object (map (fun c => let '(MkArgument name _ _ _ _ _) := c in (name, argument_value m row c)) children)
  else
    match dataBuffer, array_type physicalType with
    | Some d, Some t => V_number (h_elem t (buffer_at m d + row * elem_size t) m)
    | _, _ => V_undefined
    end.

(** Buffer [i] holds an element of type [t] per row. *)
Definition buffer_ok (m : M) (t : ElemType) (i : Z) : Prop :=
  0 <= i < n /\ placed m (buffer_at m i) (rows * elem_size t) /\ buffer_at m i mod elem_size t = 0.

(** The buffers an argument describes are there. *)
Fixpoint argument_ok (m : M) (arg : ArgumentTypeDescription) : Prop :=
  let '(MkArgument _ physicalType validityBuffer dataBuffer lengthBuffer children) := arg in
  match validityBuffer with Some b => buffer_ok m E_u8 b | None => True end /\
  if bool_decide (physicalType = "VARCHAR"%string) then
    exists d l, dataBuffer = Some d /\ lengthBuffer = Some l /\ buffer_ok m E_f64 d /\ buffer_ok m E_f64 l
  else if bool_decide (physicalType = "STRUCT"%string) then
    foldr (fun c P => argument_ok m c /\ P) True children
  else exists d, dataBuffer = Some d /\ 0 <= d < n /\ forall t, array_type physicalType = Some t -> buffer_ok m t d.

Fixpoint resolver_ok (m : M) (r : Resolver F) : Prop :=
  match r with
  | R_strings _ => True
  | R_struct validity children =>
      match validity with Some v => view_ok m v | None => True end /\
      foldr (fun c P => resolver_ok m c.2 /\ P) True children
  | R_data validity data =>
      match validity with Some v => view_ok m v | None => True end /\
      match data with Some v => view_ok m v | None => True end
  end.

Lemma row_null_keeps validity row (m m' : M) : keeps m m' ->
  match validity with Some v => view_ok m v | None => True end -> row_null validity row m' = row_null validity row m.
Proof. intros Hk Hv. destruct validity as [v|]; [|done]. cbn [row_null]. by rewrite (view_get_keeps v row m m'). Qed.

Lemma resolver_ok_keeps m m' r : keeps m m' -> resolver_ok m r -> resolver_ok m' r.
Proof.
  intros Hk. assert (forall o, match o with Some v => view_ok m v | None => True end ->
    match o with Some v => view_ok m' v | None => True end) as Hv.
  { intros [v|]; [by apply view_ok_keeps|done]. }
  revert r. fix IH 1. intros [l|validity children|validity data]; cbn [resolver_ok]; [done| |].
  - intros [H1 H2]. split; [by apply Hv|]. induction children as [|[name c] children IHc]; [done|].
    cbn in *. destruct H2. split; [by apply IH|by apply IHc].
  - intros [H1 H2]. split; by apply Hv.
Qed.

(** A resolver gives the same values while the rest of the heap stays. *)
Lemma resolve_keeps m m' r row : keeps m m' -> resolver_ok m r -> resolve r row m' = resolve r row m.
Proof.
  intros Hk. revert r. fix IH 1. intros [l|validity children|validity data]; cbn [resolver_ok resolve]; [done| |].
  - intros [H1 H2]. rewrite (row_null_keeps _ _ m m') by done. destruct (row_null _ _ _); [done|]. f_equal.
    induction children as [|[name c] children IHc]; [done|]. cbn in *. destruct H2. f_equal; [f_equal; by apply IH|by apply IHc].
  - intros [H1 H2]. rewrite (row_null_keeps _ _ m m') by done. destruct (row_null _ _ _); [done|].
    destruct data as [v|]; [|done]. by apply view_get_keeps.
Qed.

Context (m : M) (ptrs_ok : placed m ptrsPtr (n * 8)) (rows_pos : 0 <= rows).
Let ptrs := the_view m E_f64 ptrsPtr n.

Lemma pointer_at i : 0 <= i < n -> pointer ptrs i m = (Normal (buffer_at m i), m).
Proof.
  intros Hi. unfold pointer, gets. rewrite view_get_in; [done| |done].
  split; [unfold usable; cbn; rewrite Z.eqb_refl; apply orb_true_r|done].
Qed.

Lemma buffer_view t i : buffer_ok m t i ->
  new_view t (buffer_at m i) rows m = (Normal (the_view m t (buffer_at m i) rows), m) /\
  view_ok m (the_view m t (buffer_at m i) rows).
Proof. intros (Hi & Hp & Hm). by apply new_view_ok. Qed.

Lemma buffer_elem t i row : buffer_ok m t i -> 0 <= row < rows ->
  view_get (Some (the_view m t (buffer_at m i) rows)) row m =
    (V_number (h_elem t (buffer_at m i + row * elem_size t) m) : Value F).
Proof. intros Hb Hr. by rewrite view_get_in by (try done; by apply buffer_view). Qed.

Lemma buffer_array ptype t i : array_type ptype = Some t -> buffer_ok m t i ->
  ptrToArray (buffer_at m i) ptype rows m = (Normal (Some (the_view m t (buffer_at m i) rows)), m).
Proof. intros Ht Hb. unfold ptrToArray, bind. rewrite Ht. by rewrite (proj1 (buffer_view t i Hb)). Qed.

Lemma map_of_pure {A B S} (l : list A) (body : A -> JS S B) (f : A -> B) (s : S) :
  (forall x, x ∈ l -> body x s = (Normal (f x), s)) -> map_of l body s = (Normal (map f l), s).
Proof.
  induction l as [|x l IH]; intros Hb; [done|]. cbn. unfold bind at 1. rewrite Hb by left.
  unfold bind. rewrite IH; [done|]. intros y Hy. apply Hb. by right.
Qed.

Lemma lookup_map_rows {A} (f : Z -> A) row : 0 <= row < rows -> map f (seqZ 0 rows) !! Z.to_nat row = Some (f row).
Proof.
  intros Hr. change (map f) with (fmap (M:=list) f). rewrite list_lookup_fmap, lookup_seqZ_lt by lia.
  cbn. do 2 f_equal. lia.
Qed.

(** The strings of a VARCHAR argument. *)
Lemma decode_strings_at validity d l : buffer_ok m E_f64 d -> buffer_ok m E_f64 l ->
  let raw := the_view m E_f64 (buffer_at m d) rows in
  let lengths := the_view m E_f64 (buffer_at m l) rows in
  exists strings, decode_strings rows validity (Some raw) lengths m = (Normal strings, m) /\
    forall row, 0 <= row < rows -> strings !! Z.to_nat row =
      Some (if row_null validity row m then V_null
            else V_string (utf8_decode (subarray_bytes
              (index_of (V_number (h_elem E_f64 (buffer_at m d + row * 8) m) : Value F))
              (index_of (V_number (h_elem E_f64 (buffer_at m l + row * 8) m) : Value F)) m))).
Proof.
  intros Hd Hl raw lengths. eexists. split.
  - unfold decode_strings. apply map_of_pure with (f := fun j => if row_null validity j m then V_null
      else V_string (utf8_decode (subarray_bytes (index_of (view_get (Some raw) j m)) (index_of (view_get (Some lengths) j m)) m))).
    intros j _. unfold bind, gets. fold (row_null validity j m). by destruct (row_null validity j m).
  - intros row' Hr. rewrite lookup_map_rows by done. subst raw lengths. by rewrite !(buffer_elem E_f64).
Qed.

Lemma validity_ok validityBuffer :
  match validityBuffer with Some b => buffer_ok m E_u8 b | None => True end ->
  exists v, match validityBuffer with
            | Some b => let! p := pointer ptrs b in let! v := ptrToUint8Array p rows in ret (Some v)
            | None => ret None
            end m = (Normal v, m) /\
    match v with Some v => view_ok m v | None => True end /\
    forall row, 0 <= row < rows -> row_null v row m =
      match validityBuffer with
      | Some b => falsy (V_number (h_elem E_u8 (buffer_at m b + row) m) : Value F)
      | None => false
      end.
Proof.
  destruct validityBuffer as [b|]; [|by exists None]. intros Hb. destruct (buffer_view E_u8 b Hb) as [Hv Hok].
  eexists. split; [unfold bind at 1; rewrite pointer_at by apply Hb; unfold bind, ptrToUint8Array; by rewrite Hv|].
  split; [done|]. intros row Hr. unfold row_null. rewrite (buffer_elem E_u8) by done. by rewrite Z.mul_1_r.
Qed.

(** A description whose buffers are there is built into a resolver for its values. *)
Lemma build_ok arg : argument_ok m arg ->
  exists r, buildResolver ptrs rows arg m = (Normal r, m) /\ resolver_ok m r /\
    forall row, 0 <= row < rows -> resolve r row m = argument_value m row arg.
Proof.
  revert arg. fix IH 1. intros [name physicalType validityBuffer dataBuffer lengthBuffer children].
  cbn [argument_ok buildResolver argument_value]. intros [Hv Ha].
  destruct (validity_ok validityBuffer Hv) as (v & Hb & Hvok & Hnull). next Hb. clear Hb.
  destruct (bool_decide (physicalType = "VARCHAR"%string)) eqn:Evar.
  - apply bool_decide_eq_true in Evar as ->. destruct Ha as (d & l & -> & -> & Hd & Hl).
    next (pointer_at d (proj1 Hd)). next (buffer_array "VARCHAR" E_f64 d eq_refl Hd). next (pointer_at l (proj1 Hl)).
    unfold ptrToFloat64Array. next (proj1 (buffer_view E_f64 l Hl)). destruct (decode_strings_at v d l Hd Hl) as (strings & Hs & Hrow). next Hs.
    eexists. split; [done|]. split; [done|].
    intros row Hr. cbn [resolve]. rewrite Hrow by done. cbn. rewrite Hnull by done. by destruct (match validityBuffer with Some _ => _ | None => _ end).
  - destruct (bool_decide (physicalType = "STRUCT"%string)) eqn:Estruct.
    + enough (exists rs, (fix build l := match l with
          | [] => ret []
          | c :: l' => let! r := buildResolver ptrs rows c in let! rs := build l' in
                       let '(MkArgument name _ _ _ _ _) := c in ret ((name, r) :: rs)
          end) children m = (Normal rs, m) /\ foldr (fun c P => resolver_ok m c.2 /\ P) True rs /\
          forall row, 0 <= row < rows -> map (fun '(name, c) => (name, resolve c row m)) rs =
            map (fun c => let '(MkArgument name _ _ _ _ _) := c in (name, argument_value m row c)) children)
        as (rs & Hrs & Hok & Hval).
      { next Hrs. eexists. split; [done|]. split; [done|]. intros row Hr. cbn [resolve].
        rewrite Hnull, Hval by done. by destruct (match validityBuffer with Some _ => _ | None => _ end). }
      clear -IH Ha. induction children as [|c children IHc]; [by exists []|].
      destruct Ha as [Hc Ha]. destruct (IH c Hc) as (r & Hr & Hrok & Hrval).
      destruct (IHc Ha) as (rs & Hrs & Hok & Hval). next Hr. next Hrs.
      destruct c as [cname ? ? ? ? ?]. eexists. split; [done|]. split; [done|].
      intros row Hrow. cbn [map]. f_equal; [f_equal; by apply Hrval|by apply Hval].
    + destruct Ha as (d & -> & Hd & Ht). next (pointer_at d Hd).
      destruct (array_type physicalType) as [t|] eqn:Earr.
      * next (buffer_array _ t d Earr (Ht t eq_refl)). eexists. split; [done|].
        split; [by split; [|apply buffer_view, Ht]|]. intros row Hr. cbn [resolve]. rewrite Hnull by done. by rewrite (buffer_elem t) by auto.
      * unfold ptrToArray. rewrite Earr. eexists. split; [done|]. split; [done|]. intros row Hr. cbn [resolve]. by rewrite Hnull by done.
Qed.
End Ptrs.

(** ** Stores *)

(** A range of addresses. *)
Definition Range : Type := Z * Z.
Definition outside (bs : list Range) (q k : Z) : Prop := forall b, b ∈ bs -> apart b.1 b.2 q k.

(** [m'] is [m] with stores into the ranges [bs]. *)
Definition writes (bs : list Range) (m m' : M) : Prop :=
  h_buffer m' = h_buffer m /\ h_shared m' = h_shared m /\ h_length m' = h_length m /\
  (forall q k, live m' q k <-> live m q k) /\ forall q k, outside bs q k -> same q k m m'.

Lemma writes_refl bs m : writes bs m m.
Proof. repeat split; auto; naive_solver. Qed.

Lemma writes_trans bs m1 m2 m3 : writes bs m1 m2 -> writes bs m2 m3 -> writes bs m1 m3.
Proof.
  intros (B1 & S1 & N1 & L1 & W1) (B2 & S2 & N2 & L2 & W2).
  split; [congruence|]. split; [congruence|]. split; [congruence|]. split; [intros; by rewrite L2|].
  intros q k Ho. eapply heap_same_trans; eauto.
Qed.

(** The ranges may be widened. *)
Lemma writes_mono bs bs' m m' :
  (forall q k, outside bs' q k -> outside bs q k) -> writes bs m m' -> writes bs' m m'.
Proof. intros Hs (B & S & N & L & W). repeat (split; [done|]). intros q k Ho. auto. Qed.

Lemma outside_app bs bs' q k : outside (bs ++ bs') q k <-> outside bs q k /\ outside bs' q k.
Proof. unfold outside. setoid_rewrite elem_of_app. naive_solver. Qed.

Lemma writes_elem t a x m : writes [(a, elem_size t)] m (h_set_elem t a x m).
Proof.
  destruct (elem_buffer t a x m) as (? & ? & ?). repeat (split; [done|]). split; [intros; apply elem_live|].
  intros q k Ho. apply elem_other. apply (Ho (a, elem_size t)). by left.
Qed.

Lemma writes_bytes a bs m : writes [(a, lenZ bs)] m (h_set_bytes a bs m).
Proof.
  destruct (bytes_buffer a bs m) as (? & ? & ?). repeat (split; [done|]). split; [intros; apply bytes_live|].
  intros q k Ho. apply bytes_other. apply (Ho (a, lenZ bs)). by left.
Qed.

Lemma writes_keeps m0 bs m m' :
  writes bs m m' -> keeps m0 m -> (forall b, b ∈ bs -> fresh m0 b.1 b.2) -> keeps m0 m'.
Proof.
  intros (B & S & _ & L & W) (S0 & B0 & L0) Hf. split; [congruence|]. split; [destruct B0; [by left|right; congruence]|].
  intros q k Hl. destruct (L0 q k Hl) as [Hl' Hs]. split; [by apply L|].
  eapply heap_same_trans; [done|]. apply W. intros b Hb. by apply Hf.
Qed.

Lemma writes_view_ok bs m m' v : writes bs m m' -> view_ok m v -> view_ok m' v.
Proof.
  intros (B & S & _ & L & _) [Hu (q & k & Hl & Hp)]. split; [unfold usable in *; by rewrite B, S|].
  exists q, k. split; [by apply L|done].
Qed.

Lemma writes_placed bs m m' p n : writes bs m m' -> placed m p n -> placed m' p n.
Proof. intros (_ & _ & _ & L & _) (q & k & Hl & Hp). exists q, k. split; [by apply L|done]. Qed.

(** An element of a view. *)
Definition cell (v : ArrayView) (i : Z) : Range := (elem_addr v i, elem_size (av_type v)).

Lemma cells_apart v i j : i <> j -> apart (cell v i).1 (cell v i).2 (cell v j).1 (cell v j).2.
Proof. intros Hij. cbn. unfold apart, elem_addr. pose proof (elem_size_pos (av_type v)). nia. Qed.

(** A store through a view. *)
Lemma view_set_ok v i x m : view_ok m v -> 0 <= i < av_length v ->
  exists m', view_set v i x m = (Normal tt, m') /\ writes [cell v i] m m' /\
    h_elem (av_type v) (elem_addr v i) m' = convert (av_type v) (to_number x).
Proof.
  intros Hv Hi. eexists. split; [by apply view_set_in|]. split; [apply writes_elem|].
  destruct (elem_in_view v i m Hv Hi) as [H1 H2]. destruct Hv as [_ Hp]. destruct (placed_bounds _ _ _ Hp).
  apply elem_same; lia.
Qed.

(** A cell keeps its value while the stores are elsewhere. *)
Lemma cell_keeps bs m m' v i : writes bs m m' -> outside bs (cell v i).1 (cell v i).2 ->
  h_elem (av_type v) (elem_addr v i) m' = h_elem (av_type v) (elem_addr v i) m.
Proof. intros (_ & _ & _ & _ & W) Ho. apply (W _ _ Ho); cbn; lia. Qed.

(** ** The rows *)

Definition validity_of (v : Value F) : JsNumber F := Num_int (if nullish v then 0 else 1).

Definition row_cells (data : option ArrayView) (validity : ArrayView) (i : Z) : list Range :=
  match data with Some v => [cell v i] | None => [] end ++ [cell validity i].

(** What a row leaves. *)
Definition row_stored (data : option ArrayView) (validity : ArrayView) (m : M) (i : Z) (x : Value F) : Prop :=
  match data with
  | Some v => h_elem (av_type v) (elem_addr v i) m = convert (av_type v) (to_number x)
  | None => True
  end /\
  h_elem (av_type validity) (elem_addr validity i) m = convert (av_type validity) (validity_of x).

Definition apart_views (v w : ArrayView) : Prop :=
  apart (av_ptr v) (av_length v * elem_size (av_type v)) (av_ptr w) (av_length w * elem_size (av_type w)).

Lemma cells_of_apart v w i j : apart_views v w -> 0 <= i < av_length v -> 0 <= j < av_length w ->
  apart (cell v i).1 (cell v i).2 (cell w j).1 (cell w j).2.
Proof.
  unfold apart_views, apart, cell, elem_addr. cbn. intros H Hi Hj.
  pose proof (elem_size_pos (av_type v)). pose proof (elem_size_pos (av_type w)). nia.
Qed.

Lemma ranges_apart_sym p n q k : apart p n q k -> apart q k p n.
Proof. unfold apart. lia. Qed.

(** The function applied to the arguments of each row, in order, until it throws; the
    state it works on is threaded through. *)
Fixpoint apply_rows {U} (func : ScalarUDF F U) (argss : list (list (Value F))) (u : U) : Completion F (list (Value F)) * U :=
  match argss with
  | [] => (Done [], u)
  | args :: argss' =>
      match func args u with
      | (Threw t, u') => (Threw t, u')
      | (Done x, u') =>
          match apply_rows func argss' u' with
          | (Done xs, u'') => (Done (x :: xs), u'')
          | (Threw t, u'') => (Threw t, u'')
          end
      end
  end.

Section Rows.
Context {U : Type} (m0 : M) (rs : list (Resolver F)) (func : ScalarUDF F U)
  (data : option ArrayView) (validity : ArrayView) (n : Z).

(** The result buffers are there, apart from each other and new. *)
Definition results_ok (m : M) : Prop :=
  match data with
  | Some v => view_ok m v /\ av_length v = n /\ apart_views v validity /\
      fresh m0 (av_ptr v) (av_length v * elem_size (av_type v))
  | None => True
  end /\
  view_ok m validity /\ av_length validity = n /\
  fresh m0 (av_ptr validity) (av_length validity * elem_size (av_type validity)).

Lemma results_ok_writes bs m m' : writes bs m m' -> results_ok m -> results_ok m'.
Proof.
  intros W (Hd & Hv & Hn & Hf). split; [|by repeat split; try done; eapply writes_view_ok].
  destruct data as [v|]; [|done]. destruct Hd as (? & ? & ? & ?). repeat split; try done; by eapply writes_view_ok.
Qed.

Lemma cell_fresh v i : fresh m0 (av_ptr v) (av_length v * elem_size (av_type v)) -> 0 <= i < av_length v ->
  fresh m0 (cell v i).1 (cell v i).2.
Proof.
  intros Hf Hi q k Hl. cbn. unfold elem_addr. pose proof (elem_size_pos (av_type v)).
  destruct (Hf q k Hl); [left|right]; nia.
Qed.

Lemma row_cells_fresh m i b : results_ok m -> 0 <= i < n -> b ∈ row_cells data validity i -> fresh m0 b.1 b.2.
Proof.
  intros (Hd & Hv & Hn & Hf) Hi. unfold row_cells. destruct data as [v|]; cbn.
  - destruct Hd as (? & Hl & ? & ?). intros [->|[->|[]%elem_of_nil]%elem_of_cons]%elem_of_cons; apply cell_fresh; auto; lia.
  - intros [->|[]%elem_of_nil]%elem_of_cons. apply cell_fresh; auto; lia.
Qed.

Lemma row_cells_apart m i j b c : results_ok m -> 0 <= i < n -> 0 <= j < n -> i <> j ->
  b ∈ row_cells data validity i -> c ∈ row_cells data validity j -> apart b.1 b.2 c.1 c.2.
Proof.
  intros (Hd & Hv & Hn & Hf) Hi Hj Hij. unfold row_cells. destruct data as [v|]; cbn.
  - destruct Hd as (? & Hl & Ha & ?).
    intros [->|[->|[]%elem_of_nil]%elem_of_cons]%elem_of_cons [->|[->|[]%elem_of_nil]%elem_of_cons]%elem_of_cons;
      try (by apply cells_apart); [|apply ranges_apart_sym]; apply cells_of_apart; auto; lia.
  - intros [->|[]%elem_of_nil]%elem_of_cons [->|[]%elem_of_nil]%elem_of_cons. by apply cells_apart.
Qed.

Lemma store_row m i x : results_ok m -> 0 <= i < n ->
  exists m', store_result data validity i x m = (Normal tt, m') /\
    writes (row_cells data validity i) m m' /\ row_stored data validity m' i x.
Proof.
  intros Hok Hi. pose proof Hok as (Hd & Hv & Hn & Hf).
  assert (exists m1, match data with Some v => view_set v i x | None => ret tt end m = (Normal tt, m1) /\
    writes (row_cells data validity i) m m1 /\
    match data with Some v => h_elem (av_type v) (elem_addr v i) m1 = convert (av_type v) (to_number x) | None => True end)
    as (m1 & H1 & W1 & E1).
  { destruct data as [v|]; [|exists m; split; [done|]; split; [apply writes_refl|done]]. destruct Hd as (Hvv & Hl & _).
    destruct (view_set_ok v i x m Hvv) as (m1 & ? & ? & ?); [lia|]. exists m1. split; [done|]. split; [|done].
    eapply writes_mono; [|done]. intros q k Ho b Hb. apply Ho. apply elem_of_app. by left. }
  destruct (view_set_ok validity i (V_number (Num_int (if nullish x then 0 else 1))) m1) as (m2 & H2 & W2 & E2);
    [by eapply writes_view_ok|lia|].
  exists m2. split; [unfold store_result; next H1; exact H2|]. split.
  - eapply writes_trans; [done|]. eapply writes_mono; [|done]. intros q k Ho b Hb. apply Ho.
    unfold row_cells. apply elem_of_app. by right.
  - split; [|done]. destruct data as [v|]; [|done]. rewrite <- E1. eapply cell_keeps; [exact W2|].
    intros b ->%list_elem_of_singleton. destruct Hd as (_ & Hl & Ha & _). apply ranges_apart_sym, cells_of_apart; auto; lia.
Qed.

Lemma row_stored_keeps bs m m' i x :
  writes bs m m' -> (forall b c, b ∈ bs -> c ∈ row_cells data validity i -> apart b.1 b.2 c.1 c.2) ->
  row_stored data validity m i x -> row_stored data validity m' i x.
Proof.
  intros W Ha [Hd Hv]. split.
  - destruct data as [v|]; [|done]. rewrite <- Hd. eapply cell_keeps; [exact W|]. intros b Hb. apply Ha; [done|]. by left.
  - rewrite <- Hv. eapply cell_keeps; [exact W|]. intros b Hb. apply Ha; [done|]. apply elem_of_app. right. by left.
Qed.

Lemma resolves_keep i m : Forall (resolver_ok m0) rs -> keeps m0 m ->
  map (fun r => resolve r i m) rs = map (fun r => resolve r i m0) rs.
Proof. intros Hrs Hk. induction Hrs as [|r rs' Hr _ IH]; [done|]. cbn. by rewrite IH, (resolve_keeps m0 m). Qed.

(** What the rows store is new. *)
Lemma rows_keep l m m' : keeps m0 m -> results_ok m -> (forall i, i ∈ l -> 0 <= i < n) ->
  writes (concat (map (row_cells data validity) l)) m m' -> keeps m0 m'.
Proof.
  intros Hk Hok Hl W. eapply writes_keeps; [exact W|exact Hk|]. intros b Hb.
  apply list_elem_of_In, in_concat in Hb as (bs & Hbs & Hb).
  apply in_map_iff in Hbs as (i & <- & Hi). apply list_elem_of_In in Hb, Hi.
  eapply row_cells_fresh; [exact Hok|by apply Hl|exact Hb].
Qed.

Lemma run_rows_ok l m u c u' : Forall (resolver_ok m0) rs -> keeps m0 m -> results_ok m -> NoDup l ->
  (forall i, i ∈ l -> 0 <= i < n) ->
  apply_rows func (map (fun i => map (fun r => resolve r i m0) rs) l) u = (c, u') ->
  exists m', run_rows func rs data validity l m u = (c, m', u') /\
    writes (concat (map (row_cells data validity) l)) m m' /\
    forall res, c = Done (map res l) -> forall i, i ∈ l -> row_stored data validity m' i (res i).
Proof.
  intros Hrs. revert m u c u'. induction l as [|i l IH]; intros m u c u' Hk Hok Hnd Hl E.
  { cbn in E. injection E as <- <-. exists m. split; [done|]. split; [apply writes_refl|]. by intros res _ i ?%elem_of_nil. }
  apply NoDup_cons in Hnd as [Hi Hnd]. assert (0 <= i < n) as Hr by (apply Hl; by left).
  pose proof (resolves_keep i m Hrs Hk) as Ha. cbn [map apply_rows] in E.
  cbn [run_rows]. unfold u_bind at 1, on_heap at 1, gets. rewrite Ha. unfold u_bind at 1, call_func.
  destruct (func _ u) as [[x|t] u1].
  2: { injection E as <- <-. exists m. split; [done|]. split; [apply writes_refl|]. by intros res [=]. }
  destruct (store_row m i x Hok Hr) as (m1 & H1 & W1 & S1). unfold u_bind at 1, on_heap at 1. rewrite H1.
  destruct (apply_rows func _ u1) as [c2 u2] eqn:E2.
  destruct (IH m1 u1 c2 u2) as (m2 & H2 & W2 & S2); [|by eapply results_ok_writes|done|by intros j Hj; apply Hl; right|done|].
  { eapply writes_keeps; [done|done|]. intros b Hb. by eapply row_cells_fresh. }
  exists m2. unfold u_bind. unfold call_func, on_heap in H2. rewrite H2.
  assert ((c, u') = (match c2 with Done xs => Done (x :: xs) | Threw t => Threw t end, u2)) as Ec by (by destruct c2).
  injection Ec as -> ->. split; [by destruct c2|]. split.
  - cbn [map concat]. eapply writes_trans; (eapply writes_mono; [|done]); intros q k Ho; by apply outside_app in Ho as [? ?].
  - intros res Hres. destruct c2 as [xs|t]; [|done]. injection Hres as -> ->.
    intros j [->|Hj]%elem_of_cons; [|by apply S2]. eapply row_stored_keeps; [exact W2| |done].
    intros b c Hb Hc. apply list_elem_of_In, in_concat in Hb as (bs & Hbs & Hb).
    apply in_map_iff in Hbs as (j & <- & Hj). apply list_elem_of_In in Hb, Hj.
    eapply (row_cells_apart m j i); try done; [apply Hl; by right|]. congruence.
Qed.
End Rows.

(** ** Strings *)

Lemma outside_mono bs bs' q k : (forall b, b ∈ bs -> b ∈ bs') -> outside bs' q k -> outside bs q k.
Proof. intros Hs Ho b Hb. apply Ho. auto. Qed.

Definition cells (v : ArrayView) (row n : Z) : list Range := map (cell v) (seqZ row n).

Lemma cells_elem v row n b : b ∈ cells v row n <-> exists i, b = cell v i /\ row <= i < row + n.
Proof.
  unfold cells. rewrite list_elem_of_In, in_map_iff. setoid_rewrite <- list_elem_of_In. setoid_rewrite elem_of_seqZ.
  naive_solver.
Qed.

Lemma heap_set_bytes_ok p b m : placed m p (lenZ b) ->
  heap_set_bytes p b m = (Normal tt, h_set_bytes p b m) /\ h_bytes p (lenZ b) (h_set_bytes p b m) = b.
Proof.
  intros Hp. destruct (placed_bounds _ _ _ Hp). pose proof (lenZ_nonneg b). split; [|apply bytes_same; lia].
  unfold heap_set_bytes, clamp. replace (p <? 0) with false by lia. replace (p + lenZ b <? 0) with false by lia.
  rewrite !Z.min_l by lia. by replace (p + lenZ b - p <? lenZ b) with false by lia.
Qed.

Lemma bytes_keep bs m m' p n : writes bs m m' -> outside bs p n -> h_bytes p n m' = h_bytes p n m.
Proof. intros (_ & _ & _ & _ & W) Ho. apply (W _ _ Ho); lia. Qed.

Lemma placed_sub m p n q k : placed m p n -> p <= q -> q + k <= p + n -> placed m q k.
Proof. intros (q' & k' & Hl & ? & ?) ? ?. exists q', k'. split; [done|lia]. Qed.

(** The position of string [j]. *)
Definition offset (utf8 : list bytes) (j : nat) : Z := sum_list_Z (map lenZ (take j utf8)).
Definition total (utf8 : list bytes) : Z := sum_list_Z (map lenZ utf8).

Lemma total_nonneg utf8 : 0 <= total utf8.
Proof. unfold total. induction utf8 as [|b utf8 IH]; cbn; [lia|]. pose proof (lenZ_nonneg b). lia. Qed.

Lemma store_lengths_ok v utf8 : av_type v = E_f64 -> forall row m, view_ok m v -> 0 <= row -> row + lenZ utf8 <= av_length v ->
  exists m', store_lengths v row utf8 m = (Normal tt, m') /\ writes (cells v row (lenZ utf8)) m m' /\
    forall j b, utf8 !! j = Some b -> h_elem E_f64 (elem_addr v (row + Z.of_nat j)) m' = Num_int (lenZ b).
Proof.
  intros Ht. induction utf8 as [|b utf8 IH]; intros row m Hv H0 Hl.
  { exists m. split; [done|]. split; [apply writes_refl|]. by intros [|j] b [=]. }
  change (lenZ (b :: utf8)) with (Z.of_nat (S (length utf8))) in *. fold (lenZ utf8) in *.
  destruct (view_set_ok v row (V_number (Num_int (lenZ b))) m Hv) as (m1 & H1 & W1 & E1); [lia|].
  destruct (IH (row + 1) m1) as (m2 & H2 & W2 & E2); [by eapply writes_view_ok|lia|unfold lenZ; lia|].
  exists m2. cbn [store_lengths]. next H1. split; [done|]. split.
  - eapply writes_trans; (eapply writes_mono; [intros q k; apply outside_mono|done]).
    + intros c ->%list_elem_of_singleton. apply cells_elem. exists row. split; [done|lia].
    + intros c (i & -> & Hi)%cells_elem. apply cells_elem. exists i. split; [done|]. unfold lenZ in Hi. lia.
  - intros [|j] b' Hj; cbn in Hj.
    + injection Hj as <-. replace (row + Z.of_nat 0) with row by lia. rewrite Ht in E1. cbn in E1. rewrite <- E1, <- Ht.
      eapply cell_keeps; [exact W2|]. intros c (i & -> & Hi)%cells_elem. apply cells_apart. lia.
    + replace (row + Z.of_nat (S j)) with (row + 1 + Z.of_nat j) by lia. by apply E2.
Qed.

Lemma copy_strings_ok v S utf8 : av_type v = E_f64 -> forall row off m, view_ok m v -> 0 <= row -> row + lenZ utf8 <= av_length v ->
  placed m (S + off) (total utf8) ->
  apart (av_ptr v) (av_length v * 8) (S + off) (total utf8) ->
  exists m', copy_strings v S row off utf8 m = (Normal tt, m') /\
    writes (cells v row (lenZ utf8) ++ [(S + off, total utf8)]) m m' /\
    forall j b, utf8 !! j = Some b ->
      h_elem E_f64 (elem_addr v (row + Z.of_nat j)) m' = Num_int (off + offset utf8 j) /\
      h_bytes (S + off + offset utf8 j) (lenZ b) m' = b.
Proof.
  intros Ht. induction utf8 as [|b utf8 IH]; intros row off m Hv H0 Hl Hp Ha.
  { exists m. split; [done|]. split; [apply writes_refl|]. by intros [|j] b [=]. }
  change (lenZ (b :: utf8)) with (Z.of_nat (Datatypes.S (length utf8))) in *.
  change (total (b :: utf8)) with (lenZ b + total utf8) in *. fold (lenZ utf8) in *.
  pose proof (lenZ_nonneg b) as Hb. pose proof (total_nonneg utf8) as Htot.
  destruct (view_set_ok v row (V_number (Num_int off)) m Hv) as (m1 & H1 & W1 & E1); [lia|].
  assert (placed m1 (S + off) (lenZ b + total utf8)) as Hp1 by (by eapply writes_placed).
  destruct (heap_set_bytes_ok (S + off) b m1) as [H2 E2]; [eapply placed_sub; [done|lia..]|].
  pose proof (writes_bytes (S + off) b m1) as W2. set (m2 := h_set_bytes _ _ m1) in *.
  destruct (IH (row + 1) (off + lenZ b) m2) as (m3 & H3 & W3 & E3); [| |unfold lenZ; lia| | |].
  { eapply writes_view_ok; [exact W2|]. by eapply writes_view_ok. }
  { lia. }
  { eapply placed_sub; [eapply writes_placed; [exact W2|exact Hp1]|lia..]. }
  { unfold apart in *. lia. }
  exists m3. cbn [copy_strings]. next H1. next H2. split; [done|].
  assert (forall i, row <= i < row + 1 + lenZ utf8 -> apart (cell v i).1 (cell v i).2 (S + off) (lenZ b + total utf8)) as Hca.
  { intros i Hi. unfold apart, cell, elem_addr in *. cbn. rewrite Ht. cbn. unfold lenZ in *. lia. }
  split; [|intros [|j] b' Hj; cbn in Hj].
  - eapply writes_trans; [|eapply writes_trans]; (eapply writes_mono; [|done]); intros q k [Ho1 Ho2]%outside_app.
    + eapply outside_mono; [|exact Ho1]. intros c ->%list_elem_of_singleton. apply cells_elem. exists row. split; [done|lia].
    + intros c ->%list_elem_of_singleton. specialize (Ho2 _ (list_elem_of_here _ _)). cbn in *. unfold apart in *. lia.
    + apply outside_app. split.
      * eapply outside_mono; [|exact Ho1]. intros c (i & -> & Hi)%cells_elem. apply cells_elem. exists i.
        split; [done|]. unfold lenZ in Hi. lia.
      * intros c ->%list_elem_of_singleton. specialize (Ho2 _ (list_elem_of_here _ _)). cbn in *. unfold apart in *. lia.
  - injection Hj as <-. change (offset (b :: utf8) 0) with 0. rewrite !Z.add_0_r. split.
    + rewrite Ht in E1. cbn in E1. rewrite <- E1, <- Ht. transitivity (h_elem (av_type v) (elem_addr v row) m2).
      * eapply cell_keeps; [exact W3|]. apply outside_app. split.
        -- intros c (i & -> & Hi)%cells_elem. apply cells_apart. lia.
        -- intros c ->%list_elem_of_singleton. specialize (Hca row). cbn in *. unfold apart in *. unfold lenZ in *. lia.
      * eapply cell_keeps; [exact W2|]. intros c ->%list_elem_of_singleton. specialize (Hca row). cbn in *. unfold apart in *. unfold lenZ in *. lia.
    + rewrite <- E2 at 2. eapply bytes_keep; [exact W3|]. apply outside_app. split.
      * intros c (i & -> & Hi)%cells_elem. specialize (Hca i). unfold apart in *. lia.
      * intros c ->%list_elem_of_singleton. cbn. unfold apart. lia.
  - destruct (E3 j b' Hj) as [E4 E5]. replace (row + Z.of_nat (Datatypes.S j)) with (row + 1 + Z.of_nat j) by lia.
    change (offset (b :: utf8) (Datatypes.S j)) with (lenZ b + offset utf8 j). split.
    + rewrite E4. f_equal. lia.
    + rewrite <- E5 at 2. f_equal. lia.
Qed.

(** ** The answer *)

(** Where the engine looks for the answer. *)
Definition response_ok (m : M) (response : Z) : Prop :=
  placed m response 24 /\ response mod 8 = 0 /\ response < 2 ^ 31.

Lemma shr32_8 response k : 0 <= response < 2 ^ 31 -> response mod 8 = 0 -> 8 * (shr32 response 3 + k) = response + 8 * k.
Proof.
  intros Hr Hm. unfold shr32, int32. rewrite (Z.mod_small (response + 2 ^ 31)) by lia.
  replace (response + 2 ^ 31 - 2 ^ 31) with response by lia. rewrite Z.shiftr_div_pow2 by lia. change (2 ^ 3) with 8.
  pose proof (Z.div_mod response 8). lia.
Qed.

Lemma set_heap_f64_ok m response k x : response_ok m response -> 0 <= k < 3 ->
  exists m', set_heap_f64 (shr32 response 3 + k) x m = (Normal tt, m') /\ writes [(response + 8 * k, 8)] m m' /\
    h_elem E_f64 (response + 8 * k) m' = Num_int x /\ response_ok m' response.
Proof.
  intros (Hp & Hm & Hlt) Hk. destruct (placed_bounds _ _ _ Hp). unfold set_heap_f64, modify.
  rewrite shr32_8 by lia.
  assert ((0 <=? shr32 response 3 + k) && (8 * (shr32 response 3 + k) + 8 <=? h_length m) = true) as Hb.
  { pose proof (shr32_8 response k). lia. }
  rewrite shr32_8 in Hb by lia. rewrite Hb. eexists. split; [done|].
  pose proof (writes_elem E_f64 (response + 8 * k) (Num_int x) m) as W. split; [exact W|]. split.
  - apply (elem_same E_f64 _ (Num_int x)); cbn; lia.
  - split; [by eapply writes_placed|done].
Qed.

Lemma elem_keep bs m m' t a : writes bs m m' -> outside bs a (elem_size t) -> h_elem t a m' = h_elem t a m.
Proof. intros (_ & _ & _ & _ & W) Ho. apply (W _ _ Ho); lia. Qed.

Lemma outside_1 p n q k : apart p n q k -> outside [(p, n)] q k.
Proof. by intros Ha b ->%list_elem_of_singleton. Qed.

Lemma writes_1_same p n m m' q k : writes [(p, n)] m m' -> apart p n q k -> same q k m m'.
Proof. intros (_ & _ & _ & _ & W) Ha. by apply W, outside_1. Qed.

(** An element stays over the stores elsewhere. *)
Ltac keep_elem :=
  repeat match goal with
  | W : writes _ ?a ?b |- h_elem _ _ ?b = _ =>
      rewrite (elem_keep _ a b _ _ W) by (apply outside_1; unfold apart in *; cbn; lia)
  end.

Lemma pack_response_ok m response D V L : steady -> response_ok m response ->
  exists m' R, pack_response response D V L m = (Normal tt, m') /\
    h_elem E_f64 response m' = Num_int 0 /\ h_elem E_f64 (response + 8) m' = Num_int R /\
    h_elem E_f64 (response + 16) m' = Num_int 0 /\
    h_elem E_f64 R m' = Num_int D /\ h_elem E_f64 (R + 8) m' = Num_int V /\ h_elem E_f64 (R + 16) m' = Num_int L /\
    forall q k, placed m q k -> apart q k response 24 -> same q k m m'.
Proof.
  intros Hst Hr. destruct (malloc_ok 24 m Hst) as (R & m1 & H1 & K1 & HR & Hlive & Hfresh).
  assert (placed m1 R (3 * elem_size E_f64)) as Hp by (exists R, 24; cbn; split; [done|lia]).
  destruct (new_view_ok E_f64 R 3 m1 Hp) as [H2 Hv]; [done|lia|]. set (v := the_view m1 E_f64 R 3) in *.
  destruct (view_set_ok v 0 (V_number (Num_int D)) m1 Hv) as (m2 & H3 & W2 & E2); [cbn; lia|].
  assert (view_ok m2 v) as Hv2 by (by eapply writes_view_ok).
  destruct (view_set_ok v 1 (V_number (Num_int V)) m2 Hv2) as (m3 & H4 & W3 & E3); [cbn; lia|].
  assert (view_ok m3 v) as Hv3 by (by eapply writes_view_ok).
  destruct (view_set_ok v 2 (V_number (Num_int L)) m3 Hv3) as (m4 & H5 & W4 & E4); [cbn; lia|].
  assert (response_ok m4 response) as Hr4.
  { destruct Hr as [Hr ?]. split; [|done]. do 3 (eapply writes_placed; [done|]). by eapply keeps_placed. }
  destruct (set_heap_f64_ok m4 response 0 0 Hr4) as (m5 & H6 & W5 & E5 & Hr5); [lia|].
  destruct (set_heap_f64_ok m5 response 1 R Hr5) as (m6 & H7 & W6 & E6 & Hr6); [lia|].
  destruct (set_heap_f64_ok m6 response 2 0 Hr6) as (m7 & H8 & W7 & E7 & Hr7); [lia|].
  exists m7, R. split; [|].
  { unfold pack_response. next H1. unfold ptrToFloat64Array. next H2. next H3. next H4. next H5. next H6. next H7. exact H8. }
  assert (apart R 24 response 24) as Ha by (apply (fresh_placed m); [done|apply Hr]).
  unfold cell, elem_addr, v in *. cbn [the_view av_ptr av_type av_length elem_size] in *. unfold apart in Ha.
  assert (forall q k, apart R 24 q k -> apart q k response 24 -> same q k m1 m7) as Hs.
  { unfold apart. intros q k Hq Hq'. repeat (eapply heap_same_trans; [eapply writes_1_same; [eassumption|unfold apart; lia]|]).
    apply heap_same_refl. }
  repeat split.
  - replace response with (response + 8 * 0) by lia. by keep_elem.
  - replace (response + 8) with (response + 8 * 1) by lia. by keep_elem.
  - replace (response + 16) with (response + 8 * 2) by lia. by keep_elem.
  - replace R with (R + 0 * 8) by lia. keep_elem. exact E2.
  - replace (R + 8) with (R + 1 * 8) by lia. keep_elem. exact E3.
  - replace (R + 16) with (R + 2 * 8) by lia. keep_elem. exact E4.
  - eapply heap_same_trans; [by eapply keeps_same|]. apply Hs; [|done]. by apply (fresh_placed m).
  - eapply heap_same_trans; [by eapply keeps_same|]. apply Hs; [|done]. by apply (fresh_placed m).
Qed.

(** ** Encoding strings *)

(** The strings and their lengths and offsets, in the blocks at [S], [L] and the view. *)
Definition strings_stored (m : M) (v : ArrayView) (L S : Z) (utf8 : list bytes) : Prop :=
  forall j b, utf8 !! j = Some b ->
    h_elem E_f64 (elem_addr v (Z.of_nat j)) m = Num_int (offset utf8 j) /\
    h_elem E_f64 (L + Z.of_nat j * 8) m = Num_int (lenZ b) /\
    h_bytes (S + offset utf8 j) (lenZ b) m = b.

Lemma cells_in v row n q k :
  0 <= row -> row + n <= av_length v -> apart (av_ptr v) (av_length v * elem_size (av_type v)) q k -> outside (cells v row n) q k.
Proof.
  intros Hr Hn Ha b (i & -> & Hi)%cells_elem. unfold apart, cell, elem_addr in *. cbn.
  pose proof (elem_size_pos (av_type v)). nia.
Qed.

Lemma encode_strings_ok m0 m v rows results : steady -> keeps m0 m -> view_ok m v -> av_type v = E_f64 ->
  av_length v = rows -> lenZ results = rows -> fresh m0 (av_ptr v) (rows * 8) ->
  exists m' L S, encode_strings v rows results m = (Normal L, m') /\ strings_stored m' v L S (texts results) /\
    keeps m0 m' /\ placed m' L (rows * 8) /\ fresh m0 L (rows * 8) /\
    placed m' S (total (texts results)) /\ fresh m0 S (total (texts results)) /\ placed m' (av_ptr v) (rows * 8) /\
    forall q k, placed m q k -> apart (av_ptr v) (rows * 8) q k -> placed m' q k /\ same q k m m'.
Proof.
  intros Hst Hk Hv Ht Hn Hres Hf. remember (texts results) as utf8 eqn:Hu.
  assert (lenZ utf8 = rows) as Hlen by (subst utf8; unfold lenZ, texts in *; by rewrite length_map).
  destruct (malloc_ok (rows * 8) m Hst) as (L & m1 & H1 & K1 & HmL & HLl & HLf).
  assert (0 <= rows) as H0 by (rewrite <- Hlen; apply lenZ_nonneg).
  assert (placed m1 L (rows * elem_size E_f64)) as HLp by (exists L, (rows * 8); cbn; split; [done|lia]).
  destruct (new_view_ok E_f64 L rows m1 HLp HmL H0) as [H2 Hlv]. set (lv := the_view m1 E_f64 L rows) in *.
  destruct (store_lengths_ok lv utf8 eq_refl 0 m1 Hlv) as (m2 & H3 & W2 & E2); [lia|cbn; lia|].
  destruct (malloc_ok (total utf8) m2 Hst) as (S & m3 & H4 & K3 & HS & HSl & HSf).
  assert (placed m3 S (total utf8)) as HSp by (exists S, (total utf8); split; [done|lia]).
  assert (view_ok m3 v) as Hv3.
  { eapply view_ok_keeps; [done|]. eapply writes_view_ok; [done|]. by eapply view_ok_keeps. }
  assert (placed m1 (av_ptr v) (rows * 8)) as Hvp.
  { destruct (view_ok_keeps v m m1 K1 Hv) as [_ Hp]. by rewrite Ht, Hn in Hp. }
  assert (placed m2 (av_ptr v) (rows * 8)) as Hvp2 by (by eapply writes_placed).
  assert (apart S (total utf8) (av_ptr v) (rows * 8)) as HSv by (by apply (fresh_placed m2)).
  destruct (copy_strings_ok v S utf8 Ht 0 0 m3 Hv3) as (m4 & H5 & W4 & E4); [lia|lia|by rewrite Z.add_0_r| |].
  { rewrite Z.add_0_r, Hn. by apply ranges_apart_sym. }
  exists m4, L, S. rewrite Z.add_0_r in W4.
  assert (outside (cells v 0 (lenZ utf8)) L (rows * 8)) as HoL.
  { apply cells_in; [lia|lia|]. rewrite Ht, Hn. apply ranges_apart_sym, (fresh_placed m); [done|]. destruct Hv as [_ Hp].
    by rewrite Ht, Hn in Hp. }
  assert (placed m2 L (rows * 8)) as HLp2 by (eapply writes_placed; [done|exact HLp]).
  assert (same L (rows * 8) m2 m4) as HsL.
  { eapply heap_same_trans; [by eapply keeps_same|]. apply W4, outside_app. split; [done|].
    apply outside_1. by apply (fresh_placed m2). }
  assert (keeps m0 m1) as K01 by (by eapply keeps_trans).
  assert (keeps m0 m2) as K02.
  { eapply writes_keeps; [done|done|]. intros b (i & -> & Hi)%cells_elem. apply cell_fresh; [|cbn; lia].
    cbn. eapply fresh_keeps; [exact Hk|done]. }
  assert (fresh m0 S (total utf8)) as HSf0 by (eapply fresh_keeps; [exact K02|exact HSf]).
  split; [unfold encode_strings; next H1; unfold ptrToFloat64Array; next H2; rewrite <- Hu; cbv zeta; next H3;
          fold (total utf8); next H4; next H5; done|].
  split; [|split; [|split; [|split; [|split; [|split; [done|split]]]]]].
  - intros j b Hj. destruct (E4 j b Hj) as [E5 E6]. rewrite !Z.add_0_l in *. rewrite Z.add_0_r in E6.
    repeat split; try done. pose proof (lookup_lt_Some _ _ _ Hj) as Hlt. rewrite <- (E2 j b Hj).
    change (elem_addr lv (0 + Z.of_nat j)) with (L + (0 + Z.of_nat j) * 8). rewrite Z.add_0_l.
    destruct HsL as [HsL _]. apply HsL; cbn; unfold lenZ in *; lia.
  - eapply writes_keeps; [exact W4|by eapply keeps_trans|]. intros b [Hb| ->%list_elem_of_singleton]%elem_of_app; [|done].
    apply cells_elem in Hb as (i & -> & Hi). apply cell_fresh; [|lia]. by rewrite Ht, Hn.
  - eapply writes_placed; [exact W4|]. by eapply keeps_placed.
  - eapply fresh_keeps; [exact Hk|exact HLf].
  - by eapply writes_placed.
  - eapply writes_placed; [exact W4|]. eapply keeps_placed; [exact K3|done].
  - intros q k Hq Ha. assert (placed m1 q k) as Hq1 by (eapply keeps_placed; [exact K1|done]).
    assert (placed m2 q k) as Hq2 by (eapply writes_placed; [exact W2|done]). split.
    + eapply writes_placed; [exact W4|]. eapply keeps_placed; [exact K3|done].
    + eapply heap_same_trans; [eapply keeps_same; [exact K1|done]|]. eapply heap_same_trans.
      * apply W2, cells_in; [lia|change (av_length lv) with rows; lia|]. by apply (fresh_placed m).
      * eapply heap_same_trans; [eapply keeps_same; [exact K3|done]|]. apply W4, outside_app. split.
        -- apply cells_in; [lia|lia|]. by rewrite Ht, Hn.
        -- apply outside_1. by apply (fresh_placed m2).
Qed.

Lemma texts_lookup results j b : texts results !! j = Some b ->
  (j < length results)%nat /\ 0 <= offset (texts results) j /\ offset (texts results) j + lenZ b <= total (texts results) /\
  b = utf8_encode (text_of (default V_undefined (results !! j))).
Proof.
  intros Hj. pose proof (lookup_lt_Some _ _ _ Hj) as Hlt. unfold texts in Hlt. rewrite length_map in Hlt. split; [done|].
  assert (offset (texts results) j + lenZ b + total (drop (S j) (texts results)) = total (texts results)) as Htot.
  { pose proof (f_equal total (take_drop_middle _ _ _ Hj)) as E. unfold total in E at 1.
    rewrite map_app, sum_list_Z_app in E. cbn in E. unfold offset, total in *. lia. }
  pose proof (total_nonneg (drop (S j) (texts results))). pose proof (total_nonneg (take j (texts results))).
  split; [done|]. split; [lia|]. unfold texts in Hj. change (map ?f) with (fmap (M:=list) f) in Hj.
  apply list_lookup_fmap_Some in Hj as (x & -> & Hx). by rewrite Hx.
Qed.

(** ** The call *)

Lemma array_type_size ptype t : array_type ptype = Some t -> getTypeSize ptype = elem_size t.
Proof. unfold array_type. repeat case_bool_decide; intros [= <-]; by subst. Qed.

(** The results of the rows, in the buffers at [D] (values), [V] (validity), [L] (lengths). *)
Definition delivered (m : M) (ptype : string) (t : ElemType) (D V L rows : Z) (res : Z -> Value F) : Prop :=
  (forall i, 0 <= i < rows -> h_elem E_u8 (V + i) m = validity_of (res i)) /\
  if bool_decide (ptype = "VARCHAR"%string) then
    exists S, let utf8 := texts (map res (seqZ 0 rows)) in
      forall j b, utf8 !! j = Some b ->
        h_elem E_f64 (D + Z.of_nat j * 8) m = Num_int (offset utf8 j) /\
        h_elem E_f64 (L + Z.of_nat j * 8) m = Num_int (lenZ b) /\
        h_bytes (S + offset utf8 j) (lenZ b) m = b
  else forall i, 0 <= i < rows -> h_elem t (D + i * elem_size t) m = convert t (to_number (res i)).

(** The response, and the block of pointers it names. *)
Definition call_answer (m : M) (response D V L : Z) : Prop :=
  h_elem E_f64 response m = Num_int 0 /\ h_elem E_f64 (response + 16) m = Num_int 0 /\
  exists R, h_elem E_f64 (response + 8) m = Num_int R /\
    h_elem E_f64 R m = Num_int D /\ h_elem E_f64 (R + 8) m = Num_int V /\ h_elem E_f64 (R + 16) m = Num_int L.

Lemma convert_validity (x : Value F) : convert E_u8 (validity_of x) = validity_of x.
Proof. unfold validity_of. by destruct (nullish x). Qed.

(** The result buffers are new, apart, and of the rows. *)
Lemma result_buffers_ok m desc t : steady -> 0 < desc_rows desc -> array_type (desc_ret desc) = Some t ->
  let rows := desc_rows desc in
  exists D V m' dv vv, result_buffers desc m = (Normal (D, Some dv, (V, vv)), m') /\ keeps m m' /\
    results_ok m (if bool_decide (desc_ret desc = "VARCHAR"%string) then None else Some dv) vv rows m' /\
    (av_ptr dv = D /\ av_type dv = t /\ av_length dv = rows /\ view_ok m' dv) /\
    (av_ptr vv = V /\ av_type vv = E_u8) /\
    fresh m D (rows * elem_size t) /\ fresh m V rows /\ apart D (rows * elem_size t) V rows /\
    placed m' D (rows * elem_size t) /\ placed m' V rows /\
    (view_length (Some dv) m' =? 0) || (view_length (Some vv) m' =? 0) = false.
Proof.
  intros Hst Hpos Ht rows. pose proof (array_type_size _ _ Ht) as Hsz. fold rows in Hpos.
  destruct (malloc_ok (rows * elem_size t) m Hst) as (D & m1 & H1 & K1 & HD & HDl & HDf).
  assert (placed m1 D (rows * elem_size t)) as HDp by (exists D, (rows * elem_size t); split; [done|lia]).
  assert (D mod elem_size t = 0) as HDm.
  { apply Z.mod_divide; [by destruct t|]. apply Z.mod_divide in HD as [c ->]; [|done].
    destruct t; [exists (c * 8)|exists (c * 8)|exists (c * 2)|exists (c * 2)|exists c]; cbn; lia. }
  destruct (new_view_ok t D rows m1 HDp HDm) as [H2 Hdv]; [lia|].
  destruct (malloc_ok rows m1 Hst) as (V & m2 & H3 & K2 & HV & HVl & HVf).
  assert (placed m2 V rows) as HVp by (exists V, rows; split; [done|lia]).
  destruct (new_view_ok E_u8 V rows m2) as [H4 Hvv]; [cbn; by rewrite Z.mul_1_r|by rewrite Z.mod_1_r|lia|].
  assert (view_ok m2 (the_view m1 t D rows)) as Hdv2 by (by eapply view_ok_keeps).
  assert (fresh m V rows) as HVf0 by (eapply fresh_keeps; [exact K1|done]).
  assert (apart D (rows * elem_size t) V rows) as HDV by (apply ranges_apart_sym; by apply (fresh_placed m1)).
  exists D, V, m2, (the_view m1 t D rows), (the_view m2 E_u8 V rows). split.
  { unfold result_buffers. fold rows. rewrite Hsz. next H1. unfold ptrToArray. rewrite Ht. unfold bind at 1. next H2.
    unfold ret at 1. cbv beta iota. next H3. unfold ptrToUint8Array. next H4. done. }
  split; [by eapply keeps_trans|]. split; [|split; [done|split; [done|]]].
  - split; [|split; [done|split; [done|cbn; by rewrite Z.mul_1_r]]]. destruct (bool_decide _); [done|].
    split; [done|]. split; [done|]. split; [|done]. unfold apart_views. cbn. by rewrite Z.mul_1_r.
  - repeat (split; [done|]). split; [eapply keeps_placed; [exact K2|done]|]. split; [done|].
    cbn. rewrite (proj1 Hdv2), (proj1 Hvv). cbn. lia.
Qed.

(** The strings are delivered, and stay where nothing new is stored. *)
Lemma strings_ok m m3 dv V rows res : steady -> keeps m m3 -> view_ok m3 dv -> av_type dv = E_f64 -> av_length dv = rows ->
  0 <= rows -> fresh m (av_ptr dv) (rows * 8) -> placed m3 V rows -> apart (av_ptr dv) (rows * 8) V rows ->
  exists L m4, encode_strings dv rows (map res (seqZ 0 rows)) m3 = (Normal L, m4) /\
    keeps m m4 /\ placed m4 V rows /\ same V rows m3 m4 /\
    forall m', (forall q k, placed m4 q k -> fresh m q k -> same q k m4 m') ->
      exists S, let utf8 := texts (map res (seqZ 0 rows)) in
      forall j b, utf8 !! j = Some b ->
        h_elem E_f64 (av_ptr dv + Z.of_nat j * 8) m' = Num_int (offset utf8 j) /\
        h_elem E_f64 (L + Z.of_nat j * 8) m' = Num_int (lenZ b) /\
        h_bytes (S + offset utf8 j) (lenZ b) m' = b.
Proof.
  intros Hst Hk Hv Ht Hn H0 Hf HV Ha.
  destruct (encode_strings_ok m m3 dv rows (map res (seqZ 0 rows)) Hst Hk Hv Ht Hn)
    as (m4 & L & S & H6 & E6 & K04 & HLp & HLf & HSp & HSf & HDp4 & Hother); [|done|].
  { unfold lenZ. rewrite length_map, length_seqZ. lia. }
  destruct (Hother V rows HV Ha) as [HVp4 HVs]. exists L, m4. repeat (split; [done|]).
  intros m' Hs. exists S. cbv zeta. intros j b Hj. destruct (E6 j b Hj) as (E7 & E8 & E9).
  destruct (texts_lookup _ _ _ Hj) as (Hlt & Ho & Hb & _). rewrite length_map, length_seqZ in Hlt. pose proof (lenZ_nonneg b).
  unfold elem_addr in E7. rewrite Ht in E7. split; [|split].
  - destruct (Hs (av_ptr dv) (rows * 8)) as [Hs' _]; [done..|]. rewrite Hs' by (cbn; lia). exact E7.
  - destruct (Hs L (rows * 8)) as [Hs' _]; [done..|]. rewrite Hs' by (cbn; lia). exact E8.
  - destruct (Hs S _ HSp HSf) as [_ Hs']. rewrite Hs' by lia. exact E9.
Qed.

Lemma call_rows_ok {U} m u u' response desc (func : ScalarUDF F U) rs res t :
  steady -> response_ok m response -> 0 < desc_rows desc -> array_type (desc_ret desc) = Some t ->
  Forall (resolver_ok m) rs ->
  apply_rows func (map (fun i => map (fun r => resolve r i m) rs) (seqZ 0 (desc_rows desc))) u =
    (Done (map res (seqZ 0 (desc_rows desc))), u') ->
  exists m' D V L, call_rows response desc func rs m u = (Done tt, m', u') /\ call_answer m' response D V L /\
    delivered m' (desc_ret desc) t D V L (desc_rows desc) res.
Proof.
  intros Hst Hresp Hpos Ht Hrs Hf.
  destruct (result_buffers_ok m desc t Hst Hpos Ht) as (D & V & m2 & dv & vv & H1 & K02 & Hok & (<- & HDt & HDn & Hdv2) &
    (<- & HVt) & HDf & HVf0 & HDV & HDp2 & HVp2 & Hempty).
  set (rows := desc_rows desc) in *. set (varchar := bool_decide (desc_ret desc = "VARCHAR"%string)) in *.
  destruct (run_rows_ok m rs func _ vv rows (seqZ 0 rows) m2 u (Done (map res (seqZ 0 rows))) u' Hrs K02 Hok (NoDup_seqZ _ _)) as (m3 & H5 & W3 & E3');
    [intros i Hi%elem_of_seqZ; lia|exact Hf|]. pose proof (E3' res eq_refl) as E3. clear E3'.
  assert (keeps m m3) as K03 by (eapply rows_keep; [exact K02|exact Hok| |exact W3]; intros i Hi%elem_of_seqZ; lia).
  assert (forall m', same (av_ptr vv) rows m3 m' -> forall i, 0 <= i < rows -> h_elem E_u8 (av_ptr vv + i) m' = validity_of (res i)) as HV'.
  { intros m' [Hs _] i Hi. destruct (E3 i) as [_ E]; [apply elem_of_seqZ; lia|].
    rewrite Hs by (cbn; lia). rewrite HVt, convert_validity in E. rewrite <- E. unfold elem_addr. by rewrite HVt, Z.mul_1_r. }
  assert (exists L m4, (if varchar then encode_strings dv rows (map res (seqZ 0 rows)) else ret 0) m3 = (Normal L, m4) /\ keeps m m4 /\
    forall m', (forall q k, placed m4 q k -> fresh m q k -> same q k m4 m') ->
      delivered m' (desc_ret desc) t (av_ptr dv) (av_ptr vv) L rows res)
    as (L & m4 & H6 & K04 & Hdel).
  { unfold delivered. fold varchar. destruct varchar eqn:Evar.
    - assert (t = E_f64) as ->.
      { apply bool_decide_eq_true in Evar. rewrite Evar in Ht. change (Some E_f64 = Some t) in Ht. congruence. }
      destruct (strings_ok m m3 dv (av_ptr vv) rows res Hst K03) as (L & m4 & H6 & K04 & HVp4 & HVs & Hstr); try done;
        [by eapply writes_view_ok|lia|by eapply writes_placed|].
      exists L, m4. split; [done|]. split; [done|]. intros m' Hs. split; [|by apply Hstr].
      apply HV'. eapply heap_same_trans; [exact HVs|]. by apply Hs.
    - exists 0, m3. split; [done|]. split; [done|]. intros m' Hs. split.
      + apply HV', Hs; [by eapply writes_placed|done].
      + intros i Hi. destruct (Hs (av_ptr dv) (rows * elem_size t)) as [Hs' _]; [by eapply writes_placed|done|].
        destruct (E3 i) as [E _]; [apply elem_of_seqZ; lia|]. unfold elem_addr in E. rewrite HDt in E.
        pose proof (elem_size_pos t). rewrite Hs' by nia. exact E. }
  assert (response_ok m4 response) as Hr4 by (destruct Hresp as [Hp ?]; split; [by eapply keeps_placed|done]).
  destruct (pack_response_ok m4 response (av_ptr dv) (av_ptr vv) L Hst Hr4) as (m5 & R & H7 & R0 & R1 & R2 & P0 & P1 & P2 & Hsame).
  exists m5, (av_ptr dv), (av_ptr vv), L. split; [|split].
  - unfold call_rows. cbv zeta. next_heap H1. unfold u_bind at 1, on_heap at 1, gets. cbv beta. rewrite Hempty. fold rows varchar.
    unfold u_bind. rewrite H5. unfold on_heap, bind. by rewrite H6, H7.
  - split; [done|]. split; [done|]. exists R. done.
  - apply Hdel. intros q k Hq Hfr. apply Hsame; [done|]. apply (fresh_placed m); [done|apply Hresp].
Qed.

(** The description of the arguments becomes resolvers for their values. *)
Lemma build_all ptrsPtr n rows m args : placed m ptrsPtr (n * 8) -> 0 <= rows ->
  Forall (argument_ok ptrsPtr n rows m) args ->
  exists rs, map_of args (buildResolver (the_view m E_f64 ptrsPtr n) rows) m = (Normal rs, m) /\
    Forall (resolver_ok m) rs /\
    forall row, 0 <= row < rows -> map (fun r => resolve r row m) rs = map (argument_value ptrsPtr m row) args.
Proof.
  intros Hp Hr. induction 1 as [|arg args Ha _ IH]; [by exists []|].
  destruct (build_ok ptrsPtr n rows m Hp Hr arg Ha) as (r & Hb & Hok & Hv). destruct IH as (rs & Hbs & Hoks & Hvs).
  exists (r :: rs). split; [|split; [by constructor|]].
  - cbn [map_of]. next Hb. next Hbs. done.
  - intros row Hrow. cbn [map]. by rewrite Hv, Hvs.
Qed.

(** ** Errors *)

Lemma storeError_ok m response msg : steady -> response_ok m response ->
  exists m' p, storeError response msg m = (Normal tt, m') /\
    h_elem E_f64 response m' = Num_int 1 /\ h_elem E_f64 (response + 8) m' = Num_int p /\
    h_elem E_f64 (response + 16) m' = Num_int (lenZ (utf8_encode msg)) /\
    h_bytes p (lenZ (utf8_encode msg)) m' = utf8_encode msg.
Proof.
  intros Hst Hr. set (b := utf8_encode msg). destruct (malloc_ok (lenZ b) m Hst) as (p & m1 & H1 & K1 & _ & Hl & Hf).
  assert (placed m1 p (lenZ b)) as Hp by (exists p, (lenZ b); split; [done|lia]).
  destruct (heap_set_bytes_ok p b m1 Hp) as [H2 E2]. pose proof (writes_bytes p b m1) as W2. set (m2 := h_set_bytes p b m1) in *.
  assert (response_ok m2 response) as Hr2.
  { destruct Hr as [Hr ?]. split; [|done]. eapply writes_placed; [exact W2|]. by eapply keeps_placed. }
  destruct (set_heap_f64_ok m2 response 0 1 Hr2) as (m3 & H3 & W3 & E3 & Hr3); [lia|].
  destruct (set_heap_f64_ok m3 response 1 p Hr3) as (m4 & H4 & W4 & E4 & Hr4); [lia|].
  destruct (set_heap_f64_ok m4 response 2 (lenZ b) Hr4) as (m5 & H5 & W5 & E5 & _); [lia|].
  exists m5, p. split; [unfold storeError; cbv zeta; fold b; next H1; next H2; next H3; next H4; exact H5|].
  assert (apart p (lenZ b) response 24) as Ha by (apply (fresh_placed m); [done|apply Hr]).
  split; [|split; [|split]].
  - replace response with (response + 8 * 0) by lia. by keep_elem.
  - replace (response + 8) with (response + 8 * 1) by lia. by keep_elem.
  - replace (response + 16) with (response + 8 * 2) by lia. by keep_elem.
  - rewrite (bytes_keep _ _ _ _ _ W5), (bytes_keep _ _ _ _ _ W4), (bytes_keep _ _ _ _ _ W3); [exact E2|..];
      apply outside_1; unfold apart in *; lia.
Qed.

(** ** What the engine gets *)

Section Calls.
Context {U : Type} (JSON_parse : string -> Outcome SchemaDescription) (udfFunctions : Z -> option (ScalarUDF F U)).

(** A call as the engine makes it: the function is known, the description can be read, the
    result type has an array, and the buffers are there. *)
Record call_ok (m : M) (response funcId descPtr descSize ptrsPtr ptrsSize : Z)
    (func : ScalarUDF F U) (desc : SchemaDescription) (t : ElemType) : Prop := {
  co_response : response_ok m response;
  co_func : udfFunctions funcId = Some func;
  co_desc : JSON_parse (utf8_decode (subarray_bytes descPtr descSize m)) = Normal desc;
  co_rows : 0 < desc_rows desc;
  co_type : array_type (desc_ret desc) = Some t;
  co_ptrs : placed m ptrsPtr (ptrsSize / 8 * 8) /\ ptrsPtr mod 8 = 0 /\ 0 <= ptrsSize;
  co_args : Forall (argument_ok ptrsPtr (ptrsSize / 8) (desc_rows desc) m) (desc_args desc)
}.

(** The values of the arguments at each row, as they are in the heap before the call. *)
Definition row_arguments (ptrsPtr : Z) (m : M) (desc : SchemaDescription) : list (list (Value F)) :=
  map (fun i => map (argument_value ptrsPtr m i) (desc_args desc)) (seqZ 0 (desc_rows desc)).

Lemma call_unfolds m u response funcId descPtr descSize ptrsPtr ptrsSize func desc t :
  call_ok m response funcId descPtr descSize ptrsPtr ptrsSize func desc t ->
  exists rs, Forall (resolver_ok m) rs /\
    map (fun i => map (fun r => resolve r i m) rs) (seqZ 0 (desc_rows desc)) = row_arguments ptrsPtr m desc /\
    callScalarUDF JSON_parse udfFunctions response funcId descPtr descSize ptrsPtr ptrsSize m u =
      u_catch (call_rows response desc func rs)
        (fun e => u_bind (on_heap (of_outcome (thrown_string e))) (fun text => on_heap (storeError response text))) m u.
Proof.
  intros []. destruct co_ptrs0 as (Hp & Hm & Hs).
  assert (0 <= ptrsSize / 8) by (apply Z.div_pos; lia).
  destruct (new_view_ok E_f64 ptrsPtr (ptrsSize / 8) m Hp Hm) as [Hv _]; [done|].
  destruct (build_all ptrsPtr (ptrsSize / 8) (desc_rows desc) m (desc_args desc) Hp) as (rs & Hb & Hok & Hval); [lia|done|].
  exists rs. split; [done|]. split.
  { apply map_ext_in. intros i Hi%list_elem_of_In%elem_of_seqZ. apply Hval. lia. }
  unfold callScalarUDF, u_catch. rewrite co_func0.
  unfold u_bind at 1, on_heap at 1, heap_bytes, gets. cbv beta iota. unfold u_bind at 1, on_heap at 1, of_outcome at 1. rewrite co_desc0.
  unfold ptrToFloat64Array. next_heap Hv. next_heap Hb. done.
Qed.


End Calls.
End Facts.
