(* ===== verification/UdfSample.v ===== *)
(** * UdfSample: a small heap, and scalar functions on it

    An instance of [TypedHeap] with its laws: elements and bytes in maps, a bump
    allocator, and a count after which an allocation grows the memory.  The witnesses of
    [UdfFacts] run on it; so does the case of a memory that grows during a call. *)
From S2P Require Import Prelude Text Data WasmModule UdfRuntime UdfFacts.
From stdpp Require Import base tactics list gmap strings pretty.
From Stdlib Require Import ZArith Lia.
Open Scope Z_scope.

#[export] Instance ElemType_eq_dec : EqDecision ElemType.
Proof. solve_decision. Defined.

(** The only number that is no integer is NaN. *)
#[export] Instance sample_numbers : Numbers unit := {|
  NaN := tt; is_NaN _ := true; truncate _ := 0; fround n := n; parse_number _ := Num_other tt;
  print_number n := match n with Num_int z => pretty z | Num_other _ => "NaN"%string end
|}.

(** [grows]: whether the memory ever grows. *)
Record SampleHeap (grows : bool) := MkHeap {
  sh_elems : gmap Z (ElemType * JsNumber unit);
  sh_bytes : gmap Z Z;
  sh_blocks : list (Z * Z);
  sh_top : Z;
  sh_shared : bool;
  sh_buffer : Z;
  sh_grow : option nat        (** allocations until one grows the memory *)
}.

Arguments MkHeap {grows}. Arguments sh_elems {grows}. Arguments sh_bytes {grows}. Arguments sh_blocks {grows}.
Arguments sh_top {grows}. Arguments sh_shared {grows}. Arguments sh_buffer {grows}. Arguments sh_grow {grows}.

Section Sample.
Context {grows : bool}.

Definition sample_malloc (n : Z) (m : SampleHeap grows) : Z * SampleHeap grows :=
  let p := 8 * (Z.max 0 (sh_top m) / 8 + 1) in
  (p, MkHeap (sh_elems m) (sh_bytes m) ((p, n) :: sh_blocks m) (p + Z.max 0 n) (sh_shared m)
        (match sh_grow m with Some 0%nat => if grows then sh_buffer m + 1 else sh_buffer m | _ => sh_buffer m end)
        (match sh_grow m with Some (S k) => Some k | _ => None end)).

Fixpoint sample_store (p : Z) (bs : bytes) (h : gmap Z Z) : gmap Z Z :=
  match bs with [] => h | b :: bs' => <[p := b]> (sample_store (p + 1) bs' h) end.

#[export] Instance sample_heap : TypedHeap unit (SampleHeap grows) := {|
  h_malloc := sample_malloc;
  h_buffer := sh_buffer;
  h_shared := sh_shared;
  h_length := sh_top;
  h_bytes p n m := map (fun i => default 0 (sh_bytes m !! i)) (seqZ p n);
  h_set_bytes p bs m :=
    MkHeap (sh_elems m) (sample_store p bs (sh_bytes m)) (sh_blocks m) (sh_top m) (sh_shared m) (sh_buffer m) (sh_grow m);
  h_elem t a m := match sh_elems m !! a with
                  | Some (t', x) => if decide (t' = t) then x else Num_int 0
                  | None => Num_int 0
                  end;
  h_set_elem t a x m :=
    MkHeap (<[a := (t, x)]> (sh_elems m)) (sh_bytes m) (sh_blocks m) (sh_top m) (sh_shared m) (sh_buffer m) (sh_grow m)
|}.

Definition sample_live (m : SampleHeap grows) (q k : Z) : Prop := (q, k) ∈ sh_blocks m /\ 0 < q /\ q + k <= sh_top m.

Lemma sample_store_lookup p bs h i :
  sample_store p bs h !! i = if decide (p <= i < p + lenZ bs) then bs !! Z.to_nat (i - p) else h !! i.
Proof.
  revert p. induction bs as [|b bs IH]; intros p; cbn [sample_store].
  - rewrite decide_False; [done|unfold lenZ; cbn; lia].
  - change (lenZ (b :: bs)) with (Z.of_nat (S (length bs))). destruct (Z.eq_dec p i) as [->|Hne].
    + rewrite lookup_insert_eq, decide_True by lia. by replace (i - i) with 0 by lia.
    + rewrite lookup_insert_ne by done. rewrite IH. unfold lenZ. case_decide; case_decide; try lia; [|done].
      replace (Z.to_nat (i - p)) with (S (Z.to_nat (i - (p + 1)))) by lia. done.
Qed.

Lemma sample_set_elem_same t a x m q k : apart a (elem_size t) q k -> same q k m (h_set_elem (M:=SampleHeap grows) t a x m).
Proof.
  intros Ha. split; [|done]. intros t' a' H1 H2. cbn. rewrite lookup_insert_ne; [done|].
  intros ->. unfold apart in Ha. pose proof (elem_size_pos t). pose proof (elem_size_pos t'). lia.
Qed.

#[export] Program Instance sample_heap_laws : TypedHeapLaws unit (SampleHeap grows) := {| live := sample_live |}.
Next Obligation. by intros m q k (_ & ? & ?). Qed.
Next Obligation.
  intros n m p m' [= <- <-] _. split; [rewrite Z.mul_comm; apply Z_mod_mult|].
  assert (0 <= Z.max 0 (sh_top m) / 8) by (apply Z.div_pos; lia).
  split; [by left|]. cbn. lia.
Qed.
Next Obligation.
  intros n m p m' q k [= <- <-] (Hin & Hq & Hk). split; [|done]. split; [by right|]. split; [done|]. cbn.
  pose proof (Z.mul_succ_div_gt (Z.max 0 (sh_top m)) 8). lia.
Qed.
Next Obligation.
  intros n m p m' q k [= <- <-] _ (_ & Hq & Hk). right. pose proof (Z.mul_succ_div_gt (Z.max 0 (sh_top m)) 8). lia.
Qed.
Next Obligation. done. Qed.
Next Obligation. intros t a x m _ _. cbn. by rewrite lookup_insert_eq, decide_True. Qed.
Next Obligation. intros. by apply sample_set_elem_same. Qed.
Next Obligation. done. Qed.
Next Obligation. done. Qed.
Next Obligation.
  intros a bs m _ _. cbn. apply list_eq. intros i. change (map ?f) with (fmap (M:=list) f).
  rewrite list_lookup_fmap. destruct (decide (i < length bs)%nat) as [Hi|Hi].
  - rewrite lookup_seqZ_lt by (unfold lenZ; lia). cbn. rewrite sample_store_lookup, decide_True by (unfold lenZ; lia).
    replace (Z.to_nat (a + Z.of_nat i - a)) with i by lia. by destruct (lookup_lt_is_Some_2 bs i Hi) as [b ->].
  - rewrite lookup_seqZ_ge by (unfold lenZ; lia). symmetry. apply lookup_ge_None. lia.
Qed.
Next Obligation.
  intros a bs m q k Ha. split; [done|]. intros p n H1 H2. cbn. apply map_ext_in. intros i Hi%list_elem_of_In%elem_of_seqZ.
  rewrite sample_store_lookup, decide_False; [done|]. unfold apart in Ha. lia.
Qed.
Next Obligation. done. Qed.
Next Obligation. done. Qed.
End Sample.

(** ** Two calls *)

(** Two INT32 columns of two rows, the second with a null. *)
Definition sample_call (grows : bool) : SampleHeap grows := {|
  sh_elems := list_to_map [(8, (E_f64, Num_int 32)); (16, (E_f64, Num_int 40)); (24, (E_f64, Num_int 48));
    (32, (E_i32, Num_int 1)); (36, (E_i32, Num_int 2)); (40, (E_i32, Num_int 10)); (44, (E_i32, Num_int 20));
    (48, (E_u8, Num_int 1)); (49, (E_u8, Num_int 0))];
  sh_bytes := ∅;
  sh_blocks := [(8, 24); (32, 8); (40, 8); (48, 8); (56, 24)];
  sh_top := 80; sh_shared := false; sh_buffer := 0; sh_grow := Some 0%nat
|}.

Definition sample_desc (ret : string) : SchemaDescription := {|
  desc_rows := 2;
  desc_args := [MkArgument "a" "INT32" None (Some 0) None []; MkArgument "b" "INT32" (Some 2) (Some 1) None []];
  desc_ret := ret
|}.

(** Functions that count their calls. *)
Abbreviation SampleUDF := (ScalarUDF unit Z).

(** The sum, or null. *)
Definition sample_add : SampleUDF := fun args calls =>
  (match args with
   | [V_number (Num_int x); V_number (Num_int y)] => Done (V_number (Num_int (x + y)))
   | _ => Done V_null
   end, calls + 1).
Definition sample_results (i : Z) : Value unit := if i =? 0 then V_number (Num_int 11) else V_null.

Definition sample_parse (ret : string) (_ : string) : Outcome SchemaDescription := Normal (sample_desc ret).
Definition sample_functions (func : SampleUDF) (id : Z) : option SampleUDF := if id =? 1 then Some func else None.

(** The heap after the call, and the calls of the function. *)
Definition sample_run (grows : bool) (ret : string) (func : SampleUDF) :=
  callScalarUDF (sample_parse ret) (sample_functions func) 56 1 0 0 8 24 (sample_call grows) 0.

Lemma sample_placed p n q k : bool_decide ((q, k) ∈ sh_blocks (sample_call false)) = true -> q <= p -> p + n <= q + k -> 0 < q -> q + k <= 80 ->
  placed (F:=unit) (sample_call false) p n.
Proof. intros Hin%bool_decide_eq_true ? ? ? ?. exists q, k. done. Qed.

Lemma sample_steady : steady (F := unit) (M := SampleHeap false).
Proof.
  intros n m. split; [|right; cbn; by destruct (sh_grow m) as [[]|]].
  cbn. pose proof (Z.div_pos (Z.max 0 (sh_top m)) 8). lia.
Qed.

Lemma sample_call_ok func : call_ok (sample_parse "INT32") (sample_functions func) (sample_call false) 56 1 0 0 8 24 func
  (sample_desc "INT32") E_i32.
Proof.
  split; try done.
  - split; [|done]. by apply (sample_placed 56 24 56 24).
  - split; [by apply (sample_placed 8 _ 8 24)|done].
  - repeat constructor; try done.
    + change (exists d, Some 0 = Some d /\ 0 <= d < 3 /\ forall t, Some E_i32 = Some t -> buffer_ok 8 3 2 (sample_call false) t d).
      exists 0. split; [done|]. split; [lia|]. intros t [= <-]. split; [lia|]. split; [|done]. by apply (sample_placed 32 8 32 8).
    + by apply (sample_placed 48 2 48 8).
    + change (exists d, Some 1 = Some d /\ 0 <= d < 3 /\ forall t, Some E_i32 = Some t -> buffer_ok 8 3 2 (sample_call false) t d).
      exists 1. split; [done|]. split; [lia|]. intros t [= <-]. split; [lia|]. split; [|done]. by apply (sample_placed 40 8 40 8).
Qed.


(** It throws at the second row; the second one throws a text, the third one [null]. *)
Definition throwing (t : JsThrown unit) : SampleUDF := fun args calls =>
  match args with [_; V_null] => (Threw t, calls + 1) | _ => sample_add args calls end.


(** What cannot be turned into a text leaves the call as a TypeError. *)
Lemma throwing_null_reaches_the_caller :
  exists m', sample_run false "INT32" (throwing (T_value V_null)) =
    (Threw (T_error (TypeError "Cannot read properties of null (reading 'toString')")), m', 2).
Proof. eexists. vm_compute. reflexivity. Qed.

(** If the memory grows while the result buffer is allocated, the views of the arguments
    are detached: the function sees neither column, and the sum of 1 and 10 is null.  The
    engine is told of no error. *)
Lemma growth_detaches_the_arguments :
  let m' := (sample_run true "INT32" sample_add).1.2 in
  h_elem E_f64 56 m' = Num_int 0 /\
  exists V, h_elem E_f64 (index_of (V_number (h_elem E_f64 64 m')) + 8) m' = Num_int V /\
    h_elem E_u8 V m' = Num_int 0.
Proof. vm_compute. split; [done|]. eexists. split; reflexivity. Qed.

(** The values of a VARCHAR function are offsets, which the engine takes for addresses. *)
Definition sample_text : SampleUDF := fun _ calls => (Done (V_string "ab"), calls + 1).
Lemma texts_are_told_by_offset :
  let m' := (sample_run false "VARCHAR" sample_text).1.2 in
  exists D, h_elem E_f64 (index_of (V_number (h_elem E_f64 64 m'))) m' = Num_int D /\
    h_elem E_f64 D m' = Num_int 0 /\ h_elem E_f64 (D + 8) m' = Num_int 2.
Proof. vm_compute. eexists. repeat split. Qed.
