(* ===== verification/NodeRuntime.v ===== *)
(** * NodeRuntime: the file system under Node.js ([runtime_node.ts])

    The runtime keeps a descriptor for every file id the engine opened, and serves
    reads and writes with the synchronous calls of [fs].  Those calls are the class
    [NodeFS], over a world [W]; a read also writes the engine's heap.  The two
    constants [openSync] is given are [O_CREAT | O_RDWR] and [S_IRUSR | S_IWUSR].
    Messages on the console are left out. *)
From S2P Require Import Prelude Text Data Protocol JsMap WasmModule BindingsBase.
From stdpp Require Import base tactics list strings pretty.
From Stdlib Require Import ZArith Lia.
Open Scope Z_scope.

Class NodeFS (M W : Type) := {
  O_CREAT : Z; O_RDWR : Z; S_IRUSR : Z; S_IWUSR : Z;
  fs_openSync : option string -> Z -> Z -> JS W Z;        (** path, flags, mode *)
  fs_fstatSync_size : Z -> JS W Z;
  fs_fstatSync_mtime : Z -> JS W Z;                       (** [mtime.getTime()] *)
  fs_closeSync : Z -> JS W unit;
  fs_truncateSync : option string -> Z -> JS W unit;
  fs_readSync : Z -> Z -> Z -> Z -> M -> W -> Outcome Z * M * W;   (** descriptor, offset, length, position *)
  fs_writeSync : Z -> bytes -> Z -> Z -> Z -> JS W Z;     (** descriptor, buffer, offset, length, position *)
  fs_existsSync : string -> JS W bool;
  fs_mkdirSync : string -> JS W unit;
  fs_rmdirSync : string -> JS W unit;
  fs_rmSync : string -> JS W unit;
  fg_sync : string -> bool -> JS W (list string)          (** pattern, [dot] *)
}.

(** The literal [NODE_RUNTIME], with the module and the world it works on. *)
Record NodeRuntime (M W : Type) := MkNodeRuntime {
  n_mod : Module M;
  n_world : W;
  n_files : list (string * Z);
  _filesById : list (Z * Z);
  n_fileInfoCache : list (Z * DuckDBFileInfo)
}.
Arguments MkNodeRuntime {M W}. Arguments n_mod {M W}. Arguments n_world {M W}. Arguments n_files {M W}.
Arguments _filesById {M W}. Arguments n_fileInfoCache {M W}.

(** [testPlatformFeature]; the feature is an index of [PlatformFeature]. *)
Definition testPlatformFeature (hasBigInt64Array : bool) (feature : Z) : bool :=
  if feature =? 1 then hasBigInt64Array else false.
Definition getDefaultDataProtocol : DuckDBDataProtocol := NODE_FS.

Section Node.
Context {M W : Type} `{DuckDBModule M} `{NodeFS M W}.
Context (parse_file_info : string -> Outcome (option DuckDBFileInfo)).
Abbreviation R := (NodeRuntime M W).

Definition set_n_mod (m : Module M) (s : R) : R :=
  MkNodeRuntime m (n_world s) (n_files s) (_filesById s) (n_fileInfoCache s).
Definition set_n_world (w : W) (s : R) : R :=
  MkNodeRuntime (n_mod s) w (n_files s) (_filesById s) (n_fileInfoCache s).
Definition set_n_files f (s : R) : R :=
  MkNodeRuntime (n_mod s) (n_world s) f (_filesById s) (n_fileInfoCache s).
Definition set_filesById f (s : R) : R :=
  MkNodeRuntime (n_mod s) (n_world s) (n_files s) f (n_fileInfoCache s).
Definition set_n_cache c (s : R) : R :=
  MkNodeRuntime (n_mod s) (n_world s) (n_files s) (_filesById s) c.

Definition in_module {A} (m : JS (Module M) A) : JS R A := zoom n_mod set_n_mod m.
Definition in_world {A} (m : JS W A) : JS R A := zoom n_world set_n_world m.
Definition n_lift {A} (o : Outcome A) : JS R A := match o with Normal a => ret a | Thrown e => throw e end.

(** The handlers' [catch]: the engine is told, and the answer is [d]. *)
Definition or_fail {A} (d : A) (m : JS R A) : JS R A :=
  try_catch m (fun e => in_module (failWith_mod (error_string e)) ;;; ret d).

(** *** File infos, cached by the engine's epochs *)

Definition resolveFileInfo (fileId : Z) : JS R (option DuckDBFileInfo) :=
  or_fail None
    (let! cached := gets (fun s => mget fileId (n_fileInfoCache s)) in
     let! r := in_module (callSRet "duckdb_web_fs_get_file_info_by_id"
                 [Arg_number fileId; Arg_number (from_option cacheEpoch 0 cached)]) in
     if negb (r.1.1 =? SUCCESS_CODE) then
       let! msg := in_module (readString r.1.2 r.2) in
       in_module (failWith_mod msg) ;;; ret None
     else if r.2 =? 0 then in_module dropResponseBuffers ;;; ret cached
     else
       let! infoStr := in_module (readString r.1.2 r.2) in
       in_module dropResponseBuffers ;;;
       let! info := n_lift (parse_file_info infoStr) in
       match info with
       | None => ret None
       | Some i => modify (fun s => set_n_cache (mset fileId i (n_fileInfoCache s)) s) ;;; ret (Some i)
       end).

(** *** Opening and closing *)

(** The result of an open: the size, and no data pointer. *)
Definition n_open_result (fd : Z) : JS R Z :=
  let! fileSize := in_world (fs_fstatSync_size fd) in
  let! result := in_module (_malloc 16) in
  in_module (set_HEAPF64 (shr32 result 3 + 0) (HN_int fileSize)) ;;;
  in_module (set_HEAPF64 (shr32 result 3 + 1) (HN_int 0)) ;;;
  ret result.

Definition open_native (file : DuckDBFileInfo) (flags : Z) : JS R Z :=
  let! known := gets (fun s => from_option (fun url => mget url (n_files s)) None (dataUrl file)) in
  match known with
  | Some fd => n_open_result fd
  | None =>
      if has_flag flags FILE_FLAGS_NULL_IF_NOT_EXISTS then ret 0
      else
        let! fd := in_world (fs_openSync (dataUrl file) (Z.lor O_CREAT O_RDWR) (Z.lor S_IRUSR S_IWUSR)) in
        modify (fun s => set_filesById (mset (fileId file) fd (_filesById s)) s) ;;;
        n_open_result fd
  end.

(** The cases of the [switch] over the file's protocol: native files are served by
    [m], the browser's and remote files are refused, and the others ignored. *)
Definition serve_native {A} (d : A) (file : option DuckDBFileInfo) (m : DuckDBFileInfo -> JS R A) : JS R A :=
  match file with
  | None => ret d
  | Some f =>
      match dataProtocol f with
      | NODE_FS => m f
      | BROWSER_FILEREADER | BROWSER_FSACCESS | HTTP | S3 =>
          in_module (failWith_mod "Unsupported data protocol") ;;; ret d
      | BUFFER => ret d
      end
  end.

Definition openFile (fileId flags : Z) : JS R Z :=
  or_fail 0
    (modify (fun s => set_n_cache (mdelete fileId (n_fileInfoCache s)) s) ;;;
     let! file := resolveFileInfo fileId in
     serve_native 0 file (fun f => open_native f flags)).

Definition closeFile (fileId : Z) : JS R Z :=
  or_fail 0
    (let! fileInfo := gets (fun s => mget fileId (n_fileInfoCache s)) in
     modify (fun s => set_n_cache (mdelete fileId (n_fileInfoCache s)) s) ;;;
     match fileInfo with
     | Some f =>
         match dataProtocol f with
         | NODE_FS =>
             let! fileHandle := gets (fun s => mget fileId (_filesById s)) in
             modify (fun s => set_filesById (mdelete fileId (_filesById s)) s) ;;;
             match fileHandle with
             | Some fd => in_world (fs_closeSync fd) ;;; ret 0
             | None => ret 0
             end
         | _ => ret 0
         end
     | None => ret 0
     end).

Definition truncateFile (fileId newSize : Z) : JS R Z :=
  or_fail 0
    (let! file := resolveFileInfo fileId in
     serve_native 0 file (fun f => in_world (fs_truncateSync (dataUrl f) newSize) ;;; ret 0)).

(** *** Reading and writing *)

(** The uses of a descriptor that an open must have left. *)
Definition with_descriptor {A} (d : A) (fileId : Z) (m : Z -> JS R A) : JS R A :=
  let! fileHandle := gets (fun s => mget fileId (_filesById s)) in
  match fileHandle with
  | None =>
      in_module (failWith_mod ("File " +:+ pretty fileId +:+ " is missing a file descriptor")) ;;; ret d
  | Some fd => m fd
  end.

(** [fs.readSync(fd, mod.HEAPU8, buf, bytes, location)] *)
Definition read_into_heap (fd buf bytes location : Z) : JS R Z := fun s =>
  match fs_readSync fd buf bytes location (state (n_mod s)) (n_world s) with
  | (o, m, w) => (o, set_n_world w (set_n_mod (MkModule m (trace (n_mod s))) s))
  end.

Definition readFile (fileId buf bytes location : Z) : JS R Z :=
  or_fail 0
    (let! file := resolveFileInfo fileId in
     serve_native 0 file (fun _ =>
       with_descriptor 0 fileId (fun fd => read_into_heap fd buf bytes location))).

Definition writeFile (fileId buf bytes location : Z) : JS R Z :=
  or_fail 0
    (let! file := resolveFileInfo fileId in
     serve_native 0 file (fun _ =>
       with_descriptor 0 fileId (fun fd =>
         let! src := in_module (heap_subarray buf bytes) in
         in_world (fs_writeSync fd src 0 (lenZ src) location)))).

Definition getLastFileModificationTime (fileId : Z) : JS R HeapNumber :=
  or_fail (HN_int 0)
    (let! file := resolveFileInfo fileId in
     serve_native (HN_int 0) file (fun _ =>
       with_descriptor (HN_int 0) fileId (fun fd =>
         let! ms := in_world (fs_fstatSync_mtime fd) in ret (HN_seconds ms)))).

Definition syncFile (_ : Z) : JS R unit := ret tt.
Definition n_dropFile (_ _ : Z) : JS R unit := ret tt.
Definition progressUpdate (_ _ _ : Z) : JS R unit := ret tt.

(** *** Paths *)

Definition checkDirectory (pathPtr pathLen : Z) : JS R bool :=
  or_fail false (let! path := in_module (readString pathPtr pathLen) in in_world (fs_existsSync path)).
Definition createDirectory (pathPtr pathLen : Z) : JS R unit :=
  or_fail tt (let! path := in_module (readString pathPtr pathLen) in in_world (fs_mkdirSync path)).
Definition removeDirectory (pathPtr pathLen : Z) : JS R unit :=
  or_fail tt (let! path := in_module (readString pathPtr pathLen) in in_world (fs_rmdirSync path)).
Definition listDirectoryEntries (_ _ : Z) : JS R bool :=
  in_module (failWith_mod "Not Implemented") ;;; ret false.
Definition glob (pathPtr pathLen : Z) : JS R unit :=
  or_fail tt
    (let! path := in_module (readString pathPtr pathLen) in
     let! entries := in_world (fg_sync path true) in
     for_of entries (fun entry =>
       in_module (ccall "duckdb_web_fs_glob_add_path" [Arg_string entry]) ;;; ret tt)).

(** The deletion takes the descriptor for the key of the map, so it removes nothing. *)
Definition moveFile (fromPtr fromLen toPtr toLen : Z) : JS R bool :=
  let! source := in_module (readString fromPtr fromLen) in
  let! target := in_module (readString toPtr toLen) in
  let! handle := gets (fun s => mget source (n_files s)) in
  match handle with
  | Some fd => modify (fun s => set_n_files (mset target fd (n_files s)) s)
  | None => ret tt
  end ;;;
  modify (fun s =>
    match list_find (fun e => dataUrl (snd e) = Some source) (n_fileInfoCache s) with
    | Some (_, (key, _)) => set_n_cache (mdelete key (n_fileInfoCache s)) s
    | None => s
    end) ;;;
  ret true.

Definition checkFile (pathPtr pathLen : Z) : JS R bool :=
  or_fail false (let! path := in_module (readString pathPtr pathLen) in in_world (fs_existsSync path)).
Definition removeFile (pathPtr pathLen : Z) : JS R unit :=
  or_fail tt (let! path := in_module (readString pathPtr pathLen) in in_world (fs_rmSync path)).
End Node.
