(* ===== verification/NodeFiles.v ===== *)
(** * NodeFiles: the Node runtime serves the files of the disk

    What the runtime relies on of [fs] is [NodeFSLaws]: a disk of names, contents and
    descriptors.  Over it the engine's files are descriptors by file id
    ([file_step]), and the runtime refines that, call by call. *)
From S2P Require Import Prelude Text Data Protocol JsMap WasmModule BindingsBase NodeRuntime.
From stdpp Require Import base tactics list gmap strings pretty.
From Stdlib Require Import ZArith Lia.
Open Scope Z_scope.

(** ** The disk *)

Record Disk := MkDisk {
  links : gmap string Z;          (** names *)
  contents : gmap Z bytes;        (** files, by inode *)
  descriptors : gmap Z Z          (** open descriptors *)
}.

(** The bytes [bs] at [pos], after zeroes where the content is shorter. *)
Definition write_at (c : bytes) (pos : Z) (bs : bytes) : bytes :=
  match bs with
  | [] => c
  | _ => take (Z.to_nat pos) (c ++ replicate (Z.to_nat pos - length c) 0) ++ bs ++ drop (Z.to_nat pos + length bs) c
  end.
Definition resize_to (c : bytes) (n : Z) : bytes :=
  take (Z.to_nat n) (c ++ replicate (Z.to_nat n - length c) 0).
Definition read_at (c : bytes) (pos len : Z) : bytes := subarray c pos (pos + len).

(** An open that creates the file if its name is new gives [fd] for the inode [ino]. *)
Definition opens (d : Disk) (path : string) (fd ino : Z) : Prop :=
  descriptors d !! fd = None /\
  (links d !! path = Some ino /\ is_Some (contents d !! ino) \/
   links d !! path = None /\ contents d !! ino = None).
Definition opened (d : Disk) (path : string) (fd ino : Z) : Disk :=
  MkDisk (<[path := ino]> (links d)) (<[ino := default [] (contents d !! ino)]> (contents d))
    (<[fd := ino]> (descriptors d)).
Definition with_content (d : Disk) (ino : Z) (c : bytes) : Disk :=
  MkDisk (links d) (<[ino := c]> (contents d)) (descriptors d).
Definition closed (d : Disk) (fd : Z) : Disk :=
  MkDisk (links d) (contents d) (delete fd (descriptors d)).
Definition content_of (d : Disk) (fd : Z) : option bytes :=
  descriptors d !! fd ≫= fun ino => contents d !! ino.

(** The calls that a disk may refuse, though there is something to do. *)
Inductive DiskCall := C_open (path : string) | C_truncate (path : string) | C_write (fd pos : Z).

(** What the calls do to the disk: a descriptor is new when it is opened, an open
    descriptor can be closed and measured, reads and writes through it are of the
    file's bytes at the position.  A call that fails changes nothing, and is one the
    disk may refuse (permissions, space, a directory: [may_refuse]), or truncates a
    name that is not there. *)
Class NodeFSLaws (M W : Type) `{DuckDBModule M} `{!NodeFS M W} := {
  disk : W -> Disk;
  may_refuse : Disk -> DiskCall -> Prop;
  open_law path w :
    match fs_openSync (Some path) (Z.lor O_CREAT O_RDWR) (Z.lor S_IRUSR S_IWUSR) w with
    | (Normal fd, w') => exists ino, opens (disk w) path fd ino /\ disk w' = opened (disk w) path fd ino
    | (Thrown _, w') => may_refuse (disk w) (C_open path) /\ disk w' = disk w
    end;
  fstat_law fd c w : content_of (disk w) fd = Some c ->
    exists w', fs_fstatSync_size fd w = (Normal (lenZ c), w') /\ disk w' = disk w;
  close_law fd w : is_Some (descriptors (disk w) !! fd) ->
    exists w', fs_closeSync fd w = (Normal tt, w') /\ disk w' = closed (disk w) fd;
  truncate_law path n w : 0 <= n ->
    match fs_truncateSync (Some path) n w with
    | (Normal _, w') => exists ino c, links (disk w) !! path = Some ino /\ contents (disk w) !! ino = Some c /\
                          disk w' = with_content (disk w) ino (resize_to c n)
    | (Thrown _, w') => (links (disk w) !! path = None \/ may_refuse (disk w) (C_truncate path)) /\ disk w' = disk w
    end;
  read_law fd buf len pos c m w : content_of (disk w) fd = Some c -> 0 <= len -> 0 <= pos ->
    (forall bs, lenZ bs <= len -> (m_write buf bs m).1 = Normal tt) ->
    exists w', fs_readSync fd buf len pos m w =
                 (Normal (lenZ (read_at c pos len)), (m_write buf (read_at c pos len) m).2, w') /\
               disk w' = disk w;
  write_law fd bs pos w ino c : descriptors (disk w) !! fd = Some ino -> contents (disk w) !! ino = Some c ->
    0 <= pos ->
    match fs_writeSync (M := M) fd bs 0 (lenZ bs) pos w with
    | (Normal n, w') => 0 <= n <= lenZ bs /\
                        disk w' = with_content (disk w) ino (write_at c pos (take (Z.to_nat n) bs))
    | (Thrown _, w') => may_refuse (disk w) (C_write fd pos) /\ disk w' = disk w
    end
}.

(** ** The specification: files by id *)

Record Files := MkFiles { f_disk : Disk; f_open : gmap Z Z }.

Inductive FileOp :=
| Open (id flags : Z)
| Close (id : Z)
| Truncate (id n : Z)
| Read (id buf len pos : Z)
| Write (id buf len pos : Z).

(** What the engine sees of a call. *)
Inductive Answer :=
| A_opened (size : Z)
| A_null
| A_read (bs : bytes)
| A_written (bs : bytes) (n : Z)    (** the bytes of the engine, and how many of them were taken *)
| A_done
| A_failed.                         (** reported with [duckdb_web_fail_with] *)

Section Spec.
Context (path_of : Z -> option string) (refusal : Disk -> DiskCall -> Prop).

Inductive file_step (f : Files) : FileOp -> Answer -> Files -> Prop :=
| S_open id flags path fd ino :
    path_of id = Some path -> has_flag flags FILE_FLAGS_NULL_IF_NOT_EXISTS = false ->
    opens (f_disk f) path fd ino ->
    file_step f (Open id flags) (A_opened (lenZ (default [] (contents (f_disk f) !! ino))))
      (MkFiles (opened (f_disk f) path fd ino) (<[id := fd]> (f_open f)))
| S_open_absent id flags path :
    path_of id = Some path -> has_flag flags FILE_FLAGS_NULL_IF_NOT_EXISTS = true ->
    links (f_disk f) !! path = None -> file_step f (Open id flags) A_null f
| S_open_overlooked id flags path :      (** the runtime does not look for the file on the disk *)
    path_of id = Some path -> has_flag flags FILE_FLAGS_NULL_IF_NOT_EXISTS = true ->
    is_Some (links (f_disk f) !! path) -> file_step f (Open id flags) A_null f
| S_open_refused id flags path :
    path_of id = Some path -> has_flag flags FILE_FLAGS_NULL_IF_NOT_EXISTS = false ->
    refusal (f_disk f) (C_open path) -> file_step f (Open id flags) A_failed f
| S_close id fd :
    f_open f !! id = Some fd ->
    file_step f (Close id) A_done (MkFiles (closed (f_disk f) fd) (delete id (f_open f)))
| S_close_again id : f_open f !! id = None -> file_step f (Close id) A_done f
| S_truncate id path n ino c :
    path_of id = Some path -> links (f_disk f) !! path = Some ino -> contents (f_disk f) !! ino = Some c ->
    file_step f (Truncate id n) A_done (MkFiles (with_content (f_disk f) ino (resize_to c n)) (f_open f))
| S_truncate_absent id n path :
    path_of id = Some path -> links (f_disk f) !! path = None -> file_step f (Truncate id n) A_failed f
| S_truncate_refused id n path :
    path_of id = Some path -> refusal (f_disk f) (C_truncate path) -> file_step f (Truncate id n) A_failed f
| S_read id buf len pos fd c :
    f_open f !! id = Some fd -> content_of (f_disk f) fd = Some c ->
    file_step f (Read id buf len pos) (A_read (read_at c pos len)) f
| S_read_closed id buf len pos :
    f_open f !! id = None -> file_step f (Read id buf len pos) A_failed f
| S_write id buf len pos fd ino c bs n :
    f_open f !! id = Some fd -> descriptors (f_disk f) !! fd = Some ino -> contents (f_disk f) !! ino = Some c ->
    0 <= n <= lenZ bs ->
    file_step f (Write id buf len pos) (A_written bs n)
      (MkFiles (with_content (f_disk f) ino (write_at c pos (take (Z.to_nat n) bs))) (f_open f))
| S_write_closed id buf len pos :
    f_open f !! id = None -> file_step f (Write id buf len pos) A_failed f
| S_write_refused id buf len pos fd :
    f_open f !! id = Some fd -> refusal (f_disk f) (C_write fd pos) -> file_step f (Write id buf len pos) A_failed f.

Inductive file_steps : Files -> list FileOp -> list Answer -> Files -> Prop :=
| FS_nil f : file_steps f [] [] f
| FS_cons f op a f1 ops l f2 :
    file_step f op a f1 -> file_steps f1 ops l f2 -> file_steps f (op :: ops) (a :: l) f2.
End Spec.

(** ** What holds of the specification *)

(** Descriptors held for the engine are open, of a file, and no two ids share one. *)
Record files_ok (f : Files) : Prop := {
  fo_content id fd : f_open f !! id = Some fd -> is_Some (content_of (f_disk f) fd);
  fo_inj id id' fd : f_open f !! id = Some fd -> f_open f !! id' = Some fd -> id = id'
}.

Lemma content_of_with_content d ino c fd :
  is_Some (content_of d fd) -> is_Some (content_of (with_content d ino c) fd).
Proof.
  unfold content_of. cbn. destruct (descriptors d !! fd) as [j|]; [|done]. cbn.
  intros Hc. destruct (decide (ino = j)) as [->|]; [rewrite lookup_insert_eq; eauto|by rewrite lookup_insert_ne].
Qed.

Lemma content_of_opened d path fd ino : opens d path fd ino ->
  content_of (opened d path fd ino) fd = Some (default [] (contents d !! ino)).
Proof. intros _. unfold content_of, opened. cbn. rewrite lookup_insert_eq. cbn. by rewrite lookup_insert_eq. Qed.

Lemma content_of_opened_ne d path fd ino fd' : fd' <> fd ->
  is_Some (content_of d fd') -> is_Some (content_of (opened d path fd ino) fd').
Proof.
  intros Hne. unfold content_of, opened. cbn. rewrite lookup_insert_ne by done.
  destruct (descriptors d !! fd') as [j|]; [|done]. cbn.
  destruct (decide (ino = j)) as [->|]; [rewrite lookup_insert_eq; eauto|by rewrite lookup_insert_ne].
Qed.

Lemma content_open d fd : is_Some (content_of d fd) -> is_Some (descriptors d !! fd).
Proof. unfold content_of. destruct (descriptors d !! fd); [eauto|by intros []]. Qed.

Lemma file_step_ok path_of refusal f op a f' : file_step path_of refusal f op a f' -> files_ok f -> files_ok f'.
Proof.
  intros Hs [Hc Hi]. destruct Hs as [id fl path fd ino Hp Hf Ho| | | |id fd Hid| | | | | | | | |]; try done.
  - assert (forall id' fd', f_open f !! id' = Some fd' -> fd' <> fd) as Hnew.
    { intros id' fd' Hid ->. destruct (content_open _ _ (Hc _ _ Hid)) as [j Hj]. destruct Ho as [Ho _]. congruence. }
    split; cbn.
    + intros id' fd' [[-> ->]|[Hne Hid]]%lookup_insert_Some; [rewrite content_of_opened by done; eauto|].
      apply content_of_opened_ne; eauto.
    + intros i1 i2 fd' [[<- <-]|[H1 H1']]%lookup_insert_Some [[<- E]|[H2 H2']]%lookup_insert_Some; try done;
        [by destruct (Hnew _ _ H2')|subst; by destruct (Hnew _ _ H1')|eauto].
  - split; cbn.
    + intros id' fd' [Hne Hid']%lookup_delete_Some. specialize (Hc _ _ Hid').
      assert (fd <> fd') by (intros ->; by apply Hne, (Hi _ _ fd')).
      unfold content_of, closed in *. cbn. by rewrite lookup_delete_ne.
    + intros i1 i2 fd' [_ H1]%lookup_delete_Some [_ H2]%lookup_delete_Some. eauto.
  - split; cbn; [|done]. intros. apply content_of_with_content. eauto.
  - split; cbn; [|done]. intros. apply content_of_with_content. eauto.
Qed.

(** ** The refinement *)

Definition FAIL : string := "duckdb_web_fail_with".
Definition quiet (t : list Event) : Prop :=
  Forall (fun e => match e with Ev_call name _ => name <> FAIL | _ => True end) t.
Definition reports (t : list Event) : Prop :=
  exists msg, last t = Some (Ev_call FAIL [Arg_string msg]).

Section Refines.
Context {M W : Type} `{DuckDBModule M} `{laws : !DuckDBModuleLaws M} `{!NodeFS M W} `{!NodeFSLaws M W}.
Context (parse_file_info : string -> Outcome (option DuckDBFileInfo)).
Context (infos : Z -> option DuckDBFileInfo) (mine : Z -> Z -> Prop).
Abbreviation R := (NodeRuntime M W).
Abbreviation refusal := (may_refuse (M := M) (W := W)).

(** The engine has [infos]: asked for a file it answers with its info, or with
    nothing if the epoch is the one it has; it leaves the buffers [mine] as they
    are, and accepts errors and the release of its response. *)
Record engine_knows : Prop := {
  ek_info id i e (s : Module M) : infos id = Some i ->
    match callSRet "duckdb_web_fs_get_file_info_by_id" [Arg_number id; Arg_number e] s with
    | (Normal r, s') =>
        r.1.1 = SUCCESS_CODE /\
        (r.2 = 0 /\ e = cacheEpoch i \/
         r.2 <> 0 /\ parse_file_info (utf8_decode (m_read r.1.2 r.2 (state s'))) = Normal (Some i)) /\
        forall p n, mine p n -> m_read p n (state s') = m_read p n (state s)
    | (Thrown _, _) => False
    end;
  ek_clear m : is_normal (m_ccall "duckdb_web_clear_response" [] m).1 = true /\
    forall p n, mine p n -> m_read p n (m_ccall "duckdb_web_clear_response" [] m).2 = m_read p n m;
  ek_fail msg m : is_normal (m_ccall FAIL [Arg_string msg] m).1 = true;
  ek_file id i : infos id = Some i ->
    cacheEpoch i <> 0 /\ fileId i = id /\ dataProtocol i = NODE_FS /\ is_Some (dataUrl i)
}.

Definition path_of (id : Z) : option string := infos id ≫= dataUrl.

Definition run (op : FileOp) : JS R Z :=
  match op with
  | Open id flags => openFile parse_file_info id flags
  | Close id => closeFile id
  | Truncate id n => truncateFile parse_file_info id n
  | Read id buf len pos => readFile parse_file_info id buf len pos
  | Write id buf len pos => writeFile parse_file_info id buf len pos
  end.

(** The calls of the engine: files it has, sizes and positions that are not
    negative, and buffers on the heap. *)
Definition op_ok (op : FileOp) : Prop :=
  match op with
  | Open id _ | Close id => is_Some (infos id)
  | Truncate id n => is_Some (infos id) /\ 0 <= n
  | Read id buf len pos => is_Some (infos id) /\ 0 <= len /\ 0 <= pos /\
      forall bs (m : M), lenZ bs <= len -> (m_write buf bs m).1 = Normal tt
  | Write id buf len pos => is_Some (infos id) /\ 0 <= pos /\ mine buf len
  end.

(** How a call shows an answer: in its value, the heap, and the calls it made. *)
Definition answered (op : FileOp) (s : R) (r : Outcome Z * R) (a : Answer) : Prop :=
  exists t, trace (n_mod r.2) = trace (n_mod s) ++ t /\
  match a with A_failed => reports t | _ => quiet t end /\
  match a with
  | A_opened size =>
      exists p t', r.1 = Normal p /\
        t = t' ++ [Ev_malloc p; Ev_f64 (shr32 p 3 + 0) (HN_int size); Ev_f64 (shr32 p 3 + 1) (HN_int 0)]
  | A_read bs => r.1 = Normal (lenZ bs) /\
      match op with Read _ buf _ _ => m_read buf (lenZ bs) (state (n_mod r.2)) = bs | _ => False end
  | A_written bs n => r.1 = Normal n /\
      match op with Write _ buf len _ => bs = m_read buf len (state (n_mod s)) | _ => False end
  | A_null | A_done | A_failed => r.1 = Normal 0
  end.

(** The runtime's state stands for [f]. *)
Record refines (f : Files) (s : R) : Prop := {
  rf_ok : files_ok f;
  rf_disk : disk (n_world s) = f_disk f;
  rf_open id : mget id (_filesById s) = f_open f !! id;
  rf_ids : NoDup (keys (_filesById s));
  rf_cache id i : mget id (n_fileInfoCache s) = Some i -> infos id = Some i;
  rf_keys : NoDup (keys (n_fileInfoCache s));
  rf_cached id : is_Some (f_open f !! id) -> is_Some (mget id (n_fileInfoCache s));
  rf_files : n_files s = []
}.

Context (Hek : engine_knows).

Lemma callSRet_trace name args (s : Module M) :
  is_normal (callSRet name args s).1 = true ->
  trace (callSRet name args s).2 = trace s ++ [Ev_call name (Arg_number (m_stackAlloc 24 (state s)).1 :: args)].
Proof.
  unfold callSRet, bind, gets, ccall, on_state, modify. cbn. destruct (m_stackAlloc 24 (state s)) as [p m]. cbn.
  by destruct (m_ccall _ _ m) as [[v|e] m'].
Qed.

Lemma fail_spec {A} (d : A) msg (s : R) :
  exists m, (in_module (failWith_mod msg) ;;; ret d) s = (Normal d, set_n_mod m s) /\
    trace m = trace (n_mod s) ++ [Ev_call FAIL [Arg_string msg]].
Proof using Hek.
  unfold in_module, zoom, failWith_mod, bind, ccall, ret. pose proof (ek_fail Hek msg (state (n_mod s))) as Hf.
  unfold FAIL in Hf. destruct (m_ccall _ _ _) as [[v|e] m]; [|done]. by eexists.
Qed.

Lemma or_fail_normal {A} (d : A) (m : JS R A) s a s' : m s = (Normal a, s') -> or_fail d m s = (Normal a, s').
Proof. intros E. unfold or_fail, try_catch. by rewrite E. Qed.

Lemma or_fail_thrown {A} (d : A) (m : JS R A) s e s' : m s = (Thrown e, s') ->
  exists m' msg, or_fail d m s = (Normal d, set_n_mod m' s') /\
    trace m' = trace (n_mod s') ++ [Ev_call FAIL [Arg_string msg]].
Proof using Hek.
  intros E. unfold or_fail, try_catch. rewrite E.
  destruct (fail_spec d (error_string e) s') as (m' & Hm & Ht). eauto.
Qed.

Lemma resolve_known id i (s : R) : infos id = Some i ->
  (forall j, mget id (n_fileInfoCache s) = Some j -> j = i) ->
  exists m t c, resolveFileInfo parse_file_info id s = (Normal (Some i), set_n_cache c (set_n_mod m s)) /\
    trace m = trace (n_mod s) ++ t /\ quiet t /\
    (c = mset id i (n_fileInfoCache s) \/ c = n_fileInfoCache s /\ mget id (n_fileInfoCache s) = Some i) /\
    forall p n, mine p n -> m_read p n (state m) = m_read p n (state (n_mod s)).
Proof using Hek.
  intros Hi Hc. unfold resolveFileInfo.
  set (e := from_option cacheEpoch 0 (mget id (n_fileInfoCache s))).
  pose proof (ek_info Hek id i e (n_mod s) Hi) as Hq.
  pose proof (callSRet_trace "duckdb_web_fs_get_file_info_by_id" [Arg_number id; Arg_number e] (n_mod s)) as Ht.
  destruct (callSRet _ _ (n_mod s)) as [[[[st d] n]|err] s1] eqn:Eq; [|done]. cbn in Hq, Ht. specialize (Ht eq_refl).
  destruct Hq as (-> & Hn & Hm). destruct (ek_clear Hek (state s1)) as [Hcl Hclm].
  destruct (m_ccall "duckdb_web_clear_response" [] (state s1)) as [[v|err] m2] eqn:Ec; [|done]. cbn in Hclm.
  set (t1 := [_]) in Ht.
  set (m := MkModule m2 ((trace (n_mod s) ++ t1) ++ [Ev_call "duckdb_web_clear_response" []])).
  exists m, (t1 ++ [Ev_call "duckdb_web_clear_response" []]),
    (if n =? 0 then n_fileInfoCache s else mset id i (n_fileInfoCache s)).
  assert (mget id (n_fileInfoCache s) = Some i \/ mget id (n_fileInfoCache s) = None) as Hcase.
  { destruct (mget id (n_fileInfoCache s)) as [j|] eqn:Ej; [left; f_equal; by apply Hc|by right]. }
  split; [|split; [unfold m; cbn [trace]; by rewrite app_assoc|]].
  - unfold or_fail, try_catch, bind at 1, gets at 1. fold e. unfold bind at 1, in_module at 1, zoom. rewrite Eq.
    cbn [fst snd]. rewrite Z.eqb_refl. cbn [negb].
    destruct (Z.eqb_spec n 0) as [->|Hne].
    + destruct Hn as [[_ He]|[? _]]; [|done].
      unfold bind, in_module, zoom, dropResponseBuffers, ccall, ret, bind. cbn. rewrite Ec. cbn.
      destruct Hcase as [->|Hnone]; [cbn; unfold note; by rewrite Ht|].
      unfold e in He. rewrite Hnone in He. cbn in He. by destruct (ek_file Hek id i Hi) as [? _].
    + destruct Hn as [[? _]|[_ Hp]]; [done|].
      unfold bind, in_module, zoom, readString, heap_subarray, dropResponseBuffers, ccall, gets, ret, bind, n_lift, modify.
      cbn. rewrite Ec. cbn. rewrite Hp. cbn. unfold note. by rewrite Ht.
  - split; [repeat constructor; discriminate|]. split.
    + destruct (Z.eqb_spec n 0) as [->|Hne]; [right|by left]. split; [done|].
      destruct Hcase as [|Hnone]; [done|]. destruct Hn as [[_ He]|[? _]]; [|done].
      unfold e in He. rewrite Hnone in He. cbn in He. by destruct (ek_file Hek id i Hi) as [? _].
    + intros p k Hp. cbn. by rewrite Hclm, Hm.
Qed.

(** ** Call by call *)

Definition asked (s s1 : R) : Prop :=
  (exists t, trace (n_mod s1) = trace (n_mod s) ++ t /\ quiet t) /\
  forall p n, mine p n -> m_read p n (state (n_mod s1)) = m_read p n (state (n_mod s)).

Definition serves (f : Files) (op : FileOp) (s : R) : Prop :=
  exists a f', file_step path_of refusal f op a f' /\ answered op s (run op s) a /\ refines f' (run op s).2.

(** The info of a file is resolved, also after its entry was dropped. *)
Lemma resolve_refines f s c0 id i : refines f s -> infos id = Some i ->
  c0 = n_fileInfoCache s \/ c0 = mdelete id (n_fileInfoCache s) ->
  exists s1, resolveFileInfo parse_file_info id (set_n_cache c0 s) = (Normal (Some i), s1) /\ asked s s1 /\
    refines f s1 /\ mget id (n_fileInfoCache s1) = Some i.
Proof using Hek.
  intros Hr Hi Hc0. pose proof (rf_keys _ _ Hr) as Hk.
  assert (forall id' j, mget id' c0 = Some j -> mget id' (n_fileInfoCache s) = Some j) as Hsub.
  { destruct Hc0 as [->| ->]; [done|]. intros id' j Hj. destruct (decide (id' = id)) as [->|Hne];
      [by rewrite mget_mdelete in Hj|by rewrite mget_mdelete_ne in Hj]. }
  assert (NoDup (keys c0)) as Hk0 by (destruct Hc0 as [->| ->]; [done|by apply NoDup_mdelete]).
  assert (forall id', id' <> id -> mget id' c0 = mget id' (n_fileInfoCache s)) as Hne.
  { destruct Hc0 as [->| ->]; [done|]. intros id' Hne. by apply mget_mdelete_ne. }
  destruct (resolve_known id i (set_n_cache c0 s) Hi) as (m & t & c & -> & Ht & Hq & Hc & Hm).
  { intros j Hj. apply Hsub, (rf_cache _ _ Hr) in Hj. congruence. }
  eexists. split; [reflexivity|]. split; [split; [eauto|done]|].
  assert (mget id c = Some i) as Eid by (destruct Hc as [->|[-> ?]]; [apply mget_mset|done]).
  assert (forall id', id' <> id -> mget id' c = mget id' (n_fileInfoCache s)) as Hcne.
  { intros id' Hid. rewrite <- Hne by done. destruct Hc as [->|[-> ?]]; [by apply mget_mset_ne|done]. }
  split; [|exact Eid]. destruct Hr as [Hok Hd Ho Hids Hca _ Hcd Hf]. split; try done.
  - intros id' j Hj. cbn in Hj. destruct (decide (id' = id)) as [->|Hn]; [congruence|]. rewrite Hcne in Hj by done. auto.
  - cbn. destruct Hc as [->|[-> ?]]; [by apply NoDup_mset|done].
  - intros id' Hid. cbn. destruct (decide (id' = id)) as [->|Hn]; [eauto|]. rewrite Hcne by done. auto.
Qed.

Lemma served {A} (d : A) f s id i k : refines f s -> infos id = Some i ->
  exists s1, or_fail d (let! file := resolveFileInfo parse_file_info id in serve_native d file k) s =
             or_fail d (k i) s1 /\ asked s s1 /\ refines f s1.
Proof using Hek.
  intros Hr Hi. destruct (resolve_refines f s (n_fileInfoCache s) id i Hr Hi (or_introl eq_refl)) as (s1 & E & Ha & Hr1 & _).
  exists s1. split; [|done]. replace (set_n_cache (n_fileInfoCache s) s) with s in E by (by destruct s).
  unfold or_fail, try_catch, bind at 1. rewrite E. cbn [serve_native].
  by destruct (ek_file Hek id i Hi) as (_ & _ & -> & _).
Qed.

(** A call that was reported and did nothing else to the files. *)
Lemma reported f op s s1 m t msg : refines f s1 -> asked s s1 -> trace m = trace (n_mod s1) ++ t ->
  last t = Some (Ev_call FAIL [Arg_string msg]) ->
  answered op s (Normal 0, set_n_mod m s1) A_failed /\ refines f (set_n_mod m s1).
Proof.
  intros Hr ((t1 & E1 & _) & _) Et Hl. split.
  - exists (t1 ++ t). cbn. rewrite Et, E1, app_assoc. split; [done|]. split; [|done].
    exists msg. rewrite last_app. by rewrite Hl.
  - by destruct Hr.
Qed.

Lemma refines_world f s w : refines f s -> disk w = f_disk f -> refines f (set_n_world w s).
Proof. by intros []. Qed.

Lemma refines_step f f' op a s w : refines f s -> file_step path_of refusal f op a f' -> f_open f' = f_open f ->
  disk w = f_disk f' -> refines f' (set_n_world w s).
Proof.
  intros [Hok Hd Ho Hids Hca Hk Hcd Hf] Hs Eo Ed. split; try done; rewrite ?Eo; try done.
  by eapply file_step_ok.
Qed.

Lemma quiet_answer op s s1 s' (o : Outcome Z) t a : asked s s1 -> trace (n_mod s') = trace (n_mod s1) ++ t -> quiet t ->
  a <> A_failed ->
  (forall t0, match a with
   | A_opened size =>
      exists p t', o = Normal p /\
        t0 ++ t = t' ++ [Ev_malloc p; Ev_f64 (shr32 p 3 + 0) (HN_int size); Ev_f64 (shr32 p 3 + 1) (HN_int 0)]
   | A_read bs => o = Normal (lenZ bs) /\
      match op with Read _ buf _ _ => m_read buf (lenZ bs) (state (n_mod s')) = bs | _ => False end
   | A_written bs n => o = Normal n /\
      match op with Write _ buf len _ => bs = m_read buf len (state (n_mod s)) | _ => False end
   | A_null | A_done | A_failed => o = Normal 0
   end) -> answered op s (o, s') a.
Proof.
  intros ((t1 & E1 & Hq1) & _) Et Hq Ha Ho. exists (t1 ++ t). cbn. rewrite Et, E1, app_assoc.
  split; [done|]. split; [|apply (Ho t1)]. destruct a; try done; by apply Forall_app.
Qed.

Lemma truncate_serves f s id n : refines f s -> op_ok (Truncate id n) -> serves f (Truncate id n) s.
Proof using Hek.
  intros Hr [[i Hi] Hn]. unfold serves. cbn [run]. unfold truncateFile.
  destruct (served 0 f s id i (fun f => in_world (fs_truncateSync (dataUrl f) n) ;;; ret 0) Hr Hi) as (s1 & -> & Ha & Hr1).
  destruct (ek_file Hek id i Hi) as (_ & _ & _ & [url Hu]). rewrite Hu.
  pose proof (truncate_law url n (n_world s1) Hn) as Hl. rewrite (rf_disk _ _ Hr1) in Hl.
  destruct (fs_truncateSync (Some url) n (n_world s1)) as [[[]|e] w] eqn:E.
  - destruct Hl as (ino & c & H1 & H2 & Hd). erewrite or_fail_normal
      by (unfold bind, in_world, zoom; rewrite E; reflexivity).
    assert (file_step path_of refusal f (Truncate id n) A_done (MkFiles (with_content (f_disk f) ino (resize_to c n)) (f_open f)))
      as Hs by (apply (S_truncate _ _ _ _ url); try done; unfold path_of; by rewrite Hi).
    eexists _, _. split; [exact Hs|]. split; [|by eapply refines_step].
    by eapply (quiet_answer _ _ s1 _ _ []); [|cbn; by rewrite app_nil_r|constructor| |].
  - destruct Hl as [Hl Hd]. assert (path_of id = Some url) as Hp by (unfold path_of; by rewrite Hi).
    destruct (or_fail_thrown 0 (in_world (fs_truncateSync (Some url) n) ;;; ret 0) s1 e (set_n_world w s1))
      as (m & msg & -> & Ht); [unfold bind, in_world, zoom; by rewrite E|].
    exists A_failed, f. split; [destruct Hl; [by eapply S_truncate_absent|by eapply S_truncate_refused]|].
    eapply (reported f _ s (set_n_world w s1)); [by apply refines_world|done|exact Ht|done].
Qed.

(** A failed call of a descriptor that is not there. *)
Lemma missing_descriptor f op s s1 (d : Z) id k :
  refines f s1 -> asked s s1 -> f_open f !! id = None -> d = 0 ->
  exists s2, or_fail d (with_descriptor d id k) s1 = (Normal d, s2) /\
    answered op s (Normal d, s2) A_failed /\ refines f s2.
Proof using Hek.
  intros Hr Ha Hid ->. unfold with_descriptor.
  destruct (fail_spec 0 ("File " +:+ pretty id +:+ " is missing a file descriptor") s1) as (m & E & Et).
  exists (set_n_mod m s1). split.
  - apply or_fail_normal. unfold bind at 1, gets. by rewrite (rf_open _ _ Hr), Hid, E.
  - by eapply (reported f op s s1).
Qed.

Lemma with_descriptor_open f s1 (d : Z) id fd k : refines f s1 -> f_open f !! id = Some fd ->
  or_fail d (with_descriptor d id k) s1 = or_fail d (k fd) s1.
Proof. intros Hr Hid. unfold or_fail, try_catch, with_descriptor, bind, gets. by rewrite (rf_open _ _ Hr), Hid. Qed.

Lemma read_serves f s id buf len pos : refines f s -> op_ok (Read id buf len pos) -> serves f (Read id buf len pos) s.
Proof using Hek laws.
  intros Hr ([i Hi] & Hlen & Hpos & Hheap). unfold serves. cbn [run]. unfold readFile.
  destruct (served 0 f s id i (fun _ => with_descriptor 0 id (fun fd => read_into_heap fd buf len pos)) Hr Hi)
    as (s1 & -> & Ha & Hr1).
  destruct (f_open f !! id) as [fd|] eqn:Ef.
  2: { destruct (missing_descriptor f (Read id buf len pos) s s1 0 id
         (fun fd => read_into_heap fd buf len pos) Hr1 Ha Ef eq_refl) as (s2 & -> & Han & Hr2).
       exists A_failed, f. split; [by constructor|]. by split. }
  rewrite (with_descriptor_open f s1 0 id fd) by done.
  destruct (fo_content _ (rf_ok _ _ Hr1) id fd Ef) as [c Hc].
  pose proof Hc as Hc1. rewrite <- (rf_disk _ _ Hr1) in Hc1.
  destruct (read_law fd buf len pos c (state (n_mod s1)) (n_world s1) Hc1 Hlen Hpos (fun bs => Hheap bs _)) as (w & E & Hd).
  set (bs := read_at c pos len) in *. set (m' := MkModule (m_write buf bs (state (n_mod s1))).2 (trace (n_mod s1))).
  erewrite (or_fail_normal _ _ _ _ (set_n_world w (set_n_mod m' s1))) by (unfold read_into_heap; by rewrite E).
  exists (A_read bs), f. split; [by apply (S_read _ _ _ _ _ _ _ fd c)|]. split.
  - eapply (quiet_answer _ _ s1 _ _ []); [done|cbn; by rewrite app_nil_r|constructor|done|].
    intros _. split; [done|]. cbn. apply read_write, Hheap. unfold bs, read_at, subarray, lenZ.
    rewrite length_take. lia.
  - rewrite (rf_disk _ _ Hr1) in Hd. apply refines_world; [|done]. by destruct Hr1.
Qed.

Lemma write_serves f s id buf len pos : refines f s -> op_ok (Write id buf len pos) -> serves f (Write id buf len pos) s.
Proof using Hek.
  intros Hr ([i Hi] & Hpos & Hmine). unfold serves. cbn [run]. unfold writeFile.
  destruct (served 0 f s id i (fun _ => with_descriptor 0 id (fun fd =>
         let! src := in_module (heap_subarray buf len) in
         in_world (fs_writeSync (M := M) fd src 0 (lenZ src) pos))) Hr Hi) as (s1 & -> & Ha & Hr1).
  destruct (f_open f !! id) as [fd|] eqn:Ef.
  2: { edestruct (missing_descriptor f (Write id buf len pos) s s1 0 id) as (s2 & -> & Han & Hr2); try done.
       exists A_failed, f. split; [by constructor|]. by split. }
  rewrite (with_descriptor_open f s1 0 id fd) by done.
  destruct (fo_content _ (rf_ok _ _ Hr1) id fd Ef) as [c Hc]. unfold content_of in Hc.
  destruct (descriptors (f_disk f) !! fd) as [ino|] eqn:Ed; [|done]. cbn in Hc.
  set (bs := m_read buf len (state (n_mod s1))).
  assert (bs = m_read buf len (state (n_mod s))) as Ebs by (by apply Ha).
  pose proof (write_law fd bs pos (n_world s1) ino c) as Hl. rewrite (rf_disk _ _ Hr1) in Hl.
  specialize (Hl Ed Hc Hpos).
  match goal with |- context [or_fail 0 ?m s1] => assert (m s1 =
    (let '(o, w) := fs_writeSync (M := M) fd bs 0 (lenZ bs) pos (n_world s1) in (o, set_n_world w s1))) as E
    by (by destruct s1) end.
  destruct (fs_writeSync fd bs 0 (lenZ bs) pos (n_world s1)) as [[n|e] w].
  - rewrite (or_fail_normal _ _ _ _ _ E). destruct Hl as [Hn Hd].
    assert (file_step path_of refusal f (Write id buf len pos) (A_written bs n) (MkFiles
      (with_content (f_disk f) ino (write_at c pos (take (Z.to_nat n) bs))) (f_open f))) as Hs by (by eapply S_write).
    eexists _, _. split; [exact Hs|]. split; [|by eapply refines_step].
    by eapply (quiet_answer _ _ s1 _ _ []); [|cbn; by rewrite app_nil_r|constructor| |].
  - destruct Hl as [Hl Hd]. destruct (or_fail_thrown 0 _ s1 e _ E) as (m & msg & -> & Ht).
    exists A_failed, f. split; [by eapply S_write_refused|].
    eapply (reported f _ s (set_n_world w s1)); [by apply refines_world|done|exact Ht|done].
Qed.

Lemma close_serves f s id : refines f s -> op_ok (Close id) -> serves f (Close id) s.
Proof using Hek.
  intros Hr [i Hi]. unfold serves. cbn [run].
  assert (forall j, mget id (n_fileInfoCache s) = Some j -> dataProtocol j = NODE_FS) as Hnode.
  { intros j Hj%(rf_cache _ _ Hr). by apply (ek_file Hek id j). }
  destruct Hr as [Hok Hd Ho Hids Hca Hk Hcd Hf].
  set (s1 := set_n_cache (mdelete id (n_fileInfoCache s)) s).
  set (s2 := set_filesById (mdelete id (_filesById s)) s1).
  assert (forall id' j, mget id' (mdelete id (n_fileInfoCache s)) = Some j -> infos id' = Some j) as Hca'.
  { intros id' j. destruct (decide (id' = id)) as [->|?];
      [by rewrite mget_mdelete by done|rewrite mget_mdelete_ne by done; apply Hca]. }
  assert (asked s s2) as Ha by (split; [exists []; split; [cbn; by rewrite app_nil_r|constructor]|done]).
  destruct (f_open f !! id) as [fd|] eqn:Ef.
  - destruct (Hcd id ltac:(eauto)) as [j Ej]. destruct (fo_content _ Hok id fd Ef) as [c Hc].
    destruct (close_law fd (n_world s)) as (w & E & Hw); [rewrite Hd; apply content_open; eauto|].
    assert (closeFile id s = (Normal 0, set_n_world w s2)) as ->.
    { unfold closeFile. apply or_fail_normal. unfold bind at 1, gets at 1. rewrite Ej.
      unfold bind at 1, modify at 1. rewrite (Hnode j Ej). unfold bind at 1, gets at 1. cbn [_filesById set_n_cache].
      rewrite Ho, Ef. unfold bind, modify, in_world, zoom. cbn. by rewrite E. }
    assert (file_step path_of refusal f (Close id) A_done (MkFiles (closed (f_disk f) fd) (delete id (f_open f)))) as Hs
      by (by constructor).
    exists A_done. eexists. split; [exact Hs|]. split.
    + by eapply (quiet_answer _ _ s2 _ _ []); [|cbn; by rewrite app_nil_r|constructor| |].
    + split; cbn; try done.
      * by eapply file_step_ok.
      * by rewrite Hw, Hd.
      * intros id'. destruct (decide (id' = id)) as [->|?];
          [by rewrite mget_mdelete, lookup_delete_eq|by rewrite mget_mdelete_ne, lookup_delete_ne].
      * by apply NoDup_mdelete.
      * by apply NoDup_mdelete.
      * intros id'. destruct (decide (id' = id)) as [->|?]; [rewrite lookup_delete_eq; by intros []|].
        rewrite lookup_delete_ne, mget_mdelete_ne by done. auto.
  - assert (closeFile id s = (Normal 0, s1) \/ closeFile id s = (Normal 0, s2)) as Hcl.
    { unfold closeFile. destruct (mget id (n_fileInfoCache s)) as [j|] eqn:Ej; [right|left]; apply or_fail_normal;
        unfold bind at 1, gets at 1; rewrite Ej; [|done].
      unfold bind at 1, modify at 1. rewrite (Hnode j eq_refl). unfold bind at 1, gets at 1. cbn [_filesById set_n_cache].
      by rewrite Ho, Ef. }
    exists A_done, f. split; [by constructor|].
    assert (answered (Close id) s (Normal 0, s2) A_done) as Hans
      by (by eapply (quiet_answer _ _ s2 _ _ []); [|cbn; by rewrite app_nil_r|constructor| |]).
    split; [by destruct Hcl as [-> | ->]|].
    assert (forall id', is_Some (f_open f !! id') -> is_Some (mget id' (mdelete id (n_fileInfoCache s)))) as Hcd'.
    { intros id' Hs. destruct (decide (id' = id)) as [->|?]; [rewrite Ef in Hs; by destruct Hs|].
      rewrite mget_mdelete_ne by done. auto. }
    assert (refines f s1) as Hr1 by (split; try done; by apply NoDup_mdelete).
    destruct Hcl as [-> | ->]; [done|]. destruct Hr1. split; try done; cbn.
    + intros id'. destruct (decide (id' = id)) as [->|?];
          [by rewrite mget_mdelete, Ef|by rewrite mget_mdelete_ne].
    + by apply NoDup_mdelete.
Qed.

(** The size that is stored for a descriptor just opened. *)
Lemma open_result_of fd c (s : R) : content_of (disk (n_world s)) fd = Some c ->
  exists p m w, n_open_result fd s = (Normal p, set_n_world w (set_n_mod m s)) /\ disk w = disk (n_world s) /\
    trace m = trace (n_mod s) ++
      [Ev_malloc p; Ev_f64 (shr32 p 3 + 0) (HN_int (lenZ c)); Ev_f64 (shr32 p 3 + 1) (HN_int 0)].
Proof.
  intros Hc. destruct (fstat_law fd c (n_world s) Hc) as (w & E & Hw).
  unfold n_open_result, bind at 1, in_world, zoom. rewrite E. unfold bind, in_module, zoom, _malloc, set_HEAPF64, ret.
  cbn. destruct (m_malloc 16 (state (n_mod s))) as [p m]. cbn.
  do 3 eexists. split; [reflexivity|]. split; [done|]. cbn. by rewrite <- !app_assoc.
Qed.

Lemma open_serves f s id flags : refines f s -> op_ok (Open id flags) -> serves f (Open id flags) s.
Proof using Hek.
  intros Hr [i Hi]. unfold serves. cbn [run]. destruct (ek_file Hek id i Hi) as (_ & Hid & Hnat & [url Hu]).
  destruct (resolve_refines f s _ id i Hr Hi (or_intror eq_refl)) as (s1 & E & Ha & Hr1 & Hcached).
  assert (openFile parse_file_info id flags s = or_fail 0 (open_native i flags) s1) as ->.
  { unfold openFile, or_fail, try_catch, bind at 1, modify at 1. unfold bind at 1. rewrite E. cbn [serve_native].
    by rewrite Hnat. }
  assert (path_of id = Some url) as Hp by (unfold path_of; by rewrite Hi).
  destruct (has_flag flags FILE_FLAGS_NULL_IF_NOT_EXISTS) eqn:Efl.
  - assert (open_native i flags s1 = (Normal 0, s1)) as En.
    { unfold open_native, bind at 1, gets at 1. rewrite (rf_files _ _ Hr1), Hu, Efl. done. }
    rewrite (or_fail_normal _ _ _ _ _ En). exists A_null, f. split; [|split; [|done]].
    { destruct (links (f_disk f) !! url) as [ino|] eqn:El; [eapply S_open_overlooked|eapply S_open_absent]; eauto. }
    by eapply (quiet_answer _ _ s1 _ _ []); [|by rewrite app_nil_r|constructor| |].
  - pose proof (open_law url (n_world s1)) as Hl. rewrite (rf_disk _ _ Hr1) in Hl.
    destruct (fs_openSync (Some url) _ _ (n_world s1)) as [[fd|e] w] eqn:Eo.
    + destruct Hl as (ino & Hop & Hw).
      set (s2 := set_filesById (mset id fd (_filesById s1)) (set_n_world w s1)).
      destruct (open_result_of fd (default [] (contents (f_disk f) !! ino)) s2) as (p & m & w' & E2 & Hw' & Et);
        [cbn; rewrite Hw; by apply content_of_opened|].
      assert (open_native i flags s1 = (Normal p, set_n_world w' (set_n_mod m s2))) as En.
      { unfold open_native, bind at 1, gets at 1. rewrite (rf_files _ _ Hr1), Hu, Efl. cbn [from_option mget].
        unfold bind at 1, in_world at 1, zoom. rewrite Eo. unfold bind at 1, modify at 1. rewrite Hid. exact E2. }
      rewrite (or_fail_normal _ _ _ _ _ En).
      assert (file_step path_of refusal f (Open id flags) (A_opened (lenZ (default [] (contents (f_disk f) !! ino))))
        (MkFiles (opened (f_disk f) url fd ino) (<[id := fd]> (f_open f)))) as Hs.
      { by apply S_open. }
      eexists _, _. split; [exact Hs|]. split.
      * eapply (quiet_answer _ _ s1); [done|exact Et|repeat constructor|done|]. intros t0. eauto.
      * destruct Hr1 as [Hok Hd Ho Hids Hca Hk Hcd Hf]. split; try done; cbn.
        -- by eapply file_step_ok.
        -- by rewrite Hw', <- Hw.
        -- intros id'. destruct (decide (id' = id)) as [->|?];
             [by rewrite mget_mset, lookup_insert_eq|by rewrite mget_mset_ne, lookup_insert_ne].
        -- by apply NoDup_mset.
        -- intros id'. destruct (decide (id' = id)) as [->|?]; [|rewrite lookup_insert_ne by done; auto].
           rewrite Hcached. eauto.
    + destruct Hl as [Hl Hd]. destruct (or_fail_thrown 0 (open_native i flags) s1 e (set_n_world w s1)) as (m & msg & -> & Ht).
      { unfold open_native, bind at 1, gets at 1. rewrite (rf_files _ _ Hr1), Hu, Efl. cbn [from_option mget].
        unfold bind at 1, in_world at 1, zoom. by rewrite Eo. }
      exists A_failed, f. split; [by eapply S_open_refused|].
      eapply (reported f _ s (set_n_world w s1)); [by apply refines_world|done|exact Ht|done].
Qed.

Lemma run_serves f s op : refines f s -> op_ok op -> serves f op s.
Proof using Hek laws.
  destruct op; [apply open_serves|apply close_serves|apply truncate_serves|apply read_serves|apply write_serves].
Qed.

Definition final (ops : list FileOp) (s : R) : R := foldl (fun s op => (run op s).2) s ops.

(** Each call of a sequence shows its answer. *)
Fixpoint shows (s : R) (ops : list FileOp) (l : list Answer) : Prop :=
  match ops, l with
  | [], [] => True
  | op :: ops, a :: l => answered op s (run op s) a /\ shows (run op s).2 ops l
  | _, _ => False
  end.

Lemma runs_serve ops f s : refines f s -> Forall op_ok ops ->
  exists l f', file_steps path_of refusal f ops l f' /\ shows s ops l /\ refines f' (final ops s).
Proof using Hek laws.
  revert f s. induction ops as [|op ops IH]; intros f s Hr Hops; [exists [], f; split; [constructor|done]|].
  apply Forall_cons in Hops as [Hop Hops]. destruct (run_serves f s op Hr Hop) as (a & f1 & Hs & Ha & Hr1).
  destruct (IH f1 _ Hr1 Hops) as (l & f2 & Hss & Hl & Hr2).
  exists (a :: l), f2. split; [by econstructor|]. by split.
Qed.
End Refines.

(** ** Brackets: no file is opened twice, and every one is closed *)

Definition open_after (open : gset Z) (op : FileOp) : gset Z :=
  match op with Open id _ => {[id]} ∪ open | Close id => open ∖ {[id]} | _ => open end.
Definition reopens (open : gset Z) (op : FileOp) : bool :=
  match op with Open id _ => bool_decide (id ∈ open) | _ => false end.
Fixpoint bracketed (open : gset Z) (ops : list FileOp) : bool :=
  match ops with
  | [] => bool_decide (open = ∅)
  | op :: ops => negb (reopens open op) && bracketed (open_after open op) ops
  end.

(** Apart from the descriptors held for the engine, the open ones are [base]. *)
Record holds_over (base : gmap Z Z) (f : Files) : Prop := {
  ho_others fd : (forall id, f_open f !! id <> Some fd) -> descriptors (f_disk f) !! fd = base !! fd;
  ho_held id fd : f_open f !! id = Some fd -> base !! fd = None
}.

Lemma holds_over_step path_of refusal base open f op a f' :
  file_step path_of refusal f op a f' -> files_ok f -> holds_over base f -> dom (f_open f) ⊆ open -> reopens open op = false ->
  holds_over base f' /\ dom (f_open f') ⊆ open_after open op.
Proof.
  intros Hs [Hc Hi] [Ho Hh] Hd Hre.
  destruct Hs as [id fl path fd ino Hp Hf Hop| | | |id fd Hid|id Hid| | | | | | | |]; cbn in *;
    try (split; [by split|done]).
  - apply bool_decide_eq_false in Hre.
    assert (f_open f !! id = None) as Hnone by (apply not_elem_of_dom; set_solver).
    assert (forall id', f_open f !! id' <> Some fd) as Hnew.
    { intros id' Hid. destruct (content_open _ _ (Hc _ _ Hid)) as [j Hj]. destruct Hop as [Hop _]. congruence. }
    split; [|rewrite dom_insert; set_solver]. split; cbn.
    + intros fd' Hfd'. assert (fd' <> fd) as Hne.
      { intros ->. apply (Hfd' id). by rewrite lookup_insert_eq. }
      rewrite lookup_insert_ne by done. apply Ho. intros id' Hid'. destruct (decide (id' = id)) as [->|]; [congruence|].
      apply (Hfd' id'). by rewrite lookup_insert_ne.
    + intros id' fd' [[-> ->]|[? Hid']]%lookup_insert_Some; [|eauto]. rewrite <- Ho by done. by destruct Hop.
  - split; [by split|]. intros j Hj. apply elem_of_union_r, Hd, Hj.
  - split; [by split|]. intros j Hj. apply elem_of_union_r, Hd, Hj.
  - split; [by split|]. intros j Hj. apply elem_of_union_r, Hd, Hj.
  - split; [|rewrite dom_delete; set_solver]. split; cbn.
    + intros fd' Hfd'. destruct (decide (fd' = fd)) as [->|Hne]; [rewrite lookup_delete_eq; symmetry; eauto|].
      rewrite lookup_delete_ne by done. apply Ho. intros id' Hid'. apply (Hfd' id').
      rewrite lookup_delete_ne; [done|]. intros ->. congruence.
    + intros id' fd' [_ Hid']%lookup_delete_Some. eauto.
  - split; [by split|]. intros j Hj. apply elem_of_difference. split; [by apply Hd|].
    intros ->%elem_of_singleton. apply elem_of_dom in Hj as [? Hj]. congruence.
Qed.

Lemma brackets_restore path_of refusal base ops open f l f' :
  file_steps path_of refusal f ops l f' -> files_ok f -> holds_over base f -> dom (f_open f) ⊆ open ->
  bracketed open ops = true -> descriptors (f_disk f') = base /\ f_open f' = ∅.
Proof.
  intros Hs. revert open. induction Hs as [f|f op a f1 ops l f2 Hop Hs IH]; intros open Hok Hh Hd Hb; cbn in Hb.
  - apply bool_decide_eq_true in Hb as ->. assert (f_open f = ∅) as He by (apply dom_empty_inv_L; set_solver).
    split; [|done]. apply map_eq. intros fd. apply (ho_others _ _ Hh). intros id. by rewrite He, lookup_empty.
  - apply andb_true_iff in Hb as [Hre%negb_true_iff Hb].
    destruct (holds_over_step _ _ _ _ _ _ _ _ Hop Hok Hh Hd Hre) as [Hh1 Hd1].
    eapply IH; [by eapply file_step_ok|done..].
Qed.

(** ** Reading back what was written *)

Lemma read_write_at c pos bs : 0 <= pos -> read_at (write_at c pos bs) pos (lenZ bs) = bs.
Proof.
  intros Hp. unfold read_at, subarray, lenZ. replace (Z.to_nat (pos + Z.of_nat (length bs) - pos)) with (length bs) by lia.
  destruct bs as [|b bs]; [apply take_0|]. unfold write_at. set (l := b :: bs).
  rewrite drop_app_length'; [apply take_app_length'; done|]. rewrite length_take, length_app, length_replicate. lia.
Qed.


(** Descriptors are not leaked: from a runtime without open files, after any
    sequence of calls that opens no file that is open and closes every file it
    tried to open, whatever else it does and whichever calls fail, the open
    descriptors of the process are those from before, and the runtime holds none. *)
Theorem descriptors_are_given_back {M W} `{DuckDBModuleLaws M} `{!NodeFS M W} `{!NodeFSLaws M W}
    parse_file_info infos mine ops d (s : NodeRuntime M W) :
  engine_knows (M := M) parse_file_info infos mine -> refines infos (MkFiles d ∅) s ->
  Forall (op_ok (M := M) infos mine) ops -> bracketed ∅ ops = true ->
  let s' := final parse_file_info ops s in
  descriptors (disk (n_world s')) = descriptors (disk (n_world s)) /\ _filesById s' = [].
Proof.
  intros Hek Hr Hops Hb. cbv zeta.
  destruct (runs_serve parse_file_info infos mine Hek ops _ s Hr Hops) as (l & f' & Hs & _ & Hr').
  assert (holds_over (descriptors d) (MkFiles d ∅)) as Hh by (by split).
  destruct (brackets_restore _ _ _ _ ∅ _ _ _ Hs (rf_ok _ _ _ Hr) Hh ltac:(by intros id; rewrite elem_of_dom; intros []) Hb) as [Ed Eo].
  rewrite (rf_disk _ _ _ Hr), (rf_disk _ _ _ Hr'). split; [done|].
  destruct (_filesById _) as [|[id fd] ids] eqn:E; [done|].
  pose proof (rf_open _ _ _ Hr' id) as Hid. rewrite E, Eo, lookup_empty in Hid. cbn in Hid. by rewrite decide_True in Hid.
Qed.

(** What was written is read back: if a write to an open file took all of the
    buffer, a read of that file at that position then delivers the same bytes, to
    any buffer that takes them. *)
Theorem written_bytes_are_read_back {M W} `{DuckDBModuleLaws M} `{!NodeFS M W} `{!NodeFSLaws M W}
    parse_file_info infos mine id buf buf' len pos f (s : NodeRuntime M W) :
  engine_knows (M := M) parse_file_info infos mine -> refines infos f s ->
  op_ok (M := M) infos mine (Write id buf len pos) -> op_ok (M := M) infos mine (Read id buf' len pos) -> 0 < len ->
  let w := run parse_file_info (Write id buf len pos) s in
  let r := run parse_file_info (Read id buf' len pos) w.2 in
  w.1 = Normal len ->
  r.1 = Normal len /\ m_read buf' len (state (n_mod r.2)) = m_read buf len (state (n_mod s)).
Proof.
  intros Hek Hr Hw Hrd Hlen. cbv zeta. intros E.
  destruct (run_serves parse_file_info infos mine Hek f s _ Hr Hw) as (a & f1 & Hs & Ha & Hr1).
  destruct (run_serves parse_file_info infos mine Hek f1 _ _ Hr1 Hrd) as (a2 & f2 & Hs2 & Ha2 & _).
  destruct Ha as (t & _ & _ & Ha). destruct Ha2 as (t2 & _ & _ & Ha2).
  inversion Hs as [| | | | | | | | | | |? ? ? ? fd ino c bs n Hid Hfd Hino Hn| |]; subst; rewrite E in Ha;
    [|injection Ha as ->; lia..].
  destruct Ha as [[= <-] ->]. pose proof (read_length buf len (state (n_mod s))).
  assert (lenZ (m_read buf len (state (n_mod s))) = len) as El by lia.
  inversion Hs2 as [| | | | | | | | |? ? ? ? fd' c' Hid' Hc'|? ? ? ? Hid'| | |]; subst; cbn in Hid'; [|congruence].
  rewrite Hid in Hid'. injection Hid' as <-. unfold content_of in Hc'. cbn in Hc'. rewrite Hfd in Hc'. cbn in Hc'.
  rewrite lookup_insert_eq in Hc'. injection Hc' as <-.
  rewrite take_ge in Ha2 by (unfold lenZ in El; lia).
  pose proof (read_write_at c pos (m_read buf len (state (n_mod s)))) as Hrw. rewrite El in Hrw.
  rewrite Hrw, El in Ha2 by (by destruct Hw as (_ & ? & _)). exact Ha2.
Qed.
