(* ===== verification/NodeSample.v ===== *)
(** * NodeSample: a small disk, and an engine that knows two files

    The instance of [NodeFSLaws] on which the witnesses of [NodeFiles] run, and
    what the runtime does on it where a file is reopened or renamed. *)
From S2P Require Import Prelude Text Data Protocol JsMap WasmModule BindingsBase SampleModule NodeRuntime NodeFiles.
From stdpp Require Import base tactics list gmap strings pretty.
From Stdlib Require Import ZArith Lia.
Open Scope Z_scope.

(** ** The disk *)

Definition fresh_above {A} (m : gmap Z A) : Z := 1 + map_fold (fun k _ a => Z.max k a) 2 m.

Lemma fresh_above_new {A} (m : gmap Z A) : m !! fresh_above m = None.
Proof.
  unfold fresh_above. cut (forall k, is_Some (m !! k) -> k <= map_fold (fun k _ a => Z.max k a) 2 m).
  { intros Hle. destruct (m !! _) eqn:E; [|done]. specialize (Hle _ (mk_is_Some _ _ E)). lia. }
  apply (map_fold_weak_ind (fun r (m : gmap Z A) => forall k, is_Some (m !! k) -> k <= r)).
  - intros k. rewrite lookup_empty. by intros [].
  - intros i x m' r Hi IH k Hk. destruct (decide (k = i)) as [->|Hne]; [lia|].
    rewrite lookup_insert_ne in Hk by done. specialize (IH _ Hk). lia.
Qed.

Definition fs_error (msg : string) : JsError := MkError "Error" msg None.
Definition disk_open (path : option string) (_ _ : Z) : JS Disk Z := fun d =>
  match path with
  | None => (Thrown (fs_error "path"), d)
  | Some p =>
      let fd := fresh_above (descriptors d) in
      match links d !! p with
      | Some ino => match contents d !! ino with
                    | Some _ => (Normal fd, opened d p fd ino)
                    | None => (Thrown (fs_error "EIO"), d)
                    end
      | None => (Normal fd, opened d p fd (fresh_above (contents d)))
      end
  end.
Definition on_content {A} (fd : Z) (k : Z -> bytes -> JS Disk A) : JS Disk A := fun d =>
  match descriptors d !! fd with
  | Some ino => match contents d !! ino with Some c => k ino c d | None => (Thrown (fs_error "EIO"), d) end
  | None => (Thrown (fs_error "EBADF"), d)
  end.

#[export] Instance sample_fs {M} `{DuckDBModule M} : NodeFS M Disk := {|
  O_CREAT := 64; O_RDWR := 2; S_IRUSR := 256; S_IWUSR := 128;
  fs_openSync := disk_open;
  fs_fstatSync_size fd := on_content fd (fun _ c => ret (lenZ c));
  fs_fstatSync_mtime fd := on_content fd (fun _ _ => ret 0);
  fs_closeSync fd d := match descriptors d !! fd with
                       | Some _ => (Normal tt, closed d fd)
                       | None => (Thrown (fs_error "EBADF"), d)
                       end;
  fs_truncateSync path n d :=
    match path ≫= fun p => links d !! p with
    | Some ino => match contents d !! ino with
                  | Some c => (Normal tt, with_content d ino (resize_to c n))
                  | None => (Thrown (fs_error "EIO"), d)
                  end
    | None => (Thrown (fs_error "ENOENT"), d)
    end;
  fs_readSync fd buf len pos m d :=
    match content_of d fd with
    | Some c => let bs := read_at c pos len in
                match m_write buf bs m with
                | (Normal _, m') => (Normal (lenZ bs), m', d)
                | (Thrown e, _) => (Thrown e, m, d)
                end
    | None => (Thrown (fs_error "EBADF"), m, d)
    end;
  fs_writeSync fd bs _ _ pos := on_content fd (fun ino c d =>
    (Normal (lenZ bs), with_content d ino (write_at c pos bs)));
  fs_existsSync p := gets (fun d => bool_decide (is_Some (links d !! p)));
  fs_mkdirSync _ := ret tt; fs_rmdirSync _ := ret tt;
  fs_rmSync p := modify (fun d => MkDisk (delete p (links d)) (contents d) (descriptors d));
  fg_sync _ _ := ret []
|}.

(** This disk refuses nothing but a name whose file is not there. *)
Definition lost_content (d : Disk) (c : DiskCall) : Prop :=
  match c with
  | C_open path | C_truncate path => exists ino, links d !! path = Some ino /\ contents d !! ino = None
  | C_write _ _ => False
  end.

#[export] Instance sample_fs_laws {M} `{DuckDBModule M} : NodeFSLaws M Disk.
Proof.
  refine {| disk := fun d : Disk => d; may_refuse := lost_content |}; cbn.
  - intros path d. unfold disk_open. pose proof (fresh_above_new (descriptors d)) as Hfd.
    pose proof (fresh_above_new (contents d)) as Hino.
    destruct (links d !! path) as [ino|] eqn:El; [destruct (contents d !! ino) as [c|] eqn:Ec; [|eauto]|];
      eexists; (split; [|reflexivity]); split; eauto.
  - intros fd c d. unfold content_of, on_content. destruct (descriptors d !! fd) as [ino|]; [|done]. cbn.
    intros ->. eexists. by split.
  - intros fd d [ino ->]. by eexists.
  - intros path n d Hn. destruct (links d !! path) as [ino|]; [|by eauto].
    destruct (contents d !! ino) as [c|] eqn:Ec; [|by eauto].
    exists ino, c. done.
  - intros fd buf len pos c m d -> Hl Hp Hw.
    pose proof (Hw (read_at c pos len) ltac:(unfold read_at, subarray, lenZ; rewrite length_take; lia)) as Ew.
    destruct (m_write _ _ m) as [[[]|e] m']; [|done]. eexists. by split.
  - intros fd bs pos d ino c Hd Hc Hp. unfold on_content. rewrite Hd, Hc. pose proof (lenZ_nonneg bs).
    split; [lia|]. by rewrite take_ge by (unfold lenZ; lia).
Defined.

(** ** The engine *)

Definition node_info (id : Z) : DuckDBFileInfo :=
  {| cacheEpoch := 1; fileId := id; fileName := "n"; dataProtocol := NODE_FS;
     dataUrl := Some (if id =? 1 then "/a"%string else "/b"%string);
     reliableHeadRequests := None; allowFullHttpReads := None; forceFullHttpReads := None; s3Config := None |}.
Definition node_infos (id : Z) : option DuckDBFileInfo :=
  if (id =? 1) || (id =? 2) then Some (node_info id) else None.

(** The info of a file is its id, as one byte. *)
Definition node_parse (text : string) : Outcome (option DuckDBFileInfo) :=
  match utf8_encode text with
  | [id] => Normal (Some (node_info id))
  | _ => Thrown (MkError "SyntaxError" "" None)
  end.
Definition node_ccall (name : string) (args : list WasmArg) (m : Sample) : Outcome Z * Sample :=
  match args with
  | [Arg_number r; Arg_number id; Arg_number e] =>
      if (id =? 1) || (id =? 2) then (Normal 0, respond r 0 (if e =? 1 then [] else [id]) m)
      else (Normal 0, respond r 1 (utf8_encode "unknown file") m)
  | _ => (Normal 0, m)
  end.

#[export] Instance node_module : DuckDBModule Sample := {|
  m_malloc := m_malloc; m_free := m_free; m_read := m_read; m_write := m_write; m_write32 := m_write32;
  m_lengthBytesUTF8 := m_lengthBytesUTF8 (M := Sample); m_stringToUTF8 := m_stringToUTF8; m_f64 := m_f64; m_set_f64 := m_set_f64;
  m_stackSave := m_stackSave; m_stackAlloc := m_stackAlloc; m_stackRestore := m_stackRestore;
  m_ccall := node_ccall
|}.

#[export] Instance node_laws : DuckDBModuleLaws Sample.
Proof.
  split; cbn.
  - intros. apply sample_read_store.
  - intros. unfold sample_read, lenZ. rewrite length_fmap, length_seqZ. lia.
  - done.
  - done.
  - done.
Qed.

(** Buffers below the engine's responses. *)
Definition below_responses (p n : Z) : Prop := p + n <= 8000.

Lemma sample_read_below p n bs h m : p + n <= 8000 ->
  sample_read p n (with_heap (heap_store 8000 bs h) m) = sample_read p n (with_heap h m).
Proof.
  intros Hp. unfold sample_read. cbn. apply list_fmap_ext. intros i x Hx%list_elem_of_lookup_2%elem_of_seqZ.
  by rewrite heap_store_lookup, decide_False by lia.
Qed.

Lemma node_engine : engine_knows (M := Sample) node_parse node_infos below_responses.
Proof.
  split; try done.
  - intros id i e s Hi. unfold node_infos in Hi.
    unfold callSRet, bind, gets, ccall, on_state, modify, ret. cbn.
    destruct ((id =? 1) || (id =? 2)) eqn:Eid; [|done]. injection Hi as <-. cbn.
    set (r := shr32 (stack (state s) - 24) 3). replace (r + 0) with r by lia.
    rewrite lookup_insert_eq, !(lookup_insert_ne _ r) by lia. rewrite !lookup_insert_eq.
    rewrite (lookup_insert_ne _ (r + 1)) by lia. rewrite lookup_insert_eq. cbn. split; [done|]. split.
    + destruct (Z.eqb_spec e 1) as [->|He]; [by left|right]. split; [done|].
      match goal with |- context [sample_read 8000 _ ?m] =>
        change m with (with_heap (heap_store 8000 [id] (heap (state s))) m) end.
      rewrite sample_read_store. by apply orb_true_iff in Eid as [->%Z.eqb_eq| ->%Z.eqb_eq].
    + intros p n Hp. exact (sample_read_below p n _ (heap (state s)) (state s) Hp).
  - intros id i. unfold node_infos. destruct (_ || _); [|done]. intros [= <-]. cbn. by eauto.
Qed.

Definition node_runtime (m : Sample) (d : Disk) : NodeRuntime Sample Disk :=
  MkNodeRuntime (MkModule m []) d [] [] [].
(** A file [/b] of four bytes, and a descriptor that is not the runtime's. *)
Definition node_disk : Disk := MkDisk {["/b"%string := 7]} {[7 := [1; 2; 3; 4]]} {[3 := 7]}.
Definition node_heap : Sample := with_heap (heap_store 100 [10; 20; 30] ∅) sample_engine.

Lemma node_refines m d : refines node_infos (MkFiles d ∅) (node_runtime m d).
Proof. split; try done; [apply NoDup_nil_2|apply NoDup_nil_2|by intros id []]. Qed.

Lemma node_write_any p bs m : (m_write (M := Sample) p bs m).1 = Normal tt.
Proof. done. Qed.

Ltac node_ops := repeat (apply Forall_cons; split; [cbn; unfold below_responses; repeat split; eauto; lia|]); constructor.

Definition node_session : list FileOp :=
  [Open 2 1; Open 1 9; Write 1 100 3 2; Read 1 200 9 0; Truncate 2 2; Read 2 300 5 1; Close 2; Read 2 300 5 0; Close 1].


Lemma descriptors_are_given_back_witness :
  let s' := final node_parse node_session (node_runtime node_heap node_disk) in
  descriptors (disk (n_world s')) = descriptors node_disk /\ _filesById s' = [].
Proof.
  exact (descriptors_are_given_back node_parse node_infos below_responses node_session node_disk
    (node_runtime node_heap node_disk) node_engine (node_refines node_heap node_disk)
    ltac:(unfold node_session; node_ops) eq_refl).
Defined.

Lemma written_bytes_are_read_back_witness :
  let d := opened node_disk "/a" 4 8 in
  let s := MkNodeRuntime (MkModule node_heap []) d [] [(1, 4)] [(1, node_info 1)] in
  let w := run node_parse (Write 1 100 3 2) s in
  let r := run node_parse (Read 1 200 3 2) w.2 in
  m_read 100 3 node_heap = [10; 20; 30] /\
  r.1 = Normal 3 /\ m_read 200 3 (state (n_mod r.2)) = m_read 100 3 node_heap.
Proof.
  intros d s w r. split; [vm_compute; reflexivity|].
  assert (refines node_infos (MkFiles d {[1 := 4]}) s) as Hr.
  { split; try done.
    - split; cbn.
      + intros id fd [<- <-]%lookup_singleton_Some. vm_compute. eauto.
      + intros i1 i2 fd [<- _]%lookup_singleton_Some [<- _]%lookup_singleton_Some. done.
    - intros id. cbn. case_decide as E; [subst; by rewrite lookup_singleton_eq|by rewrite lookup_singleton_ne].
    - apply NoDup_singleton.
    - intros id i. cbn. case_decide; [|done]. subst. by intros [= <-].
    - apply NoDup_singleton.
    - intros id [fd Hfd]. cbn in Hfd. apply lookup_singleton_Some in Hfd as [<- _]. vm_compute. eauto. }
  apply (written_bytes_are_read_back node_parse node_infos below_responses 1 100 200 3 2 (MkFiles d {[1 := 4]}) s).
  - exact node_engine.
  - exact Hr.
  - cbn. unfold below_responses. repeat split; eauto; lia.
  - cbn. repeat split; eauto; lia.
  - lia.
  - vm_compute. reflexivity.
Defined.

(** ** What is not given back *)

(** Opening a file id again drops its first descriptor without closing it. *)
Lemma reopening_leaks_a_descriptor :
  descriptors (n_world (final node_parse [Open 1 1; Open 1 1; Close 1] (node_runtime node_heap node_disk))) =
    {[3 := 7; 4 := 8]}.
Proof. vm_compute. reflexivity. Qed.

(** A file that is renamed while it is open loses its cached info, which the close
    looks for: its descriptor stays open, and nothing is renamed on the disk. *)
Lemma renaming_leaks_a_descriptor :
  let m := with_heap (heap_store 100 (utf8_encode "/b") (heap_store 110 (utf8_encode "/c") ∅)) sample_engine in
  let s := final node_parse [Open 2 1] (node_runtime m node_disk) in
  let r := moveFile 100 2 110 2 s in
  let s' := final node_parse [Close 2] r.2 in
  r.1 = Normal true /\ links (n_world s') = {["/b"%string := 7]} /\
  descriptors (n_world s') = {[3 := 7; 4 := 7]} /\ _filesById s' = [(2, 4)].
Proof. vm_compute. repeat split. Qed.

(** A descriptor found among the registered files is not kept by id, so that a file
    opened with it cannot be read. *)
Lemma registered_descriptors_cannot_be_read :
  let s := set_n_files [("/b"%string, 3)] (node_runtime node_heap node_disk) in
  let o := openFile node_parse 2 1 s in
  let r := readFile node_parse 2 200 4 0 o.2 in
  o.1 = Normal 16 /\ r.1 = Normal 0 /\
  last (trace (n_mod r.2)) = Some (Ev_call FAIL [Arg_string "File 2 is missing a file descriptor"]).
Proof. vm_compute. repeat split. Qed.

(** A file that exists is not found with [FILE_FLAGS_NULL_IF_NOT_EXISTS]. *)
Lemma existing_files_are_not_found :
  (openFile node_parse 2 (Z.lor 1 FILE_FLAGS_NULL_IF_NOT_EXISTS) (node_runtime node_heap node_disk)).1 = Normal 0 /\
  (fs_existsSync (M := Sample) "/b" node_disk).1 = Normal true.
Proof. vm_compute. split; reflexivity. Qed.
