(* ===== verification/EngineStubs.v ===== *)
(** * EngineStubs: small functions the engine imports ([lib/js-stubs.js])

    The texts the extension asks for after an authorization, and random bytes.  Each
    text is a new block of the heap, or null.  At the end the yield that sleeping threads
    are built on, and the channel of the older interface. *)
From S2P Require Import Prelude Text WasmModule.
From stdpp Require Import base tactics list strings.
From Stdlib Require Import ZArith Lia.
Open Scope Z_scope.

Section Texts.
Context {M : Type} `{DuckDBModule M}.

(** A text with its terminator, on the heap. *)
Definition new_cstring (text : string) : JS (Module M) Z :=
  let len := m_lengthBytesUTF8 text + 1 in
  let! buf := _malloc len in
  if buf =? 0 then ret 0 else stringToUTF8 text buf len ;;; ret buf.

Definition duckdb_wasm_get_auth_error (auth_error : option string) : JS (Module M) Z :=
  let err := default "" auth_error in
  if String.eqb err "" then ret 0 else new_cstring err.

(** The override, or the origin of the location if there is one. *)
Definition duckdb_wasm_get_page_origin (page_origin location_origin : option string) : JS (Module M) Z :=
  let origin := if match page_origin with Some o => negb (String.eqb o "") | None => false end
                then default "" page_origin else default "" location_origin in
  if String.eqb origin "" || String.eqb origin "null" || String.prefix "blob:" origin then ret 0
  else new_cstring origin.
End Texts.

(** ** Random bytes *)

Definition RANDOM_CHUNK : Z := 65536.

(** The ranges of [tmp] that are filled, from [off]; [fuel] bounds the rounds. *)
Fixpoint random_chunks (fuel : nat) (off len : Z) : list (Z * Z) :=
  match fuel with
  | O => []
  | S fuel => if off <? len then (off, Z.min (off + RANDOM_CHUNK) len) :: random_chunks fuel (off + RANDOM_CHUNK) len
              else []
  end.
Definition random_rounds (len : Z) : nat := Z.to_nat (len / RANDOM_CHUNK + 1).

Section Random.
Context {M : Type} `{DuckDBModule M}.
Context (getRandomValues : Z -> bytes).   (** of [n] bytes *)

Definition duckdb_wasm_crypto_random (buf len : Z) : JS (Module M) unit :=
  let tmp := concat ((fun c => getRandomValues (c.2 - c.1)) <$> random_chunks (random_rounds len) 0 len) in
  heap_set (buf mod 2 ^ 32) tmp.

Definition chunks_cover (l : list (Z * Z)) (off len : Z) : Prop :=
  Forall (fun c => 0 < c.2 - c.1 <= RANDOM_CHUNK) l /\
  forall i, off <= i < len <-> exists c, c ∈ l /\ c.1 <= i < c.2.

Lemma random_chunks_cover fuel off len : len <= off + Z.of_nat fuel * RANDOM_CHUNK ->
  chunks_cover (random_chunks fuel off len) off len /\
  sum_list_Z ((fun c => c.2 - c.1) <$> random_chunks fuel off len) = Z.max 0 (len - off).
Proof.
  assert (0 < RANDOM_CHUNK) as Hc by done.
  revert off. induction fuel as [|fuel IH]; intros off Hf; cbn [random_chunks].
  - split; [|cbn; lia]. split; [constructor|]. intros i. split; [lia|]. by intros (c & ?%not_elem_of_nil & _).
  - destruct (Z.ltb_spec off len) as [Hlt|Hge].
    + destruct (IH (off + RANDOM_CHUNK) ltac:(lia)) as [[Ha Hb] Hs]. split; [|cbn; unfold RANDOM_CHUNK in *; lia]. split.
      * constructor; [cbn; unfold RANDOM_CHUNK in *; lia|done].
      * intros i. split.
        -- intros Hi. destruct (Z.lt_ge_cases i (off + RANDOM_CHUNK)).
           ++ eexists. split; [apply list_elem_of_here|]. cbn. lia.
           ++ destruct (proj1 (Hb i) ltac:(lia)) as (c & Hin & Hcc). exists c. split; [by apply list_elem_of_further|done].
        -- intros (c & [-> |Hin]%elem_of_cons & Hcc); [cbn in Hcc; lia|].
           destruct (proj2 (Hb i) ltac:(eauto)); lia.
    + split; [|cbn; lia]. split; [constructor|]. intros i. split; [lia|]. by intros (c & ?%not_elem_of_nil & _).
Qed.

(** Every byte the engine asked for is random: the rounds cover the buffer, none
    asks for more than 65536 bytes, and the loop ends by itself. *)
Lemma random_bytes_fill_the_buffer len : 0 <= len ->
  (forall n, lenZ (getRandomValues n) = n) ->
  chunks_cover (random_chunks (random_rounds len) 0 len) 0 len /\
  lenZ (concat ((fun c => getRandomValues (c.2 - c.1)) <$> random_chunks (random_rounds len) 0 len)) = len.
Proof.
  intros Hl Hr. destruct (random_chunks_cover (random_rounds len) 0 len) as [Hc Hs].
  { unfold random_rounds, RANDOM_CHUNK. pose proof (Z.div_pos len 65536 Hl ltac:(lia)).
    pose proof (Z.mod_pos_bound len 65536 ltac:(lia)). pose proof (Z.div_mod len 65536 ltac:(lia)). lia. }
  split; [done|]. rewrite Z.max_r, Z.sub_0_r in Hs by lia. etrans; [|exact Hs].
  clear -Hr. generalize (random_chunks (random_rounds len) 0 len) as l. induction l as [|c l IH]; [done|].
  cbn. by rewrite lenZ_app, Hr, IH.
Qed.
End Random.

(** ** Sleeping *)

(** [_emscripten_yield]: the milliseconds the thread is blocked.  Without shared memory, or
    on the main thread, where [Atomics.wait] throws, it does nothing. *)
Definition _emscripten_yield (has_shared_memory may_wait : bool) : Z :=
  if has_shared_memory && may_wait then 100 else 0.

(** The loop the comment speaks of: it yields until [t] milliseconds have passed. *)
Fixpoint sleep_loop (fuel : nat) (has_shared_memory may_wait : bool) (t elapsed : Z) : option Z :=
  match fuel with
  | O => None
  | S fuel => if t <=? elapsed then Some elapsed
              else sleep_loop fuel has_shared_memory may_wait t (elapsed + _emscripten_yield has_shared_memory may_wait)
  end.

(** A worker sleeps as long as asked for, and less than a yield longer. *)
Lemma sleeps_are_long_enough fuel t elapsed : 0 <= elapsed -> elapsed < t + 100 -> t - elapsed <= 100 * Z.of_nat fuel ->
  exists e, sleep_loop (S fuel) true true t elapsed = Some e /\ t <= e < t + 100.
Proof.
  revert elapsed. induction fuel as [|fuel IH]; intros elapsed H0 H1 Hf; cbn [sleep_loop];
    (destruct (Z.leb_spec t elapsed); [by exists elapsed|]); [lia|].
  apply IH; cbn [_emscripten_yield andb]; lia.
Qed.

(** ** The channel of the older interface *)

Definition vgi_wasm_set_channel (offset : Z) (vgiSab_base : Z) : Z := offset.
