(* ===== verification/OAuth.v ===== *)
(** * OAuth: authorization codes for the engine

    The page's half of the contract ([vgi/oauth-bridge.ts]) and the engine's
    ([duckdb_wasm_open_auth_url] of [lib/js-stubs.js]).  The engine's thread asks for
    a popup and blocks on a shared buffer, where the page writes the code, or an
    error.  Every access to the buffer is a step, so that the two sides interleave;
    a handler of the page runs to its end before the next.  Whether a popup opens and
    whether [_malloc] succeeds is up to the environment, as is the time.  Calls are
    numbered, which the code does not do, to state which answer a call gets. *)
From S2P Require Import Prelude Text JsMap.
From stdpp Require Import base tactics list gmap strings.
From Stdlib Require Import ZArith Ascii Lia.
Open Scope Z_scope.

(** ** The shared buffer: a flag, a length, and the bytes from offset 8 *)

Definition SAB_BYTES : Z := 8192.
Definition maxBytes : Z := SAB_BYTES - 8.

Record Sab := MkSab { sab_flag : Z; sab_len : Z; sab_data : gmap Z Z }.
Definition new_sab : Sab := MkSab 0 0 ∅.

Inductive SabWrite := W_len (n : Z) | W_byte (i b : Z) | W_flag (f : Z).
Definition apply_write (s : Sab) (w : SabWrite) : Sab :=
  match w with
  | W_len n => MkSab (sab_flag s) n (sab_data s)
  | W_byte i b => MkSab (sab_flag s) (sab_len s) (<[i := b]> (sab_data s))
  | W_flag f => MkSab f (sab_len s) (sab_data s)
  end.

(** The stores of the loop, or of [bytes.set(encoded, 8)], from index [i]. *)
Fixpoint byte_writes (i : Z) (bs : bytes) : list SabWrite :=
  match bs with [] => [] | b :: bs => W_byte i b :: byte_writes (i + 1) bs end.

(** [writeSab]: the payload, cut if it is too long, and then the flag. *)
Definition payload_writes (payload : string) : list SabWrite :=
  let encoded := utf8_encode payload in
  if maxBytes <? lenZ encoded then byte_writes 0 (subarray encoded 0 maxBytes) ++ [W_len maxBytes]
  else W_len (lenZ encoded) :: byte_writes 0 encoded.
Definition writeSab (flag : Z) (payload : string) : list SabWrite := payload_writes payload ++ [W_flag flag].

(** ** The page *)

Record OAuthCallback := { cb_code : option string; cb_errorDescription : option string; cb_error : option string }.

(** A popup with its channel and timer; [fl_call] is the call it belongs to. *)
Record Flow := MkFlow { fl_call : Z; fl_sab : Z; fl_settled : bool }.

Record OAuthPage := MkPage {
  oauthSAB : option Z;
  next_sab : Z;
  listeners : list Z;             (** a worker for every [addEventListener] *)
  flows : list (Z * Flow);
  writing : list (Z * SabWrite);  (** the stores the running handler has left *)
  to_workers : list (Z * Z);      (** [init-oauth-sab]: worker, buffer *)
  answers : list (Z * Z * string) (** call, flag and payload of each [writeSab] *)
}.

Definition truthy_text (o : option string) : bool := match o with Some s => negb (String.eqb s "") | None => false end.
Definition or_text (o : option string) (d : string) : string :=
  match o with Some s => if String.eqb s "" then d else s | None => d end.

Definition write_page (call sab flag : Z) (payload : string) (p : OAuthPage) : OAuthPage :=
  MkPage (oauthSAB p) (next_sab p) (listeners p) (flows p)
    (writing p ++ ((fun w => (sab, w)) <$> writeSab flag payload)) (to_workers p)
    (answers p ++ [(call, flag, payload)]).
Definition set_flows f (p : OAuthPage) : OAuthPage :=
  MkPage (oauthSAB p) (next_sab p) (listeners p) f (writing p) (to_workers p) (answers p).

Definition installVgiOAuthBridge (hasSAB : bool) (worker : Z) (p : OAuthPage) : OAuthPage :=
  if hasSAB then
    MkPage (Some (next_sab p)) (next_sab p + 1) (listeners p ++ [worker]) (flows p) (writing p)
      (to_workers p ++ [(worker, next_sab p)]) (answers p)
  else p.

(** [handleOpenAuthUrl], with the popup that opened or not. *)
Definition handleOpenAuthUrl (popup : bool) (call : Z) (p : OAuthPage) : OAuthPage :=
  match oauthSAB p with
  | None => p
  | Some sab =>
      if popup then set_flows (flows p ++ [(lenZ (flows p), MkFlow call sab false)]) p
      else write_page call sab (-1) "Popup blocked by browser" p
  end.

(** A message [open-auth-url] of a worker goes to each of its listeners. *)
Definition on_open_auth_url (popup : bool) (worker call : Z) (p : OAuthPage) : OAuthPage :=
  Nat.iter (length (filter (fun w => w = worker) (listeners p))) (handleOpenAuthUrl popup call) p.

Definition cleanup (k : Z) (f : Flow) (p : OAuthPage) : OAuthPage :=
  set_flows (mset k (MkFlow (fl_call f) (fl_sab f) true) (flows p)) p.

(** [bc.onmessage], for an [oauth-callback]. *)
Definition bc_onmessage (k : Z) (f : Flow) (m : OAuthCallback) (p : OAuthPage) : OAuthPage :=
  if fl_settled f then p
  else
    let p := cleanup k f p in
    if truthy_text (cb_code m) then write_page (fl_call f) (fl_sab f) 1 (default "" (cb_code m)) p
    else write_page (fl_call f) (fl_sab f) (-1)
           (or_text (cb_errorDescription m) (or_text (cb_error m) "Authentication failed")) p.

(** The timer of sixty seconds. *)
Definition timed_out (k : Z) (f : Flow) (p : OAuthPage) : OAuthPage :=
  if fl_settled f then p
  else write_page (fl_call f) (fl_sab f) (-1) "Authentication timed out" (cleanup k f p).

(** ** The engine's thread *)

Definition interval : Z := 2000.

Inductive AuthPc :=
| A_idle
| A_reset (call timeout : Z)
| A_post (call timeout : Z)
| A_look (call timeout elapsed : Z)              (** the load of the loop's condition *)
| A_wait (call timeout elapsed : Z)              (** about to call [Atomics.wait] *)
| A_sleep (call timeout elapsed : Z)             (** waiting there *)
| A_flag (call : Z)
| A_len (call flag : Z)
| A_malloc (call len : Z)
| A_copy (call flag len : Z) (read : bytes).     (** the loop over the bytes *)

(** What the call returns: a text on the heap, or null. *)
Inductive AuthResult := Auth_text (bs : bytes) | Auth_null.

Record Engine := MkEngine {
  oauthInt32 : option Z;          (** the buffer of [init-oauth-sab] *)
  pc : AuthPc;
  auth_error : string;            (** [globalThis._duckdb_wasm_auth_error] *)
  calls : Z;
  returns : list (Z * AuthResult * string);  (** call, result, and the error then *)
  mallocs : list (Z * bool)                  (** call, and whether its [_malloc] gave a block *)
}.

Record OAuth := MkOAuth { page : OAuthPage; engine : Engine; sabs : gmap Z Sab; to_page : list (Z * Z) }.

Definition sab_of (o : OAuth) (k : Z) : Sab := default new_sab (sabs o !! k).
Definition set_page p (o : OAuth) : OAuth := MkOAuth p (engine o) (sabs o) (to_page o).
Definition set_pc p (o : OAuth) : OAuth :=
  MkOAuth (page o) (MkEngine (oauthInt32 (engine o)) p (auth_error (engine o)) (calls (engine o)) (returns (engine o))
    (mallocs (engine o))) (sabs o) (to_page o).
Definition do_write (k : Z) (w : SabWrite) (o : OAuth) : OAuth :=
  MkOAuth (page o) (engine o) (<[k := apply_write (sab_of o k) w]> (sabs o)) (to_page o).
Definition return_auth (call : Z) (r : AuthResult) (err : string) (o : OAuth) : OAuth :=
  MkOAuth (page o) (MkEngine (oauthInt32 (engine o)) A_idle err (calls (engine o))
    (returns (engine o) ++ [(call, r, err)]) (mallocs (engine o))) (sabs o) (to_page o).
Definition note_malloc (call : Z) (ok : bool) (o : OAuth) : OAuth :=
  MkOAuth (page o) (MkEngine (oauthInt32 (engine o)) (pc (engine o)) (auth_error (engine o)) (calls (engine o))
    (returns (engine o)) (mallocs (engine o) ++ [(call, ok)])) (sabs o) (to_page o).
Definition post_to_page (m : Z * Z) (o : OAuth) : OAuth := MkOAuth (page o) (engine o) (sabs o) (to_page o ++ [m]).

(** [String.fromCharCode] of each byte. *)
Definition text_of_bytes (bs : bytes) : string := String.string_of_list_ascii (char_of <$> bs).

(** The call [duckdb_wasm_open_auth_url(url, timeout_ms)] begins. *)
Definition open_auth_url (timeout : Z) (o : OAuth) : OAuth :=
  let e := engine o in
  let n := calls e + 1 in
  let o' := MkOAuth (page o) (MkEngine (oauthInt32 e) (pc e) (auth_error e) n (returns e) (mallocs e)) (sabs o) (to_page o) in
  match oauthInt32 e with
  | None => return_auth n Auth_null (auth_error e) o'
  | Some _ => set_pc (A_reset n timeout) o'
  end.

(** One step of the blocked thread on the worker [w], with the buffer [k].  [expired]
    says whether a wait ran out, [malloc_ok] whether there was memory. *)
Definition engine_step (w k : Z) (expired malloc_ok : bool) (o : OAuth) : OAuth :=
  let s := sab_of o k in
  let err := auth_error (engine o) in
  match pc (engine o) with
  | A_idle => o
  | A_reset n t => set_pc (A_post n t) (do_write k (W_flag 0) o)
  | A_post n t => set_pc (A_look n t 0) (post_to_page (w, n) o)
  | A_look n t e => set_pc (if sab_flag s =? 0 then A_wait n t e else A_flag n) o
  | A_wait n t e => set_pc (if sab_flag s =? 0 then A_sleep n t e else A_look n t e) o
  | A_sleep n t e =>
      if expired then
        if (0 <? t) && (t <=? e + interval) then return_auth n Auth_null "Authentication timed out" o
        else set_pc (A_look n t (e + interval)) o
      else set_pc (A_look n t e) o
  | A_flag n => set_pc (A_len n (sab_flag s)) o
  | A_len n f =>
      if sab_len s <=? 0 then return_auth n Auth_null err o
      else if f =? -1 then set_pc (A_copy n f (sab_len s) []) o
      else set_pc (A_malloc n (sab_len s)) o
  | A_malloc n len =>
      let o := note_malloc n malloc_ok o in
      if malloc_ok then set_pc (A_copy n 1 len []) o else return_auth n Auth_null err o
  | A_copy n f len read =>
      if lenZ read <? len then set_pc (A_copy n f len (read ++ [default 0 (sab_data s !! lenZ read)])) o
      else if f =? -1 then return_auth n Auth_null (text_of_bytes read) o
      else return_auth n (Auth_text read) err o
  end.

(** ** Both together: the bridge of one worker, with the admitted timeouts of calls and
    answers of popups *)

Section Steps.
Context (w : Z) (timeouts : Z -> Prop) (callbacks : OAuthCallback -> Prop).

Inductive oauth_step (o : OAuth) : OAuth -> Prop :=
| O_call t : timeouts t -> pc (engine o) = A_idle -> oauth_step o (open_auth_url t o)
| O_engine k expired malloc_ok : oauthInt32 (engine o) = Some k -> pc (engine o) <> A_idle ->
    oauth_step o (engine_step w k expired malloc_ok o)
| O_write k wr ws : writing (page o) = (k, wr) :: ws ->
    oauth_step o (do_write k wr (set_page (MkPage (oauthSAB (page o)) (next_sab (page o)) (listeners (page o))
      (flows (page o)) ws (to_workers (page o)) (answers (page o))) o))
| O_open popup w' n ms : writing (page o) = [] -> to_page o = (w', n) :: ms ->
    oauth_step o (MkOAuth (on_open_auth_url popup w' n (page o)) (engine o) (sabs o) ms)
| O_callback k f m : callbacks m -> writing (page o) = [] -> mget k (flows (page o)) = Some f ->
    oauth_step o (set_page (bc_onmessage k f m (page o)) o)
| O_timer k f : writing (page o) = [] -> mget k (flows (page o)) = Some f ->
    oauth_step o (set_page (timed_out k f (page o)) o).
End Steps.

Definition no_page : OAuthPage := MkPage None 0 [] [] [] [] [].
(** After [installVgiOAuthBridge], once the worker has the buffer. *)
Definition installed (w : Z) : OAuth :=
  let p := installVgiOAuthBridge true w no_page in
  MkOAuth p (MkEngine (snd <$> head (to_workers p)) A_idle "" 0 [] []) ∅ [].
