(* ===== verification/OAuthFacts.v ===== *)
(** * OAuthFacts: each call gets the answer to its own popup

    The invariant of the two sides: while a call waits, exactly one thing is under
    way for it - its message, its popup, or the stores of its answer - and nothing
    is left of earlier calls.  It holds if no call gives up on its own. *)
From S2P Require Import Prelude Text JsMap OAuth.
From stdpp Require Import base tactics list gmap strings.
From Stdlib Require Import ZArith Ascii Lia.
Open Scope Z_scope.

(** ** The buffer after the stores of an answer *)

(** The bytes of a payload that reach the engine. *)
Definition sent (p : string) : bytes := subarray (utf8_encode p) 0 maxBytes.

Definition holds (f : Z) (p : string) (s : Sab) : Prop :=
  sab_flag s = f /\ sab_len s = lenZ (sent p) /\
  forall i b, sent p !! i = Some b -> sab_data s !! Z.of_nat i = Some b.

Lemma byte_writes_flag i bs s : sab_flag (foldl apply_write s (byte_writes i bs)) = sab_flag s /\
  sab_len (foldl apply_write s (byte_writes i bs)) = sab_len s.
Proof. revert i s. induction bs as [|b bs IH]; intros i s; [done|]. cbn [byte_writes foldl]. by destruct (IH (i + 1) (apply_write s (W_byte i b))) as [-> ->]. Qed.

Lemma byte_writes_data i bs s j b : bs !! j = Some b ->
  sab_data (foldl apply_write s (byte_writes i bs)) !! (i + Z.of_nat j) = Some b.
Proof.
  revert i s j. induction bs as [|c bs IH]; intros i s j Hj; [done|]. cbn. destruct j as [|j].
  - injection Hj as ->. replace (i + Z.of_nat 0) with i by lia. clear IH.
    assert (forall i' s', i < i' -> sab_data s' !! i = Some b ->
      sab_data (foldl apply_write s' (byte_writes i' bs)) !! i = Some b) as Hk.
    { induction bs as [|c bs IH]; intros i' s' Hi Hs; [done|]. cbn. apply IH; [lia|]. cbn.
      by rewrite lookup_insert_ne by lia. }
    apply Hk; [lia|]. cbn. by rewrite lookup_insert_eq.
  - replace (i + Z.of_nat (S j)) with (i + 1 + Z.of_nat j) by lia. by apply IH.
Qed.

Lemma writeSab_holds f p s : holds f p (foldl apply_write s (writeSab f p)).
Proof.
  unfold writeSab. rewrite foldl_app. cbn [foldl apply_write].
  set (s1 := foldl apply_write s (payload_writes p)).
  assert (sab_len s1 = lenZ (sent p) /\ forall i b, sent p !! i = Some b -> sab_data s1 !! Z.of_nat i = Some b) as [Hl Hd].
  { unfold s1, payload_writes. cbv zeta. pose proof (lenZ_nonneg (utf8_encode p)). destruct (Z.ltb_spec maxBytes (lenZ (utf8_encode p))) as [Hlt|Hge].
    - rewrite foldl_app. cbn. split.
      + unfold sent, subarray, lenZ, maxBytes, SAB_BYTES in *. rewrite length_take, drop_0. cbn in *. lia.
      + intros i b Hi. exact (byte_writes_data 0 _ s i b Hi).
    - assert (sent p = utf8_encode p) as -> by (unfold sent, subarray, lenZ in *; rewrite drop_0; apply take_ge; lia).
      cbn [foldl]. split; [by destruct (byte_writes_flag 0 (utf8_encode p) (apply_write s (W_len (lenZ (utf8_encode p))))) as [_ ->]|].
      intros i b Hi. exact (byte_writes_data 0 _ _ i b Hi). }
  by split.
Qed.

Definition no_flag (l : list SabWrite) : Prop := Forall (fun w => match w with W_flag _ => False | _ => True end) l.

Lemma byte_writes_no_flag i bs : no_flag (byte_writes i bs).
Proof. revert i. induction bs as [|b bs IH]; intros i; [constructor|]. constructor; [done|apply IH]. Qed.

Lemma writeSab_ends f p : exists l, writeSab f p = l ++ [W_flag f] /\ no_flag l.
Proof.
  eexists. split; [reflexivity|]. unfold payload_writes. destruct (_ <? _); [|constructor; [done|apply byte_writes_no_flag]].
  apply Forall_app. split; [apply byte_writes_no_flag|by repeat constructor].
Qed.

Lemma sent_nonempty p : p <> ""%string -> 0 < lenZ (sent p).
Proof.
  intros Hp. pose proof (utf8_encode_length p) as Hl. unfold sent, subarray, lenZ, maxBytes, SAB_BYTES in *.
  rewrite length_take, drop_0. destruct p; [done|]. cbn in *. lia.
Qed.

(** ** The invariant *)

Section Invariant.
Context (w : Z).
Abbreviation timeouts := (fun t : Z => t <= 0).

Definition settled_flows (l : list (Z * Flow)) : Prop := Forall (fun e => fl_settled e.2 = true) l.

(** Nothing is under way for any call. *)
Definition idle_page (o : OAuth) : Prop := writing (page o) = [] /\ to_page o = [] /\ settled_flows (flows (page o)).

Definition answered (pg : OAuthPage) (n f : Z) (p : string) : Prop :=
  (n, f, p) ∈ answers pg /\ (f = 1 \/ f = -1) /\ p <> ""%string.
Definition unanswered (pg : OAuthPage) (n : Z) : Prop := Forall (fun a => a.1.1 < n) (answers pg).

Inductive stage (pg : OAuthPage) (s : Sab) (q : list (Z * Z)) (n : Z) : Prop :=
| G_asked : writing pg = [] -> q = [(w, n)] -> settled_flows (flows pg) -> unanswered pg n -> stage pg s q n
| G_popup fl : writing pg = [] -> q = [] -> flows pg = fl ++ [(lenZ fl, MkFlow n 0 false)] ->
    settled_flows fl -> unanswered pg n -> stage pg s q n
| G_writing f p l : q = [] -> settled_flows (flows pg) -> answered pg n f p ->
    writing pg = ((fun wr => (0, wr)) <$> l ++ [W_flag f]) -> no_flag l ->
    holds f p (foldl apply_write s (l ++ [W_flag f])) -> stage pg s q n.

Definition written (o : OAuth) (n f : Z) (p : string) : Prop :=
  idle_page o /\ answered (page o) n f p /\ holds f p (sab_of o 0).

(** A call waits for its answer, or has it in the buffer. *)
Definition waits (o : OAuth) (n t : Z) : Prop :=
  t <= 0 /\ (sab_flag (sab_of o 0) = 0 /\ stage (page o) (sab_of o 0) (to_page o) n \/ exists f p, written o n f p).

(** What call [n] makes of the answer: a code is returned if there was memory for it. *)
Definition delivered (ms : list (Z * bool)) (n f : Z) (p : string) (r : AuthResult) (err : string) : Prop :=
  if f =? 1 then (n, true) ∈ ms /\ r = Auth_text (sent p) \/ (n, false) ∈ ms /\ r = Auth_null
  else r = Auth_null /\ err = text_of_bytes (sent p).

Definition pc_ok (o : OAuth) : Prop :=
  match pc (engine o) with
  | A_idle => idle_page o
  | A_reset n t => t <= 0 /\ idle_page o /\ n = calls (engine o) /\ unanswered (page o) n
  | A_post n t => t <= 0 /\ idle_page o /\ n = calls (engine o) /\ unanswered (page o) n /\ sab_flag (sab_of o 0) = 0
  | A_look n t _ | A_wait n t _ | A_sleep n t _ => n = calls (engine o) /\ waits o n t
  | A_flag n => n = calls (engine o) /\ exists f p, written o n f p
  | A_len n f => n = calls (engine o) /\ exists p, written o n f p
  | A_malloc n len => n = calls (engine o) /\ exists p, written o n 1 p /\ len = lenZ (sent p)
  | A_copy n f len read => n = calls (engine o) /\ exists p, written o n f p /\ len = lenZ (sent p) /\
      read = take (length read) (sent p) /\ (f = 1 -> (n, true) ∈ mallocs (engine o))
  end.

Record inv (o : OAuth) : Prop := {
  i_sab : oauthInt32 (engine o) = Some 0 /\ oauthSAB (page o) = Some 0;
  i_listeners : listeners (page o) = [w];
  i_keys : keys (flows (page o)) = seqZ 0 (lenZ (flows (page o)));
  i_answers : Forall (fun a => a.1.1 <= calls (engine o)) (answers (page o));
  i_once : NoDup (answers (page o)).*1.*1;
  i_returns : Forall (fun r => exists f p, (r.1.1, f, p) ∈ answers (page o) /\ delivered (mallocs (engine o)) r.1.1 f p r.1.2 r.2)
                (returns (engine o));
  i_pc : pc_ok o
}.

Lemma settled_get l k f : settled_flows l -> mget k l = Some f -> fl_settled f = true.
Proof.
  induction l as [|[j g] l IH]; [done|]. intros [Hg Hl]%Forall_cons. cbn. case_decide; [intros [= <-]; done|auto].
Qed.

Lemma keys_below (fl : list (Z * Flow)) k x : keys (fl ++ [(k, x)]) = seqZ 0 (lenZ (fl ++ [(k, x)])) -> k = lenZ fl -> k ∉ keys fl.
Proof.
  intros Hk ->. assert (keys fl = seqZ 0 (lenZ fl)) as ->.
  { unfold keys in *. rewrite fmap_app in Hk. unfold lenZ in *. rewrite length_app in Hk. cbn in Hk.
    replace (Z.of_nat (length fl + 1)) with (Z.of_nat (length fl) + 1) in Hk by lia.
    rewrite seqZ_app in Hk by lia. apply app_inj_1 in Hk as [Hk _]; [done|]. rewrite length_fmap, length_seqZ. lia. }
  rewrite elem_of_seqZ. lia.
Qed.

Lemma mget_last (fl : list (Z * Flow)) k x j f : k ∉ keys fl -> mget j (fl ++ [(k, x)]) = Some f ->
  mget j fl = Some f \/ j = k /\ f = x.
Proof.
  induction fl as [|[i g] fl IH]; cbn; [intros _; case_decide; [intros [= <-]; by right|done]|].
  intros [Hi Hn]%not_elem_of_cons. case_decide; [by left|auto].
Qed.

Lemma mset_last (fl : list (Z * Flow)) k x y : k ∉ keys fl -> mset k y (fl ++ [(k, x)]) = fl ++ [(k, y)].
Proof.
  induction fl as [|[i g] fl IH]; cbn; [intros _; by rewrite decide_True|].
  intros [Hi Hn]%not_elem_of_cons. rewrite decide_False by done. f_equal. auto.
Qed.

(** ** Every step keeps it *)

Lemma inv_set_pc o p : inv o -> pc_ok (set_pc p o) -> inv (set_pc p o).
Proof. by intros [] Hp. Qed.

Lemma inv_return o n f p r err : inv o -> written o n f p -> delivered (mallocs (engine o)) n f p r err -> inv (return_auth n r err o).
Proof.
  intros [] Hw Hd. split; try done; cbn.
  - apply Forall_app. split; [done|]. repeat constructor. exists f, p. cbn. split; [|done]. apply Hw.
  - apply Hw.
Qed.

Lemma delivered_more ms x n f p r err : delivered ms n f p r err -> delivered (ms ++ [x]) n f p r err.
Proof. unfold delivered. destruct (f =? 1); [rewrite !elem_of_app; tauto|done]. Qed.

Lemma inv_note n len ok o : pc (engine o) = A_malloc n len -> inv o -> inv (note_malloc n ok o).
Proof.
  intros Hpc [[Hs Hp] Hl Hk Ha Ho Hr Hok]. unfold pc_ok in Hok. rewrite Hpc in Hok.
  split; try done; [|by unfold pc_ok; cbn; rewrite Hpc].
  eapply Forall_impl; [exact Hr|]. cbn. intros r (f & p & Hin & Hd). exists f, p. split; [done|by apply delivered_more].
Qed.

Lemma inv_call t o : inv o -> t <= 0 -> pc (engine o) = A_idle -> inv (open_auth_url t o).
Proof.
  intros Hi Ht Hpc. pose proof Hi as [[Hs Hp] Hl Hk Ha Ho Hr Hok]. unfold pc_ok in Hok. rewrite Hpc in Hok.
  unfold open_auth_url. rewrite Hs. split; try done; cbn.
  - eapply Forall_impl; [exact Ha|]. cbn. intros a. lia.
  - split; [done|]. split; [done|]. split; [done|]. eapply Forall_impl; [exact Ha|]. cbn. intros a. lia.
Qed.

Lemma inv_reset o n t : inv o -> pc (engine o) = A_reset n t -> inv (set_pc (A_post n t) (do_write 0 (W_flag 0) o)).
Proof.
  intros [[Hs Hp] Hl Hk Ha Ho Hr Hok] Hpc. unfold pc_ok in Hok. rewrite Hpc in Hok. destruct Hok as (Ht & Hid & Hn & Hu).
  split; try done. cbn. do 4 (split; [done|]). unfold sab_of. cbn. by rewrite lookup_insert_eq.
Qed.

Lemma inv_post o n t : inv o -> pc (engine o) = A_post n t -> inv (set_pc (A_look n t 0) (post_to_page (w, n) o)).
Proof.
  intros [[Hs Hp] Hl Hk Ha Ho Hr Hok] Hpc. unfold pc_ok in Hok. rewrite Hpc in Hok.
  destruct Hok as (Ht & (Hw & Hq & Hf) & Hn & Hu & H0).
  split; try done. cbn. split; [done|]. split; [done|]. left. split; [done|]. apply G_asked; cbn; [done|by rewrite Hq|done..].
Qed.

Lemma waits_flag o n t : waits o n t -> sab_flag (sab_of o 0) <> 0 -> exists f p, written o n f p.
Proof. intros [_ [[H0 _]|Hw]]; [done|auto]. Qed.

Lemma written_len o n f p : written o n f p -> sab_len (sab_of o 0) = lenZ (sent p) /\ 0 < lenZ (sent p).
Proof. intros (_ & (_ & _ & Hp) & _ & Hl & _). split; [done|by apply sent_nonempty]. Qed.

Lemma inv_engine o expired malloc_ok : inv o -> pc (engine o) <> A_idle -> inv (engine_step w 0 expired malloc_ok o).
Proof.
  intros Hi Hne. pose proof (i_pc _ Hi) as Hok. unfold engine_step. unfold pc_ok in Hok.
  destruct (pc (engine o)) as [|n t|n t|n t e|n t e|n t e|n|n f|n len|n f len read] eqn:Hpc; [done|..].
  - by apply inv_reset.
  - by apply inv_post.
  - apply inv_set_pc; [done|]. destruct Hok as [Hn Hw]. destruct (Z.eqb_spec (sab_flag (sab_of o 0)) 0); [done|].
    split; [done|]. by eapply waits_flag.
  - apply inv_set_pc; [done|]. by destruct (_ =? _).
  - destruct expired; [|by apply inv_set_pc]. destruct Hok as [Hn Hw].
    rewrite (proj2 (Z.ltb_ge 0 t)) by (destruct Hw; lia). by apply inv_set_pc.
  - destruct Hok as (Hn & f & p & Hw). apply inv_set_pc; [done|]. split; [done|]. exists p.
    pose proof Hw as (_ & _ & Hf & _). cbn. by rewrite Hf.
  - destruct Hok as (Hn & p & Hw). destruct (written_len _ _ _ _ Hw) as [El Hl]. rewrite El.
    rewrite (proj2 (Z.leb_gt _ 0)) by lia. pose proof Hw as (_ & (_ & [-> | ->] & _) & _); cbn [Z.eqb]; apply inv_set_pc; try done.
    + split; [done|]. by exists p.
    + split; [done|]. by exists p.
  - destruct Hok as (Hn & p & Hw & Hl). pose proof (inv_note n len malloc_ok o Hpc Hi) as Hi1.
    assert ((n, malloc_ok) ∈ mallocs (engine (note_malloc n malloc_ok o))) as Hm
      by (cbn; rewrite elem_of_app; right; by left).
    cbv zeta. destruct malloc_ok.
    + apply inv_set_pc; [done|]. split; [done|]. by exists p.
    + eapply inv_return; [done|exact Hw|]. by right.
  - destruct Hok as (Hn & p & Hw & Hl & Hr & Hm). destruct (Z.ltb_spec (lenZ read) len) as [Hlt|Hge].
    + apply inv_set_pc; [done|]. split; [done|]. exists p. split; [done|]. split; [done|].
      assert (length read < length (sent p))%nat as Hlen by (unfold lenZ in *; lia).
      destruct (lookup_lt_is_Some_2 (sent p) (length read) Hlen) as [b Hb].
      pose proof Hw as (_ & _ & _ & _ & Hd). change (lenZ read) with (Z.of_nat (length read)). rewrite (Hd _ _ Hb).
      rewrite length_app. cbn. rewrite Nat.add_1_r, (take_S_r _ _ b) by done. by rewrite <- Hr.
    + assert (read = sent p) as -> by (rewrite Hr; apply take_ge; unfold lenZ in *; lia).
      pose proof Hw as (_ & (_ & [-> | ->] & _) & _); cbn [Z.eqb]; (eapply inv_return; [done..|]).
      * left. by split; [apply Hm|].
      * by split.
Qed.

(** The thread of call [n] waits. *)
Definition busy (e : Engine) (n t : Z) : Prop :=
  exists el, pc e = A_look n t el \/ pc e = A_wait n t el \/ pc e = A_sleep n t el.

Lemma busy_ok o n t : busy (engine o) n t -> n = calls (engine o) -> waits o n t -> pc_ok o.
Proof. intros [el [E|[E|E]]] Hn Hw; unfold pc_ok; rewrite E; done. Qed.

(** Something is under way only for the call that waits. *)
Lemma inv_busy o : inv o -> idle_page o \/
  exists n t, busy (engine o) n t /\ n = calls (engine o) /\ t <= 0 /\ sab_flag (sab_of o 0) = 0 /\
    stage (page o) (sab_of o 0) (to_page o) n.
Proof.
  intros Hi. pose proof (i_pc _ Hi) as Hok. unfold pc_ok in Hok.
  destruct (pc (engine o)) as [|n t|n t|n t e|n t e|n t e|n|n f|n len|n f len read] eqn:Hpc.
  1: by left.
  1-2: left; apply Hok.
  1-3: destruct Hok as (Hn & Ht & [[H0 Hs]|(f & p & Hw)]); [right|left; apply Hw];
    exists n, t; repeat split; try done; exists e; auto.
  - destruct Hok as (_ & f & p & Hw). left. apply Hw.
  - destruct Hok as (_ & p & Hw). left. apply Hw.
  - destruct Hok as (_ & p & Hw & _). left. apply Hw.
  - destruct Hok as (_ & p & Hw & _). left. apply Hw.
Qed.

Lemma inv_write o k wr ws : inv o -> writing (page o) = (k, wr) :: ws ->
  inv (do_write k wr (set_page (MkPage (oauthSAB (page o)) (next_sab (page o)) (listeners (page o))
      (flows (page o)) ws (to_workers (page o)) (answers (page o))) o)).
Proof.
  intros Hi Ew. destruct (inv_busy o Hi) as [[E _]|(n & t & Hb & Hn & Ht & H0 & Hst)]; [congruence|].
  destruct Hst as [E ? ?|fl E ? ?|f p l Hq Hf Ha E Hl Hh]; [congruence..|].
  destruct Hi as [[Hs Hp] Hli Hk Han Ho Hr Hok]. split; try done.
  apply (busy_ok _ n t); [done|done|]. split; [done|]. rewrite E in Ew.
  destruct l as [|wr' l]; injection Ew as <- <- <-.
  - right. exists f, p. split; [by repeat split|]. split; [done|]. unfold sab_of at 1. cbn. by rewrite lookup_insert_eq.
  - left. apply Forall_cons in Hl as [Hwr Hl]. unfold sab_of at 1 2. cbn. rewrite lookup_insert_eq. cbn.
    split; [by destruct wr'|]. by apply (G_writing _ _ _ _ f p l).
Qed.

Lemma on_open_once popup n pg : listeners pg = [w] -> on_open_auth_url popup w n pg = handleOpenAuthUrl popup n pg.
Proof. intros E. unfold on_open_auth_url. rewrite E. cbn. by rewrite decide_True. Qed.

Lemma unanswered_fresh pg n f p : unanswered pg n -> (n, f, p) ∉ answers pg.
Proof. intros Hu Hin. pose proof (proj1 (Forall_forall _ _) Hu _ Hin) as Hn. cbn in Hn. lia. Qed.

(** An answer begins to be written. *)
Lemma stage_answer pg s n f p : writing pg = [] -> settled_flows (flows pg) -> (f = 1 \/ f = -1) -> p <> ""%string ->
  stage (write_page n 0 f p pg) s [] n.
Proof.
  intros Ew Hf Hff Hp. destruct (writeSab_ends f p) as (l & El & Hl).
  apply (G_writing _ _ _ _ f p l); try done; cbn.
  - split; [|done]. apply elem_of_app. right. by apply list_elem_of_singleton.
  - by rewrite Ew, El.
  - rewrite <- El. apply writeSab_holds.
Qed.

Lemma inv_answer o n t f p pg q : inv o -> busy (engine o) n t -> n = calls (engine o) -> t <= 0 ->
  sab_flag (sab_of o 0) = 0 -> unanswered (page o) n -> answers pg = answers (page o) ->
  oauthSAB pg = Some 0 -> listeners pg = [w] -> keys (flows pg) = seqZ 0 (lenZ (flows pg)) ->
  writing pg = [] -> settled_flows (flows pg) -> (f = 1 \/ f = -1) -> p <> ""%string -> q = [] ->
  inv (MkOAuth (write_page n 0 f p pg) (engine o) (sabs o) q).
Proof.
  intros [[Hs Hp] Hli Hk Han Ho Hr Hok] Hb Hn Ht H0 Hu Ea E1 E2 E3 Ew Hf Hff Hpp ->. split; try done; cbn.
  - rewrite Ea. apply Forall_app. split; [done|]. repeat constructor. cbn. lia.
  - rewrite Ea, !fmap_app. apply NoDup_app. split; [done|]. split; [|apply NoDup_singleton].
    cbn. intros x Hx ->%list_elem_of_singleton. apply list_elem_of_fmap in Hx as ([m f'] & E & Hx).
    apply list_elem_of_fmap in Hx as ([[m' f''] p'] & E' & Hx). cbn in E, E'. injection E' as -> ->. subst m'.
    by apply (unanswered_fresh _ _ _ _ Hu Hx).
  - eapply Forall_impl; [exact Hr|]. cbn. intros r (f' & p' & Hin & Hd). exists f', p'. split; [|done].
    rewrite Ea. apply elem_of_app. by left.
  - apply (busy_ok _ n t); [done|done|]. split; [done|]. left. split; [done|]. by apply stage_answer.
Qed.

Lemma inv_popup o popup w' n ms : inv o -> writing (page o) = [] -> to_page o = (w', n) :: ms ->
  inv (MkOAuth (on_open_auth_url popup w' n (page o)) (engine o) (sabs o) ms).
Proof.
  intros Hi Ew Eq. destruct (inv_busy o Hi) as [(_ & E & _)|(m & t & Hb & Hn & Ht & H0 & Hst)]; [congruence|].
  destruct Hst as [_ E Hf Hu|fl _ E ? ?|f p l E ? ? ?]; [|congruence..].
  rewrite Eq in E. injection E as -> -> ->. rewrite on_open_once by apply Hi.
  pose proof Hi as [[Hs Hp] Hli Hk Han Ho Hr Hok]. unfold handleOpenAuthUrl. rewrite Hp. destruct popup.
  - split; try done; cbn.
    + unfold keys in *. rewrite fmap_app, Hk. unfold lenZ. rewrite length_app. cbn.
      replace (Z.of_nat (length (flows (page o)) + 1)) with (Z.of_nat (length (flows (page o))) + 1) by lia.
      rewrite seqZ_app by lia. by do 2 f_equal.
    + apply (busy_ok _ m t); [done|done|]. split; [done|]. left. split; [done|]. by apply (G_popup _ _ _ _ (flows (page o))).
  - apply (inv_answer _ _ t); auto; discriminate.
Qed.

Lemma cleanup_popup fl n pg : flows pg = fl ++ [(lenZ fl, MkFlow n 0 false)] ->
  keys (flows pg) = seqZ 0 (lenZ (flows pg)) -> settled_flows fl ->
  let pg' := cleanup (lenZ fl) (MkFlow n 0 false) pg in
  settled_flows (flows pg') /\ keys (flows pg') = seqZ 0 (lenZ (flows pg')).
Proof.
  intros Ef Hk Hs. cbv zeta. unfold cleanup. cbn. rewrite Ef in *.
  rewrite mset_last by (by eapply keys_below). split.
  - apply Forall_app. split; [done|]. by repeat constructor.
  - unfold keys, lenZ in *. rewrite fmap_app, length_app in *. exact Hk.
Qed.

(** What an open popup answers goes to the call that waits for it. *)
Lemma inv_flow o k fl f p : inv o -> writing (page o) = [] -> mget k (flows (page o)) = Some fl ->
  fl_settled fl = false -> (f = 1 \/ f = -1) -> p <> ""%string ->
  inv (set_page (write_page (fl_call fl) (fl_sab fl) f p (cleanup k fl (page o))) o).
Proof.
  intros Hi Ew Eg Es Hf Hp. pose proof (fun H => settled_get _ k fl H Eg) as Hun.
  destruct (inv_busy o Hi) as [(_ & _ & E)|(m & t & Hb & Hn & Ht & H0 & Hst)]; [rewrite Hun in Es by done; done|].
  destruct Hst as [_ _ E ?|fs _ Eq Ef Hfs Hu|? ? ? _ E ? ? ?]; [rewrite Hun in Es by done; done| |rewrite Hun in Es by done; done].
  pose proof Hi as [[Hs Hpg] Hli Hk Han Ho Hr Hok].
  assert (k = lenZ fs /\ fl = MkFlow m 0 false) as [-> ->].
  { rewrite Ef in Eg, Hk. destruct (mget_last fs _ _ _ _ (keys_below _ _ _ Hk eq_refl) Eg) as [Eg'|]; [|done].
    by rewrite (settled_get _ _ _ Hfs Eg') in Es. }
  destruct (cleanup_popup fs m (page o) Ef Hk Hfs) as [Hset Hkeys].
  unfold set_page. by apply (inv_answer _ _ t).
Qed.

Lemma or_text_nonempty o d : d <> ""%string -> or_text o d <> ""%string.
Proof. destruct o as [s|]; [|done]. cbn. by destruct (String.eqb_spec s ""). Qed.

Lemma inv_step callbacks o o' : inv o -> oauth_step w timeouts callbacks o o' -> inv o'.
Proof.
  intros Hi [t Ht Hpc|k expired malloc_ok Hk Hne|k wr ws Ew|popup w' n ms Ew Eq|k f m _ Ew Eg|k f Ew Eg].
  - by apply inv_call.
  - destruct (i_sab _ Hi) as [Hs _]. rewrite Hs in Hk. injection Hk as <-. by apply inv_engine.
  - by apply inv_write.
  - by apply inv_popup.
  - unfold bc_onmessage. destruct (fl_settled f) eqn:Es; [by destruct o|]. cbv zeta.
    destruct (truthy_text (cb_code m)) eqn:Et; (apply inv_flow; [done..| |]); auto.
    + unfold truthy_text in Et. destruct (cb_code m) as [s|]; [|done]. cbn. by destruct (String.eqb_spec s "").
    + by do 2 apply or_text_nonempty.
  - unfold timed_out. destruct (fl_settled f) eqn:Es; [by destruct o|]. by apply inv_flow; auto.
Qed.

Lemma inv_installed : inv (installed w).
Proof. split; cbn; try done; [constructor|split; [done|]; split; [done|constructor]]. Qed.

(** ** A call returns *)

Abbreviation auto_step := (oauth_step w timeouts (fun _ => False)).
Definition can_return (o : OAuth) : Prop := exists o', rtc auto_step o o' /\ pc (engine o') = A_idle.

Lemma can_step o o' : auto_step o o' -> can_return o' -> can_return o.
Proof. intros Hs (o2 & Hr & Hp). exists o2. split; [by eapply rtc_l|done]. Qed.

Lemma can_engine o : inv o -> pc (engine o) <> A_idle ->
  (inv (engine_step w 0 false true o) -> can_return (engine_step w 0 false true o)) -> can_return o.
Proof.
  intros Hi Hne Hc. eapply can_step; [apply (O_engine _ _ _ _ 0 false true); [apply Hi|done]|].
  apply Hc. by apply inv_engine.
Qed.

Lemma can_idle o : pc (engine o) = A_idle -> can_return o.
Proof. intros Hp. exists o. split; [constructor|done]. Qed.

Lemma can_copy k o n f len read : inv o -> pc (engine o) = A_copy n f len read -> (Z.to_nat (len - lenZ read) <= k)%nat ->
  can_return o.
Proof.
  revert o read. induction k as [|k IH]; intros o read Hi Hp Hk; apply can_engine; auto; try congruence;
    unfold engine_step; rewrite Hp; intros Hi'.
  - rewrite (proj2 (Z.ltb_ge _ _)) in * by lia. destruct (f =? -1); by apply can_idle.
  - destruct (Z.ltb_spec (lenZ read) len); [|destruct (f =? -1); by apply can_idle].
    eapply IH; [done|reflexivity|]. unfold lenZ in *. rewrite length_app. cbn. lia.
Qed.

Lemma can_len o n f : inv o -> pc (engine o) = A_len n f -> can_return o.
Proof.
  intros Hi Hp. pose proof (i_pc _ Hi) as Hok. unfold pc_ok in Hok. rewrite Hp in Hok. destruct Hok as (_ & p & Hw).
  destruct (written_len _ _ _ _ Hw) as [El Hl].
  apply can_engine; [done|congruence|]. unfold engine_step. rewrite Hp.
  rewrite El, (proj2 (Z.leb_gt _ 0)) by lia. destruct (_ =? -1); intros Hi2; [by eapply can_copy|].
  apply can_engine; [done|done|]. cbn. intros Hi3. by eapply can_copy.
Qed.

Lemma can_flag o n : inv o -> pc (engine o) = A_flag n -> can_return o.
Proof.
  intros Hi Hp. apply can_engine; [done|congruence|]. unfold engine_step. rewrite Hp. intros Hi1. by eapply can_len.
Qed.

Lemma can_look o n t el : inv o -> pc (engine o) = A_look n t el -> sab_flag (sab_of o 0) <> 0 -> can_return o.
Proof.
  intros Hi Hp Hf. apply can_engine; [done|congruence|]. unfold engine_step. rewrite Hp.
  rewrite (proj2 (Z.eqb_neq _ 0)) by done. intros Hi1. by eapply can_flag.
Qed.

Lemma can_written o n t : inv o -> busy (engine o) n t -> sab_flag (sab_of o 0) <> 0 -> can_return o.
Proof.
  intros Hi [el [Hp|[Hp|Hp]]] Hf; [by eapply can_look|..];
    (apply can_engine; [done|congruence|]); unfold engine_step; rewrite Hp.
  - rewrite (proj2 (Z.eqb_neq _ 0)) by done. intros Hi1. by eapply can_look.
  - intros Hi1. by eapply can_look.
Qed.

Lemma can_writing ws o n t : inv o -> busy (engine o) n t -> writing (page o) = ws -> ws <> [] -> can_return o.
Proof.
  revert o. induction ws as [|[k wr] ws IH]; intros o Hi Hb Ew Hne; [done|].
  pose proof (inv_write _ _ _ _ Hi Ew) as Hi1. eapply can_step; [by apply (O_write _ _ _ _ k wr ws)|].
  destruct ws as [|x ws]; [|by apply IH].
  destruct (inv_busy o Hi) as [[E _]|(m & t' & Hb' & _ & _ & _ & Hst)]; [congruence|].
  destruct Hst as [E ? ?|fl E ? ?|f p l Hq Hf (_ & Hff & _) E Hl Hh]; [congruence..|]. rewrite Ew in E.
  destruct l as [|y l]; [|by destruct l]. injection E as -> ->. eapply can_written; [done|exact Hb|].
  unfold sab_of. cbn. rewrite lookup_insert_eq. cbn. lia.
Qed.

Lemma mget_last_eq (fl : list (Z * Flow)) k x : k ∉ keys fl -> mget k (fl ++ [(k, x)]) = Some x.
Proof.
  induction fl as [|[i g] fl IH]; cbn; [intros _; by rewrite decide_True|].
  intros [Hi Hn]%not_elem_of_cons. rewrite decide_False by done. auto.
Qed.

Lemma can_busy o n t : inv o -> busy (engine o) n t -> can_return o.
Proof.
  intros Hi Hb. assert (waits o n t) as (_ & [[_ Hst]|(f & p & _ & (_ & Hf & _) & H0 & _)]).
  { pose proof (i_pc _ Hi) as Hok. unfold pc_ok in Hok. destruct Hb as [el [Hp|[Hp|Hp]]]; rewrite Hp in Hok; apply Hok. }
  2: { eapply can_written; [done..|]. rewrite H0. by destruct Hf as [-> | ->]. }
  destruct Hst as [Ew Eq Hf Hu|fs Ew Eq Ef Hfs Hu|f p l _ _ _ Ew _ _].
  - pose proof (inv_popup o false w n [] Hi Ew Eq) as Hi1.
    eapply can_step; [by apply (O_open _ _ _ _ false w n [])|]. eapply can_writing; [exact Hi1|exact Hb|reflexivity|].
    rewrite on_open_once by apply Hi. unfold handleOpenAuthUrl. destruct (i_sab _ Hi) as [_ ->]. cbn. rewrite Ew. discriminate.
  - assert (mget (lenZ fs) (flows (page o)) = Some (MkFlow n 0 false)) as Eg.
    { pose proof (i_keys _ Hi) as Hk. rewrite Ef in *. apply mget_last_eq. by eapply keys_below. }
    eapply can_step; [by apply (O_timer _ _ _ _ (lenZ fs) _ Ew Eg)|].
    eapply can_writing; [|exact Hb|reflexivity|unfold timed_out; cbn; rewrite Ew; discriminate].
    by apply (inv_flow o _ (MkFlow n 0 false)); auto.
  - by eapply can_writing; [| |exact Ew|destruct l].
Qed.

Lemma calls_can_return o : inv o -> can_return o.
Proof.
  intros Hi. destruct (pc (engine o)) as [|n t|n t|n t e|n t e|n t e|n|n f|n len|n f len read] eqn:Hp.
  - by apply can_idle.
  - apply can_engine; [done|congruence|]. unfold engine_step. rewrite Hp. intros Hi1.
    apply can_engine; [done|done|]. cbn. intros Hi2. apply (can_busy _ n t); [done|]. exists 0. by left.
  - apply can_engine; [done|congruence|]. unfold engine_step. rewrite Hp.
    intros Hi2. apply (can_busy _ n t); [done|]. exists 0. by left.
  - apply (can_busy _ n t); [done|]. exists e. auto.
  - apply (can_busy _ n t); [done|]. exists e. auto.
  - apply (can_busy _ n t); [done|]. exists e. auto.
  - by eapply can_flag.
  - by eapply can_len.
  - apply can_engine; [done|congruence|]. unfold engine_step. rewrite Hp. intros Hi1. by eapply can_copy.
  - by eapply can_copy.
Qed.
End Invariant.

(** C22: An authorization gets its own answer.  With one bridge, and however the two
    threads interleave, if no call gives up on its own, every call that returned was
    answered by exactly one write of the page made for it.  For a code it returns the
    code on the heap byte for byte, cut after 8184 bytes, if [_malloc] gave it a block,
    and null if it did not; for an error it returns null, and the error
    it leaves is the answer's text read byte by byte, which is the text itself if it is ASCII
    ([ascii_errors_arrive], [error_texts_are_read_as_bytes]).
    No answer is left for a later call. *)
Theorem authorizations_get_their_own_answer w o :
  reachable (oauth_step w (fun t => t <= 0) (fun _ => True)) (eq (installed w)) o ->
  NoDup (answers (page o)).*1.*1 /\
  Forall (fun r => exists f p, (r.1.1, f, p) ∈ answers (page o) /\ delivered (mallocs (engine o)) r.1.1 f p r.1.2 r.2) (returns (engine o)) /\
  (pc (engine o) = A_idle -> writing (page o) = [] /\ to_page o = [] /\ settled_flows (flows (page o))).
Proof.
  intros Hr. assert (inv w o) as Hi.
  { revert o Hr. apply reachable_invariant; [by intros o <-; apply inv_installed|by intros; eapply inv_step]. }
  split; [apply Hi|]. split; [apply Hi|]. intros Hpc. pose proof (i_pc _ _ Hi) as Hok. unfold pc_ok in Hok.
  by rewrite Hpc in Hok.
Qed.

(** No authorization hangs: from every reachable state, also if no popup ever
    answers, the page's timer and the steps of the two threads lead to the return
    of the call that is under way. *)
Theorem authorizations_return w o :
  reachable (oauth_step w (fun t => t <= 0) (fun _ => True)) (eq (installed w)) o ->
  exists o', rtc (oauth_step w (fun t => t <= 0) (fun _ => False)) o o' /\ pc (engine o') = A_idle.
Proof.
  intros Hr. apply calls_can_return. revert o Hr.
  apply reachable_invariant; [by intros o <-; apply inv_installed|by intros; eapply inv_step].
Qed.

(** A text below 8185 bytes arrives whole. *)
Lemma short_codes_arrive_whole p : lenZ (utf8_encode p) <= maxBytes -> utf8_decode (sent p) = p.
Proof.
  intros Hl. unfold sent, subarray. rewrite drop_0, take_ge; [apply utf8_roundtrip|unfold lenZ in Hl; lia].
Qed.

Definition ascii_text (p : string) : Prop := Forall (fun c => Z.of_nat (nat_of_ascii c) < 128) (String.list_ascii_of_string p).

(** The message of an error in ASCII, if it is not too long, is what the engine has. *)
Lemma ascii_errors_arrive p : ascii_text p -> lenZ (utf8_encode p) <= maxBytes -> text_of_bytes (sent p) = p.
Proof.
  intros Hp Hl. unfold sent, subarray. rewrite drop_0, take_ge by (unfold lenZ in Hl; lia). clear Hl.
  unfold text_of_bytes, utf8_encode. rewrite <- (String.string_of_list_ascii_of_string p) at 2. f_equal.
  unfold ascii_text in Hp. induction Hp as [|c l Hc _ IH]; [done|]. cbn [concat map].
  rewrite fmap_app, IH. unfold encode_unit. fold (code c) in Hc. rewrite (proj2 (Z.ltb_lt _ _) Hc). cbn. unfold char_of, code. by rewrite Nat2Z.id, ascii_nat_embedding.
Qed.

(** ** Runs *)

Inductive Move := M_call (t : Z) | M_engine (expired malloc_ok : bool) | M_write | M_open (popup : bool)
| M_callback (k : Z) (m : OAuthCallback) | M_timer (k : Z).

Section Play.
Context (w : Z) (timeouts : Z -> Prop) `{forall t, Decision (timeouts t)}.

Definition play (o : OAuth) (m : Move) : option OAuth :=
  match m with
  | M_call t => match pc (engine o) with
                | A_idle => if decide (timeouts t) then Some (open_auth_url t o) else None
                | _ => None
                end
  | M_engine e b => match oauthInt32 (engine o), pc (engine o) with
                    | None, _ | _, A_idle => None
                    | Some k, _ => Some (engine_step w k e b o)
                    end
  | M_write => match writing (page o) with
               | (k, wr) :: ws => Some (do_write k wr (set_page (MkPage (oauthSAB (page o)) (next_sab (page o))
                   (listeners (page o)) (flows (page o)) ws (to_workers (page o)) (answers (page o))) o))
               | [] => None
               end
  | M_open popup => match writing (page o), to_page o with
                    | [], (w', n) :: ms => Some (MkOAuth (on_open_auth_url popup w' n (page o)) (engine o) (sabs o) ms)
                    | _, _ => None
                    end
  | M_callback k m => match writing (page o), mget k (flows (page o)) with
                      | [], Some f => Some (set_page (bc_onmessage k f m (page o)) o)
                      | _, _ => None
                      end
  | M_timer k => match writing (page o), mget k (flows (page o)) with
                 | [], Some f => Some (set_page (timed_out k f (page o)) o)
                 | _, _ => None
                 end
  end.
Definition play_all (ms : list Move) (o : OAuth) : option OAuth := foldl (fun o m => o ≫= fun o => play o m) (Some o) ms.

Lemma play_step o m o' : play o m = Some o' -> oauth_step w timeouts (fun _ => True) o o'.
Proof.
  destruct m; cbn; intros E.
  - destruct (pc (engine o)) eqn:Hp; try done. destruct (decide _); [|done]. injection E as <-. by constructor.
  - destruct (oauthInt32 (engine o)) as [k|] eqn:Hk; [|done].
    assert (pc (engine o) <> A_idle /\ o' = engine_step w k expired malloc_ok o) as [Hp ->]
      by (destruct (pc (engine o)); by simplify_eq).
    by constructor.
  - destruct (writing (page o)) as [|[k wr] ws] eqn:Ew; [done|]. injection E as <-. by constructor.
  - destruct (writing (page o)) eqn:Ew; [|done]. destruct (to_page o) as [|[w' n] ms] eqn:Eq; [done|].
    injection E as <-. by constructor.
  - destruct (writing (page o)) eqn:Ew; [|done]. destruct (mget k _) eqn:Eg; [|done]. injection E as <-. by apply (O_callback _ _ _ _ k).
  - destruct (writing (page o)) eqn:Ew; [|done]. destruct (mget k _) eqn:Eg; [|done]. injection E as <-. by apply (O_timer _ _ _ _ k).
Qed.

Lemma play_reaches ms o o' : play_all ms o = Some o' ->
  reachable (oauth_step w timeouts (fun _ => True)) (eq (installed w)) o ->
  reachable (oauth_step w timeouts (fun _ => True)) (eq (installed w)) o'.
Proof.
  revert o. induction ms as [|m ms IH]; intros o; unfold play_all; cbn; [by intros [= <-]|].
  destruct (play o m) as [o1|] eqn:E; cbn.
  - intros Hp Hr. eapply IH; [exact Hp|]. eapply reach_step; [exact Hr|]. by eapply play_step.
  - intros Hp. exfalso. clear -Hp. induction ms; cbn in Hp; auto. done.
Qed.
End Play.

Definition callback (code : string) : OAuthCallback := {| cb_code := Some code; cb_errorDescription := None; cb_error := None |}.
Definition callback_error (err : string) : OAuthCallback := {| cb_code := None; cb_errorDescription := None; cb_error := Some err |}.

(** A call that got a code, and one whose popup failed. *)
Definition sample_moves : list Move :=
  [M_call 0] ++ replicate 4 (M_engine false true) ++ [M_open true; M_callback 0 (callback "ab")] ++ replicate 4 M_write ++
  replicate 8 (M_engine false true) ++
  [M_call 0; M_engine false true; M_engine false true; M_open true; M_callback 1 (callback_error "no")] ++ replicate 4 M_write ++
  replicate 6 (M_engine false true).

Lemma auth_run : exists o,
  play_all 9 (fun t => t <= 0) sample_moves (installed 9) = Some o /\
  returns (engine o) = [(1, Auth_text [97; 98], ""%string); (2, Auth_null, "no"%string)] /\ pc (engine o) = A_idle.
Proof. eexists. split; [vm_compute; reflexivity|]. split; vm_compute; reflexivity. Qed.

Lemma authorizations_get_their_own_answer_witness :
  exists o, returns (engine o) = [(1, Auth_text [97; 98], ""%string); (2, Auth_null, "no"%string)] /\
  NoDup (answers (page o)).*1.*1 /\
  Forall (fun r => exists f p, (r.1.1, f, p) ∈ answers (page o) /\ delivered (mallocs (engine o)) r.1.1 f p r.1.2 r.2) (returns (engine o)) /\
  (pc (engine o) = A_idle -> writing (page o) = [] /\ to_page o = [] /\ settled_flows (flows (page o))).
Proof.
  destruct auth_run as (o & Hp & Hr & _). exists o. split; [exact Hr|].
  apply (authorizations_get_their_own_answer 9). eapply play_reaches; [exact Hp|]. by apply reach_init.
Defined.

(** A popup that nobody answers. *)
Lemma popup_run : exists o,
  play_all 9 (fun t => t <= 0) [M_call 0; M_engine false true; M_engine false true; M_open true] (installed 9) = Some o /\
  pc (engine o) = A_look 1 0 0.
Proof. eexists. split; [vm_compute; reflexivity|reflexivity]. Qed.

Lemma authorizations_return_witness : exists o, pc (engine o) = A_look 1 0 0 /\
  exists o', rtc (oauth_step 9 (fun t => t <= 0) (fun _ => False)) o o' /\ pc (engine o') = A_idle.
Proof.
  destruct popup_run as (o & Hp & Hpc). exists o. split; [exact Hpc|]. apply (authorizations_return 9).
  eapply play_reaches; [exact Hp|]. by apply reach_init.
Defined.

(** ** Where it fails *)

(** A call that gave up leaves its popup behind: the next call, which asked for
    another URL, returns the code of that popup. *)
Lemma late_codes_go_to_the_next_call : exists o,
  play_all 9 (fun _ => True)
    ([M_call 2000] ++ replicate 3 (M_engine false true) ++ [M_open true; M_engine false true; M_engine true true] ++
     [M_call 0] ++ replicate 4 (M_engine false true) ++ [M_callback 0 (callback "x")] ++ replicate 3 M_write ++
     replicate 7 (M_engine false true)) (installed 9) = Some o /\
  returns (engine o) = [(1, Auth_null, "Authentication timed out"%string); (2, Auth_text [120], "Authentication timed out"%string)] /\
  answers (page o) = [(1, 1, "x"%string)].
Proof. eexists. split; [vm_compute; reflexivity|]. split; vm_compute; reflexivity. Qed.

(** The buffer is that of the bridge installed last: with two workers the answer to
    the first one's request is written where only the second one looks. *)
Lemma last_bridge_gets_every_answer :
  let p := installVgiOAuthBridge true 8 (installVgiOAuthBridge true 9 no_page) in
  to_workers p = [(9, 0); (8, 1)] /\
  Forall (fun wr => wr.1 = 1) (writing (on_open_auth_url false 9 1 p)).
Proof. split; [done|]. vm_compute. repeat constructor. Qed.

(** Installing twice on one worker opens two popups for each request. *)
Lemma installing_twice_opens_two_popups :
  let p := installVgiOAuthBridge true 9 (installVgiOAuthBridge true 9 no_page) in
  length (flows (on_open_auth_url true 9 1 p)) = 2%nat.
Proof. reflexivity. Qed.

(** The text of an error is written in UTF-8 and read byte by byte. *)
Lemma error_texts_are_read_as_bytes : exists p,
  delivered [] 1 (-1) p Auth_null (text_of_bytes (sent p)) /\ text_of_bytes (sent p) <> p.
Proof. exists (String (ascii_of_nat 233) ""). split; [by split|]. vm_compute. discriminate. Qed.
