(* ===== verification/Platform.v ===== *)
(** * Platform: which build a page loads ([platform.ts], [targets/*-blocking.ts])

    The checks of wasm-feature-detect are the class [FeatureDetect] over a world [W];
    their answers are cached in variables of the module.  The promises they return
    are awaited one after the other. *)
From S2P Require Import Prelude Regex.
From stdpp Require Import base tactics list strings.
From Stdlib Require Import ZArith Ascii Lia.
Open Scope Z_scope.

(** ** The user agent *)

(** [navigator], undefined under Node. *)
Record Navigator := { nav_userAgent : string }.
Definition isNode (nav : option Navigator) : bool := match nav with None => true | Some _ => false end.
Definition userAgent (nav : option Navigator) : string := match nav with None => "node" | Some n => nav_userAgent n end.

Fixpoint starts_with (p l : text) : bool :=
  match p, l with
  | [], _ => true
  | c :: p, d :: l => bool_decide (c = d) && starts_with p l
  | _, [] => false
  end.
Fixpoint includes (p l : text) : bool :=
  starts_with p l || match l with [] => false | _ :: l => includes p l end.
Definition isFirefox (nav : option Navigator) : bool := includes (chars "Firefox") (chars (userAgent nav)).

(** A letter of the text is the lower-case letter [c] in either case. *)
Definition same_letter (c d : ascii) : bool :=
  bool_decide (c = d) || bool_decide (nat_of_ascii d = nat_of_ascii c - 32)%nat.
Fixpoint starts_with_i (p l : text) : bool :=
  match p, l with
  | [], _ => true
  | c :: p, d :: l => same_letter c d && starts_with_i p l
  | _, [] => false
  end.
Definition is_line_terminator (c : ascii) : bool := bool_decide (c = newline) || bool_decide (c = "013"%char).

(** One round of [(?!chrome|android).] *)
Definition plain_at (l : text) : bool :=
  match l with
  | [] => false
  | c :: _ => negb (starts_with_i (chars "chrome") l) && negb (starts_with_i (chars "android") l) &&
              negb (is_line_terminator c)
  end.
(** [/^((?!chrome|android).)*safari/i], from its start. *)
Fixpoint safari_test (l : text) : bool :=
  starts_with_i (chars "safari") l || (plain_at l && match l with [] => false | _ :: l => safari_test l end).
Definition isSafari (nav : option Navigator) : bool := safari_test (chars (userAgent nav)).

(** What the pattern asks for: a place where [safari] begins, and only plain places before. *)
Definition safari_place (l : text) (i : nat) : Prop :=
  starts_with_i (chars "safari") (drop i l) = true /\ forall j, (j < i)%nat -> plain_at (drop j l) = true.

Lemma safari_test_spec l : safari_test l = true <-> exists i, safari_place l i.
Proof.
  induction l as [|c l IH]; [split; [discriminate|]; intros (i & Hi & _); by destruct i|].
  change (safari_test (c :: l)) with
    (starts_with_i (chars "safari") (c :: l) || (plain_at (c :: l) && safari_test l)).
  rewrite orb_true_iff, andb_true_iff, IH. split.
  - intros [Hs|[Hp (i & Hi & Hj)]]; [exists 0%nat; split; [done|lia]|].
    exists (S i). split; [done|]. intros [|j] Hlt; [done|]. apply Hj. lia.
  - intros ([|i] & Hi & Hj); [by left|]. right. split; [apply (Hj 0%nat); lia|].
    exists i. split; [done|]. intros j Hlt. apply (Hj (S j)). lia.
Qed.

(** ** Bundles *)

Record BundleFiles := { bf_mainModule : string; bf_mainWorker : string }.
Record CoiFiles := { coi_mainModule : string; coi_mainWorker : string; coi_pthreadWorker : string }.
Record DuckDBBundles := { mvp : BundleFiles; eh : option BundleFiles; coi : option CoiFiles }.
Record DuckDBBundle := { mainModule : string; mainWorker : option string; pthreadWorker : option string }.

Definition getJsDelivrBundles (PACKAGE_NAME PACKAGE_VERSION : string) : DuckDBBundles :=
  let url := "https://cdn.jsdelivr.net/npm/" +:+ PACKAGE_NAME +:+ "@" +:+ PACKAGE_VERSION +:+ "/dist/" in
  {| mvp := {| bf_mainModule := url +:+ "duckdb-mvp.wasm"; bf_mainWorker := url +:+ "duckdb-browser-mvp.worker.js" |};
     eh := Some {| bf_mainModule := url +:+ "duckdb-eh.wasm"; bf_mainWorker := url +:+ "duckdb-browser-eh.worker.js" |};
     coi := None |}.

(** ** Features *)

Record PlatformFeatures := {
  bigInt64Array : bool; crossOriginIsolated : bool; wasmExceptions : bool; wasmSIMD : bool;
  wasmBulkMemory : bool; wasmThreads : bool
}.

Class FeatureDetect (W : Type) := {
  check_exceptions : JS W bool; check_threads : JS W bool; check_simd : JS W bool; check_bulkMemory : JS W bool
}.

(** The globals the module looks at. *)
Record Globals := { hasBigInt64Array : bool; navigator : option Navigator; global_crossOriginIsolated : option bool }.

Record PlatformState (W : Type) := MkPlatform {
  p_bigInt64Array : option bool; p_wasmExceptions : option bool; p_wasmThreads : option bool;
  p_wasmSIMD : option bool; p_wasmBulkMemory : option bool; p_world : W
}.
Arguments MkPlatform {W}. Arguments p_bigInt64Array {W}. Arguments p_wasmExceptions {W}. Arguments p_wasmThreads {W}.
Arguments p_wasmSIMD {W}. Arguments p_wasmBulkMemory {W}. Arguments p_world {W}.

Section Platform.
Context {W : Type} `{FeatureDetect W}.
Abbreviation P := (PlatformState W).

Definition set_p_world (w : W) (s : P) : P :=
  MkPlatform (p_bigInt64Array s) (p_wasmExceptions s) (p_wasmThreads s) (p_wasmSIMD s) (p_wasmBulkMemory s) w.

(** [if (x == null) x = await check()], for the variable [get]; the value of [x!]. *)
Definition cached (get : P -> option bool) (set : bool -> P -> P) (check : JS P bool) : JS P bool :=
  let! known := gets get in
  match known with
  | Some b => ret b
  | None => let! b := check in modify (set b) ;;; ret b
  end.
Definition in_p {A} (m : JS W A) : JS P A := zoom p_world set_p_world m.

Definition getPlatformFeatures (g : Globals) : JS P PlatformFeatures :=
  let! big := cached p_bigInt64Array
    (fun b s => MkPlatform (Some b) (p_wasmExceptions s) (p_wasmThreads s) (p_wasmSIMD s) (p_wasmBulkMemory s) (p_world s))
    (ret (hasBigInt64Array g)) in
  let! exc := cached p_wasmExceptions
    (fun b s => MkPlatform (p_bigInt64Array s) (Some b) (p_wasmThreads s) (p_wasmSIMD s) (p_wasmBulkMemory s) (p_world s))
    (in_p check_exceptions) in
  let! thr := cached p_wasmThreads
    (fun b s => MkPlatform (p_bigInt64Array s) (p_wasmExceptions s) (Some b) (p_wasmSIMD s) (p_wasmBulkMemory s) (p_world s))
    (in_p check_threads) in
  let! simd := cached p_wasmSIMD
    (fun b s => MkPlatform (p_bigInt64Array s) (p_wasmExceptions s) (p_wasmThreads s) (Some b) (p_wasmBulkMemory s) (p_world s))
    (in_p check_simd) in
  let! bulk := cached p_wasmBulkMemory
    (fun b s => MkPlatform (p_bigInt64Array s) (p_wasmExceptions s) (p_wasmThreads s) (p_wasmSIMD s) (Some b) (p_world s))
    (in_p check_bulkMemory) in
  ret {| bigInt64Array := big; crossOriginIsolated := isNode (navigator g) || default false (global_crossOriginIsolated g);
         wasmExceptions := exc; wasmSIMD := simd; wasmBulkMemory := bulk; wasmThreads := thr |}.

Definition bundle_for (bundles : DuckDBBundles) (platform : PlatformFeatures) : DuckDBBundle :=
  let fallback := {| mainModule := bf_mainModule (mvp bundles); mainWorker := Some (bf_mainWorker (mvp bundles));
                     pthreadWorker := None |} in
  if wasmExceptions platform then
    match (if wasmSIMD platform && wasmThreads platform && crossOriginIsolated platform then coi bundles else None) with
    | Some c => {| mainModule := coi_mainModule c; mainWorker := Some (coi_mainWorker c);
                   pthreadWorker := Some (coi_pthreadWorker c) |}
    | None =>
        match eh bundles with
        | Some e => {| mainModule := bf_mainModule e; mainWorker := Some (bf_mainWorker e); pthreadWorker := None |}
        | None => fallback
        end
    end
  else fallback.
Definition selectBundle (g : Globals) (bundles : DuckDBBundles) : JS P DuckDBBundle :=
  let! platform := getPlatformFeatures g in ret (bundle_for bundles platform).

(** [createDuckDB] of the blocking targets: the build and its module. *)
Inductive Build := Build_mvp | Build_eh.
Definition createDuckDB (g : Globals) (bundles : DuckDBBundles) : JS P (Build * string) :=
  let! platform := getPlatformFeatures g in
  if wasmExceptions platform then
    match eh bundles with
    | Some e => ret (Build_eh, bf_mainModule e)
    | None => ret (Build_mvp, bf_mainModule (mvp bundles))
    end
  else ret (Build_mvp, bf_mainModule (mvp bundles)).

(** ** What is selected *)

(** What a build needs of the platform. *)
Inductive Variant := V_mvp | V_eh | V_coi.
Definition needs (v : Variant) (p : PlatformFeatures) : bool :=
  match v with
  | V_mvp => true
  | V_eh => wasmExceptions p
  | V_coi => wasmExceptions p && wasmSIMD p && wasmThreads p && crossOriginIsolated p
  end.
Definition offered (v : Variant) (bundles : DuckDBBundles) : option DuckDBBundle :=
  match v with
  | V_mvp => Some {| mainModule := bf_mainModule (mvp bundles); mainWorker := Some (bf_mainWorker (mvp bundles)); pthreadWorker := None |}
  | V_eh => (fun e => {| mainModule := bf_mainModule e; mainWorker := Some (bf_mainWorker e); pthreadWorker := None |}) <$> eh bundles
  | V_coi => (fun c => {| mainModule := coi_mainModule c; mainWorker := Some (coi_mainWorker c);
                          pthreadWorker := Some (coi_pthreadWorker c) |}) <$> coi bundles
  end.
Definition rank (v : Variant) : nat := match v with V_mvp => 0 | V_eh => 1 | V_coi => 2 end.
Definition runs (bundles : DuckDBBundles) (p : PlatformFeatures) (v : Variant) : Prop :=
  needs v p = true /\ is_Some (offered v bundles).

Lemma bundle_for_best bundles p : exists v, runs bundles p v /\ offered v bundles = Some (bundle_for bundles p) /\
  forall v', runs bundles p v' -> (rank v' <= rank v)%nat.
Proof.
  unfold bundle_for, runs. destruct p as [big iso exc simd bulk thr]. cbn.
  destruct exc; [|exists V_mvp; split; [by split|]; split; [done|]; by intros [| |] [? ?]].
  destruct (eh bundles) as [e|] eqn:Ee, (coi bundles) as [c|] eqn:Ec, simd, thr, iso; cbn;
    first
      [ exists V_coi; cbn; rewrite Ec; split; [by split|]; split; [done|]; intros [| |] [? ?]; cbn; lia
      | exists V_eh; cbn; rewrite Ee; split; [by split|]; split; [done|]; intros [| |] [? Ho]; cbn in *;
        first [lia|done|by rewrite Ec in Ho; destruct Ho]
      | exists V_mvp; cbn; split; [by split|]; split; [done|]; intros [| |] [? Ho]; cbn in *;
        first [lia|done|by rewrite Ee in Ho; destruct Ho|by rewrite Ec in Ho; destruct Ho] ].
Qed.

(** The features are known: every check was made. *)
Definition known (s : P) (big exc thr simd bulk : bool) : Prop :=
  p_bigInt64Array s = Some big /\ p_wasmExceptions s = Some exc /\ p_wasmThreads s = Some thr /\
  p_wasmSIMD s = Some simd /\ p_wasmBulkMemory s = Some bulk.
Definition features (g : Globals) (big exc thr simd bulk : bool) : PlatformFeatures :=
  {| bigInt64Array := big; crossOriginIsolated := isNode (navigator g) || default false (global_crossOriginIsolated g);
     wasmExceptions := exc; wasmSIMD := simd; wasmBulkMemory := bulk; wasmThreads := thr |}.

Lemma known_features g s big exc thr simd bulk : known s big exc thr simd bulk ->
  getPlatformFeatures g s = (Normal (features g big exc thr simd bulk), s).
Proof.
  intros (E1 & E2 & E3 & E4 & E5). unfold getPlatformFeatures, cached, bind, gets, ret.
  by rewrite E1, E2, E3, E4, E5.
Qed.

(** One check, made or known: the other variables stay. *)
Lemma cached_cases get set check (s : P) b s' : cached get set check s = (Normal b, s') ->
  (get s = Some b /\ s' = s) \/ exists s1, check s = (Normal b, s1) /\ s' = set b s1.
Proof.
  unfold cached, bind, gets, modify, ret. destruct (get s) as [b'|] eqn:E; [intros [= <- <-]; by left|].
  destruct (check s) as [[b'|e] s1] eqn:Ec; [|done]. intros [= <- <-]. right. eauto.
Qed.

Lemma in_p_same {A} (m : JS W A) (s : P) o s' : in_p m s = (o, s') -> exists w, s' = set_p_world w s.
Proof. unfold in_p, zoom. destruct (m (p_world s)) as [o' w]. intros [= <- <-]. eauto. Qed.

Ltac check_case E := apply cached_cases in E as [[E ->]|(? & E & ->)];
  [|first [injection E as <- <- | apply in_p_same in E as [? ->]]].

Lemma features_become_known g s p s' : getPlatformFeatures g s = (Normal p, s') ->
  exists big exc thr simd bulk, known s' big exc thr simd bulk /\ p = features g big exc thr simd bulk.
Proof.
  unfold getPlatformFeatures. intros Hp.
  apply bind_inv_normal in Hp as (big & s1 & E1 & Hp). apply bind_inv_normal in Hp as (exc & s2 & E2 & Hp).
  apply bind_inv_normal in Hp as (thr & s3 & E3 & Hp). apply bind_inv_normal in Hp as (simd & s4 & E4 & Hp).
  apply bind_inv_normal in Hp as (bulk & s5 & E5 & Hp). injection Hp as <- <-.
  exists big, exc, thr, simd, bulk. split; [|done].
  check_case E1; check_case E2; check_case E3; check_case E4; check_case E5; cbn in *; by repeat split.
Qed.
End Platform.

(** The bundle that is selected is one the platform can run, and among those
    offered that it can run the best: threads if the page is isolated and has SIMD
    and threads, otherwise exceptions, otherwise the plain build.  Once it was
    selected, the page's answer does not change, whatever the checks answer later. *)
Theorem the_best_bundle_is_selected {W} `{FeatureDetect W} g bundles (s : PlatformState W) b s' :
  selectBundle g bundles s = (Normal b, s') ->
  exists p v, runs bundles p v /\ offered v bundles = Some b /\
    (forall v', runs bundles p v' -> (rank v' <= rank v)%nat) /\
    (forall w, getPlatformFeatures g (set_p_world w s') = (Normal p, set_p_world w s') /\
               selectBundle g bundles (set_p_world w s') = (Normal b, set_p_world w s')).
Proof.
  intros Hs. apply bind_inv_normal in Hs as (p & s1 & Hp & Hs). injection Hs as <- <-.
  destruct (features_become_known g s p s1 Hp) as (big & exc & thr & simd & bulk & Hk & ->).
  destruct (bundle_for_best bundles (features g big exc thr simd bulk)) as (v & Hr & Ho & Hb).
  exists (features g big exc thr simd bulk), v. split; [done|]. split; [done|]. split; [done|]. intros w.
  pose proof (known_features g (set_p_world w s1) big exc thr simd bulk Hk) as Hg. split; [exact Hg|].
  unfold selectBundle. by rewrite (bind_normal _ _ _ _ _ Hg).
Qed.

(** Checks that answer by a list of bits. *)
Definition next_bit : JS (list bool) bool := fun l => match l with b :: l => (Normal b, l) | [] => (Normal false, []) end.
#[export] Instance sample_detect : FeatureDetect (list bool) := {|
  check_exceptions := next_bit; check_threads := next_bit; check_simd := next_bit; check_bulkMemory := next_bit
|}.
Definition sample_bundles : DuckDBBundles :=
  {| mvp := {| bf_mainModule := "m.wasm"; bf_mainWorker := "m.js" |};
     eh := Some {| bf_mainModule := "e.wasm"; bf_mainWorker := "e.js" |};
     coi := Some {| coi_mainModule := "c.wasm"; coi_mainWorker := "c.js"; coi_pthreadWorker := "p.js" |} |}.

Lemma the_best_bundle_is_selected_witness :
  let g := {| hasBigInt64Array := true; navigator := Some {| nav_userAgent := "x" |}; global_crossOriginIsolated := None |} in
  let s := MkPlatform None None None None None [true; true; true; false] in
  let b := {| mainModule := "e.wasm"; mainWorker := Some "e.js"; pthreadWorker := None |}%string in
  exists s', selectBundle g sample_bundles s = (Normal b, s') /\
  exists p v, runs sample_bundles p v /\ offered v sample_bundles = Some b /\
    (forall v', runs sample_bundles p v' -> (rank v' <= rank v)%nat) /\
    (forall w, getPlatformFeatures g (set_p_world w s') = (Normal p, set_p_world w s') /\
               selectBundle g sample_bundles (set_p_world w s') = (Normal b, set_p_world w s')).
Proof.
  intros g s b. eexists. split; [vm_compute; reflexivity|].
  eapply (the_best_bundle_is_selected g sample_bundles s b). vm_compute. reflexivity.
Defined.
