(* ===== verification/Instantiate.v ===== *)
(** * Instantiate: loading the engine

    [instantiate] of [bindings/bindings_base.ts] cut at its awaits, with the calls
    that are suspended and the modules that are loading as data; the platform's part
    ([bindings_browser_base.ts], [bindings_node_base.ts] and their variants); and the
    start of the HTTP helper ([bindings/http_fetch_helper.ts]).  The factory that
    emscripten generates is not under [src]: it reports when the runtime is
    initialised, and then its promise settles; either may never happen. *)
From S2P Require Import Prelude Data JsMap.
From stdpp Require Import base tactics list strings.
From Stdlib Require Import ZArith Lia.
Open Scope Z_scope.

(** ** [instantiate] *)

(** Where a call is suspended; [onProgress] is the identity of its handler. *)
Inductive Phase :=
| Ph_other (onProgress : option Z) (promise : Z)           (** another call's [_initPromise] *)
| Ph_impl (onProgress : option Z) (module : Z)             (** [instantiateImpl] *)
| Ph_init (onProgress : option Z) (promise : option Z)     (** [_initPromise], as it was read *)
| Ph_helper (onProgress : option Z) (module : option Z).   (** [startHttpFetchHelper] *)

Inductive Settled := Returned | Rejected.

Record Loader := MkLoader {
  l_instance : option Z;
  l_initPromise : option Z;
  l_handlers : list Z;                 (** [onInstantiationProgress] *)
  l_resolved : list Z;                 (** promises that are resolved *)
  l_loads : list (Z * Z);              (** modules the factory was called for, with what [onRuntimeInitialized] resolves *)
  l_calls : list (Z * Phase);
  l_kept : list Z;                     (** modules whose views are kept current *)
  l_published : bool;                  (** [globalThis.DUCKDB_BINDINGS] *)
  l_done : list (Z * Settled)
}.

Definition new_loader : Loader := MkLoader None None [] [] [] [] [] false [].

Definition set_calls c (s : Loader) : Loader :=
  MkLoader (l_instance s) (l_initPromise s) (l_handlers s) (l_resolved s) (l_loads s) c (l_kept s) (l_published s) (l_done s).
Definition finish_call (c : Z) (r : Settled) (s : Loader) : Loader :=
  MkLoader (l_instance s) (l_initPromise s) (l_handlers s) (l_resolved s) (l_loads s) (mdelete c (l_calls s))
    (l_kept s) (l_published s) (l_done s ++ [(c, r)]).

(** From the new promise to the await of [instantiateImpl]; modules and promises are
    numbered by the loads. *)
Definition begin_load (c : Z) (onProgress : option Z) (s : Loader) : Loader :=
  let p := lenZ (l_loads s) in
  MkLoader (l_instance s) (Some p) (option_list onProgress) (l_resolved s) (l_loads s ++ [(p, p)])
    (mset c (Ph_impl onProgress p) (l_calls s)) (l_kept s) (l_published s) (l_done s).

(** A call, up to its first await. *)
Definition instantiate (c : Z) (onProgress : option Z) (s : Loader) : Loader :=
  match l_instance s with
  | Some _ => finish_call c Returned s
  | None =>
      match l_initPromise s with
      | Some p =>
          MkLoader (l_instance s) (l_initPromise s) (l_handlers s ++ option_list onProgress) (l_resolved s) (l_loads s)
            (mset c (Ph_other onProgress p) (l_calls s)) (l_kept s) (l_published s) (l_done s)
      | None => begin_load c onProgress s
      end
  end.

(** What the awaited things do. *)
Inductive LoadEvent :=
| LE_call (c : Z) (onProgress : option Z)
| LE_initialized (module : Z)      (** the factory calls [onRuntimeInitialized] *)
| LE_loaded (c : Z)                (** the promise of [instantiateImpl] is fulfilled *)
| LE_failed (c : Z)                (** or rejected *)
| LE_resume (c : Z)                (** after an await of [_initPromise] *)
| LE_helper (c : Z).               (** the helper is up, or is not: both are caught *)

Definition is_resolved (s : Loader) (p : option Z) : bool :=
  match p with Some p => bool_decide (p ∈ l_resolved s) | None => true end.

(** [this.onInstantiationProgress.filter(x => x != onProgress)] *)
Definition drop_handler (onProgress : option Z) (l : list Z) : list Z :=
  filter (fun x => Some x <> onProgress) l.

Definition on_event (e : LoadEvent) (s : Loader) : Loader :=
  match e with
  | LE_call c onProgress => instantiate c onProgress s
  | LE_initialized m =>
      match mget m (l_loads s) with
      | Some p => MkLoader (l_instance s) (l_initPromise s) (l_handlers s) (p :: l_resolved s) (l_loads s) (l_calls s)
                    (l_kept s) (l_published s) (l_done s)
      | None => s
      end
  | LE_loaded c =>
      match mget c (l_calls s) with
      | Some (Ph_impl onProgress m) =>
          MkLoader (Some m) (l_initPromise s) (l_handlers s) (l_resolved s) (l_loads s)
            (mset c (Ph_init onProgress (l_initPromise s)) (l_calls s)) (l_kept s) (l_published s) (l_done s)
      | _ => s
      end
  | LE_failed c =>
      match mget c (l_calls s) with
      | Some (Ph_impl _ _) => finish_call c Rejected s
      | _ => s
      end
  | LE_resume c =>
      match mget c (l_calls s) with
      | Some (Ph_other onProgress p) => if is_resolved s (Some p) then begin_load c onProgress s else s
      | Some (Ph_init onProgress p) =>
          if is_resolved s p then
            MkLoader (l_instance s) None (l_handlers s) (l_resolved s) (l_loads s)
              (mset c (Ph_helper onProgress (l_instance s)) (l_calls s)) (option_list (l_instance s) ++ l_kept s)
              (l_published s) (l_done s)
          else s
      | _ => s
      end
  | LE_helper c =>
      match mget c (l_calls s) with
      | Some (Ph_helper onProgress _) =>
          finish_call c Returned
            (MkLoader (l_instance s) (l_initPromise s) (drop_handler onProgress (l_handlers s)) (l_resolved s) (l_loads s)
               (l_calls s) (l_kept s) true (l_done s))
      | _ => s
      end
  end.
Definition on_events (es : list LoadEvent) (s : Loader) : Loader := foldl (fun s e => on_event e s) s es.

(** ** Where it is loaded from *)

Definition ends_with (suffix s : string) : bool :=
  (String.length suffix <=? String.length s)%nat &&
  String.eqb (String.substring (String.length s - String.length suffix) (String.length suffix) s) suffix.

(** [locateFile]; [what] is "URL" or "path". *)
Definition locateFile (what mainModule : string) (pthreadWorker : option string) (path prefix : string) : Outcome string :=
  if ends_with ".wasm" path then Normal mainModule
  else if ends_with ".worker.js" path then
    match pthreadWorker with
    | Some url => if String.eqb url "" then Thrown (Error ("Missing DuckDB worker " +:+ what +:+ "!")) else Normal url
    | None => Thrown (Error ("Missing DuckDB worker " +:+ what +:+ "!"))
    end
  else Thrown (Error ("WASM instantiation requested unexpected file: prefix=" +:+ prefix +:+ " path=" +:+ path)).
Definition browser_locateFile : string -> option string -> string -> string -> Outcome string := locateFile "URL".
Definition node_locateFile : string -> option string -> string -> string -> Outcome string := locateFile "path".

(** What [instantiateImpl] of a platform hands to the factory, besides the overrides
    of [instantiate]: which hooks it binds, and the script of the threads. *)
Record FactoryArgs := { fa_instantiateWasm : bool; fa_locateFile : bool; fa_mainScriptUrlOrBlob : option string }.
Definition with_hooks : FactoryArgs := {| fa_instantiateWasm := true; fa_locateFile := true; fa_mainScriptUrlOrBlob := None |}.
Definition browser_mvp_impl : FactoryArgs := with_hooks.
Definition browser_eh_impl : FactoryArgs := with_hooks.
Definition browser_coi_impl (pthreadWorkerURL : option string) : FactoryArgs :=
  {| fa_instantiateWasm := true; fa_locateFile := true;
     fa_mainScriptUrlOrBlob := match pthreadWorkerURL with
                               | Some url => if String.eqb url "" then None else Some url
                               | None => None
                               end |}.
Definition node_base_impl : FactoryArgs := {| fa_instantiateWasm := true; fa_locateFile := false; fa_mainScriptUrlOrBlob := None |}.
Definition node_mvp_impl : FactoryArgs := with_hooks.
Definition node_eh_impl : FactoryArgs := with_hooks.

(** How a module is loaded: it comes, nothing comes, or it does not compile. *)
Inductive WasmLoad := WL_ok | WL_no_response (error : string) | WL_bad_module (error : string).
Inductive WasmEffect :=
| WE_runtime                     (** [globalThis.DUCKDB_RUNTIME] is set *)
| WE_fetch (url : string) | WE_xhr (url : string) | WE_readFile (path : string)
| WE_track                       (** [trackProgress] *)
| WE_success                     (** the factory gets the instance *)
| WE_log (level : LogLevel) (topic : LogTopic) (event : LogEvent) (origin : LogOrigin) (value : string)
| WE_unhandled (error : string)  (** a rejection nobody handles *)
| WE_uncaught (error : string).  (** thrown by an event handler *)

Definition log_failure (what error : string) : WasmEffect :=
  WE_log LV_ERROR LT_INSTANTIATE LE_ERROR LO_BINDINGS ("Failed to " +:+ what +:+ " WASM: " +:+ error).

(** [instantiateWasm] in the browser, with the load's outcome; [listening] if there
    are handlers of progress. *)
Definition browser_instantiateWasm (url : string) (hasInstantiateStreaming hasXMLHttpRequest listening : bool)
    (load : WasmLoad) : list WasmEffect :=
  WE_runtime ::
  if hasInstantiateStreaming then
    WE_fetch url ::
    match load with
    | WL_no_response e => [WE_unhandled e]
    | WL_bad_module e => (if listening then [WE_track] else []) ++ [WE_unhandled e]
    | WL_ok => (if listening then [WE_track] else []) ++ [WE_success]
    end
  else if hasXMLHttpRequest then
    WE_xhr url ::
    match load with
    | WL_no_response e => [log_failure "load" e; WE_uncaught e]
    | WL_bad_module e => [log_failure "instantiate" e; WE_unhandled e]
    | WL_ok => [WE_success]
    end
  else
    WE_fetch url ::
    match load with
    | WL_no_response e | WL_bad_module e => [WE_unhandled e]
    | WL_ok => [WE_success]
    end.

(** Under Node the file is read at once, and a failure to read it is thrown. *)
Definition node_instantiateWasm (path : string) (load : WasmLoad) : list WasmEffect * Outcome unit :=
  match load with
  | WL_no_response e => ([WE_runtime; WE_readFile path], Thrown (Error e))
  | WL_bad_module e => ([WE_runtime; WE_readFile path; WE_unhandled e], Normal tt)
  | WL_ok => ([WE_runtime; WE_readFile path; WE_success], Normal tt)
  end.

(** Node copies the runtime's own properties but the constructor. *)
Definition node_runtime_properties {V} (runtime : list (string * V)) : list (string * V) :=
  filter (fun e => e.1 <> "constructor"%string) runtime.

(** ** Progress *)

Record Progress := { pr_startedAt : Z; pr_updatedAt : Z; pr_bytesTotal : Z; pr_bytesLoaded : Z }.

(** [trackProgress]'s first object; the length is trusted if the response is not encoded.
    [contentLength] is the number the header's text parses to. *)
Definition initial_progress (start : Z) (contentLength : option Z) (encoded : bool) : Progress :=
  {| pr_startedAt := start; pr_updatedAt := start; pr_bytesTotal := if encoded then 0 else default 0 contentLength;
     pr_bytesLoaded := 0 |}.

(** One round of [read]: a chunk of [n] bytes at the time [now]; what is reported. *)
Definition progress_chunk (p : Progress) (n now : Z) : Progress * option Progress :=
  let loaded := pr_bytesLoaded p + n in
  let total := if pr_bytesTotal p <? loaded then 0 else pr_bytesTotal p in
  let p' := {| pr_startedAt := pr_startedAt p; pr_updatedAt := pr_updatedAt p; pr_bytesTotal := total; pr_bytesLoaded := loaded |} in
  if now - pr_updatedAt p <? 20 then (p', None)
  else let p'' := {| pr_startedAt := pr_startedAt p; pr_updatedAt := now; pr_bytesTotal := total; pr_bytesLoaded := loaded |} in
       (p'', Some p'').
Fixpoint progress_chunks (p : Progress) (chunks : list (Z * Z)) : Progress * list Progress :=
  match chunks with
  | [] => (p, [])
  | (n, now) :: chunks =>
      let '(p1, r) := progress_chunk p n now in
      let '(p2, rs) := progress_chunks p1 chunks in (p2, option_list r ++ rs)
  end.
(** [xhr.onprogress]: the numbers of the event are taken as they are. *)
Definition xhr_onprogress (p : Progress) (total loaded now : Z) : Progress * option Progress :=
  let p' := {| pr_startedAt := pr_startedAt p; pr_updatedAt := pr_updatedAt p; pr_bytesTotal := total; pr_bytesLoaded := loaded |} in
  if now - pr_updatedAt p <? 20 then (p', None)
  else let p'' := {| pr_startedAt := pr_startedAt p; pr_updatedAt := now; pr_bytesTotal := total; pr_bytesLoaded := loaded |} in
       (p'', Some p'').
(** The reports of a body of [chunks] that ends at [last]. *)
Definition trackProgress (start : Z) (contentLength : option Z) (encoded : bool) (chunks : list (Z * Z)) (last : Z)
    : list Progress :=
  let '(p, rs) := progress_chunks (initial_progress start contentLength encoded) chunks in
  rs ++ [{| pr_startedAt := pr_startedAt p; pr_updatedAt := last; pr_bytesTotal := pr_bytesTotal p;
            pr_bytesLoaded := pr_bytesLoaded p |}].

(** ** The HTTP helper's start *)

(** What the environment offers, and how it answers. *)
Record HelperEnv := {
  env_Worker : bool; env_Blob : bool; env_createObjectURL : bool; env_SharedArrayBuffer : bool;
  env_memory : option bool;              (** the module's memory, and whether it is shared *)
  env_worker_starts : bool;              (** [new Worker(url)] does not throw *)
  env_mailbox : Z
}.
(** The first of the three things [ready] waits for. *)
Inductive HelperAnswer := HA_ready | HA_error | HA_timeout.

Inductive HelperEffect :=
| HE_mailbox                     (** [duckdb_web_http_fetch_mailbox] *)
| HE_createObjectURL | HE_revokeObjectURL
| HE_newWorker | HE_postInit (mailbox : Z) | HE_clearTimeout | HE_terminate
| HE_hold                        (** [mod.httpFetchHelper = worker] *)
| HE_ready.                      (** [duckdb_web_http_fetch_ready] *)

Definition helper_supported (env : HelperEnv) : bool :=
  env_Worker env && env_Blob env && env_createObjectURL env && env_SharedArrayBuffer env &&
  match env_memory env with Some shared => shared | None => false end.

(** The effects, in order, and the result. *)
Definition startHttpFetchHelper (env : HelperEnv) (answer : HelperAnswer) : list HelperEffect * bool :=
  if negb (helper_supported env) then ([], false)
  else
    let before := [HE_mailbox; HE_createObjectURL] in
    if negb (env_worker_starts env) then (before ++ [HE_revokeObjectURL], false)
    else
      let before := before ++ [HE_newWorker; HE_postInit (env_mailbox env mod 2 ^ 32)] in
      match answer with
      | HA_ready => (before ++ [HE_clearTimeout; HE_revokeObjectURL; HE_hold; HE_ready], true)
      | HA_error => (before ++ [HE_clearTimeout; HE_revokeObjectURL; HE_terminate], false)
      | HA_timeout => (before ++ [HE_revokeObjectURL; HE_terminate], false)
      end.
