(* ===== verification/InstantiateFacts.v ===== *)
(** * InstantiateFacts: the engine is loaded once

    What [Instantiate] promises when calls do not overlap, and what happens when
    they do or when a load fails. *)
From S2P Require Import Prelude JsMap Instantiate.
From stdpp Require Import base tactics list strings.
From Stdlib Require Import ZArith Lia.
Open Scope Z_scope.

(** ** One call after the other *)

(** No call begins while another is suspended, and no load fails. *)
Fixpoint calm (es : list LoadEvent) (s : Loader) : Prop :=
  match es with
  | [] => True
  | e :: es =>
      match e with LE_call _ _ => l_calls s = [] | LE_failed _ => False | _ => True end /\ calm es (on_event e s)
  end.

(** The engine is up: loaded, its runtime initialised, its views current. *)
Definition engine_up (s : Loader) : Prop :=
  l_instance s = Some 0 /\ l_initPromise s = None /\ l_kept s = [0] /\ 0 ∈ l_resolved s.

Inductive loader_ok (s : Loader) : Prop :=
| L_fresh : s = new_loader -> loader_ok s
| L_loading c o : l_loads s = [(0, 0)] -> l_calls s = [(c, Ph_impl o 0)] -> l_instance s = None ->
    l_initPromise s = Some 0 -> l_kept s = [] -> l_done s = [] -> l_published s = false -> loader_ok s
| L_initialising c o : l_loads s = [(0, 0)] -> l_calls s = [(c, Ph_init o (Some 0))] -> l_instance s = Some 0 ->
    l_initPromise s = Some 0 -> l_kept s = [] -> l_done s = [] -> l_published s = false -> loader_ok s
| L_helper c o m : l_loads s = [(0, 0)] -> l_calls s = [(c, Ph_helper o m)] -> engine_up s ->
    l_done s = [] -> l_published s = false -> loader_ok s
| L_up : l_loads s = [(0, 0)] -> l_calls s = [] -> engine_up s -> l_published s = true ->
    Forall (fun d => d.2 = Returned) (l_done s) -> loader_ok s.

Lemma mget_one {V} (c c' : Z) (v w : V) : mget c [(c', v)] = Some w -> c = c' /\ w = v.
Proof. cbn. case_decide; [intros [= <-]; by subst|done]. Qed.

Lemma mset_one {V} (c : Z) (v w : V) : mset c w [(c, v)] = [(c, w)].
Proof. cbn. by rewrite decide_True. Qed.

Lemma mdelete_one {V} (c : Z) (v : V) : mdelete c [(c, v)] = [].
Proof. cbn. by rewrite decide_True. Qed.

Lemma loader_ok_call c o s : loader_ok s -> l_calls s = [] -> loader_ok (instantiate c o s).
Proof.
  intros Hs Hn. unfold instantiate.
  destruct Hs as [->|c' o' Hl Hc|c' o' Hl Hc|c' o' m Hl Hc|Hl Hc Hup Hp Hd]; try congruence; [by eapply L_loading|].
  pose proof Hup as (-> & _). apply L_up; cbn; rewrite ?Hc; try done.
  apply Forall_app. split; [done|]. by repeat constructor.
Qed.

Lemma engine_up_resolved s p : engine_up s ->
  engine_up (MkLoader (l_instance s) (l_initPromise s) (l_handlers s) (p :: l_resolved s) (l_loads s) (l_calls s)
               (l_kept s) (l_published s) (l_done s)).
Proof. intros (? & ? & ? & ?). repeat split; try done. by apply list_elem_of_further. Qed.

Lemma loader_ok_initialized m s : loader_ok s -> loader_ok (on_event (LE_initialized m) s).
Proof.
  intros Hs. unfold on_event. destruct (mget m (l_loads s)) as [p|] eqn:Em; [|done].
  destruct Hs as [->|c o Hl Hc|c o Hl Hc|c o m' Hl Hc Hup|Hl Hc Hup Hp Hd];
    [done|by eapply L_loading|by eapply L_initialising| |].
  - eapply L_helper; try done. by apply engine_up_resolved.
  - apply L_up; try done. by apply engine_up_resolved.
Qed.

Lemma loader_ok_loaded c s : loader_ok s -> loader_ok (on_event (LE_loaded c) s).
Proof.
  intros Hs. unfold on_event. destruct (mget c (l_calls s)) as [[o p|o m|o p|o m]|] eqn:Ec; try done.
  destruct Hs as [->|c' o' Hl Hc Hi Hp Hk Hd Hb|c' o' Hl Hc|c' o' m' Hl Hc|Hl Hc]; [done|..]; rewrite Hc in Ec;
    [|by apply mget_one in Ec as [_ ?]..|done].
  apply mget_one in Ec as [-> [= -> ->]]. rewrite Hp. eapply L_initialising; cbn; rewrite ?Hc; try done. by rewrite mset_one.
Qed.

Lemma loader_ok_resume c s : loader_ok s -> loader_ok (on_event (LE_resume c) s).
Proof.
  intros Hs. unfold on_event. destruct (mget c (l_calls s)) as [[o p|o m|o p|o m]|] eqn:Ec; try done;
    (destruct Hs as [->|c' o' Hl Hc|c' o' Hl Hc Hi Hp Hk Hd Hb|c' o' m' Hl Hc|Hl Hc]; [done|..]; rewrite Hc in Ec;
     [by apply mget_one in Ec as [_ ?]| |by apply mget_one in Ec as [_ ?]|done]);
    apply mget_one in Ec as [-> Ec]; try done.
  injection Ec as -> ->. unfold is_resolved. case_bool_decide as Hr; [|by eapply L_initialising].
  rewrite Hi, Hk. eapply L_helper; [done|cbn; rewrite Hc; apply mset_one|by repeat split|done|done].
Qed.

Lemma loader_ok_helper c s : loader_ok s -> loader_ok (on_event (LE_helper c) s).
Proof.
  intros Hs. unfold on_event. destruct (mget c (l_calls s)) as [[o p|o m|o p|o m]|] eqn:Ec; try done.
  destruct Hs as [->|c' o' Hl Hc|c' o' Hl Hc|c' o' m' Hl Hc Hup Hd Hb|Hl Hc]; [done|..]; rewrite Hc in Ec;
    [by apply mget_one in Ec as [_ ?]..| |done].
  apply mget_one in Ec as [-> _]. apply L_up; cbn; rewrite ?Hc, ?Hd; try done; [by rewrite mdelete_one|by repeat constructor].
Qed.

Lemma loader_ok_events es s : loader_ok s -> calm es s -> loader_ok (on_events es s).
Proof.
  revert s. induction es as [|e es IH]; intros s Hs; [done|]. intros [He Hes]. apply IH; [|exact Hes].
  destruct e; [by apply loader_ok_call|by apply loader_ok_initialized|by apply loader_ok_loaded|done|
    by apply loader_ok_resume|by apply loader_ok_helper].
Qed.

(** C28: The engine is loaded once: if no call begins while another is suspended and
    no load fails, at most one module is ever loaded, in whatever order its runtime
    and its promise get ready; a call returns only when that module is the instance,
    its runtime is initialised and its views are kept current; and once a call has
    returned nothing is left suspended by it, and the progress promise is gone. *)
Theorem the_engine_is_loaded_once es :
  calm es new_loader ->
  let s := on_events es new_loader in
  (length (l_loads s) <= 1)%nat /\ Forall (fun d => d.2 = Returned) (l_done s) /\
  (l_done s <> [] -> engine_up s /\ l_calls s = [] /\ l_published s = true).
Proof.
  intros Hc s. assert (loader_ok s) as Hs by (apply loader_ok_events; [by apply L_fresh|done]).
  destruct Hs as [->|c o Hl Hcs Hi Hp Hk Hd Hb|c o Hl Hcs Hi Hp Hk Hd Hb|c o m Hl Hcs Hup Hd Hb|Hl Hcs Hup Hb Hd];
    rewrite ?Hl, ?Hd; try (split; [cbn; lia|]); try (split; [by constructor|done]).
  by split.
Qed.

Definition two_calls : list LoadEvent :=
  [LE_call 1 (Some 7); LE_resume 1; LE_initialized 0; LE_loaded 1; LE_resume 1; LE_helper 1; LE_call 2 None].

Lemma two_calls_calm : calm two_calls new_loader.
Proof. vm_compute. repeat split. Qed.

Lemma the_engine_is_loaded_once_witness :
  let s := on_events two_calls new_loader in
  l_done s = [(1, Returned); (2, Returned)] /\
  (length (l_loads s) <= 1)%nat /\ Forall (fun d => d.2 = Returned) (l_done s) /\
  (l_done s <> [] -> engine_up s /\ l_calls s = [] /\ l_published s = true).
Proof.
  intros s. split; [reflexivity|]. exact (the_engine_is_loaded_once two_calls two_calls_calm).
Defined.

(** ** Calls that overlap, and loads that fail *)

(** A call that waited for another's load begins a load of its own, and replaces the
    instance the first call has returned. *)
Lemma overlapping_calls_load_twice :
  let first := on_events [LE_call 1 None; LE_call 2 None; LE_initialized 0; LE_loaded 1; LE_resume 1; LE_helper 1] new_loader in
  let s := on_events [LE_resume 2; LE_initialized 1; LE_loaded 2; LE_resume 2; LE_helper 2] first in
  l_instance first = Some 0 /\ l_done first = [(1, Returned)] /\
  l_instance s = Some 1 /\ l_loads s = [(0, 0); (1, 1)] /\ l_done s = [(1, Returned); (2, Returned)].
Proof. by vm_compute. Qed.

(** Every suspended call waits for the promise of the load that failed. *)
Definition blocked (s : Loader) : Prop :=
  l_instance s = None /\ l_initPromise s = Some 0 /\ l_loads s = [(0, 0)] /\ l_resolved s = [] /\
  Forall (fun c => exists o, c.2 = Ph_other o 0) (l_calls s).

Lemma mget_Forall {V} (P : V -> Prop) l (c : Z) v : Forall (fun e => P e.2) l -> mget c l = Some v -> P v.
Proof.
  induction l as [|[k w] l IH]; [done|]. intros [Hw Hl]%Forall_cons. cbn. case_decide; [by intros [= <-]|auto].
Qed.

Lemma mset_Forall {V} (P : V -> Prop) l (c : Z) v : P v -> Forall (fun e => P e.2) l -> Forall (fun e => P e.2) (mset c v l).
Proof.
  intros Hv. induction l as [|[k w] l IH]; cbn; [by repeat constructor|]. intros [Hw Hl]%Forall_cons.
  case_decide; by constructor; auto.
Qed.

Lemma blocked_event e s : blocked s -> e <> LE_initialized 0 -> blocked (on_event e s).
Proof.
  intros (Hi & Hp & Hl & Hr & Hc) He.
  assert (forall c v, mget c (l_calls s) = Some v -> exists o, v = Ph_other o 0) as Hget.
  { intros c v. by apply (mget_Forall (fun v => exists o, v = Ph_other o 0)). }
  destruct e as [c o|m|c|c|c|c]; cbn.
  - unfold instantiate. rewrite Hi, Hp. repeat split; try done. cbn.
    apply (mset_Forall (fun v => exists o, v = Ph_other o 0)); [eauto|done].
  - rewrite Hl. cbn. rewrite decide_False by congruence. done.
  - destruct (mget c _) as [v|] eqn:E; [|done]. by destruct (Hget _ _ E) as [o ->].
  - destruct (mget c _) as [v|] eqn:E; [|done]. by destruct (Hget _ _ E) as [o ->].
  - destruct (mget c _) as [v|] eqn:E; [|done]. destruct (Hget _ _ E) as [o ->]. rewrite Hr. done.
  - destruct (mget c _) as [v|] eqn:E; [|done]. by destruct (Hget _ _ E) as [o ->].
Qed.

(** A load that fails leaves its promise behind, so that every later call waits for
    ever: whatever happens, if the failed module's runtime does not come up after
    all, no such call is ever settled. *)
Theorem failed_loads_block_later_calls es :
  ~ LE_initialized 0 ∈ es ->
  let s := on_events es (on_events [LE_call 1 None; LE_failed 1] new_loader) in
  blocked s /\ l_done s = [(1, Rejected)].
Proof.
  intros He. cbv zeta. assert (forall s, blocked s -> blocked (on_events es s) /\ l_done (on_events es s) = l_done s) as Hb.
  { induction es as [|e es IH]; intros s Hs; [done|]. apply not_elem_of_cons in He as [Hne He].
    assert (blocked (on_event e s)) as Hs1 by (apply blocked_event; congruence).
    destruct (IH He _ Hs1) as [H1 H2]. split; [exact H1|]. transitivity (l_done (on_event e s)); [exact H2|].
    destruct Hs as (Hi & Hp & Hl & Hr & Hc). destruct e as [c o|m|c|c|c|c]; cbn.
    - unfold instantiate. by rewrite Hi, Hp.
    - by destruct (mget m _).
    - destruct (mget c _) as [v|] eqn:E; [|done]. by destruct v.
    - destruct (mget c _) as [v|] eqn:E; [|done]. destruct (mget_Forall (fun v => exists o, v = Ph_other o 0) _ _ _ Hc E) as [o ->]. done.
    - destruct (mget c _) as [v|] eqn:E; [|done]. destruct v; repeat case_match; done.
    - destruct (mget c _) as [v|] eqn:E; [|done]. destruct (mget_Forall (fun v => exists o, v = Ph_other o 0) _ _ _ Hc E) as [o ->]. done. }
  apply Hb. by repeat constructor.
Qed.

(** ** The helper leaves nothing behind *)

Definition count_effect (p : HelperEffect -> bool) (l : list HelperEffect) : nat := length (filter (fun e => p e = true) l).

(** Whatever the environment offers and answers: the URL that was created is revoked;
    the result is true exactly if the engine was told that the helper is up; a worker
    that was started is held by the module then, and terminated otherwise. *)
Lemma the_helper_leaves_nothing env answer :
  let '(l, up) := startHttpFetchHelper env answer in
  let n e := count_effect (fun x => match x, e with
    | HE_createObjectURL, HE_createObjectURL | HE_revokeObjectURL, HE_revokeObjectURL | HE_newWorker, HE_newWorker
    | HE_terminate, HE_terminate | HE_hold, HE_hold | HE_ready, HE_ready => true | _, _ => false end) l in
  n HE_createObjectURL = n HE_revokeObjectURL /\ n HE_ready = (if up then 1 else 0)%nat /\ n HE_hold = n HE_ready /\
  n HE_newWorker = (n HE_hold + n HE_terminate)%nat.
Proof.
  unfold startHttpFetchHelper. destruct (helper_supported env); [|by vm_compute].
  destruct (env_worker_starts env); [|by vm_compute]. by destruct answer.
Qed.

(** ** Progress *)

Definition report_ok (r : Progress) : Prop := pr_bytesTotal r = 0 \/ pr_bytesLoaded r <= pr_bytesTotal r.

Lemma progress_chunks_ok chunks p :
  Forall (fun c => 0 <= c.1) chunks -> report_ok p ->
  let r := progress_chunks p chunks in
  pr_bytesLoaded r.1 = pr_bytesLoaded p + sum_list_Z chunks.*1 /\ report_ok r.1 /\
  Forall report_ok r.2 /\ Forall (fun x => pr_bytesLoaded p <= pr_bytesLoaded x <= pr_bytesLoaded r.1) r.2.
Proof.
  revert p. induction chunks as [|[n now] chunks IH]; intros p Hc Hp; cbv zeta.
  - cbn. split; [lia|]. by repeat split.
  - apply Forall_cons in Hc as [Hn Hc]. cbn [progress_chunks].
    destruct (progress_chunk p n now) as [p1 r] eqn:E1.
    assert (pr_bytesLoaded p1 = pr_bytesLoaded p + n /\ report_ok p1 /\ (forall x, r = Some x -> x = p1)) as (El & Ho & Hr).
    { unfold progress_chunk in E1. destruct (now - pr_updatedAt p <? 20); injection E1 as <- <-;
        (split; [done|]); (split; [|congruence]); unfold report_ok; cbn;
        destruct (Z.ltb_spec (pr_bytesTotal p) (pr_bytesLoaded p + n)); [by left|by right|by left|by right]. }
    specialize (IH p1 Hc Ho). cbv zeta in IH. destruct (progress_chunks p1 chunks) as [p2 rs]. cbn in *.
    destruct IH as (I1 & I2 & I3 & I4). split; [lia|]. split; [done|].
    assert (0 <= sum_list_Z chunks.*1) as Hs.
    { clear -Hc. induction Hc as [|[m t] l Hm _ IH]; cbn in *; lia. }
    split; (apply Forall_app; split).
    + destruct r as [x|]; [|done]. rewrite (Hr x eq_refl). by apply Forall_singleton.
    + done.
    + destruct r as [x|]; [|done]. rewrite (Hr x eq_refl). apply Forall_singleton. lia.
    + eapply Forall_impl; [exact I4|]. cbn. intros x ?. lia.
Qed.

(** The reports of a download: the last one says that all the bytes of the body came,
    none says more than that, and a total that is told is never below the bytes that
    were loaded, also if the length that was announced is wrong. *)
Lemma progress_ends_with_the_whole_body start contentLength encoded chunks last :
  Forall (fun c => 0 <= c.1) chunks -> (forall n, contentLength = Some n -> 0 <= n) ->
  let l := trackProgress start contentLength encoded chunks last in
  (exists r, List.last l r = r /\ l <> [] /\ pr_bytesLoaded r = sum_list_Z chunks.*1 /\ pr_updatedAt r = last) /\
  Forall report_ok l /\ Forall (fun r => pr_bytesLoaded r <= sum_list_Z chunks.*1) l.
Proof.
  intros Hc Hn. cbv zeta. unfold trackProgress.
  pose proof (progress_chunks_ok chunks (initial_progress start contentLength encoded) Hc) as Hp. cbv zeta in Hp.
  destruct (progress_chunks _ chunks) as [p rs]. cbn [fst snd] in Hp.
  destruct Hp as (H1 & H2 & H3 & H4).
  { unfold report_ok, initial_progress. cbn. destruct encoded; [by left|]. right. destruct contentLength as [n|]; [by apply Hn|done]. }
  cbn in H1. split; [|split].
  - eexists. rewrite List.last_last. split; [reflexivity|]. split; [by destruct rs|]. cbn. split; [lia|done].
  - apply Forall_app. split; [done|]. by apply Forall_singleton.
  - apply Forall_app. split; [|apply Forall_singleton; cbn; lia]. eapply Forall_impl; [exact H4|]. cbn. intros x ?. lia.
Qed.

(** ** Files of the build *)

(** The factory gets an instance exactly if the module came and compiled, on every
    way to load it, and gets it last. *)
Lemma the_factory_gets_what_was_loaded url streaming xhr listening load :
  let l := browser_instantiateWasm url streaming xhr listening load in
  (WE_success ∈ l <-> load = WL_ok) /\ (load = WL_ok -> last l = Some WE_success).
Proof.
  cbv zeta. unfold browser_instantiateWasm. split; [split|].
  - rewrite list_elem_of_In. destruct streaming, xhr, listening, load; try done; cbn; intuition discriminate.
  - intros ->. apply list_elem_of_In. destruct streaming, xhr, listening; cbn; tauto.
  - intros ->. by destruct streaming, xhr, listening.
Qed.

(** A streaming load that fails is reported to nobody: the factory gets no instance, so
    that its promise settles in no way, and nothing is logged. *)
Lemma failed_streaming_loads_are_silent url xhr listening e :
  let l := browser_instantiateWasm url true xhr listening (WL_no_response e) in
  ~ WE_success ∈ l /\ Forall (fun x => match x with WE_log _ _ _ _ _ => False | _ => True end) l.
Proof.
  cbv zeta. split; [|by repeat constructor]. intros Hin. by apply (the_factory_gets_what_was_loaded url true xhr listening) in Hin.
Qed.

(** The build's files are located: its module and the script of its threads. *)
Lemma build_files_are_located what mainModule worker prefix :
  locateFile what mainModule (Some worker) "duckdb-eh.wasm" prefix = Normal mainModule /\
  (worker <> ""%string -> locateFile what mainModule (Some worker) "duckdb-coi.worker.js" prefix = Normal worker) /\
  is_normal (locateFile what mainModule None "duckdb-coi.worker.js" prefix) = false /\
  is_normal (locateFile what mainModule (Some worker) "duckdb.data" prefix) = false.
Proof.
  split; [done|]. split; [|done]. intros Hw. unfold locateFile. cbn. by destruct (String.eqb_spec worker "").
Qed.
