(* ===== verification/PthreadWorker.v ===== *)
(** * PthreadWorker: the registries of a worker thread
    ([targets/duckdb-browser-coi.pthread.worker.ts])

    A worker thread handles the messages of the bindings ([WorkerMessage]) itself and
    leaves the others to emscripten's handler.  A key of the worker's [Map] of
    functions is a name here and an id elsewhere ([UdfKey]). *)
From S2P Require Import Prelude Data Protocol JsMap WasmModule BindingsBase BindingsFiles SampleModule.
From stdpp Require Import base tactics list gmap strings.
From Stdlib Require Import ZArith Lia.
Open Scope Z_scope.

Inductive UdfKey := Key_name (name : string) | Key_id (id : Z).
#[export] Instance UdfKey_eq_dec : EqDecision UdfKey.
Proof. solve_decision. Defined.

(** What the thread is sent: a message of the bindings, or one of emscripten. *)
Inductive ThreadMessage := TM_bindings (m : WorkerMessage) | TM_emscripten (data : Z).

Record PthreadWorker := MkPthread {
  pw_files : option (list (string * FileHandle));          (** [DUCKDB_RUNTIME._files] *)
  pw_udfFunctions : option (list (UdfKey * UDFFunction));  (** [DUCKDB_RUNTIME._udfFunctions] *)
  pw_forwarded : list Z                                    (** what emscripten's handler got *)
}.

(** [BROWSER_RUNTIME]'s own properties, copied but for the constructor. *)
Definition start_pthread : PthreadWorker := MkPthread (Some []) (Some []) [].

Definition connection_id (_ : UDFFunction) : option Z := None.   (** no function has this property *)

(** [for (const key of map.keys()) if (map.get(key).connection_id == id) map.delete(key)] *)
Fixpoint drop_keys (connectionId : Z) (ks : list UdfKey) (m : list (UdfKey * UDFFunction)) : list (UdfKey * UDFFunction) :=
  match ks with
  | [] => m
  | k :: ks =>
      drop_keys connectionId ks
        (if bool_decide ((mget k m ≫= connection_id) = Some connectionId) then mdelete k m else m)
  end.

Definition pthread_onmessage (has_handler : bool) (e : ThreadMessage) (s : PthreadWorker) : PthreadWorker :=
  match e with
  | TM_bindings (registerFileHandle_msg fileName fileHandle) =>
      MkPthread (Some (mset fileName fileHandle (default [] (pw_files s)))) (pw_udfFunctions s) (pw_forwarded s)
  | TM_bindings (dropFileHandle fileName) =>
      MkPthread (Some (mdelete fileName (default [] (pw_files s)))) (pw_udfFunctions s) (pw_forwarded s)
  | TM_bindings (registerUDFFunction udf) =>
      MkPthread (pw_files s) (Some (mset (Key_name (udf_name udf)) udf (default [] (pw_udfFunctions s)))) (pw_forwarded s)
  | TM_bindings (dropUDFFunctions connectionId) =>
      let m := default [] (pw_udfFunctions s) in
      MkPthread (pw_files s) (Some (drop_keys connectionId (keys m) m)) (pw_forwarded s)
  | TM_emscripten data =>
      if has_handler then MkPthread (pw_files s) (pw_udfFunctions s) (pw_forwarded s ++ [data]) else s
  end.

(** The messages of the bindings to the thread [w], handled in order. *)
Definition received (w : Z) (posts : list (Z * WorkerMessage)) : list WorkerMessage :=
  snd <$> filter (fun p => p.1 = w) posts.
Definition handle_all (ms : list WorkerMessage) (s : PthreadWorker) : PthreadWorker :=
  foldl (fun s m => pthread_onmessage true (TM_bindings m) s) s ms.

(** [runtime._udfFunctions.get(funcId)], as [callScalarUDF] does on this thread. *)
Definition thread_udf (funcId : Z) (s : PthreadWorker) : option UDFFunction :=
  pw_udfFunctions s ≫= mget (Key_id funcId).
Definition thread_file (name : string) (s : PthreadWorker) : option FileHandle := pw_files s ≫= mget name.

(** ** Files *)

(** A file that was registered and not dropped since. *)
Fixpoint file_after (ms : list WorkerMessage) (name : string) (o : option FileHandle) : option FileHandle :=
  match ms with
  | [] => o
  | registerFileHandle_msg n h :: ms => file_after ms name (if decide (name = n) then Some h else o)
  | dropFileHandle n :: ms => file_after ms name (if decide (name = n) then None else o)
  | _ :: ms => file_after ms name o
  end.

Definition files_ok (s : PthreadWorker) : Prop := match pw_files s with Some m => NoDup (keys m) | None => True end.

Lemma handle_files ms name s : files_ok s ->
  files_ok (handle_all ms s) /\ thread_file name (handle_all ms s) = file_after ms name (thread_file name s).
Proof.
  revert s. induction ms as [|m ms IH]; intros s Hs; [done|].
  assert (files_ok (pthread_onmessage true (TM_bindings m) s) /\
    thread_file name (pthread_onmessage true (TM_bindings m) s) = file_after [m] name (thread_file name s)) as [H1 H2].
  { assert (NoDup (keys (default [] (pw_files s)))) as Hn.
    { unfold files_ok in Hs. destruct (pw_files s); [done|apply NoDup_nil_2]. }
    assert (thread_file name s = mget name (default [] (pw_files s))) as E.
    { unfold thread_file. by destruct (pw_files s). }
    destruct m as [c|u|n h|n]; cbn; [done|done|..]; unfold files_ok; cbn; rewrite E; unfold thread_file; cbn.
    - split; [by apply NoDup_mset|]. destruct (decide (name = n)) as [->|Hne]; [apply mget_mset|by apply mget_mset_ne].
    - split; [by apply NoDup_mdelete|]. destruct (decide (name = n)) as [->|Hne]; [by apply mget_mdelete|by apply mget_mdelete_ne]. }
  destruct (IH _ H1) as [H3 H4]. split; [exact H3|].
  change (handle_all (m :: ms) s) with (handle_all ms (pthread_onmessage true (TM_bindings m) s)). rewrite H4, H2.
  by destruct m.
Qed.

(** A thread has the files the bindings sent it: for every name the handle that was
    registered last, if it was not dropped since. *)
Lemma threads_have_the_files_sent w posts name :
  thread_file name (handle_all (received w posts) start_pthread) = file_after (received w posts) name None.
Proof. apply (handle_files _ name start_pthread). apply NoDup_nil_2. Qed.

Lemma received_app w l1 l2 : received w (l1 ++ l2) = received w l1 ++ received w l2.
Proof. unfold received. by rewrite filter_app, fmap_app. Qed.

(** A message to a list of workers comes once to each of them. *)
Lemma received_by_all w ws m : NoDup ws ->
  received w ((fun v => (v, m)) <$> ws) = if decide (w ∈ ws) then [m] else [].
Proof.
  intros Hn. induction Hn as [|v ws Hv Hn IH]; [done|]. unfold received in *. rewrite fmap_cons, filter_cons. cbn.
  destruct (decide (v = w)) as [->|Hne].
  - rewrite fmap_cons, IH. cbn. rewrite (decide_False (P := w ∈ ws)) by done. by rewrite decide_True by (by left).
  - rewrite IH. destruct (decide (w ∈ ws)) as [Hw|Hw]; [by rewrite decide_True by (by right)|].
    rewrite decide_False; [done|]. intros [?|?]%elem_of_cons; congruence.
Qed.

(** A registration reaches the threads that run, and only them. *)
Lemma registered_files_reach_running_threads p name h w : NoDup (all_workers p) -> w ∈ pthreads p ->
  received w (handle_posts (Some p) name h) = [registerFileHandle_msg name h].
Proof.
  unfold all_workers. intros Hn Hw. apply NoDup_app in Hn as (Hp & Hd & Hu). unfold handle_posts.
  rewrite received_app, !received_by_all by done. rewrite decide_True by done. rewrite decide_False by auto. done.
Qed.

(** ** Functions *)

Definition by_name (s : PthreadWorker) : Prop :=
  Forall (fun e => match e.1 with Key_name n => udf_name e.2 = n | Key_id _ => False end) (default [] (pw_udfFunctions s)).

Lemma mset_by_name (u : UDFFunction) m :
  Forall (fun e => match e.1 with Key_name n => udf_name e.2 = n | Key_id _ => False end) m ->
  Forall (fun e => match e.1 with Key_name n => udf_name e.2 = n | Key_id _ => False end) (mset (Key_name (udf_name u)) u m).
Proof.
  induction m as [|[k v] m IH]; cbn; [by intros; apply Forall_singleton|]. intros [Hk Hm]%Forall_cons.
  case_decide; (apply Forall_cons; split; [done|auto]).
Qed.

Lemma drop_keys_nothing c ks m : drop_keys c ks m = m.
Proof.
  induction ks as [|k ks IH]; [done|]. cbn. rewrite bool_decide_eq_false_2; [done|].
  by destruct (mget k m).
Qed.

Lemma by_name_kept ms s : by_name s -> by_name (handle_all ms s).
Proof.
  revert s. induction ms as [|m ms IH]; intros s Hs; [done|]. apply IH.
  destruct m as [c|u|n h|n]; cbn; try done; unfold by_name; cbn.
  - by rewrite drop_keys_nothing.
  - by apply mset_by_name.
Qed.

(** A function runs on no worker thread: the thread keeps it by its name, and the
    call looks for its id. *)
Theorem threads_find_no_function ms funcId : thread_udf funcId (handle_all ms start_pthread) = None.
Proof.
  assert (by_name (handle_all ms start_pthread)) as Hb by (apply by_name_kept; constructor).
  unfold thread_udf, by_name in *. destruct (pw_udfFunctions _) as [m|]; [|done]. cbn in *.
  induction Hb as [|[k u] m Hk _ IH]; [done|]. cbn. case_decide; [by subst|done].
Qed.

(** A function stays on the threads when its connection closes. *)
Theorem threads_drop_no_function c s :
  default [] (pw_udfFunctions (pthread_onmessage true (TM_bindings (dropUDFFunctions c)) s)) =
  default [] (pw_udfFunctions s).
Proof. cbn. by rewrite drop_keys_nothing. Qed.
