(* ===== verification/MutableGlobals.v ===== *)
(** * MutableGlobals: the exported globals of a side module that are mutable

    [__hbMutableGlobals] of [scripts/patch_dylink_glue.cjs], which is put into the dynamic
    linker that emscripten generates: it reads the import, global and export sections of a
    wasm binary, so that the linker need not probe each exported global by writing to it.
    [relocateExport] is the code that uses it, with the module a prefetched extension was
    compiled to ([__hbTakeArmedModule]).

    [MutableGlobalsFacts] compares the scan with the grammar of wasm binaries. *)
From S2P Require Import Prelude Text WasmModule.
From stdpp Require Import base tactics list gmap strings.
From Stdlib Require Import ZArith Lia.
Open Scope Z_scope.

(** What dlopen hands to the linker: a typed array over the bytes of the file, or a module
    that is compiled already. *)
Inductive Binary := View (elements : list Z) | Compiled (module : Z).

(** ** The scan

    The closures share the array [b] and the offset [o]; here they take [o] and return it.
    [b[o]] is [undefined] beyond the end, which counts as zero in arithmetic and is equal
    to no number.  A number of more than seven bytes is not rounded here as a double is;
    the values of such numbers (of [i64.const]) are dropped. *)
Section Scan.
Variable b : bytes.

Definition byte (o : Z) : option Z := b !! Z.to_nat o.
Definition operand (x : option Z) : Z := opt_or x 0.

(** [L]: an unsigned LEB128 number.  The loop ends beyond the last byte. *)
Fixpoint L_loop (fuel : nat) (v s o : Z) : Z * Z :=
  match fuel with
  | O => (v, o)
  | S fuel' =>
      let x := operand (byte o) in
      let v' := v + Z.land x 127 * s in
      if Z.land x 128 =? 0 then (v', o + 1) else L_loop fuel' v' (s * 128) (o + 1)
  end.
Definition fuel : nat := S (length b).
Definition L (o : Z) : Z * Z := L_loop fuel 0 1 o.
(** A number whose value is dropped. *)
Definition skip_L (o : Z) : Z := (L o).2.

(** [S]: a name, skipped. *)
Definition S_ (o : Z) : Z := let '(n, o') := L o in o' + n.
(** [T]: a value type *)
Definition T_ (o : Z) : Z :=
  match byte o with
  | Some t => if (t =? 99) || (t =? 100) then skip_L (o + 1) else o + 1
  | None => o + 1
  end.
(** [M]: limits *)
Definition M_ (o : Z) : Z :=
  let f := operand (byte o) in
  let o := skip_L (o + 1) in
  let o := if Z.land f 1 =? 0 then o else skip_L o in
  if Z.land f 8 =? 0 then o else skip_L o.

(** [m.push(b[o++] & 1)] *)
Definition push_mutability (m : list Z) (o : Z) : list Z := m ++ [Z.land (operand (byte o)) 1].

(** The loops return [None] where the function returns [undefined]. *)
Fixpoint import_loop (c : nat) (m : list Z) (o : Z) : option (list Z * Z) :=
  match c with
  | O => Some (m, o)
  | S c' =>
      let o := S_ (S_ o) in
      match byte o with
      | Some 0 => import_loop c' m (skip_L (o + 1))
      | Some 1 => import_loop c' m (M_ (T_ (o + 1)))
      | Some 2 => import_loop c' m (M_ (o + 1))
      | Some 3 => let o := T_ (o + 1) in import_loop c' (push_mutability m o) (o + 1)
      | Some 4 => import_loop c' m (skip_L (o + 2))
      | _ => None
      end
  end.

Definition op_number (p : Z) : bool := (p =? 65) || (p =? 66) || (p =? 35) || (p =? 208) || (p =? 210).
Definition op_plain (p : Z) : bool := ((106 <=? p) && (p <=? 108)) || ((124 <=? p) && (p <=? 126)).

(** The constant expression of a global, up to its end. *)
Fixpoint expr_loop (n : nat) (o : Z) : option Z :=
  match n with
  | O => None
  | S n' =>
      match byte o with
      | None => None
      | Some p =>
          if p =? 11 then Some (o + 1)
          else if p =? 67 then expr_loop n' (o + 1 + 4)
          else if p =? 68 then expr_loop n' (o + 1 + 8)
          else if op_number p then expr_loop n' (skip_L (o + 1))
          else if op_plain p then expr_loop n' (o + 1)
          else None
      end
  end.

Fixpoint global_loop (c : nat) (m : list Z) (o : Z) : option (list Z * Z) :=
  match c with
  | O => Some (m, o)
  | S c' =>
      let o := T_ o in
      let m := push_mutability m o in
      match expr_loop fuel (o + 1) with
      | Some o => global_loop c' m o
      | None => None
      end
  end.

Section Names.
(** [UTF8ArrayToString] of the code emscripten generates. *)
Variable UTF8ArrayToString : bytes -> Z -> Z -> string.

Definition mutable_at (m : list Z) (i : Z) : bool :=
  match m !! Z.to_nat i with Some x => negb (x =? 0) | None => false end.

Fixpoint export_loop (c : nat) (m : list Z) (r : gset string) (o : Z) : gset string * Z :=
  match c with
  | O => (r, o)
  | S c' =>
      let a := o in
      let o := S_ o in
      let k := byte o in
      let '(i, o) := L (o + 1) in
      let r :=
        if bool_decide (k = Some 3) && mutable_at m i
        then let '(l, start) := L a in {[UTF8ArrayToString b start l]} ∪ r
        else r in
      export_loop c' m r o
  end.

(** The loop over the sections. *)
Fixpoint section_loop (n : nat) (m : list Z) (o : Z) : option (gset string) :=
  match n with
  | O => None
  | S n' =>
      if lenZ b <=? o then Some ∅
      else
        match byte o with
        | None => None
        | Some id =>
            let '(size, o) := L (o + 1) in
            let e := o + size in
            if id =? 2 then
              let '(c, o) := L o in
              match import_loop (Z.to_nat c) m o with
              | Some (m, o) => if o =? e then section_loop n' m o else None
              | None => None
              end
            else if id =? 6 then
              let '(c, o) := L o in
              match global_loop (Z.to_nat c) m o with
              | Some (m, o) => if o =? e then section_loop n' m o else None
              | None => None
              end
            else if id =? 7 then
              let '(c, o) := L o in
              let '(r, o) := export_loop (Z.to_nat c) m ∅ o in
              if o =? e then Some r else None
            else section_loop n' m e
        end
  end.
End Names.
End Scan.

(** [None] is [undefined]. *)
Definition __hbMutableGlobals (UTF8ArrayToString : bytes -> Z -> Z -> string) (binary : Binary)
    : option (gset string) :=
  match binary with
  | Compiled _ => None
  | View elements =>
      let b := map (fun x => x mod 256) elements in
      section_loop b UTF8ArrayToString (fuel b) [] 8
  end.

(** ** Relocation *)
Inductive ExportValue :=
| V_global (mutable : bool) (value : Z)
| V_other (id : Z).
#[export] Instance ExportValue_eq_dec : EqDecision ExportValue.
Proof. solve_decision. Defined.

Definition is_global (v : ExportValue) : bool := match v with V_global _ _ => true | V_other _ => false end.

Section Relocation.
(** [isImmutableGlobal] of the code emscripten generates: it writes to the global, and
    catches the error. *)
Variable isImmutableGlobal : ExportValue -> bool.

Definition value_of (v : ExportValue) : Z := match v with V_global _ x => x | V_other _ => 0 end.

(** [relocateExport] as emscripten has it, and as it is after the rewrite. *)
Definition relocate_by_probe (memoryBase : Z) (value : ExportValue) : ExportValue :=
  if isImmutableGlobal value then V_global false (int32 (value_of value + memoryBase)) else value.
Definition relocateExport (memoryBase : Z) (__hbMut : option (gset string)) (name : string) (value : ExportValue)
    : ExportValue :=
  if match __hbMut with
     | Some mut => is_global value && bool_decide (name ∉ mut)
     | None => isImmutableGlobal value
     end
  then V_global false (int32 (value_of value + memoryBase)) else value.

Definition relocateExports (exports : list (string * ExportValue)) (memoryBase : Z)
    (__hbMut : option (gset string)) : list (string * ExportValue) :=
  map (fun e => (e.1, relocateExport memoryBase __hbMut e.1 e.2)) exports.
Definition relocateExports_before (exports : list (string * ExportValue)) (memoryBase : Z)
    : list (string * ExportValue) :=
  map (fun e => (e.1, relocate_by_probe memoryBase e.2)) exports.
End Relocation.

(** ** Modules that are compiled already *)
Record Armed := { armed_name : string; armed_module : Z; armed_bytes : list Z }.
Record LinkState := {
  __haybarnArmedModule : option Armed;
  __hbNextMut : option (gset string)
}.

Definition endsWith (p s : string) : bool :=
  ((String.length p <=? String.length s)%nat &&
   String.eqb (String.substring (String.length s - String.length p) (String.length p) s) p).
Definition armed_for (n : string) (a : Armed) : bool :=
  (String.eqb n (armed_name a) || endsWith ("/" +:+ armed_name a) n).

Section Linking.
Variable UTF8ArrayToString : bytes -> Z -> Z -> string.
Variable isImmutableGlobal : ExportValue -> bool.

(** [None] is a library that is not named by a string. *)
Definition __hbTakeArmedModule (n : option string) (st : LinkState) : option Z * LinkState :=
  match n, __haybarnArmedModule st with
  | Some n, Some a =>
      if armed_for n a
      then (Some (armed_module a),
            {| __haybarnArmedModule := None;
               __hbNextMut := __hbMutableGlobals UTF8ArrayToString (View (armed_bytes a)) |})
      else (None, {| __haybarnArmedModule := Some a; __hbNextMut := None |})
  | _, a => (None, {| __haybarnArmedModule := a; __hbNextMut := None |})
  end.

(** The rewritten head of [loadLibData]; [file] is what the rest of it returns. *)
Definition loadLibData (libName : option string) (file : Binary) (st : LinkState) : Binary * LinkState :=
  let '(pre, st) := __hbTakeArmedModule libName st in
  (match pre with Some m => Compiled m | None => file end, st).

(** The scan [loadWebAssemblyModule] uses, for the library [binary]. *)
Definition scan_for (binary : Binary) (st : LinkState) : option (gset string) * LinkState :=
  (match __hbNextMut st with
   | Some mut => Some mut
   | None => __hbMutableGlobals UTF8ArrayToString binary
   end,
   {| __haybarnArmedModule := __haybarnArmedModule st; __hbNextMut := None |}).

(** A synchronous load, from the library's name to the relocated exports of its instance. *)
Definition link (libName : option string) (file : Binary) (exports : list (string * ExportValue)) (memoryBase : Z)
    (st : LinkState) : list (string * ExportValue) * LinkState :=
  let '(binary, st) := loadLibData libName file st in
  let '(mut, st) := scan_for binary st in
  (relocateExports isImmutableGlobal exports memoryBase mut, st).
End Linking.
