(* ===== verification/MutableGlobalsFacts.v ===== *)
(** * MutableGlobalsFacts: the scan against the grammar of wasm binaries

    The grammar is the one of the wasm specification where the scan of [MutableGlobals]
    reads it: numbers may be padded, other sections hold anything.  The scan finds the
    mutable exports of every binary in the grammar, and relocation with it is relocation
    by probing.  The samples at the end run on [scripts/dylink_fixtures/globals.so]. *)
From S2P Require Import Prelude Text WasmModule MutableGlobals.
From stdpp Require Import base tactics list gmap strings.
From Stdlib Require Import ZArith Lia.
Open Scope Z_scope.

(** ** The grammar *)

(** Numbers may be padded, as linkers pad them. *)
Inductive leb : Z -> bytes -> Prop :=
| leb_last n : 0 <= n < 128 -> leb n [n]
| leb_more x n bs : 0 <= x < 128 -> leb n bs -> leb (x + 128 * n) ((x + 128) :: bs).

Definition sized (payload bs : bytes) : Prop := exists size, leb (lenZ payload) size /\ bs = size ++ payload.
Definition vec {A} (R : A -> bytes -> Prop) (l : list A) (bs : bytes) : Prop :=
  exists count parts, leb (lenZ l) count /\ Forall2 R l parts /\ bs = count ++ concat parts.

Inductive value_type : bytes -> Prop :=
| type_simple t : t <> 99 -> t <> 100 -> value_type [t]
| type_ref t n bs : t = 99 \/ t = 100 -> leb n bs -> value_type (t :: bs).

Definition optional_number (present : bool) (bs : bytes) : Prop :=
  if present then exists n, leb n bs else bs = [].
Inductive limits : bytes -> Prop :=
| limits_intro f min bmin bmax bpage :
    leb min bmin -> optional_number (Z.testbit f 0) bmax -> optional_number (Z.testbit f 3) bpage ->
    limits (f :: bmin ++ bmax ++ bpage).

(** What is imported; of a global, whether it is mutable. *)
Inductive ImportDesc := I_func | I_table | I_memory | I_global (mutable : bool) | I_tag.
Inductive import_desc : ImportDesc -> bytes -> Prop :=
| import_func n bs : leb n bs -> import_desc I_func (0 :: bs)
| import_table t l : value_type t -> limits l -> import_desc I_table (1 :: t ++ l)
| import_memory l : limits l -> import_desc I_memory (2 :: l)
| import_global t f : value_type t -> import_desc (I_global (Z.testbit f 0)) (3 :: t ++ [f])
| import_tag a n bs : leb n bs -> import_desc I_tag (4 :: a :: bs).
Inductive import : ImportDesc -> bytes -> Prop :=
| import_intro d m1 bs1 m2 bs2 bs :
    sized m1 bs1 -> sized m2 bs2 -> import_desc d bs -> import d (bs1 ++ bs2 ++ bs).

(** The instructions of a constant expression that the scan knows. *)
Inductive instruction : bytes -> Prop :=
| instr_f32 a b c d : instruction [67; a; b; c; d]
| instr_f64 l : length l = 8%nat -> instruction (68 :: l)
| instr_number p n bs : op_number p = true -> leb n bs -> instruction (p :: bs)
| instr_plain p : op_plain p = true -> instruction [p].
Inductive global : bool -> bytes -> Prop :=
| global_intro t f code : value_type t -> Forall instruction code ->
    global (Z.testbit f 0) (t ++ f :: concat code ++ [11]).

Record Export := { ex_name : string; ex_kind : Z; ex_index : Z }.
Inductive export : Export -> bytes -> Prop :=
| export_intro e name index : sized (utf8_encode (ex_name e)) name -> leb (ex_index e) index ->
    export e (name ++ ex_kind e :: index).

Inductive Section_ :=
| Imports (l : list ImportDesc) | Globals (l : list bool) | Exports (l : list Export)
| Other (id : Z) (content : bytes).
Inductive section_content : Section_ -> Z -> bytes -> Prop :=
| content_imports l bs : vec import l bs -> section_content (Imports l) 2 bs
| content_globals l bs : vec global l bs -> section_content (Globals l) 6 bs
| content_exports l bs : vec export l bs -> section_content (Exports l) 7 bs
| content_other id bs : id <> 2 -> id <> 6 -> id <> 7 -> section_content (Other id bs) id bs.
Inductive section : Section_ -> bytes -> Prop :=
| section_intro s id content bs : section_content s id content -> sized content bs -> section s (id :: bs).

Definition wasm_module (sections : list Section_) (bs : bytes) : Prop :=
  exists header parts, length header = 8%nat /\ Forall2 section sections parts /\ bs = header ++ concat parts.

(** The index space of globals: the imported ones come first. *)
Definition imported_globals (l : list ImportDesc) : list bool :=
  omap (fun d => match d with I_global mut => Some mut | _ => None end) l.
Definition section_imports (s : Section_) : list bool := match s with Imports l => imported_globals l | _ => [] end.
Definition section_globals (s : Section_) : list bool := match s with Globals l => l | _ => [] end.
Definition section_exports (s : Section_) : list Export := match s with Exports l => l | _ => [] end.
Definition all_globals (sections : list Section_) : list bool :=
  (sections ≫= section_imports) ++ (sections ≫= section_globals).
Definition all_exports (sections : list Section_) : list Export := sections ≫= section_exports.

(** The order of the sections the scan reads: imports, globals, exports.  The wasm
    specification puts them in this order and has one of each at most. *)
Definition rank (s : Section_) : nat :=
  match s with Other _ _ => 0 | Imports _ => 2 | Globals _ => 6 | Exports _ => 7 end.
Fixpoint ordered (last : nat) (sections : list Section_) : bool :=
  match sections with
  | [] => true
  | s :: l => if (rank s =? 0)%nat then ordered last l else (last <? rank s)%nat && ordered (rank s) l
  end.

Definition exports_mutable (globals : list bool) (e : Export) : bool :=
  ((ex_kind e =? 3) && opt_or (globals !! Z.to_nat (ex_index e)) false).
Definition mutable_exports (sections : list Section_) : list string :=
  ex_name <$> filter (fun e => exports_mutable (all_globals sections) e = true) (all_exports sections).

(** ** Reading what is at an offset *)
Definition at_ (b : bytes) (o : Z) (l : bytes) : Prop := exists pre, b = pre ++ l /\ lenZ pre = o.

Section Reading.
Context {b : bytes}.
Implicit Types (o : Z) (l rest bs : bytes).

Lemma at_byte o x l : at_ b o (x :: l) -> byte b o = Some x.
Proof.
  intros (pre & -> & <-). unfold byte, lenZ. rewrite Nat2Z.id.
  by rewrite lookup_app_r, Nat.sub_diag.
Qed.

Lemma at_skip o l1 l2 : at_ b o (l1 ++ l2) -> at_ b (o + lenZ l1) l2.
Proof.
  intros (pre & -> & <-). exists (pre ++ l1). by rewrite app_assoc, lenZ_app.
Qed.

Lemma at_next o x l : at_ b o (x :: l) -> at_ b (o + 1) l.
Proof. apply (at_skip o [x] l). Qed.

Lemma at_length o l : at_ b o l -> (length l <= length b)%nat.
Proof. intros (pre & -> & _). rewrite length_app. lia. Qed.

Lemma low_bits x : 0 <= x < 128 -> Z.land x 127 = x /\ Z.land x 128 = 0.
Proof.
  intros Hx. split.
  - change 127 with (Z.ones 7). rewrite Z.land_ones by lia. apply Z.mod_small. lia.
  - apply Z.bits_inj'. intros i Hi. rewrite Z.land_spec, Z.bits_0.
    change 128 with (2 ^ 7). rewrite Z.pow2_bits_eqb by lia.
    destruct (Z.eqb_spec 7 i) as [<-|]; [|apply andb_false_r].
    rewrite andb_true_r, Z.testbit_eqb, Z.div_small by lia. done.
Qed.

Lemma high_bits x : 0 <= x < 128 -> Z.land (x + 128) 127 = x /\ Z.land (x + 128) 128 <> 0.
Proof.
  intros Hx. split.
  - change 127 with (Z.ones 7). rewrite Z.land_ones by lia. change (2 ^ 7) with 128.
    rewrite <- (Z.mul_1_l 128) at 1. rewrite Z.mod_add by lia. apply Z.mod_small. lia.
  - intros H. apply (f_equal (fun z => Z.testbit z 7)) in H.
    rewrite Z.land_spec, Z.bits_0 in H. change (Z.testbit 128 7) with true in H.
    rewrite andb_true_r, Z.testbit_eqb in H by lia.
    replace ((x + 128) / 2 ^ 7) with 1 in H; [done|].
    change (2 ^ 7) with 128. rewrite <- (Z.mul_1_l 128) at 1.
    rewrite Z.div_add, Z.div_small by lia. done.
Qed.

Lemma leb_nonneg n bs : leb n bs -> 0 <= n.
Proof. induction 1; lia. Qed.

Lemma L_loop_spec n bs : leb n bs -> forall m v s o rest,
  at_ b o (bs ++ rest) -> (length bs <= m)%nat ->
  L_loop b m v s o = (v + n * s, o + lenZ bs).
Proof.
  induction 1 as [n Hn|x n bs Hx _ IH]; intros [|m] v s o rest Hat Hm; cbn in Hm; try lia;
    cbn [L_loop]; rewrite (at_byte _ _ _ Hat); unfold operand; cbn [opt_or].
  - destruct (low_bits n Hn) as [-> ->]. done.
  - destruct (high_bits x Hx) as [-> Hh%Z.eqb_neq]. rewrite Hh.
    rewrite (IH _ _ _ _ _ (at_next _ _ _ Hat)) by lia.
    f_equal; [lia|]. unfold lenZ. cbn [length]. lia.
Qed.

Lemma L_spec o n bs rest : leb n bs -> at_ b o (bs ++ rest) -> L b o = (n, o + lenZ bs).
Proof.
  intros Hl Hat. unfold L. rewrite (L_loop_spec _ _ Hl _ _ _ _ _ Hat); [f_equal; lia|].
  apply at_length in Hat. rewrite length_app in Hat. unfold fuel. lia.
Qed.

Lemma skip_L_spec o n bs rest : leb n bs -> at_ b o (bs ++ rest) -> skip_L b o = o + lenZ bs.
Proof. intros Hl Hat. unfold skip_L. by rewrite (L_spec _ _ _ _ Hl Hat). Qed.

Lemma S_spec o payload bs rest : sized payload bs -> at_ b o (bs ++ rest) -> S_ b o = o + lenZ bs.
Proof.
  intros (size & Hl & ->) Hat. rewrite <- app_assoc in Hat. unfold S_.
  rewrite (L_spec _ _ _ _ Hl Hat). rewrite lenZ_app. lia.
Qed.

Lemma T_spec o bs rest : value_type bs -> at_ b o (bs ++ rest) -> T_ b o = o + lenZ bs.
Proof.
  intros [t H1%Z.eqb_neq H2%Z.eqb_neq|t n bs' Ht Hl] Hat; cbn in Hat;
    unfold T_; rewrite (at_byte _ _ _ Hat).
  - by rewrite H1, H2.
  - replace ((t =? 99) || (t =? 100)) with true by (destruct Ht as [-> | ->]; done).
    rewrite (skip_L_spec _ _ _ _ Hl (at_next _ _ _ Hat)). unfold lenZ. cbn [length]. lia.
Qed.

Lemma flag_set f k : 0 <= k -> (Z.land f (2 ^ k) =? 0) = negb (Z.testbit f k).
Proof.
  intros Hk. destruct (Z.testbit f k) eqn:E; cbn.
  - apply Z.eqb_neq. intros H. apply (f_equal (fun z => Z.testbit z k)) in H.
    by rewrite Z.land_spec, E, Z.pow2_bits_true, Z.bits_0 in H by done.
  - apply Z.eqb_eq, Z.bits_inj'. intros i Hi. rewrite Z.land_spec, Z.bits_0, Z.pow2_bits_eqb by done.
    destruct (Z.eqb_spec k i) as [<-|]; [by rewrite E|apply andb_false_r].
Qed.

Lemma optional_spec o present bs rest : optional_number present bs -> at_ b o (bs ++ rest) ->
  (if negb present then o else skip_L b o) = o + lenZ bs.
Proof.
  destruct present; cbn.
  - intros [n Hl]. apply (skip_L_spec _ _ _ _ Hl).
  - intros -> _. unfold lenZ. cbn. lia.
Qed.

Lemma M_spec o bs rest : limits bs -> at_ b o (bs ++ rest) -> M_ b o = o + lenZ bs.
Proof.
  intros [f min bmin bmax bpage Hmin Hmax Hpage] Hat. cbn in Hat. rewrite <- !app_assoc in Hat.
  unfold M_. rewrite (at_byte _ _ _ Hat). cbn [operand opt_or].
  apply at_next in Hat. rewrite (skip_L_spec _ _ _ _ Hmin Hat). apply at_skip in Hat.
  change (Z.land f 1) with (Z.land f (2 ^ 0)). rewrite flag_set by lia. rewrite (optional_spec _ _ _ _ Hmax Hat). apply at_skip in Hat.
  change (Z.land f 8) with (Z.land f (2 ^ 3)). rewrite flag_set by lia. rewrite (optional_spec _ _ _ _ Hpage Hat).
  unfold lenZ. cbn [length]. rewrite !length_app. lia.
Qed.
End Reading.

(** Mutabilities as the scan keeps them. *)
Definition bits (l : list bool) : list Z := Z.b2z <$> l.

Section Loops.
Context {b : bytes}.
Implicit Types (o : Z) (rest bs : bytes).

Lemma push_spec g o f rest : at_ b o (f :: rest) ->
  push_mutability b (bits g) o = bits (g ++ [Z.testbit f 0]).
Proof.
  intros Hat. unfold push_mutability, bits. rewrite (at_byte _ _ _ Hat), fmap_app. cbn. do 2 f_equal.
  change 1 with (Z.ones 1). rewrite Z.land_ones, <- Z.bit0_mod by lia. done.
Qed.

Lemma import_step d bs c g o rest : import d bs -> at_ b o (bs ++ rest) ->
  import_loop b (S c) (bits g) o = import_loop b c (bits (g ++ imported_globals [d])) (o + lenZ bs).
Proof.
  intros [d' m1 bs1 m2 bs2 bs3 H1 H2 Hd] Hat. rewrite <- !app_assoc in Hat. cbn [import_loop].
  rewrite (S_spec _ _ _ _ H1 Hat). apply at_skip in Hat.
  rewrite (S_spec _ _ _ _ H2 Hat). apply at_skip in Hat.
  rewrite !lenZ_app, !Z.add_assoc. set (p := o + lenZ bs1 + lenZ bs2) in *.
  destruct Hd as [n bs' Hl|t l Ht Hl|l Hl|t f Ht|a n bs' Hl]; cbn in Hat;
    rewrite (at_byte _ _ _ Hat); cbn [imported_globals omap list_omap]; rewrite ?app_nil_r;
    try rewrite <- !app_assoc in Hat; apply at_next in Hat; unfold lenZ at 1; cbn [length].
  - rewrite (skip_L_spec _ _ _ _ Hl Hat). f_equal. unfold lenZ. lia.
  - rewrite (T_spec _ _ _ Ht Hat). apply at_skip in Hat. rewrite (M_spec _ _ _ Hl Hat).
    f_equal. unfold lenZ. rewrite length_app. lia.
  - rewrite (M_spec _ _ _ Hl Hat). f_equal. unfold lenZ. lia.
  - rewrite (T_spec _ _ _ Ht Hat). apply at_skip in Hat. rewrite (push_spec _ _ _ _ Hat).
    f_equal. unfold lenZ. rewrite length_app. cbn. lia.
  - apply at_next in Hat. replace (p + 1 + 1) with (p + 2) in Hat by lia.
    rewrite (skip_L_spec _ _ _ _ Hl Hat). f_equal. unfold lenZ. lia.
Qed.

Lemma import_loop_spec l parts : Forall2 import l parts -> forall g o rest,
  at_ b o (concat parts ++ rest) ->
  import_loop b (length l) (bits g) o = Some (bits (g ++ imported_globals l), o + lenZ (concat parts)).
Proof.
  induction 1 as [|d bs l parts Hd _ IH]; intros g o rest Hat; cbn [length concat].
  - cbn. rewrite app_nil_r. f_equal. f_equal. unfold lenZ. cbn. lia.
  - cbn in Hat. rewrite <- app_assoc in Hat.
    rewrite (import_step _ _ _ _ _ _ Hd Hat), (IH _ _ _ (at_skip _ _ _ Hat)).
    rewrite <- app_assoc, lenZ_app, Z.add_assoc. do 4 f_equal. destruct d; done.
Qed.

Lemma op_number_inv p : op_number p = true -> p = 65 \/ p = 66 \/ p = 35 \/ p = 208 \/ p = 210.
Proof. unfold op_number. rewrite !orb_true_iff, !Z.eqb_eq. tauto. Qed.

Lemma op_plain_inv p : op_plain p = true -> p = 106 \/ p = 107 \/ p = 108 \/ p = 124 \/ p = 125 \/ p = 126.
Proof. unfold op_plain. rewrite orb_true_iff, !andb_true_iff, !Z.leb_le. lia. Qed.

Lemma expr_step i n o rest : instruction i -> at_ b o (i ++ rest) ->
  expr_loop b (S n) o = expr_loop b n (o + lenZ i).
Proof.
  intros Hi Hat. cbn [expr_loop].
  destruct Hi as [x1 x2 x3 x4|l Hl|p m bs Hp Hl|p Hp]; cbn in Hat; rewrite (at_byte _ _ _ Hat).
  - f_equal. unfold lenZ. cbn. lia.
  - f_equal. unfold lenZ. cbn. lia.
  - rewrite Hp, (skip_L_spec _ _ _ _ Hl (at_next _ _ _ Hat)).
    replace (o + lenZ (p :: bs)) with (o + 1 + lenZ bs) by (unfold lenZ; cbn [length]; lia).
    destruct (op_number_inv p Hp) as [-> |[-> |[-> |[-> | ->]]]]; done.
  - rewrite Hp. change (lenZ [p]) with 1.
    destruct (op_plain_inv p Hp) as [-> |[-> |[-> |[-> |[-> | ->]]]]]; done.
Qed.

Lemma expr_loop_spec code : Forall instruction code -> forall n o rest,
  at_ b o (concat code ++ 11 :: rest) -> (length code < n)%nat ->
  expr_loop b n o = Some (o + lenZ (concat code) + 1).
Proof.
  induction 1 as [|i code Hi _ IH]; intros [|n] o rest Hat Hn; cbn [length concat] in *; try lia.
  - cbn [expr_loop]. rewrite (at_byte _ _ _ Hat). cbn. f_equal. unfold lenZ. cbn. lia.
  - rewrite <- app_assoc in Hat. rewrite (expr_step _ _ _ _ Hi Hat).
    rewrite (IH _ _ _ (at_skip _ _ _ Hat)) by lia. rewrite lenZ_app. f_equal. lia.
Qed.

Lemma instructions_length code : Forall instruction code -> (length code <= length (concat code))%nat.
Proof.
  induction 1 as [|i code Hi _ IH]; cbn; [lia|]. rewrite length_app.
  destruct Hi; cbn in *; lia.
Qed.

Lemma global_step mut bs c g o rest : global mut bs -> at_ b o (bs ++ rest) ->
  global_loop b (S c) (bits g) o = global_loop b c (bits (g ++ [mut])) (o + lenZ bs).
Proof.
  intros [t f code Ht Hc] Hat. rewrite <- app_assoc in Hat. cbn in Hat. rewrite <- app_assoc in Hat.
  cbn [global_loop]. rewrite (T_spec _ _ _ Ht Hat). apply at_skip in Hat.
  rewrite (push_spec _ _ _ _ Hat). apply at_next in Hat.
  rewrite (expr_loop_spec _ Hc _ _ _ Hat).
  - f_equal. rewrite lenZ_app. unfold lenZ. cbn. rewrite length_app. cbn. lia.
  - apply at_length in Hat. rewrite length_app in Hat. pose proof (instructions_length _ Hc). unfold fuel. lia.
Qed.

Lemma global_loop_spec l parts : Forall2 global l parts -> forall g o rest,
  at_ b o (concat parts ++ rest) ->
  global_loop b (length l) (bits g) o = Some (bits (g ++ l), o + lenZ (concat parts)).
Proof.
  induction 1 as [|d bs l parts Hd _ IH]; intros g o rest Hat; cbn [length concat].
  - cbn. rewrite app_nil_r. f_equal. f_equal. unfold lenZ. cbn. lia.
  - cbn in Hat. rewrite <- app_assoc in Hat.
    rewrite (global_step _ _ _ _ _ _ Hd Hat), (IH _ _ _ (at_skip _ _ _ Hat)).
    rewrite <- app_assoc, lenZ_app, Z.add_assoc. done.
Qed.
End Loops.

(** What the linker relies on of [UTF8ArrayToString]: it decodes the bytes up to the given
    length, or a zero. *)
Class Utf8Reader (UTF8ArrayToString : bytes -> Z -> Z -> string) : Prop :=
  utf8_reads pre s post : Forall (fun x => x <> 0) (utf8_encode s) ->
    UTF8ArrayToString (pre ++ utf8_encode s ++ post) (lenZ pre) (lenZ (utf8_encode s)) = s.

Section ExportsScan.
Context {b : bytes} {UTF8ArrayToString : bytes -> Z -> Z -> string} `{!Utf8Reader UTF8ArrayToString}.

Definition plain_name (e : Export) : Prop := Forall (fun x => x <> 0) (utf8_encode (ex_name e)).

Lemma mutable_at_bits g i : mutable_at (bits g) i = opt_or (g !! Z.to_nat i) false.
Proof.
  unfold mutable_at, bits. rewrite list_lookup_fmap. by destruct (g !! _) as [[]|].
Qed.

Lemma name_read o payload bs rest : sized (utf8_encode payload) bs -> at_ b o (bs ++ rest) ->
  Forall (fun x => x <> 0) (utf8_encode payload) ->
  (let '(l, start) := L b o in UTF8ArrayToString b start l) = payload.
Proof.
  intros (size & Hl & ->) Hat Hp. rewrite <- app_assoc in Hat. rewrite (L_spec _ _ _ _ Hl Hat).
  apply at_skip in Hat. destruct Hat as (pre & -> & <-). by apply utf8_reads.
Qed.

(** The names the scan adds for exports. *)
Definition scanned (g : list bool) (l : list Export) : gset string :=
  list_to_set (ex_name <$> filter (fun e => exports_mutable g e = true) l).

Lemma export_step e bs c g r o rest : export e bs -> plain_name e -> at_ b o (bs ++ rest) ->
  export_loop b UTF8ArrayToString (S c) (bits g) r o =
  export_loop b UTF8ArrayToString c (bits g) (scanned g [e] ∪ r) (o + lenZ bs).
Proof.
  intros [e' name index Hn Hi] Hp Hat. rewrite <- app_assoc in Hat. cbn in Hat.
  pose proof (name_read _ _ _ _ Hn Hat Hp) as Hr.
  cbn [export_loop]. rewrite (S_spec _ _ _ _ Hn Hat). apply at_skip in Hat.
  rewrite (at_byte _ _ _ Hat). rewrite (L_spec _ _ _ _ Hi (at_next _ _ _ Hat)).
  rewrite mutable_at_bits.
  replace (o + lenZ name + 1 + lenZ index) with (o + lenZ (name ++ ex_kind e' :: index))
    by (rewrite lenZ_app; unfold lenZ; cbn [length]; lia).
  f_equal. unfold scanned, exports_mutable. rewrite filter_cons.
  replace (bool_decide (Some (ex_kind e') = Some 3)) with (ex_kind e' =? 3)
    by (destruct (Z.eqb_spec (ex_kind e') 3); case_bool_decide; congruence).
  destruct ((ex_kind e' =? 3) && _) eqn:E.
  - destruct (L b o) as [n start]. rewrite Hr, decide_True by done. cbn. set_solver.
  - rewrite decide_False by done. cbn. set_solver.
Qed.

Lemma export_loop_spec l parts : Forall2 export l parts -> Forall plain_name l -> forall g r o rest,
  at_ b o (concat parts ++ rest) ->
  export_loop b UTF8ArrayToString (length l) (bits g) r o = (scanned g l ∪ r, o + lenZ (concat parts)).
Proof.
  induction 1 as [|e bs l parts He _ IH]; intros Hp g r o rest Hat; cbn [length concat].
  - cbn. unfold scanned. cbn. f_equal; [set_solver|]. unfold lenZ. cbn. lia.
  - apply Forall_cons in Hp as [Hp1 Hp]. cbn in Hat. rewrite <- app_assoc in Hat.
    rewrite (export_step _ _ _ _ _ _ _ He Hp1 Hat), (IH Hp _ _ _ _ (at_skip _ _ _ Hat)).
    rewrite lenZ_app, Z.add_assoc. f_equal. unfold scanned. rewrite !filter_cons.
    destruct (decide (exports_mutable g e = true)); cbn; set_solver.
Qed.
End ExportsScan.

(** ** The scan of a module *)
Lemma ordered_ranks last secs : ordered last secs = true ->
  Forall (fun s => rank s = 0%nat \/ (last < rank s)%nat) secs.
Proof.
  revert last. induction secs as [|s l IH]; intros last Ho; [constructor|]. cbn [ordered] in Ho.
  destruct (Nat.eqb_spec (rank s) 0) as [H0|H0]; [constructor; eauto|].
  apply andb_true_iff in Ho as [H1%Nat.ltb_lt Ho]. constructor; [lia|].
  eapply Forall_impl; [by apply IH|]. intros s'. cbn. lia.
Qed.

Lemma bind_nil {A B} (f : A -> list B) l : Forall (fun x => f x = []) l -> l ≫= f = [].
Proof. induction 1 as [|x l Hx _ IH]; cbn; [done|]. by rewrite Hx, IH. Qed.

Lemma ordered_globals last secs : ordered last secs = true -> (6 <= last)%nat ->
  secs ≫= section_imports = [] /\ secs ≫= section_globals = [].
Proof.
  intros Ho%ordered_ranks Hl.
  split; apply bind_nil; eapply Forall_impl; try exact Ho; intros []; cbn; done || lia.
Qed.

Lemma ordered_exports secs : ordered 7 secs = true -> all_exports secs = [].
Proof.
  intros Ho%ordered_ranks. apply bind_nil. eapply Forall_impl; try exact Ho. intros []; cbn; done || lia.
Qed.

Lemma section_cons b o s bs l : section s bs -> at_ b o (bs ++ l) ->
  exists id content (size : bytes), section_content s id content /\ byte b o = Some id /\
    L b (o + 1) = (lenZ content, o + 1 + lenZ size) /\ o < lenZ b /\
    at_ b (o + 1 + lenZ size) (content ++ l) /\ o + lenZ bs = o + 1 + lenZ size + lenZ content.
Proof.
  intros [s' id content bs' Hc (size & Hs & ->)] Hat. exists id, content, size. split; [done|].
  split; [by eapply at_byte|].
  assert (o < lenZ b) by (destruct Hat as (pre & -> & <-); rewrite lenZ_app; unfold lenZ; cbn [app length]; lia).
  cbn in Hat. apply at_next in Hat. rewrite <- app_assoc in Hat. rewrite (L_spec _ _ _ _ Hs Hat).
  apply at_skip in Hat. repeat split; try done. unfold lenZ. cbn [length]. rewrite length_app. lia.
Qed.

Section Whole.
Context {b : bytes} {UTF8ArrayToString : bytes -> Z -> Z -> string} `{!Utf8Reader UTF8ArrayToString}.

Lemma section_loop_spec secs parts : Forall2 section secs parts -> forall last g o n,
  ordered last secs = true -> Forall plain_name (all_exports secs) ->
  at_ b o (concat parts) -> (length secs < n)%nat ->
  section_loop b UTF8ArrayToString n (bits g) o = Some (scanned (g ++ all_globals secs) (all_exports secs)).
Proof.
  induction 1 as [|s bs secs parts Hs Hss IH]; intros last g o [|n] Ho Hp Hat Hn; cbn in Hn; try lia;
    cbn [section_loop concat] in *.
  - destruct Hat as (pre & -> & <-). rewrite app_nil_r, Z.leb_refl. done.
  - destruct (section_cons _ _ _ _ _ Hs Hat) as (id & content & size & Hc & -> & -> & Hlt & Hat' & _).
    apply Z.leb_gt in Hlt. rewrite Hlt. set (p := o + 1 + lenZ size) in *.
    pose proof (at_skip _ _ _ Hat') as Hnext.
    destruct Hc as [l bs' (count & ps & Hcount & Hl & ->)|l bs' (count & ps & Hcount & Hl & ->)
                   |l bs' (count & ps & Hcount & Hl & ->)|id bs' H2%Z.eqb_neq H6%Z.eqb_neq H7%Z.eqb_neq];
      cbn [Z.eqb Pos.eqb] in *; try rewrite <- app_assoc in Hat';
      try (rewrite (L_spec _ _ _ _ Hcount Hat'); apply at_skip in Hat';
           rewrite ?lenZ_app, ?Z.add_assoc in *; unfold lenZ at 1; rewrite Nat2Z.id).
    + apply andb_true_iff in Ho as [_ Ho].
      rewrite (import_loop_spec _ _ Hl _ _ _ Hat'), Z.eqb_refl.
      rewrite (IH 2%nat _ _ _ Ho Hp Hnext) by lia. rewrite <- app_assoc.
      unfold all_globals, all_exports. cbn. by rewrite <- !app_assoc.
    + apply andb_true_iff in Ho as [_ Ho].
      rewrite (global_loop_spec _ _ Hl _ _ _ Hat'), Z.eqb_refl.
      rewrite (IH 6%nat _ _ _ Ho Hp Hnext) by lia. rewrite <- app_assoc.
      destruct (ordered_globals 6 secs Ho) as [Hi Hg]; [lia|].
      unfold all_globals, all_exports. cbn. by rewrite Hi, Hg.
    + apply andb_true_iff in Ho as [_ Ho]. change (all_exports (Exports l :: secs)) with (l ++ all_exports secs) in *.
      rewrite (ordered_exports _ Ho) in *. rewrite app_nil_r in *.
      rewrite (export_loop_spec _ _ Hl Hp _ _ _ _ Hat'), Z.eqb_refl.
      destruct (ordered_globals 7 secs Ho) as [Hi Hg]; [lia|]. unfold all_globals. cbn.
      rewrite Hi, Hg, app_nil_r. f_equal. set_solver.
    + rewrite H2, H6, H7. rewrite (IH last _ _ _ Ho Hp Hnext) by lia. done.
Qed.

Lemma sections_length secs parts : Forall2 section secs parts -> (length secs <= length (concat parts))%nat.
Proof.
  induction 1 as [|s bs secs parts [] _ IH]; cbn; [lia|]. rewrite length_app. lia.
Qed.
End Whole.

Section Scanning.
Context {UTF8ArrayToString : bytes -> Z -> Z -> string} `{!Utf8Reader UTF8ArrayToString}.

Lemma scan_module sections elements :
  wasm_module sections (map (fun x => x mod 256) elements) -> ordered 0 sections = true ->
  Forall plain_name (all_exports sections) ->
  __hbMutableGlobals UTF8ArrayToString (View elements) = Some (list_to_set (mutable_exports sections)).
Proof.
  intros (header & parts & Hh & Hs & Hb) Ho Hp. unfold __hbMutableGlobals. rewrite Hb.
  apply (section_loop_spec _ _ Hs 0 [] 8); try done.
  - exists header. unfold lenZ. by rewrite Hh.
  - pose proof (sections_length _ _ Hs). unfold fuel. rewrite length_app. lia.
Qed.
End Scanning.

(** C24: A side module's bytes are read correctly: for every wasm binary, with its numbers
    padded or not and its bytes signed or unsigned, the scan returns exactly the names of
    the exports that are mutable globals, in the index space where imported globals come
    first. *)
Theorem mutable_globals_are_read UTF8ArrayToString sections bs elements :
  Utf8Reader UTF8ArrayToString ->
  wasm_module sections bs -> ordered 0 sections = true -> Forall plain_name (all_exports sections) ->
  map (fun x => x mod 256) elements = bs ->
  __hbMutableGlobals UTF8ArrayToString (View elements) = Some (list_to_set (mutable_exports sections)).
Proof. intros Hu Hm Ho Hp <-. by apply scan_module. Qed.

(** ** What relocation makes of it *)

(** The exports of an instance are those of its module, in order. *)
Definition export_value (globals : list bool) (e : Export) (x : string * ExportValue) : Prop :=
  x.1 = ex_name e /\
  match x.2 with
  | V_global mut _ => ex_kind e = 3 /\ globals !! Z.to_nat (ex_index e) = Some mut
  | V_other _ => ex_kind e <> 3
  end.
Definition instance_of (sections : list Section_) (exports : list (string * ExportValue)) : Prop :=
  Forall2 (export_value (all_globals sections)) (all_exports sections) exports.

(** A module whose sections are in order and whose exports have names of their own. *)
Definition valid_module (sections : list Section_) (elements : list Z) : Prop :=
  wasm_module sections (map (fun x => x mod 256) elements) /\ ordered 0 sections = true /\
  Forall plain_name (all_exports sections) /\ NoDup (ex_name <$> all_exports sections).

(** The bytes that a load compiles, or that the module it takes was compiled from. *)
Definition linked_bytes (libName : option string) (file : list Z) (st : LinkState) : list Z :=
  match libName, __haybarnArmedModule st with
  | Some n, Some a => if armed_for n a then armed_bytes a else file
  | _, _ => file
  end.

Section Relocating.
Context {UTF8ArrayToString : bytes -> Z -> Z -> string} `{!Utf8Reader UTF8ArrayToString}.
Context {isImmutableGlobal : ExportValue -> bool}.
Hypothesis probe : forall v,
  isImmutableGlobal v = match v with V_global mut _ => negb mut | V_other _ => false end.

Lemma scan_valid sections elements : valid_module sections elements ->
  __hbMutableGlobals UTF8ArrayToString (View elements) = Some (list_to_set (mutable_exports sections)).
Proof. intros (Hm & Ho & Hp & _). by apply scan_module. Qed.

Lemma mutable_name sections e : NoDup (ex_name <$> all_exports sections) -> e ∈ all_exports sections ->
  ex_name e ∈ mutable_exports sections <-> exports_mutable (all_globals sections) e = true.
Proof.
  intros Hn He. unfold mutable_exports. rewrite list_elem_of_fmap. split.
  - intros (e' & Heq & [Hm He']%list_elem_of_filter).
    apply list_elem_of_lookup in He as [i Hi], He' as [j Hj].
    assert (i = j) as ->; [|congruence].
    eapply NoDup_lookup; [done| |]; rewrite list_lookup_fmap; [by rewrite Hi|rewrite Hj; cbn; by f_equal].
  - intros Hm. exists e. split; [done|]. by apply list_elem_of_filter.
Qed.

Lemma relocate_same sections e x memoryBase :
  NoDup (ex_name <$> all_exports sections) -> e ∈ all_exports sections ->
  export_value (all_globals sections) e x ->
  relocateExport isImmutableGlobal memoryBase (Some (list_to_set (mutable_exports sections))) x.1 x.2 =
  relocate_by_probe isImmutableGlobal memoryBase x.2.
Proof.
  intros Hn He [Hx Hv]. unfold relocateExport, relocate_by_probe. rewrite probe.
  destruct (x.2) as [mut v|]; cbn; [|done]. destruct Hv as [Hk Hg].
  rewrite (bool_decide_ext _ (~ exports_mutable (all_globals sections) e = true))
    by (by rewrite elem_of_list_to_set, Hx, mutable_name).
  unfold exports_mutable. rewrite Hk, Hg. by destruct mut.
Qed.

Lemma relocations_same sections exports memoryBase :
  NoDup (ex_name <$> all_exports sections) -> instance_of sections exports ->
  relocateExports isImmutableGlobal exports memoryBase (Some (list_to_set (mutable_exports sections))) =
  relocateExports_before isImmutableGlobal exports memoryBase.
Proof.
  intros Hn Hi. unfold relocateExports, relocateExports_before. apply map_ext_in. intros x Hx. f_equal.
  apply list_elem_of_In, list_elem_of_lookup in Hx as [i Hx].
  destruct (Forall2_lookup_r _ _ _ _ _ Hi Hx) as (e & He & Hv).
  by apply (relocate_same sections e); [| eapply list_elem_of_lookup_2|].
Qed.

(** C25: A load relocates the exports of the library it links exactly as the probe of each
    global did before the rewrite, whether it compiles the file or takes the module that
    was armed for it, and whatever scan an earlier load has left behind. *)
Theorem loads_relocate_as_the_probe_does libName file exports memoryBase st sections :
  valid_module sections (linked_bytes libName file st) -> instance_of sections exports ->
  (link UTF8ArrayToString isImmutableGlobal libName (View file) exports memoryBase st).1 =
  relocateExports_before isImmutableGlobal exports memoryBase.
Proof.
  intros Hv Hi. pose proof (scan_valid _ _ Hv) as Hs. destruct Hv as (_ & _ & _ & Hn).
  rewrite <- (relocations_same sections) by done.
  unfold link, loadLibData, __hbTakeArmedModule, linked_bytes, scan_for in *.
  destruct libName as [n|], (__haybarnArmedModule st) as [a|]; try destruct (armed_for n a);
    cbn [__hbNextMut fst]; rewrite ?Hs; done.
Qed.
End Relocating.

(** ** Samples *)

(** [UTF8ArrayToString] up to a zero. *)
Fixpoint until_zero (l : bytes) : bytes :=
  match l with [] => [] | x :: l' => if x =? 0 then [] else x :: until_zero l' end.
Definition sample_reader (b : bytes) (o n : Z) : string :=
  utf8_decode (until_zero (take (Z.to_nat n) (drop (Z.to_nat o) b))).

Lemma until_zero_id l : Forall (fun x => x <> 0) l -> until_zero l = l.
Proof. induction 1 as [|x l Hx%Z.eqb_neq _ IH]; cbn; [done|]. by rewrite Hx, IH. Qed.

#[export] Instance sample_reader_reads : Utf8Reader sample_reader.
Proof.
  intros pre s post Hs. unfold sample_reader, lenZ. rewrite !Nat2Z.id.
  by rewrite drop_app_length, take_app_length, until_zero_id, utf8_roundtrip.
Qed.

Definition sample_probe (v : ExportValue) : bool :=
  match v with V_global mut _ => negb mut | V_other _ => false end.

(** [scripts/dylink_fixtures/globals.so] *)
Definition fixture_header : bytes := [0; 97; 115; 109; 1; 0; 0; 0].
Definition fixture_dylink : bytes := [8; 100; 121; 108; 105; 110; 107; 46; 48; 1; 4; 16; 2; 0; 0].
Definition fixture_types : bytes := [2; 96; 0; 1; 127; 96; 1; 127; 0].
Definition env : bytes := [3; 101; 110; 118].
Definition fixture_imports : list bytes :=
  [env ++ [6; 109; 101; 109; 111; 114; 121] ++ [2; 0; 0];
   env ++ [13; 95; 95; 109; 101; 109; 111; 114; 121; 95; 98; 97; 115; 101] ++ [3; 127; 0]].
Definition fixture_globals : list bytes :=
  [[124; 0; 68; 0; 0; 0; 0; 0; 0; 248; 63; 11]; [127; 0; 65; 8; 11]; [127; 1; 65; 5; 11]; [127; 0; 35; 0; 11]].
Definition fixture_exports : list bytes :=
  [[7; 104; 98; 95; 100; 97; 116; 97; 3; 2]; [6; 104; 98; 95; 109; 117; 116; 3; 3];
   [12; 104; 98; 95; 100; 97; 116; 97; 95; 97; 100; 100; 114; 0; 0];
   [10; 104; 98; 95; 103; 101; 116; 95; 109; 117; 116; 0; 1];
   [10; 104; 98; 95; 115; 101; 116; 95; 109; 117; 116; 0; 2]].
Definition fixture_code : bytes :=
  [3; 7; 0; 35; 0; 65; 8; 106; 11; 4; 0; 35; 3; 11; 6; 0; 32; 0; 36; 3; 11].
Definition fixture : bytes :=
  fixture_header ++ concat
    [0 :: 15 :: fixture_dylink; 1 :: 9 :: fixture_types; 2 :: 36 :: 2 :: concat fixture_imports;
     [3; 4; 3; 0; 0; 1]; 6 :: 28 :: 4 :: concat fixture_globals; 7 :: 61 :: 5 :: concat fixture_exports;
     10 :: 21 :: fixture_code].
Definition Ex (name : string) (kind index : Z) : Export := {| ex_name := name; ex_kind := kind; ex_index := index |}.
Definition fixture_sections : list Section_ :=
  [Other 0 fixture_dylink; Other 1 fixture_types; Imports [I_memory; I_global false]; Other 3 [3; 0; 0; 1];
   Globals [false; false; true; false];
   Exports [Ex "hb_data" 3 2; Ex "hb_mut" 3 3; Ex "hb_data_addr" 0 0; Ex "hb_get_mut" 0 1; Ex "hb_set_mut" 0 2];
   Other 10 fixture_code].

Example fixture_is_scanned :
  __hbMutableGlobals sample_reader (View fixture) = Some {["hb_mut"%string]}.
Proof. vm_compute. reflexivity. Qed.

Ltac leb_tac := apply leb_last; lia.

Lemma sized_small payload n : lenZ payload = n -> n < 128 -> sized payload (n :: payload).
Proof. intros <- H. exists [lenZ payload]. split; [apply leb_last; pose proof (lenZ_nonneg payload); lia|done]. Qed.

Lemma vec_small {A} (R : A -> bytes -> Prop) l parts n bs :
  lenZ l = n -> n < 128 -> Forall2 R l parts -> bs = n :: concat parts -> vec R l bs.
Proof.
  intros <- H HR ->. exists [lenZ l], parts. split; [apply leb_last; pose proof (lenZ_nonneg l); lia|done].
Qed.

Lemma fixture_imports_ok : Forall2 import [I_memory; I_global false] fixture_imports.
Proof.
  repeat constructor.
  - apply (import_intro I_memory [101; 110; 118] _ [109; 101; 109; 111; 114; 121] _ [2; 0; 0]);
      try (by apply sized_small).
    constructor. apply (limits_intro 0 0 [0] [] []); [leb_tac|done|done].
  - apply (import_intro (I_global (Z.testbit 0 0)) [101; 110; 118] _
             [95; 95; 109; 101; 109; 111; 114; 121; 95; 98; 97; 115; 101] _ [3; 127; 0]);
      try (by apply sized_small).
    apply (import_global [127] 0). by constructor.
Qed.

Lemma fixture_globals_ok : Forall2 global [false; false; true; false] fixture_globals.
Proof.
  repeat constructor.
  - apply (global_intro [124] 0 [[68; 0; 0; 0; 0; 0; 0; 248; 63]]); [by constructor|].
    constructor; [by constructor|done].
  - apply (global_intro [127] 0 [[65; 8]]); [by constructor|].
    constructor; [by apply (instr_number 65 8); [|leb_tac]|done].
  - apply (global_intro [127] 1 [[65; 5]]); [by constructor|].
    constructor; [by apply (instr_number 65 5); [|leb_tac]|done].
  - apply (global_intro [127] 0 [[35; 0]]); [by constructor|].
    constructor; [by apply (instr_number 35 0); [|leb_tac]|done].
Qed.

Lemma export_small name kind index n :
  lenZ (utf8_encode name) = n -> n < 128 -> 0 <= index < 128 ->
  export (Ex name kind index) ((n :: utf8_encode name) ++ [kind; index]).
Proof.
  intros Hn Hl Hi. apply (export_intro (Ex name kind index)); [by apply sized_small|]. by apply leb_last.
Qed.

Lemma fixture_exports_ok :
  Forall2 export
    [Ex "hb_data" 3 2; Ex "hb_mut" 3 3; Ex "hb_data_addr" 0 0; Ex "hb_get_mut" 0 1; Ex "hb_set_mut" 0 2]
    fixture_exports.
Proof. repeat (constructor; [by apply export_small|]). constructor. Qed.

Lemma small_section s id content n : section_content s id content -> lenZ content = n -> n < 128 ->
  section s (id :: n :: content).
Proof. intros Hc Hn Hl. apply section_intro with content; [done|]. by apply sized_small. Qed.

Lemma fixture_module : wasm_module fixture_sections fixture.
Proof.
  eexists _, [_; _; _; _; _; _; _]. split; [|split; [|unfold fixture; reflexivity]]; [done|].
  repeat (constructor; [apply small_section; [|done|done]|]); [..|constructor].
  1, 2, 4, 7: by constructor.
  - constructor. by eapply (vec_small _ _ fixture_imports); [| |apply fixture_imports_ok|].
  - constructor. by eapply (vec_small _ _ fixture_globals); [| |apply fixture_globals_ok|].
  - constructor. by eapply (vec_small _ _ fixture_exports); [| |apply fixture_exports_ok|].
Qed.

Lemma fixture_names : Forall plain_name (all_exports fixture_sections).
Proof. unfold plain_name. repeat constructor; done. Qed.

Lemma mutable_globals_are_read_witness :
  __hbMutableGlobals sample_reader (View fixture) = Some (list_to_set (mutable_exports fixture_sections)) /\
  mutable_exports fixture_sections = ["hb_mut"%string].
Proof.
  split; [|reflexivity].
  exact (mutable_globals_are_read sample_reader fixture_sections fixture fixture _
           fixture_module eq_refl fixture_names eq_refl).
Defined.

(** The library is taken from the module armed for it, with a scan left by another load. *)
Definition fixture_instance : list (string * ExportValue) :=
  [("hb_data", V_global false 8); ("hb_mut", V_global true 5); ("hb_data_addr", V_other 0);
   ("hb_get_mut", V_other 1); ("hb_set_mut", V_other 2)]%string.
Definition armed_state : LinkState :=
  {| __haybarnArmedModule := Some {| armed_name := "globals.so"; armed_module := 7; armed_bytes := fixture |};
     __hbNextMut := Some {["hb_data"%string]} |}.

Lemma fixture_valid : valid_module fixture_sections fixture.
Proof.
  split; [exact fixture_module|]. split; [reflexivity|]. split; [exact fixture_names|].
  by apply (bool_decide_unpack _).
Qed.

Lemma fixture_is_instance : instance_of fixture_sections fixture_instance.
Proof. repeat constructor; done. Qed.

Lemma loads_relocate_as_the_probe_does_witness :
  (link sample_reader sample_probe (Some "/tmp/globals.so"%string) (View []) fixture_instance 1000 armed_state).1 =
  [("hb_data", V_global false 1008); ("hb_mut", V_global true 5); ("hb_data_addr", V_other 0);
   ("hb_get_mut", V_other 1); ("hb_set_mut", V_other 2)]%string.
Proof.
  exact (loads_relocate_as_the_probe_does (isImmutableGlobal := sample_probe) (fun v => eq_refl)
           (Some "/tmp/globals.so"%string) [] fixture_instance 1000 armed_state fixture_sections
           fixture_valid fixture_is_instance).
Defined.

(** Loads must not overlap: a scan taken for one library and not used yet is used by any
    other whose bytes are read meanwhile. *)
Lemma overlapping_loads_mix_scans :
  exists st1 st2, loadLibData sample_reader (Some "b.so"%string) (View []) armed_state = (View [], st1) /\
    loadLibData sample_reader (Some "globals.so"%string) (View []) st1 = (Compiled 7, st2) /\
    (scan_for sample_reader (View []) st2).1 = Some {["hb_mut"%string]} /\
    __hbMutableGlobals sample_reader (View []) = Some ∅.
Proof. do 2 eexists. repeat split; vm_compute; reflexivity. Qed.
