(* ===== verification/DylinkGlue.v ===== *)
(** * DylinkGlue: resolving the main module's symbols on first use

    The code [scripts/patch_dylink_glue.cjs] puts into the dynamic linker of emscripten,
    next to the code of the linker it replaces, which the script quotes ([REQUIRED]) and
    compares with.  The linker copies the main module's exports into [wasmImports] and the
    global offset table when the module starts; the replacement has a proxy fall back to
    them, and fills a table entry when it is asked for.

    [Eager] is the linker as it was, [Lazy] as it is patched; the last section shows that
    no lookup tells them apart. *)
From S2P Require Import Prelude JsMap.
From stdpp Require Import base tactics list gmap strings.
From Stdlib Require Import ZArith Lia.
Open Scope Z_scope.

(** An export: a function, a global that holds a number, or anything else. *)
Inductive Export := E_function (f : Z) | E_global (value : Z) | E_other (id : Z).
#[export] Instance Export_eq_dec : EqDecision Export.
Proof. solve_decision. Defined.

(** An object of exports, with its properties in order. *)
Abbreviation exports := (list (string * Export)).

(** A property of [wasmImports]; stubs stand for symbols that are not defined yet. *)
Record Import := { i_value : Export; stub : bool }.
(** An entry of the global offset table: a [WebAssembly.Global] and its mark. *)
Record Entry := { e_value : Z; required : bool }.

(** The table of functions and [addFunction], which emscripten generates. *)
Class FunctionTable (T : Type) := {
  index_of : T -> Z -> option Z;
  addFunction : Z -> T -> Z * T
}.
(** A function gets one index, which is none of [-1], and keeps it. *)
Class FunctionTableLaws (T : Type) `{FunctionTable T} : Prop := {
  add_index f t : index_of (addFunction f t).2 f = Some (addFunction f t).1;
  add_keeps f t g i : index_of t g = Some i -> index_of (addFunction f t).2 g = Some i;
  add_valid f t : (addFunction f t).1 <> -1
}.

Section Glue.
Context {T : Type} `{FunctionTable T}.
Variable isInternalSym : string -> bool.

(** ** The code that both share *)
Record Linkage := { GOT : gmap string Entry; table : T }.

(** The value [updateGOT] gives an entry, if the export has one. *)
Definition newValue (x : Export) (t : T) : option (Z * T) :=
  match x with
  | E_function f => Some (addFunction f t)
  | E_global v => Some (v, t)
  | E_other _ => None
  end.

Definition existingEntry (o : option Entry) : bool :=
  match o with Some en => negb (e_value en =? -1) | None => false end.
Definition is_required (o : option Entry) : bool := match o with Some en => required en | None => false end.

(** The body of the loop of [updateGOT]. *)
Definition update_entry (replace : bool) (symName : string) (value : Export) (d : Linkage) : Linkage :=
  if isInternalSym symName then d
  else if replace || negb (existingEntry (GOT d !! symName)) then
    match newValue value (table d) with
    | None => d
    | Some (v, t) =>
        {| GOT := <[symName := {| e_value := v; required := is_required (GOT d !! symName) |}]> (GOT d);
           table := t |}
    end
  else d.
Definition updateGOT (e : exports) (replace : bool) (d : Linkage) : Linkage :=
  foldl (fun d x => update_entry replace x.1 x.2 d) d e.

(** [GOTHandler.get]; [weak] is [weakImports.has(symName)]. *)
Definition GOTHandler_get (weak : bool) (symName : string) (d : Linkage) : Entry * Linkage :=
  let rtn := match GOT d !! symName with Some en => en | None => {| e_value := -1; required := false |} end in
  let rtn := if weak then rtn else {| e_value := e_value rtn; required := true |} in
  (rtn, {| GOT := <[symName := rtn]> (GOT d); table := table d |}).

Definition isSymbolDefined (existing : option Import) : bool :=
  match existing with Some i => negb (stub i) | None => false end.
Definition imported (x : Export) : Import := {| i_value := x; stub := false |}.

(** ** The linker as emscripten has it *)
Record Eager := {
  g_link : Linkage;
  g_imports : gmap string Import;
  (** [LDSO.loadedLibsByHandle]; [None] is a library whose exports are [wasmImports]. *)
  g_libs : gmap Z (option exports)
}.

Definition merge_one (imports : gmap string Import) (sym : string) (exp : Export) : gmap string Import :=
  if isSymbolDefined (imports !! sym) then imports else <[sym := imported exp]> imports.
Definition mergeLibSymbols (e : exports) (s : Eager) : Eager :=
  {| g_link := g_link s; g_imports := foldl (fun m x => merge_one m x.1 x.2) (g_imports s) e; g_libs := g_libs s |}.
Definition with_link (d : Linkage) (s : Eager) : Eager :=
  {| g_link := d; g_imports := g_imports s; g_libs := g_libs s |}.
Definition eager_get (weak : bool) (symName : string) (s : Eager) : Entry * Eager :=
  let '(r, d) := GOTHandler_get weak symName (g_link s) in (r, with_link d s).
(** [newDSO(_, handle, _)] *)
Definition newDSO (handle : Z) (own : option exports) (s : Eager) : Eager :=
  {| g_link := g_link s; g_imports := g_imports s; g_libs := <[handle := own]> (g_libs s) |}.

(** [receiveInstance] and the [LDSO.init()] it calls. *)
Definition receiveInstance (main : exports) (s : Eager) : Eager :=
  let s := newDSO 0 None (mergeLibSymbols main s) in
  with_link (updateGOT main false (g_link s)) s.

(** What a library's symbol is looked up in, and [wasmImports[k]]. *)
Definition eager_import (k : string) (s : Eager) : option Import := g_imports s !! k.
Definition eager_lib (handle : Z) (k : string) (s : Eager) : option Import :=
  match g_libs s !! handle with
  | Some None => g_imports s !! k
  | Some (Some own) => imported <$> mget k own
  | None => None
  end.

(** ** The linker as it is patched *)

(** The objects that exports are looked up in: the plain [wasmImports], the proxy over it,
    or the exports of a side module. *)
Inductive Ref := R_plain | R_proxy | R_own (own : exports).

Record Lazy := {
  l_link : Linkage;
  (** the plain object [t] *)
  l_imports : gmap string Import;
  (** the object [wasmImports] refers to *)
  wasmImports : Ref;
  __hbMainExports : option exports;
  (** whether [__hbLazy] is set *)
  __hbLazy : bool;
  l_libs : gmap Z Ref
}.

Definition with_l_link (d : Linkage) (s : Lazy) : Lazy :=
  {| l_link := d; l_imports := l_imports s; wasmImports := wasmImports s; __hbMainExports := __hbMainExports s;
     __hbLazy := __hbLazy s; l_libs := l_libs s |}.

Definition __hbGOTFromMain (symName : string) (s : Lazy) : Lazy :=
  match __hbMainExports s, GOT (l_link s) !! symName with
  | Some main, None =>
      match mget symName main with
      | Some x =>
          if isInternalSym symName then s
          else with_l_link (updateGOT [(symName, x)] false (l_link s)) s
      | None => s
      end
  | _, _ => s
  end.

Definition lazy_get (weak : bool) (symName : string) (s : Lazy) : Entry * Lazy :=
  let s := __hbGOTFromMain symName s in
  let '(r, d) := GOTHandler_get weak symName (l_link s) in (r, with_l_link d s).

(** The patched [updateGOT] for the main module's own exports: the entries that exist. *)
Definition update_existing (main : exports) (symName : string) (d : Linkage) : Linkage :=
  match mget symName main, GOT d !! symName with
  | Some x, Some en =>
      if negb (isInternalSym symName) && (e_value en =? -1) then updateGOT [(symName, x)] false d else d
  | _, _ => d
  end.
Definition updateGOT_main (main : exports) (d : Linkage) : Linkage :=
  foldl (fun d symName => update_existing main symName d) d (map_to_list (GOT d)).*1.
(** ... and for those of a side module. *)
Definition lazy_updateGOT (e : exports) (replace : bool) (s : Lazy) : Lazy :=
  let s :=
    match __hbMainExports s with
    | Some _ => if replace then s else foldl (fun s x => __hbGOTFromMain x.1 s) s e
    | None => s
    end in
  with_l_link (updateGOT e replace (l_link s)) s.

(** [h(k)]: the main module's export, where the proxy falls back to it. *)
Definition fallback (s : Lazy) (k : string) : option Export :=
  if isSymbolDefined (l_imports s !! k) then None
  else match __hbMainExports s with Some main => mget k main | None => None end.

(** The traps [get] and [has] of the proxy.  [__hbMaterialize] takes them away. *)
Definition read (s : Lazy) (r : Ref) (k : string) : option Import :=
  match r with
  | R_plain => l_imports s !! k
  | R_proxy =>
      if __hbLazy s
      then match fallback s k with Some x => Some (imported x) | None => l_imports s !! k end
      else l_imports s !! k
  | R_own own => imported <$> mget k own
  end.
Definition has (s : Lazy) (r : Ref) (k : string) : bool :=
  match r with
  | R_plain => bool_decide (is_Some (l_imports s !! k))
  | R_proxy =>
      bool_decide (is_Some (l_imports s !! k)) ||
      (__hbLazy s && bool_decide (is_Some (fallback s k)))
  | R_own own => mhas k own
  end.

(** A write through the proxy goes to the plain object.  The merge writes only symbols that
    are not defined, which the main module does not export then. *)
Definition lazy_merge_one (s : Lazy) (sym : string) (exp : Export) : Lazy :=
  if isSymbolDefined (read s (wasmImports s) sym) then s
  else {| l_link := l_link s; l_imports := <[sym := imported exp]> (l_imports s); wasmImports := wasmImports s;
          __hbMainExports := __hbMainExports s; __hbLazy := __hbLazy s; l_libs := l_libs s |}.
Definition merge_side (e : exports) (s : Lazy) : Lazy := foldl (fun s x => lazy_merge_one s x.1 x.2) s e.
(** The patched [mergeLibSymbols]; [main] is [libName === "main"]. *)
Definition lazy_mergeLibSymbols (e : exports) (main : bool) (s : Lazy) : Lazy :=
  match main, __hbMainExports s with
  | true, None =>
      {| l_link := l_link s; l_imports := l_imports s; wasmImports := R_proxy; __hbMainExports := Some e;
         __hbLazy := true; l_libs := l_libs s |}
  | _, _ => merge_side e s
  end.

Definition copy_one (imports : gmap string Import) (k : string) (x : Export) : gmap string Import :=
  if isSymbolDefined (imports !! k) then imports else <[k := imported x]> imports.
Definition __hbMaterialize (s : Lazy) : Lazy :=
  if __hbLazy s then
    {| l_link := l_link s;
       l_imports := foldl (fun m x => copy_one m x.1 x.2) (l_imports s) (opt_or (__hbMainExports s) []);
       wasmImports := R_plain; __hbMainExports := __hbMainExports s; __hbLazy := false;
       l_libs := (fun r => match r with R_proxy => R_plain | _ => r end) <$> l_libs s |}
  else s.

(** [d.exports === wasmImports] *)
Definition same_ref (r w : Ref) : bool :=
  match r, w with R_plain, R_plain => true | R_proxy, R_proxy => true | _, _ => false end.
(** The head of the wrapped [_dlsym_js] and [_dlsym_catchup_js]. *)
Definition wrapped_dlsym (handle : Z) (s : Lazy) : Lazy :=
  if __hbLazy s then
    match l_libs s !! handle with
    | Some r => if same_ref r (wasmImports s) then __hbMaterialize s else s
    | None => s
    end
  else s.

Definition lazy_newDSO (handle : Z) (own : option exports) (s : Lazy) : Lazy :=
  {| l_link := l_link s; l_imports := l_imports s; wasmImports := wasmImports s;
     __hbMainExports := __hbMainExports s; __hbLazy := __hbLazy s;
     l_libs := <[handle := match own with Some e => R_own e | None => wasmImports s end]> (l_libs s) |}.
Definition lazy_receiveInstance (main : exports) (s : Lazy) : Lazy :=
  let s := lazy_newDSO 0 None (lazy_mergeLibSymbols main true s) in
  with_l_link (updateGOT_main main (l_link s)) s.

Definition lazy_import (k : string) (s : Lazy) : option Import := read s (wasmImports s) k.
Definition lazy_lib (handle : Z) (k : string) (s : Lazy) : option Import := l_libs s !! handle ≫= fun r => read s r k.

(** ** Runs: a program starts with the main module, then loads and asks for symbols *)
Inductive Op :=
| O_merge (e : exports)
| O_update (e : exports) (replace : bool)
| O_get (weak : bool) (symName : string)
| O_library (handle : Z) (own : exports)
| O_dlsym (handle : Z)
| O_enumerate.

Definition eager_op (o : Op) (s : Eager) : Eager :=
  match o with
  | O_merge e => mergeLibSymbols e s
  | O_update e replace => with_link (updateGOT e replace (g_link s)) s
  | O_get weak symName => (eager_get weak symName s).2
  | O_library handle own => newDSO handle (Some own) s
  | O_dlsym _ | O_enumerate => s
  end.
Definition lazy_op (o : Op) (s : Lazy) : Lazy :=
  match o with
  | O_merge e => lazy_mergeLibSymbols e false s
  | O_update e replace => lazy_updateGOT e replace s
  | O_get weak symName => (lazy_get weak symName s).2
  | O_library handle own => lazy_newDSO handle (Some own) s
  | O_dlsym handle => wrapped_dlsym handle s
  | O_enumerate => __hbMaterialize s
  end.

(** Before the main module: its own table entries are there, its imports are set up. *)
Definition eager_start (d : Linkage) (imports : gmap string Import) : Eager :=
  {| g_link := d; g_imports := imports; g_libs := ∅ |}.
Definition lazy_start (d : Linkage) (imports : gmap string Import) : Lazy :=
  {| l_link := d; l_imports := imports; wasmImports := R_plain; __hbMainExports := None; __hbLazy := false;
     l_libs := ∅ |}.

Definition run_eager (main : exports) (ops : list Op) (s : Eager) : Eager :=
  foldl (fun s o => eager_op o s) (receiveInstance main s) ops.
Definition run_lazy (main : exports) (ops : list Op) (s : Lazy) : Lazy :=
  foldl (fun s o => lazy_op o s) (lazy_receiveInstance main s) ops.

(** ** What can be seen of a linker *)

(** The value of a table entry that stands for an export. *)
Definition stands_for (t : T) (v : Z) (x : Export) : Prop :=
  match x with
  | E_function f => index_of t f = Some v
  | E_global n => v = n
  | E_other _ => False
  end.
(** Two entries say the same, each in its table; [-1] is an unresolved one. *)
Definition same_value (t1 : T) (v1 : Z) (t2 : T) (v2 : Z) : Prop :=
  (v1 = -1 /\ v2 = -1) \/ (v1 <> -1 /\ v2 <> -1 /\ exists x, stands_for t1 v1 x /\ stands_for t2 v2 x).
Definition same_entry (t1 : T) (en1 : Entry) (t2 : T) (en2 : Entry) : Prop :=
  same_value t1 (e_value en1) t2 (e_value en2) /\ required en1 = required en2.

Definition unresolved (d : Linkage) (symName : string) (r : bool) : Prop :=
  GOT d !! symName = Some {| e_value := -1; required := r |}.

Record same_linkage (g : Eager) (l : Lazy) : Prop := {
  same_imports k : lazy_import k l = eager_import k g;
  same_has k : has l (wasmImports l) k = bool_decide (is_Some (eager_import k g));
  same_libs handle k : lazy_lib handle k l = eager_lib handle k g;
  same_gets weak symName :
    let '(en1, g') := eager_get weak symName g in
    let '(en2, l') := lazy_get weak symName l in
    same_entry (table (g_link g')) en1 (table (l_link l')) en2;
  same_unresolved symName r : unresolved (g_link g) symName r <-> unresolved (l_link l) symName r
}.
End Glue.
