(* ===== verification/DylinkFacts.v ===== *)
(** * DylinkFacts: the patched linker resolves every symbol as the original does

    The simulation between [Eager] and [Lazy] of [DylinkGlue].  Table entries need not hold
    the same number: the two add functions to the table in different orders.  They stand
    for the same export. *)
From S2P Require Import Prelude JsMap DylinkGlue.
From stdpp Require Import base tactics list gmap strings.
From Stdlib Require Import ZArith Lia.
Open Scope Z_scope.

Section Facts.
Context {T : Type} `{FT : FunctionTable T} {laws : FunctionTableLaws T}.
Context {isInternalSym : string -> bool} {main : exports}.
Implicit Types (d dg dl : Linkage (T := T)) (t : T) (s k : string).

Definition extends t t' : Prop := forall f i, index_of t f = Some i -> index_of t' f = Some i.

Lemma extends_refl t : extends t t.
Proof. by intros f i. Qed.
Lemma extends_trans t1 t2 t3 : extends t1 t2 -> extends t2 t3 -> extends t1 t3.
Proof. intros H1 H2 f i Hi. by apply H2, H1. Qed.
Lemma extends_add f t : extends t (addFunction f t).2.
Proof using laws. intros g i. apply add_keeps. Qed.
Hint Resolve extends_refl extends_trans extends_add : core.

Lemma stands_for_extends t t' v x : extends t t' -> stands_for t v x -> stands_for t' v x.
Proof. intros He. destruct x; cbn; auto. Qed.

Lemma same_value_extends t1 t1' t2 t2' v1 v2 :
  extends t1 t1' -> extends t2 t2' -> same_value t1 v1 t2 v2 -> same_value t1' v1 t2' v2.
Proof.
  intros H1 H2 [Hu|(Hv1 & Hv2 & x & Hx1 & Hx2)]; [by left|right].
  split; [done|]. split; [done|]. exists x. split; by eapply stands_for_extends.
Qed.

Lemma newValue_spec x t v t' : newValue x t = Some (v, t') ->
  stands_for t' v x /\ extends t t' /\ (v = -1 -> x = E_global (-1)).
Proof using laws.
  destruct x as [f|n|]; cbn; [|intros [= <- <-]; naive_solver|done].
  pose proof (add_index f t) as Hi. pose proof (add_valid f t). pose proof (extends_add f t).
  destruct (addFunction f t) as [i t2]. intros [= -> ->]. cbn in *. done.
Qed.

(** ** Updating sets of entries *)

(** The export an object gives the table entry of a symbol. *)
Definition gives (e : exports) (s : string) : option Export :=
  if isInternalSym s then None
  else match mget s e with Some (E_other _) => None | o => o end.

(** [d'] is [d] with a value in the entries of the symbols in [P] that have none. *)
Record updates (P : string -> option Export) d d' : Prop := {
  up_table : extends (table d) (table d');
  up_entry s :
    match P s with
    | Some x =>
        if existingEntry (GOT d !! s) then GOT d' !! s = GOT d !! s
        else exists v, GOT d' !! s = Some {| e_value := v; required := is_required (GOT d !! s) |} /\
             v <> -1 /\ stands_for (table d') v x
    | None => GOT d' !! s = GOT d !! s
    end
}.

Lemma updates_none P d : (forall s, P s = None) -> updates P d d.
Proof. intros HP. split; [done|]. intros s. by rewrite HP. Qed.

Lemma updates_trans P Q R d1 d2 d3 :
  updates P d1 d2 -> updates Q d2 d3 ->
  (forall s, (R s = P s /\ Q s = None) \/ (R s = Q s /\ P s = None)) -> updates R d1 d3.
Proof.
  intros [HT1 H1] [HT2 H2] HR. split; [by eapply extends_trans|]. intros s.
  specialize (H1 s). specialize (H2 s). destruct (HR s) as [[-> HQ]|[-> HP]].
  - rewrite HQ in H2. rewrite H2. destruct (P s) as [x|]; [|done].
    destruct (existingEntry _); [done|]. destruct H1 as (v & H1 & Hv & Hs). exists v.
    split; [done|]. split; [done|]. by eapply stands_for_extends.
  - rewrite HP in H1. rewrite H1 in H2. exact H2.
Qed.

Lemma update_entry_updates s x d :
  isInternalSym s = false -> (forall n, x <> E_other n) -> x <> E_global (-1) ->
  updates (fun k => if decide (k = s) then Some x else None) d (update_entry isInternalSym false s x d).
Proof using laws.
  intros Hi Ho Hx. unfold update_entry. rewrite Hi. cbn [orb].
  destruct (existingEntry (GOT d !! s)) eqn:Ee; cbn [negb].
  - split; [done|]. intros k. case_decide; [subst|done]. by rewrite Ee.
  - destruct (newValue x (table d)) as [[v t]|] eqn:Ev.
    + apply newValue_spec in Ev as (Hs & Ht & Hv). split; [done|]. intros k. cbn.
      case_decide; [subst|by rewrite lookup_insert_ne]. rewrite Ee, lookup_insert_eq.
      exists v. split; [done|]. split; [|done]. intros ->. by apply Hx, Hv.
    + exfalso. destruct x; cbn in Ev; [by destruct (addFunction f (table d))|done|by apply (Ho id)].
Qed.

(** Exports of a module are distinct and none is the address [-1]. *)
Definition proper_exports (e : exports) : Prop := NoDup (keys e) /\ Forall (fun x => x.2 <> E_global (-1)) e.

Lemma update_entry_gives s x d e : mget s e = Some x -> x <> E_global (-1) ->
  updates (fun k => if decide (k = s) then gives e s else None) d (update_entry isInternalSym false s x d).
Proof using laws.
  intros Hx Hn. unfold gives. rewrite Hx.
  destruct (isInternalSym s) eqn:Ei.
  - unfold update_entry. rewrite Ei. apply updates_none. intros k. by case_decide.
  - destruct x; try by apply update_entry_updates.
    unfold update_entry. rewrite Ei. cbn. destruct (negb _); apply updates_none; intros k; by case_decide.
Qed.

Lemma updateGOT_updates e d : proper_exports e -> updates (gives e) d (updateGOT isInternalSym e false d).
Proof using laws.
  intros [Hn Hv]. unfold updateGOT. revert d Hn Hv.
  induction e as [|[s x] e IH]; intros d Hn Hv; cbn [foldl].
  - apply updates_none. intros s. unfold gives. cbn. by destruct (isInternalSym s).
  - apply NoDup_cons in Hn as [Hs Hn]. apply Forall_cons in Hv as [Hx Hv]. cbn in Hs, Hx.
    eapply updates_trans; [apply (update_entry_gives s x d ((s, x) :: e)); [|done]|by apply IH|].
    + cbn. by rewrite decide_True.
    + intros k. cbn. apply mget_None in Hs. unfold gives. cbn.
      destruct (decide (k = s)) as [->|]; [left|by right]. rewrite decide_True, Hs by done.
      by destruct (isInternalSym s).
Qed.

Definition existing_gives d s : option Export :=
  match GOT d !! s with Some _ => gives main s | None => None end.

Lemma update_existing_updates s d : proper_exports main ->
  updates (fun k => if decide (k = s) then (existing_gives d s) else None)
    d (update_existing isInternalSym main s d).
Proof using laws.
  intros [_ Hv]. unfold update_existing, existing_gives.
  destruct (mget s main) as [x|] eqn:Ex; cycle 1.
  { apply updates_none. intros k. case_decide; [|done]. unfold gives. rewrite Ex.
    destruct (GOT d !! s), (isInternalSym s); done. }
  destruct (GOT d !! s) as [en|] eqn:Ee; [|apply updates_none; intros k; by case_decide].
  assert (x <> E_global (-1)) as Hx.
  { clear -Ex Hv. induction main as [|[s' x'] l IH]; cbn in Ex; [done|].
    apply Forall_cons in Hv as [? ?]. cbn in *. case_decide; [congruence|auto]. }
  destruct (negb (isInternalSym s) && (e_value en =? -1)) eqn:E.
  - cbn. by apply update_entry_gives.
  - split; [done|]. intros k. case_decide; [subst|done]. unfold gives. rewrite Ex, Ee.
    destruct (isInternalSym s); [done|]. change ((e_value en =? -1) = false) in E.
    assert (existingEntry (Some en) = true) as -> by (unfold existingEntry; by rewrite E). by destruct x.
Qed.

Lemma updateGOT_main_updates d : proper_exports main ->
  updates (existing_gives d) d (updateGOT_main isInternalSym main d).
Proof using laws.
  intros Hm. unfold updateGOT_main, existing_gives.
  assert (forall ks d0, NoDup ks -> (forall s, s ∈ ks -> GOT d0 !! s = GOT d !! s) ->
    updates (fun s => if decide (s ∈ ks) then (existing_gives d s) else None) d0
      (foldl (fun d s => update_existing isInternalSym main s d) d0 ks)) as Hk.
  { induction ks as [|s ks IH]; intros d0 Hn Hd; cbn [foldl]; [by apply updates_none|].
    apply NoDup_cons in Hn as [Hs Hn].
    pose proof (update_existing_updates s d0 Hm) as Hu.
    eapply updates_trans; [exact Hu|apply IH; [done|]|].
    - intros k Hk. rewrite <- Hd by (by right). pose proof (up_entry _ _ _ Hu k) as H.
      cbv beta in H. by rewrite decide_False in H by (by intros ->).
    - intros k. unfold existing_gives. rewrite (Hd s) by left. destruct (decide (k = s)) as [->|Hks].
      + left. rewrite decide_True by left. by rewrite decide_False.
      + right. split; [|done]. destruct (decide (k ∈ ks)); [rewrite decide_True by (by right)|];
          [done|]. rewrite decide_False; [done|]. intros [?|?]%elem_of_cons; done. }
  specialize (Hk _ d (NoDup_fst_map_to_list (GOT d)) (fun s _ => eq_refl)).
  destruct Hk as [Ht He]. split; [done|]. intros s. specialize (He s).
  destruct (decide (s ∈ (map_to_list (GOT d)).*1)) as [|Hs]; [done|].
  replace (GOT d !! s) with (@None Entry) in *; [done|].
  destruct (GOT d !! s) as [en|] eqn:E; [|done]. exfalso. apply Hs.
  apply list_elem_of_fmap. exists (s, en). split; [done|]. by apply elem_of_map_to_list.
Qed.

(** ** The tables of the two linkers *)

(** An entry the patched linker has says what the original's says; one it does not have yet
    is the main module's, or neither has it. *)
Definition linked_entry dg dl s : Prop :=
  match GOT dl !! s with
  | Some en2 => exists en1, GOT dg !! s = Some en1 /\ same_entry (table dg) en1 (table dl) en2
  | None =>
      match gives main s with
      | Some x => exists v, GOT dg !! s = Some {| e_value := v; required := false |} /\ v <> -1 /\
                  stands_for (table dg) v x
      | None => GOT dg !! s = None
      end
  end.
Definition linked dg dl : Prop := forall s, linked_entry dg dl s.
(** The patched linker has the entry if the original has. *)
Definition synced dl s : Prop := is_Some (GOT dl !! s) \/ gives main s = None.

Lemma linked_extends dg dl dg' dl' s : linked_entry dg dl s ->
  extends (table dg) (table dg') -> extends (table dl) (table dl') ->
  GOT dg' !! s = GOT dg !! s -> GOT dl' !! s = GOT dl !! s -> linked_entry dg' dl' s.
Proof.
  unfold linked_entry. intros Hs Hg Hl -> ->. destruct (GOT dl !! s) as [en2|].
  - destruct Hs as (en1 & -> & Hv & Hr). exists en1. split; [done|]. split; [|done].
    by eapply same_value_extends.
  - destruct (gives main s) as [x|]; [|done]. destruct Hs as (v & -> & Hv & Hx).
    exists v. split; [done|]. split; [done|]. by eapply stands_for_extends.
Qed.

Lemma linked_existing dg dl s : linked_entry dg dl s -> synced dl s ->
  existingEntry (GOT dg !! s) = existingEntry (GOT dl !! s).
Proof.
  unfold linked_entry, synced. intros Hs Hy. destruct (GOT dl !! s) as [en2|] eqn:E.
  - destruct Hs as (en1 & -> & [[H1 H2]|(H1%Z.eqb_neq & H2%Z.eqb_neq & _)] & _);
      unfold existingEntry; [by rewrite H1, H2|by rewrite H1, H2].
  - destruct Hy as [[? Hy]|Hy]; [done|]. rewrite Hy in Hs. by rewrite Hs.
Qed.

Lemma linked_required dg dl s : linked_entry dg dl s ->
  is_required (GOT dg !! s) = is_required (GOT dl !! s).
Proof.
  unfold linked_entry. intros Hs. destruct (GOT dl !! s) as [en2|].
  - destruct Hs as (en1 & -> & _ & Hr). done.
  - destruct (gives main s); [destruct Hs as (v & -> & _); done|by rewrite Hs].
Qed.

Lemma update_entry_linked replace s x dg dl :
  linked dg dl -> replace = true \/ synced dl s ->
  linked (update_entry isInternalSym replace s x dg) (update_entry isInternalSym replace s x dl).
Proof using laws.
  intros Hl Hy. unfold update_entry. destruct (isInternalSym s); [done|].
  assert (replace || negb (existingEntry (GOT dg !! s)) = replace || negb (existingEntry (GOT dl !! s))) as ->.
  { destruct Hy as [->|Hy]; [done|]. by rewrite (linked_existing dg dl). }
  destruct (replace || _); [|done].
  pose proof (newValue_spec x (table dg)) as Hg. pose proof (newValue_spec x (table dl)) as Hd.
  assert (is_Some (newValue x (table dg)) <-> is_Some (newValue x (table dl))) as Hss.
  { destruct x; cbn; split; intros [? ?]; try discriminate; eauto. }
  destruct (newValue x (table dg)) as [[v1 t1]|], (newValue x (table dl)) as [[v2 t2]|];
    [|by destruct Hss as [[??] _]; eauto|by destruct Hss as [_ [??]]; eauto|done].
  destruct (Hg _ _ eq_refl) as (Hx1 & He1 & Hm1), (Hd _ _ eq_refl) as (Hx2 & He2 & Hm2).
  intros k. destruct (decide (k = s)) as [->|Hk].
  - unfold linked_entry. cbn. rewrite !lookup_insert_eq. eexists. split; [done|].
    split; [|by apply linked_required]. cbn.
    destruct (decide (v1 = -1)) as [E1|E1].
    + left. split; [done|]. specialize (Hm1 E1). subst x. cbn in Hx2. done.
    + right. split; [done|]. split; [|eauto]. intros E2. specialize (Hm2 E2). by subst x.
  - apply (linked_extends dg dl); cbn; try done; by rewrite lookup_insert_ne.
Qed.

Lemma update_entry_synced replace s x dl k : synced dl k ->
  synced (update_entry isInternalSym replace s x dl) k.
Proof.
  intros [[en Hk]|Hk]; [left|by right]. unfold update_entry.
  destruct (isInternalSym s); [by rewrite Hk|]. destruct (replace || _); [|by rewrite Hk].
  destruct (newValue x (table dl)) as [[v t]|]; [|by rewrite Hk]. cbn.
  destruct (decide (s = k)) as [->|]; [by rewrite lookup_insert_eq|]. by rewrite lookup_insert_ne, Hk.
Qed.

Lemma updateGOT_linked e replace dg dl :
  linked dg dl -> replace = true \/ Forall (fun x => synced dl x.1) e ->
  linked (updateGOT isInternalSym e replace dg) (updateGOT isInternalSym e replace dl).
Proof using laws.
  unfold updateGOT. revert dg dl. induction e as [|[s x] e IH]; intros dg dl Hl Hy; cbn [foldl]; [done|].
  apply IH.
  - apply update_entry_linked; [done|]. destruct Hy as [Hy|Hy]; [by left|right]. by apply Forall_cons in Hy as [??].
  - destruct Hy as [Hy|Hy]; [by left|right]. apply Forall_cons in Hy as [_ Hy].
    eapply Forall_impl; [exact Hy|]. intros y. apply update_entry_synced.
Qed.

(** ** The lazy look-up *)
Lemma main_value s x : proper_exports main -> mget s main = Some x -> x <> E_global (-1).
Proof.
  intros [_ Hv] Hx. induction main as [|[s' x'] l IH]; cbn in Hx; [done|].
  apply Forall_cons in Hv as [? ?]. cbn in *. case_decide; [congruence|auto].
Qed.

Lemma from_main_linked dg (l : Lazy (T := T)) s :
  proper_exports main -> __hbMainExports l = Some main -> linked dg (l_link l) ->
  linked dg (l_link (__hbGOTFromMain isInternalSym s l)) /\
  synced (l_link (__hbGOTFromMain isInternalSym s l)) s.
Proof using laws.
  intros Hp Hm Hl. unfold __hbGOTFromMain. rewrite Hm.
  destruct (GOT (l_link l) !! s) as [en|] eqn:Es; [split; [done|left; by rewrite Es]|].
  destruct (mget s main) as [x|] eqn:Ex; [|split; [done|right; unfold gives; rewrite Ex; by destruct (isInternalSym s)]].
  destruct (isInternalSym s) eqn:Ei; [split; [done|right; unfold gives; by rewrite Ei]|].
  pose proof (main_value s x Hp Ex) as Hx. cbn [l_link with_l_link].
  pose proof (update_entry_gives s x (l_link l) main Ex Hx) as [Ht He].
  change (updateGOT isInternalSym [(s, x)] false (l_link l)) with (update_entry isInternalSym false s x (l_link l)).
  assert (gives main s = match x with E_other _ => None | _ => Some x end) as Hgv
    by (unfold gives; rewrite Ei, Ex; by destruct x).
  split.
  - intros k. pose proof (He k) as Hk. cbv beta in Hk. destruct (decide (k = s)) as [->|Hks].
    + specialize (Hl s). unfold linked_entry in *. rewrite Es in Hl, Hk. rewrite Hgv in Hl, Hk.
      destruct x; cbn in Hk; try destruct Hk as (v & -> & Hv & Hsf); try (by rewrite Hk, Hgv).
      all: destruct Hl as (v1 & -> & Hv1 & Hx1); eexists; split; [done|]; split; [|done]; right;
        split; [done|]; split; [done|]; eexists; split; [exact Hx1|exact Hsf].
    + apply (linked_extends dg (l_link l)); auto.
  - pose proof (He s) as Hk. cbv beta in Hk. rewrite decide_True, Es, Hgv in Hk by done.
    destruct x; cbn in Hk; try (destruct Hk as (v & Hk & _); left; rewrite Hk; eauto). right. by rewrite Hgv.
Qed.

Lemma from_main_fields (l : Lazy (T := T)) s :
  let l' := __hbGOTFromMain isInternalSym s l in
  l' = with_l_link (l_link l') l.
Proof.
  unfold __hbGOTFromMain. destruct l as [d i w m z libs]; cbn.
  destruct m as [m|]; [|done]. destruct (GOT d !! s); [done|]. destruct (mget s m); [|done].
  by destruct (isInternalSym s).
Qed.

Lemma from_main_synced (l : Lazy (T := T)) s k : synced (l_link l) k ->
  synced (l_link (__hbGOTFromMain isInternalSym s l)) k.
Proof.
  intros Hk. unfold __hbGOTFromMain. destruct (__hbMainExports l) as [m|]; [|done].
  destruct (GOT (l_link l) !! s); [done|]. destruct (mget s m); [|done].
  destruct (isInternalSym s); [done|]. by apply update_entry_synced.
Qed.

Lemma from_main_all dg (e : exports) (l : Lazy (T := T)) :
  proper_exports main -> __hbMainExports l = Some main -> linked dg (l_link l) ->
  let l' := foldl (fun l x => __hbGOTFromMain isInternalSym x.1 l) l e in
  linked dg (l_link l') /\ Forall (fun x => synced (l_link l') x.1) e /\ l' = with_l_link (l_link l') l /\
  (forall k, synced (l_link l) k -> synced (l_link l') k).
Proof using laws.
  intros Hp. revert l. induction e as [|[s x] e IH]; intros l Hm Hl; cbn [foldl].
  - split; [done|]. split; [constructor|]. split; [by destruct l|done].
  - destruct (from_main_linked dg l s Hp Hm Hl) as [Hl' Hs'].
    pose proof (from_main_fields l s) as Hf. cbv zeta in Hf.
    set (l1 := __hbGOTFromMain isInternalSym s l) in *.
    destruct (IH l1) as (H1 & H2 & H3 & H4); [by rewrite Hf|done|]. cbn [fst].
    split; [done|]. split; [constructor; [by apply H4|done]|].
    split; [etransitivity; [exact H3|]; exact (f_equal (with_l_link _) Hf)|]. intros k Hk. by apply H4, from_main_synced.
Qed.

Lemma get_linked weak s dg dl : linked dg dl -> synced dl s ->
  same_entry (table dg) (GOTHandler_get weak s dg).1 (table dl) (GOTHandler_get weak s dl).1 /\
  linked (GOTHandler_get weak s dg).2 (GOTHandler_get weak s dl).2.
Proof.
  intros Hl Hy. unfold GOTHandler_get. cbn [fst snd].
  assert (same_entry (table dg) (opt_or (GOT dg !! s) {| e_value := -1; required := false |})
            (table dl) (opt_or (GOT dl !! s) {| e_value := -1; required := false |})) as He.
  { specialize (Hl s). unfold linked_entry in Hl. destruct (GOT dl !! s) as [en|] eqn:E.
    - by destruct Hl as (en1 & -> & Hv).
    - destruct Hy as [[? ?]|Hy]; [congruence|]. rewrite Hy in Hl. rewrite Hl. cbn. split; [by left|done]. }
  unfold opt_or in He. set (en1 := match GOT dg !! s with Some en => en | None => _ end) in *.
  set (en2 := match GOT dl !! s with Some en => en | None => _ end) in *.
  assert (same_entry (table dg) (if weak then en1 else {| e_value := e_value en1; required := true |})
            (table dl) (if weak then en2 else {| e_value := e_value en2; required := true |})) as He'.
  { destruct weak; [done|]. destruct He as [He _]. by split. }
  split; [done|]. intros k. destruct (decide (k = s)) as [->|Hk].
  - unfold linked_entry. cbn. rewrite !lookup_insert_eq. eauto.
  - apply (linked_extends dg dl); cbn; try done; by rewrite lookup_insert_ne.
Qed.
End Facts.

(** ** The simulation *)
Section Simulation.
Context {T : Type} `{FT : FunctionTable T} {laws : FunctionTableLaws T}.
Context {isInternalSym : string -> bool} {main : exports}.
Implicit Types (g : Eager (T := T)) (l : Lazy (T := T)) (k : string).

Definition lib_ref l (o : option exports) : Ref := match o with Some e => R_own e | None => wasmImports l end.

Record sim g l : Prop := {
  sim_main : __hbMainExports l = Some main;
  sim_ref : wasmImports l = if __hbLazy l then R_proxy else R_plain;
  sim_libs h : l_libs l !! h = lib_ref l <$> g_libs g !! h;
  sim_imports k : lazy_import k l = g_imports g !! k;
  sim_link : linked (isInternalSym := isInternalSym) (main := main) (g_link g) (l_link l)
}.

Lemma sim_with_link g l dg dl : sim g l -> linked (isInternalSym := isInternalSym) (main := main) dg dl ->
  sim (with_link dg g) (with_l_link dl l).
Proof. intros [] Hl. by split. Qed.

Lemma merge_fold (e : exports) m k :
  foldl (fun m x => merge_one m x.1 x.2) m e !! k =
  if isSymbolDefined (m !! k) then m !! k
  else match mget k e with Some x => Some (imported x) | None => m !! k end.
Proof.
  revert m. induction e as [|[s x] e IH]; intros m; cbn [foldl mget].
  - by destruct (isSymbolDefined _).
  - rewrite IH. unfold merge_one. cbn. destruct (isSymbolDefined (m !! s)) eqn:Es.
    + destruct (isSymbolDefined (m !! k)) eqn:Ek; [done|].
      case_decide; [subst; congruence|done].
    + destruct (decide (k = s)) as [->|Hk].
      * by rewrite lookup_insert_eq, Es.
      * by rewrite lookup_insert_ne by done.
Qed.

Lemma sim_merge_one g l sym x : sim g l ->
  sim {| g_link := g_link g; g_imports := merge_one (g_imports g) sym x; g_libs := g_libs g |}
    (lazy_merge_one l sym x).
Proof.
  intros [Hm Hr Hb Hi Hl]. unfold merge_one, lazy_merge_one.
  pose proof (Hi sym) as Hs. unfold lazy_import in Hs. rewrite Hs.
  destruct (isSymbolDefined (g_imports g !! sym)) eqn:E; [by split|].
  split; cbn; try done. intros k. specialize (Hi k). unfold lazy_import in *. cbn [wasmImports].
  destruct (decide (sym = k)) as [<-|Hk].
  - rewrite lookup_insert_eq. rewrite Hr. unfold read, fallback. cbn [l_imports __hbLazy]. rewrite lookup_insert_eq.
    by destruct (__hbLazy l).
  - rewrite lookup_insert_ne by done. rewrite <- Hi, Hr. unfold read, fallback. cbn [l_imports __hbLazy __hbMainExports].
    rewrite !lookup_insert_ne by done. done.
Qed.

Lemma sim_merge e g l : sim g l -> sim (mergeLibSymbols e g) (merge_side e l).
Proof.
  unfold mergeLibSymbols, merge_side. revert g l. induction e as [|[s x] e IH]; intros g l Hs; cbn [foldl].
  - by destruct g.
  - apply (IH {| g_link := g_link g; g_imports := merge_one (g_imports g) s x; g_libs := g_libs g |}).
    by apply sim_merge_one.
Qed.

Lemma sim_materialize g l : sim g l -> sim g (__hbMaterialize l).
Proof.
  intros [Hm Hr Hb Hi Hl]. unfold __hbMaterialize. destruct (__hbLazy l) eqn:Ez; [|by split; rewrite ?Ez].
  split; cbn; try done.
  - intros h. rewrite lookup_fmap, Hb, <- option_fmap_compose. apply option_fmap_ext. intros [e|]; cbn; [done|].
    by rewrite Hr.
  - intros k. rewrite <- Hi. unfold lazy_import. cbn [wasmImports read l_imports]. rewrite Hm, Hr. cbn [opt_or read].
    rewrite Ez. unfold fallback. rewrite Hm. change @copy_one with @merge_one. rewrite merge_fold.
    by destruct (isSymbolDefined _).
Qed.

Lemma sim_get weak s g l : proper_exports main -> sim g l ->
  let '(en1, g') := eager_get weak s g in
  let '(en2, l') := lazy_get isInternalSym weak s l in
  same_entry (table (g_link g')) en1 (table (l_link l')) en2 /\ sim g' l'.
Proof using laws.
  intros Hp Hs. pose proof Hs as [Hm Hr Hb Hi Hl]. unfold eager_get, lazy_get.
  destruct (from_main_linked _ l s Hp Hm Hl) as [H1 H2].
  pose proof (from_main_fields (isInternalSym := isInternalSym) l s) as Hf. cbv zeta in Hf.
  destruct (get_linked weak s _ _ H1 H2) as [H3 H4].
  assert (table (GOTHandler_get weak s (g_link g)).2 = table (g_link g)) as Et1 by done.
  assert (table (GOTHandler_get weak s (l_link (__hbGOTFromMain isInternalSym s l))).2 =
          table (l_link (__hbGOTFromMain isInternalSym s l))) as Et2 by done.
  destruct (GOTHandler_get weak s (g_link g)) as [r1 d1], (GOTHandler_get weak s (l_link _)) as [r2 d2].
  cbn [fst snd with_link with_l_link g_link l_link] in *. rewrite Et1, Et2. split; [done|].
  rewrite Hf. exact (sim_with_link g l d1 d2 Hs H4).
Qed.

Lemma sim_op o g l : proper_exports main -> sim g l -> sim (eager_op isInternalSym o g) (lazy_op isInternalSym o l).
Proof using laws.
  intros Hp Hs. pose proof Hs as [Hm Hr Hb Hi Hl]. destruct o as [e|e replace|weak s|h own|h|]; cbn [eager_op lazy_op].
  - by apply sim_merge.
  - unfold lazy_updateGOT. rewrite Hm. destruct replace.
    + apply sim_with_link; [done|]. apply updateGOT_linked; [done|by left].
    + destruct (from_main_all _ e l Hp Hm Hl) as (H1 & H2 & H3 & _). cbv zeta in H3.
      apply sim_with_link; [|apply updateGOT_linked; [done|by right]].
      rewrite H3. replace g with (with_link (g_link g) g) by (by destruct g). by apply sim_with_link.
  - pose proof (sim_get weak s g l Hp Hs) as Hg.
    destruct (eager_get weak s g), (lazy_get isInternalSym weak s l). by destruct Hg.
  - split; cbn; try done. intros h'. destruct (decide (h = h')) as [->|]; [by rewrite !lookup_insert_eq|].
    by rewrite !lookup_insert_ne.
  - unfold wrapped_dlsym. destruct (__hbLazy l); [|done]. destruct (l_libs l !! h); [|done].
    destruct (same_ref _ _); [by apply sim_materialize|done].
  - by apply sim_materialize.
Qed.

(** Before the main module is there, every entry is unresolved. *)
Definition all_unresolved (d : Linkage (T := T)) : Prop := map_Forall (fun _ en => e_value en = -1) (GOT d).

Lemma received_linked d : proper_exports main -> all_unresolved d ->
  linked (isInternalSym := isInternalSym) (main := main)
    (updateGOT isInternalSym main false d) (updateGOT_main isInternalSym main d).
Proof using laws.
  intros Hp Hu k. pose proof (updateGOT_updates (isInternalSym := isInternalSym) main d Hp) as [_ Hg].
  pose proof (updateGOT_main_updates (isInternalSym := isInternalSym) (main := main) d Hp) as [_ Hl].
  specialize (Hg k). specialize (Hl k). unfold linked_entry, existing_gives in *.
  destruct (GOT d !! k) as [en|] eqn:E.
  - pose proof (Hu _ _ E) as Hv. cbn in Hv. assert (existingEntry (Some en) = false) as He.
    { unfold existingEntry. by rewrite Hv. }
    rewrite He in Hg, Hl. destruct (gives main k) as [x|].
    + destruct Hg as (v1 & -> & Hv1 & Hx1), Hl as (v2 & -> & Hv2 & Hx2). eexists. split; [done|]. split; [|done].
      right. split; [done|]. split; [done|]. by exists x.
    + rewrite Hg, Hl. eexists. split; [done|]. split; [by left|done].
  - rewrite Hl. cbn in Hg. destruct (gives main k) as [x|]; [|done].
    destruct Hg as (v & -> & Hv & Hx). by exists v.
Qed.

Lemma sim_start d imports : proper_exports main -> all_unresolved d ->
  sim (receiveInstance isInternalSym main (eager_start d imports))
    (lazy_receiveInstance isInternalSym main (lazy_start d imports)).
Proof using laws.
  intros Hp Hu. split; cbn; try done.
  - intros h. destruct (decide (0 = h)) as [<-|Hh]; [by rewrite !lookup_insert_eq|].
    rewrite !lookup_insert_ne, !lookup_empty by done. done.
  - intros k. rewrite merge_fold. unfold lazy_import, read, fallback. cbn.
    by destruct (isSymbolDefined _), (mget k main).
  - by apply received_linked.
Qed.

Lemma sim_run ops g l : proper_exports main -> sim g l ->
  sim (foldl (fun s o => eager_op isInternalSym o s) g ops) (foldl (fun s o => lazy_op isInternalSym o s) l ops).
Proof using laws.
  intros Hp. revert g l. induction ops as [|o ops IH]; intros g l Hs; cbn [foldl]; [done|].
  by apply IH, sim_op.
Qed.

Lemma sim_same g l : proper_exports main -> sim g l -> same_linkage isInternalSym g l.
Proof using laws.
  intros Hp Hs. pose proof Hs as [Hm Hr Hb Hi Hl]. split.
  - done.
  - intros k. unfold eager_import. rewrite <- Hi. unfold lazy_import. rewrite Hr. unfold has, read.
    destruct (__hbLazy l); [|done]. cbn. unfold fallback.
    destruct (l_imports l !! k) as [i|] eqn:E; cbn; [|by destruct (__hbMainExports l) as [m|]; [destruct (mget k m)|]].
    destruct (negb (stub i)), (__hbMainExports l) as [m|]; try destruct (mget k m); done.
  - intros h k. unfold lazy_lib, eager_lib. rewrite Hb. destruct (g_libs g !! h) as [[e|]|]; cbn; [done| |done].
    apply Hi.
  - intros weak s. pose proof (sim_get weak s g l Hp Hs) as Hg.
    destruct (eager_get weak s g), (lazy_get isInternalSym weak s l). by destruct Hg.
  - intros s r. specialize (Hl s). unfold linked_entry, unresolved in *. destruct (GOT (l_link l) !! s) as [[v2 r2]|].
    + destruct Hl as ([v1 r1] & -> & [[E1 E2]|(E1 & E2 & _)] & Er); cbn in *; subst; [done|].
      split; intros [=]; subst; done.
    + destruct (gives main s); [|by rewrite Hl]. destruct Hl as (v & -> & Hv & _). split; [|done].
      intros [=]. by subst.
Qed.
End Simulation.

(** C23: Resolving the main module's symbols on first use changes nothing that can be seen:
    after any merges, table updates, entry look-ups, new libraries, dlsym calls and
    enumerations, every symbol has the same import, the same value of every library, and a
    table entry that stands for the same export, and the same symbols are unresolved. *)
Theorem patched_linker_resolves_the_same {T} `{FT : FunctionTable T} {laws : FunctionTableLaws T}
    isInternalSym main (d : Linkage (T := T)) imports ops :
  proper_exports main -> all_unresolved d ->
  same_linkage isInternalSym
    (run_eager isInternalSym main ops (eager_start d imports))
    (run_lazy isInternalSym main ops (lazy_start d imports)).
Proof. intros Hp Hu. by apply (sim_same (main := main)), sim_run, sim_start. Qed.

(** ** Samples *)

(** A table that is a list of functions. *)
Fixpoint position (f : Z) (t : list Z) : option Z :=
  match t with
  | [] => None
  | g :: t' => if f =? g then Some 0 else Z.succ <$> position f t'
  end.
#[export] Instance list_table : FunctionTable (list Z) := {
  index_of t f := position f t;
  addFunction f t := match position f t with Some i => (i, t) | None => (lenZ t, t ++ [f]) end
}.

Lemma position_app f t u i : position f t = Some i -> position f (t ++ u) = Some i.
Proof.
  revert i. induction t as [|g t IH]; intros i; cbn; [done|]. destruct (f =? g); [done|].
  destruct (position f t) as [j|]; cbn; [|done]. intros [= <-]. by rewrite (IH j).
Qed.
Lemma position_new f t : position f t = None -> position f (t ++ [f]) = Some (lenZ t).
Proof.
  induction t as [|g t IH]; cbn; [by rewrite Z.eqb_refl|]. destruct (f =? g); [done|].
  destruct (position f t); [done|]. rewrite IH by done. intros _. cbn. f_equal. unfold lenZ. cbn. lia.
Qed.
Lemma position_nonneg f t i : position f t = Some i -> 0 <= i.
Proof.
  revert i. induction t as [|g t IH]; intros i; cbn; [done|]. destruct (f =? g); [by intros [= <-]|].
  destruct (position f t) as [j|]; cbn; [|done]. intros [= <-]. specialize (IH _ eq_refl). lia.
Qed.

#[export] Instance list_table_laws : FunctionTableLaws (list Z).
Proof.
  split; cbn.
  - intros f t. destruct (position f t) as [i|] eqn:E; [done|]. by apply position_new.
  - intros f t g i Hi. destruct (position f t); [done|]. by apply position_app.
  - intros f t. destruct (position f t) as [i|] eqn:E; cbn.
    + apply position_nonneg in E. lia.
    + pose proof (lenZ_nonneg t). lia.
Qed.

(** A main module, and a side module that defines [strlen] again. *)
Definition sample_main : exports :=
  [("strlen", E_function 2); ("malloc", E_function 1); ("vtable", E_global 4096); ("memory", E_other 0)]%string.
Definition sample_side : exports := [("strlen", E_function 7); ("side_fn", E_function 8)]%string.
Definition sample_internal (s : string) : bool := String.eqb s "__wasm_call_ctors".
Definition sample_table : Linkage (T := list Z) :=
  {| GOT := {["malloc"%string := {| e_value := -1; required := true |}]}; table := [] |}.
Definition sample_imports : gmap string Import :=
  {["puts"%string := {| i_value := E_function 20; stub := false |}]}.
Definition sample_ops : list Op :=
  [O_library 3 sample_side; O_merge sample_side; O_update sample_side false;
   O_get false "strlen"%string; O_get true "missing"%string; O_dlsym 0].

Lemma patched_linker_resolves_the_same_witness :
  same_linkage sample_internal
    (run_eager sample_internal sample_main sample_ops (eager_start sample_table sample_imports))
    (run_lazy sample_internal sample_main sample_ops (lazy_start sample_table sample_imports)).
Proof.
  apply (patched_linker_resolves_the_same sample_internal sample_main sample_table sample_imports sample_ops).
  - split; [by apply (bool_decide_unpack _)|]. repeat constructor; done.
  - intros s en. unfold sample_table. cbn. by intros [_ <-]%lookup_singleton_Some.
Defined.

(** The main module's [strlen] wins, under different indices of the table. *)
Example sample_strlen :
  let g := run_eager sample_internal sample_main sample_ops (eager_start sample_table sample_imports) in
  let l := run_lazy sample_internal sample_main sample_ops (lazy_start sample_table sample_imports) in
  GOT (g_link g) !! "strlen"%string = Some {| e_value := 0; required := true |} /\
  GOT (l_link l) !! "strlen"%string = Some {| e_value := 1; required := true |} /\
  table (g_link g) = [2; 1; 8] /\ table (l_link l) = [1; 2; 8] /\
  lazy_import "malloc"%string l = Some (imported (E_function 1)).
Proof. vm_compute. repeat split. Qed.
