(* ===== verification/DylinkOverlay.v ===== *)
(** * DylinkOverlay: wrappers laid over the exports
    ([scripts/patch_dylink_glue.cjs], [__hbOverlay])

    [applySignatureConversions] of emscripten's glue copies the main module's exports to an
    object and replaces the functions that take or return pointers in the copy.  The patch
    gives it a proxy over an empty object, which falls back to the exports.  Both are run
    on a sequence of operations here, and no operation tells them apart as long as only
    exports are replaced and no name is one that every object inherits. *)
From S2P Require Import Prelude JsMap DylinkGlue.
From stdpp Require Import base tactics list strings.

Section Overlay.
(** The properties an ordinary object inherits.  The object of exports inherits none. *)
Variable inherited : string -> option Export.

(** What is done to the object. *)
Inductive ObjectOp :=
| Op_get (k : string)
| Op_set (k : string) (x : Export)
| Op_has (k : string)
| Op_ownKeys
| Op_descriptor (k : string).
Inductive ObjectResult :=
| Res_value (x : option Export)
| Res_bool (b : bool)
| Res_keys (l : list string).

(** [k in o], and [o[k]], of an ordinary object with the own properties [own]. *)
Definition has_property (own : exports) (k : string) : bool := mhas k own || bool_decide (is_Some (inherited k)).
Definition get_property (own : exports) (k : string) : option Export :=
  match mget k own with Some x => Some x | None => inherited k end.

(** *** [Object.assign({}, wasmExports)] *)
Definition copy_op (o : ObjectOp) (copy : exports) : ObjectResult * exports :=
  match o with
  | Op_get k => (Res_value (get_property copy k), copy)
  | Op_set k x => (Res_bool true, mset k x copy)
  | Op_has k => (Res_bool (has_property copy k), copy)
  | Op_ownKeys => (Res_keys (keys copy), copy)
  | Op_descriptor k => (Res_value (mget k copy), copy)
  end.

(** *** [__hbOverlay(wasmExports)]: the exports [s], and the object [v] the traps write to *)
Definition overlay_value (s v : exports) (k : string) : option Export :=
  if has_property v k then get_property v k else mget k s.
Definition overlay_has (s v : exports) (k : string) : bool := has_property v k || mhas k s.
Definition __hbOverlay (s : exports) (o : ObjectOp) (v : exports) : ObjectResult * exports :=
  match o with
  | Op_get k => (Res_value (overlay_value s v k), v)
  | Op_set k x => (Res_bool true, mset k x v)
  | Op_has k => (Res_bool (overlay_has s v k), v)
  | Op_ownKeys => (Res_keys (keys s), v)
  | Op_descriptor k => (Res_value (if overlay_has s v k then overlay_value s v k else None), v)
  end.

Fixpoint run_ops {A} (step : ObjectOp -> A -> ObjectResult * A) (l : list ObjectOp) (a : A) : list ObjectResult :=
  match l with
  | [] => []
  | o :: l' => let (r, a') := step o a in r :: run_ops step l' a'
  end.

(** Only exports are replaced, and no name is inherited. *)
Definition op_ok (s : exports) (o : ObjectOp) : Prop :=
  match o with
  | Op_set k _ => mhas k s = true /\ inherited k = None
  | Op_get k | Op_has k | Op_descriptor k => inherited k = None
  | Op_ownKeys => True
  end.

(** The copy is the exports with the properties of the overlay. *)
Definition overlaid (s v copy : exports) : Prop :=
  keys copy = keys s /\ forall k, mget k copy = match mget k v with Some x => Some x | None => mget k s end.

Lemma overlaid_value s v copy k : inherited k = None -> overlaid s v copy -> overlay_value s v k = mget k copy.
Proof.
  intros Hi [_ H]. unfold overlay_value, has_property, get_property. rewrite H, Hi, orb_false_r. unfold mhas.
  by destruct (mget k v).
Qed.

Lemma overlaid_has s v copy k : inherited k = None -> overlaid s v copy -> overlay_has s v k = mhas k copy.
Proof.
  intros Hi [_ H]. unfold overlay_has, has_property. rewrite Hi, orb_false_r. unfold mhas. rewrite (H k).
  by destruct (mget k v).
Qed.

Lemma overlay_step s v copy o : op_ok s o -> overlaid s v copy ->
  (__hbOverlay s o v).1 = (copy_op o copy).1 /\ overlaid s (__hbOverlay s o v).2 (copy_op o copy).2.
Proof.
  intros Ho H. destruct o as [k|k x|k| |k]; cbn [__hbOverlay copy_op fst snd].
  - split; [|done]. rewrite (overlaid_value s v copy) by done. f_equal. unfold get_property. cbn in Ho. rewrite Ho.
    by destruct (mget k copy).
  - split; [done|]. destruct Ho as [Hk Hi]. destruct H as [Hkeys H]. split.
    + rewrite keys_mset. destruct (mhas k copy) eqn:E; [done|]. unfold mhas in *.
      apply bool_decide_eq_false in E. apply bool_decide_eq_true in Hk. exfalso. apply E. rewrite H.
      destruct (mget k v); eauto.
    + intros k'. destruct (decide (k' = k)) as [->|N]; [by rewrite !mget_mset|]. by rewrite !mget_mset_ne.
  - split; [|done]. rewrite (overlaid_has s v copy) by done. unfold has_property. cbn in Ho. by rewrite Ho, orb_false_r.
  - split; [|done]. by destruct H as [-> _].
  - split; [|done]. rewrite (overlaid_has s v copy), (overlaid_value s v copy) by done. unfold mhas.
    case_bool_decide as E; [done|]. destruct (mget k copy) eqn:Ek; [|done]. destruct E. eauto.
Qed.

(** No sequence of look-ups, replacements of exports and enumerations tells the
    overlay from the copy it stands for, as long as the names are not those every object
    inherits; the order of enumeration is the same. *)
Theorem overlay_is_the_copy (s : exports) (l : list ObjectOp) : Forall (op_ok s) l ->
  run_ops (__hbOverlay s) l [] = run_ops copy_op l s.
Proof.
  intros Hl. assert (forall v copy, overlaid s v copy -> run_ops (__hbOverlay s) l v = run_ops copy_op l copy) as H.
  { induction Hl as [|o l Ho _ IH]; intros v copy H; [done|]. cbn [run_ops].
    destruct (overlay_step s v copy o Ho H) as [H1 H2].
    destruct (__hbOverlay s o v) as [r v'], (copy_op o copy) as [r' copy']. cbn in *. subst r'. f_equal. by apply IH. }
  by apply H.
Qed.
End Overlay.

Definition sample_inherited (k : string) : option Export := if String.eqb k "toString" then Some (E_other 0) else None.
Definition sample_exports : exports := [("malloc", E_function 1); ("memory", E_other 2); ("free", E_function 3)].

Lemma overlay_is_the_copy_witness :
  let l := [Op_get "malloc"; Op_set "malloc" (E_function 9); Op_get "malloc"; Op_get "free"; Op_has "main"; Op_ownKeys] in
  run_ops (copy_op sample_inherited) l sample_exports =
    [Res_value (Some (E_function 1)); Res_bool true; Res_value (Some (E_function 9)); Res_value (Some (E_function 3));
     Res_bool false; Res_keys ["malloc"; "memory"; "free"]] /\
  run_ops (__hbOverlay sample_inherited sample_exports) l [] = run_ops (copy_op sample_inherited) l sample_exports.
Proof.
  split; [vm_compute; reflexivity|]. apply overlay_is_the_copy. repeat constructor.
Defined.

(** [k in v] holds of names every object inherits: an export of such a name is not seen. *)
Lemma inherited_names_hide_exports :
  let s := [("toString", E_function 7)] in
  run_ops (__hbOverlay sample_inherited s) [Op_get "toString"] [] = [Res_value (Some (E_other 0))] /\
  run_ops (copy_op sample_inherited) [Op_get "toString"] s = [Res_value (Some (E_function 7))].
Proof. split; reflexivity. Qed.

(** A property that is no export is not enumerated. *)
Lemma new_properties_are_not_enumerated :
  let l := [Op_set "extra" (E_other 1); Op_ownKeys] in
  run_ops (__hbOverlay sample_inherited sample_exports) l [] = [Res_bool true; Res_keys ["malloc"; "memory"; "free"]] /\
  run_ops (copy_op sample_inherited) l sample_exports = [Res_bool true; Res_keys ["malloc"; "memory"; "free"; "extra"]].
Proof. split; reflexivity. Qed.
