(* ===== verification/Shell.v ===== *)
(** * Shell: what the terminal shell keeps between visits

    Of [packages/duckdb-wasm-shell]: the history in IndexedDB ([utils/history_store.ts]),
    the queries saved in the address ([shell.ts]) and the file picker ([utils/files.ts]).
    The shell itself is in Rust; its [load_history] is modelled, since it completes what
    the history store returns. *)
From S2P Require Import Prelude.
From stdpp Require Import base tactics list strings.
From Stdlib Require Import ZArith Ascii Lia.
Open Scope Z_scope.

(** ** The history store *)
Definition HISTORY_SIZE_SHIFT : Z := 10.
Definition HISTORY_SIZE : Z := Z.shiftl 1 HISTORY_SIZE_SHIFT.

Record LogEntry := { le_key : Z; le_when : Z; le_input : string }.
Record LogInfo := { li_key : Z; nextEntryKey : Z; entryCount : Z }.

(** An object store of IndexedDB, in the order of its keys: what a cursor goes through. *)
Section ObjectStore.
Context {V : Type} (key : V -> Z).

Fixpoint put (v : V) (store : list V) : list V :=
  match store with
  | [] => [v]
  | w :: l =>
      if key v <? key w then v :: w :: l
      else if key v =? key w then v :: l
      else w :: put v l
  end.
Definition get (k : Z) (store : list V) : option V := find (fun v => key v =? k) store.
End ObjectStore.

Record Database := { LOG_INFO : list LogInfo; LOG_ENTRIES : list LogEntry }.

(** The fields of a [HistoryStore], and the database of the origin that outlives it. *)
Record HistoryStore := {
  _idb : bool;
  _nextEntryKey : Z;
  _entryCount : Z;
  disk : Database
}.
Definition history_new (d : Database) : HistoryStore :=
  {| _idb := false; _nextEntryKey := 0; _entryCount := 0; disk := d |}.

(** [createSchema]: what is stored is dropped. *)
Definition createSchema : Database := {| LOG_INFO := []; LOG_ENTRIES := [] |}.

(** [number || 0] of a field that may be missing. *)
Definition loadMetadata (s : HistoryStore) : HistoryStore :=
  if _idb s then
    let entry := get li_key 0 (LOG_INFO (disk s)) in
    {| _idb := true;
       _nextEntryKey := opt_or (nextEntryKey <$> entry) 0;
       _entryCount := opt_or (entryCount <$> entry) 0;
       disk := disk s |}
  else s.

(** [open], up to the point where it returns.  When the database is created, or its version
    is older, the promise is resolved as the upgrade completes: the metadata are loaded
    while there is no connection yet, and [req.onsuccess] comes afterwards. *)
Inductive OpenResult := Open_failed | Open_success | Open_upgrade.
Definition open (r : OpenResult) (s : HistoryStore) : HistoryStore :=
  match r with
  | Open_failed => loadMetadata s
  | Open_success =>
      loadMetadata {| _idb := true; _nextEntryKey := _nextEntryKey s; _entryCount := _entryCount s; disk := disk s |}
  | Open_upgrade =>
      loadMetadata {| _idb := _idb s; _nextEntryKey := _nextEntryKey s; _entryCount := _entryCount s;
                      disk := createSchema |}
  end.
Definition onsuccess (s : HistoryStore) : HistoryStore :=
  {| _idb := true; _nextEntryKey := _nextEntryKey s; _entryCount := _entryCount s; disk := disk s |}.

(** [reset]: the database is deleted, so that opening it creates it. *)
Definition reset (s : HistoryStore) : HistoryStore :=
  open Open_upgrade
    {| _idb := false; _nextEntryKey := _nextEntryKey s; _entryCount := _entryCount s; disk := createSchema |}.

(** [push]; [stored] is whether the transaction of the two [put]s succeeds. *)
Definition push (input : string) (date : Z) (stored : bool) (s : HistoryStore) : HistoryStore :=
  if _idb s then
    let entryKey := Z.land (_nextEntryKey s) (HISTORY_SIZE - 1) in
    let next := _nextEntryKey s + 1 in
    let count := Z.min (_entryCount s + 1) HISTORY_SIZE in
    {| _idb := true; _nextEntryKey := next; _entryCount := count;
       disk :=
         if stored
         then {| LOG_INFO := put li_key {| li_key := 0; nextEntryKey := next; entryCount := count |} (LOG_INFO (disk s));
                 LOG_ENTRIES := put le_key {| le_key := entryKey; le_when := date; le_input := input |}
                                  (LOG_ENTRIES (disk s)) |}
         else disk s |}
  else s.

Definition null_error : JsError := MkError "TypeError" "Cannot read properties of null" None.
Definition load (s : HistoryStore) : Outcome (list string * Z) :=
  if _entryCount s =? 0 then Normal ([], 0)
  else if _idb s then Normal (le_input <$> LOG_ENTRIES (disk s), Z.min (_nextEntryKey s) HISTORY_SIZE)
  else Thrown null_error.

(** [Shell::load_history] of [crate/src/shell.rs]; [None] is a panic, for a range beyond the
    end of the entries. *)
Definition load_history (history : list string) (cursor : nat) : option (list string) :=
  if (cursor <=? length history)%nat then Some (drop cursor history ++ take cursor history) else None.

(** What a visit sees of the history: [history.open()], [load()] and [loadHistory]. *)
Definition restored (d : Database) : option (list string) :=
  match load (open Open_success (history_new d)) with
  | Normal (hist, histCursor) => load_history hist (Z.to_nat histCursor)
  | Thrown _ => None
  end.

(** A visit: the store is opened, then inputs are pushed. *)
Definition push_all (inputs : list (string * Z)) (s : HistoryStore) : HistoryStore :=
  foldl (fun s x => push x.1 x.2 true s) s inputs.
Definition visit (d : Database) (inputs : list (string * Z)) : Database :=
  disk (push_all inputs (open Open_success (history_new d))).
Definition first_visit (inputs : list (string * Z)) : Database :=
  disk (push_all inputs (onsuccess (open Open_upgrade (history_new createSchema)))).

(** ** Strings as UTF-16 code units, and the encoding of address components *)
Abbreviation js_string := (list Z).

Definition is_lead (c : Z) : bool := (55296 <=? c) && (c <? 56320).
Definition is_trail (c : Z) : bool := (56320 <=? c) && (c <? 57344).

(** No surrogate stands alone. *)
Fixpoint well_formed (s : js_string) : bool :=
  match s with
  | [] => true
  | c :: s' =>
      (0 <=? c) && (c <? 65536) &&
      if is_lead c then
        match s' with
        | d :: s'' => is_trail d && well_formed s''
        | [] => false
        end
      else negb (is_trail c) && well_formed s'
  end.

Definition ch (a : Ascii.ascii) : Z := Z.of_nat (Ascii.nat_of_ascii a).
Arguments ch a%_char_scope.
Definition of_string (s : string) : js_string := map ch (String.list_ascii_of_string s).

(** The characters [encodeURIComponent] leaves. *)
Definition unescaped (c : Z) : bool :=
  ((65 <=? c) && (c <=? 90)) || ((97 <=? c) && (c <=? 122)) || ((48 <=? c) && (c <=? 57)) ||
  bool_decide (c ∈ of_string "-_.!~*'()").

Definition utf8_bytes (cp : Z) : list Z :=
  if cp <? 128 then [cp]
  else if cp <? 2048 then [192 + cp / 64; 128 + cp mod 64]
  else if cp <? 65536 then [224 + cp / 4096; 128 + cp / 64 mod 64; 128 + cp mod 64]
  else [240 + cp / 262144; 128 + cp / 4096 mod 64; 128 + cp / 64 mod 64; 128 + cp mod 64].

Definition hex_char (n : Z) : Z := if n <? 10 then 48 + n else 55 + n.
Definition percent (b : Z) : js_string := [37; hex_char (b / 16); hex_char (b mod 16)].
Definition escape (cp : Z) : js_string := utf8_bytes cp ≫= percent.

(** [encodeURIComponent]; [None] is a [URIError]. *)
Fixpoint encodeURIComponent (s : js_string) : option js_string :=
  match s with
  | [] => Some []
  | c :: s' =>
      if unescaped c then cons c <$> encodeURIComponent s'
      else if is_trail c then None
      else if is_lead c then
        match s' with
        | d :: s'' =>
            if is_trail d
            then app (escape ((c - 55296) * 1024 + (d - 56320) + 65536)) <$> encodeURIComponent s''
            else None
        | [] => None
        end
      else app (escape c) <$> encodeURIComponent s'
  end.

Definition hex_value (c : Z) : option Z :=
  if (48 <=? c) && (c <=? 57) then Some (c - 48)
  else if (65 <=? c) && (c <=? 70) then Some (c - 55)
  else if (97 <=? c) && (c <=? 102) then Some (c - 87)
  else None.
Definition hex_byte (c d : Z) : option Z :=
  match hex_value c, hex_value d with Some a, Some b => Some (16 * a + b) | _, _ => None end.

(** The number of bytes of a UTF-8 sequence, by its first byte, and the bits that byte holds. *)
Definition sequence (b : Z) : option (nat * Z) :=
  if b <? 128 then Some (0%nat, b)
  else if (192 <=? b) && (b <? 224) then Some (1%nat, b - 192)
  else if (224 <=? b) && (b <? 240) then Some (2%nat, b - 224)
  else if (240 <=? b) && (b <? 248) then Some (3%nat, b - 240)
  else None.
(** [n] further bytes [%XX] of a sequence; the value, and what is left. *)
Fixpoint continuation (n : nat) (acc : Z) (s : js_string) : option (Z * js_string) :=
  match n with
  | O => Some (acc, s)
  | S n' =>
      match s with
      | 37 :: c :: d :: s' =>
          match hex_byte c d with
          | Some b => if (128 <=? b) && (b <? 192) then continuation n' (64 * acc + (b - 128)) s' else None
          | None => None
          end
      | _ => None
      end
  end.
(** A sequence must be the shortest for its code point, which is no surrogate. *)
Definition valid_point (n : nat) (cp : Z) : bool :=
  match n with
  | O => true
  | 1%nat => 128 <=? cp
  | 2%nat => (2048 <=? cp) && negb ((55296 <=? cp) && (cp <? 57344))
  | _ => (65536 <=? cp) && (cp <? 1114112)
  end.
Definition utf16 (cp : Z) : js_string :=
  if cp <? 65536 then [cp] else [55296 + (cp - 65536) / 1024; 56320 + (cp - 65536) mod 1024].

(** [decodeURIComponent].  Each turn takes a character or an escape, so the length of the
    text is fuel enough. *)
Fixpoint decode (fuel : nat) (s : js_string) : option js_string :=
  match fuel, s with
  | _, [] => Some []
  | O, _ => None
  | S fuel', c :: s' =>
      if c =? 37 then
        match s' with
        | x :: y :: s'' =>
            match hex_byte x y with
            | Some b =>
                match sequence b with
                | Some (n, acc) =>
                    match continuation n acc s'' with
                    | Some (cp, rest) => if valid_point n cp then app (utf16 cp) <$> decode fuel' rest else None
                    | None => None
                    end
                | None => None
                end
            | None => None
            end
        | _ => None
        end
      else cons c <$> decode fuel' s'
  end.
Definition decodeURIComponent (s : js_string) : option js_string := decode (length s) s.

(** ** Queries in the address *)

Definition swap (c : Z) : Z :=
  if c =? ch " " then ch "-"
  else if c =? ch "-" then ch " "
  else if c =? ch ";" then ch "~"
  else if c =? ch "~" then ch ";"
  else c.
Definition extraswaps (input : js_string) : js_string := map swap input.

Definition hash_starts_with (p s : js_string) : bool := bool_decide (take (length p) s = p).

(** [s.split(',')] *)
Fixpoint split_commas (s : js_string) : list js_string :=
  match s with
  | [] => [[]]
  | c :: s' =>
      if c =? ch "," then [] :: split_commas s'
      else match split_commas s' with w :: l => (c :: w) :: l | [] => [[c]] end
  end.

(** The fields of [ShellRuntime] and the page that [pushInputToHistory] changes: its own
    [hash], [window.location.hash], the link with the id [hashencoded]. *)
Record ShellRuntime := {
  hash : js_string;
  location_hash : js_string;
  link_href : option js_string
}.

(** Setting [location.hash]: a number sign is put before the text.  None of the characters
    set here are ones a browser escapes. *)
Definition set_location_hash (v : js_string) : js_string := ch "#" :: v.

(** [pushInputToHistory], up to the call of [history.push]; [None] is a thrown [URIError]. *)
Definition pushInputToHistory (value : js_string) (s : ShellRuntime) : option ShellRuntime :=
  match encodeURIComponent (extraswaps value) with
  | None => None
  | Some encode =>
      let h := match hash s with [] => of_string "queries=v0" | _ => hash s end in
      let h := h ++ of_string "," ++ encode in
      Some {| hash := h;
              location_hash :=
                if hash_starts_with (of_string "#savequeries") (location_hash s)
                then set_location_hash (of_string "savequeries&" ++ h) else location_hash s;
              link_href := match link_href s with Some _ => Some (of_string "/#" ++ h) | None => None end |}
  end.
Fixpoint push_queries (l : list js_string) (s : ShellRuntime) : option ShellRuntime :=
  match l with
  | [] => Some s
  | v :: l' => pushInputToHistory v s ≫= push_queries l'
  end.

(** The end of [embed]: the queries of the address. *)
Definition queries_of_hash (location_hash : js_string) : option (list js_string) :=
  mapM (fun x => extraswaps <$> decodeURIComponent x) (tail (split_commas location_hash)).

(** ** The file picker *)

(** [pickFilesForFileReader]: the element's change event, the focus of the window and the
    timer of [deferredFinish].  A call of [finish] registers the files there are. *)
Record Picker := {
  listening : bool;   (** the focus listener *)
  closed : bool;
  timers : nat;       (** calls of [deferredFinish] that wait for their second *)
  picked : list string;  (** [input.files] *)
  calls : list (string * bool);  (** [dropFile] (false) and [registerFileHandle] (true), in order *)
  result : option nat
}.
Definition picker_new : Picker :=
  {| listening := false; closed := false; timers := 0; picked := []; calls := []; result := None |}.

Definition finish (s : Picker) : Picker :=
  {| listening := listening s; closed := true; timers := timers s; picked := picked s;
     calls := calls s ++ (picked s ≫= fun name => [(name, false); (name, true)]);
     result := match result s with Some n => Some n | None => Some (length (picked s)) end |}.

Inductive PickEvent := Pick_click | Pick_change (files : list string) | Pick_focus | Pick_timer.
Definition with_listening (b : bool) (s : Picker) : Picker :=
  {| listening := b; closed := closed s; timers := timers s; picked := picked s; calls := calls s; result := result s |}.
Definition pick_event (e : PickEvent) (s : Picker) : Picker :=
  match e with
  | Pick_click => with_listening true s
  | Pick_change files =>
      finish (with_listening false
        {| listening := listening s; closed := closed s; timers := timers s; picked := files; calls := calls s;
           result := result s |})
  | Pick_focus =>
      if listening s then
        let s := with_listening false s in
        if closed s then s
        else {| listening := listening s; closed := closed s; timers := S (timers s); picked := picked s;
                calls := calls s; result := result s |}
      else s
  | Pick_timer =>
      match timers s with
      | O => s
      | S n =>
          let s := {| listening := listening s; closed := closed s; timers := n; picked := picked s;
                      calls := calls s; result := result s |} in
          if closed s then s else finish s
      end
  end.
