(* ===== verification/ShellFacts.v ===== *)
(** * ShellFacts: what a visit to the shell finds again

    The history of earlier visits, as far as its ring keeps it in order, and the queries
    saved in the address. *)
From S2P Require Import Prelude Shell.
From stdpp Require Import base tactics list strings.
From Stdlib Require Import ZArith Ascii Lia.
Open Scope Z_scope.

(** ** The object store *)
Section Store.
Implicit Types (l : list LogEntry).

Lemma put_above v l m : le_key <$> l = seqZ m (lenZ l) -> le_key v = m + lenZ l ->
  put le_key v l = l ++ [v].
Proof.
  revert m. induction l as [|w l IH]; intros m Hk Hv; cbn; [done|].
  rewrite fmap_cons in Hk. unfold lenZ in *. cbn [length] in *. rewrite Nat2Z.inj_succ in *.
  rewrite seqZ_cons in Hk by lia. injection Hk as Hw Hk.
  rewrite (proj2 (Z.ltb_ge _ _)) by lia. rewrite (proj2 (Z.eqb_neq _ _)) by lia.
  f_equal. apply (IH (Z.succ m)); [|lia]. rewrite Hk. f_equal; lia.
Qed.

Lemma put_inside v l m i : le_key <$> l = seqZ m (lenZ l) -> (i < length l)%nat -> le_key v = m + Z.of_nat i ->
  put le_key v l = <[i := v]> l.
Proof.
  revert m i. induction l as [|w l IH]; intros m i Hk Hi Hv; cbn in Hi; [lia|].
  rewrite fmap_cons in Hk. unfold lenZ in *. cbn [length] in *. rewrite Nat2Z.inj_succ in *.
  rewrite seqZ_cons in Hk by lia. injection Hk as Hw Hk. cbn [put].
  destruct i as [|i].
  - rewrite Z.add_0_r in Hv. rewrite Hv, <- Hw, Z.ltb_irrefl, Z.eqb_refl. done.
  - rewrite (proj2 (Z.ltb_ge _ _)) by lia. rewrite (proj2 (Z.eqb_neq _ _)) by lia. cbn. f_equal.
    apply (IH (Z.succ m)); [|lia|lia]. rewrite Hk. f_equal; lia.
Qed.
End Store.

(** ** The ring *)
Open Scope nat_scope.
Definition SIZE : nat := 1024.
Lemma HISTORY_SIZE_nat : HISTORY_SIZE = Z.of_nat SIZE.
Proof. reflexivity. Qed.

(** The inputs by key after [h] was pushed: in order up to the size; beyond it, the newest
    are at the front. *)
Definition ring {A} (h : list A) : list A :=
  let n := length h in
  if (n <=? SIZE)%nat then h
  else drop (n - n mod SIZE) h ++ take (SIZE - n mod SIZE) (drop (n - SIZE) h).

Lemma mod_succ n : ((n mod SIZE < SIZE - 1)%nat /\ (S n) mod SIZE = S (n mod SIZE)) \/
  ((n mod SIZE = SIZE - 1)%nat /\ (S n) mod SIZE = 0)%nat.
Proof.
  assert (SIZE <> 0)%nat as Hs by done. pose proof (Nat.mod_upper_bound n SIZE Hs).
  destruct (decide (n mod SIZE < SIZE - 1)%nat) as [Hn|Hn]; [left|right]; (split; [lia|]).
  - symmetry. apply (Nat.mod_unique (S n) SIZE (n / SIZE)); [lia|].
    rewrite (Nat.div_mod n SIZE Hs) at 1. lia.
  - symmetry. apply (Nat.mod_unique (S n) SIZE (S (n / SIZE))); [lia|].
    rewrite (Nat.div_mod n SIZE Hs) at 1. lia.
Qed.

Lemma ring_long {A} (h : list A) : (SIZE <= length h)%nat ->
  ring h = drop (length h - length h mod SIZE) h ++ take (SIZE - length h mod SIZE) (drop (length h - SIZE) h).
Proof.
  intros Hn. unfold ring. cbv zeta. destruct (Nat.leb_spec (length h) SIZE) as [Hl|]; [|done].
  assert (length h = SIZE) as E by lia. rewrite E, Nat.Div0.mod_same, Nat.sub_0_r, Nat.sub_diag.
  rewrite drop_0, drop_ge by lia. rewrite take_ge by lia. done.
Qed.

Lemma ring_length {A} (h : list A) : length (ring h) = Nat.min (length h) SIZE.
Proof.
  destruct (decide (SIZE <= length h)%nat) as [Hn|Hn].
  - rewrite ring_long, length_app, length_drop, length_take, length_drop by done.
    pose proof (Nat.mod_upper_bound (length h) SIZE ltac:(done)).
    pose proof (Nat.Div0.mod_le (length h) SIZE). lia.
  - unfold ring. cbv zeta. rewrite (proj2 (Nat.leb_le _ _)) by lia. lia.
Qed.

Lemma ring_push {A} (h : list A) x :
  ring (h ++ [x]) = if (length h <? SIZE)%nat then ring h ++ [x] else <[length h mod SIZE := x]> (ring h).
Proof.
  destruct (Nat.ltb_spec (length h) SIZE) as [Hn|Hn].
  - unfold ring. cbv zeta. rewrite length_app. cbn [length].
    rewrite !(proj2 (Nat.leb_le _ _)) by lia. done.
  - rewrite (ring_long h Hn). rewrite ring_long by (rewrite length_app; cbn; lia).
    rewrite length_app. cbn [length]. rewrite Nat.add_1_r.
    set (n := length h) in *. set (r := n mod SIZE).
    assert (r < SIZE)%nat as Hr by (by apply Nat.mod_upper_bound).
    assert (r <= n)%nat by lia.
    rewrite insert_app_r_alt by (rewrite length_drop; lia).
    rewrite length_drop. fold n. replace (r - (n - (n - r)))%nat with 0%nat by lia.
    rewrite (drop_app_le h [x] (S n - SIZE)) by (fold n; lia).
    destruct (drop (n - SIZE) h) as [|y B] eqn:EB.
    { apply (f_equal length) in EB. rewrite length_drop in EB. cbn in EB. fold n in EB.
      assert (SIZE <> 0)%nat by done. lia. }
    assert (drop (S n - SIZE) h = B) as EB'.
    { replace (S n - SIZE)%nat with ((n - SIZE) + 1)%nat by lia. rewrite <- drop_drop, EB. done. }
    assert (length B = SIZE - 1)%nat as LB.
    { apply (f_equal length) in EB. rewrite length_drop in EB. cbn in EB. fold n in EB. lia. }
    rewrite EB'. replace (SIZE - r)%nat with (S (SIZE - 1 - r)) by lia. cbn [take].
    change (<[0%nat := x]> (y :: take (SIZE - 1 - r) B)) with (x :: take (SIZE - 1 - r) B).
    destruct (mod_succ n) as [[Hr1 ->]|[Hr1 ->]]; fold r in Hr1 |- *.
    + replace (S n - S r)%nat with (n - r)%nat by lia. rewrite drop_app_le by (fold n; lia).
      replace (SIZE - S r)%nat with (SIZE - 1 - r)%nat by lia. rewrite take_app_le by lia.
      by rewrite <- app_assoc.
    + rewrite !Nat.sub_0_r. rewrite (drop_ge (h ++ [x])) by (rewrite length_app; cbn; fold n; lia).
      rewrite take_ge by (rewrite length_app; cbn; lia). cbn [app].
      replace (SIZE - 1 - r)%nat with 0%nat by lia. cbn [take]. f_equal.
      rewrite <- EB'. f_equal. lia.
Qed.

Close Scope nat_scope.

(** ** The history over visits *)
Record ring_disk (h : list string) (d : Database) : Prop := {
  rd_info : LOG_INFO d =
    match h with
    | [] => []
    | _ => [{| li_key := 0; nextEntryKey := lenZ h; entryCount := Z.min (lenZ h) HISTORY_SIZE |}]
    end;
  rd_keys : le_key <$> LOG_ENTRIES d = seqZ 0 (lenZ (LOG_ENTRIES d));
  rd_inputs : le_input <$> LOG_ENTRIES d = ring h
}.
Record ring_store (h : list string) (s : HistoryStore) : Prop := {
  rs_idb : _idb s = true;
  rs_next : _nextEntryKey s = lenZ h;
  rs_count : _entryCount s = Z.min (lenZ h) HISTORY_SIZE;
  rs_disk : ring_disk h (disk s)
}.

Lemma ring_entries h d : ring_disk h d -> length (LOG_ENTRIES d) = Nat.min (length h) SIZE.
Proof. intros [_ _ Hi]. by rewrite <- (ring_length h), <- Hi, length_fmap. Qed.

Lemma entry_key h : Z.land (lenZ h) (HISTORY_SIZE - 1) = Z.of_nat (@length string h mod SIZE).
Proof.
  change (HISTORY_SIZE - 1) with (Z.ones 10). rewrite Z.land_ones by lia.
  change (2 ^ 10) with (Z.of_nat SIZE). unfold lenZ. by rewrite Nat2Z.inj_mod.
Qed.

Lemma insert_keys (es : list LogEntry) i v : le_key <$> es = seqZ 0 (lenZ es) -> le_key v = Z.of_nat i ->
  le_key <$> <[i := v]> es = seqZ 0 (lenZ (<[i := v]> es)).
Proof.
  intros Hk Hv. unfold lenZ in *. rewrite length_insert, list_fmap_insert, Hk, Hv.
  destruct (decide (i < length es)%nat) as [Hi|Hi].
  - rewrite list_insert_id; [done|]. apply lookup_seqZ. lia.
  - apply list_insert_ge. rewrite length_seqZ. lia.
Qed.

Lemma push_ring h s input date : ring_store h s -> ring_store (h ++ [input]) (push input date true s).
Proof.
  intros [Hb Hn Hc Hd]. pose proof (ring_entries _ _ Hd) as Hl. destruct Hd as [Hi Hk He].
  unfold push. rewrite Hb. cbv zeta. rewrite Hn, Hc, entry_key.
  assert (lenZ (h ++ [input]) = lenZ h + 1) as Hlen by (rewrite lenZ_app; done).
  assert (Z.min (Z.min (lenZ h) HISTORY_SIZE + 1) HISTORY_SIZE = Z.min (lenZ h + 1) HISTORY_SIZE) as ->
    by (change HISTORY_SIZE with 1024; lia).
  split; cbn [_idb _nextEntryKey _entryCount disk]; rewrite ?Hlen; try done.
  set (v := {| le_key := Z.of_nat (length h mod SIZE); le_when := date; le_input := input |}).
  assert (put le_key v (LOG_ENTRIES (disk s)) =
          if (length h <? SIZE)%nat then LOG_ENTRIES (disk s) ++ [v]
          else <[(length h mod SIZE)%nat := v]> (LOG_ENTRIES (disk s))) as Hput.
  { destruct (Nat.ltb_spec (length h) SIZE) as [Hlt|Hge].
    - apply (put_above _ _ 0); [done|]. unfold lenZ, v. cbn [le_key]. rewrite Hl, Nat.mod_small by done. lia.
    - apply (put_inside _ _ 0); [done| |done]. rewrite Hl. pose proof (Nat.mod_upper_bound (length h) SIZE ltac:(done)). lia. }
  split; cbn [LOG_INFO LOG_ENTRIES].
  - rewrite Hi, Hlen. destruct h; done.
  - rewrite Hput. destruct (Nat.ltb_spec (length h) SIZE) as [Hlt|Hge]; [|by apply insert_keys].
    rewrite fmap_app, Hk, lenZ_app. change (lenZ [v]) with 1. rewrite seqZ_app by (pose proof (lenZ_nonneg (LOG_ENTRIES (disk s))); lia).
    f_equal. unfold v. cbn [fmap list_fmap le_key]. unfold lenZ. rewrite Hl, Nat.mod_small by done.
    rewrite seqZ_cons by lia. cbn. f_equal. lia.
  - rewrite Hput, ring_push. destruct (Nat.ltb_spec (length h) SIZE).
    + by rewrite fmap_app, He.
    + by rewrite list_fmap_insert, He.
Qed.

Lemma push_all_ring inputs h s : ring_store h s -> ring_store (h ++ inputs.*1) (push_all inputs s).
Proof.
  unfold push_all. revert h s. induction inputs as [|[x d] inputs IH]; intros h s Hs; cbn; [by rewrite app_nil_r|].
  rewrite cons_middle, app_assoc. apply IH. by apply push_ring.
Qed.

Lemma open_ring h d : ring_disk h d -> ring_store h (open Open_success (history_new d)).
Proof.
  intros Hd. pose proof Hd as [Hi _ _]. unfold open, loadMetadata, history_new. cbn. rewrite Hi.
  split; cbn; [done| | |done]; by destruct h.
Qed.

Lemma visit_ring h d inputs : ring_disk h d -> ring_disk (h ++ inputs.*1) (visit d inputs).
Proof. intros Hd. unfold visit. apply push_all_ring, open_ring, Hd. Qed.

Lemma first_visit_ring inputs : ring_disk inputs.*1 (first_visit inputs).
Proof. unfold first_visit. apply (push_all_ring inputs []). done. Qed.

Lemma visits_ring first later :
  ring_disk (concat (map (fun v => v.*1) (first :: later))) (foldl visit (first_visit first) later).
Proof.
  cbn. generalize (first_visit_ring first). generalize (first.*1), (first_visit first).
  induction later as [|v later IH]; intros h d Hd; cbn; [by rewrite app_nil_r|].
  rewrite app_assoc. by apply IH, visit_ring.
Qed.

Lemma restored_ring h d : ring_disk h d -> restored d = Some (ring h).
Proof.
  intros Hd. unfold restored, load. destruct (open_ring _ _ Hd) as [Hb Hn Hc Hd'].
  destruct Hd' as [_ _ He]. rewrite Hb, Hn, Hc.
  destruct (decide (h = [])) as [->|Hne]; [done|].
  assert (1 <= lenZ h) by (destruct h; [done|]; unfold lenZ; cbn; lia).
  change HISTORY_SIZE with (Z.of_nat SIZE) at 1. rewrite (proj2 (Z.eqb_neq _ _)) by (unfold SIZE; lia).
  rewrite He. unfold load_history. rewrite ring_length, HISTORY_SIZE_nat.
  replace (Z.to_nat (Z.min (lenZ h) (Z.of_nat SIZE))) with (Nat.min (length h) SIZE) by (unfold lenZ; lia).
  rewrite Nat.leb_refl, <- ring_length, drop_all, take_ge by done. done.
Qed.

(** What a visit restores is what the visits before it pushed, in order, as long as
    there are at most 1024 inputs.  Beyond that the newest ones come first: of [n] inputs
    the last [n mod 1024], then the ones before them, down to a total of 1024. *)
Theorem history_is_restored first later inputs :
  inputs = concat (map (fun v => v.*1) (first :: later)) ->
  let n := length inputs in
  restored (foldl visit (first_visit first) later) =
  Some (if (n <=? 1024)%nat then inputs
        else drop (n - n mod 1024) inputs ++ take (1024 - n mod 1024) (drop (n - 1024) inputs)).
Proof. intros ->. apply restored_ring, visits_ring. Qed.

(** The cursor is the count, never the place where the ring was written last. *)
Lemma newest_inputs_come_first (inputs : list (string * Z)) :
  length inputs = 1025%nat ->
  restored (first_visit inputs) = Some (drop 1024 inputs.*1 ++ take 1023 (drop 1 inputs.*1)).
Proof.
  intros Hn. rewrite (restored_ring _ _ (first_visit_ring inputs)). f_equal.
  unfold ring. by rewrite length_fmap, Hn.
Qed.

Lemma history_is_restored_witness :
  restored (foldl visit (first_visit [("select 1", 1); ("select 2", 2)]) [[]; [("select 3", 3)]]%string) =
  Some ["select 1"; "select 2"; "select 3"]%string.
Proof.
  exact (history_is_restored [("select 1", 1); ("select 2", 2)]%string [[]; [("select 3", 3)]]%string
           ["select 1"; "select 2"; "select 3"]%string eq_refl).
Defined.

(** An input whose write failed leaves a gap, and the next visit fails in [load_history]. *)
Lemma a_lost_write_breaks_the_history :
  let s := push "b" 2 true (push "a" 1 false (onsuccess (open Open_upgrade (history_new createSchema)))) in
  load (open Open_success (history_new (disk s))) = Normal (["b"%string], 2) /\ restored (disk s) = None.
Proof. vm_compute. done. Qed.

(** After a reset the counters are those of before. *)
Lemma reset_keeps_the_counters s : _entryCount s <> 0 -> 0 < _nextEntryKey s ->
  load (reset s) = Thrown null_error /\
  exists cursor, load (onsuccess (reset s)) = Normal ([], cursor) /\ load_history [] (Z.to_nat cursor) = None.
Proof.
  intros Hc%Z.eqb_neq Hn. unfold reset, load. cbn. rewrite Hc. split; [done|]. eexists. split; [done|].
  unfold load_history. rewrite (proj2 (Nat.leb_gt _ _)); [done|]. change HISTORY_SIZE with 1024. cbn. lia.
Qed.

(** ** Encoding and decoding *)
Lemma hex_value_digit n : 0 <= n < 16 -> hex_value (hex_char n) = Some n.
Proof.
  intros Hn. unfold hex_value, hex_char. destruct (Z.ltb_spec n 10).
  - rewrite (proj2 (Z.leb_le _ _)), (proj2 (Z.leb_le _ _)) by lia. cbn. f_equal. lia.
  - rewrite (proj2 (Z.leb_le 48 _)), (proj2 (Z.leb_gt _ 57)) by lia. cbn.
    rewrite (proj2 (Z.leb_le 65 _)), (proj2 (Z.leb_le _ 70)) by lia. cbn. f_equal. lia.
Qed.

Lemma hex_byte_percent b : 0 <= b < 256 -> hex_byte (hex_char (b / 16)) (hex_char (b mod 16)) = Some b.
Proof.
  intros Hb. unfold hex_byte.
  rewrite !hex_value_digit by (Z.to_euclidean_division_equations; lia).
  f_equal. Z.to_euclidean_division_equations; lia.
Qed.

Lemma continuation_percent n acc b s : 0 <= b < 64 ->
  continuation (S n) acc (percent (128 + b) ++ s) = continuation n (64 * acc + b) s.
Proof.
  intros Hb. unfold percent. cbn [continuation app]. rewrite hex_byte_percent by lia.
  rewrite (proj2 (Z.leb_le _ _)), (proj2 (Z.ltb_lt _ _)) by lia. cbn [andb]. f_equal. lia.
Qed.

Lemma decode_sequence fuel b n acc s : 0 <= b < 256 -> sequence b = Some (n, acc) ->
  decode (S fuel) (percent b ++ s) =
  match continuation n acc s with
  | Some (cp, rest) => if valid_point n cp then app (utf16 cp) <$> decode fuel rest else None
  | None => None
  end.
Proof. intros Hb Hs. unfold percent. cbn [decode app Z.eqb Pos.eqb]. by rewrite hex_byte_percent, Hs. Qed.

(** A code point that is no surrogate. *)
Definition scalar (cp : Z) : Prop := 0 <= cp < 1114112 /\ ~ (55296 <= cp < 57344).

Ltac bool_lia :=
  repeat match goal with
  | |- context [?a <? ?b] => destruct (Z.ltb_spec a b); try lia
  | |- context [?a <=? ?b] => destruct (Z.leb_spec a b); try lia
  end; cbn [andb negb orb]; try done.

Lemma sequence_2 x : 0 <= x < 32 -> sequence (192 + x) = Some (1%nat, x).
Proof. intros Hx. unfold sequence. bool_lia. do 2 f_equal. lia. Qed.
Lemma sequence_3 x : 0 <= x < 16 -> sequence (224 + x) = Some (2%nat, x).
Proof. intros Hx. unfold sequence. bool_lia. do 2 f_equal. lia. Qed.
Lemma sequence_4 x : 0 <= x < 8 -> sequence (240 + x) = Some (3%nat, x).
Proof. intros Hx. unfold sequence. bool_lia. do 2 f_equal. lia. Qed.

Lemma decode_escape fuel cp rest : scalar cp ->
  decode (S fuel) (escape cp ++ rest) = app (utf16 cp) <$> decode fuel rest.
Proof.
  intros [Hc Hs]. unfold escape, utf8_bytes.
  destruct (Z.ltb_spec cp 128); [|destruct (Z.ltb_spec cp 2048); [|destruct (Z.ltb_spec cp 65536)]];
    cbn [mbind list_bind]; rewrite ?app_nil_r, <- ?app_assoc.
  - rewrite (decode_sequence _ cp 0 cp); [done|lia|]. unfold sequence. bool_lia.
  - assert (0 <= cp / 64 < 32 /\ 0 <= cp mod 64 < 64 /\ 64 * (cp / 64) + cp mod 64 = cp)
      as (B1 & B2 & E) by (Z.to_euclidean_division_equations; lia).
    rewrite (decode_sequence _ (192 + cp / 64) 1 (cp / 64)) by (lia || by apply sequence_2).
    rewrite continuation_percent by done. cbn [continuation]. rewrite E.
    replace (valid_point 1 cp) with true; [done|]. unfold valid_point. bool_lia.
  - assert (0 <= cp / 4096 < 16 /\ 0 <= cp / 64 mod 64 < 64 /\ 0 <= cp mod 64 < 64 /\
            64 * (64 * (cp / 4096) + cp / 64 mod 64) + cp mod 64 = cp)
      as (B1 & B2 & B3 & E) by (Z.to_euclidean_division_equations; lia).
    rewrite (decode_sequence _ (224 + cp / 4096) 2 (cp / 4096)) by (lia || by apply sequence_3).
    rewrite !continuation_percent by done. cbn [continuation]. rewrite E.
    replace (valid_point 2 cp) with true; [done|]. unfold valid_point. bool_lia.
  - assert (0 <= cp / 262144 < 8 /\ 0 <= cp / 4096 mod 64 < 64 /\ 0 <= cp / 64 mod 64 < 64 /\
            0 <= cp mod 64 < 64 /\
            64 * (64 * (64 * (cp / 262144) + cp / 4096 mod 64) + cp / 64 mod 64) + cp mod 64 = cp)
      as (B1 & B2 & B3 & B4 & E) by (Z.to_euclidean_division_equations; lia).
    rewrite (decode_sequence _ (240 + cp / 262144) 3 (cp / 262144)) by (lia || by apply sequence_4).
    rewrite !continuation_percent by done. cbn [continuation]. rewrite E.
    replace (valid_point 3 cp) with true; [done|]. unfold valid_point. bool_lia.
Qed.

(** ** Characters of an encoded text *)
Definition plain (c : Z) : bool :=
  (33 <=? c) && (c <=? 126) && negb (existsb (Z.eqb c) [34; 35; 44; 60; 62; 96]).

Lemma forall_below (P : Z -> bool) n : forallb P (seqZ 0 n) = true -> forall c, 0 <= c < n -> P c = true.
Proof.
  intros H c Hc. rewrite forallb_forall in H. apply H, list_elem_of_In, elem_of_seqZ. lia.
Qed.

Lemma unescaped_ascii c : unescaped c = true -> 0 <= c < 128.
Proof.
  unfold unescaped. rewrite !orb_true_iff, !andb_true_iff, !Z.leb_le, bool_decide_eq_true.
  intros [[[?|?]|?]|H]; try lia.
  assert (Forall (fun c => 0 <= c < 128) (of_string "-_.!~*'()")) as HF by (by apply (bool_decide_unpack _)).
  rewrite Forall_forall in HF. by apply HF.
Qed.

Lemma unescaped_plain c : unescaped c = true -> plain c = true /\ (c =? 37) = false.
Proof.
  intros Hu. pose proof (unescaped_ascii c Hu) as Hc.
  pose proof (forall_below (fun c => negb (unescaped c) || (plain c && negb (c =? 37))) 128 ltac:(vm_compute; reflexivity) c Hc) as H.
  cbv beta in H. rewrite Hu in H. cbn in H. apply andb_true_iff in H as [-> H]. by apply negb_true_iff in H.
Qed.

Lemma percent_plain b : 0 <= b < 256 -> forallb plain (percent b) = true.
Proof.
  intros Hb. apply (forall_below (fun b => forallb plain (percent b)) 256); [vm_compute; reflexivity|done].
Qed.

Lemma escape_plain cp : scalar cp -> forallb plain (escape cp) = true /\ (1 <= length (escape cp))%nat.
Proof.
  intros [Hc _]. unfold escape.
  assert (Forall (fun b => 0 <= b < 256) (utf8_bytes cp) /\ utf8_bytes cp <> []) as [Hb Hn].
  { unfold utf8_bytes. repeat case_match; split; try done;
      repeat (constructor; try (Z.to_euclidean_division_equations; lia)). }
  destruct (utf8_bytes cp) as [|b l]; [done|]. clear Hn. split; [|cbn; lia].
  induction Hb as [|b' l' Hb' _ IH]; [done|]. cbn [mbind list_bind]. by rewrite forallb_app, percent_plain, IH.
Qed.

Lemma decode_escaped fuel cp e s : scalar cp -> (length (escape cp ++ e) <= fuel)%nat ->
  (forall fuel', (length e <= fuel')%nat -> decode fuel' e = Some s) ->
  decode fuel (escape cp ++ e) = Some (utf16 cp ++ s).
Proof.
  intros Hc Hf Hd. destruct (escape_plain cp Hc) as [_ Hl]. rewrite length_app in Hf.
  destruct fuel as [|fuel]; [lia|]. rewrite decode_escape by done. by rewrite Hd by lia.
Qed.

Lemma encode_decode n : forall s, (length s <= n)%nat -> well_formed s = true ->
  exists e, encodeURIComponent s = Some e /\ forallb plain e = true /\
    forall fuel, (length e <= fuel)%nat -> decode fuel e = Some s.
Proof.
  induction n as [|n IH]; intros [|c s] Hn Hw; cbn in Hn; try lia; try (by exists []; repeat split; intros []).
  cbn [well_formed] in Hw. apply andb_true_iff in Hw as [[H0%Z.leb_le H1%Z.ltb_lt]%andb_true_iff Hw].
  cbn [encodeURIComponent]. destruct (unescaped c) eqn:Eu.
  - pose proof (unescaped_ascii c Eu). destruct (unescaped_plain c Eu) as [Hp H37].
    assert (is_lead c = false) as El by (unfold is_lead; bool_lia). rewrite El in Hw.
    apply andb_true_iff in Hw as [_ Hw]. destruct (IH s) as (e & -> & He & Hd); [lia|done|].
    exists (c :: e). cbn. rewrite Hp, He. split; [done|]. split; [done|].
    intros [|fuel] Hf; cbn in Hf; [lia|]. cbn [decode]. rewrite H37. by rewrite Hd by lia.
  - destruct (is_lead c) eqn:El.
    + assert (is_trail c = false) as -> by (unfold is_lead, is_trail in *; revert El; bool_lia).
      destruct s as [|d s]; [done|]. apply andb_true_iff in Hw as [Ht Hw]. rewrite Ht.
      destruct (IH s) as (e & -> & He & Hd); [cbn in Hn; lia|done|].
      unfold is_lead, is_trail in *. apply andb_true_iff in El as [?%Z.leb_le ?%Z.ltb_lt], Ht as [?%Z.leb_le ?%Z.ltb_lt].
      set (cp := (c - 55296) * 1024 + (d - 56320) + 65536).
      assert (scalar cp) as Hcp by (unfold scalar, cp; lia).
      exists (escape cp ++ e). rewrite forallb_app, (proj1 (escape_plain cp Hcp)), He.
      split; [done|]. split; [done|]. intros fuel Hf. rewrite (decode_escaped _ _ _ s) by done.
      unfold utf16. rewrite (proj2 (Z.ltb_ge _ _)) by (unfold cp; lia). cbn. do 2 f_equal.
      * unfold cp. Z.to_euclidean_division_equations; lia.
      * f_equal. unfold cp. Z.to_euclidean_division_equations; lia.
    + apply andb_true_iff in Hw as [Ht Hw]. apply negb_true_iff in Ht. rewrite Ht.
      destruct (IH s) as (e & -> & He & Hd); [lia|done|].
      assert (scalar c) as Hcp.
      { unfold is_lead, is_trail in *. apply andb_false_iff in El, Ht.
        rewrite !Z.leb_gt, !Z.ltb_ge in El, Ht. unfold scalar. lia. }
      exists (escape c ++ e). rewrite forallb_app, (proj1 (escape_plain c Hcp)), He.
      split; [done|]. split; [done|]. intros fuel Hf. rewrite (decode_escaped _ _ _ s) by done.
      unfold utf16. by rewrite (proj2 (Z.ltb_lt _ _)) by done.
Qed.

(** ** Swapping characters *)
Lemma swap_swap c : swap (swap c) = c.
Proof.
  unfold swap at 2. destruct (Z.eqb_spec c (ch " ")) as [->|H1]; [done|].
  destruct (Z.eqb_spec c (ch "-")) as [->|H2]; [done|]. destruct (Z.eqb_spec c (ch ";")) as [->|H3]; [done|].
  destruct (Z.eqb_spec c (ch "~")) as [->|H4]; [done|]. unfold swap.
  apply Z.eqb_neq in H1, H2, H3, H4. by rewrite H1, H2, H3, H4.
Qed.

Lemma extraswaps_involutive s : extraswaps (extraswaps s) = s.
Proof. unfold extraswaps. rewrite map_map. rewrite <- (map_id s) at 2. apply map_ext, swap_swap. Qed.

Lemma swap_unit c : ((0 <=? swap c) && (swap c <? 65536)) = ((0 <=? c) && (c <? 65536)) /\
  is_lead (swap c) = is_lead c /\ is_trail (swap c) = is_trail c.
Proof.
  unfold swap. destruct (Z.eqb_spec c (ch " ")) as [->|]; [done|]. destruct (Z.eqb_spec c (ch "-")) as [->|]; [done|].
  destruct (Z.eqb_spec c (ch ";")) as [->|]; [done|]. by destruct (Z.eqb_spec c (ch "~")) as [->|].
Qed.

Lemma extraswaps_well_formed n s : (length s <= n)%nat -> well_formed (extraswaps s) = well_formed s.
Proof.
  revert s. induction n as [|n IH]; intros [|c s] Hn; cbn in Hn; try lia; try done.
  cbn [extraswaps map well_formed]. destruct (swap_unit c) as (-> & -> & ->).
  destruct s as [|d s]; cbn [map] in *; [done|]. destruct (swap_unit d) as (_ & _ & Hd).
  rewrite Hd. cbn [length] in Hn. rewrite <- (IH s) by lia. rewrite <- (IH (d :: s)) by (cbn; lia). done.
Qed.

(** ** Saved queries *)
Definition no_comma (s : js_string) : Prop := Forall (fun c => c <> ch ",") s.

Lemma plain_no_comma s : forallb plain s = true -> no_comma s.
Proof.
  unfold no_comma. intros H. apply Forall_forall. intros c Hc ->.
  rewrite forallb_forall in H. by specialize (H _ (proj1 (list_elem_of_In _ _) Hc)).
Qed.

Lemma split_last a : no_comma a -> split_commas a = [a].
Proof. induction 1 as [|c a Hc%Z.eqb_neq _ IH]; cbn [split_commas]; [done|]. by rewrite Hc, IH. Qed.
Lemma split_comma a s : no_comma a -> split_commas (a ++ ch "," :: s) = a :: split_commas s.
Proof.
  induction 1 as [|c a Hc%Z.eqb_neq _ IH]; cbn [split_commas app]; [done|]. by rewrite Hc, IH.
Qed.

(** The text kept for a list of encoded queries. *)
Definition saved_text (es : list js_string) : js_string :=
  of_string "queries=v0" ++ concat (map (fun e => ch "," :: e) es).

Lemma split_saved a es : no_comma a -> Forall no_comma es ->
  tail (split_commas (a ++ concat (map (fun e => ch "," :: e) es))) = es.
Proof.
  intros Ha He. revert a Ha. induction He as [|e es He Hes IH]; intros a Ha; cbn [map concat].
  - by rewrite app_nil_r, split_last.
  - cbn [app]. rewrite split_comma by done. cbn [tail]. specialize (IH e He).
    destruct (split_commas (e ++ _)) as [|w l] eqn:E.
    + destruct es; cbn in E; [rewrite app_nil_r, split_last in E by done; done|].
      rewrite split_comma in E by done. done.
    + cbn in IH. subst l. f_equal.
      destruct es as [|e' es']; cbn [map concat app] in E.
      * rewrite app_nil_r, split_last in E by done. congruence.
      * rewrite split_comma in E by (by apply Forall_cons in Hes as [? ?] || done). congruence.
Qed.

(** An encoded query is plain, so nothing is escaped when it is put into an address. *)
Definition encoded (q e : js_string) : Prop :=
  forallb plain e = true /\ decodeURIComponent e = Some (extraswaps q).

Lemma queries_read_back a qs es : no_comma a -> Forall2 encoded qs es ->
  queries_of_hash (a ++ saved_text es) = Some qs.
Proof.
  intros Ha He. unfold queries_of_hash, saved_text. rewrite app_assoc. rewrite split_saved.
  - induction He as [|q e qs es [_ Hd] _ IH]; cbn; [done|]. rewrite Hd. cbn.
    rewrite extraswaps_involutive, IH. done.
  - apply Forall_app. split; [done|]. by apply (bool_decide_unpack _).
  - induction He as [|q e qs es [Hp _] _ IH]; constructor; [by apply plain_no_comma|done].
Qed.

Lemma encode_query q : well_formed q = true ->
  exists e, encodeURIComponent (extraswaps q) = Some e /\ encoded q e.
Proof.
  intros Hq. rewrite <- (extraswaps_well_formed (length q) q) in Hq by done.
  destruct (encode_decode _ (extraswaps q) (le_n _) Hq) as (e & He & Hp & Hd).
  exists e. split; [done|]. split; [done|]. by apply Hd.
Qed.

Definition savequeries : js_string := of_string "#savequeries".
(** The state after queries with these encodings. *)
Definition saved_state (l0 : js_string) (link0 : option js_string) (es : list js_string) : ShellRuntime :=
  match es with
  | [] => {| hash := []; location_hash := l0; link_href := link0 |}
  | _ =>
      {| hash := saved_text es;
         location_hash := if hash_starts_with savequeries l0 then of_string "#savequeries&" ++ saved_text es else l0;
         link_href := (fun _ => of_string "/#" ++ saved_text es) <$> link0 |}
  end.

Lemma saved_text_snoc es e : saved_text (es ++ [e]) = saved_text es ++ of_string "," ++ e.
Proof. unfold saved_text. rewrite map_app, concat_app, <- app_assoc. cbn. by rewrite app_nil_r. Qed.

Lemma saved_state_some l0 link0 es : es <> [] ->
  saved_state l0 link0 es =
  {| hash := saved_text es;
     location_hash := if hash_starts_with savequeries l0 then of_string "#savequeries&" ++ saved_text es else l0;
     link_href := (fun _ => of_string "/#" ++ saved_text es) <$> link0 |}.
Proof. by destruct es. Qed.

Lemma push_saved l0 link0 es q e : encodeURIComponent (extraswaps q) = Some e ->
  pushInputToHistory q (saved_state l0 link0 es) = Some (saved_state l0 link0 (es ++ [e])).
Proof.
  intros He. unfold pushInputToHistory. rewrite He. f_equal.
  destruct es as [|e0 es].
  - cbn [saved_state app hash location_hash link_href]. unfold saved_text. cbn [map concat].
    rewrite app_nil_r. by destruct link0.
  - set (l := e0 :: es). rewrite (saved_state_some l0 link0 (l ++ [e])) by done.
    rewrite (saved_state_some l0 link0 l) by done. cbn [hash location_hash link_href].
    rewrite saved_text_snoc.
    change (match saved_text l with [] => of_string "queries=v0" | _ :: _ => saved_text l end) with (saved_text l).
    f_equal; [|by destruct link0].
    fold savequeries. destruct (hash_starts_with savequeries l0) eqn:E; [done|by rewrite E].
Qed.

Lemma push_queries_saved l0 link0 qs : Forall (fun q => well_formed q = true) qs -> forall es,
  exists es', Forall2 encoded qs es' /\
    push_queries qs (saved_state l0 link0 es) = Some (saved_state l0 link0 (es ++ es')).
Proof.
  induction 1 as [|q qs Hq _ IH]; intros es.
  - exists []. split; [done|]. by rewrite app_nil_r.
  - destruct (encode_query q Hq) as (e & He & Hen). destruct (IH (es ++ [e])) as (es' & Hes & Hp).
    exists (e :: es'). split; [by constructor|]. cbn [push_queries]. rewrite (push_saved _ _ _ _ _ He). cbn [mbind option_bind].
    by rewrite Hp, <- app_assoc.
Qed.

(** C36: Queries kept in the address are the queries a visit to it runs: whatever their
    text, a visit to the link, and to the page's own address if it asks to save queries,
    gets all of them, in order. *)
Theorem saved_queries_come_back qs l0 link0 :
  qs <> [] -> Forall (fun q => well_formed q = true) qs ->
  exists s h,
    push_queries qs {| hash := []; location_hash := l0; link_href := link0 |} = Some s /\
    link_href s = (fun _ => of_string "/#" ++ h) <$> link0 /\ queries_of_hash (ch "#" :: h) = Some qs /\
    (if hash_starts_with savequeries l0 then queries_of_hash (location_hash s) = Some qs else location_hash s = l0).
Proof.
  intros Hn Hq. destruct (push_queries_saved l0 link0 qs Hq []) as (es & He & Hp).
  exists (saved_state l0 link0 es), (saved_text es). cbn [app] in Hp. split; [exact Hp|].
  destruct es as [|e es]; [by apply Forall2_nil_inv_r in He|]. split; [done|]. split.
  - apply (queries_read_back [ch "#"] qs _); [|done]. by apply (bool_decide_unpack _).
  - cbn [saved_state location_hash]. destruct (hash_starts_with savequeries l0) eqn:E; [|done].
    apply queries_read_back; [|done]. by apply (bool_decide_unpack _).
Qed.

(** [select 'é;', '😀'] with a comma, escapes and a pair of surrogates. *)
Definition sample_queries : list js_string :=
  [of_string "select 1 - 2;"; of_string "select '" ++ [233; 44; 55357; 56832; 126] ++ of_string "%2C'"].

Lemma saved_queries_come_back_witness :
  exists s h,
    push_queries sample_queries {| hash := []; location_hash := savequeries; link_href := Some [] |} = Some s /\
    link_href s = Some (of_string "/#" ++ h) /\ queries_of_hash (ch "#" :: h) = Some sample_queries /\
    queries_of_hash (location_hash s) = Some sample_queries.
Proof.
  apply (saved_queries_come_back sample_queries savequeries (Some [])); [done|].
  by apply (bool_decide_unpack _).
Defined.

(** ** The file picker *)

(** A change that comes before the timer: the files are registered, once, and counted. *)
Lemma picked_files_are_registered files :
  let s := pick_event Pick_timer (pick_event (Pick_change files) (pick_event Pick_focus (pick_event Pick_click picker_new))) in
  result s = Some (length files) /\ calls s = files ≫= fun name => [(name, false); (name, true)].
Proof. done. Qed.

(** One that comes later: the call has returned that no file was picked. *)
Lemma late_changes_are_not_counted files :
  let s := pick_event (Pick_change files) (pick_event Pick_timer (pick_event Pick_focus (pick_event Pick_click picker_new))) in
  result s = Some 0%nat /\ calls s = files ≫= fun name => [(name, false); (name, true)].
Proof. done. Qed.
