(* ===== verification/ShellEmbed.v ===== *)
(** * ShellEmbed: how the shell starts ([packages/duckdb-wasm-shell/src/shell.ts], [embed])

    [embed] loads the shell's own module, puts the terminal into its container, waits for
    the database, restores the history, attaches the database and hands over the queries
    of the address.  The terminal, which is in Rust, is the list of the calls it gets;
    what the page's promises come to is a [World].  The history store and the coding of
    queries are those of [Shell]. *)
From S2P Require Import Prelude Shell ShellFacts.
From stdpp Require Import base tactics list strings.
From Stdlib Require Import ZArith Lia.
Open Scope Z_scope.

(** ** The line that tells the progress *)

(** [s.repeat(n)]; [None] is a [RangeError]. *)
Fixpoint repeat_string (s : string) (n : nat) : string :=
  match n with O => "" | S n' => s +:+ repeat_string s n' end.
Definition js_repeat (s : string) (n : Z) : option string :=
  if n <? 0 then None else Some (repeat_string s (Z.to_nat n)).

(** The bar of [progressHandler]; [tenths] is [Math.floor((loaded / total) * 10.0)]. *)
Definition progress_blocks (tenths : Z) : Z := Z.max (Z.min tenths 10) 0.
Definition progress_bar (tenths : Z) : option string :=
  hashes ← js_repeat "#" (progress_blocks tenths);
  dashes ← js_repeat "-" (10 - progress_blocks tenths);
  Some (hashes +:+ dashes).

Lemma string_length_app (s t : string) : String.length (s +:+ t) = (String.length s + String.length t)%nat.
Proof. induction s as [|c s IH]; [done|]. change (String.String c s +:+ t) with (String.String c (s +:+ t)). cbn [String.length Nat.add]. by rewrite IH. Qed.

Lemma repeat_string_length s n : String.length (repeat_string s n) = (n * String.length s)%nat.
Proof. induction n as [|n IH]; [done|]. cbn [repeat_string]. rewrite string_length_app, IH. lia. Qed.

(** Whatever the event says, more bytes than expected or fewer than none, the bar is
    drawn, and has ten characters. *)
Lemma progress_bar_has_ten_characters tenths : exists bar, progress_bar tenths = Some bar /\ String.length bar = 10%nat.
Proof.
  assert (0 <= progress_blocks tenths <= 10) as H by (unfold progress_blocks; lia).
  unfold progress_bar, js_repeat. destruct (Z.ltb_spec (progress_blocks tenths) 0); [lia|].
  destruct (Z.ltb_spec (10 - progress_blocks tenths) 0); [lia|]. eexists. split; [done|].
  rewrite string_length_app, !repeat_string_length. cbn. lia.
Qed.

(** ** Where the shell's module is *)

(** [getJsDelivrModule] of [platform.ts]. *)
Definition getJsDelivrModule (PACKAGE_NAME PACKAGE_VERSION : string) : string :=
  let jsdelivr_dist_url := "https://cdn.jsdelivr.net/npm/" +:+ PACKAGE_NAME +:+ "@" +:+ PACKAGE_VERSION +:+ "/dist/" in
  jsdelivr_dist_url +:+ "dist/shell_bg.wasm".

(** The package keeps the module at [dist/shell_bg.wasm]; the URL has [dist] twice. *)
Lemma module_url_has_dist_twice :
  getJsDelivrModule "shell" "1.0.0" = "https://cdn.jsdelivr.net/npm/shell@1.0.0/dist/dist/shell_bg.wasm".
Proof. reflexivity. Qed.

(** ** The start *)

Inductive Effect :=
| X_default
| X_embed (fontFamily backgroundColor : string) (defaultExtensions : option (list string))
| X_line (ok : bool) (label : string)
| X_progress (tenths : Z)
| X_loadHistory (hist : list string) (cursor : Z)
| X_configureDatabase (db : option Z)
| X_passInitQueries (sqls : list js_string).

Record ShellProps := { fontFamily : option string; backgroundColor : option string; defaultExtensions : option (list string) }.

(** What the promises come to: of the module, of the database, after some events, and of
    the history's database. *)
Record World := {
  module_error : option JsError;
  progress : list Z;
  resolved : Outcome Z;
  history_opens : OpenResult;
  page_hash : js_string
}.

Record EmbedState := { effects : list Effect; database : option Z; history : HistoryStore }.
Definition emit (x : Effect) : JS EmbedState unit := modify (fun s =>
  {| effects := effects s ++ [x]; database := database s; history := history s |}).
Definition set_database (db : Z) : JS EmbedState unit := modify (fun s =>
  {| effects := effects s; database := Some db; history := history s |}).
Definition set_history (h : HistoryStore) : JS EmbedState unit := modify (fun s =>
  {| effects := effects s; database := database s; history := h |}).
Definition outcome {A} (o : Outcome A) : JS EmbedState A :=
  match o with Normal a => ret a | Thrown e => throw e end.

Definition step (label : string) (work : JS EmbedState unit) : JS EmbedState unit :=
  emit (X_line false label) ;;; work ;;; emit (X_line true label).

Definition URIError : JsError := MkError "URIError" "URI malformed" None.

Definition embed (props : ShellProps) (w : World) : JS EmbedState unit :=
  outcome (match module_error w with Some e => Thrown e | None => Normal tt end) ;;;
  emit X_default ;;;
  emit (X_embed (default "monospace" (fontFamily props)) (default "#333" (backgroundColor props)) (defaultExtensions props)) ;;;
  emit (X_line false "Instantiating Haybarn") ;;;
  for_of (progress w) (fun t => emit (X_progress t)) ;;;
  let! db := outcome (resolved w) in
  set_database db ;;;
  emit (X_line true "Instantiating Haybarn") ;;;
  step "Loading Shell History" (
    let! h := gets history in
    set_history (open (history_opens w) h) ;;;
    let! h := gets history in
    let! l := outcome (load h) in
    emit (X_loadHistory l.1 l.2)) ;;;
  step "Attaching Shell" (let! d := gets database in emit (X_configureDatabase d)) ;;;
  let! sqls := outcome (match queries_of_hash (page_hash w) with Some l => Normal l | None => Thrown URIError end) in
  step "Rewinding history!" (emit (X_passInitQueries sqls)).

Definition new_shell (d : Database) : EmbedState := {| effects := []; database := None; history := history_new d |}.

(** What is done before the history is loaded. *)
Definition greeting (props : ShellProps) (w : World) : list Effect :=
  [X_default; X_embed (default "monospace" (fontFamily props)) (default "#333" (backgroundColor props)) (defaultExtensions props);
   X_line false "Instantiating Haybarn"] ++ map X_progress (progress w).
(** What follows when the database is there. *)
Definition attaching (db : Z) (l : list string * Z) : list Effect :=
  [X_line true "Instantiating Haybarn"; X_line false "Loading Shell History"; X_loadHistory l.1 l.2;
   X_line true "Loading Shell History"; X_line false "Attaching Shell"; X_configureDatabase (Some db);
   X_line true "Attaching Shell"].
Definition rewinding (sqls : list js_string) : list Effect :=
  [X_line false "Rewinding history!"; X_passInitQueries sqls; X_line true "Rewinding history!"].

(** The history a shell finds, however its database opens. *)
Definition found (d : Database) (r : OpenResult) : HistoryStore := open r (history_new d).

Lemma found_loads d r : exists l, load (found d r) = Normal l.
Proof.
  unfold load, found, open. destruct r; cbn; [by eexists|..]; [|by eexists].
  case_match; by eexists.
Qed.

Lemma emit_all l s : for_of l (fun t => emit (X_progress t)) s =
  (Normal tt, {| effects := effects s ++ map X_progress l; database := database s; history := history s |}).
Proof.
  revert s. induction l as [|t l IH]; intros s; [destruct s; cbn; by rewrite app_nil_r|].
  cbn. unfold bind. cbn. rewrite IH. cbn. by rewrite <- app_assoc.
Qed.

(** [embed] on every outcome of the page's promises.  Without the shell's module
    nothing is done; without the database the terminal is there, and neither history nor
    queries are; with it the history is loaded first, however its database opened, then
    the database is attached, then the queries of the address are passed, and an address
    that cannot be decoded makes [embed] reject after the shell is attached. *)
Lemma embed_outcomes props w d :
  let s' := found d (history_opens w) in
  exists l, load s' = Normal l /\
  embed props w (new_shell d) =
    match module_error w, resolved w, queries_of_hash (page_hash w) with
    | Some e, _, _ => (Thrown e, new_shell d)
    | None, Thrown e, _ => (Thrown e, {| effects := greeting props w; database := None; history := history_new d |})
    | None, Normal db, None =>
        (Thrown URIError, {| effects := greeting props w ++ attaching db l; database := Some db; history := s' |})
    | None, Normal db, Some sqls =>
        (Normal tt, {| effects := greeting props w ++ attaching db l ++ rewinding sqls; database := Some db; history := s' |})
    end.
Proof.
  intros s'. destruct (found_loads d (history_opens w)) as [l Hl]. exists l. split; [done|].
  unfold embed. destruct (module_error w) as [e|]; [done|]. unfold bind at 1. cbn [outcome ret].
  unfold bind at 1. cbn [emit modify]. unfold bind at 1. cbn [emit modify]. unfold bind at 1. cbn [emit modify].
  unfold bind at 1. rewrite emit_all. cbn [effects database history new_shell app].
  destruct (resolved w) as [db|e]; [|done]. unfold s' in *. unfold found in *.
  unfold step, set_database, set_history, gets, modify, emit, bind, outcome, ret. cbn. unfold modify. cbn.
  rewrite Hl. destruct (queries_of_hash (page_hash w)) as [sqls|]; cbn; unfold throw; f_equal; f_equal;
    unfold greeting, attaching, rewinding; cbn; by rewrite <- !app_assoc.
Qed.

(** A visit to the address in which a shell kept its queries replays them: once the
    module and the database are there, the history is shown, the database attached, and
    then exactly those queries are passed, in order and unchanged. *)
Theorem saved_queries_are_replayed props w d db qs l0 link0 :
  qs <> [] -> Forall (fun q => well_formed q = true) qs -> hash_starts_with savequeries l0 = true ->
  module_error w = None -> resolved w = Normal db ->
  exists s l, push_queries qs {| hash := []; location_hash := l0; link_href := link0 |} = Some s /\
    load (found d (history_opens w)) = Normal l /\
    (page_hash w = location_hash s ->
     embed props w (new_shell d) =
       (Normal tt, {| effects := greeting props w ++ attaching db l ++ rewinding qs; database := Some db;
                      history := found d (history_opens w) |})).
Proof.
  intros Hn Hq Hl0 Hm Hr. destruct (push_queries_saved l0 link0 qs Hq []) as (es & He & Hp).
  destruct (embed_outcomes props w d) as (l & Hl & Hout).
  exists (saved_state l0 link0 es), l. cbn [app] in Hp. split; [exact Hp|]. split; [done|]. intros Hpage.
  destruct es as [|e es]; [by apply Forall2_nil_inv_r in He|].
  rewrite Hout, Hm, Hr, Hpage. cbn [saved_state location_hash]. rewrite Hl0.
  rewrite (queries_read_back (of_string "#savequeries&") qs (e :: es)); [done|by apply (bool_decide_unpack _)|done].
Qed.

Definition sample_world : World :=
  {| module_error := None; progress := [3; 10; 12]; resolved := Normal 1; history_opens := Open_upgrade;
     page_hash := of_string "#savequeries&queries=v0,SELECT-1~" |}.
Definition sample_props : ShellProps := {| fontFamily := None; backgroundColor := None; defaultExtensions := Some [] |}.

Lemma saved_queries_are_replayed_witness :
  let qs := [of_string "SELECT 1;"] in
  exists l, embed sample_props sample_world (new_shell createSchema) =
    (Normal tt, {| effects := greeting sample_props sample_world ++ attaching 1 l ++ rewinding qs; database := Some 1;
                   history := found createSchema Open_upgrade |}).
Proof.
  intros qs.
  destruct (saved_queries_are_replayed sample_props sample_world createSchema 1 qs savequeries None
    ltac:(discriminate) ltac:(by repeat constructor) ltac:(vm_compute; reflexivity) eq_refl eq_refl) as (s & l & Hp & Hl & H).
  exists l. apply H. vm_compute in Hp. injection Hp as <-. vm_compute. reflexivity.
Defined.

(** An address that cannot be decoded: the shell is attached, and [embed] rejects. *)
Lemma malformed_addresses_reject :
  let w := {| module_error := None; progress := []; resolved := Normal 1; history_opens := Open_failed;
              page_hash := of_string "#queries=v0,%E4" |} in
  (embed sample_props w (new_shell createSchema)).1 = Thrown URIError /\
  X_configureDatabase (Some 1) ∈ effects (embed sample_props w (new_shell createSchema)).2.
Proof. split; [vm_compute; reflexivity|]. apply list_elem_of_In. vm_compute. tauto. Qed.
