(* ===== verification/EngineCalls.v ===== *)
(** * EngineCalls: how the engine's calls reach the runtime, and messages the dispatcher

    The engine imports functions ([lib/js-stubs.js]) that forward to
    [globalThis.DUCKDB_RUNTIME], which the bindings of a platform set: to the runtime of the
    browser itself, to a copy under Node ([node_runtime_properties] of [Instantiate]) and in
    a thread's worker.  The entry points under [targets/] connect a worker's messages to
    the dispatcher. *)
From S2P Require Import Prelude Data JsMap Protocol Instantiate.
From stdpp Require Import base tactics list strings.
From Stdlib Require Import ZArith Ascii Lia.
Open Scope string_scope.

(** ** The stubs *)

(** A stub: its name, its signature in wasm types (the result first), its parameters, and
    the call it makes. *)
Record Stub := {
  stub_name : string;
  stub_sig : option string;
  formals : list string;
  target : string;
  actuals : list string
}.
Definition stub (name : string) (sig : option string) (formals : list string) (target : string)
    (actuals : list string) : Stub :=
  {| stub_name := name; stub_sig := sig; formals := formals; target := target; actuals := actuals |}.

Definition stubs : list Stub := [
  stub "duckdb_web_test_platform_feature" (Some "ii")
    ["feature"]
    "testPlatformFeature" ["Module"; "feature"];
  stub "duckdb_web_fs_get_default_data_protocol" (Some "i")
    ["Module"]
    "getDefaultDataProtocol" ["Module"];
  stub "duckdb_web_fs_file_open" (Some "pii")
    ["fileId"; "flags"]
    "openFile" ["Module"; "fileId"; "flags"];
  stub "duckdb_web_fs_file_sync" (Some "vi")
    ["fileId"]
    "syncFile" ["Module"; "fileId"];
  stub "duckdb_web_fs_file_drop_file" (Some "vpi")
    ["fileName"; "fileNameLen"]
    "dropFile" ["Module"; "fileName"; "fileNameLen"];
  stub "duckdb_web_fs_file_close" (Some "vi")
    ["fileId"]
    "closeFile" ["Module"; "fileId"];
  stub "duckdb_web_fs_file_truncate" (Some "vid")
    ["fileId"; "newSize"]
    "truncateFile" ["Module"; "fileId"; "newSize"];
  stub "duckdb_web_fs_file_read" (Some "iipid")
    ["fileId"; "buf"; "size"; "location"]
    "readFile" ["Module"; "fileId"; "buf"; "size"; "location"];
  stub "duckdb_web_fs_file_write" (Some "iipid")
    ["fileId"; "buf"; "size"; "location"]
    "writeFile" ["Module"; "fileId"; "buf"; "size"; "location"];
  stub "duckdb_web_fs_file_get_last_modified_time" (Some "di")
    ["fileId"]
    "getLastFileModificationTime" ["Module"; "fileId"];
  stub "duckdb_web_fs_directory_exists" (Some "ipi")
    ["path"; "pathLen"]
    "checkDirectory" ["Module"; "path"; "pathLen"];
  stub "duckdb_web_fs_directory_create" (Some "vpi")
    ["path"; "pathLen"]
    "createDirectory" ["Module"; "path"; "pathLen"];
  stub "duckdb_web_fs_directory_remove" (Some "vpi")
    ["path"; "pathLen"]
    "removeDirectory" ["Module"; "path"; "pathLen"];
  stub "duckdb_web_fs_directory_list_files" (Some "ipi")
    ["path"; "pathLen"]
    "listDirectoryEntries" ["Module"; "path"; "pathLen"];
  stub "duckdb_web_fs_glob" (Some "vpi")
    ["path"; "pathLen"]
    "glob" ["Module"; "path"; "pathLen"];
  stub "duckdb_web_fs_file_move" (Some "vpipi")
    ["from"; "fromLen"; "to"; "toLen"]
    "moveFile" ["Module"; "from"; "fromLen"; "to"; "toLen"];
  stub "duckdb_web_fs_file_exists" (Some "ipi")
    ["path"; "pathLen"]
    "checkFile" ["Module"; "path"; "pathLen"];
  stub "duckdb_web_fs_file_remove" (None)
    ["path"; "pathLen"]
    "removeFile" ["Module"; "path"; "pathLen"];
  stub "duckdb_web_udf_scalar_call" (Some "vpipipi")
    ["funcId"; "descPtr"; "descSize"; "ptrsPtr"; "ptrsSize"; "response"]
    "callScalarUDF" ["Module"; "funcId"; "descPtr"; "descSize"; "ptrsPtr"; "ptrsSize"; "response"]
].

Section Calls.
Context {V : Type}.

(** A name in the body of a stub: a parameter, [None] if the engine passed nothing for it,
    or the global [Module]. *)
Definition resolve_name (Module : V) (params : list string) (args : list V) (x : string) : option V :=
  match list_find (fun p => p = x) params with
  | Some (i, _) => args !! i
  | None => if String.eqb x "Module" then Some Module else None
  end.

(** The call of the runtime that a call of the stub makes. *)
Definition call_stub (Module : V) (st : Stub) (args : list V) : string * list (option V) :=
  (target st, map (resolve_name Module (formals st) args) (actuals st)).
End Calls.

(** ** The runtimes: the properties of each object, a function by its number of parameters *)
Inductive Property := value | fn (params : nat).
#[export] Instance Property_eq_dec : EqDecision Property.
Proof. solve_decision. Defined.
Abbreviation RuntimeTable := (list (string * Property)).

Definition BROWSER_RUNTIME : RuntimeTable := [
   ("_files", value); ("_fileInfoCache", value); ("_udfFunctions", value); ("_globalFileInfo", value); ("_preparedHandles", value); ("_opfsRoot", value); ("getFileInfo", fn 2); ("getGlobalFileInfo", fn 1); ("assignOPFSRoot", fn 0); ("prepareFileHandles", fn 2); ("prepareDBFileHandle", fn 2); ("testPlatformFeature", fn 2); ("getDefaultDataProtocol", fn 1); ("openFile", fn 3); ("glob", fn 3); ("checkFile", fn 3); ("syncFile", fn 2);
   ("closeFile", fn 2); ("dropFile", fn 3); ("truncateFile", fn 3); ("readFile", fn 5); ("writeFile", fn 5); ("getLastFileModificationTime", fn 2); ("progressUpdate", fn 3); ("checkDirectory", fn 3); ("createDirectory", fn 3); ("removeDirectory", fn 3); ("listDirectoryEntries", fn 3); ("moveFile", fn 5); ("removeFile", fn 3); ("callScalarUDF", fn 7)
].
Definition NODE_RUNTIME : RuntimeTable := [
   ("_files", value); ("_filesById", value); ("_fileInfoCache", value); ("_udfFunctions", value); ("resolveFileInfo", fn 2); ("testPlatformFeature", fn 2); ("getDefaultDataProtocol", fn 1); ("openFile", fn 3); ("syncFile", fn 2); ("closeFile", fn 2); ("dropFile", fn 3); ("truncateFile", fn 3); ("readFile", fn 5); ("writeFile", fn 5); ("progressUpdate", fn 3); ("getLastFileModificationTime", fn 2); ("checkDirectory", fn 3); ("createDirectory", fn 3); ("removeDirectory", fn 3); ("listDirectoryEntries", fn 3); ("glob", fn 3); ("moveFile", fn 5); ("checkFile", fn 3); ("removeFile", fn 3); ("callScalarUDF", fn 7)
].
Definition DEFAULT_RUNTIME : RuntimeTable := [
   ("_udfFunctions", value); ("testPlatformFeature", fn 2); ("getDefaultDataProtocol", fn 1); ("openFile", fn 3);
   ("syncFile", fn 2); ("closeFile", fn 2); ("dropFile", fn 3); ("getLastFileModificationTime", fn 2); ("progressUpdate", fn 3); ("truncateFile", fn 3); ("readFile", fn 5); ("writeFile", fn 5); ("removeDirectory", fn 3);
   ("checkDirectory", fn 3); ("createDirectory", fn 3); ("listDirectoryEntries", fn 3); ("glob", fn 3); ("moveFile", fn 5); ("checkFile", fn 3); ("removeFile", fn 3); ("callScalarUDF", fn 7)
].

(** What the functions of [DEFAULT_RUNTIME] return, [undefined] and [false] as a zero; a call
    of a scalar function goes to [callScalarUDF]. *)
Definition default_result (name : string) : option Z :=
  if String.eqb name "callScalarUDF" then None
  else if String.eqb name "getDefaultDataProtocol" then Some (protocol_number BUFFER)
  else match mget name DEFAULT_RUNTIME with Some (fn _) => Some 0%Z | _ => None end.

(** The loop that copies a runtime in a thread's worker. *)
Definition pthread_runtime_properties {V} (runtime : list (string * V)) : list (string * V) :=
  foldl (fun acc p => if String.eqb p.1 "constructor" then acc else mset p.1 p.2 acc) [] runtime.

(** [globalThis.DUCKDB_RUNTIME] wherever the engine runs. *)
Inductive Place := In_browser | In_browser_thread | In_node.
Definition DUCKDB_RUNTIME (p : Place) : RuntimeTable :=
  match p with
  | In_browser => BROWSER_RUNTIME
  | In_browser_thread => pthread_runtime_properties BROWSER_RUNTIME
  | In_node => node_runtime_properties NODE_RUNTIME
  end.

(** ** The entry points *)

(** The types of the messages that [handlePreInitMessage] takes. *)
Definition pre_init_type (t : string) : bool := String.eqb t "init-oauth-sab" || String.eqb t "init-cancel-sab".
Inductive Route := To_globals | To_dispatcher.
(** [globalThis.onmessage] of [registerWorker], by the type of the message. *)
Definition onmessage (type : string) : Route := if pre_init_type type then To_globals else To_dispatcher.

Inductive BindingsVariant := Browser_mvp | Browser_eh | Browser_coi | Node_mvp | Node_eh.
(** [instantiate] of the worker class: the bindings are made with this runtime. *)
Definition instantiate_runtime (b : BindingsVariant) : RuntimeTable :=
  match b with Browser_mvp | Browser_eh | Browser_coi => BROWSER_RUNTIME | Node_mvp | Node_eh => NODE_RUNTIME end.
Definition place_of (b : BindingsVariant) : Place :=
  match b with Browser_mvp | Browser_eh | Browser_coi => In_browser | Node_mvp | Node_eh => In_node end.

(** ** What holds of them *)

(** A stub whose parameters do not hide [Module]. *)
Definition passes_module (st : Stub) : bool := negb (bool_decide ("Module" ∈ formals st)).

(** The runtime has the function a stub calls, with a parameter for the module and one for
    each argument of the stub. *)
Definition reaches (r : RuntimeTable) (st : Stub) : bool :=
  bool_decide (mget (target st) r = Some (fn (length (actuals st)))).
(** Its signature has a result and the parameters. *)
Definition signed (st : Stub) : bool :=
  match stub_sig st with Some s => Nat.eqb (String.length s) (S (length (formals st))) | None => true end.

Lemma stub_arguments {V} (Module : V) st args :
  st ∈ stubs -> passes_module st = true -> length args = length (formals st) ->
  (call_stub Module st args).2 = Some <$> Module :: args.
Proof.
  intros Hst. unfold call_stub. apply list_elem_of_In in Hst.
  repeat (destruct Hst as [<-|Hst]; [cbn [formals]; intros Hp Hl;
    do 7 (destruct args as [|? args]; try discriminate Hl; try (reflexivity || discriminate Hp))|]).
  destruct Hst.
Qed.

(** Every call of the engine arrives: its stub hands the module and all arguments, in
    order, to a function that the runtime of the place has, with as many parameters. *)
Theorem stubs_reach_the_runtime {V} (Module : V) place st args :
  st ∈ stubs -> passes_module st = true -> length args = length (formals st) ->
  call_stub Module st args = (target st, Some <$> Module :: args) /\
  mget (target st) (DUCKDB_RUNTIME place) = Some (fn (S (length args))) /\ signed st = true.
Proof.
  intros Hst Hp Hl. split; [|split].
  - rewrite <- (stub_arguments Module st args) by done. done.
  - assert (forallb (fun st => negb (passes_module st) ||
      (Nat.eqb (length (actuals st)) (S (length (formals st))) && reaches (DUCKDB_RUNTIME place) st)) stubs = true) as H
      by (destruct place; vm_compute; reflexivity).
    rewrite forallb_forall in H. specialize (H st (proj1 (list_elem_of_In _ _) Hst)). rewrite Hp in H. cbn in H.
    apply andb_true_iff in H as [Ha%Nat.eqb_eq Hr%bool_decide_eq_true]. by rewrite Hr, Ha, Hl.
  - assert (forallb (fun st => negb (passes_module st) || signed st) stubs = true) as H by (vm_compute; reflexivity).
    rewrite forallb_forall in H. specialize (H st (proj1 (list_elem_of_In _ _) Hst)). by rewrite Hp in H.
Qed.

(** Under Node the file is read by the function of [NODE_RUNTIME], with the module first. *)
Lemma stubs_reach_the_runtime_witness :
  let st := stub "duckdb_web_fs_file_read" (Some "iipid") ["fileId"; "buf"; "size"; "location"]
              "readFile" ["Module"; "fileId"; "buf"; "size"; "location"] in
  call_stub 100%Z st [1; 2; 3; 4]%Z = ("readFile", Some <$> [100; 1; 2; 3; 4]%Z) /\
  mget "readFile" (DUCKDB_RUNTIME In_node) = Some (fn 5) /\ signed st = true.
Proof.
  intros st. apply (stubs_reach_the_runtime 100%Z In_node st [1; 2; 3; 4]%Z); [|done|done].
  apply list_elem_of_In. do 7 right. left. reflexivity.
Defined.

(** The one stub that hides [Module]: the engine passes nothing, so the runtime gets no
    module.  No runtime uses it. *)
Lemma data_protocol_gets_no_module {V} (Module : V) st :
  st ∈ stubs -> passes_module st = false ->
  call_stub Module st [] = ("getDefaultDataProtocol", [None]) /\ signed st = false.
Proof.
  intros Hst. apply list_elem_of_In in Hst.
  repeat (destruct Hst as [<-|Hst]; [first [discriminate|done]|]). destruct Hst.
Qed.

(** The bindings of a worker get the runtime that the engine's calls go to. *)
Lemma bindings_share_the_runtime b : DUCKDB_RUNTIME (place_of b) = instantiate_runtime b.
Proof. by destruct b. Qed.

(** No request is taken for a message of the setup. *)
Lemma requests_reach_the_dispatcher t : onmessage (request_type_string t) = To_dispatcher.
Proof. by destruct t. Qed.
