(* ===== verification/React.v ===== *)
(** * React: the providers of [packages/react-duckdb]

    A function component keeps its state in React ([useState], [useRef]); a callback made
    with [useCallback] keeps the values of the render that made it, until one of its
    dependencies changes.  Each provider is a record of its state, with what its callback
    has captured where that differs, and a function for each event.  Objects are truthy,
    so [value || null] is the value. *)
From S2P Require Import Prelude.
From stdpp Require Import base tactics list gmap strings.
From Stdlib Require Import ZArith Lia.

(** ** [resolvable.ts] *)
Inductive ResolvableStatus := NONE | RUNNING | FAILED | COMPLETED.
#[export] Instance ResolvableStatus_eq_dec : EqDecision ResolvableStatus.
Proof. solve_decision. Defined.

Record Resolvable (V : Type) := MkResolvable {
  status : ResolvableStatus;
  value : option V;
  error : option string;
  progress : option Z
}.
Arguments MkResolvable {V}. Arguments status {V}. Arguments value {V}. Arguments error {V}. Arguments progress {V}.

Section Resolvable.
Context {V : Type}.
Definition new_resolvable : Resolvable V := MkResolvable NONE None None None.
Definition resolving (r : Resolvable V) : bool := negb (bool_decide (status r = NONE)).
Definition completeWith (v : V) (p : option Z) (r : Resolvable V) : Resolvable V :=
  MkResolvable COMPLETED (Some v) (error r) p.
Definition failWith (e : string) (p : option Z) (r : Resolvable V) : Resolvable V :=
  MkResolvable FAILED (value r) (Some e) p.
Definition updateRunning (p : option Z) (r : Resolvable V) : Resolvable V :=
  MkResolvable RUNNING (value r) (error r) p.
End Resolvable.

(** ** [platform_provider.tsx] *)

(** The resolver depends on the bundles alone: the [bundle] it looks at is the one of the
    render that made it.  Its promise, if any, is settled or not; [selects] counts the calls
    of [selectBundle]. *)
Inductive InFlight := Pending | Settled (bundle : option Z).
Record PlatformProvider := {
  bundle : Resolvable Z;
  captured_bundle : Resolvable Z;
  bundle_inFlight : option InFlight;
  selects : nat
}.
Definition new_platform : PlatformProvider :=
  {| bundle := new_resolvable; captured_bundle := new_resolvable; bundle_inFlight := None; selects := 0 |}.

(** A call of the resolver, up to where it waits.  [named] is the bundle the address asks
    for, if there is one of that name: then the body does not wait, and the promise is
    kept after the body has cleared it. *)
Inductive ResolverAnswer := Answered (bundle : option Z) | Waits.
Definition resolve_bundle (named : option Z) (s : PlatformProvider) : ResolverAnswer * PlatformProvider :=
  match error (captured_bundle s), value (captured_bundle s), bundle_inFlight s with
  | Some _, _, _ => (Answered None, s)
  | None, Some b, _ => (Answered (Some b), s)
  | None, None, Some (Settled b) => (Answered b, s)
  | None, None, Some Pending => (Waits, s)
  | None, None, None =>
      let running := updateRunning None (bundle s) in
      match named with
      | Some b =>
          (Answered (Some b),
           {| bundle := completeWith b None running; captured_bundle := captured_bundle s;
              bundle_inFlight := Some (Settled (Some b)); selects := selects s |})
      | None =>
          (Waits,
           {| bundle := running; captured_bundle := captured_bundle s; bundle_inFlight := Some Pending;
              selects := S (selects s) |})
      end
  end.
(** [selectBundle] returns, or throws. *)
Definition bundle_selected (r : Outcome Z) (s : PlatformProvider) : PlatformProvider :=
  match bundle_inFlight s with
  | Some Pending =>
      {| bundle := match r with
                   | Normal b => completeWith b None (bundle s)
                   | Thrown e => failWith (err_message e) None (bundle s)
                   end;
         captured_bundle := captured_bundle s; bundle_inFlight := None; selects := selects s |}
  | _ => s
  end.

(** ** [database_provider.tsx] *)

(** Where the one run of the resolver's body is. *)
Inductive SetupStage :=
| At_start | At_bundle | At_instantiate (db : Z) | At_open (db : Z) | At_end (result : option Z).
Record DatabaseProvider := {
  setup : Resolvable Z;
  stage : SetupStage;
  (** the ref [worker], that the cleanup reads; the resolver has a variable of that name *)
  worker_ref : option Z;
  (** workers that were made, and those that were terminated *)
  workers : list Z;
  terminated : list Z
}.
Definition new_database : DatabaseProvider :=
  {| setup := new_resolvable; stage := At_start; worker_ref := None; workers := []; terminated := [] |}.

Definition with_setup (f : Resolvable Z -> Resolvable Z) (st : SetupStage) (s : DatabaseProvider) : DatabaseProvider :=
  {| setup := f (setup s); stage := st; worker_ref := worker_ref s; workers := workers s; terminated := terminated s |}.

Inductive SetupEvent :=
| Ev_resolve                                    (** a call of the resolver *)
| Ev_bundle (bundle : option Z) (made : Outcome Z) (** [resolveBundle] returns; the worker, by the id of its database *)
| Ev_progress (p : Z)
| Ev_instantiated (r : Outcome unit)
| Ev_opened (r : Outcome unit)
| Ev_unmount.

(** [config] is whether the provider was given a configuration. *)
Definition setup_event (config : bool) (e : SetupEvent) (s : DatabaseProvider) : DatabaseProvider :=
  match e, stage s with
  | Ev_resolve, At_start => with_setup id At_bundle s
  | Ev_bundle None _, At_bundle => with_setup (failWith "invalid bundle" None) (At_end None) s
  | Ev_bundle (Some _) (Thrown e), At_bundle => with_setup (failWith (err_message e) None) (At_end None) s
  | Ev_bundle (Some _) (Normal db), At_bundle =>
      {| setup := setup s; stage := At_instantiate db; worker_ref := worker_ref s; workers := db :: workers s;
         terminated := terminated s |}
  | Ev_progress p, At_instantiate db => with_setup (updateRunning (Some p)) (At_instantiate db) s
  | Ev_instantiated (Thrown e), At_instantiate _ => with_setup (failWith (err_message e) None) (At_end None) s
  | Ev_instantiated (Normal _), At_instantiate db =>
      if config then with_setup id (At_open db) s else with_setup (completeWith db None) (At_end (Some db)) s
  | Ev_opened (Thrown e), At_open _ => with_setup (failWith (err_message e) None) (At_end None) s
  | Ev_opened (Normal _), At_open db => with_setup (completeWith db None) (At_end (Some db)) s
  | Ev_unmount, _ =>
      match worker_ref s with
      | Some w =>
          {| setup := setup s; stage := stage s; worker_ref := None; workers := workers s;
             terminated := w :: terminated s |}
      | None => s
      end
  | _, _ => s
  end.
Definition setup_events (config : bool) (es : list SetupEvent) (s : DatabaseProvider) : DatabaseProvider :=
  foldl (fun s e => setup_event config e s) s es.
(** What a call of the resolver returns; [None] while it waits. *)
Definition resolver_answer (s : DatabaseProvider) : option (option Z) :=
  match stage s with At_end r => Some r | _ => None end.

(** ** [connection_provider.tsx] *)

(** The dialer callback depends on the database alone: [dial_pending] is the list of the
    render that made it.  [inFlight] is looked up and deleted from, and nothing is put in;
    [connects] are the calls of [connect] that have not returned. *)
Record ConnectionProvider := {
  db : Resolvable Z;
  pending : list Z;
  dial_pending : list Z;
  pool : gmap Z Z;
  inFlight : gset Z;
  connects : list Z;
  resolves : nat
}.
Definition new_connections (r : Resolvable Z) : ConnectionProvider :=
  {| db := r; pending := []; dial_pending := []; pool := ∅; inFlight := ∅; connects := []; resolves := 0 |}.

(** [dialer], up to the call of [connect] *)
Definition dialer (id : Z) (s : ConnectionProvider) : ConnectionProvider :=
  if bool_decide (id ∈ inFlight s) then s
  else {| db := db s; pending := pending s; dial_pending := dial_pending s; pool := pool s; inFlight := inFlight s;
          connects := connects s ++ [id]; resolves := resolves s |}.

(** The effect on [db] and [pending]. *)
Definition process_pending (s : ConnectionProvider) : ConnectionProvider :=
  match value (db s) with
  | None => s
  | Some _ =>
      foldl (fun s id => dialer id s)
        {| db := db s; pending := []; dial_pending := dial_pending s; pool := pool s; inFlight := inFlight s;
           connects := connects s; resolves := resolves s |} (pending s)
  end.

(** [dialerCallback], and the effect after the render that it causes. *)
Definition dial (id : Z) (s : ConnectionProvider) : ConnectionProvider :=
  match value (db s) with
  | Some _ => dialer id s
  | None =>
      if resolving (db s) then s
      else process_pending
        {| db := db s; pending := dial_pending s ++ [id]; dial_pending := dial_pending s; pool := pool s;
           inFlight := inFlight s; connects := connects s; resolves := S (resolves s) |}
  end.

(** A new database in the context: the callback is made again, and the effect runs. *)
Definition db_changed (r : Resolvable Z) (s : ConnectionProvider) : ConnectionProvider :=
  process_pending
    {| db := r; pending := pending s; dial_pending := pending s; pool := pool s; inFlight := inFlight s;
       connects := connects s; resolves := resolves s |}.

Fixpoint remove_first (id : Z) (l : list Z) : list Z :=
  match l with [] => [] | x :: l' => if decide (id = x) then l' else x :: remove_first id l' end.
(** The [connect] of [id] returns. *)
Definition connected (id conn : Z) (s : ConnectionProvider) : ConnectionProvider :=
  {| db := db s; pending := pending s; dial_pending := dial_pending s; pool := <[id := conn]> (pool s);
     inFlight := inFlight s ∖ {[id]}; connects := remove_first id (connects s); resolves := resolves s |}.

(** ** What they promise *)

(** The setup: one worker at most; its database is the answer of every call, and the value
    in the context, once the setup is over. *)
Record setup_inv (s : DatabaseProvider) : Prop := {
  si_workers : workers s =
    match stage s with
    | At_start | At_bundle => []
    | At_instantiate w | At_open w | At_end (Some w) => [w]
    | At_end None => workers s
    end;
  si_one : length (workers s) <= 1;
  si_ref : worker_ref s = None;
  si_terminated : terminated s = [];
  si_end : match stage s with
    | At_end (Some w) => status (setup s) = COMPLETED /\ value (setup s) = Some w
    | At_end None => status (setup s) = FAILED /\ value (setup s) = None /\ is_Some (error (setup s))
    | _ => value (setup s) = None
    end
}.

Lemma setup_event_inv config e s : setup_inv s -> setup_inv (setup_event config e s).
Proof.
  intros [Hw H1 Hr Ht He].
  destruct e as [|[b|] [w|err]|p|[[]|err]|[[]|err]|], (stage s) as [| |w'|w'|[w'|]] eqn:Es;
    cbn [setup_event]; rewrite ?Es; try (by split; rewrite ?Es);
    try (destruct config);
    try (rewrite Hr; by split; rewrite ?Es);
    split; cbn; rewrite ?Hw in *; cbn in *; try done; try lia; eauto; by rewrite ?Hw.
Qed.

(** However the events of the provider come, it makes at most one worker; when its
    setup is over every call of the resolver gets the database of that worker and the
    context has it, or every call gets null and the context has the error. *)
Theorem database_is_set_up_once config es :
  let s := setup_events config es new_database in
  length (workers s) <= 1 /\
  match resolver_answer s with
  | Some (Some w) => workers s = [w] /\ status (setup s) = COMPLETED /\ value (setup s) = Some w
  | Some None => status (setup s) = FAILED /\ value (setup s) = None /\ is_Some (error (setup s))
  | None => value (setup s) = None
  end.
Proof.
  assert (setup_inv (setup_events config es new_database)) as [Hw H1 _ _ He].
  { unfold setup_events. assert (setup_inv new_database) as Hs by by split; cbn; auto.
    revert Hs. generalize new_database. induction es as [|e es IH]; intros s Hs; cbn; [done|].
    by apply IH, setup_event_inv. }
  cbv zeta. split; [done|]. unfold resolver_answer.
  destruct (stage _) as [| |w|w|[w|]]; done.
Qed.

Lemma database_is_set_up_once_end : resolver_answer
  (setup_events true [Ev_resolve; Ev_bundle (Some 1%Z) (Normal 7%Z); Ev_progress 50%Z; Ev_resolve; Ev_instantiated (Normal tt);
                      Ev_opened (Normal tt)] new_database) = Some (Some 7%Z).
Proof. reflexivity. Qed.

(** The end is final: a call after a failed setup gets null as well. *)
Lemma setup_is_final config es s r : resolver_answer s = Some r -> resolver_answer (setup_events config es s) = Some r.
Proof.
  unfold setup_events, resolver_answer. revert s. induction es as [|e es IH]; intros s Hs; cbn; [done|]. apply IH.
  destruct (stage s) eqn:Es; try done.
  destruct e as [|[b|] [w|err]|p|[[]|err]|[[]|err]|]; cbn [setup_event]; rewrite ?Es; cbn; rewrite ?Es; try done.
  destruct (worker_ref s); cbn; by rewrite ?Es.
Qed.

(** The cleanup finds no worker: the resolver assigned its own variable. *)
Lemma unmount_leaves_the_worker config es :
  terminated (setup_events config (es ++ [Ev_unmount]) new_database) = [].
Proof.
  assert (forall es s, setup_inv s -> setup_inv (setup_events config es s)) as Hi.
  { induction es0 as [|e es0 IH]; intros s Hs; cbn; [done|]. by apply IH, setup_event_inv. }
  apply Hi. by split; cbn; auto.
Qed.

(** The resolver of the platform selects again after each selection, since the bundle it
    looks at is the one before the first. *)
Lemma bundles_are_selected_again b :
  let s := bundle_selected (Normal b) (resolve_bundle None new_platform).2 in
  value (bundle s) = Some b /\ status (bundle s) = COMPLETED /\
  (resolve_bundle None s).1 = Waits /\ selects (resolve_bundle None s).2 = 2 /\
  status (bundle (resolve_bundle None s).2) = RUNNING.
Proof. done. Qed.
(** A named bundle is kept by the promise. *)
Lemma named_bundles_are_kept b c :
  let s := (resolve_bundle (Some b) new_platform).2 in
  resolve_bundle (Some c) s = (Answered (Some b), s) /\ selects s = 0.
Proof. done. Qed.
(** Calls while a selection runs share it. *)
Lemma selections_are_shared named :
  let s := (resolve_bundle None new_platform).2 in resolve_bundle named s = (Waits, s) /\ selects s = 1.
Proof. done. Qed.

(** ** Connections *)

(** Nothing is ever in flight. *)
Lemma dialer_connects id s : inFlight s = ∅ ->
  inFlight (dialer id s) = ∅ /\ connects (dialer id s) = connects s ++ [id] /\ pool (dialer id s) = pool s /\
  db (dialer id s) = db s /\ pending (dialer id s) = pending s /\ resolves (dialer id s) = resolves s /\
  dial_pending (dialer id s) = dial_pending s.
Proof. intros Hs. unfold dialer. rewrite Hs, bool_decide_eq_false_2 by set_solver. done. Qed.

Lemma dialers_connect ids s : inFlight s = ∅ ->
  let s' := foldl (fun s id => dialer id s) s ids in
  inFlight s' = ∅ /\ connects s' = connects s ++ ids /\ db s' = db s /\ pending s' = pending s /\
  resolves s' = resolves s.
Proof.
  revert s. induction ids as [|id ids IH]; intros s Hs; cbn; [by rewrite app_nil_r|].
  destruct (dialer_connects id s Hs) as (H1 & H2 & _ & H4 & H5 & H6 & _).
  destruct (IH _ H1) as (G1 & G2 & G3 & G4 & G5). cbn in *.
  rewrite G2, G3, G4, G5, H2, H4, H5, H6, <- app_assoc. done.
Qed.

(** With a database each dial connects, and the connection is in the pool when it is there. *)
Lemma dials_connect id conn s w : inFlight s = ∅ -> value (db s) = Some w ->
  connects (dial id s) = connects s ++ [id] /\ pool (connected id conn (dial id s)) !! id = Some conn.
Proof.
  intros Hs Hv. unfold dial. rewrite Hv. destruct (dialer_connects id s Hs) as (_ & H2 & _).
  split; [done|]. cbn. by rewrite lookup_insert_eq.
Qed.

(** Two dials of one connection connect twice; the first connection is dropped unclosed. *)
Lemma dials_are_not_shared id c1 c2 s w : inFlight s = ∅ -> value (db s) = Some w -> connects s = [] ->
  let s' := dial id (dial id s) in
  connects s' = [id; id] /\ pool (connected id c2 (connected id c1 s')) !! id = Some c2.
Proof.
  intros Hs Hv Hc. unfold dial at 1 2. cbv zeta. unfold dial. rewrite Hv.
  destruct (dialer_connects id s Hs) as (H1 & H2 & _ & H4 & _). rewrite H4, Hv.
  destruct (dialer_connects id _ H1) as (_ & H2' & _). rewrite H2', H2, Hc. split; [done|].
  cbn. by rewrite lookup_insert_eq.
Qed.

Definition early (l : list Z) (n : nat) : ConnectionProvider :=
  {| db := new_resolvable; pending := l; dial_pending := []; pool := ∅; inFlight := ∅; connects := []; resolves := n |}.

Lemma early_dials ids l n : ids <> [] ->
  exists id, last ids = Some id /\
  foldl (fun s id => dial id s) (early l n) ids = early [id] (n + length ids).
Proof.
  revert l n. induction ids as [|x ids IH]; intros l n Hn; [done|]. cbn [foldl].
  change (dial x (early l n)) with (early [x] (S n)). destruct ids as [|y ids].
  - exists x. cbn. split; [done|]. f_equal. lia.
  - destruct (IH [x] (S n) ltac:(done)) as (id & Hl & He). exists id. rewrite last_cons_cons. split; [done|].
    rewrite He. f_equal. cbn. lia.
Qed.

(** Of the dials before the database is set up only one is served: those made before
    the setup starts replace each other, those made while it runs are dropped.  When the
    database is there the provider connects for the last of the first kind. *)
Theorem only_the_last_early_dial_is_served ids during p w id :
  last ids = Some id ->
  let s := foldl (fun s id => dial id s) (new_connections new_resolvable) ids in
  let s := foldl (fun s id => dial id s) (db_changed (updateRunning p new_resolvable) s) during in
  let s := db_changed (completeWith w None (db s)) s in
  connects s = [id] /\ pending s = [] /\ resolves s = length ids.
Proof.
  intros Hl. assert (ids <> []) as Hn by (intros ->; done).
  change (new_connections new_resolvable) with (early [] 0).
  destruct (early_dials ids [] 0 Hn) as (id' & Hl' & He). rewrite Hl in Hl'. injection Hl' as <-.
  cbv zeta. rewrite He. cbn [plus].
  assert (forall s, db s = updateRunning p new_resolvable -> foldl (fun s id => dial id s) s during = s) as Hd.
  { intros s Hs. induction during as [|x during IH]; cbn; [done|].
    assert (dial x s = s) as -> by (unfold dial; by rewrite Hs). done. }
  rewrite Hd by done. done.
Qed.

Lemma only_the_last_early_dial_is_served_witness :
  last [1; 2; 3]%Z = Some 3%Z /\
  let s := foldl (fun s id => dial id s) (new_connections new_resolvable) [1; 2; 3]%Z in
  let s := foldl (fun s id => dial id s) (db_changed (updateRunning None new_resolvable) s) [4]%Z in
  let s := db_changed (completeWith 9%Z None (db s)) s in
  connects s = [3]%Z /\ pending s = [] /\ resolves s = 3.
Proof. split; [reflexivity|]. exact (only_the_last_early_dial_is_served [1; 2; 3]%Z [4]%Z None 9 3 eq_refl). Defined.
