(* ===== verification/AppWorker.v ===== *)
(** * AppWorker: the worker in front of the hosted shell
    ([packages/duckdb-wasm-app/_worker.js])

    Every request to the site goes through [fetch].  It answers for the threaded wasm
    module itself, from another host, and passes everything else to the static assets; its
    other purpose is the pair of headers that isolates the page, without which there is
    no shared memory.  What the two fetches give is a parameter. *)
From S2P Require Import Prelude.
From stdpp Require Import base tactics list gmap strings pretty.
From Stdlib Require Import ZArith Lia.
Open Scope Z_scope.

(** Headers by their names in lower case. *)
Abbreviation headers := (gmap string string).
Record SiteResponse := { status : Z; header_map : headers; body : option string }.
(** A response is [ok] in the range of success. *)
Definition ok (r : SiteResponse) : bool := (200 <=? status r) && (status r <? 300).

Definition COOP : string := "cross-origin-opener-policy".
Definition COEP : string := "cross-origin-embedder-policy".
Definition cache_control : string := "cache-control".
Definition immutable : string := "public, max-age=31536000, immutable".

Definition withCoiHeaders (resp : SiteResponse) (extra : option (string * string)) : SiteResponse :=
  let h := <[COEP := "require-corp"]> (<[COOP := "same-origin"]> (header_map resp)) in
  {| status := status resp; header_map := match extra with Some (k, v) => <[k := v]> h | None => h end; body := body resp |}.

(** The response to a path; [upstream] and [assets] are what the two fetches give. *)
Definition fetch (upstream : SiteResponse) (assets : string -> SiteResponse) (pathname : string) : SiteResponse :=
  if String.eqb pathname "/wasm/duckdb-coi.wasm" then
    if negb (ok upstream) || bool_decide (body upstream = None) then
      {| status := 502; header_map := ∅;
         body := Some ("upstream wasm fetch failed: " +:+ pretty (status upstream)) |}
    else
      {| status := 200;
         header_map := {["content-type" := "application/wasm"; cache_control := immutable;
                         "cross-origin-resource-policy" := "same-origin"; COOP := "same-origin"; COEP := "require-corp"]};
         body := body upstream |}
  else
    withCoiHeaders (assets pathname)
      (if String.prefix "/static/" pathname then Some (cache_control, immutable) else None).

Definition isolates (r : SiteResponse) : Prop :=
  header_map r !! COOP = Some "same-origin" /\ header_map r !! COEP = Some "require-corp".

(** The wasm module cannot be had. *)
Definition module_fails (upstream : SiteResponse) (pathname : string) : bool :=
  String.eqb pathname "/wasm/duckdb-coi.wasm" && (negb (ok upstream) || bool_decide (body upstream = None)).

(** A response isolates its page exactly when it is not the one that says the module
    could not be had.  That one carries no cache directive, and the worker adds one only to the
    module and to assets under [/static/]; the status and the body of an asset are kept. *)
Theorem responses_isolate upstream assets pathname :
  let r := fetch upstream assets pathname in
  (isolates r <-> module_fails upstream pathname = false) /\
  (module_fails upstream pathname = true -> status r = 502 /\ header_map r !! cache_control = None) /\
  (pathname <> "/wasm/duckdb-coi.wasm" -> status r = status (assets pathname) /\ body r = body (assets pathname) /\
     (String.prefix "/static/" pathname = false ->
      header_map r !! cache_control = header_map (assets pathname) !! cache_control)).
Proof.
  unfold fetch, module_fails, isolates. destruct (String.eqb_spec pathname "/wasm/duckdb-coi.wasm") as [->|N]; cbn [andb].
  - destruct (negb (ok upstream) || bool_decide (body upstream = None)).
    + split; [split; [by intros [? _]|done]|]. split; [done|]. by intros [].
    + split; [split; [done|by intros _; split]|]. split; [done|]. by intros [].
  - split; [split; [done|intros _]|split; [done|intros _]]; unfold withCoiHeaders; cbn [header_map status body].
    + destruct (String.prefix "/static/" pathname); split;
        rewrite ?(lookup_insert_ne _ cache_control) by done; rewrite ?lookup_insert_eq; try done;
        by rewrite lookup_insert_ne, lookup_insert_eq.
    + split; [done|]. split; [done|]. intros ->. by rewrite !lookup_insert_ne.
Qed.
